(* ===== verification/_CoqProject ===== *)
-Q . S2P
Prelude.v
Netip.v
NetipText.v
HostPort.v
Checksum.v
Bart.v
SubnetLookup.v
Packet.v
ProxyHandler.v
NetTun.v
Pipes.v
AccessLog.v
RequestLog.v
HttpHandler.v
Resolver.v
SharedBind.v
HealthCheck.v
ProxyManager.v
Targets.v
Keys.v
Util.v
Clients.v
ClientService.v
Bandwidth.v
Relay.v
NetSettings.v
Routes.v
LocalEndpoints.v
ExitNode.v
HolePunch.v
Probe.v
WgTester.v
WebSocket.v
WsConfig.v
Calendar.v
Logger.v
Settings.v
Telemetry.v
WsDial.v
PingCheck.v
Sync.v
Gateway.v
Newt.v
Icmp.v
AuthDaemon.v
NativeSSH.v
Pam.v
Update.v
Docker.v
Requests.v
Blueprint.v
WinService.v
WinLogs.v
Main.v
