(* ===== verification/Prelude.v ===== *)
(** * newt: a verification development

    newt is the agent of a tunnelled reverse proxy.  It keeps a websocket to
    its server, brings up WireGuard tunnels in user space and forwards the
    traffic that arrives through them to services on the local network.  This
    library models the parts of it that carry the data path and its state and
    proves what makes them correct.  Every component is a translation of the
    Go code into executable definitions; the theorems are about those.

    ** The parts and how they interact

    - The program starts as a subcommand, as a Windows service or as newt
      itself ([main.go], [service_windows.go]); it then checks what it needs,
      sets up telemetry ([internal/telemetry/]) and logging ([logger/]), starts
      its parts and stops them again.
    - At start the settings of file, environment and flags are merged
      ([config.go]) and the websocket client is built from them
      ([newt/newt.go], [websocket/config.go]); on first contact it may exchange
      a provisioning key for credentials and save them.
    - The websocket client ([websocket/client.go]) connects, reads messages,
      pings, reconnects, and repeats requests until they are answered.  The
      exit nodes it is offered are pinged ([exitnode/]).
    - The server's messages reach the handlers of [newt/], which bring the
      tunnel up and down and pass targets, subnets, health checks, gateway
      destinations and client configuration to the components.  The ping check
      ([newt/ping.go]) watches the tunnel and starts a recovery.
    - Targets of the main tunnel are parsed ([newt/targets.go]) and given to
      the proxy manager ([proxy/manager.go]), which listens on the tunnel and
      copies bytes to the targets.  Client targets become access rules and
      client peers become commands on the WireGuard device
      ([clients/clients.go]).  The browser gateway ([browsergateway/]) bridges
      websockets to registered RDP, VNC and SSH destinations.
    - Packets of clients enter the netstack of [netstack2/].  The proxy
      handler looks each flow up in the rule table, rewrites destinations and
      their replies, keeps checksums right and hands accepted flows to the
      forwarders, pings to the ICMP proxy; the access and request loggers
      record sessions and requests and ship them in batches.
    - WireGuard and hole punching ([holepunch/]) share one UDP socket through
      [bind/], which also answers connection tests and routes injected packets;
      the tester of [holepunch/] sends such tests, and a small server answers
      those that come through the tunnel ([wgtester/]).  Traffic counters of
      the device are reported, and a relay copies datagrams between the tunnel
      and the shared socket ([clients/]).
    - The server announces SSH certificates: the authentication daemon
      ([authdaemon/]) creates the accounts and their rights, directly or at
      another host, and the SSH server of [nativessh/] and the browser gateway
      let their holders in.
    - HTTP targets of client sites are served by [netstack2/http_handler.go];
      names and connections inside a tunnel go through [netstack2/tun.go].
    - On platforms that bring their own tunnel, addresses and routes are kept
      as settings, applied with the system's tools ([network/]), and local
      addresses are ranked for the server ([network/localendpoints.go]).
    - newt can update itself ([updates/]), reports the containers of its host
      ([docker/]) and sends a blueprint file to the server whenever it changes
      ([newt/blueprint.go]).
    - The health monitor ([healthcheck/]) checks targets on timers and reports
      status changes.

    ** Files

    - [Prelude]: notation, hints, loops with early return, results that may
      panic, machine integers, time, sums, and the two places where the Go
      runtime leaves a result open (map iteration, [sort.Slice]).
    - [Netip], [NetipText], [HostPort]: [netip.Addr], [Prefix], [AddrPort],
      their parsers and printers, [net.SplitHostPort], [strconv.Atoi],
      [fmt.Sscanf("%d")].
    - [Checksum], [Packet]: the internet checksum with its carries and the
      IPv4, TCP, UDP header accessors the proxy handler uses.
    - [Bart]: the interface of the routing table library the rule table is
      built on, as a class with its documented laws and a reference instance.
    - [SubnetLookup]: [netstack2/subnet_lookup.go], the two-level rule table.
    - [ProxyHandler]: [netstack2/proxy.go] and the TCP and UDP forwarders of
      [netstack2/handlers.go]: destination NAT, its reverse, blocking.
    - [Icmp]: the ICMP handler of [netstack2/handlers.go].
    - [NetTun], [Pipes]: the TUN device of [netstack2/tun.go] with the queues
      of its two stacks, its notification calls as interleaved steps, its
      creation and its ping sockets; the copying of proxied TCP and UDP flows.
    - [AccessLog], [RequestLog]: [netstack2/access_log.go] and
      [http_request_log.go], with consolidation, flush, requeue and close.
    - [SharedBind]: [bind/shared_bind.go]: socket references, receive batches,
      magic packets, netstack routing and endpoints.
    - [HealthCheck]: [healthcheck/healthcheck.go]: the monitor's target table,
      its goroutines and the threshold automaton.
    - [HttpHandler], [Resolver]: [netstack2/http_handler.go] and the DNS
      client and dialler of [netstack2/tun.go].
    - [ProxyManager], [Targets]: [proxy/manager.go] and [newt/targets.go]:
      listeners, telemetry counters, target strings.
    - [Keys], [Util]: [util/util.go].
    - [Clients], [ClientService], [Bandwidth], [Relay]: [clients/clients.go]
      and [clients/ip.go]: messages, the life of the service and its socket,
      traffic reports, the direct relay.
    - [NetSettings], [Routes], [LocalEndpoints]: [network/] and the choice of
      local endpoints.
    - [ExitNode], [HolePunch], [Probe]: [exitnode/exitnode.go],
      [holepunch/holepunch.go] and [holepunch/tester.go].
    - [WgTester]: [wgtester/wgtester.go].
    - [WebSocket], [WsConfig], [WsDial]: the connection of
      [websocket/client.go] as a transition system, its configuration, tokens
      and provisioning with [websocket/config.go], and one attempt to connect
      with its address and its metrics.
    - [Calendar], [Logger], [Telemetry]: civil dates, [logger/] and
      [internal/telemetry/]: levels and lines, metric streams and their labels,
      start and shutdown of the exporters.
    - [Settings]: [config.go] and [Init] of [newt/newt.go].
    - [PingCheck], [Sync]: [newt/ping.go] and the target part of
      [newt/data.go].
    - [Gateway]: [browsergateway/]: admission and the RDP handshake's framing.
    - [Newt], [Requests]: the handlers of [newt/] over the components above.
    - [AuthDaemon], [NativeSSH], [Pam]: [authdaemon/], [nativessh/], and the
      certificate messages that drive them both.
    - [Update], [Docker], [Blueprint]: [updates/], [docker/docker.go] and
      [newt/blueprint.go].
    - [WinService], [WinLogs]: [service_windows.go]: the service and its
      commands, the rotation and the following of its log.
    - [Main]: [main.go], [authdaemon.go] and [Start] of [newt/newt.go].

    State is a record per component with the fields of the Go struct; a method
    is a function from the old state to the new one and its result.  Shared
    mutable objects that alias (health targets held by their goroutine and the
    table, byte counters held by open connections) live in a store indexed by
    locations.  A mutex makes a method one step; goroutines are events of an
    explicit trace.  Errors are [option], [bool] or error values, a run-time
    panic or the exit of [logger.Fatal] is [Panic].

    ** What the theorems show

    - C1, C2 ([SubnetLookup]): the rule table refines a finite map from
      canonical prefix pairs to rules, and [Match] is the most specific rule
      admitting the flow.
    - C3 to C5 ([ProxyHandler], [Packet]), C36 ([Icmp]): address rewriting and
      its reverse, checksums, the filter's decision, the proxied ping.
    - C27, C39 ([NetTun]): every packet the stacks queue is read once, however
      the calls that move it interleave, and what becomes of them when the
      device is closed.  C40 ([Pipes]): a proxied connection is copied whole.
    - C6, C7 ([Newt]): a sync reconciles every component; the handlers do not
      panic and repeat one request at a time.
    - C8, C9 ([Clients]), C22 ([Relay]), C23 ([Bandwidth]): rules and peers
      after the server's messages, one relay at a time, and reports that add
      up to what the device counted.
    - C10 to C13 ([Pam], [AuthDaemon], [NativeSSH]): the certificates the SSH
      server accepts are those that were announced; an announcement gives an
      account exactly its rights; sessions run as the account that logged in;
      the browser's shell needs a login.
    - C14, C15 ([Probe]): connectivity tests succeed only on their own echo,
      and do when the peer answers.
    - C16 ([HttpHandler]), C25 ([Resolver]): how a request is served and where
      it is sent; every DNS answer that is used answers the question.
    - C17, C18 ([WebSocket]): one connecting goroutine, termination after
      Close.
    - C19, C20 ([HealthCheck]): hysteresis of the status, exactness of a sync.
    - C21 ([NetSettings]), C26 ([Routes]): settings as a set of addresses and
      routes over slices that alias; what is added is removed again.
    - C24 ([Update]): a checked new binary or the old one.
    - C28 ([AccessLog]): consolidation groups exactly the mergeable runs.
    - C29, C30 ([SharedBind]): a batch is the received packets less the magic
      ones, and the socket's life cycle.
    - C31 ([ProxyManager]): conservation of counted bytes.
    - C32 ([Gateway]): what is dialed was registered.
    - C33, C34 ([Settings], [WsConfig]): type of settings, provisioning at most
      once.
    - C35 ([WinService]), C37 ([WinLogs]): the states and the exit code of the
      service; no log of the last thirty days is lost.
    - C38 ([HolePunch]): bounds of the interval.

    Beside these, each file keeps theorems of the same standing that are not
    numbered (colliding and released NAT entries, overflow and requeue of the
    logs, session counters, target strings, back-off, TLS validation, chain
    ids, framing of the RDP handshake, the principals file, names and dialling
    order, ranking of endpoints, free ports, versions, recovery once per
    outage, the labels and sums of the metrics, log lines, the blueprint's
    interpolation and debounce, installed services, the order in which the
    program starts and stops its parts, and others).

    Where the code falls short of what it means to do, the theorem states what
    it does (C7, C9, C14, C39 and several of the unnumbered ones, such as the
    races of [Probe] and [Telemetry], the restart of [WgTester], the receiver
    that [SharedBind] strands, the stop that leaves newt running in
    [WinService]).

    ** Parameters

    Code that is not in the repository is an argument, usually a class whose
    laws are what its documentation says, with an instance used by the
    witnesses: the bart table ([BartTable], [BartLaws]), gvisor's header
    formatting ([Headers], [IcmpHeaders] and their laws), name resolution,
    compression and the websocket sender of the loggers, wireguard-go's device
    and [wgtypes] ([Device], [DeviceLaws], [WgKeys]), JSON decoding ([decode]),
    the SSH library ([SshLib], [SshLaws]), the principals file's JSON
    ([PrincipalsJson]), DNS messages and lookups ([DnsParser], [DNS]), TLS key
    pairs ([X509KeyPair]), the Docker client ([DockerClient]), the file of
    service arguments ([ArgsJson]), the OpenTelemetry SDK ([sdk], [OtlpClose]),
    SHA-256.  Outcomes
    of the operating system (listen, dial, reads, files, commands, accounts,
    interfaces, the service manager) are arguments, records of answers
    ([machine], [sshHost], [Host], [updateWorld], [stackCalls], [winCalls],
    [fsCalls]) or trace events.  How much room [append] leaves is
    a parameter too ([GrowSlice]): settings are proved correct for every
    choice.

    ** Fuel and bounds

    Parsers and printers recurse on the text, or with its length as fuel, one
    character at least being consumed each time; the IPv6 parser and printer
    use the eight groups of an address; reading loops recurse on the list of
    reads; the checksum folds its carry back at every word.
    Integers are [Z] with the wrap-around of their Go width written out where
    a sum can overflow (checksums, byte counters, 64-bit totals).  Durations
    and times are nanoseconds; factors such as 1.5 on durations are exact
    rational steps rounded toward zero (Go's float64 product can differ by a
    nanosecond).  The bandwidth report is modelled in
    bytes, before its division by a megabyte; latencies are recorded as
    observations, without their floating point sums.  The commands of the
    service wait with fuel for more polls than their timeout allows, and the
    interpolation of a blueprint has the length of its text.

    ** Not modelled

    What is left calls the operating system or a library and keeps no state of
    its own: TUN file descriptors ([device/]), the permission checks of the
    platforms other than Linux, terminal sizes and the pseudo terminal of SSH
    sessions, the copying of bytes inside a browser gateway session, the
    installation of the forwarders in gvisor's stack, the HTTP transport, the
    encoding of JSON and YAML, the text that is printed to show a
    configuration, the programs under [examples/], stubs of other platforms
    and test helpers. *)

From stdpp Require Export base gmap strings list list_numbers sorting fin_maps pretty.
From Stdlib Require Export ZArith Lia.

#[global] Open Scope Z_scope.

(** ** Notation and automation shared by the components *)

Declare Scope newt_scope.
Delimit Scope newt_scope with newt.
#[global] Open Scope newt_scope.

(** [x] is representable as an unsigned integer of [w] bits. *)
Notation "x 'fits' w" := (0 <= x < 2 ^ w) (at level 70, w at level 69) : newt_scope.

(** The equations that normalise sums and texts ([autorewrite with newt]) and
    the membership facts that close side conditions ([eauto with newt]). *)
Create HintDb newt.
Create Rewrite HintDb newt.
#[export] Hint Resolve list_elem_of_here list_elem_of_further Forall_nil_2 : newt.

(** Close a goal about an element of a list with what holds of all of them. *)
Ltac by_forall H := rewrite Forall_forall in H; apply H; eauto with newt.

(** ** Loops with an early return

    [for_return f l] is [for _, x := range l { ... }] whose body either falls
    through to the next element ([None]) or returns a value ([Some r]). *)

Section loops.
Context {A B : Type}.

Fixpoint for_return (f : A → option B) (l : list A) : option B :=
  match l with
  | [] => None
  | x :: l' => match f x with
               | Some r => Some r
               | None => for_return f l'
               end
  end.

(** The loop falls through exactly when every iteration does. *)
Lemma for_return_None f l :
  for_return f l = None ↔ ∀ x, x ∈ l → f x = None.
Proof.
  induction l as [|y l IH]; simpl.
  - split; [intros _ x Hx; by apply elem_of_nil in Hx | done].
  - destruct (f y) eqn:Hy; [split; [done|intros H]|].
    + specialize (H y (list_elem_of_here _ _)). congruence.
    + rewrite IH. set_solver.
Qed.

(** The loop returns [r] exactly when some iteration does and all the earlier
    ones fall through. *)
Lemma for_return_Some f l r :
  for_return f l = Some r ↔
  ∃ l1 x l2, l = l1 ++ x :: l2 ∧ f x = Some r ∧ ∀ y, y ∈ l1 → f y = None.
Proof.
  induction l as [|y l IH]; simpl.
  - split; [done|]. intros (l1 & x & l2 & Heq & _). by destruct l1.
  - destruct (f y) eqn:Hy.
    + split.
      * intros [= ->]. exists [], y, l. set_solver.
      * intros ([|z l1] & x & l2 & Heq & Hx & Hl1); simplify_eq/=; [congruence|].
        specialize (Hl1 z (list_elem_of_here _ _)). congruence.
    + rewrite IH. split.
      * intros (l1 & x & l2 & -> & Hx & Hl1). exists (y :: l1), x, l2. set_solver.
      * intros ([|z l1] & x & l2 & Heq & Hx & Hl1); simplify_eq/=.
        exists l1, x, l2. set_solver.
Qed.

Lemma for_return_app f l1 l2 :
  for_return f (l1 ++ l2) =
  match for_return f l1 with Some r => Some r | None => for_return f l2 end.
Proof. induction l1 as [|x l1 IH]; simpl; [done|]. by destruct (f x). Qed.

End loops.

Lemma list_filter_all {A} (P : A → Prop) `{∀ x, Decision (P x)} (l : list A) :
  (∀ x, x ∈ l → P x) → filter P l = l.
Proof.
  induction l as [|x l IH]; intros Hl; [done|]. rewrite filter_cons_True by (apply Hl; set_solver).
  f_equal. apply IH. set_solver.
Qed.

Lemma list_filter_none {A} (P : A → Prop) `{∀ x, Decision (P x)} (l : list A) :
  (∀ x, x ∈ l → ¬ P x) → filter P l = [].
Proof.
  induction l as [|x l IH]; intros Hl; [done|]. rewrite filter_cons_False by (apply Hl; set_solver).
  apply IH. set_solver.
Qed.

Lemma existsb_elem {A} (f : A → bool) (l : list A) : existsb f l = true ↔ ∃ x, x ∈ l ∧ f x = true.
Proof. rewrite existsb_exists. split; intros (x & Hx & Hf); exists x; split; try done; by apply list_elem_of_In. Qed.

Lemma StronglySorted_impl {A} (R S : A → A → Prop) l :
  (∀ x y, R x y → S x y) → StronglySorted R l → StronglySorted S l.
Proof.
  intros HRS Hs. induction Hs as [|x l Hl IH Hall]; constructor; [done|].
  eapply Forall_impl; eauto.
Qed.

Lemma fmap_sublist {A B} (f : A → B) (k l : list A) : sublist k l → sublist (f <$> k) (f <$> l).
Proof. induction 1; simpl; by constructor. Qed.

(** ** Lists ordered by a strictly decreasing measure *)

Section descending.
Context {A : Type} (μ : A → Z).

(** Strictly decreasing along the list: the order of an iterator that yields
    the most specific entry first. *)
Definition descending (l : list A) : Prop := StronglySorted (λ x y, μ y < μ x) l.

Lemma descending_app_cons l1 x l2 y :
  descending (l1 ++ x :: l2) → y ∈ l1 ++ x :: l2 → μ x < μ y → y ∈ l1.
Proof.
  intros Hs Hy Hlt. apply elem_of_app in Hy as [|Hy]; [done|].
  apply StronglySorted_app_1_r in Hs as Hs2. apply StronglySorted_inv in Hs2 as [_ Hall].
  apply elem_of_cons in Hy as [->|Hy]; [lia|].
  rewrite Forall_forall in Hall. specialize (Hall y Hy). simpl in Hall. lia.
Qed.

Lemma descending_prefix_gt l1 x l2 y :
  descending (l1 ++ x :: l2) → y ∈ l1 → μ x < μ y.
Proof.
  induction l1 as [|z l1 IH]; intros Hs Hy; [by apply elem_of_nil in Hy|].
  apply StronglySorted_inv in Hs as [Hs Hall]. apply elem_of_cons in Hy as [->|Hy]; [|eauto].
  rewrite Forall_forall in Hall. apply (Hall x). set_solver.
Qed.

(** Two entries of a strictly decreasing list with the same measure coincide. *)
Lemma descending_inj l x y : descending l → x ∈ l → y ∈ l → μ x = μ y → x = y.
Proof.
  induction l as [|z l IH]; intros Hs Hx Hy Heq; [by apply elem_of_nil in Hx|].
  apply StronglySorted_inv in Hs as [Hs Hall]. rewrite Forall_forall in Hall.
  apply elem_of_cons in Hx as [->|Hx]; apply elem_of_cons in Hy as [->|Hy]; eauto;
    [specialize (Hall y Hy)|specialize (Hall x Hx)]; simpl in Hall; lia.
Qed.

(** The first returning iteration of a loop over a decreasing list is the
    returning entry of greatest measure. *)
Lemma for_return_descending {B} (f : A → option B) l r :
  descending l →
  for_return f l = Some r ↔
  ∃ x, x ∈ l ∧ f x = Some r ∧ ∀ y, y ∈ l → μ x < μ y → f y = None.
Proof.
  intros Hs. rewrite for_return_Some. split.
  - intros (l1 & x & l2 & -> & Hx & Hl1). exists x. split_and!; [set_solver|done|].
    intros y Hy Hlt. apply Hl1. by eapply descending_app_cons.
  - intros (x & Hx & Hfx & Hall). apply list_elem_of_split in Hx as (l1 & l2 & ->).
    exists l1, x, l2. split_and!; [done|done|]. intros y Hy. apply Hall; [set_solver|].
    by eapply descending_prefix_gt.
Qed.

End descending.

(** ** Go results

    A call that may panic: [Ret v] when it returns [v], [Panic] otherwise. *)

Inductive go (A : Type) : Type := Ret (a : A) | Panic.
Arguments Ret {A} a.
Arguments Panic {A}.

#[global] Instance go_ret : MRet go := λ A a, Ret a.
#[global] Instance go_bind : MBind go := λ A B f m, match m with Ret a => f a | Panic => Panic end.

(** Case analysis on results: compute, expose [Ret] and use the equations. *)
Ltac go_simpl := cbn in *; unfold mret, go_ret in *; simplify_eq/=.

(** A partial standard-library call, [None] being its panic. *)
Definition or_panic {A} (o : option A) : go A := match o with Some a => Ret a | None => Panic end.

(** ** Machine integers *)

Definition wrap16 (z : Z) : Z := z mod 65536.
Definition wrap64 (z : Z) : Z := z mod 2 ^ 64.
(** [^x] on [uint16]. *)
Definition not16 (z : Z) : Z := 65535 - z.
(** Two's complement wrap-around of [int32] and [int64]. *)
Definition swrap32 (z : Z) : Z := (z + 2 ^ 31) mod 2 ^ 32 - 2 ^ 31.
Definition swrap64 (z : Z) : Z := (z + 2 ^ 63) mod 2 ^ 64 - 2 ^ 63.

Lemma swrap64_id z : - 2 ^ 63 <= z < 2 ^ 63 → swrap64 z = z.
Proof. intros. unfold swrap64. rewrite Z.mod_small; lia. Qed.

Lemma swrap64_add_l a b : swrap64 (swrap64 a + b) = swrap64 (a + b).
Proof.
  unfold swrap64. f_equal.
  replace ((a + 2 ^ 63) mod 2 ^ 64 - 2 ^ 63 + b + 2 ^ 63) with ((a + 2 ^ 63) mod 2 ^ 64 + b) by lia.
  rewrite Zplus_mod_idemp_l. f_equal. lia.
Qed.

Definition byte_range (b : Z) : Prop := 0 <= b < 256.

(** ** Decimal printing ([%d], [strconv.Itoa]) *)

Definition itoa (z : Z) : string := pretty z.

Example itoa_examples : itoa 0 = "0"%string ∧ itoa 8080 = "8080"%string ∧ itoa (-7) = "-7"%string.
Proof. vm_compute. auto. Qed.

(** ** Parts of the Go runtime whose result is not determined

    Iterating over a map visits every entry once, in an order the language
    leaves open; [sort.Slice] is not stable, so elements its comparison does
    not separate may come out in any order.  Components that use either are
    proved for every implementation of these classes. *)

Class MapRange : Type := {
  range_map : ∀ {K} `{Countable K} {V}, gmap K V → list (K * V);
  range_map_perm : ∀ {K} `{Countable K} {V} (m : gmap K V), range_map m ≡ₚ map_to_list m;
}.

(** The order [less] induces: [x] may stand before [y] unless [less y x]. *)
Definition not_less {A} (less : A → A → bool) (x y : A) : Prop := less y x = false.

#[global] Instance not_less_dec {A} (less : A → A → bool) : RelDecision (not_less less).
Proof. intros x y. unfold not_less. apply _. Defined.

Class SortSlice : Type := {
  sort_slice : ∀ {A}, (A → A → bool) → list A → list A;
  sort_slice_perm : ∀ {A} less (l : list A), sort_slice less l ≡ₚ l;
  sort_slice_sorted : ∀ {A} less (l : list A),
    Transitive (not_less less) → Total (not_less less) → StronglySorted (not_less less) (sort_slice less l);
}.

(** Concrete choices, used to evaluate examples. *)
Definition canonical_range : MapRange.
Proof. refine {| range_map := λ K _ _ V m, map_to_list m |}. done. Defined.

Definition merge_sort_slice : SortSlice.
Proof.
  refine {| sort_slice := λ A less l, merge_sort (not_less less) l |}.
  - intros. apply merge_sort_Permutation.
  - intros. by apply StronglySorted_merge_sort.
Defined.

Lemma range_map_elem `{MapRange} `{Countable K} {V} (m : gmap K V) k v :
  (k, v) ∈ range_map m ↔ m !! k = Some v.
Proof. by rewrite range_map_perm, elem_of_map_to_list. Qed.

Lemma range_map_NoDup `{MapRange} `{Countable K} {V} (m : gmap K V) : NoDup (range_map m).*1.
Proof. rewrite range_map_perm. apply NoDup_fst_map_to_list. Qed.

(** ** Instants and durations

    A [time.Time] is its distance in nanoseconds from the zero [Time], whose
    value is therefore [0]; a [time.Duration] is an [int64] of nanoseconds. *)

Definition Second : Z := 1000000000.
Definition Minute : Z := 60 * Second.
Definition IsZero (t : Z) : bool := t =? 0.

(** [Time.Sub] saturates at the ends of [Duration]. *)
Definition timeSub (t u : Z) : Z := Z.max (- 2 ^ 63) (Z.min (2 ^ 63 - 1) (t - u)).

Lemma timeSub_le t u d : - 2 ^ 63 <= d < 2 ^ 63 - 1 → timeSub t u <= d ↔ t - u <= d.
Proof. unfold timeSub. lia. Qed.

(** Sum of a measure over a list. *)
Definition zsum {A} (f : A → Z) (l : list A) : Z := foldr (λ x acc, f x + acc) 0 l.

Lemma zsum_app {A} (f : A → Z) l k : zsum f (l ++ k) = zsum f l + zsum f k.
Proof. induction l as [|x l IH]; simpl; lia. Qed.

Lemma zsum_cons {A} (f : A → Z) x l : zsum f (x :: l) = f x + zsum f l.
Proof. done. Qed.

Lemma zsum_nonneg {A} (f : A → Z) l : (∀ x, 0 <= f x) → 0 <= zsum f l.
Proof. intros Hf. induction l as [|x l IH]; simpl; [lia|]. specialize (Hf x). lia. Qed.

#[global] Instance zsum_proper {A} (f : A → Z) : Proper ((≡ₚ) ==> (=)) (zsum f).
Proof. intros l k H. induction H; simpl; lia. Qed.

Lemma zsum_concat {A} (f : A → Z) (ls : list (list A)) : zsum f (concat ls) = zsum (zsum f) ls.
Proof. induction ls as [|l ls IH]; simpl; [done|]. rewrite zsum_app. lia. Qed.

Lemma elem_of_concat {A} (ls : list (list A)) x : x ∈ concat ls ↔ ∃ l, l ∈ ls ∧ x ∈ l.
Proof. induction ls as [|l ls IH]; simpl; set_solver. Qed.

(** ** Grouping by a key *)

(** Splitting a list by the values of a key loses and repeats nothing. *)
Lemma group_partition {A K} `{EqDecision K} (key : A → K) (ks : list K) (l : list A) :
  NoDup ks → (∀ x, x ∈ l → key x ∈ ks) →
  concat ((λ k, filter (λ x, key x = k) l) <$> ks) ≡ₚ l.
Proof.
  revert l. induction ks as [|k ks IH]; intros l Hnd Hin.
  - destruct l as [|x l]; [done|]. specialize (Hin x (list_elem_of_here _ _)). by apply elem_of_nil in Hin.
  - apply NoDup_cons in Hnd as [Hk Hnd]. simpl.
    trans (filter (λ x, key x = k) l ++ filter (λ x, ¬ key x = k) l); [|apply filter_app_complement].
    f_equiv. trans (concat ((λ k', filter (λ x, key x = k') (filter (λ x, ¬ key x = k) l)) <$> ks)); [|apply IH; [done|]].
    + apply reflexive_eq. f_equal. apply list_fmap_ext. intros i k' Hk'.
      apply list_elem_of_lookup_2 in Hk'. rewrite list_filter_filter. apply list_filter_iff.
      intros x. split; [|tauto]. intros ->. split; [done|]. by intros <-.
    + intros x [Hx Hxl]%list_elem_of_filter. specialize (Hin x Hxl). set_solver.
Qed.

Lemma swrap64_mod z : swrap64 z mod 2 ^ 64 = z mod 2 ^ 64.
Proof.
  unfold swrap64. rewrite Zminus_mod_idemp_l. f_equal. lia.
Qed.

(** Congruence of [int64] sums modulo wrap-around. *)
Lemma foldl_swrap64 {A} (f : A → Z) (l : list A) b :
  foldl (λ b x, swrap64 (b + f x)) b l mod 2 ^ 64 = (b + zsum f l) mod 2 ^ 64.
Proof.
  revert b. induction l as [|x l IH]; intros b; simpl; [f_equal; lia|].
  rewrite IH, <- Zplus_mod_idemp_l, swrap64_mod, Zplus_mod_idemp_l. f_equal. lia.
Qed.

#[export] Hint Rewrite @zsum_app @zsum_cons : newt.
