(* ===== verification/Netip.v ===== *)
(** * Addresses and prefixes (Go's [net/netip])

    The part of the standard package [net/netip] that newt computes with:
    addresses of the two families, prefixes and their canonical ("masked")
    form, containment, IPv4-mapped IPv6 addresses, and address/port pairs with
    their binary encoding.  An address is the integer value of its 32 or 128
    bits; IPv6 addresses carry their zone. *)

From S2P Require Import Prelude.

(** ** Addresses *)

Inductive Addr : Type :=
  | AddrInvalid                        (* the zero [netip.Addr{}] *)
  | Addr4 (ip : Z)
  | Addr6 (ip : Z) (zone : string).

#[global] Instance Addr_eq_dec : EqDecision Addr.
Proof. solve_decision. Defined.

#[global] Program Instance Addr_countable : Countable Addr :=
  inj_countable'
    (λ a, match a with
          | AddrInvalid => inl tt
          | Addr4 ip => inr (inl ip)
          | Addr6 ip z => inr (inr (ip, z))
          end)
    (λ x, match x with
          | inl _ => AddrInvalid
          | inr (inl ip) => Addr4 ip
          | inr (inr (ip, z)) => Addr6 ip z
          end) _.
Next Obligation. by intros []. Qed.

Definition BitLen (a : Addr) : Z :=
  match a with AddrInvalid => 0 | Addr4 _ => 32 | Addr6 _ _ => 128 end.

Definition IsValid (a : Addr) : bool :=
  match a with AddrInvalid => false | _ => true end.

(** The address bits as an integer. *)
Definition addr_bits (a : Addr) : Z :=
  match a with AddrInvalid => 0 | Addr4 ip => ip | Addr6 ip _ => ip end.

(** The value is in the range of its family. *)
Definition addr_in_range (a : Addr) : bool :=
  match a with
  | AddrInvalid => true
  | _ => (0 <=? addr_bits a) && (addr_bits a <? 2 ^ BitLen a)
  end.

Definition Is4In6 (a : Addr) : bool :=
  match a with Addr6 ip _ => Z.shiftr ip 32 =? 65535 | _ => false end.

(** [Unmap] drops the ::ffff: prefix (and the zone) of an IPv4-mapped address. *)
Definition Unmap (a : Addr) : Addr :=
  match a with
  | Addr6 ip _ => if Is4In6 a then Addr4 (Z.land ip (Z.ones 32)) else a
  | _ => a
  end.

Definition IsLoopback (a : Addr) : bool :=
  match Unmap a with
  | Addr4 ip => Z.shiftr ip 24 =? 127
  | Addr6 ip _ => ip =? 1
  | AddrInvalid => false
  end.

(** [As4]: the 32-bit value of an IPv4 or IPv4-mapped address; the Go method
    panics on every other address, here [None]. *)
Definition As4 (a : Addr) : option Z :=
  match a with
  | Addr4 ip => Some ip
  | Addr6 ip _ => if Is4In6 a then Some (Z.land ip (Z.ones 32)) else None
  | AddrInvalid => None
  end.

Lemma Unmap_not_4in6 a : Is4In6 (Unmap a) = false.
Proof. destruct a as [|ip|ip z]; try done. unfold Unmap. by destruct (Is4In6 (Addr6 ip z)) eqn:H. Qed.

Lemma Unmap_idemp a : Unmap (Unmap a) = Unmap a.
Proof.
  destruct a as [|ip|ip z]; try done. unfold Unmap at 2 3.
  destruct (Is4In6 (Addr6 ip z)) eqn:H; [done|]. unfold Unmap. by rewrite H.
Qed.

(** ** Prefixes *)

Record Prefix : Type := mkPrefix { pfx_addr : Addr; pfx_bits : Z }.

#[global] Instance Prefix_eq_dec : EqDecision Prefix.
Proof. solve_decision. Defined.

#[global] Program Instance Prefix_countable : Countable Prefix :=
  inj_countable' (λ p, (pfx_addr p, pfx_bits p)) (λ '(a, b), mkPrefix a b) _.
Next Obligation. by intros []. Qed.

Definition withoutZone (a : Addr) : Addr :=
  match a with Addr6 ip _ => Addr6 ip "" | _ => a end.

(** The zero [netip.Prefix{}] has [Bits() = -1]. *)
Definition PrefixInvalid : Prefix := mkPrefix AddrInvalid (-1).

Definition PrefixFrom (a : Addr) (bits : Z) : Prefix :=
  if IsValid a && (0 <=? bits) && (bits <=? BitLen a)
  then mkPrefix (withoutZone a) bits
  else mkPrefix (withoutZone a) (-1).

Definition prefix_valid (p : Prefix) : bool :=
  IsValid (pfx_addr p) && (0 <=? pfx_bits p) && (pfx_bits p <=? BitLen (pfx_addr p)).

(** Clear all but the top [bits] of a [w]-bit value. *)
Definition mask_bits (w ip bits : Z) : Z := Z.shiftl (Z.shiftr ip (w - bits)) (w - bits).

Definition mask_addr (a : Addr) (bits : Z) : Addr :=
  match a with
  | AddrInvalid => AddrInvalid
  | Addr4 ip => Addr4 (mask_bits 32 ip bits)
  | Addr6 ip _ => Addr6 (mask_bits 128 ip bits) ""
  end.

(** [Prefix.Masked]: the host bits cleared; the zero prefix when invalid. *)
Definition Masked (p : Prefix) : Prefix :=
  if prefix_valid p then mkPrefix (mask_addr (pfx_addr p) (pfx_bits p)) (pfx_bits p)
  else PrefixInvalid.

Definition same_family (a b : Addr) : bool :=
  match a, b with
  | Addr4 _, Addr4 _ | Addr6 _ _, Addr6 _ _ => true
  | _, _ => false
  end.

(** [Prefix.Contains]: same family and equal top bits. *)
Definition Contains (p : Prefix) (a : Addr) : bool :=
  prefix_valid p && same_family (pfx_addr p) a &&
  (Z.shiftr (addr_bits (pfx_addr p)) (BitLen a - pfx_bits p)
   =? Z.shiftr (addr_bits a) (BitLen a - pfx_bits p)).

(** A valid prefix with no host bits set: what [Masked] returns. *)
Definition canonical (p : Prefix) : Prop := prefix_valid p = true ∧ Masked p = p.

#[global] Instance canonical_dec p : Decision (canonical p).
Proof. unfold canonical. apply _. Defined.

(** [q] is a supernet of [p]. *)
Definition covers (q p : Prefix) : bool :=
  (pfx_bits q <=? pfx_bits p) && Contains q (pfx_addr p).

Lemma mask_bits_idemp w ip b : b <= w → mask_bits w (mask_bits w ip b) b = mask_bits w ip b.
Proof. intros. unfold mask_bits. rewrite Z.shiftr_shiftl_l, Z.sub_diag, Z.shiftl_0_r by lia. done. Qed.

Lemma mask_bits_shiftr w ip b :
  b <= w → Z.shiftr (mask_bits w ip b) (w - b) = Z.shiftr ip (w - b).
Proof. intros. unfold mask_bits. rewrite Z.shiftr_shiftl_l, Z.sub_diag, Z.shiftl_0_r by lia. done. Qed.

Lemma prefix_valid_spec p :
  prefix_valid p = true ↔
  IsValid (pfx_addr p) = true ∧ 0 <= pfx_bits p <= BitLen (pfx_addr p).
Proof. unfold prefix_valid. rewrite !andb_true_iff, !Z.leb_le. tauto. Qed.

Lemma Masked_valid p : prefix_valid p = true → prefix_valid (Masked p) = true.
Proof.
  intros Hv. unfold Masked. rewrite Hv. revert Hv. rewrite !prefix_valid_spec.
  by destruct p as [[|?|? ?] b].
Qed.

Lemma Masked_canonical p : prefix_valid p = true → canonical (Masked p).
Proof.
  intros Hv. split; [by apply Masked_valid|].
  unfold Masked at 1. rewrite (Masked_valid p Hv). unfold Masked. rewrite Hv.
  apply prefix_valid_spec in Hv as [Ha Hb].
  destruct p as [[|ip|ip z] b]; simpl in *; [done| |]; by rewrite mask_bits_idemp by lia.
Qed.

Lemma Masked_of_canonical p : canonical p → Masked p = p.
Proof. by intros []. Qed.

(** Masking does not change which addresses a prefix contains. *)
Lemma Contains_Masked p a : prefix_valid p = true → Contains (Masked p) a = Contains p a.
Proof.
  intros Hv. unfold Contains. rewrite Hv, Masked_valid by done.
  unfold Masked. rewrite Hv. apply prefix_valid_spec in Hv as [Ha Hb].
  destruct p as [[|ip|ip z] b], a as [|ip'|ip' z']; simpl in *; try done;
    by rewrite mask_bits_shiftr by lia.
Qed.

Lemma Masked_unfold p :
  prefix_valid p = true → Masked p = mkPrefix (mask_addr (pfx_addr p) (pfx_bits p)) (pfx_bits p).
Proof. intros Hv. unfold Masked. by rewrite Hv. Qed.

Lemma PrefixFrom_unfold a b :
  IsValid a = true → 0 <= b <= BitLen a → PrefixFrom a b = mkPrefix (withoutZone a) b.
Proof.
  intros Ha [Hb1 Hb2]. unfold PrefixFrom.
  by rewrite Ha, (proj2 (Z.leb_le 0 b) Hb1), (proj2 (Z.leb_le _ _) Hb2).
Qed.

Lemma PrefixFrom_valid a b :
  IsValid a = true → 0 <= b <= BitLen a → prefix_valid (PrefixFrom a b) = true.
Proof. intros Ha Hb. rewrite PrefixFrom_unfold by done. apply prefix_valid_spec. by destruct a. Qed.

Lemma Masked_PrefixFrom a b :
  IsValid a = true → 0 <= b <= BitLen a → Masked (PrefixFrom a b) = mkPrefix (mask_addr a b) b.
Proof.
  intros Ha Hb. rewrite Masked_unfold by (by apply PrefixFrom_valid).
  rewrite PrefixFrom_unfold by done. by destruct a.
Qed.

(** The prefix of full length of an address is that single address. *)
Lemma PrefixFrom_host a :
  IsValid a = true → PrefixFrom a (BitLen a) = mkPrefix (withoutZone a) (BitLen a).
Proof. intros Ha. apply PrefixFrom_unfold; [done|]. destruct a; simpl; lia. Qed.

Lemma Contains_spec p a :
  Contains p a = true ↔
  prefix_valid p = true ∧ same_family (pfx_addr p) a = true ∧
  mask_addr (pfx_addr p) (pfx_bits p) = mask_addr a (pfx_bits p).
Proof.
  unfold Contains. rewrite !andb_true_iff, Z.eqb_eq, !prefix_valid_spec.
  split.
  - intros [[Hv Hf] Heq]. split; [done|]. split; [done|].
    destruct p as [[|ip|ip z] b], a as [|ip'|ip' z']; simpl in *; try done;
      unfold mask_bits; by rewrite Heq.
  - intros (Hv & Hf & Heq). split; [done|].
    destruct p as [[|ip|ip z] b], a as [|ip'|ip' z']; simpl in *; try done; simplify_eq;
      by rewrite <- (mask_bits_shiftr _ ip), <- (mask_bits_shiftr _ ip') by lia; f_equal.
Qed.

Lemma same_family_valid a b :
  same_family a b = true → IsValid a = true ∧ IsValid b = true ∧ BitLen a = BitLen b.
Proof. by destruct a, b. Qed.

(** A canonical prefix is determined by its length and any address in it. *)
Lemma canonical_contains_eq q a :
  canonical q → Contains q a = true → q = Masked (PrefixFrom a (pfx_bits q)).
Proof.
  intros [Hv Hm] (_ & Hf & Heq)%Contains_spec.
  apply same_family_valid in Hf as (_ & Ha & Hl).
  apply prefix_valid_spec in Hv as Hb. destruct Hb as [_ Hb].
  rewrite Masked_PrefixFrom by (done || lia). rewrite <- Heq, <- Masked_unfold; done.
Qed.

Lemma Masked_PrefixFrom_contains a b :
  IsValid a = true → 0 <= b <= BitLen a → Contains (Masked (PrefixFrom a b)) a = true.
Proof.
  intros Ha Hb. rewrite Contains_Masked by (by apply PrefixFrom_valid).
  apply Contains_spec. rewrite PrefixFrom_unfold by done. split_and!.
  - rewrite <- PrefixFrom_unfold by done. by apply PrefixFrom_valid.
  - by destruct a.
  - by destruct a.
Qed.

(** ** Address/port pairs *)

Record AddrPort : Type := mkAddrPort { ap_addr : Addr; ap_port : Z }.

#[global] Instance AddrPort_eq_dec : EqDecision AddrPort.
Proof. solve_decision. Defined.

#[global] Program Instance AddrPort_countable : Countable AddrPort :=
  inj_countable' (λ p, (ap_addr p, ap_port p)) (λ '(a, b), mkAddrPort a b) _.
Next Obligation. by intros []. Qed.

Definition ap_valid (ap : AddrPort) : bool := IsValid (ap_addr ap).
