(* ===== verification/NetipText.v ===== *)
(** * The text form of addresses and prefixes (Go's [net/netip])

    [netip.Addr.String], [netip.ParseAddr] and [netip.ParsePrefix], for both
    families, over lists of characters.  newt keys its NAT tables by address
    strings and reads every rule and rewrite target as text, so the printer
    and the parsers are part of the model; the IPv4 round trip shows that
    distinct IPv4 addresses have distinct strings. *)

From S2P Require Import Prelude Netip.
From Stdlib Require Import Ascii.

Definition chars := list ascii.
Definition str (s : string) : list ascii := String.list_ascii_of_string s.
Definition unstr (l : list ascii) : string := String.string_of_list_ascii l.

Definition ch (n : Z) : ascii := ascii_of_nat (Z.to_nat n).
Definition code (c : ascii) : Z := Z.of_nat (nat_of_ascii c).

Definition c_dot : ascii := "."%char.
Definition c_colon : ascii := ":"%char.
Definition c_percent : ascii := "%"%char.
Definition c_slash : ascii := "/"%char.

(** ** Printing *)

(** [appendDecimal], for a byte. *)
Definition appendDecimal (x : Z) : list ascii :=
  (if 100 <=? x then [ch (48 + x / 100)] else []) ++
  (if 10 <=? x then [ch (48 + x / 10 mod 10)] else []) ++
  [ch (48 + x mod 10)].

Definition hexDigit (x : Z) : ascii := if x <? 10 then ch (48 + x) else ch (87 + x).

(** [appendHex], for a 16-bit group: no leading zeros. *)
Definition appendHex (x : Z) : list ascii :=
  (if 4096 <=? x then [hexDigit (Z.shiftr x 12)] else []) ++
  (if 256 <=? x then [hexDigit (Z.land (Z.shiftr x 8) 15)] else []) ++
  (if 16 <=? x then [hexDigit (Z.land (Z.shiftr x 4) 15)] else []) ++
  [hexDigit (Z.land x 15)].

(** Byte [i] (0 = most significant) of a 32-bit value. *)
Definition v4 (ip i : Z) : Z := Z.land (Z.shiftr ip (8 * (3 - i))) 255.

(** 16-bit group [i] (0 = most significant) of a 128-bit value. *)
Definition v6u16 (ip : Z) (i : nat) : Z := Z.land (Z.shiftr ip (16 * (7 - Z.of_nat i))) 65535.

Definition string4 (ip : Z) : list ascii :=
  appendDecimal (v4 ip 0) ++ c_dot :: appendDecimal (v4 ip 1) ++
  c_dot :: appendDecimal (v4 ip 2) ++ c_dot :: appendDecimal (v4 ip 3).

(** Length of the run of zero groups that starts at [i]. *)
Fixpoint zero_run (fuel : nat) (ip : Z) (i : nat) : nat :=
  match fuel with
  | O => O
  | S f => if Nat.ltb i 8 && (v6u16 ip i =? 0) then S (zero_run f ip (S i)) else O
  end.

(** The first longest run of at least two zero groups, as (start, end). *)
Definition zero_span (ip : Z) : nat * nat :=
  foldl (λ '(zs, ze) i,
           let l := zero_run 8 ip i in
           if Nat.leb 2 l && Nat.ltb (ze - zs) l then (i, (i + l)%nat) else (zs, ze))
    (255%nat, 255%nat) (seq 0 8).

(** The printing loop of [appendTo6]. *)
Fixpoint groups6 (fuel : nat) (ip : Z) (zs ze i : nat) : list ascii :=
  match fuel with
  | O => []
  | S f =>
      if Nat.leb 8 i then []
      else if Nat.eqb i zs then
        c_colon :: c_colon ::
        (if Nat.leb 8 ze then [] else appendHex (v6u16 ip ze) ++ groups6 f ip zs ze (S ze))
      else (if Nat.ltb 0 i then [c_colon] else []) ++ appendHex (v6u16 ip i) ++ groups6 f ip zs ze (S i)
  end.

Definition string6 (ip : Z) (zone : string) : list ascii :=
  let '(zs, ze) := zero_span ip in
  groups6 9 ip zs ze 0 ++ (if bool_decide (zone = "") then [] else c_percent :: str zone).

Definition addr_chars (a : Addr) : list ascii :=
  match a with
  | AddrInvalid => str "invalid IP"
  | Addr4 ip => string4 ip
  | Addr6 ip z =>
      if Is4In6 a then
        str "::ffff:" ++ string4 (Z.land ip (Z.ones 32)) ++
        (if bool_decide (z = "") then [] else c_percent :: str z)
      else string6 ip z
  end.

(** [Addr.String]. *)
Definition AddrString (a : Addr) : string := unstr (addr_chars a).

(** ** Parsing *)

(** [parseIPv4Fields]: [done] holds the finished octets (latest first),
    [val]/[digLen] the octet being read, [prev_dot] whether the previous
    character was a dot (or there was none). *)
Fixpoint parse4_fields (s : list ascii) (done : list Z) (val : Z) (digLen : nat) (prev_dot : bool)
    : option (list Z) :=
  match s with
  | [] => if Nat.eqb (length done) 3 && negb prev_dot then Some (rev (val :: done)) else None
  | c :: s' =>
      let d := code c - 48 in
      if (0 <=? d) && (d <=? 9) then
        if Nat.eqb digLen 1 && (val =? 0) then None
        else let val' := val * 10 + d in
             if 255 <? val' then None else parse4_fields s' done val' (S digLen) false
      else if Ascii.eqb c c_dot then
        if prev_dot then None
        else if Nat.eqb (length done) 3 then None
        else parse4_fields s' (val :: done) 0 0 true
      else None
  end.

(** Big-endian value of a byte list. *)
Definition be_value (l : list Z) : Z := foldl (λ acc b, acc * 256 + b) 0 l.

Definition parseIPv4 (s : list ascii) : option Addr :=
  f ← parse4_fields s [] 0 0 true; Some (Addr4 (be_value f)).

Definition hexVal (c : ascii) : option Z :=
  let n := code c in
  if (48 <=? n) && (n <=? 57) then Some (n - 48)
  else if (97 <=? n) && (n <=? 102) then Some (n - 87)
  else if (65 <=? n) && (n <=? 70) then Some (n - 55)
  else None.

(** The hex digits at the head of [s]: value, number of digits and the rest;
    [None] for a group of more than four digits. *)
Fixpoint hex_group (s : list ascii) (acc : Z) (off : nat) : option (Z * nat * list ascii) :=
  match s with
  | c :: s' =>
      match hexVal c with
      | Some d => if Nat.ltb 3 off then None else hex_group s' (acc * 16 + d) (S off)
      | None => Some (acc, off, s)
      end
  | [] => Some (acc, off, s)
  end.

(** The group loop of [parseIPv6]: [bs] holds the bytes read so far,
    [ell] the byte position of the ellipsis.  Returns the bytes, the ellipsis
    and the unread rest. *)
Fixpoint parse6_loop (fuel : nat) (s : list ascii) (bs : list Z) (ell : option nat)
    : option (list Z * option nat * list ascii) :=
  match fuel with
  | O => Some (bs, ell, s)
  | S f =>
      if Nat.leb 16 (length bs) then Some (bs, ell, s) else
      '(acc, off, rest) ← hex_group s 0 0;
      if Nat.eqb off 0 then None else
      if match rest with c :: _ => Ascii.eqb c c_dot | [] => false end then
        if match ell with None => negb (Nat.eqb (length bs) 12) | Some _ => false end then None
        else if Nat.ltb 16 (length bs + 4) then None
        else f4 ← parse4_fields s [] 0 0 true; Some (bs ++ f4, ell, [])
      else
        let bs' := bs ++ [Z.shiftr acc 8; Z.land acc 255] in
        match rest with
        | [] => Some (bs', ell, [])
        | c :: rest' =>
            if negb (Ascii.eqb c c_colon) then None else
            match rest' with
            | [] => None
            | c2 :: rest2 =>
                if Ascii.eqb c2 c_colon then
                  match ell with
                  | Some _ => None
                  | None => match rest2 with
                            | [] => Some (bs', Some (length bs'), [])
                            | _ => parse6_loop f rest2 bs' (Some (length bs'))
                            end
                  end
                else parse6_loop f rest' bs' ell
            end
        end
  end.

(** Split at the first occurrence of [c]. *)
Fixpoint cut (c : ascii) (s : list ascii) : list ascii * option (list ascii) :=
  match s with
  | [] => ([], None)
  | x :: s' => if Ascii.eqb x c then ([], Some s')
               else let '(a, b) := cut c s' in (x :: a, b)
  end.

Definition finish6 (bs : list Z) (ell : option nat) (rest : list ascii) (zone : string) : option Addr :=
  if negb (Nat.eqb (length rest) 0) then None
  else if Nat.ltb (length bs) 16 then
    match ell with
    | None => None
    | Some e => Some (Addr6 (be_value (take e bs ++ replicate (16 - length bs) 0 ++ drop e bs)) zone)
    end
  else match ell with Some _ => None | None => Some (Addr6 (be_value bs) zone) end.

Definition parseIPv6 (input : list ascii) : option Addr :=
  let '(s, z) := cut c_percent input in
  match z with
  | Some [] => None
  | _ =>
      let zone := match z with Some zz => unstr zz | None => ""%string end in
      match s with
      | c1 :: c2 :: s' =>
          if Ascii.eqb c1 c_colon && Ascii.eqb c2 c_colon then
            match s' with
            | [] => Some (Addr6 0 zone)
            | _ => '(bs, ell, rest) ← parse6_loop 8 s' [] (Some 0%nat); finish6 bs ell rest zone
            end
          else '(bs, ell, rest) ← parse6_loop 8 s [] None; finish6 bs ell rest zone
      | _ => '(bs, ell, rest) ← parse6_loop 8 s [] None; finish6 bs ell rest zone
      end
  end.

(** The dispatch of [ParseAddr] on the first of ['.'], [':'] and ['%']. *)
Fixpoint parse_dispatch (whole s : list ascii) : option Addr :=
  match s with
  | [] => None
  | c :: s' =>
      if Ascii.eqb c c_dot then parseIPv4 whole
      else if Ascii.eqb c c_colon then parseIPv6 whole
      else if Ascii.eqb c c_percent then None
      else parse_dispatch whole s'
  end.

Definition parseAddr (s : list ascii) : option Addr := parse_dispatch s s.
Definition ParseAddr (s : string) : option Addr := parseAddr (str s).

(** [net.ParseIP]: an address without a zone. *)
Definition ParseIP (s : string) : option Addr :=
  match ParseAddr s with
  | Some (Addr6 ip zone) => if bool_decide (zone = "") then Some (Addr6 ip zone) else None
  | r => r
  end.

(** Decimal value of a non-empty string of digits. *)
Fixpoint digits_value (s : list ascii) (acc : Z) : option Z :=
  match s with
  | [] => Some acc
  | c :: s' => let d := code c - 48 in
               if (0 <=? d) && (d <=? 9) then digits_value s' (acc * 10 + d) else None
  end.

(** The bits field of a prefix: digits without a leading zero or sign. *)
Definition parse_bits (s : list ascii) : option Z :=
  match s with
  | [] => None
  | c :: s' =>
      if Nat.ltb 1 (length s) && negb ((49 <=? code c) && (code c <=? 57)) then None
      else digits_value s 0
  end.

(** Split at the last occurrence of [c]. *)
Definition rcut (c : ascii) (s : list ascii) : option (list ascii * list ascii) :=
  match cut c (rev s) with
  | (_, None) => None
  | (b, Some a) => Some (rev a, rev b)
  end.

Definition parsePrefix (s : list ascii) : option Prefix :=
  '(a, b) ← rcut c_slash s;
  ip ← parseAddr a;
  if match ip with Addr6 _ z => negb (bool_decide (z = "")) | _ => false end then None else
  bits ← parse_bits b;
  if BitLen ip <? bits then None else Some (PrefixFrom ip bits).

Definition ParsePrefix (s : string) : option Prefix := parsePrefix (str s).

Example parse_print_examples :
  AddrString (Addr4 3232235777) = "192.168.1.1"%string ∧
  ParseAddr "192.168.1.1" = Some (Addr4 3232235777) ∧
  ParseAddr "192.168.01.1" = None ∧ ParseAddr "1.2.3.4." = None ∧ ParseAddr "1..2.3" = None ∧
  ParseAddr "256.1.1.1" = None ∧ ParseAddr "example.com" = None ∧
  ParseAddr "2001:db8::1" = Some (Addr6 (0x2001_0db8 * 2 ^ 96 + 1) "") ∧
  AddrString (Addr6 (0x2001_0db8 * 2 ^ 96 + 1) "") = "2001:db8::1"%string ∧
  AddrString (Addr6 0 "") = "::"%string ∧ ParseAddr "::" = Some (Addr6 0 "") ∧
  ParseAddr "fe80::1%eth0" = Some (Addr6 (0xfe80 * 2 ^ 112 + 1) "eth0") ∧
  AddrString (Addr6 (0xfe80 * 2 ^ 112 + 1) "eth0") = "fe80::1%eth0"%string ∧
  ParseAddr "::ffff:1.2.3.4" = Some (Addr6 (0xffff * 2 ^ 32 + 0x01020304) "") ∧
  AddrString (Addr6 (0xffff * 2 ^ 32 + 0x01020304) "") = "::ffff:1.2.3.4"%string ∧
  ParseAddr "1:2:3:4:5:6:7:8" = Some (Addr6 0x0001_0002_0003_0004_0005_0006_0007_0008 "") ∧
  ParseAddr "1:2:3:4:5:6:7" = None ∧ ParseAddr "1::2::3" = None ∧
  ParseAddr "1:2:3:4:5:6:7::" = Some (Addr6 0x0001_0002_0003_0004_0005_0006_0007_0000 "") ∧
  ParsePrefix "10.0.0.5/24" = Some (mkPrefix (Addr4 0x0a000005) 24) ∧
  ParsePrefix "10.0.0.5/33" = None ∧ ParsePrefix "10.0.0.5/024" = None ∧
  ParsePrefix "10.0.0.5" = None ∧ ParsePrefix "fe80::1%eth0/64" = None ∧
  ParsePrefix "::/0" = Some (mkPrefix (Addr6 0 "") 0).
Proof. vm_compute. repeat split; reflexivity. Qed.

(** ** Lemmas *)

Lemma str_app a b : str (a +:+ b) = str a ++ str b.
Proof. unfold str. induction a as [|c a IH]; simpl; [done|]. f_equal. exact IH. Qed.

Lemma unstr_str s : unstr (str s) = s.
Proof. apply String.string_of_list_ascii_of_string. Qed.

Lemma str_unstr l : str (unstr l) = l.
Proof. apply String.list_ascii_of_string_of_list_ascii. Qed.

#[export] Hint Rewrite str_app str_unstr unstr_str : newt.

Lemma code_ch n : 0 <= n < 256 → code (ch n) = n.
Proof. intros Hn. unfold code, ch. rewrite nat_ascii_embedding by lia. lia. Qed.

Lemma parse4_digit d s done val n p :
  0 <= d <= 9 → (n = 1%nat → val ≠ 0) → 0 <= val → val * 10 + d <= 255 →
  parse4_fields (ch (48 + d) :: s) done val n p = parse4_fields s done (val * 10 + d) (S n) false.
Proof.
  intros Hd Hn Hv Hmax. cbn [parse4_fields]. rewrite code_ch by lia.
  replace (48 + d - 48) with d by lia.
  rewrite (proj2 (Z.leb_le 0 d)), (proj2 (Z.leb_le d 9)) by lia. cbn [andb].
  destruct (Nat.eqb_spec n 1) as [Hn1|]; [rewrite (proj2 (Z.eqb_neq val 0)) by auto|]; cbn [andb];
    by rewrite (proj2 (Z.ltb_ge 255 _)) by lia.
Qed.

(** Reading back one printed octet. *)
Lemma parse4_decimal x s done p :
  0 <= x < 256 →
  parse4_fields (appendDecimal x ++ s) done 0 0 p =
  parse4_fields s done x (length (appendDecimal x)) false.
Proof.
  intros Hx. unfold appendDecimal.
  destruct (Z.leb_spec 100 x), (Z.leb_spec 10 x); try lia; cbn [app length];
    repeat (rewrite parse4_digit by (intros; Z.div_mod_to_equations; lia)); f_equal;
    Z.div_mod_to_equations; lia.
Qed.

Lemma parse4_dot s done val n :
  (length done < 3)%nat →
  parse4_fields (c_dot :: s) done val n false = parse4_fields s (val :: done) 0 0 true.
Proof. intros Hl. cbn. destruct (Nat.eqb_spec (length done) 3); [lia|done]. Qed.

Lemma v4_range ip i : 0 <= v4 ip i < 256.
Proof. unfold v4. change 255 with (Z.ones 8). rewrite Z.land_ones by lia. apply Z.mod_pos_bound. lia. Qed.

Lemma v4_value ip : ip fits 32 → be_value [v4 ip 0; v4 ip 1; v4 ip 2; v4 ip 3] = ip.
Proof.
  intros Hip. unfold be_value, v4; cbn [foldl]. change 255 with (Z.ones 8).
  rewrite !Z.land_ones, !Z.shiftr_div_pow2 by lia.
  change (2 ^ (8 * (3 - 0))) with 16777216. change (2 ^ (8 * (3 - 1))) with 65536.
  change (2 ^ (8 * (3 - 2))) with 256. change (2 ^ (8 * (3 - 3))) with 1. change (2 ^ 8) with 256.
  change (2 ^ 32) with 4294967296 in Hip. Z.div_mod_to_equations. lia.
Qed.

Lemma parse4_string4 ip : ip fits 32 → parseIPv4 (string4 ip) = Some (Addr4 ip).
Proof.
  intros Hip. unfold parseIPv4, string4.
  do 3 (rewrite parse4_decimal by apply v4_range; rewrite parse4_dot by (simpl; lia)).
  rewrite <- (app_nil_r (appendDecimal (v4 ip 3))), parse4_decimal by apply v4_range.
  cbn [parse4_fields length Nat.eqb negb andb rev app mbind option_bind]. by rewrite v4_value.
Qed.

(** The dot is reached first in a printed IPv4 address. *)
Lemma parse_dispatch_digits w s n :
  0 <= n <= 9 → parse_dispatch w (ch (48 + n) :: s) = parse_dispatch w s.
Proof.
  intros Hn. assert (∀ c, code c < 48 ∨ 57 < code c → Ascii.eqb (ch (48 + n)) c = false) as Hne.
  { intros c Hc. apply Ascii.eqb_neq. intros <-. rewrite code_ch in Hc by lia. lia. }
  cbn [parse_dispatch]. by rewrite !Hne by (vm_compute; auto).
Qed.

Lemma parseAddr_string4 ip : ip fits 32 → parseAddr (string4 ip) = Some (Addr4 ip).
Proof.
  intros Hip. unfold parseAddr.
  assert (∀ w, parse_dispatch w (string4 ip) = parseIPv4 w) as ->; [|by apply parse4_string4].
  intros w. unfold string4, appendDecimal. pose proof (v4_range ip 0) as Hr.
  destruct (Z.leb_spec 100 (v4 ip 0)), (Z.leb_spec 10 (v4 ip 0)); try lia; cbn [app];
    repeat (rewrite parse_dispatch_digits by (Z.div_mod_to_equations; lia)); done.
Qed.

Lemma ParseAddr_String4 ip : ip fits 32 → ParseAddr (AddrString (Addr4 ip)) = Some (Addr4 ip).
Proof. intros. unfold ParseAddr, AddrString. rewrite str_unstr. by apply parseAddr_string4. Qed.

(** Distinct IPv4 addresses have distinct strings. *)
Lemma AddrString_inj4 a b :
  a fits 32 → b fits 32 → AddrString (Addr4 a) = AddrString (Addr4 b) → a = b.
Proof.
  intros Ha Hb Heq. apply ParseAddr_String4 in Ha, Hb. rewrite Heq in Ha. congruence.
Qed.

Lemma parseAddr_valid s a : parseAddr s = Some a → IsValid a = true.
Proof.
  unfold parseAddr. generalize s at 1 as w. intros w.
  assert (parseIPv4 w = Some a → IsValid a = true) as H4.
  { unfold parseIPv4. destruct (parse4_fields _ _ _ _ _); [|done]. by intros [= <-]. }
  assert (∀ bs ell rest z, finish6 bs ell rest z = Some a → IsValid a = true) as Hf.
  { intros bs ell rest z. unfold finish6. repeat case_match; try done; by intros [= <-]. }
  assert (parseIPv6 w = Some a → IsValid a = true) as H6.
  { unfold parseIPv6. destruct (cut c_percent w) as [s' z].
    assert (∀ (o : option (list Z * option nat * chars)) zn,
      ('(bs, ell, rest) ← o; finish6 bs ell rest zn) = Some a → IsValid a = true) as Hb.
    { intros [[[??]?]|] zn; [apply Hf|done]. }
    destruct z as [[|z0 z]|]; [done|..]; destruct s' as [|c1 [|c2 s']]; try apply Hb;
      destruct (Ascii.eqb c1 c_colon && Ascii.eqb c2 c_colon); try apply Hb;
      destruct s'; try apply Hb; by intros [= <-]. }
  induction s as [|c s IH]; simpl; [done|]. repeat case_match; auto. done.
Qed.

Lemma digits_value_nonneg s acc v : 0 <= acc → digits_value s acc = Some v → 0 <= v.
Proof.
  revert acc. induction s as [|c s IH]; intros acc Hacc; simpl; [by intros [= <-]|].
  destruct (Z.leb_spec 0 (code c - 48)), (Z.leb_spec (code c - 48) 9); simpl; try done.
  apply IH. lia.
Qed.

(** Every prefix that parses is valid. *)
Lemma ParsePrefix_valid s p : ParsePrefix s = Some p → prefix_valid p = true.
Proof.
  unfold ParsePrefix, parsePrefix. destruct (rcut _ _) as [[a b]|]; [|done]. cbn [mbind option_bind].
  destruct (parseAddr a) as [ip|] eqn:Hip; [|done]. cbn [mbind option_bind].
  destruct (match ip with Addr6 _ z => _ | _ => _ end); [done|].
  destruct (parse_bits b) as [bits|] eqn:Hb; [|done]. cbn [mbind option_bind].
  destruct (Z.ltb_spec (BitLen ip) bits); [done|]. intros [= <-].
  apply PrefixFrom_valid; [by eapply parseAddr_valid|]. split; [|lia].
  unfold parse_bits in Hb. destruct b; [done|]. case_match; [done|].
  by eapply digits_value_nonneg.
Qed.
