(* ===== verification/HostPort.v ===== *)
(** * Host and port text (Go's [net], [fmt] and [strconv])

    [net.SplitHostPort], [net.JoinHostPort] and the decimal integers read by
    [fmt.Sscanf] with ["%d"], over lists of characters.  Access logs, health
    checks, proxy targets and the hole-punching code all take addresses apart
    and put them together with these functions; the round trips proved here
    are what those components rely on. *)

From S2P Require Import Prelude Netip NetipText.
From Stdlib Require Import Ascii.

Definition c_open : ascii := "["%char.
Definition c_close : ascii := "]"%char.

(** [strings.IndexByte s c >= 0]. *)
Definition has (c : ascii) (s : list ascii) : bool := existsb (Ascii.eqb c) s.

(** ** [net.SplitHostPort] and [net.JoinHostPort] *)

(** [None] is every error of [SplitHostPort] (missing port, too many colons,
    misplaced brackets); newt never looks at which one it is. *)
Definition splitHostPort (s : list ascii) : option (list ascii * list ascii) :=
  '(before, port) ← rcut c_colon s;
  match s with
  | [] => None
  | c :: s' =>
      if Ascii.eqb c c_open then
        match cut c_close s' with
        | (_, None) => None
        | (host, Some rest) =>
            match rest with
            | [] => None
            | d :: rest' =>
                if Ascii.eqb d c_colon && negb (has c_colon rest') then
                  if has c_open s' then None else if has c_close rest then None else Some (host, port)
                else None
            end
        end
      else
        if has c_colon before then None
        else if has c_open s then None
        else if has c_close s then None
        else Some (before, port)
  end.

Definition SplitHostPort (s : string) : option (string * string) :=
  '(h, p) ← splitHostPort (str s); Some (unstr h, unstr p).

Definition joinHostPort (host port : list ascii) : list ascii :=
  if has c_colon host then c_open :: host ++ c_close :: c_colon :: port else host ++ c_colon :: port.

Definition JoinHostPort (host port : string) : string := unstr (joinHostPort (str host) (str port)).

(** ** [fmt.Sscanf(s, "%d", &n)] with an [int] *)

Definition isDigit (c : ascii) : bool := let d := code c - 48 in (0 <=? d) && (d <=? 9).

(** The blanks [Sscanf] skips before a verb; a newline is an error there. *)
Definition isBlank (c : ascii) : bool :=
  bool_decide (code c ∈ [9; 11; 12; 13; 32]).

Fixpoint skipSpace (s : list ascii) : list ascii :=
  match s with
  | c :: s' =>
      if isBlank c then
        match s' with
        | d :: _ => if (code c =? 13) && (code d =? 10) then s else skipSpace s'
        | [] => []
        end
      else s
  | [] => []
  end.

Fixpoint takeDigits (s : list ascii) : list ascii :=
  match s with
  | c :: s' => if isDigit c then c :: takeDigits s' else []
  | [] => []
  end.

Definition scanSign (s : list ascii) : bool * list ascii :=
  match s with
  | c :: s' => if Ascii.eqb c "-"%char then (true, s')
               else if Ascii.eqb c "+"%char then (false, s') else (false, s)
  | [] => (false, s)
  end.

(** Characters after the digits are left unread and are not an error. *)
Definition sscanf_d (s : list ascii) : option Z :=
  let '(neg, r) := scanSign (skipSpace s) in
  match takeDigits r with
  | [] => None
  | ds =>
      v ← digits_value ds 0;
      let v' := if (neg : bool) then - v else v in
      if (- 2 ^ 63 <=? v') && (v' <? 2 ^ 63) then Some v' else None
  end.

(** ** [strconv.Atoi] *)

Definition atoiSyntax (s : string) : option Z :=
  let '(neg, ds) := match str s with
                    | "-"%char :: r => (true, r)
                    | "+"%char :: r => (false, r)
                    | r => (false, r)
                    end in
  if Nat.eqb (length ds) 0 then None
  else n ← digits_value ds 0; Some (if neg : bool then - n else n).

Definition Atoi (s : string) : option Z :=
  z ← atoiSyntax s; if (- 2 ^ 63 <=? z) && (z <? 2 ^ 63) then Some z else None.

(** The number [Atoi] returns, for callers that ignore its error: zero for a
    text that is no number, the nearest [int] for one out of range. *)
Definition AtoiValue (s : string) : Z :=
  match atoiSyntax s with Some z => Z.max (- 2 ^ 63) (Z.min (2 ^ 63 - 1) z) | None => 0 end.

Example split_examples :
  SplitHostPort "10.0.0.1:80" = Some ("10.0.0.1", "80")%string ∧
  SplitHostPort "[fd00::1]:443" = Some ("fd00::1", "443")%string ∧
  SplitHostPort "fd00::1" = None ∧ SplitHostPort "10.0.0.1" = None ∧
  SplitHostPort "[::1]" = None ∧ SplitHostPort "[::1]x:80" = None ∧
  SplitHostPort "[::1]:80:90" = None ∧ SplitHostPort ":80" = Some ("", "80")%string ∧
  SplitHostPort "" = None ∧ SplitHostPort "a:" = Some ("a", "")%string ∧
  SplitHostPort "a]b:1" = None ∧ SplitHostPort "[a[b]:1" = None ∧
  JoinHostPort "fd00::1" "443" = "[fd00::1]:443"%string ∧
  sscanf_d (str " 80x") = Some 80 ∧ sscanf_d (str "-7") = Some (-7) ∧ sscanf_d (str "x") = None.
Proof. vm_compute. auto 20. Qed.

(** ** Lemmas *)

Lemma has_app c s t : has c (s ++ t) = has c s || has c t.
Proof. apply existsb_app. Qed.

Lemma has_cons c d s : has c (d :: s) = Ascii.eqb c d || has c s.
Proof. done. Qed.

Lemma has_rev c s : has c (rev s) = has c s.
Proof.
  induction s as [|d s IH]; [done|]. simpl. rewrite has_app, IH, has_cons. simpl.
  rewrite orb_false_r. apply orb_comm.
Qed.

Lemma cut_absent c s : has c s = false → cut c s = (s, None).
Proof.
  induction s as [|d s IH]; [done|]. rewrite has_cons. intros [H1 H2]%orb_false_iff.
  simpl. by rewrite Ascii.eqb_sym, H1, (IH H2).
Qed.

Lemma cut_app c s t : has c s = false → cut c (s ++ c :: t) = (s, Some t).
Proof.
  induction s as [|d s IH]; simpl; [by rewrite Ascii.eqb_refl|].
  intros [H1 H2]%orb_false_iff. by rewrite Ascii.eqb_sym, H1, (IH H2).
Qed.

(** What [cut] returns: the text before the first occurrence, without it. *)
Lemma cut_Some c s b a : cut c s = (b, Some a) → s = b ++ c :: a ∧ has c b = false.
Proof.
  revert b a. induction s as [|d s IH]; simpl; intros b a H; [done|].
  destruct (Ascii.eqb d c) eqn:E.
  - apply Ascii.eqb_eq in E as ->. by simplify_eq.
  - destruct (cut c s) as [x y] eqn:Hc. simplify_eq/=. destruct (IH _ _ eq_refl) as [-> Hb].
    by rewrite Ascii.eqb_sym, E, Hb.
Qed.

Lemma rcut_app c s t : has c t = false → rcut c (s ++ c :: t) = Some (s, t).
Proof.
  intros H. unfold rcut. rewrite rev_app_distr. simpl. rewrite <- app_assoc. simpl.
  rewrite cut_app by by rewrite has_rev. by rewrite !rev_involutive.
Qed.

Lemma rcut_Some c s b a : rcut c s = Some (b, a) → s = b ++ c :: a ∧ has c a = false.
Proof.
  unfold rcut. destruct (cut c (rev s)) as [x [y|]] eqn:Hc; [|done]. intros [= <- <-].
  apply cut_Some in Hc as [Hs Hx]. split; [|by rewrite has_rev].
  rewrite <- (rev_involutive s), Hs, rev_app_distr. simpl. by rewrite <- app_assoc.
Qed.

(** A text free of the separators and brackets. *)
Definition plain (s : list ascii) : Prop := has c_colon s = false ∧ has c_open s = false ∧ has c_close s = false.

Definition no_brackets (s : list ascii) : Prop := has c_open s = false ∧ has c_close s = false.

(** Splitting what [JoinHostPort] builds gives the two parts back. *)
Lemma split_join h p : no_brackets h → plain p → splitHostPort (joinHostPort h p) = Some (h, p).
Proof.
  intros [Ho Hc] (Pc & Po & Pk). unfold splitHostPort, joinHostPort.
  destruct (has c_colon h) eqn:Hh.
  - replace (c_open :: h ++ c_close :: c_colon :: p) with ((c_open :: h ++ [c_close]) ++ c_colon :: p)
      by (simpl; by rewrite <- app_assoc).
    rewrite rcut_app by done. cbn [mbind option_bind app]. rewrite <- app_assoc. simpl. rewrite cut_app by done.
    simpl. rewrite Pc, has_app, Ho, !has_cons, Po, Pk. done.
  - rewrite rcut_app by done. cbn [mbind option_bind]. rewrite Hh.
    assert (has c_open (h ++ c_colon :: p) = false) as H1 by by rewrite has_app, Ho, has_cons, Po.
    assert (has c_close (h ++ c_colon :: p) = false) as H2 by by rewrite has_app, Hc, has_cons, Pk.
    destruct h as [|d h].
    { cbn [app] in *. by rewrite H1, H2. }
    rewrite has_cons in Ho. apply orb_false_iff in Ho as [Hd _]. cbn [app] in *.
    by rewrite Ascii.eqb_sym, Hd, H1, H2.
Qed.

(** The parts a successful split returns are separated, and joining them
    gives a text that splits the same way. *)
Lemma split_parts s h p : splitHostPort s = Some (h, p) → no_brackets h ∧ plain p.
Proof.
  unfold splitHostPort. intros ([b q] & Hr & H)%bind_Some.
  apply rcut_Some in Hr as [Hs Hq]. destruct s as [|c s]; [done|].
  destruct (Ascii.eqb c c_open) eqn:E.
  - destruct (cut c_close s) as [h' [[|d rest]|]] eqn:Hc; try done.
    destruct (Ascii.eqb d c_colon && negb (has c_colon rest)) eqn:Ed; [|done].
    destruct (has c_open s) eqn:Ho; [done|]. destruct (has c_close (d :: rest)) eqn:Hk; [done|].
    simplify_eq. apply cut_Some in Hc as [-> Hh]. apply andb_true_iff in Ed as [Ed En].
    apply Ascii.eqb_eq in Ed as ->. apply Ascii.eqb_eq in E as ->. apply negb_true_iff in En.
    assert (rest = p) as ->.
    { assert (rcut c_colon (b ++ c_colon :: p) = rcut c_colon ((c_open :: h ++ [c_close]) ++ c_colon :: rest)) as Hr.
      { f_equal. rewrite <- Hs. simpl. by rewrite <- app_assoc. }
      rewrite !rcut_app in Hr by done. by simplify_eq. }
    rewrite has_app, !has_cons in Ho. apply orb_false_iff in Ho as [Ho1 Ho2].
    rewrite has_cons in Hk. by repeat split.
  - destruct (has c_colon b) eqn:Hb; [done|]. destruct (has c_open (c :: s)) eqn:Ho; [done|].
    destruct (has c_close (c :: s)) eqn:Hk; [done|]. simplify_eq.
    rewrite Hs in Ho, Hk. rewrite has_app, has_cons in Ho, Hk.
    apply orb_false_iff in Ho as [? ?], Hk as [? ?]. by repeat split.
Qed.

Lemma SplitHostPort_Join h p :
  no_brackets (str h) → plain (str p) → SplitHostPort (JoinHostPort h p) = Some (h, p).
Proof.
  intros Hh Hp. unfold SplitHostPort, JoinHostPort. rewrite str_unstr, (split_join _ _ Hh Hp). simpl.
  unfold str, unstr. by rewrite !String.string_of_list_ascii_of_string.
Qed.

Lemma SplitHostPort_parts s h p : SplitHostPort s = Some (h, p) → no_brackets (str h) ∧ plain (str p).
Proof.
  unfold SplitHostPort. intros ([h' p'] & Hs & H)%bind_Some. simplify_eq.
  rewrite !str_unstr. by eapply split_parts.
Qed.

(** ** Decimal integers read back *)

Lemma pretty_digit (x : N) :
  (x < 10)%N → code (pretty_N_char x) - 48 = Z.of_N x ∧ isDigit (pretty_N_char x) = true.
Proof.
  intros Hx. assert (x = 0 ∨ x = 1 ∨ x = 2 ∨ x = 3 ∨ x = 4 ∨ x = 5 ∨ x = 6 ∨ x = 7 ∨ x = 8 ∨ x = 9)%N as H by lia.
  by repeat destruct H as [->|H]; subst.
Qed.

Lemma digits_value_go x s : digits_value (str (pretty_N_go x s)) 0 = digits_value (str s) (Z.of_N x).
Proof.
  revert s. induction (N.lt_wf_0 x) as [x _ IH]; intros s.
  destruct (decide (x = 0)%N) as [->|Hx]; [done|].
  rewrite pretty_N_go_step by lia. rewrite IH by (apply N.div_lt; lia).
  destruct (pretty_digit (x `mod` 10)) as [Hc Hd]; [by apply N.mod_lt|]. simpl.
  unfold isDigit in Hd. rewrite Hd, Hc. f_equal. pose proof (N.div_mod x 10). lia.
Qed.

Lemma takeDigits_go x s : takeDigits (str s) = str s → takeDigits (str (pretty_N_go x s)) = str (pretty_N_go x s).
Proof.
  revert s. induction (N.lt_wf_0 x) as [x _ IH]; intros s Hs.
  destruct (decide (x = 0)%N) as [->|Hx]; [done|].
  rewrite pretty_N_go_step by lia. apply IH; [apply N.div_lt; lia|].
  destruct (pretty_digit (x `mod` 10)) as [_ Hd]; [by apply N.mod_lt|]. simpl. by rewrite Hd, Hs.
Qed.

Lemma itoa_N n : 0 <= n → itoa n = pretty (Z.to_N n).
Proof. intros Hn. unfold itoa. destruct n as [|p|p]; [done|done|lia]. Qed.

Lemma digits_value_itoa n : 0 <= n → digits_value (str (itoa n)) 0 = Some n.
Proof.
  intros Hn. rewrite itoa_N by done. unfold pretty, pretty_N. case_decide as H0.
  - trans (Some 0); [reflexivity|]. f_equal. lia.
  - rewrite digits_value_go. simpl. f_equal. lia.
Qed.

Lemma takeDigits_itoa n : 0 <= n → takeDigits (str (itoa n)) = str (itoa n).
Proof.
  intros Hn. rewrite itoa_N by done. unfold pretty, pretty_N. case_decide as H0; [done|]. by apply takeDigits_go.
Qed.

Lemma itoa_nonempty n : 0 <= n → str (itoa n) ≠ [].
Proof.
  intros Hn. rewrite itoa_N by done. unfold pretty, pretty_N. case_decide as H0; [done|].
  assert (∀ x s, str s ≠ [] → str (pretty_N_go x s) ≠ []) as Hgo.
  { intros x. induction (N.lt_wf_0 x) as [x _ IH]; intros s Hs.
    destruct (decide (x = 0)%N) as [->|Hx]; [done|].
    rewrite pretty_N_go_step by lia. apply IH; [apply N.div_lt; lia|done]. }
  rewrite pretty_N_go_step by lia. by apply Hgo.
Qed.

(** A text of digits contains no other character. *)
Lemma takeDigits_has c s : isDigit c = false → takeDigits s = s → has c s = false.
Proof.
  intros Hc. induction s as [|d s IH]; simpl; [done|]. destruct (isDigit d) eqn:Hd; [|done].
  intros [= Hs]. rewrite IH by done. destruct (Ascii.eqb c d) eqn:E; [|done].
  apply Ascii.eqb_eq in E. congruence.
Qed.

Lemma itoa_plain n : 0 <= n → plain (str (itoa n)).
Proof. intros Hn%takeDigits_itoa. by repeat split; apply takeDigits_has. Qed.

Lemma digit_scan c : isDigit c = true → isBlank c = false ∧ Ascii.eqb c "-"%char = false ∧ Ascii.eqb c "+"%char = false.
Proof.
  intros Hd. unfold isDigit in Hd. apply andb_true_iff in Hd as [H1%Z.leb_le H2%Z.leb_le]. split_and!.
  - apply bool_decide_eq_false. intros Hin. set_unfold in Hin. lia.
  - destruct (Ascii.eqb c "-"%char) eqn:E; [|done]. apply Ascii.eqb_eq in E. subst c.
    by vm_compute in H1.
  - destruct (Ascii.eqb c "+"%char) eqn:E; [|done]. apply Ascii.eqb_eq in E. subst c.
    by vm_compute in H1.
Qed.

Lemma sscanf_d_itoa n : 0 <= n < 2 ^ 63 → sscanf_d (str (itoa n)) = Some n.
Proof.
  intros Hn. pose proof (takeDigits_itoa n) as Ht. pose proof (itoa_nonempty n ltac:(lia)) as Hne.
  pose proof (digits_value_itoa n) as Hv. destruct (str (itoa n)) as [|c s]; [done|].
  specialize (Ht ltac:(lia)). simpl in Ht. destruct (isDigit c) eqn:Hc; [|done].
  destruct (digit_scan c Hc) as (Hb & Hm & Hp).
  unfold sscanf_d. simpl skipSpace. rewrite Hb. simpl scanSign. rewrite Hm, Hp.
  simpl takeDigits. rewrite Hc, Ht. rewrite Hv by lia. simpl.
  assert ((- 2 ^ 63 <=? n) && (n <? 2 ^ 63) = true) as ->; [|done].
  apply andb_true_iff. split; [apply Z.leb_le|apply Z.ltb_lt]; lia.
Qed.

(** ** [netip.ParseAddrPort] and [AddrPort.String] *)

(** [strconv.ParseUint(s, 10, 16)]. *)
Definition parseUint16 (s : list ascii) : option Z :=
  match s with
  | [] => None
  | _ => v ← digits_value s 0; if v <? 65536 then Some v else None
  end.

(** The address part, and whether it was in square brackets. *)
Definition unbracket (ip : list ascii) : option (list ascii * bool) :=
  match ip with
  | [] => None
  | c :: ip' =>
      if Ascii.eqb c c_open then
        match rev ip' with
        | d :: body => if Ascii.eqb d c_close then Some (rev body, true) else None
        | [] => None
        end
      else Some (ip, false)
  end.

Definition parseAddrPort (s : list ascii) : option AddrPort :=
  '(ip, port) ← rcut c_colon s;
  match port with
  | [] => None
  | _ =>
      '(host, v6) ← unbracket ip;
      p ← parseUint16 port;
      a ← parseAddr host;
      match a, v6 with
      | Addr4 _, true => None
      | Addr6 _ _, false => None
      | _, _ => Some (mkAddrPort a p)
      end
  end.

Definition ParseAddrPort (s : string) : option AddrPort := parseAddrPort (str s).

Definition AddrPortString (ap : AddrPort) : string :=
  match ap_addr ap with
  | AddrInvalid => "invalid AddrPort"
  | Addr4 ip => unstr (string4 ip ++ c_colon :: str (itoa (ap_port ap)))
  | Addr6 _ _ => unstr (c_open :: addr_chars (ap_addr ap) ++ c_close :: c_colon :: str (itoa (ap_port ap)))
  end.

Example addrport_examples :
  (AddrPortString <$> ParseAddrPort "10.0.0.1:51820") = Some "10.0.0.1:51820"%string ∧
  (AddrPortString <$> ParseAddrPort "[fd00::1%eth0]:80") = Some "[fd00::1%eth0]:80"%string ∧
  ParseAddrPort "fd00::1:80" = None ∧ ParseAddrPort "[10.0.0.1]:80" = None ∧
  ParseAddrPort "10.0.0.1:65536" = None ∧ ParseAddrPort "10.0.0.1:" = None.
Proof. vm_compute. auto 10. Qed.

Lemma string4_head ip c r : string4 ip = c :: r → Ascii.eqb c c_open = false.
Proof.
  intros H. destruct (Ascii.eqb c c_open) eqn:E; [|done]. apply Ascii.eqb_eq in E. subst c.
  assert (∀ n, 0 <= n < 10 → ch (48 + n) ≠ c_open) as Hch.
  { intros n Hn Heq. apply (f_equal code) in Heq. rewrite code_ch in Heq by lia.
    assert (code c_open = 91) by reflexivity. lia. }
  apply (f_equal head) in H. unfold string4, appendDecimal in H. pose proof (v4_range ip 0). revert H.
  destruct (Z.leb_spec 100 (v4 ip 0)); [|destruct (Z.leb_spec 10 (v4 ip 0))]; cbn [app head];
    intros Heq%Some_inj; exfalso; (eapply Hch; [|exact Heq]).
  - split; [apply Z.div_pos; lia|]. apply Z.div_lt_upper_bound; lia.
  - apply Z.mod_pos_bound. lia.
  - apply Z.mod_pos_bound. lia.
Qed.

Lemma string4_nonempty ip : string4 ip ≠ [].
Proof.
  unfold string4, appendDecimal. by destruct (100 <=? _); [|destruct (10 <=? _)].
Qed.

(** An IPv4 endpoint survives printing and parsing. *)
Lemma ParseAddrPort_String4 ip p :
  ip fits 32 → 0 <= p < 65536 →
  ParseAddrPort (AddrPortString (mkAddrPort (Addr4 ip) p)) = Some (mkAddrPort (Addr4 ip) p).
Proof.
  intros Hip Hp. unfold ParseAddrPort, AddrPortString, parseAddrPort. simpl ap_addr. cbv iota. rewrite str_unstr.
  rewrite rcut_app by (apply itoa_plain; simpl; lia). cbn [mbind option_bind ap_port].
  pose proof (itoa_nonempty p ltac:(lia)) as Hne. destruct (str (itoa p)) as [|d ds] eqn:Ep; [done|].
  rewrite <- Ep. pose proof (string4_nonempty ip) as H4. destruct (string4 ip) as [|c r] eqn:E4; [done|].
  unfold unbracket. rewrite (string4_head ip c r E4). cbn [mbind option_bind].
  unfold parseUint16. rewrite Ep, <- Ep, digits_value_itoa by lia. cbn [mbind option_bind].
  destruct (Z.ltb_spec p 65536); [|lia]. cbn [mbind option_bind]. rewrite <- E4, parseAddr_string4 by done. done.
Qed.
