(* ===== verification/Checksum.v ===== *)
(** * The Internet checksum (RFC 1071)

    One's complement sums of big-endian 16-bit words with end-around carry,
    and the fact the packet rewriting rests on: writing the complement of the
    sum into a zeroed checksum field makes the sum of the whole 0xffff. *)

From S2P Require Import Prelude.

(** Bytes [off, off+n) as a big-endian number, and the converse. *)
Definition be_get (b : list Z) (off n : nat) : Z :=
  foldl (λ acc x, acc * 256 + x) 0 (take n (drop off b)).

Fixpoint be_bytes (n : nat) (v : Z) : list Z :=
  match n with
  | O => []
  | S n' => v / 256 ^ Z.of_nat n' mod 256 :: be_bytes n' v
  end.

(** Write a big-endian number at an offset ([binary.BigEndian.PutUint]). *)
Definition be_put (b : list Z) (off n : nat) (v : Z) : list Z := list_inserts off (be_bytes n v) b.

(** The 16-bit words of a buffer; a last odd byte is padded with zero. *)
Fixpoint words (b : list Z) : list Z :=
  match b with
  | [] => []
  | [x] => [x * 256]
  | x :: y :: b' => x * 256 + y :: words b'
  end.

Definition onec_add (a b : Z) : Z := let s := a + b in s mod 65536 + s / 65536.

Definition rfc1071 (b : list Z) (init : Z) : Z := foldl onec_add init (words b).

Definition sumZ (l : list Z) : Z := foldr Z.add 0 l.

Definition bytes_ok (b : list Z) : Prop := Forall byte_range b.

(** ** Lemmas *)

(** Two-step induction, the shape of [words]. *)
Lemma list_pair_ind {A} (P : list A → Prop) :
  P [] → (∀ x, P [x]) → (∀ x y l, P l → P (x :: y :: l)) → ∀ l, P l.
Proof.
  intros H0 H1 H2. fix IH 1. intros [|x [|y l]]; [exact H0|apply H1|apply H2, IH].
Qed.

Lemma words_range b : bytes_ok b → Forall (λ w, 0 <= w <= 65535) (words b).
Proof.
  unfold bytes_ok, byte_range. induction b as [|x|x y b IH] using list_pair_ind; intros Hb; simpl.
  - constructor.
  - apply Forall_cons in Hb as [? _]. repeat constructor; lia.
  - apply Forall_cons in Hb as [? [? Hb]%Forall_cons]. constructor; [lia|auto].
Qed.

Lemma onec_add_range a b : 0 <= a <= 65535 → 0 <= b <= 65535 → 0 <= onec_add a b <= 65535.
Proof. intros. unfold onec_add. Z.div_mod_to_equations. lia. Qed.

Lemma onec_add_mod a b : onec_add a b mod 65535 = (a + b) mod 65535.
Proof.
  unfold onec_add. rewrite (Z.div_mod (a + b) 65536) at 3 by lia.
  replace (65536 * ((a + b) / 65536) + (a + b) mod 65536)
    with ((a + b) mod 65536 + (a + b) / 65536 + (a + b) / 65536 * 65535) by lia.
  by rewrite Z_mod_plus_full.
Qed.

Lemma onec_add_zero a b : 0 <= a → 0 <= b → onec_add a b = 0 ↔ a = 0 ∧ b = 0.
Proof. intros. unfold onec_add. Z.div_mod_to_equations. lia. Qed.

Lemma fold_range l a :
  0 <= a <= 65535 → Forall (λ w, 0 <= w <= 65535) l → 0 <= foldl onec_add a l <= 65535.
Proof.
  revert a. induction l as [|w l IH]; intros a Ha Hl; [done|].
  apply Forall_cons in Hl as [Hw Hl]. simpl. apply IH; [by apply onec_add_range|done].
Qed.

Lemma fold_mod l a : foldl onec_add a l mod 65535 = (a + sumZ l) mod 65535.
Proof.
  revert a. induction l as [|w l IH]; intros a; simpl; [by rewrite Z.add_0_r|].
  rewrite IH, <- Zplus_mod_idemp_l, onec_add_mod, Zplus_mod_idemp_l. f_equal. lia.
Qed.

Lemma fold_zero l a :
  0 <= a <= 65535 → Forall (λ w, 0 <= w <= 65535) l →
  foldl onec_add a l = 0 ↔ a = 0 ∧ Forall (λ w, w = 0) l.
Proof.
  revert a. induction l as [|w l IH]; intros a Ha Hl; simpl.
  - split; [by intros ->|tauto].
  - apply Forall_cons in Hl as [Hw Hl]. rewrite IH by (done || by apply onec_add_range).
    rewrite onec_add_zero by lia. rewrite Forall_cons. tauto.
Qed.

Lemma length_be_bytes n v : length (be_bytes n v) = n.
Proof. induction n; simpl; auto. Qed.

Lemma be_bytes_ok n v : bytes_ok (be_bytes n v).
Proof.
  induction n; simpl; constructor; [|done]. apply Z.mod_pos_bound. lia.
Qed.

Lemma length_be_put b off n v : length (be_put b off n v) = length b.
Proof. apply length_inserts. Qed.

Lemma be_put_ok b off n v : bytes_ok b → bytes_ok (be_put b off n v).
Proof.
  unfold be_put. pose proof (be_bytes_ok n v) as Hk. revert off b.
  induction (be_bytes n v) as [|x k IH]; intros off b Hb; simpl; [done|].
  apply Forall_cons in Hk as [Hx Hk]. apply Forall_insert; [|done]. by apply IH.
Qed.

(** Reading back a written 16-bit field, and its contribution to the sum. *)
Lemma be_bytes_2 v : 0 <= v <= 65535 → be_bytes 2 v = [v / 256; v mod 256].
Proof.
  intros Hv. cbn [be_bytes]. change (256 ^ Z.of_nat 1) with 256. change (256 ^ Z.of_nat 0) with 1.
  rewrite Z.div_1_r, (Z.mod_small (v / 256)); [done|]. Z.div_mod_to_equations. lia.
Qed.

Lemma words_put b (k : nat) v :
  (2 * k + 2 <= length b)%nat → 0 <= v <= 65535 →
  words (be_put b (2 * k) 2 v) = <[k := v]> (words b) ∧ words b !! k = Some (be_get b (2 * k) 2).
Proof.
  intros Hl Hv. unfold be_put, be_get. rewrite be_bytes_2 by done. revert b Hl.
  induction k as [|k IH]; intros b Hl; (destruct b as [|x [|y b]]; simpl in Hl; try lia).
  - cbn. split; [|by rewrite take_0]. f_equal. Z.div_mod_to_equations. lia.
  - replace (2 * S k)%nat with (S (S (2 * k))) by lia.
    destruct (IH b ltac:(lia)) as [IH1 IH2]. cbn [list_inserts words drop insert list_insert lookup list_lookup] in *.
    split; [|exact IH2]. f_equal. exact IH1.
Qed.

Lemma sumZ_insert l (k : nat) v w : l !! k = Some w → sumZ (<[k := v]> l) = sumZ l - w + v.
Proof.
  revert k. induction l as [|x l IH]; intros [|k] Hk; simplify_eq/=; [lia|]. rewrite (IH k Hk). lia.
Qed.

(** Filling a zeroed field at an even offset with the complement of the sum
    makes the whole sum to 0xffff, whatever the initial value. *)
Lemma checksum_fill b k init :
  bytes_ok b → 0 <= init <= 65535 → (2 * k + 2 <= length b)%nat → be_get b (2 * k) 2 = 0 →
  rfc1071 (be_put b (2 * k) 2 (not16 (rfc1071 b init))) init = 65535.
Proof.
  intros Hb Hi Hl Hz. unfold rfc1071, not16. pose proof (words_range b Hb) as Hw.
  set (s := foldl onec_add init (words b)).
  assert (0 <= s <= 65535) as Hs by (by apply fold_range).
  destruct (words_put b k (65535 - s) Hl ltac:(lia)) as [-> Hk]. rewrite Hz in Hk.
  destruct (decide (s = 65535)) as [Heq|Hne].
  { rewrite Heq, Z.sub_diag, list_insert_id by done. exact Heq. }
  set (r := foldl onec_add init _).
  assert (Forall (λ w, 0 <= w <= 65535) (<[k:=65535 - s]> (words b))) as Hw'
    by (apply Forall_insert; [done|lia]).
  assert (0 <= r <= 65535) as Hr by (by apply fold_range).
  assert (r ≠ 0) as Hr0.
  { intros H0. apply fold_zero in H0 as [_ Hall]; [|done..].
    rewrite Forall_lookup in Hall. assert (65535 - s = 0); [|lia].
    apply (Hall k), list_lookup_insert_eq. by apply lookup_lt_Some in Hk. }
  assert (r mod 65535 = 0) as Hm.
  { unfold r. rewrite fold_mod, (sumZ_insert _ _ _ 0) by done.
    assert (s mod 65535 = (init + sumZ (words b)) mod 65535) as Hsm by apply fold_mod.
    replace (init + (sumZ (words b) - 0 + (65535 - s)))
      with (init + sumZ (words b) - s + 1 * 65535) by lia.
    rewrite Z_mod_plus_full, Zminus_mod, <- Hsm, Z.sub_diag. done. }
  assert (r = 65535); [|done]. Z.div_mod_to_equations. lia.
Qed.

(** Bytes outside a written field are unchanged. *)
Lemma be_put_lookup_ne b off n v i :
  (i < off ∨ off + n <= i)%nat → be_put b off n v !! i = b !! i.
Proof.
  intros Hi. unfold be_put. destruct Hi.
  - by rewrite list_lookup_inserts_lt by lia.
  - by rewrite list_lookup_inserts_ge by (rewrite length_be_bytes; lia).
Qed.

Lemma be_get_ext b b' off n :
  (∀ i, (off <= i < off + n)%nat → b !! i = b' !! i) → be_get b off n = be_get b' off n.
Proof.
  intros Heq. unfold be_get. f_equal. apply list_eq. intros i.
  destruct (decide (i < n)%nat).
  - rewrite !lookup_take_lt, !lookup_drop by lia. apply Heq. lia.
  - by rewrite !lookup_take_ge by lia.
Qed.

Lemma be_get_put_ne b off n v off' n' :
  (off' + n' <= off ∨ off + n <= off')%nat → be_get (be_put b off n v) off' n' = be_get b off' n'.
Proof. intros. apply be_get_ext. intros i Hi. apply be_put_lookup_ne. lia. Qed.

Lemma take_drop_inserts (b k : list Z) off :
  (off + length k <= length b)%nat → take (length k) (drop off (list_inserts off k b)) = k.
Proof.
  intros Hl. apply list_eq. intros i. destruct (decide (i < length k)%nat).
  - rewrite lookup_take_lt, lookup_drop by done.
    rewrite list_lookup_inserts by lia. f_equal. lia.
  - rewrite lookup_take_ge by lia. symmetry. apply lookup_ge_None. lia.
Qed.

Lemma be_value_bytes n v :
  foldl (λ acc x, acc * 256 + x) 0 (be_bytes n v) = v mod 256 ^ Z.of_nat n.
Proof.
  assert (∀ acc, foldl (λ acc x, acc * 256 + x) acc (be_bytes n v)
                 = acc * 256 ^ Z.of_nat n + v mod 256 ^ Z.of_nat n) as Hgen; [|by rewrite Hgen].
  induction n as [|n IH]; intros acc; [simpl; rewrite Z.mod_1_r; lia|].
  cbn [be_bytes foldl]. rewrite IH. rewrite Nat2Z.inj_succ, Z.pow_succ_r by lia.
  rewrite (Z.mul_comm 256), Z.rem_mul_r by lia. lia.
Qed.

Lemma be_get_put b off n v :
  (off + n <= length b)%nat → 0 <= v < 256 ^ Z.of_nat n → be_get (be_put b off n v) off n = v.
Proof.
  intros Hl Hv. unfold be_get, be_put.
  pose proof (take_drop_inserts b (be_bytes n v) off) as Htd. rewrite length_be_bytes in Htd.
  rewrite Htd, be_value_bytes by done. by apply Z.mod_small.
Qed.
