(* ===== verification/Bart.v ===== *)
(** * The prefix table interface (github.com/gaissmai/bart)

    [SubnetLookup] stores its rules in [bart.Table], a third-party routing
    table.  The table is a parameter of the model: [BartTable] lists the
    methods newt calls and [BartLaws] what their documentation promises, for
    canonical prefixes (newt masks every prefix before it reaches the table).
    [gmap_bart] is a reference implementation that satisfies the laws; the
    witnesses run on it. *)

From S2P Require Import Prelude Netip.

Class BartTable (Table : Type → Type) : Type := {
  bart_empty {V} : Table V;
  bart_get {V} : Table V → Prefix → option V;
  bart_insert {V} : Table V → Prefix → V → Table V;
  bart_delete {V} : Table V → Prefix → Table V;
  (** [Supernets(pfx)]: the entries covering [pfx], most specific first. *)
  bart_supernets {V} : Table V → Prefix → list (Prefix * V);
  (** [All()]: every entry, in an unspecified order. *)
  bart_all {V} : Table V → list (Prefix * V);
  bart_size {V} : Table V → nat;
}.

Class BartLaws (Table : Type → Type) `{!BartTable Table} : Prop := {
  bart_get_empty {V} q : bart_get (bart_empty : Table V) q = None;
  bart_get_insert {V} (t : Table V) p v q :
    canonical p → canonical q →
    bart_get (bart_insert t p v) q = if decide (p = q) then Some v else bart_get t q;
  bart_get_delete {V} (t : Table V) p q :
    canonical p → canonical q →
    bart_get (bart_delete t p) q = if decide (p = q) then None else bart_get t q;
  bart_supernets_elem {V} (t : Table V) p q v :
    prefix_valid p = true →
    (q, v) ∈ bart_supernets t p ↔
    canonical q ∧ covers q p = true ∧ bart_get t q = Some v;
  bart_supernets_order {V} (t : Table V) p :
    prefix_valid p = true →
    descending (λ e : Prefix * V, pfx_bits e.1) (bart_supernets t p);
  bart_all_elem {V} (t : Table V) q v :
    (q, v) ∈ bart_all t ↔ canonical q ∧ bart_get t q = Some v;
  bart_all_nodup {V} (t : Table V) : NoDup (bart_all t).*1;
  bart_size_all {V} (t : Table V) : bart_size t = length (bart_all t);
}.

(** ** Consequences of the laws the components share *)

Section laws.
Context `{BartLaws Table} {V : Type}.
Implicit Types (t : Table V).

Lemma bart_get_insert_eq t p v : canonical p → bart_get (bart_insert t p v) p = Some v.
Proof. intros. rewrite bart_get_insert by done. by case_decide. Qed.

Lemma bart_get_insert_ne t p q v :
  canonical p → canonical q → p ≠ q → bart_get (bart_insert t p v) q = bart_get t q.
Proof. intros. rewrite bart_get_insert by done. by case_decide. Qed.

Lemma bart_get_delete_eq t p : canonical p → bart_get (bart_delete t p) p = None.
Proof. intros. rewrite bart_get_delete by done. by case_decide. Qed.

Lemma bart_get_delete_ne t p q :
  canonical p → canonical q → p ≠ q → bart_get (bart_delete t p) q = bart_get t q.
Proof. intros. rewrite bart_get_delete by done. by case_decide. Qed.

(** The supernets of a host prefix are the entries that contain the address. *)
Lemma bart_supernets_host t a q v :
  IsValid a = true →
  (q, v) ∈ bart_supernets t (PrefixFrom a (BitLen a)) ↔
  canonical q ∧ Contains q a = true ∧ bart_get t q = Some v.
Proof.
  intros Ha.
  assert (0 <= BitLen a <= BitLen a) as Hb by (destruct a; simpl; lia).
  rewrite bart_supernets_elem by (by apply PrefixFrom_valid).
  rewrite PrefixFrom_unfold by done. unfold covers; simpl.
  rewrite andb_true_iff, Z.leb_le, !Contains_spec.
  split; intros (Hc & Hx & Hg); (split; [done|]; split; [|done]).
  - destruct Hx as (_ & Hv & Hf & Hm). split; [done|]. by destruct a.
  - destruct Hx as (Hv & Hf & Hm). split.
    + apply prefix_valid_spec in Hv. apply same_family_valid in Hf as (_ & _ & <-). lia.
    + split; [done|]. by destruct a.
Qed.

Lemma bart_supernets_host_order t a :
  IsValid a = true →
  descending (λ e : Prefix * V, pfx_bits e.1) (bart_supernets t (PrefixFrom a (BitLen a))).
Proof.
  intros Ha. apply bart_supernets_order, PrefixFrom_valid; [done|]. destruct a; simpl; lia.
Qed.

(** A table is empty exactly when no canonical prefix has an entry. *)
Lemma bart_size_zero t :
  bart_size t = 0%nat ↔ ∀ q, canonical q → bart_get t q = None.
Proof.
  rewrite bart_size_all, length_zero_iff_nil. split.
  - intros Hnil q Hq. destruct (bart_get t q) as [v|] eqn:Hg; [|done].
    assert ((q, v) ∈ bart_all t) as Hin by (by apply bart_all_elem).
    rewrite Hnil in Hin. by apply elem_of_nil in Hin.
  - intros Hall. destruct (bart_all t) as [|[q v] l] eqn:Hl; [done|].
    assert ((q, v) ∈ bart_all t) as [Hc Hg]%bart_all_elem by (rewrite Hl; set_solver).
    rewrite Hall in Hg; done.
Qed.

End laws.

(** ** A reference table on finite maps *)

Section gmap_table.

Definition gtable (V : Type) : Type := gmap Prefix V.

(** The prefixes [Masked (a/b), ..., Masked (a/0)], longest first. *)
Definition supernet_keys (p : Prefix) : list Prefix :=
  (λ b : nat, Masked (PrefixFrom (pfx_addr p) (Z.of_nat b))) <$> rev (seq 0 (S (Z.to_nat (pfx_bits p)))).

Definition gtable_supernets {V} (t : gmap Prefix V) (p : Prefix) : list (Prefix * V) :=
  omap (λ q, v ← t !! q; Some (q, v)) (supernet_keys p).

#[global] Instance gmap_bart : BartTable gtable := {
  bart_empty V := (∅ : gmap Prefix V);
  bart_get V t q := (t : gmap Prefix V) !! q;
  bart_insert V t p v := <[p := v]> (t : gmap Prefix V);
  bart_delete V t p := delete p (t : gmap Prefix V);
  bart_supernets V t p := gtable_supernets (t : gmap Prefix V) p;
  bart_all V t := filter (λ e, canonical e.1) (map_to_list (t : gmap Prefix V));
  bart_size V t := length (filter (λ e : Prefix * V, canonical e.1) (map_to_list (t : gmap Prefix V)));
}.

Lemma supernet_keys_elem p q :
  prefix_valid p = true →
  q ∈ supernet_keys p ↔ canonical q ∧ covers q p = true.
Proof.
  intros [Ha Hb]%prefix_valid_spec. unfold supernet_keys, covers.
  rewrite list_elem_of_fmap. setoid_rewrite list_elem_of_In.
  rewrite andb_true_iff, Z.leb_le. split.
  - intros (b & -> & Hin). rewrite <- in_rev, in_seq in Hin.
    assert (0 <= Z.of_nat b <= BitLen (pfx_addr p)) as Hb' by lia.
    split; [by apply Masked_canonical, PrefixFrom_valid|].
    split; [|by apply Masked_PrefixFrom_contains].
    rewrite Masked_PrefixFrom by done. simpl. lia.
  - intros (Hc & Hle & Hcont). exists (Z.to_nat (pfx_bits q)).
    pose proof (proj1 (prefix_valid_spec q) (proj1 Hc)) as [_ Hq].
    rewrite Z2Nat.id by lia. split; [by apply canonical_contains_eq|].
    rewrite <- in_rev, in_seq. lia.
Qed.

Lemma gtable_supernets_elem {V} (t : gmap Prefix V) p q v :
  (q, v) ∈ gtable_supernets t p ↔ q ∈ supernet_keys p ∧ t !! q = Some v.
Proof.
  unfold gtable_supernets. rewrite list_elem_of_omap. split.
  - intros (q' & Hin & Heq). destruct (t !! q') eqn:Hq'; simplify_eq/=. done.
  - intros [Hin Hq]. exists q. by rewrite Hq.
Qed.

Lemma gtable_supernets_order {V} (t : gmap Prefix V) p :
  prefix_valid p = true →
  descending (λ e : Prefix * V, pfx_bits e.1) (gtable_supernets t p).
Proof.
  intros [Ha Hb]%prefix_valid_spec. unfold gtable_supernets, supernet_keys, descending.
  assert (Z.of_nat (Z.to_nat (pfx_bits p)) <= BitLen (pfx_addr p)) as Hn by lia.
  revert Hn. clear Hb. induction (Z.to_nat (pfx_bits p)) as [|n IH]; intros Hn.
  - simpl. destruct (t !! _); repeat constructor.
  - rewrite seq_S, rev_app_distr. cbn [rev app fmap list_fmap omap list_omap].
    assert (∀ e : Prefix * V, e ∈ omap (λ q, v ← t !! q; Some (q, v))
      ((λ b : nat, Masked (PrefixFrom (pfx_addr p) (Z.of_nat b))) <$> rev (seq 0 (S n))) →
      pfx_bits e.1 < Z.of_nat (0 + S n)) as Hlt.
    { intros [q v] Hin. apply list_elem_of_omap in Hin as (q' & Hin & Heq).
      destruct (t !! q'); cbn in Heq; [injection Heq as -> _|done].
      apply list_elem_of_fmap in Hin as (b & -> & Hin).
      apply list_elem_of_In in Hin. rewrite <- in_rev, in_seq in Hin.
      rewrite Masked_PrefixFrom by (done || lia). simpl. lia. }
    specialize (IH ltac:(lia)). destruct (t !! _) as [v|]; simpl; [|exact IH].
    constructor; [exact IH|]. apply Forall_forall. intros e He%Hlt.
    simpl. rewrite Masked_PrefixFrom by (done || lia). simpl in *. lia.
Qed.

#[global] Instance gmap_bart_laws : BartLaws gtable.
Proof.
  split; intros V.
  - intros q. apply lookup_empty.
  - intros t p v q _ _. apply lookup_insert.
  - intros t p q _ _. apply lookup_delete.
  - intros t p q v Hp. change (bart_supernets t p) with (gtable_supernets t p).
    rewrite gtable_supernets_elem, supernet_keys_elem by done. tauto.
  - intros t p Hp. by apply gtable_supernets_order.
  - intros t q v. cbn. rewrite list_elem_of_filter, elem_of_map_to_list. done.
  - intros t. cbn. eapply sublist_NoDup; [apply (NoDup_fst_map_to_list (t : gmap Prefix V))|].
    apply fmap_sublist, sublist_filter.
  - done.
Qed.

End gmap_table.
