(* ===== verification/SubnetLookup.v ===== *)
(** * The subnet rule table (netstack2/subnet_lookup.go, GetAllRules of proxy.go)

    The two-level table from source prefix and destination prefix to access
    rules, its mutators ([AddSubnet], [RemoveSubnet], [ReplaceAll]) and the
    packet classifier [Match].  The abstract specification is a finite map
    from pairs of canonical prefixes to rules ([RuleMap]); [repr] relates a
    table to the map it stands for, every operation refines the corresponding
    map update, and [Match] is characterised on the map alone. *)

From S2P Require Import Prelude Netip Bart.

(** ** Data *)

Record PortRange : Type := mkPortRange {
  pr_Min : Z;            (* uint16 *)
  pr_Max : Z;            (* uint16 *)
  pr_Protocol : string;  (* "tcp", "udp", or "" for both *)
}.

Record HTTPTarget : Type := mkHTTPTarget {
  ht_DestAddr : string;
  ht_DestPort : Z;
  ht_Scheme : string;
}.

Record SubnetRule : Type := mkSubnetRule {
  SourcePrefix : Prefix;
  DestPrefix : Prefix;
  DisableIcmp : bool;
  RewriteTo : string;
  PortRanges : list PortRange;
  ResourceId : Z;
  Protocol : string;
  HTTPTargets : list HTTPTarget;
  TLSCert : string;
  TLSKey : string;
}.

#[global] Instance PortRange_eq_dec : EqDecision PortRange.
Proof. solve_decision. Defined.
#[global] Instance HTTPTarget_eq_dec : EqDecision HTTPTarget.
Proof. solve_decision. Defined.
#[global] Instance SubnetRule_eq_dec : EqDecision SubnetRule.
Proof. solve_decision. Defined.

(** Transport protocol numbers ([header.*ProtocolNumber]). *)
Definition TCPProtocolNumber : Z := 6.
Definition UDPProtocolNumber : Z := 17.
Definition ICMPv4ProtocolNumber : Z := 1.
Definition ICMPv6ProtocolNumber : Z := 58.

Section SubnetLookup.
Context {Table : Type → Type} `{!BartTable Table}.

Record destTrie : Type := mkDestTrie {
  dt_trie : Table (list SubnetRule);
  dt_rules : list SubnetRule;
}.

Record SubnetLookup : Type := mkSubnetLookup {
  sourceTrie : Table destTrie;
}.

Definition NewSubnetLookup : SubnetLookup := mkSubnetLookup bart_empty.

Definition prefixEqual (a b : Prefix) : bool := bool_decide (Masked a = Masked b).

(** The loop that drops the rules stored under a canonical prefix pair. *)
Definition dropRule (csrc cdst : Prefix) (rules : list SubnetRule) : list SubnetRule :=
  filter (λ r, negb (prefixEqual (DestPrefix r) cdst) || negb (prefixEqual (SourcePrefix r) csrc))
    rules.

(** [addSubnetLocked].  The destination trie found under the source prefix is
    updated in place through its pointer; the model stores the updated value
    back under the same key. *)
Definition addSubnetLocked (sl : SubnetLookup) (rule : SubnetRule) : SubnetLookup :=
  let canonicalSourcePrefix := Masked (SourcePrefix rule) in
  let destTriePtr :=
    match bart_get (sourceTrie sl) canonicalSourcePrefix with
    | Some dt => dt
    | None => mkDestTrie bart_empty []
    end in
  let canonicalDestPrefix := Masked (DestPrefix rule) in
  let trie' := bart_insert (dt_trie destTriePtr) canonicalDestPrefix [rule] in
  let newRules :=
    dropRule canonicalSourcePrefix canonicalDestPrefix (dt_rules destTriePtr) ++ [rule] in
  mkSubnetLookup
    (bart_insert (sourceTrie sl) canonicalSourcePrefix (mkDestTrie trie' newRules)).

Definition AddSubnet (sl : SubnetLookup) (rule : SubnetRule) : SubnetLookup :=
  addSubnetLocked sl rule.

Definition ReplaceAll (sl : SubnetLookup) (rules : list SubnetRule) : SubnetLookup :=
  foldl addSubnetLocked (mkSubnetLookup bart_empty) rules.

Definition RemoveSubnet (sl : SubnetLookup) (sourcePrefix destPrefix : Prefix) : SubnetLookup :=
  let canonicalSourcePrefix := Masked sourcePrefix in
  let canonicalDestPrefix := Masked destPrefix in
  match bart_get (sourceTrie sl) canonicalSourcePrefix with
  | None => sl
  | Some destTriePtr =>
      let trie' := bart_delete (dt_trie destTriePtr) canonicalDestPrefix in
      let newDestRules :=
        dropRule canonicalSourcePrefix canonicalDestPrefix (dt_rules destTriePtr) in
      let updated :=
        bart_insert (sourceTrie sl) canonicalSourcePrefix (mkDestTrie trie' newDestRules) in
      if Nat.eqb (bart_size trie') 0
      then mkSubnetLookup (bart_delete updated canonicalSourcePrefix)
      else mkSubnetLookup updated
  end.

(** One iteration of the innermost loop over [rule.PortRanges]. *)
Definition checkPortRange (rule : SubnetRule) (port proto : Z) (pr : PortRange)
    : option (option SubnetRule) :=
  if (pr_Min pr <=? port) && (port <=? pr_Max pr) then
    if bool_decide (pr_Protocol pr = "") then Some (Some rule)
    else if (bool_decide (pr_Protocol pr = "tcp") && (proto =? TCPProtocolNumber))
         || (bool_decide (pr_Protocol pr = "udp") && (proto =? UDPProtocolNumber))
    then Some (Some rule)
    else None
  else None.

(** One iteration of the loop over the rules of a prefix pair: [Some res] is
    [return res], [None] falls through. *)
Definition checkRule (port proto : Z) (rule : SubnetRule) : option (option SubnetRule) :=
  if (proto =? ICMPv4ProtocolNumber) || (proto =? ICMPv6ProtocolNumber) then
    if DisableIcmp rule then Some None else Some (Some rule)
  else if Nat.eqb (length (PortRanges rule)) 0 then Some (Some rule)
  else for_return (checkPortRange rule port proto) (PortRanges rule).

Definition Match (sl : SubnetLookup) (srcIP dstIP : Addr) (port proto : Z) : option SubnetRule :=
  let srcPrefix := PrefixFrom srcIP (BitLen srcIP) in
  let dstPrefix := PrefixFrom dstIP (BitLen dstIP) in
  match
    for_return (λ '(_, destTriePtr),
      for_return (λ '(_, rules), for_return (checkRule port proto) rules)
        (bart_supernets (dt_trie destTriePtr) dstPrefix))
      (bart_supernets (sourceTrie sl) srcPrefix)
  with
  | Some res => res
  | None => None
  end.

Definition GetAllRules (sl : SubnetLookup) : list SubnetRule :=
  flat_map (λ '(_, destTriePtr), dt_rules destTriePtr) (bart_all (sourceTrie sl)).

(** ** Abstract specification: a map from canonical prefix pairs to rules *)

Definition RuleMap : Type := gmap (Prefix * Prefix) SubnetRule.

Definition rule_key (r : SubnetRule) : Prefix * Prefix :=
  (Masked (SourcePrefix r), Masked (DestPrefix r)).

(** Both prefixes are valid, as every prefix [netip.ParsePrefix] returns. *)
Definition rule_valid (r : SubnetRule) : bool :=
  prefix_valid (SourcePrefix r) && prefix_valid (DestPrefix r).

Definition spec_add (m : gmap (Prefix * Prefix) SubnetRule) (r : SubnetRule) :=
  <[rule_key r := r]> m.
Definition spec_remove (m : gmap (Prefix * Prefix) SubnetRule) (s d : Prefix) :=
  delete (Masked s, Masked d) m.

(** What the slot of one source prefix holds. *)
Definition slot_repr (m : gmap (Prefix * Prefix) SubnetRule) (s : Prefix) (o : option destTrie) : Prop :=
  match o with
  | None => ∀ d, m !! (s, d) = None
  | Some dt =>
      (∃ d r, m !! (s, d) = Some r) ∧
      (∀ d, canonical d → bart_get (dt_trie dt) d = (λ r, [r]) <$> m !! (s, d)) ∧
      NoDup (rule_key <$> dt_rules dt) ∧
      (∀ r, r ∈ dt_rules dt ↔ m !! rule_key r = Some r ∧ (rule_key r).1 = s)
  end.

(** The table [sl] stands for the rule map [m]. *)
Definition repr (sl : SubnetLookup) (m : gmap (Prefix * Prefix) SubnetRule) : Prop :=
  (∀ k r, m !! k = Some r → rule_valid r = true ∧ k = rule_key r) ∧
  (∀ s, canonical s → slot_repr m s (bart_get (sourceTrie sl) s)).

(** ** What a rule admits *)

Definition range_admits (port proto : Z) (pr : PortRange) : Prop :=
  pr_Min pr <= port <= pr_Max pr ∧
  (pr_Protocol pr = "" ∨ (pr_Protocol pr = "tcp" ∧ proto = TCPProtocolNumber)
   ∨ (pr_Protocol pr = "udp" ∧ proto = UDPProtocolNumber)).

Definition rule_admits (port proto : Z) (r : SubnetRule) : Prop :=
  PortRanges r = [] ∨ ∃ pr, pr ∈ PortRanges r ∧ range_admits port proto pr.

Definition is_icmp (proto : Z) : bool :=
  (proto =? ICMPv4ProtocolNumber) || (proto =? ICMPv6ProtocolNumber).

(** [r] is installed for the prefix pair [k], which contains the flow. *)
Definition candidate (m : gmap (Prefix * Prefix) SubnetRule) (src dst : Addr)
    (k : Prefix * Prefix) (r : SubnetRule) : Prop :=
  m !! k = Some r ∧ Contains k.1 src = true ∧ Contains k.2 dst = true.

(** Longest source prefix first, then longest destination prefix. *)
Definition more_specific (k1 k2 : Prefix * Prefix) : Prop :=
  pfx_bits k2.1 < pfx_bits k1.1 ∨
  (pfx_bits k2.1 = pfx_bits k1.1 ∧ pfx_bits k2.2 < pfx_bits k1.2).

(** The rule that decides a flow: the most specific candidate that does not
    fall through. *)
Definition decides (m : gmap (Prefix * Prefix) SubnetRule) (src dst : Addr) (port proto : Z)
    (res : option SubnetRule) : Prop :=
  ∃ k r, candidate m src dst k r ∧ checkRule port proto r = Some res ∧
    ∀ k' r', candidate m src dst k' r' → more_specific k' k → checkRule port proto r' = None.

End SubnetLookup.

Arguments rule_key : simpl never.
Arguments destTrie Table : clear implicits.
Arguments SubnetLookup Table : clear implicits.

(** ** Lemmas *)

Section lemmas.
Context {Table : Type → Type} `{BartLaws Table}.
Implicit Types (sl : SubnetLookup Table) (m : gmap (Prefix * Prefix) SubnetRule) (r : SubnetRule).

Lemma rule_valid_canonical r :
  rule_valid r = true → canonical (rule_key r).1 ∧ canonical (rule_key r).2.
Proof. unfold rule_valid. rewrite andb_true_iff. intros [??]. split; by apply Masked_canonical. Qed.

Lemma repr_key_canonical sl m k r : repr sl m → m !! k = Some r → canonical k.1 ∧ canonical k.2.
Proof. intros [Hk _] Hm. apply Hk in Hm as [Hv ->]. by apply rule_valid_canonical. Qed.

(** A rule survives [dropRule] exactly when it has another key. *)
Lemma dropRule_elem s d l r :
  canonical s → canonical d →
  r ∈ dropRule s d l ↔ r ∈ l ∧ rule_key r ≠ (s, d).
Proof.
  intros [_ Hs] [_ Hd]. unfold dropRule, prefixEqual. rewrite list_elem_of_filter, Hs, Hd.
  rewrite Is_true_true, orb_true_iff, !negb_true_iff, !bool_decide_eq_false.
  unfold rule_key. split; [intros [Ho Hr]|intros [Hr Hne]]; (split; [done || idtac|done || idtac]).
  - intros [= <- <-]. by destruct Ho.
  - destruct (decide (Masked (DestPrefix r) = d)); [right|by left]. intros ?. simplify_eq.
Qed.

Lemma dropRule_NoDup s d l : NoDup (rule_key <$> l) → NoDup (rule_key <$> dropRule s d l).
Proof. intros Hl. eapply sublist_NoDup; [exact Hl|]. apply fmap_sublist, sublist_filter. Qed.

Lemma repr_new : repr (NewSubnetLookup : SubnetLookup Table) ∅.
Proof. split; [done|]. intros s _. simpl. rewrite bart_get_empty. intros d. apply lookup_empty. Qed.

(** Slots of other source prefixes do not see a change of the map at [s]. *)
Lemma slot_repr_frame m m' s o :
  (∀ d, m' !! (s, d) = m !! (s, d)) → slot_repr (Table:=Table) m s o → slot_repr m' s o.
Proof.
  intros Heq. destruct o as [dt|]; unfold slot_repr; [|by intros Hn d; rewrite Heq].
  intros ((d & r & Hr) & Htrie & Hnd & Hin). split_and!.
  - exists d, r. by rewrite Heq.
  - intros d' Hd'. by rewrite Heq, Htrie.
  - done.
  - intros r'. rewrite Hin. destruct (rule_key r') as [s' d']; simpl.
    specialize (Heq d'). split; intros [Hm ->]; (split; [congruence|done]).
Qed.

Lemma slot_repr_add m s o r :
  rule_valid r = true → (rule_key r).1 = s → slot_repr m s o →
  let dt := default (mkDestTrie bart_empty []) o in
  slot_repr (spec_add m r) s
    (Some (mkDestTrie (bart_insert (dt_trie dt) (rule_key r).2 [r])
             (dropRule s (rule_key r).2 (dt_rules dt) ++ [r]))).
Proof.
  intros Hv Hs Hslot dt. destruct (rule_valid_canonical r Hv) as [Hc1 Hc2].
  set (d := (rule_key r).2) in *. rewrite Hs in Hc1.
  assert (rule_key r = (s, d)) as Hkey by (rewrite <- Hs; by destruct (rule_key r)).
  assert (∀ d', canonical d' → bart_get (dt_trie dt) d' = (λ r, [r]) <$> m !! (s, d')) as Htrie.
  { intros d' Hd'. unfold dt. destruct o as [dt'|]; simpl in *.
    - by destruct Hslot as (_ & -> & _).
    - by rewrite bart_get_empty, Hslot. }
  assert (NoDup (rule_key <$> dt_rules dt)) as Hnd.
  { unfold dt. destruct o; [by destruct Hslot as (_ & _ & ? & _)|constructor]. }
  assert (∀ r', r' ∈ dt_rules dt ↔ m !! rule_key r' = Some r' ∧ (rule_key r').1 = s) as Hin.
  { unfold dt. destruct o; [by destruct Hslot as (_ & _ & _ & ?)|]. intros r'. split; [by intros ?%elem_of_nil|].
    intros [Hm Heq]. rewrite (surjective_pairing (rule_key r')), Heq, Hslot in Hm. done. }
  unfold slot_repr, spec_add. cbn [dt_trie dt_rules]. rewrite Hkey. split_and!.
  - exists d, r. by rewrite lookup_insert_eq.
  - intros d' Hd'. rewrite bart_get_insert, Htrie by done.
    rewrite lookup_insert. repeat case_decide; simplify_eq; done.
  - rewrite fmap_app. apply NoDup_app. split_and!; [by apply dropRule_NoDup| |].
    + intros k (r' & -> & Hr')%list_elem_of_fmap Hk. apply dropRule_elem in Hr' as [_ Hne]; [|done..].
      cbn [fmap list_fmap] in Hk. apply list_elem_of_singleton in Hk. congruence.
    + apply NoDup_singleton.
  - intros r'. rewrite elem_of_app, dropRule_elem, list_elem_of_singleton, Hin by done.
    rewrite lookup_insert. case_decide as Hd'; split.
    + intros [[_ Hne]| ->]; [congruence|]. by rewrite Hkey.
    + intros [[= ->] _]. by right.
    + intros [[? ?]| ->]; [done|congruence].
    + intros [? ?]. left. split; [done|congruence].
Qed.

Lemma slot_repr_remove m s d dt :
  canonical s → canonical d → (∀ k r, m !! k = Some r → k = rule_key r ∧ canonical k.2) →
  slot_repr m s (Some dt) →
  let trie' := bart_delete (dt_trie dt) d in
  slot_repr (delete (s, d) m) s
    (if Nat.eqb (bart_size trie') 0 then None
     else Some (mkDestTrie trie' (dropRule s d (dt_rules dt)))).
Proof.
  intros Hs Hd Hkeys (Hne & Htrie & Hnd & Hin) trie'.
  assert (∀ d', canonical d' → bart_get trie' d' = (λ r, [r]) <$> delete (s, d) m !! (s, d')) as Htrie'.
  { intros d' Hd'. unfold trie'. rewrite bart_get_delete, Htrie by done.
    rewrite lookup_delete. repeat case_decide; simplify_eq; done. }
  destruct (Nat.eqb_spec (bart_size trie') 0) as [Hz|Hz].
  - intros d'. destruct (decide (canonical d')) as [Hc|Hc].
    + rewrite bart_size_zero in Hz. specialize (Hz d' Hc). rewrite Htrie' in Hz by done.
      by apply fmap_None in Hz.
    + rewrite lookup_delete. case_decide; [done|].
      destruct (m !! (s, d')) eqn:Hm; [|done]. by apply Hkeys in Hm as [_ ?].
  - split_and!.
    + destruct (decide (map_Forall (λ k _, k.1 ≠ s) (delete (s, d) m))) as [Hall|Hex].
      * exfalso. apply Hz, bart_size_zero. intros q Hq. rewrite Htrie' by done.
        apply fmap_None. destruct (_ !! _) eqn:Hl; [|done]. by apply Hall in Hl.
      * apply map_not_Forall in Hex as ([s' d'] & r & Hr & Hx); [|apply _].
        simpl in Hx. apply dec_stable in Hx as ->. eauto.
    + done.
    + by apply dropRule_NoDup.
    + intros r'. cbn [dt_rules]. rewrite dropRule_elem, Hin by done.
      rewrite lookup_delete_Some. naive_solver.
Qed.

Lemma repr_add sl m r :
  rule_valid r = true → repr sl m → repr (addSubnetLocked sl r) (spec_add m r).
Proof.
  intros Hv [Hk Hslot]. destruct (rule_valid_canonical r Hv) as [Hc1 Hc2]. split.
  - intros k r'. unfold spec_add. rewrite lookup_insert. case_decide; [|apply Hk].
    intros [= ->]. done.
  - intros s Hs. unfold addSubnetLocked. cbn [sourceTrie].
    change (Masked (SourcePrefix r)) with (rule_key r).1.
    change (Masked (DestPrefix r)) with (rule_key r).2.
    rewrite bart_get_insert by done. case_decide as Heq.
    + pose proof (slot_repr_add m s _ r Hv Heq (Hslot s Hs)) as Hadd.
      rewrite Heq.
      destruct (bart_get (sourceTrie sl) s) eqn:Hg; exact Hadd.
    + eapply slot_repr_frame; [|by apply Hslot]. intros d. unfold spec_add.
      apply lookup_insert_ne. intros Hx. apply Heq. by rewrite Hx.
Qed.

Lemma repr_remove sl m s d :
  prefix_valid s = true → prefix_valid d = true →
  repr sl m → repr (RemoveSubnet sl s d) (spec_remove m s d).
Proof.
  intros Hvs Hvd Hrepr. pose proof Hrepr as [Hk Hslot].
  apply Masked_canonical in Hvs as Hcs, Hvd as Hcd. unfold spec_remove. split.
  - intros k r [_ Hr]%lookup_delete_Some. by apply Hk.
  - assert (∀ k r, m !! k = Some r → k = rule_key r ∧ canonical k.2) as Hkeys.
    { intros k r Hr. split; [by apply Hk|]. by eapply repr_key_canonical. }
    intros s' Hs'. pose proof (Hslot s' Hs') as Hs'slot.
    assert (Masked s ≠ s' → slot_repr (delete (Masked s, Masked d) m) s' (bart_get (sourceTrie sl) s')) as Hother.
    { intros Hne. eapply slot_repr_frame; [|exact Hs'slot]. intros d'.
      apply lookup_delete_ne. congruence. }
    pose proof (Hslot _ Hcs) as Hmain. unfold RemoveSubnet.
    destruct (bart_get (sourceTrie sl) (Masked s)) as [dt|] eqn:Hg.
    + pose proof (slot_repr_remove m (Masked s) (Masked d) dt Hcs Hcd Hkeys Hmain) as Hrem.
      cbn zeta in Hrem. destruct (Nat.eqb _ 0); cbn [sourceTrie];
        [rewrite bart_get_delete by done|]; rewrite bart_get_insert by done;
        case_decide; subst; auto.
    + destruct (decide (Masked s = s')) as [<-|]; [|auto].
      rewrite Hg. intros d'. rewrite lookup_delete. case_decide; [done|]. apply Hmain.
Qed.

Lemma repr_add_all sl m rules :
  Forall (λ r, rule_valid r = true) rules → repr sl m →
  repr (foldl addSubnetLocked sl rules) (foldl spec_add m rules).
Proof.
  revert sl m. induction rules as [|r rules IH]; intros sl m Hv Hr; [done|].
  apply Forall_cons in Hv as [Hv Hvs]. simpl. apply IH; [done|]. by apply repr_add.
Qed.

Lemma repr_replace sl rules :
  Forall (λ r, rule_valid r = true) rules → repr (ReplaceAll sl rules) (foldl spec_add ∅ rules).
Proof. intros Hv. apply repr_add_all; [done|]. apply repr_new. Qed.

(** The destination level of [Match], for one source prefix. *)
Lemma inner_loop m s dt dst port proto :
  IsValid dst = true →
  (∀ k r, m !! k = Some r → canonical k.2) →
  slot_repr m s (Some dt) →
  let loop := for_return (λ '(_, rules), for_return (checkRule port proto) rules)
                (bart_supernets (dt_trie dt) (PrefixFrom dst (BitLen dst))) in
  (∀ res, loop = Some res ↔
     ∃ d r, m !! (s, d) = Some r ∧ Contains d dst = true ∧ checkRule port proto r = Some res ∧
       ∀ d' r', m !! (s, d') = Some r' → Contains d' dst = true →
         pfx_bits d < pfx_bits d' → checkRule port proto r' = None) ∧
  (loop = None ↔ ∀ d r, m !! (s, d) = Some r → Contains d dst = true → checkRule port proto r = None).
Proof.
  intros Hd Hcan (_ & Htrie & _ & _) loop.
  assert (∀ d rules, (d, rules) ∈ bart_supernets (dt_trie dt) (PrefixFrom dst (BitLen dst)) ↔
    ∃ r, rules = [r] ∧ m !! (s, d) = Some r ∧ Contains d dst = true) as Hel.
  { intros d rules. rewrite bart_supernets_host by done. split.
    - intros (Hc & Hcont & Hg). rewrite Htrie in Hg by done.
      apply fmap_Some in Hg as (r & Hr & ->). eauto.
    - intros (r & -> & Hr & Hcont). pose proof (Hcan _ _ Hr) as Hc. simpl in Hc.
      split_and!; [done..|]. by rewrite Htrie, Hr by done. }
  assert (∀ r, for_return (checkRule port proto) [r] = checkRule port proto r) as Hone.
  { intros r. simpl. by destruct (checkRule port proto r). }
  split.
  - intros res. unfold loop.
    rewrite for_return_descending by (by apply bart_supernets_host_order). split.
    + intros ([d rules] & Hin & Hres & Hall). apply Hel in Hin as (r & -> & Hr & Hc).
      rewrite Hone in Hres. exists d, r. split_and!; [done..|]. intros d' r' Hr' Hc' Hlt.
      rewrite <- Hone. apply (Hall (d', [r'])); [|done]. apply Hel. eauto.
    + intros (d & r & Hr & Hc & Hres & Hall). exists (d, [r]). rewrite Hone.
      split_and!; [apply Hel; eauto|done|]. intros [d' rules'] Hin Hlt.
      apply Hel in Hin as (r' & -> & Hr' & Hc'). rewrite Hone. eauto.
  - unfold loop. rewrite for_return_None. split.
    + intros Hall d r Hr Hc. rewrite <- Hone. apply (Hall (d, [r])), Hel. eauto.
    + intros Hall [d rules] Hin. apply Hel in Hin as (r & -> & Hr & Hc). rewrite Hone. eauto.
Qed.

(** [Match] on a table that stands for [m]: the deciding rule of the map, or
    nothing when every candidate falls through. *)
Lemma Match_repr sl m src dst port proto :
  IsValid src = true → IsValid dst = true → repr sl m →
  decides m src dst port proto (Match sl src dst port proto) ∨
  (Match sl src dst port proto = None ∧
   ∀ k r, candidate m src dst k r → checkRule port proto r = None).
Proof.
  intros Hs Hd Hrepr. pose proof Hrepr as [Hk Hslot].
  assert (∀ k r, m !! k = Some r → canonical k.1 ∧ canonical k.2) as Hcan
    by (intros; by eapply repr_key_canonical).
  assert (∀ k r, m !! k = Some r → canonical k.2) as Hcan2 by (intros; by eapply Hcan).
  assert (∀ s dt, (s, dt) ∈ bart_supernets (sourceTrie sl) (PrefixFrom src (BitLen src)) →
    Contains s src = true ∧ slot_repr m s (Some dt)) as Hin1.
  { intros s dt (Hc & Hcont & Hg)%bart_supernets_host; [|done]. split; [done|].
    rewrite <- Hg. by apply Hslot. }
  assert (∀ k r, candidate m src dst k r →
    ∃ dt, (k.1, dt) ∈ bart_supernets (sourceTrie sl) (PrefixFrom src (BitLen src))) as Hin2.
  { intros [s d] r (Hr & Hc1 & Hc2). simpl in *. destruct (Hcan _ _ Hr) as [Hcs _].
    pose proof (Hslot s Hcs) as Hsl. destruct (bart_get (sourceTrie sl) s) as [dt|] eqn:Hg.
    - exists dt. by apply bart_supernets_host.
    - simpl in Hsl. by rewrite Hsl in Hr. }
  unfold Match. match goal with |- context [for_return ?f ?l] => destruct (for_return f l) as [res|] eqn:Hfor end.
  - left. apply (for_return_descending (λ e : Prefix * destTrie Table, pfx_bits e.1)) in Hfor;
      [|by apply bart_supernets_host_order].
    destruct Hfor as ([s dt] & Hin & Hres & Hall).
    destruct (Hin1 _ _ Hin) as [Hcs Hsl].
    apply (proj1 (inner_loop m s dt dst port proto Hd Hcan2 Hsl)) in Hres as (d & r & Hr & Hcd & Hchk & Hmin).
    exists (s, d), r. split; [done|]. split; [done|].
    intros [s' d'] r' Hcand Hspec. destruct (Hin2 _ _ Hcand) as [dt' Hin'].
    destruct (Hin1 _ _ Hin') as [_ Hsl']. destruct Hcand as (Hr' & Hc1 & Hc2). simpl in *.
    destruct Hspec as [Hlt|[Heq Hlt]]; simpl in *.
    + pose proof (Hall _ Hin' Hlt) as Hnone.
      by apply (proj1 (proj2 (inner_loop m s' dt' dst port proto Hd Hcan2 Hsl')) Hnone d').
    + assert ((s, dt) = (s', dt')) as [= <- <-].
      { by apply (descending_inj (λ e : Prefix * destTrie Table, pfx_bits e.1) _ _ _
            (bart_supernets_host_order (sourceTrie sl) src Hs)). }
      eauto.
  - right. split; [done|]. intros [s d] r Hcand. rewrite for_return_None in Hfor.
    destruct (Hin2 _ _ Hcand) as [dt Hin]. pose proof (Hfor _ Hin) as Hnone.
    destruct (Hin1 _ _ Hin) as [_ Hsl]. destruct Hcand as (Hr & _ & Hc2). simpl in *.
    by apply (proj1 (proj2 (inner_loop m s dt dst port proto Hd Hcan2 Hsl)) Hnone d).
Qed.

Lemma checkPortRange_spec r port proto pr :
  (checkPortRange r port proto pr = Some (Some r) ∧ range_admits port proto pr) ∨
  (checkPortRange r port proto pr = None ∧ ¬ range_admits port proto pr).
Proof.
  unfold checkPortRange, range_admits.
  destruct (Z.leb_spec (pr_Min pr) port), (Z.leb_spec port (pr_Max pr)); simpl;
    try (right; split; [done|]; intros [? _]; lia).
  repeat case_bool_decide; simpl; try congruence;
    destruct (Z.eqb_spec proto TCPProtocolNumber), (Z.eqb_spec proto UDPProtocolNumber); simpl;
    solve [left; split; [done|]; split; [lia|]; tauto
          |right; split; [done|]; intros [_ ?]; naive_solver congruence].
Qed.

(** Outside ICMP a rule either admits the flow and is returned, or falls
    through; it never returns nil. *)
Lemma checkRule_ports r port proto :
  is_icmp proto = false →
  (checkRule port proto r = Some (Some r) ∧ rule_admits port proto r) ∨
  (checkRule port proto r = None ∧ ¬ rule_admits port proto r).
Proof.
  unfold is_icmp, checkRule, rule_admits. intros ->.
  destruct (PortRanges r) as [|pr0 prs] eqn:Hprs; [left; simpl; tauto|]. cbn [length Nat.eqb].
  destruct (for_return _ _) as [res|] eqn:Hfor.
  - left. apply for_return_Some in Hfor as (l1 & pr & l2 & Heq & Hres & _).
    destruct (checkPortRange_spec r port proto pr) as [[Hc Ha]|[Hc _]]; [|congruence].
    split; [congruence|]. right. exists pr. split; [|done]. rewrite Heq. set_solver.
  - right. split; [done|]. rewrite for_return_None in Hfor. intros [?|(pr & Hin & Ha)]; [done|].
    destruct (checkPortRange_spec r port proto pr) as [[Hc _]|[_ Hna]]; [|done].
    rewrite Hfor in Hc by done. done.
Qed.

Lemma checkRule_icmp r port proto :
  is_icmp proto = true →
  checkRule port proto r = Some (if DisableIcmp r then None else Some r).
Proof. unfold is_icmp, checkRule. intros ->. by destruct (DisableIcmp r). Qed.

Lemma candidate_key sl m src dst k r : repr sl m → candidate m src dst k r → k = rule_key r ∧ rule_valid r = true.
Proof. intros [Hk _] (Hr & _). apply Hk in Hr. tauto. Qed.

(** The stored rules, keyed, list the map exactly once. *)
Lemma GetAllRules_keyed sl m :
  repr sl m →
  NoDup (rule_key <$> GetAllRules sl) ∧
  ∀ r, r ∈ GetAllRules sl ↔ m !! rule_key r = Some r.
Proof.
  intros Hrepr. pose proof Hrepr as [Hk Hslot]. unfold GetAllRules.
  assert (∀ s dt, (s, dt) ∈ bart_all (sourceTrie sl) → slot_repr m s (Some dt)) as Hall.
  { intros s dt [Hc Hg]%bart_all_elem. rewrite <- Hg. by apply Hslot. }
  split.
  - pose proof (bart_all_nodup (sourceTrie sl)) as Hnd. revert Hnd Hall.
    induction (bart_all (sourceTrie sl)) as [|[s dt] l IH]; intros Hnd Hall; [constructor|].
    apply NoDup_cons in Hnd as [Hnotin Hnd]. simpl flat_map.
    change (map rule_key ?x) with (rule_key <$> x). rewrite fmap_app. apply NoDup_app. split_and!.
    + by apply (Hall s dt (list_elem_of_here _ _)).
    + intros k (r & -> & Hr)%list_elem_of_fmap (r' & Heq & Hr')%list_elem_of_fmap.
      apply list_elem_of_In, in_flat_map in Hr' as ([s' dt'] & Hin & Hr').
      apply list_elem_of_In in Hin, Hr'. pose proof (list_elem_of_further _ (s, dt) _ Hin) as Hin2.
      pose proof (Hall s dt (list_elem_of_here _ _)) as (_ & _ & _ & H1).
      pose proof (Hall s' dt' Hin2) as (_ & _ & _ & H2).
      apply H1 in Hr as [_ Hr]. apply H2 in Hr' as [_ Hr']. apply Hnotin.
      apply list_elem_of_fmap. exists (s', dt'). split; [simpl; congruence|done].
    + apply IH; [done|]. intros s' dt' Hin. apply Hall. by apply list_elem_of_further.
  - intros r. rewrite list_elem_of_In, in_flat_map. split.
    + intros ([s dt] & Hin & Hr). apply list_elem_of_In in Hin, Hr.
      apply Hall in Hin as (_ & _ & _ & Hel). by apply Hel in Hr as [? _].
    + intros Hr. pose proof (repr_key_canonical _ _ _ _ Hrepr Hr) as [Hc _].
      pose proof (Hslot _ Hc) as Hsl. destruct (bart_get _ _) as [dt|] eqn:Hg.
      * exists ((rule_key r).1, dt). rewrite <- !list_elem_of_In. split; [by apply bart_all_elem|].
        destruct Hsl as (_ & _ & _ & Hel). by apply Hel.
      * simpl in Hsl. rewrite (surjective_pairing (rule_key r)), Hsl in Hr. done.
Qed.

Lemma more_specific_total m src dst k1 r1 k2 r2 :
  (∀ k r, m !! k = Some r → canonical k.1 ∧ canonical k.2) →
  candidate m src dst k1 r1 → candidate m src dst k2 r2 →
  more_specific k1 k2 ∨ more_specific k2 k1 ∨ k1 = k2.
Proof.
  intros Hcan (Hr1 & Hs1 & Hd1) (Hr2 & Hs2 & Hd2).
  destruct (Hcan _ _ Hr1) as [Hcs1 Hcd1], (Hcan _ _ Hr2) as [Hcs2 Hcd2].
  destruct k1 as [s1 d1], k2 as [s2 d2]; unfold more_specific; simpl in *.
  destruct (Z.lt_trichotomy (pfx_bits s1) (pfx_bits s2)) as [?|[Heq|?]]; [tauto| |tauto].
  destruct (Z.lt_trichotomy (pfx_bits d1) (pfx_bits d2)) as [?|[Heq'|?]]; [auto| |auto].
  right; right. f_equal.
  - rewrite (canonical_contains_eq s1 src), (canonical_contains_eq s2 src), Heq; done.
  - rewrite (canonical_contains_eq d1 dst), (canonical_contains_eq d2 dst), Heq'; done.
Qed.

Lemma decides_unique m src dst port proto res1 res2 :
  (∀ k r, m !! k = Some r → canonical k.1 ∧ canonical k.2) →
  decides m src dst port proto res1 → decides m src dst port proto res2 → res1 = res2.
Proof.
  intros Hcan (k1 & r1 & Hc1 & Hx1 & Hm1) (k2 & r2 & Hc2 & Hx2 & Hm2).
  destruct (more_specific_total m src dst k1 r1 k2 r2 Hcan Hc1 Hc2) as [Hms|[Hms| ->]].
  - rewrite (Hm2 _ _ Hc1 Hms) in Hx1. done.
  - rewrite (Hm1 _ _ Hc2 Hms) in Hx2. done.
  - destruct Hc1 as [Hr1 _], Hc2 as [Hr2 _]. congruence.
Qed.

Lemma foldl_spec_add_last m rules r :
  foldl spec_add m rules !! rule_key r = Some r ↔
  (∃ l1 l2, rules = l1 ++ r :: l2 ∧ ∀ r', r' ∈ l2 → rule_key r' ≠ rule_key r) ∨
  (m !! rule_key r = Some r ∧ ∀ r', r' ∈ rules → rule_key r' ≠ rule_key r).
Proof.
  induction rules as [|x rules IH] using rev_ind.
  - simpl. split; [intros Hm; right; split; [done|by intros r' ?%elem_of_nil]|].
    intros [(l1 & l2 & Heq & _)|[? _]]; [by destruct l1|done].
  - rewrite foldl_snoc. unfold spec_add at 1. rewrite lookup_insert.
    assert (∀ l1 l2, rules ++ [x] = l1 ++ r :: l2 ↔
      (l2 = [] ∧ rules = l1 ∧ x = r) ∨ ∃ l2', l2 = l2' ++ [x] ∧ rules = l1 ++ r :: l2') as Hsnoc.
    { intros l1 l2. destruct l2 as [|y l2 _] using rev_ind; split.
      - intros [-> ->]%app_inj_tail. by left.
      - intros [(_ & -> & ->)|(l2' & Heq & _)]; [done|]. by destruct l2'.
      - rewrite app_comm_cons, app_assoc. intros [-> ->]%app_inj_tail. right. by exists l2.
      - intros [(Heq & _)|(l2' & [-> ->]%app_inj_tail & ->)]; [by destruct l2|].
        by rewrite <- app_assoc. }
    setoid_rewrite Hsnoc. setoid_rewrite elem_of_app. setoid_rewrite list_elem_of_singleton.
    case_decide as Hk.
    + split.
      * intros [= ->]. left. exists rules, []. split; [by left|by intros r' ?%elem_of_nil].
      * intros [(l1 & l2 & [(_ & _ & ->)|(l2' & -> & ->)] & Hl2)|[_ Hall]]; [done|..].
        -- exfalso. apply (Hl2 x); [|done]. apply elem_of_app. right. by apply list_elem_of_singleton.
        -- exfalso. apply (Hall x); [by right|done].
    + rewrite IH. split.
      * intros [(l1 & l2 & -> & Hl2)|[Hm Hall]].
        -- left. exists l1, (l2 ++ [x]). split; [right; by exists l2|].
           intros r' [?| ->%list_elem_of_singleton]%elem_of_app; auto.
        -- right. split; [done|]. intros r' [?| ->]; auto.
      * intros [(l1 & l2 & [(_ & _ & ->)|(l2' & -> & ->)] & Hl2)|[Hm Hall]].
        -- done.
        -- left. exists l1, l2'. split; [done|]. intros r' ?. apply Hl2, elem_of_app. by left.
        -- right. split; [done|]. intros r' ?. apply Hall. by left.
Qed.

(** ** Sequences of operations *)

Inductive TableOp : Type :=
  | OpAdd (r : SubnetRule)
  | OpRemove (s d : Prefix)
  | OpReplace (rules : list SubnetRule).

Definition run_op (sl : SubnetLookup Table) (o : TableOp) : SubnetLookup Table :=
  match o with
  | OpAdd r => AddSubnet sl r
  | OpRemove s d => RemoveSubnet sl s d
  | OpReplace rules => ReplaceAll sl rules
  end.

Definition spec_op (m : gmap (Prefix * Prefix) SubnetRule) (o : TableOp) :
    gmap (Prefix * Prefix) SubnetRule :=
  match o with
  | OpAdd r => spec_add m r
  | OpRemove s d => spec_remove m s d
  | OpReplace rules => foldl spec_add ∅ rules
  end.

Definition op_valid (o : TableOp) : bool :=
  match o with
  | OpAdd r => rule_valid r
  | OpRemove s d => prefix_valid s && prefix_valid d
  | OpReplace rules => forallb rule_valid rules
  end.

Lemma repr_op sl m o : op_valid o = true → repr sl m → repr (run_op sl o) (spec_op m o).
Proof.
  destruct o as [r|s d|rules]; simpl; intros Hv Hr.
  - by apply repr_add.
  - apply andb_true_iff in Hv as [??]. by apply repr_remove.
  - apply repr_replace, Forall_forall. intros r Hr'. rewrite forallb_forall in Hv.
    by apply Hv, list_elem_of_In.
Qed.

Lemma repr_ops sl m ops :
  Forall (λ o, op_valid o = true) ops → repr sl m →
  repr (foldl run_op sl ops) (foldl spec_op m ops).
Proof.
  revert sl m. induction ops as [|o ops IH]; intros sl m Hv Hr; [done|].
  apply Forall_cons in Hv as [Hv Hvs]. simpl. apply IH; [done|]. by apply repr_op.
Qed.

(** ** Properties *)

(** C1: every sequence of AddSubnet, RemoveSubnet and ReplaceAll on a new
    table refines the same sequence of updates of the finite map from
    canonical (source, destination) prefix pairs to rules: the two-level trie,
    its rule slices and the removal of empty tries are invisible. *)
Theorem table_refines_map (ops : list TableOp) :
  Forall (λ o, op_valid o = true) ops →
  repr (foldl run_op NewSubnetLookup ops) (foldl spec_op ∅ ops).
Proof. intros Hv. apply repr_ops; [done|]. apply repr_new. Qed.

(** C2: on a table that stands for [m], Match returns [res] exactly when [res]
    is the verdict of the most specific rule (longest source prefix, then
    longest destination prefix) that does not fall through, or is nil because
    every rule containing the flow falls through. *)
Theorem Match_correct sl m src dst port proto res :
  IsValid src = true → IsValid dst = true → repr sl m →
  Match sl src dst port proto = res ↔
  decides m src dst port proto res ∨
  (res = None ∧ ∀ k r, candidate m src dst k r → checkRule port proto r = None).
Proof.
  intros Hs Hd Hr. pose proof (Match_repr sl m src dst port proto Hs Hd Hr) as HM. split.
  - intros <-. tauto.
  - assert (∀ k r, m !! k = Some r → canonical k.1 ∧ canonical k.2) as Hcan
      by (intros; by eapply repr_key_canonical).
    intros [Hdec|[-> Hall]].
    + destruct HM as [Hdec'|[_ Hall]]; [by eapply decides_unique|].
      destruct Hdec as (k & r & Hc & Hx & _). rewrite (Hall k r Hc) in Hx. done.
    + destruct HM as [(k & r & Hc & Hx & _)|[Hn _]]; [|done]. rewrite (Hall k r Hc) in Hx. done.
Qed.

(** For a protocol other than ICMP, Match returns an installed rule whose
    prefixes contain both addresses and whose port ranges admit the port and
    protocol, with no more specific rule admitting them; and it returns nil
    only when no installed rule containing the flow admits it. *)
Theorem Match_ports sl m src dst port proto :
  IsValid src = true → IsValid dst = true → is_icmp proto = false → repr sl m →
  match Match sl src dst port proto with
  | Some r => candidate m src dst (rule_key r) r ∧ rule_admits port proto r ∧
      ∀ k' r', candidate m src dst k' r' → more_specific k' (rule_key r) →
        ¬ rule_admits port proto r'
  | None => ∀ k r, candidate m src dst k r → ¬ rule_admits port proto r
  end.
Proof.
  intros Hs Hd Hi Hr.
  assert (∀ r, checkRule port proto r = None → ¬ rule_admits port proto r) as Hna.
  { intros r Hn. destruct (checkRule_ports r port proto Hi) as [[? _]|[_ ?]]; congruence. }
  destruct (Match_repr sl m src dst port proto Hs Hd Hr) as [(k & r & Hc & Hx & Hmin)|[-> Hall]];
    [|eauto].
  destruct (checkRule_ports r port proto Hi) as [[Hx' Ha]|[Hx' _]]; [|congruence].
  rewrite Hx' in Hx. injection Hx as <-.
  destruct (candidate_key sl m src dst k r Hr Hc) as [-> _]. eauto.
Qed.

(** An ICMP flow is decided by the single most specific rule containing
    it, whatever its port ranges: the rule is returned unless it disables
    ICMP, and a less specific rule that allows ICMP is not consulted. *)
Theorem Match_icmp sl m src dst port proto r :
  IsValid src = true → IsValid dst = true → is_icmp proto = true → repr sl m →
  Match sl src dst port proto = Some r ↔
  DisableIcmp r = false ∧ candidate m src dst (rule_key r) r ∧
  ∀ k' r', candidate m src dst k' r' → ¬ more_specific k' (rule_key r).
Proof.
  intros Hs Hd Hi Hr.
  assert (∀ k r, m !! k = Some r → canonical k.1 ∧ canonical k.2) as Hcan
    by (intros; by eapply repr_key_canonical).
  pose proof (λ r, checkRule_icmp r port proto Hi) as Hchk. split.
  - intros HM. destruct (Match_repr sl m src dst port proto Hs Hd Hr) as [(k & r' & Hc & Hx & Hmin)|[Hn _]];
      [|congruence].
    rewrite HM, Hchk in Hx. destruct (DisableIcmp r') eqn:Hdis; simplify_eq.
    destruct (candidate_key sl m src dst k r Hr Hc) as [-> _].
    split_and!; [done..|]. intros k' r' Hc' Hms. pose proof (Hmin _ _ Hc' Hms) as Hx. by rewrite Hchk in Hx.
  - intros (Hdis & Hc & Hmin).
    assert (decides m src dst port proto (Some r)) as Hdec.
    { exists (rule_key r), r. rewrite Hchk, Hdis. split_and!; [done..|].
      intros k' r' Hc' Hms. by destruct (Hmin _ _ Hc' Hms). }
    destruct (Match_repr sl m src dst port proto Hs Hd Hr) as [Hdec'|[_ Hall]].
    + by eapply decides_unique.
    + specialize (Hall _ _ Hc). by rewrite Hchk in Hall.
Qed.

(** GetAllRules lists every rule of the map exactly once. *)
Theorem GetAllRules_complete sl m :
  repr sl m → Permutation ((λ r, (rule_key r, r)) <$> GetAllRules sl) (map_to_list m).
Proof.
  intros Hr. destruct (GetAllRules_keyed sl m Hr) as [Hnd Hel].
  apply NoDup_Permutation.
  - eapply (NoDup_fmap_1 fst). rewrite <- list_fmap_compose. exact Hnd.
  - apply NoDup_map_to_list.
  - intros [k r]. rewrite elem_of_map_to_list, list_elem_of_fmap. split.
    + intros (r' & [= -> ->] & Hin). by apply Hel.
    + intros Hm. exists r. destruct (proj1 Hr _ _ Hm) as [_ ->]. split; [done|]. by apply Hel.
Qed.

(** After ReplaceAll the installed rules are exactly the rules of the new
    set that no later rule of the set overrides: nothing of the previous
    table survives, even under an unchanged prefix pair. *)
Theorem ReplaceAll_exact sl rules r :
  Forall (λ r, rule_valid r = true) rules →
  r ∈ GetAllRules (ReplaceAll sl rules) ↔
  ∃ l1 l2, rules = l1 ++ r :: l2 ∧ ∀ r', r' ∈ l2 → rule_key r' ≠ rule_key r.
Proof.
  intros Hv. destruct (GetAllRules_keyed _ _ (repr_replace sl rules Hv)) as [_ Hel].
  rewrite Hel, foldl_spec_add_last, lookup_empty. naive_solver.
Qed.

End lemmas.

(** ** Witnesses on concrete tables *)

Module SubnetExamples.

Definition ip4 (a b c d : Z) : Addr := Addr4 (a * 2 ^ 24 + b * 2 ^ 16 + c * 2 ^ 8 + d).

(** 10.0.0.5/24 to 10.20.0.0/16, TCP ports 80 to 443. *)
Definition web_rule : SubnetRule :=
  mkSubnetRule (mkPrefix (ip4 10 0 0 5) 24) (mkPrefix (ip4 10 20 0 0) 16) true ""
    [mkPortRange 80 443 "tcp"] 7 "" [] "" "".

(** 10.0.0.0/8 to 10.20.0.0/16, every port, ICMP allowed. *)
Definition wide_rule : SubnetRule :=
  mkSubnetRule (mkPrefix (ip4 10 0 0 0) 8) (mkPrefix (ip4 10 20 0 0) 16) false ""
    [] 9 "" [] "" "".

(** The prefix pair of [web_rule] again, with host bits and another rewrite. *)
Definition web_rule2 : SubnetRule :=
  mkSubnetRule (mkPrefix (ip4 10 0 0 9) 24) (mkPrefix (ip4 10 20 3 0) 16) true "192.168.1.1"
    [mkPortRange 80 80 ""] 8 "" [] "" "".

Definition ops : list TableOp :=
  [OpAdd web_rule; OpAdd wide_rule;
   OpRemove (mkPrefix (ip4 10 0 0 1) 24) (mkPrefix (ip4 10 20 0 0) 16); OpReplace [wide_rule; web_rule]].

Definition tbl : SubnetLookup gtable := foldl run_op NewSubnetLookup ops.
Definition rmap : gmap (Prefix * Prefix) SubnetRule := foldl spec_op ∅ ops.

Lemma ops_valid : Forall (λ o, op_valid o = true) ops.
Proof. repeat constructor. Qed.

Lemma tbl_repr : repr tbl rmap.
Proof. apply repr_ops; [exact ops_valid|apply repr_new]. Qed.

Lemma table_refines_map_witness :
  Forall (λ o, op_valid o = true) ops ∧ repr (foldl run_op (NewSubnetLookup : SubnetLookup gtable) ops) rmap.
Proof. split; [repeat constructor|]. apply (table_refines_map ops). repeat constructor. Defined.

Lemma Match_correct_witness :
  Match tbl (ip4 10 0 0 77) (ip4 10 20 1 1) 443 TCPProtocolNumber = Some web_rule ∧
  decides rmap (ip4 10 0 0 77) (ip4 10 20 1 1) 443 TCPProtocolNumber (Some web_rule).
Proof.
  split; [vm_compute; reflexivity|].
  destruct (proj1 (Match_correct tbl rmap (ip4 10 0 0 77) (ip4 10 20 1 1) 443 TCPProtocolNumber
    (Some web_rule) eq_refl eq_refl tbl_repr)) as [Hd|[Hn _]].
  - vm_compute. reflexivity.
  - exact Hd.
  - discriminate Hn.
Defined.

Lemma Match_ports_witness :
  Match tbl (ip4 10 0 0 77) (ip4 10 20 1 1) 22 TCPProtocolNumber = Some wide_rule ∧
  rule_admits 22 TCPProtocolNumber wide_rule.
Proof.
  pose proof (Match_ports tbl rmap (ip4 10 0 0 77) (ip4 10 20 1 1) 22 TCPProtocolNumber
    eq_refl eq_refl eq_refl tbl_repr) as HM.
  assert (Match tbl (ip4 10 0 0 77) (ip4 10 20 1 1) 22 TCPProtocolNumber = Some wide_rule) as Heq
    by (vm_compute; reflexivity).
  rewrite Heq in HM. split; [exact Heq|]. exact (proj1 (proj2 HM)).
Defined.

(** ICMP from 10.0.0.77 is refused by [web_rule] although [wide_rule] allows
    it; from 10.1.0.1 only [wide_rule] applies. *)
Lemma Match_icmp_witness :
  Match tbl (ip4 10 0 0 77) (ip4 10 20 1 1) 0 ICMPv4ProtocolNumber = None ∧
  candidate rmap (ip4 10 1 0 1) (ip4 10 20 1 1) (rule_key wide_rule) wide_rule.
Proof.
  split; [vm_compute; reflexivity|].
  apply (proj1 (Match_icmp tbl rmap (ip4 10 1 0 1) (ip4 10 20 1 1) 0 ICMPv4ProtocolNumber wide_rule
    eq_refl eq_refl eq_refl tbl_repr)).
  vm_compute. reflexivity.
Defined.

Lemma GetAllRules_complete_witness :
  Permutation ((λ r, (rule_key r, r)) <$> GetAllRules tbl) (map_to_list rmap) ∧
  length (GetAllRules tbl) = 2%nat.
Proof. split; [apply (GetAllRules_complete tbl rmap tbl_repr)|vm_compute; reflexivity]. Defined.

Lemma ReplaceAll_exact_witness :
  web_rule2 ∈ GetAllRules (ReplaceAll tbl [web_rule; wide_rule; web_rule2]) ∧
  web_rule ∉ GetAllRules (ReplaceAll tbl [web_rule; wide_rule; web_rule2]).
Proof.
  split.
  - apply (ReplaceAll_exact tbl [web_rule; wide_rule; web_rule2] web_rule2).
    + repeat constructor.
    + exists [web_rule; wide_rule], []. split; [reflexivity|]. intros r' Hr'. inversion Hr'.
  - apply (bool_decide_unpack _). vm_compute. exact I.
Defined.

End SubnetExamples.
