(* ===== verification/Packet.v ===== *)
(** * IPv4 packets and their rewriting (netstack2/proxy.go)

    newt reads and edits packets through gvisor's header package, which is not
    part of the repository: [Headers] lists the accessors it calls and
    [HeaderLaws] what they are documented to do, the field positions of RFC
    791, 793 and 768 and the checksums of RFC 1071.  [rfc_headers] implements
    them.  [rewritePacketDestination] and [rewritePacketSource] are newt's. *)

From S2P Require Import Prelude Netip NetipText Checksum SubnetLookup.

Definition IPv4MinimumSize : nat := 20.
Definition TCPMinimumSize : nat := 20.
Definition UDPMinimumSize : nat := 8.

Class Headers : Type := {
  ip_SourceAddress : list Z → Z;
  ip_DestinationAddress : list Z → Z;
  ip_TransportProtocol : list Z → Z;
  ip_HeaderLength : list Z → nat;
  ip_SetSourceAddress : list Z → Z → list Z;
  ip_SetDestinationAddress : list Z → Z → list Z;
  ip_SetChecksum : list Z → Z → list Z;
  ip_CalculateChecksum : list Z → Z;
  tcp_SourcePort : list Z → Z;
  tcp_DestinationPort : list Z → Z;
  tcp_SetChecksum : list Z → Z → list Z;
  udp_SourcePort : list Z → Z;
  udp_DestinationPort : list Z → Z;
  udp_SetChecksum : list Z → Z → list Z;
  (** [checksum.Checksum(buf, initial)] *)
  Checksum : list Z → Z → Z;
  (** [header.PseudoHeaderChecksum(protocol, src, dst, totalLen)] *)
  PseudoHeaderChecksum : Z → Z → Z → Z → Z;
  (** [tcpip.Address.String] of a four-byte address *)
  tcpip_String : Z → string;
}.

(** The pseudo-header that TCP and UDP checksums cover. *)
Definition pseudo_header (proto src dst len : Z) : list Z :=
  be_bytes 4 src ++ be_bytes 4 dst ++ [0; proto mod 256] ++ be_bytes 2 len.

(** The IHL field: header length in bytes. *)
Definition ihl_bytes (b : list Z) : nat := Z.to_nat (Z.land (be_get b 0 1) 15 * 4).

Class HeaderLaws `{!Headers} : Prop := {
  ip_src_spec b : (20 <= length b)%nat → ip_SourceAddress b = be_get b 12 4;
  ip_dst_spec b : (20 <= length b)%nat → ip_DestinationAddress b = be_get b 16 4;
  ip_proto_spec b : (20 <= length b)%nat → ip_TransportProtocol b = be_get b 9 1;
  ip_hlen_spec b : (20 <= length b)%nat → ip_HeaderLength b = ihl_bytes b;
  ip_set_src_spec b a : (20 <= length b)%nat → ip_SetSourceAddress b a = be_put b 12 4 a;
  ip_set_dst_spec b a : (20 <= length b)%nat → ip_SetDestinationAddress b a = be_put b 16 4 a;
  ip_set_sum_spec b c : (20 <= length b)%nat → ip_SetChecksum b c = be_put b 10 2 c;
  ip_calc_spec b : (20 <= ihl_bytes b <= length b)%nat →
    ip_CalculateChecksum b = rfc1071 (take (ihl_bytes b) b) 0;
  tcp_sport_spec b : (20 <= length b)%nat → tcp_SourcePort b = be_get b 0 2;
  tcp_dport_spec b : (20 <= length b)%nat → tcp_DestinationPort b = be_get b 2 2;
  tcp_set_sum_spec b c : (20 <= length b)%nat → tcp_SetChecksum b c = be_put b 16 2 c;
  udp_sport_spec b : (8 <= length b)%nat → udp_SourcePort b = be_get b 0 2;
  udp_dport_spec b : (8 <= length b)%nat → udp_DestinationPort b = be_get b 2 2;
  udp_set_sum_spec b c : (8 <= length b)%nat → udp_SetChecksum b c = be_put b 6 2 c;
  checksum_spec b i : Checksum b i = rfc1071 b i;
  pseudo_spec proto src dst len :
    PseudoHeaderChecksum proto src dst len = rfc1071 (pseudo_header proto src dst len) 0;
  tcpip_string_spec a : a fits 32 → tcpip_String a = AddrString (Addr4 a);
}.

#[global] Instance rfc_headers : Headers := {
  ip_SourceAddress b := be_get b 12 4;
  ip_DestinationAddress b := be_get b 16 4;
  ip_TransportProtocol b := be_get b 9 1;
  ip_HeaderLength b := ihl_bytes b;
  ip_SetSourceAddress b a := be_put b 12 4 a;
  ip_SetDestinationAddress b a := be_put b 16 4 a;
  ip_SetChecksum b c := be_put b 10 2 c;
  ip_CalculateChecksum b := rfc1071 (take (ihl_bytes b) b) 0;
  tcp_SourcePort b := be_get b 0 2;
  tcp_DestinationPort b := be_get b 2 2;
  tcp_SetChecksum b c := be_put b 16 2 c;
  udp_SourcePort b := be_get b 0 2;
  udp_DestinationPort b := be_get b 2 2;
  udp_SetChecksum b c := be_put b 6 2 c;
  Checksum := rfc1071;
  PseudoHeaderChecksum proto src dst len := rfc1071 (pseudo_header proto src dst len) 0;
  tcpip_String a := AddrString (Addr4 a);
}.

#[global] Instance rfc_header_laws : HeaderLaws.
Proof. split; intros; reflexivity. Qed.

Section Packet.
Context `{!Headers}.

(** [SetChecksum(0)] then [SetChecksum(^CalculateChecksum())]. *)
Definition recalcIPChecksum (pkt : list Z) : list Z :=
  let pkt := ip_SetChecksum pkt 0 in
  ip_SetChecksum pkt (not16 (ip_CalculateChecksum pkt)).

(** One case of the transport switch: zero the checksum field of the segment
    at [headerLen], sum pseudo-header and segment, store the complement.  The
    segment is a view of [pkt], so each write is a write to [pkt]. *)
Definition recalcTransport (setChecksum : list Z → Z → list Z) (proto : Z) (minSize headerLen : nat)
    (pkt : list Z) : list Z :=
  if Nat.leb (headerLen + minSize) (length pkt) then
    let pkt := take headerLen pkt ++ setChecksum (drop headerLen pkt) 0 in
    let xsum := PseudoHeaderChecksum proto (ip_SourceAddress pkt) (ip_DestinationAddress pkt)
                  (wrap16 (Z.of_nat (length pkt) - Z.of_nat headerLen)) in
    let xsum := Checksum (drop headerLen pkt) xsum in
    take headerLen pkt ++ setChecksum (drop headerLen pkt) (not16 xsum)
  else pkt.

Definition recalcTransportChecksum (headerLen : nat) (pkt : list Z) : list Z :=
  let protocol := ip_TransportProtocol pkt in
  if protocol =? TCPProtocolNumber then
    recalcTransport tcp_SetChecksum TCPProtocolNumber TCPMinimumSize headerLen pkt
  else if protocol =? UDPProtocolNumber then
    recalcTransport udp_SetChecksum UDPProtocolNumber UDPMinimumSize headerLen pkt
  else pkt.

(** [Ret None] is the nil result for a short packet; [As4] panics on an
    address that is neither IPv4 nor IPv4-mapped. *)
Definition rewritePacketDestination (packet : list Z) (newDst : Addr) : go (option (list Z)) :=
  if Nat.ltb (length packet) IPv4MinimumSize then Ret None else
  let headerLen := ip_HeaderLength packet in
  newDstBytes ← or_panic (As4 newDst);
  let pkt := ip_SetDestinationAddress packet newDstBytes in
  let pkt := recalcIPChecksum pkt in
  Ret (Some (recalcTransportChecksum headerLen pkt)).

Definition rewritePacketSource (packet : list Z) (newSrc : Addr) : go (option (list Z)) :=
  if Nat.ltb (length packet) IPv4MinimumSize then Ret None else
  let headerLen := ip_HeaderLength packet in
  newSrcBytes ← or_panic (As4 newSrc);
  let pkt := ip_SetSourceAddress packet newSrcBytes in
  let pkt := recalcIPChecksum pkt in
  Ret (Some (recalcTransportChecksum headerLen pkt)).

End Packet.

(** ** Well-formed packets *)

(** An IPv4 packet whose header fits: at least 20 bytes of header, all of it
    present. *)
Definition ipv4_wf (b : list Z) : Prop := bytes_ok b ∧ (20 <= ihl_bytes b <= length b)%nat.

Definition ip_sum_ok (b : list Z) : Prop := rfc1071 (take (ihl_bytes b) b) 0 = 65535.

(** The checksum of the TCP or UDP segment, when there is a full header. *)
Definition transport_sum_ok (b : list Z) : Prop :=
  let seg := drop (ihl_bytes b) b in
  let proto := be_get b 9 1 in
  (proto = TCPProtocolNumber ∧ (20 <= length seg)%nat ∨
   proto = UDPProtocolNumber ∧ (8 <= length seg)%nat) →
  rfc1071 seg
    (rfc1071 (pseudo_header proto (be_get b 12 4) (be_get b 16 4) (wrap16 (Z.of_nat (length seg)))) 0)
  = 65535.

(** The position of the transport checksum, for the protocols that have one. *)
Definition sum_field (b : list Z) (i : nat) : Prop :=
  let proto := be_get b 9 1 in
  (proto = TCPProtocolNumber ∧ (ihl_bytes b + 16 <= i < ihl_bytes b + 18)%nat) ∨
  (proto = UDPProtocolNumber ∧ (ihl_bytes b + 6 <= i < ihl_bytes b + 8)%nat).

(** ** Lemmas *)

Lemma take_be_put h b off n v :
  (off + n <= h)%nat → take h (be_put b off n v) = be_put (take h b) off n v.
Proof.
  unfold be_put. rewrite <- (length_be_bytes n v) at 1. revert off.
  induction (be_bytes n v) as [|x k IH]; intros off Hl; simpl in *; [done|].
  rewrite take_insert_lt by lia. by rewrite IH by lia.
Qed.

Lemma drop_be_put h b off n v : drop h (be_put b (h + off) n v) = be_put (drop h b) off n v.
Proof.
  unfold be_put. revert off. induction (be_bytes n v) as [|x k IH]; intros off; simpl; [done|].
  rewrite drop_insert_ge by lia. rewrite <- Nat.add_succ_r, IH. f_equal. lia.
Qed.

Lemma take_be_put_lt h b off n v : (h <= off)%nat → take h (be_put b off n v) = take h b.
Proof.
  intros Hl. apply list_eq. intros i. destruct (decide (i < h)%nat).
  - rewrite !lookup_take_lt by done. apply be_put_lookup_ne. lia.
  - by rewrite !lookup_take_ge by lia.
Qed.

(** A write through the view [pkt[h:]] is a write at [h + off]. *)
Lemma view_put h b off n v :
  (h <= length b)%nat → take h b ++ be_put (drop h b) off n v = be_put b (h + off) n v.
Proof.
  intros Hl. rewrite <- (take_drop h (be_put b (h + off) n v)).
  by rewrite drop_be_put, take_be_put_lt by lia.
Qed.

Lemma ihl_ext b b' : b !! 0%nat = b' !! 0%nat → ihl_bytes b = ihl_bytes b'.
Proof.
  intros H0. unfold ihl_bytes. rewrite (be_get_ext b b' 0 1); [done|].
  intros i Hi. by replace i with 0%nat by lia.
Qed.

Lemma be_get_take h b off n : (off + n <= h)%nat → be_get (take h b) off n = be_get b off n.
Proof. intros. apply be_get_ext. intros i Hi. apply lookup_take_lt. lia. Qed.

Lemma bytes_ok_take h b : bytes_ok b → bytes_ok (take h b).
Proof. apply Forall_take. Qed.

Lemma bytes_ok_drop h b : bytes_ok b → bytes_ok (drop h b).
Proof. apply Forall_drop. Qed.

Lemma rfc1071_range b i : bytes_ok b → 0 <= i <= 65535 → 0 <= rfc1071 b i <= 65535.
Proof. intros Hb Hi. apply fold_range; [done|]. by apply words_range. Qed.

Lemma pseudo_header_ok proto src dst len : bytes_ok (pseudo_header proto src dst len).
Proof.
  unfold pseudo_header, bytes_ok. rewrite !Forall_app. split_and!; try apply be_bytes_ok.
  repeat constructor; try (unfold byte_range; lia); apply Z.mod_pos_bound; lia.
Qed.

(** What an edit leaves alone: same length, bytes, and every position outside
    [P]. *)
Definition edits (P : nat → Prop) (b b' : list Z) : Prop :=
  length b' = length b ∧ bytes_ok b' ∧ ∀ i, ¬ P i → b' !! i = b !! i.

Lemma edits_put (P : nat → Prop) b off n v :
  bytes_ok b → (∀ i, (off <= i < off + n)%nat → P i) → edits P b (be_put b off n v).
Proof.
  intros Hb HP. split_and!; [apply length_be_put|by apply be_put_ok|].
  intros i Hi. apply be_put_lookup_ne.
  destruct (decide (i < off)%nat); [by left|]. destruct (decide (off + n <= i)%nat); [by right|].
  exfalso. apply Hi, HP. lia.
Qed.

Lemma edits_trans (P Q R : nat → Prop) b1 b2 b3 :
  edits P b1 b2 → edits Q b2 b3 → (∀ i, P i ∨ Q i → R i) → edits R b1 b3.
Proof.
  intros (Hl1 & Hb1 & H1) (Hl2 & Hb2 & H2) HR. split_and!; [congruence|done|].
  intros i Hi. rewrite H2, H1 by naive_solver. done.
Qed.

Lemma edits_get (P : nat → Prop) b b' off n :
  edits P b b' → (∀ i, (off <= i < off + n)%nat → ¬ P i) → be_get b' off n = be_get b off n.
Proof. intros (_ & _ & He) HP. apply be_get_ext. auto. Qed.

Lemma edits_ihl (P : nat → Prop) b b' : edits P b b' → ¬ P 0%nat → ihl_bytes b' = ihl_bytes b.
Proof. intros (_ & _ & He) HP. apply ihl_ext. auto. Qed.

(** [lia] after beta-reducing the position predicates. *)
Ltac blia := cbv beta in *; intros; lia.

Section lemmas.
Context `{HeaderLaws}.

Lemma recalcIPChecksum_spec b :
  ipv4_wf b →
  edits (λ i, 10 <= i < 12)%nat b (recalcIPChecksum b) ∧ ip_sum_ok (recalcIPChecksum b).
Proof.
  intros [Hb Hh]. unfold recalcIPChecksum.
  rewrite (ip_set_sum_spec b) by blia. rewrite !ip_set_sum_spec by (rewrite length_be_put; blia).
  set (b0 := be_put b 10 2 0).
  assert (edits (λ i, 10 <= i < 12)%nat b b0) as He0 by (apply edits_put; [done|blia]).
  assert (ihl_bytes b0 = ihl_bytes b) as Hi0 by (eapply edits_ihl; [exact He0|blia]).
  assert (length b0 = length b) as Hl0 by apply He0.
  rewrite ip_calc_spec by (rewrite Hi0, Hl0; blia). rewrite Hi0.
  set (c := not16 _).
  assert (edits (λ i, 10 <= i < 12)%nat b0 (be_put b0 10 2 c)) as He1
    by (apply edits_put; [apply He0|blia]).
  split.
  - eapply edits_trans; [exact He0|exact He1|]. simpl. blia.
  - unfold ip_sum_ok. rewrite (edits_ihl _ _ _ He1), Hi0 by blia.
    rewrite take_be_put by blia. apply (checksum_fill _ 5).
    + apply bytes_ok_take, He0.
    + blia.
    + rewrite length_take, Hl0. blia.
    + rewrite be_get_take by blia. apply be_get_put; simpl; blia.
Qed.

Lemma recalcTransport_spec setsum proto (m h k : nat) b :
  (∀ s c, (m <= length s)%nat → setsum s c = be_put s (2 * k) 2 c) →
  (6 <= 2 * k)%nat → (2 * k + 2 <= m)%nat → bytes_ok b → (20 <= h <= length b)%nat →
  let b' := recalcTransport setsum proto m h b in
  edits (λ i, h + m <= length b ∧ h + 2 * k <= i < h + 2 * k + 2)%nat b b' ∧
  ((h + m <= length b)%nat →
   rfc1071 (drop h b')
     (rfc1071 (pseudo_header proto (be_get b' 12 4) (be_get b' 16 4)
        (wrap16 (Z.of_nat (length b') - Z.of_nat h))) 0) = 65535).
Proof.
  intros Hset Hk1 Hk2 Hb Hh b'. unfold b', recalcTransport.
  destruct (Nat.leb_spec (h + m) (length b)) as [Hl|Hl]; [|split; [done|blia]].
  rewrite (Hset (drop h b)) by (rewrite length_drop; blia).
  rewrite view_put by blia. set (b0 := be_put b (h + 2 * k) 2 0).
  assert (edits (λ i, h + 2 * k <= i < h + 2 * k + 2)%nat b b0) as He0 by (apply edits_put; [done|blia]).
  assert (length b0 = length b) as Hl0 by apply He0.
  rewrite Hset by (rewrite length_drop; blia). rewrite view_put by blia.
  rewrite ip_src_spec, ip_dst_spec, pseudo_spec, checksum_spec by blia.
  set (ps := rfc1071 (pseudo_header _ _ _ _) 0).
  assert (0 <= ps <= 65535) as Hps by (apply rfc1071_range; [apply pseudo_header_ok|blia]).
  set (c := not16 _).
  assert (edits (λ i, h + 2 * k <= i < h + 2 * k + 2)%nat b0 (be_put b0 (h + 2 * k) 2 c)) as He1
    by (apply edits_put; [apply He0|blia]).
  split.
  - eapply edits_trans; [exact He0|exact He1|]. simpl. blia.
  - intros _. rewrite !(edits_get _ _ _ _ _ He1), length_be_put by blia.
    change (rfc1071 (pseudo_header _ _ _ _) 0) with ps.
    rewrite drop_be_put. apply checksum_fill; [apply bytes_ok_drop, He0|done| |].
    + rewrite length_drop. blia.
    + unfold b0. rewrite drop_be_put. apply be_get_put; [rewrite length_drop; blia|simpl; blia].
Qed.

Lemma recalcTransportChecksum_spec b :
  ipv4_wf b →
  let b' := recalcTransportChecksum (ihl_bytes b) b in
  edits (sum_field b) b b' ∧ transport_sum_ok b'.
Proof.
  intros [Hb Hh] b'.
  assert (∀ proto setsum (m k : nat),
    be_get b 9 1 = proto → (6 <= 2 * k)%nat → (2 * k + 2 <= m)%nat → 
    (∀ s c, (m <= length s)%nat → setsum s c = be_put s (2 * k) 2 c) →
    (∀ i, (ihl_bytes b + 2 * k <= i < ihl_bytes b + 2 * k + 2)%nat → sum_field b i) →
    (proto = TCPProtocolNumber → m = 20%nat) → (proto = UDPProtocolNumber → m = 8%nat) →
    edits (sum_field b) b (recalcTransport setsum proto m (ihl_bytes b) b) ∧
    transport_sum_ok (recalcTransport setsum proto m (ihl_bytes b) b)) as Hcase.
  { intros proto setsum m k Hp Hk1 Hk2 Hset Hfield Ht Hu.
    destruct (recalcTransport_spec setsum proto m (ihl_bytes b) k b) as [He Hs]; [done..|].
    set (r := recalcTransport _ _ _ _ _) in *. split.
    - destruct He as (He1 & He2 & He3). split_and!; [done..|]. intros i Hi. apply He3.
      intros [_ Hr]. by apply Hi, Hfield.
    - assert (ihl_bytes r = ihl_bytes b) as Hi by (eapply edits_ihl; [exact He|blia]).
      assert (be_get r 9 1 = proto) as Hpr
        by (rewrite <- Hp; eapply edits_get; [exact He|blia]).
      unfold transport_sum_ok. rewrite Hi, Hpr, length_drop. intros Hlen.
      assert (length r = length b) as Hlr by apply He.
      rewrite Nat2Z.inj_sub by blia. apply Hs.
      destruct Hlen as [[-> Hlen]|[-> Hlen]]; [rewrite (Ht eq_refl)|rewrite (Hu eq_refl)]; blia. }
  unfold b', recalcTransportChecksum. rewrite ip_proto_spec by blia.
  destruct (Z.eqb_spec (be_get b 9 1) TCPProtocolNumber) as [Ht|Ht];
    [|destruct (Z.eqb_spec (be_get b 9 1) UDPProtocolNumber) as [Hu|Hu]].
  - apply (Hcase _ _ _ 8%nat); try done; try (unfold TCPMinimumSize; blia).
    + intros. by apply tcp_set_sum_spec.
    + intros i Hi. left. split; [done|blia].
  - apply (Hcase _ _ _ 3%nat); try done; try (unfold UDPMinimumSize; blia).
    + intros. by apply udp_set_sum_spec.
    + intros i Hi. right. split; [done|blia].
  - split; [done|]. intros [[? _]|[? _]]; congruence.
Qed.

(** The common tail of both rewrites: checksums after an address edit. *)
Lemma rewrite_tail b off a :
  ipv4_wf b → (off = 12 ∨ off = 16)%nat → a fits 32 →
  let b' := recalcTransportChecksum (ihl_bytes b) (recalcIPChecksum (be_put b off 4 a)) in
  edits (λ i, 10 <= i < 12 ∨ off <= i < off + 4 ∨ sum_field b i)%nat b b' ∧
  be_get b' off 4 = a ∧ ip_sum_ok b' ∧ transport_sum_ok b'.
Proof.
  intros [Hb Hh] Hoff Ha. cbv zeta.
  set (b1 := be_put b off 4 a) in *.
  assert (edits (λ i, off <= i < off + 4)%nat b b1) as He1 by (apply edits_put; [done|blia]).
  assert (ihl_bytes b1 = ihl_bytes b) as Hi1 by (eapply edits_ihl; [exact He1|blia]).
  assert (ipv4_wf b1) as Hwf1 by (split; [apply He1|]; destruct He1 as [-> _]; blia).
  destruct (recalcIPChecksum_spec b1 Hwf1) as [He2 Hsum2].
  set (b2 := recalcIPChecksum b1) in *.
  assert (ihl_bytes b2 = ihl_bytes b) as Hi2
    by (rewrite <- Hi1; eapply edits_ihl; [exact He2|blia]).
  assert (ipv4_wf b2) as Hwf2.
  { split; [apply He2|]. destruct He2 as [-> _], He1 as [-> _]. blia. }
  destruct (recalcTransportChecksum_spec b2 Hwf2) as [He3 Hsum3]. rewrite Hi2 in He3, Hsum3.
  set (b3 := recalcTransportChecksum _ b2) in *.
  assert (∀ i, sum_field b2 i ↔ sum_field b i) as Hsf.
  { intros i. unfold sum_field. rewrite Hi2.
    rewrite (edits_get _ _ _ _ _ He2), (edits_get _ _ _ _ _ He1) by blia. done. }
  assert (∀ i, sum_field b i → (26 <= i)%nat) as Hfar by (intros i [[_ ?]|[_ ?]]; blia).
  assert (∀ i, sum_field b i → (ihl_bytes b <= i)%nat) as Hfar2 by (intros i [[_ ?]|[_ ?]]; blia).
  split_and!; [..|exact Hsum3].
  - eapply edits_trans; [exact He1|eapply edits_trans; [exact He2|exact He3|intros i Hx; exact Hx]|].
    simpl. intros i. rewrite Hsf. tauto.
  - rewrite (edits_get _ _ _ _ _ He3), (edits_get _ _ _ _ _ He2) by (try blia; intros i Hi ?%Hsf%Hfar; blia).
    apply be_get_put; blia.
  - unfold ip_sum_ok in *. rewrite (edits_ihl _ _ _ He3) by (intros ?%Hsf%Hfar; blia).
    rewrite Hi2 in *. rewrite <- Hsum2. f_equal. apply list_eq. intros i.
    destruct (decide (i < ihl_bytes b)%nat).
    + rewrite !lookup_take_lt by done. apply He3. intros ?%Hsf%Hfar2. blia.
    + by rewrite !lookup_take_ge by blia.
Qed.

Lemma rewriteDestination_spec b d :
  ipv4_wf b → d fits 32 →
  ∃ b', rewritePacketDestination b (Addr4 d) = Ret (Some b') ∧
    be_get b' 16 4 = d ∧ ip_sum_ok b' ∧ transport_sum_ok b' ∧
    edits (λ i, 10 <= i < 12 ∨ 16 <= i < 20 ∨ sum_field b i)%nat b b'.
Proof.
  intros Hwf Hd. pose proof Hwf as [Hb Hh]. unfold rewritePacketDestination.
  destruct (Nat.ltb_spec (length b) IPv4MinimumSize) as [Hs|_]; [unfold IPv4MinimumSize in Hs; lia|].
  cbn [As4 or_panic mbind go_bind]. rewrite ip_hlen_spec, ip_set_dst_spec by lia.
  eexists. split; [reflexivity|].
  destruct (rewrite_tail b 16 d Hwf ltac:(lia) Hd) as (He & Hg & Hs1 & Hs2). done.
Qed.

Lemma rewriteSource_spec b s :
  ipv4_wf b → s fits 32 →
  ∃ b', rewritePacketSource b (Addr4 s) = Ret (Some b') ∧
    be_get b' 12 4 = s ∧ ip_sum_ok b' ∧ transport_sum_ok b' ∧
    edits (λ i, 10 <= i < 12 ∨ 12 <= i < 16 ∨ sum_field b i)%nat b b'.
Proof.
  intros Hwf Hd. pose proof Hwf as [Hb Hh]. unfold rewritePacketSource.
  destruct (Nat.ltb_spec (length b) IPv4MinimumSize) as [Hs|_]; [unfold IPv4MinimumSize in Hs; lia|].
  cbn [As4 or_panic mbind go_bind]. rewrite ip_hlen_spec, ip_set_src_spec by lia.
  eexists. split; [reflexivity|].
  destruct (rewrite_tail b 12 s Hwf ltac:(lia) Hd) as (He & Hg & Hs1 & Hs2). done.
Qed.

(** ** Properties *)

(** C5: rewriting the destination of a well-formed IPv4 packet succeeds; the
    new packet has the new destination, valid header and TCP/UDP checksums, and
    is byte for byte the old one outside the destination address, the header
    checksum and the transport checksum. *)
Theorem rewritePacketDestination_correct b d :
  ipv4_wf b → d fits 32 →
  ∃ b', rewritePacketDestination b (Addr4 d) = Ret (Some b') ∧
    be_get b' 16 4 = d ∧ ip_sum_ok b' ∧ transport_sum_ok b' ∧
    edits (λ i, 10 <= i < 12 ∨ 16 <= i < 20 ∨ sum_field b i)%nat b b'.
Proof. apply rewriteDestination_spec. Qed.

(** The same for the source address, on the reply path. *)
Theorem rewritePacketSource_correct b s :
  ipv4_wf b → s fits 32 →
  ∃ b', rewritePacketSource b (Addr4 s) = Ret (Some b') ∧
    be_get b' 12 4 = s ∧ ip_sum_ok b' ∧ transport_sum_ok b' ∧
    edits (λ i, 10 <= i < 12 ∨ 12 <= i < 16 ∨ sum_field b i)%nat b b'.
Proof. apply rewriteSource_spec. Qed.

End lemmas.

(** ** Witnesses *)

Module PacketExamples.

(** A UDP datagram from 10.0.0.5:4000 to 10.20.0.1:53 with payload "ping". *)
Definition udp_packet : list Z :=
  [69; 0; 0; 32; 0; 1; 0; 0; 64; 17; 0; 0; 10; 0; 0; 5; 10; 20; 0; 1;
   15; 160; 0; 53; 0; 12; 0; 0; 112; 105; 110; 103].

Lemma udp_packet_wf : ipv4_wf udp_packet.
Proof. split; [repeat constructor; unfold byte_range; lia|vm_compute; lia]. Qed.

Lemma rewritePacketDestination_witness :
  ipv4_wf udp_packet ∧
  ∃ b', rewritePacketDestination udp_packet (Addr4 3232235777) = Ret (Some b') ∧
    be_get b' 16 4 = 3232235777 ∧ ip_sum_ok b' ∧ transport_sum_ok b' ∧
    edits (λ i, 10 <= i < 12 ∨ 16 <= i < 20 ∨ sum_field udp_packet i)%nat udp_packet b'.
Proof.
  split; [exact udp_packet_wf|].
  apply (rewritePacketDestination_correct udp_packet 3232235777 udp_packet_wf). lia.
Defined.

Lemma rewritePacketSource_witness :
  ipv4_wf udp_packet ∧
  ∃ b', rewritePacketSource udp_packet (Addr4 168034305) = Ret (Some b') ∧
    be_get b' 12 4 = 168034305 ∧ ip_sum_ok b' ∧ transport_sum_ok b' ∧
    edits (λ i, 10 <= i < 12 ∨ 12 <= i < 16 ∨ sum_field udp_packet i)%nat udp_packet b'.
Proof.
  split; [exact udp_packet_wf|].
  apply (rewritePacketSource_correct udp_packet 168034305 udp_packet_wf). lia.
Defined.

End PacketExamples.
