(* ===== verification/ProxyHandler.v ===== *)
(** * The proxy handler and its NAT tables (netstack2/proxy.go, handlers.go)

    [ProxyHandler] classifies the packets that arrive from the tunnel with the
    subnet rules, rewrites the destination of the flows whose rule asks for
    it, remembers the translation, and undoes it on the packets the proxy
    stack sends back.  The TCP and UDP forwarders that serve the injected
    flows are modelled up to the byte copying: their decisions, the access
    sessions they open and close and the NAT state they release.

    Each method body runs under [natMu]; the model makes a whole method one
    atomic step.  A nil handler behaves as one with [ph_enabled = false].
    gvisor's channel endpoint is the pair of the injected packet (a result)
    and the queue [ph_outq] of packets waiting to be read. *)

From S2P Require Import Prelude Netip NetipText Bart Checksum SubnetLookup Packet.

(** ** Data *)

Record connKey : Type := mkConnKey {
  ck_srcIP : string; ck_srcPort : Z; ck_dstIP : string; ck_dstPort : Z; ck_proto : Z;
}.
Record reverseConnKey : Type := mkReverseConnKey {
  rk_rewrittenTo : string; rk_originalSrcIP : string; rk_originalSrcPort : Z;
  rk_originalDstPort : Z; rk_proto : Z;
}.
Record destKey : Type := mkDestKey {
  dk_srcIP : string; dk_dstIP : string; dk_dstPort : Z; dk_proto : Z;
}.
Record natState : Type := mkNatState { originalDst : Addr; rewrittenTo : Addr }.

#[global] Instance connKey_eq_dec : EqDecision connKey.
Proof. solve_decision. Defined.
#[global] Instance reverseConnKey_eq_dec : EqDecision reverseConnKey.
Proof. solve_decision. Defined.
#[global] Instance destKey_eq_dec : EqDecision destKey.
Proof. solve_decision. Defined.
#[global] Instance natState_eq_dec : EqDecision natState.
Proof. solve_decision. Defined.

#[global] Program Instance connKey_countable : Countable connKey :=
  inj_countable' (λ k, (ck_srcIP k, ck_srcPort k, ck_dstIP k, ck_dstPort k, ck_proto k))
    (λ '(a, b, c, d, e), mkConnKey a b c d e) _.
Next Obligation. by intros []. Qed.
#[global] Program Instance reverseConnKey_countable : Countable reverseConnKey :=
  inj_countable' (λ k, (rk_rewrittenTo k, rk_originalSrcIP k, rk_originalSrcPort k, rk_originalDstPort k, rk_proto k))
    (λ '(a, b, c, d, e), mkReverseConnKey a b c d e) _.
Next Obligation. by intros []. Qed.
#[global] Program Instance destKey_countable : Countable destKey :=
  inj_countable' (λ k, (dk_srcIP k, dk_dstIP k, dk_dstPort k, dk_proto k))
    (λ '(a, b, c, d), mkDestKey a b c d) _.
Next Obligation. by intros []. Qed.

(** Capacity of the channel of ICMP replies. *)
Definition icmpRepliesCap : nat := 256.

Section ProxyHandler.
Context {Table : Type → Type} `{!BartTable Table, !Headers}.

Record ProxyHandler : Type := mkProxyHandler {
  ph_enabled : bool;
  ph_lookup : SubnetLookup Table;
  natTable : gmap connKey natState;
  reverseNatTable : gmap reverseConnKey natState;
  destRewriteTable : gmap destKey Addr;
  resourceTable : gmap destKey Z;
  ph_blocked : bool;
  icmpReplies : list (list Z);
  icmpClosed : bool;
  ph_outq : list (list Z);
  ph_http : bool;                    (* httpHandler != nil *)
}.

Definition set_lookup (f : SubnetLookup Table → SubnetLookup Table) (p : ProxyHandler) : ProxyHandler :=
  mkProxyHandler (ph_enabled p) (f (ph_lookup p)) (natTable p) (reverseNatTable p)
    (destRewriteTable p) (resourceTable p) (ph_blocked p) (icmpReplies p) (icmpClosed p) (ph_outq p) (ph_http p).

Definition set_nat (nt : gmap connKey natState) (rt : gmap reverseConnKey natState) (p : ProxyHandler) : ProxyHandler :=
  mkProxyHandler (ph_enabled p) (ph_lookup p) nt rt
    (destRewriteTable p) (resourceTable p) (ph_blocked p) (icmpReplies p) (icmpClosed p) (ph_outq p) (ph_http p).

Definition set_destRewrite (t : gmap destKey Addr) (p : ProxyHandler) : ProxyHandler :=
  mkProxyHandler (ph_enabled p) (ph_lookup p) (natTable p) (reverseNatTable p)
    t (resourceTable p) (ph_blocked p) (icmpReplies p) (icmpClosed p) (ph_outq p) (ph_http p).

Definition set_resource (t : gmap destKey Z) (p : ProxyHandler) : ProxyHandler :=
  mkProxyHandler (ph_enabled p) (ph_lookup p) (natTable p) (reverseNatTable p)
    (destRewriteTable p) t (ph_blocked p) (icmpReplies p) (icmpClosed p) (ph_outq p) (ph_http p).

Definition set_blocked (v : bool) (p : ProxyHandler) : ProxyHandler :=
  mkProxyHandler (ph_enabled p) (ph_lookup p) (natTable p) (reverseNatTable p)
    (destRewriteTable p) (resourceTable p) v (icmpReplies p) (icmpClosed p) (ph_outq p) (ph_http p).

Definition set_queues (ic : list (list Z)) (cl : bool) (oq : list (list Z)) (p : ProxyHandler) : ProxyHandler :=
  mkProxyHandler (ph_enabled p) (ph_lookup p) (natTable p) (reverseNatTable p)
    (destRewriteTable p) (resourceTable p) (ph_blocked p) ic cl oq (ph_http p).

(** [NewProxyHandler], with at least one protocol enabled; the HTTP handler
    comes with TCP. *)
Definition NewProxyHandler (enableTCP enableUDP enableICMP : bool) : option ProxyHandler :=
  if negb enableTCP && negb enableUDP && negb enableICMP then None
  else Some (mkProxyHandler true NewSubnetLookup ∅ ∅ ∅ ∅ false [] false [] enableTCP).

Definition AddSubnetRule (p : ProxyHandler) (rule : SubnetRule) : ProxyHandler :=
  if negb (ph_enabled p) then p else set_lookup (λ sl, AddSubnet sl rule) p.

Definition RemoveSubnetRule (p : ProxyHandler) (sourcePrefix destPrefix : Prefix) : ProxyHandler :=
  if negb (ph_enabled p) then p else set_lookup (λ sl, RemoveSubnet sl sourcePrefix destPrefix) p.

Definition ReplaceAllSubnetRules (p : ProxyHandler) (rules : list SubnetRule) : ProxyHandler :=
  if negb (ph_enabled p) then p else set_lookup (λ sl, ReplaceAll sl rules) p.

Definition ph_GetAllRules (p : ProxyHandler) : list SubnetRule :=
  if negb (ph_enabled p) then [] else GetAllRules (ph_lookup p).

Definition SetBlocked (p : ProxyHandler) (v : bool) : ProxyHandler := set_blocked v p.
Definition IsBlocked (p : ProxyHandler) : bool := ph_blocked p.

(** A missing key reads as the zero value. *)
Definition LookupResourceId (p : ProxyHandler) (srcIP dstIP : string) (dstPort proto : Z) : Z :=
  if negb (ph_enabled p) then 0
  else default 0 (resourceTable p !! mkDestKey srcIP dstIP dstPort proto).

Definition LookupDestinationRewrite (p : ProxyHandler) (srcIP dstIP : string) (dstPort proto : Z)
    : option Addr :=
  if negb (ph_enabled p) then None
  else destRewriteTable p !! mkDestKey srcIP dstIP dstPort proto.

Definition releaseConnectionState (p : ProxyHandler) (srcIP : string) (srcPort : Z)
    (dstIP : string) (dstPort proto : Z) : ProxyHandler :=
  if negb (ph_enabled p) then p else
  let key := mkConnKey srcIP srcPort dstIP dstPort proto in
  match natTable p !! key with
  | None => p
  | Some entry =>
      let reverseKey := mkReverseConnKey (AddrString (rewrittenTo entry)) srcIP srcPort dstPort proto in
      set_nat (delete key (natTable p)) (delete reverseKey (reverseNatTable p)) p
  end.

(** [lookupIP] is the resolver's answer for the "ip4" lookup: the addresses
    found, or [None] on an error. *)
Definition resolveRewriteAddress (lookupIP : string → option (list Addr)) (rewriteTo : string)
    : option Addr :=
  match ParsePrefix rewriteTo with
  | Some prefix => Some (pfx_addr prefix)
  | None =>
      match ParseAddr rewriteTo with
      | Some addr => Some addr
      | None =>
          match lookupIP rewriteTo with
          | None => None
          | Some [] => None
          | Some (ip :: _) => ip4 ← As4 ip; Some (Addr4 ip4)
          end
      end
  end.

(** Destination port of the packet; [None] is the early [return false] on a
    truncated transport header. *)
Definition packetDstPort (packet : list Z) (protocol : Z) (headerLen : nat) : option Z :=
  if protocol =? TCPProtocolNumber then
    if Nat.ltb (length packet) (headerLen + TCPMinimumSize) then None
    else Some (tcp_DestinationPort (drop headerLen packet))
  else if protocol =? UDPProtocolNumber then
    if Nat.ltb (length packet) (headerLen + UDPMinimumSize) then None
    else Some (udp_DestinationPort (drop headerLen packet))
  else Some 0.

Definition packetSrcPort (packet : list Z) (protocol : Z) (headerLen : nat) : Z :=
  if protocol =? TCPProtocolNumber then tcp_SourcePort (drop headerLen packet)
  else if protocol =? UDPProtocolNumber then udp_SourcePort (drop headerLen packet)
  else 0.

(** The tables after a new translation: both directions, the handler lookup,
    and the resource under the rewritten destination. *)
Definition storeNat (p : ProxyHandler) (rule : SubnetRule) (src dst : Addr)
    (srcPort dstPort protocol : Z) (newDst : Addr) : ProxyHandler :=
  let srcS := AddrString src in
  let dstS := AddrString dst in
  let key := mkConnKey srcS srcPort dstS dstPort (protocol mod 256) in
  let dKey := mkDestKey srcS dstS dstPort (protocol mod 256) in
  let natEntry := mkNatState dst newDst in
  let reverseKey := mkReverseConnKey (AddrString newDst) srcS srcPort dstPort (protocol mod 256) in
  let p := set_nat (<[key := natEntry]> (natTable p)) (<[reverseKey := natEntry]> (reverseNatTable p)) p in
  let p := set_destRewrite (<[dKey := newDst]> (destRewriteTable p)) p in
  if negb (ResourceId rule =? 0) then
    set_resource (<[mkDestKey srcS (AddrString newDst) dstPort (protocol mod 256) := ResourceId rule]>
                    (resourceTable p)) p
  else p.

(** [HandleIncomingPacket]: the new state, the packet injected into the proxy
    stack if any, and the result. *)
Definition HandleIncomingPacket (lookupIP : string → option (list Addr)) (p : ProxyHandler)
    (packet : list Z) : go (ProxyHandler * option (list Z) * bool) :=
  if negb (ph_enabled p) then Ret (p, None, false) else
  if Nat.ltb (length packet) IPv4MinimumSize then Ret (p, None, false) else
  if negb (Z.shiftr (be_get packet 0 1) 4 =? 4) then Ret (p, None, false) else
  let srcAddr := Addr4 (ip_SourceAddress packet) in
  let dstAddr := Addr4 (ip_DestinationAddress packet) in
  let protocol := ip_TransportProtocol packet in
  let headerLen := ip_HeaderLength packet in
  match packetDstPort packet protocol headerLen with
  | None => Ret (p, None, false)
  | Some dstPort =>
      match Match (ph_lookup p) srcAddr dstAddr dstPort protocol with
      | None => Ret (p, None, false)
      | Some matchedRule =>
          let dKey := mkDestKey (AddrString srcAddr) (AddrString dstAddr) dstPort (protocol mod 256) in
          let p :=
            if negb (ResourceId matchedRule =? 0) then
              set_resource (<[dKey := ResourceId matchedRule]> (resourceTable p)) p
            else p in
          if bool_decide (RewriteTo matchedRule = "") then Ret (p, Some packet, true) else
          let srcPort := packetSrcPort packet protocol headerLen in
          let key := mkConnKey (AddrString srcAddr) srcPort (AddrString dstAddr) dstPort (protocol mod 256) in
          let resolved :=
            match natTable p !! key with
            | Some existingEntry => Some (p, rewrittenTo existingEntry)
            | None =>
                newDst ← resolveRewriteAddress lookupIP (RewriteTo matchedRule);
                Some (storeNat p matchedRule srcAddr dstAddr srcPort dstPort protocol newDst, newDst)
            end in
          match resolved with
          | None => Ret (p, Some packet, true)   (* resolution failed: proxied unchanged *)
          | Some (p, newDst) =>
              if negb (IsLoopback newDst) then
                r ← rewritePacketDestination packet newDst;
                match r with
                | None => Ret (p, None, false)
                | Some packet' => Ret (p, Some packet', true)
                end
              else Ret (p, Some packet, true)
          end
      end
  end.

(** The reverse translation of one packet read from the proxy stack. *)
Definition reverseTranslate (p : ProxyHandler) (packet : list Z) : go (list Z) :=
  if Nat.leb IPv4MinimumSize (length packet) && (Z.shiftr (be_get packet 0 1) 4 =? 4) then
    let srcIP := ip_SourceAddress packet in
    let dstIP := ip_DestinationAddress packet in
    let protocol := ip_TransportProtocol packet in
    let headerLen := ip_HeaderLength packet in
    if protocol =? ICMPv4ProtocolNumber then Ret packet else
    let '(srcPort, dstPort) :=
      if protocol =? TCPProtocolNumber then
        if Nat.leb (headerLen + TCPMinimumSize) (length packet)
        then (tcp_SourcePort (drop headerLen packet), tcp_DestinationPort (drop headerLen packet))
        else (0, 0)
      else if protocol =? UDPProtocolNumber then
        if Nat.leb (headerLen + UDPMinimumSize) (length packet)
        then (udp_SourcePort (drop headerLen packet), udp_DestinationPort (drop headerLen packet))
        else (0, 0)
      else (0, 0) in
    let reverseKey := mkReverseConnKey (tcpip_String srcIP) (tcpip_String dstIP) dstPort srcPort
                        (protocol mod 256) in
    match reverseNatTable p !! reverseKey with
    | None => Ret packet
    | Some natEntry =>
        r ← rewritePacketSource packet (originalDst natEntry);
        Ret (default packet r)
    end
  else Ret packet.

(** [ReadOutgoingPacket]: the packet handed to the tunnel, if any.  ICMP
    replies first; a receive from the closed channel yields an empty view. *)
Definition ReadOutgoingPacket (p : ProxyHandler) : go (ProxyHandler * option (list Z)) :=
  if negb (ph_enabled p) then Ret (p, None) else
  match icmpReplies p with
  | icmpReply :: rest => Ret (set_queues rest (icmpClosed p) (ph_outq p) p, Some icmpReply)
  | [] =>
      if icmpClosed p then Ret (p, Some []) else
      match ph_outq p with
      | [] => Ret (p, None)
      | packet :: rest =>
          out ← reverseTranslate p packet;
          Ret (set_queues [] (icmpClosed p) rest p, Some out)
      end
  end.

(** A send on the closed channel panics. *)
Definition QueueICMPReply (p : ProxyHandler) (packet : list Z) : go (ProxyHandler * bool) :=
  if negb (ph_enabled p) then Ret (p, false)
  else if icmpClosed p then Panic
  else if Nat.ltb (length (icmpReplies p)) icmpRepliesCap
  then Ret (set_queues (icmpReplies p ++ [packet]) false (ph_outq p) p, true)
  else Ret (p, false).

(** ** The TCP and UDP forwarders *)

(** The four-tuple gvisor reports for an accepted flow: [Remote*] is the
    client, [Local*] the destination as it stands after any rewriting. *)
Record EndpointID : Type := mkEndpointID {
  id_RemoteAddress : Z; id_RemotePort : Z; id_LocalAddress : Z; id_LocalPort : Z;
}.

(** What a forwarder does, in order; a string names the address dialled. *)
Inductive connEvent : Type :=
  | EvHTTP (rule : SubnetRule)                     (* handed to the HTTP handler *)
  | EvSessionStart (resourceID : Z) (srcAddr dstAddr : string)
  | EvDial (targetAddr : string)
  | EvPipe (targetAddr : string)
  | EvSessionEnd
  | EvRelease
  | EvClose.

(** [fmt.Sprintf("%s:%d", ip, port)]. *)
Definition hostPort (ip : string) (port : Z) : string :=
  (ip ++ ":" ++ itoa port)%string.

(** [handleTCPConn], with the answer of the dial.  Deferred calls run in
    reverse order: session end, release of the NAT state, close. *)
Definition handleTCPConn (p : ProxyHandler) (id : EndpointID) (dialOk : bool)
    : ProxyHandler * list connEvent :=
  let srcIP := tcpip_String (id_RemoteAddress id) in
  let srcPort := id_RemotePort id in
  let dstIP := tcpip_String (id_LocalAddress id) in
  let dstPort := id_LocalPort id in
  if IsBlocked p then (p, [EvClose]) else
  let httpRule :=
    if ((dstPort =? 80) || (dstPort =? 443)) && ph_http p then
      let srcAddr := default AddrInvalid (ParseAddr srcIP) in
      let dstAddr := default AddrInvalid (ParseAddr dstIP) in
      match Match (ph_lookup p) srcAddr dstAddr dstPort TCPProtocolNumber with
      | Some rule => if negb (bool_decide (Protocol rule = "")) && Nat.ltb 0 (length (HTTPTargets rule))
                     then Some rule else None
      | None => None
      end
    else None in
  match httpRule with
  | Some rule => (p, [EvHTTP rule])
  | None =>
      let actualDstIP :=
        match LookupDestinationRewrite p srcIP dstIP dstPort TCPProtocolNumber with
        | Some rewrittenAddr => AddrString rewrittenAddr
        | None => dstIP
        end in
      let targetAddr := hostPort actualDstIP dstPort in
      let resourceId := LookupResourceId p srcIP dstIP dstPort TCPProtocolNumber in
      let session := negb (resourceId =? 0) in
      (releaseConnectionState p srcIP srcPort dstIP dstPort TCPProtocolNumber,
       (if session then [EvSessionStart resourceId (hostPort srcIP srcPort) targetAddr] else []) ++
       [EvDial targetAddr] ++
       (if dialOk then [EvPipe targetAddr] else []) ++
       (if session then [EvSessionEnd] else []) ++
       [EvRelease; EvClose])
  end.

(** [handleUDPConn], with the answers of resolving the target, resolving the
    client and opening the socket. *)
Definition handleUDPConn (p : ProxyHandler) (id : EndpointID)
    (resolveOk clientOk listenOk : bool) : ProxyHandler * list connEvent :=
  let srcIP := tcpip_String (id_RemoteAddress id) in
  let srcPort := id_RemotePort id in
  let dstIP := tcpip_String (id_LocalAddress id) in
  let dstPort := id_LocalPort id in
  let released := releaseConnectionState p srcIP srcPort dstIP dstPort UDPProtocolNumber in
  if IsBlocked p then (released, [EvRelease; EvClose]) else
  let actualDstIP :=
    match LookupDestinationRewrite p srcIP dstIP dstPort UDPProtocolNumber with
    | Some rewrittenAddr => AddrString rewrittenAddr
    | None => dstIP
    end in
  let targetAddr := hostPort actualDstIP dstPort in
  let resourceId := LookupResourceId p srcIP dstIP dstPort UDPProtocolNumber in
  let session := negb (resourceId =? 0) in
  (released,
   (if session then [EvSessionStart resourceId (hostPort srcIP srcPort) targetAddr] else []) ++
   (if resolveOk && clientOk && listenOk then [EvDial targetAddr; EvPipe targetAddr] else []) ++
   (if session then [EvSessionEnd] else []) ++
   [EvRelease; EvClose]).

End ProxyHandler.

Arguments ProxyHandler Table : clear implicits.

(** ** Flows *)

(** An IPv4 TCP or UDP packet with a complete transport header. *)
Definition flow_wf (b : list Z) : Prop :=
  ipv4_wf b ∧ Z.shiftr (be_get b 0 1) 4 = 4 ∧
  (be_get b 9 1 = TCPProtocolNumber ∧ (ihl_bytes b + 20 <= length b)%nat ∨
   be_get b 9 1 = UDPProtocolNumber ∧ (ihl_bytes b + 8 <= length b)%nat).

Definition fl_src (b : list Z) : Z := be_get b 12 4.
Definition fl_dst (b : list Z) : Z := be_get b 16 4.
Definition fl_proto (b : list Z) : Z := be_get b 9 1.
Definition fl_sport (b : list Z) : Z := be_get (drop (ihl_bytes b) b) 0 2.
Definition fl_dport (b : list Z) : Z := be_get (drop (ihl_bytes b) b) 2 2.

Definition flow_key (b : list Z) : connKey :=
  mkConnKey (AddrString (Addr4 (fl_src b))) (fl_sport b) (AddrString (Addr4 (fl_dst b)))
    (fl_dport b) (fl_proto b).

(** [q] answers [b] from the rewritten address [n]: addresses and ports
    swapped, same protocol. *)
Definition reply_of (b : list Z) (n : Z) (q : list Z) : Prop :=
  flow_wf q ∧ fl_proto q = fl_proto b ∧ fl_src q = n ∧ fl_dst q = fl_src b ∧
  fl_sport q = fl_dport b ∧ fl_dport q = fl_sport b.

Lemma be_fold_range l acc :
  Forall byte_range l → 0 <= acc →
  acc * 256 ^ Z.of_nat (length l) <= foldl (λ acc x, acc * 256 + x) acc l
    < (acc + 1) * 256 ^ Z.of_nat (length l).
Proof.
  revert acc. induction l as [|x l IH]; intros acc Hl Hacc; [simpl; lia|].
  apply Forall_cons in Hl as [Hx Hl]. unfold byte_range in Hx. cbn [foldl length].
  rewrite Nat2Z.inj_succ, Z.pow_succ_r by lia.
  specialize (IH (acc * 256 + x) Hl ltac:(lia)). nia.
Qed.

Lemma be_get_range b off n : bytes_ok b → 0 <= be_get b off n < 256 ^ Z.of_nat n.
Proof.
  intros Hb. unfold be_get.
  pose proof (be_fold_range (take n (drop off b)) 0) as Hr.
  rewrite Z.mul_0_l, Z.add_0_l, Z.mul_1_l in Hr.
  specialize (Hr (Forall_take _ _ _ (Forall_drop _ _ _ Hb)) ltac:(lia)).
  assert (256 ^ Z.of_nat (length (take n (drop off b))) <= 256 ^ Z.of_nat n); [|lia].
  apply Z.pow_le_mono_r; [lia|]. rewrite length_take. lia.
Qed.

Section lemmas.
Context {Table : Type → Type} `{!BartTable Table} `{HeaderLaws}.
Implicit Types (p : ProxyHandler Table) (b q : list Z).

Lemma flow_proto_byte b : flow_wf b → fl_proto b mod 256 = fl_proto b.
Proof. intros (_ & _ & [[Hp _]|[Hp _]]); unfold fl_proto; by rewrite Hp. Qed.

Lemma flow_not_icmp b : flow_wf b → (fl_proto b =? ICMPv4ProtocolNumber) = false.
Proof. intros (_ & _ & [[Hp _]|[Hp _]]); unfold fl_proto; by rewrite Hp. Qed.

Lemma flow_len b : flow_wf b → (20 <= length b)%nat ∧ (20 <= ihl_bytes b <= length b)%nat.
Proof. intros ((_ & ?) & _ & _). lia. Qed.

Lemma flow_ports b :
  flow_wf b →
  packetDstPort b (fl_proto b) (ihl_bytes b) = Some (fl_dport b) ∧
  packetSrcPort b (fl_proto b) (ihl_bytes b) = fl_sport b.
Proof.
  intros (_ & _ & Hp). unfold packetDstPort, packetSrcPort, fl_proto, fl_dport, fl_sport.
  destruct Hp as [[-> Hl]|[-> Hl]]; cbn [Z.eqb Pos.eqb TCPProtocolNumber UDPProtocolNumber];
    unfold TCPMinimumSize, UDPMinimumSize.
  - destruct (Nat.ltb_spec (length b) (ihl_bytes b + 20)); [lia|].
    by rewrite tcp_dport_spec, tcp_sport_spec by (rewrite length_drop; lia).
  - destruct (Nat.ltb_spec (length b) (ihl_bytes b + 8)); [lia|].
    by rewrite udp_dport_spec, udp_sport_spec by (rewrite length_drop; lia).
Qed.

Lemma flow_addr_range b : flow_wf b → 0 <= fl_src b < 2 ^ 32 ∧ 0 <= fl_dst b < 2 ^ 32.
Proof. intros ((Hb & _) & _). split; by apply (be_get_range b _ 4). Qed.

(** The classification of a well-formed flow. *)
Lemma Handle_flow lookupIP p b :
  flow_wf b → ph_enabled p = true →
  HandleIncomingPacket lookupIP p b =
  match Match (ph_lookup p) (Addr4 (fl_src b)) (Addr4 (fl_dst b)) (fl_dport b) (fl_proto b) with
  | None => Ret (p, None, false)
  | Some rule =>
      let dKey := mkDestKey (AddrString (Addr4 (fl_src b))) (AddrString (Addr4 (fl_dst b)))
                    (fl_dport b) (fl_proto b) in
      let p := if negb (ResourceId rule =? 0)
               then set_resource (<[dKey := ResourceId rule]> (resourceTable p)) p else p in
      if bool_decide (RewriteTo rule = "") then Ret (p, Some b, true) else
      match match natTable p !! flow_key b with
            | Some e => Some (p, rewrittenTo e)
            | None => newDst ← resolveRewriteAddress lookupIP (RewriteTo rule);
                      Some (storeNat p rule (Addr4 (fl_src b)) (Addr4 (fl_dst b)) (fl_sport b)
                              (fl_dport b) (fl_proto b) newDst, newDst)
            end with
      | None => Ret (p, Some b, true)
      | Some (p, newDst) =>
          if negb (IsLoopback newDst) then
            r ← rewritePacketDestination b newDst;
            match r with None => Ret (p, None, false) | Some b' => Ret (p, Some b', true) end
          else Ret (p, Some b, true)
      end
  end.
Proof.
  intros Hf He. pose proof (flow_len b Hf) as [Hl Hh]. pose proof Hf as (_ & H4 & _).
  unfold HandleIncomingPacket. rewrite He. cbn [negb].
  destruct (Nat.ltb_spec (length b) IPv4MinimumSize) as [Hs|_]; [unfold IPv4MinimumSize in Hs; lia|].
  rewrite H4. cbn [Z.eqb Pos.eqb negb].
  rewrite ip_src_spec, ip_dst_spec, ip_proto_spec, ip_hlen_spec by done.
  fold (fl_src b) (fl_dst b) (fl_proto b). destruct (flow_ports b Hf) as [-> ->].
  rewrite (flow_proto_byte b Hf). fold (flow_key b). done.
Qed.

(** The reverse lookup of a well-formed flow. *)
Lemma reverseTranslate_flow p q :
  flow_wf q →
  reverseTranslate p q =
  match reverseNatTable p !! mkReverseConnKey (AddrString (Addr4 (fl_src q)))
          (AddrString (Addr4 (fl_dst q))) (fl_dport q) (fl_sport q) (fl_proto q) with
  | None => Ret q
  | Some e => r ← rewritePacketSource q (originalDst e); Ret (default q r)
  end.
Proof.
  intros Hf. pose proof (flow_len q Hf) as [Hl Hh]. pose proof Hf as (_ & H4 & Hp).
  pose proof (flow_addr_range q Hf) as [Hs Hd]. unfold reverseTranslate.
  destruct (Nat.leb_spec IPv4MinimumSize (length q)) as [_|Hx]; [|unfold IPv4MinimumSize in Hx; lia].
  rewrite H4. cbn [Z.eqb Pos.eqb andb].
  rewrite ip_src_spec, ip_dst_spec, ip_proto_spec, ip_hlen_spec by done.
  fold (fl_src q) (fl_dst q) (fl_proto q). rewrite (flow_not_icmp q Hf), !tcpip_string_spec by done.
  rewrite (flow_proto_byte q Hf). unfold fl_sport, fl_dport.
  destruct Hp as [[Hp Hlen]|[Hp Hlen]]; fold (fl_proto q) in Hp; rewrite Hp; cbn [Z.eqb Pos.eqb TCPProtocolNumber UDPProtocolNumber].
  - destruct (Nat.leb_spec (ihl_bytes q + TCPMinimumSize) (length q)) as [_|Hx]; [|unfold TCPMinimumSize in Hx; lia].
    by rewrite tcp_dport_spec, tcp_sport_spec by (rewrite length_drop; lia).
  - destruct (Nat.leb_spec (ihl_bytes q + UDPMinimumSize) (length q)) as [_|Hx]; [|unfold UDPMinimumSize in Hx; lia].
    by rewrite udp_dport_spec, udp_sport_spec by (rewrite length_drop; lia).
Qed.

Lemma storeNat_tables p rule src dst sport dport proto n :
  natTable (storeNat p rule src dst sport dport proto n) =
    <[mkConnKey (AddrString src) sport (AddrString dst) dport (proto mod 256) := mkNatState dst n]> (natTable p) ∧
  reverseNatTable (storeNat p rule src dst sport dport proto n) =
    <[mkReverseConnKey (AddrString n) (AddrString src) sport dport (proto mod 256) := mkNatState dst n]>
      (reverseNatTable p) ∧
  destRewriteTable (storeNat p rule src dst sport dport proto n) =
    <[mkDestKey (AddrString src) (AddrString dst) dport (proto mod 256) := n]> (destRewriteTable p) ∧
  ph_enabled (storeNat p rule src dst sport dport proto n) = ph_enabled p.
Proof. unfold storeNat. by destruct (negb (ResourceId rule =? 0)). Qed.

Lemma ReadOutgoing_head p q rest :
  ph_enabled p = true →
  ReadOutgoingPacket (set_queues [] false (q :: rest) p) =
  (out ← reverseTranslate p q; Ret (set_queues [] false rest p, Some out)).
Proof. intros He. unfold ReadOutgoingPacket. simpl. rewrite He. simpl. done. Qed.

(** The hypotheses under which a flow is translated for the first time. *)
Definition new_flow (lookupIP : string → option (list Addr)) p b rule n : Prop :=
  flow_wf b ∧ ph_enabled p = true ∧
  Match (ph_lookup p) (Addr4 (fl_src b)) (Addr4 (fl_dst b)) (fl_dport b) (fl_proto b) = Some rule ∧
  RewriteTo rule ≠ ""%string ∧ natTable p !! flow_key b = None ∧
  resolveRewriteAddress lookupIP (RewriteTo rule) = Some (Addr4 n) ∧ n fits 32 ∧
  IsLoopback (Addr4 n) = false.

Definition flow_reverse_key b (n : Z) : reverseConnKey :=
  mkReverseConnKey (AddrString (Addr4 n)) (AddrString (Addr4 (fl_src b))) (fl_sport b) (fl_dport b)
    (fl_proto b).

Lemma Handle_new_flow lookupIP p b rule n :
  new_flow lookupIP p b rule n →
  ∃ p' b', HandleIncomingPacket lookupIP p b = Ret (p', Some b', true) ∧
    natTable p' = <[flow_key b := mkNatState (Addr4 (fl_dst b)) (Addr4 n)]> (natTable p) ∧
    reverseNatTable p' = <[flow_reverse_key b n := mkNatState (Addr4 (fl_dst b)) (Addr4 n)]> (reverseNatTable p) ∧
    ph_enabled p' = true ∧ ph_lookup p' = ph_lookup p ∧
    fl_dst b' = n ∧ fl_src b' = fl_src b ∧ ip_sum_ok b' ∧ transport_sum_ok b'.
Proof.
  intros (Hf & He & HM & Hrw & Hnew & Hres & Hn & Hloop). pose proof Hf as (Hwf & _ & _).
  rewrite Handle_flow by done. rewrite HM. cbv zeta. rewrite bool_decide_eq_false_2 by done.
  set (p1 := if negb (ResourceId rule =? 0) then _ else _).
  assert (natTable p1 = natTable p ∧ reverseNatTable p1 = reverseNatTable p ∧
          ph_enabled p1 = true ∧ ph_lookup p1 = ph_lookup p) as (Hnt & Hrt & He1 & Hlk)
    by (unfold p1; by destruct (negb _)).
  rewrite Hnt, Hnew, Hres. cbn [mbind option_bind]. rewrite Hloop. cbn [negb].
  destruct (rewriteDestination_spec b n Hwf Hn) as (b' & -> & Hd & Hs1 & Hs2 & Hed).
  cbn [mbind go_bind]. set (p' := storeNat _ _ _ _ _ _ _ _).
  destruct (storeNat_tables p1 rule (Addr4 (fl_src b)) (Addr4 (fl_dst b)) (fl_sport b) (fl_dport b)
    (fl_proto b) (Addr4 n)) as (Hnat & Hrev & _ & Hen). fold p' in Hnat, Hrev, Hen.
  rewrite flow_proto_byte in Hnat, Hrev by done.
  exists p', b'. rewrite Hnat, Hrev, Hnt, Hrt, Hen, He1. split_and!; try done.
  - rewrite <- Hlk. unfold p', storeNat. by destruct (negb _).
  - eapply edits_get; [exact Hed|]. pose proof (flow_len b Hf) as [_ Hh].
    intros i Hi [?|[?|[[_ ?]|[_ ?]]]]; lia.
Qed.

(** A reply whose reverse key is in the table leaves with the recorded
    original destination as its source. *)
Lemma Read_reply p b n q rest d :
  ph_enabled p = true → reply_of b n q → d fits 32 →
  (∃ m, reverseNatTable p !! flow_reverse_key b n = Some (mkNatState (Addr4 d) m)) →
  ∃ q', ReadOutgoingPacket (set_queues [] false (q :: rest) p) =
          Ret (set_queues [] false rest p, Some q') ∧
    fl_src q' = d ∧ fl_dst q' = fl_src b ∧ ip_sum_ok q' ∧ transport_sum_ok q'.
Proof.
  intros He (Hq & Hpq & Hsq & Hdq & Hspq & Hdpq) Hd [m Hrev]. pose proof Hq as (Hwq & _ & _).
  rewrite ReadOutgoing_head by done. unfold flow_reverse_key in Hrev.
  rewrite reverseTranslate_flow by done. rewrite Hsq, Hdq, Hspq, Hdpq, Hpq, Hrev.
  cbn [originalDst]. destruct (rewriteSource_spec q d Hwq Hd) as (q' & -> & Hsq' & Hq1 & Hq2 & Heq).
  cbn [mbind go_bind default]. exists q'. split_and!; [done..| |done|done].
  rewrite <- Hdq. eapply edits_get; [exact Heq|]. pose proof (flow_len q Hq) as [_ Hhq].
  intros i Hi [?|[?|[[_ ?]|[_ ?]]]]; lia.
Qed.

(** A flow with a recorded translation keeps it, whatever its rule says now. *)
Lemma Handle_known_flow lookupIP p b rule d n :
  flow_wf b → ph_enabled p = true →
  Match (ph_lookup p) (Addr4 (fl_src b)) (Addr4 (fl_dst b)) (fl_dport b) (fl_proto b) = Some rule →
  RewriteTo rule ≠ ""%string →
  natTable p !! flow_key b = Some (mkNatState d (Addr4 n)) → n fits 32 →
  IsLoopback (Addr4 n) = false →
  ∃ p' b', HandleIncomingPacket lookupIP p b = Ret (p', Some b', true) ∧
    fl_dst b' = n ∧ natTable p' = natTable p ∧ reverseNatTable p' = reverseNatTable p ∧
    destRewriteTable p' = destRewriteTable p.
Proof.
  intros Hf He HM Hrw Hent Hn Hloop. pose proof Hf as (Hwf & _ & _).
  rewrite Handle_flow by done. rewrite HM. cbv zeta. rewrite bool_decide_eq_false_2 by done.
  set (p1 := if negb (ResourceId rule =? 0) then _ else _).
  assert (natTable p1 = natTable p ∧ reverseNatTable p1 = reverseNatTable p ∧
          destRewriteTable p1 = destRewriteTable p) as (Hnt & Hrt & Hdt)
    by (unfold p1; by destruct (negb _)).
  rewrite Hnt, Hent. cbn [rewrittenTo]. rewrite Hloop. cbn [negb].
  destruct (rewriteDestination_spec b n Hwf Hn) as (b' & -> & Hd & _).
  cbn [mbind go_bind]. exists p1, b'. done.
Qed.

Lemma release_other p sIP sp dIP dp pr k :
  k ≠ mkConnKey sIP sp dIP dp pr →
  natTable (releaseConnectionState p sIP sp dIP dp pr) !! k = natTable p !! k.
Proof.
  intros Hk. unfold releaseConnectionState. destruct (ph_enabled p); [|done]. cbn [negb].
  destruct (natTable p !! mkConnKey sIP sp dIP dp pr) eqn:Hn; [|done].
  cbn [set_nat natTable]. by rewrite lookup_delete_ne.
Qed.

Lemma release_frame p sIP sp dIP dp pr :
  let p' := releaseConnectionState p sIP sp dIP dp pr in
  ph_enabled p' = ph_enabled p ∧ ph_lookup p' = ph_lookup p ∧
  destRewriteTable p' = destRewriteTable p ∧ resourceTable p' = resourceTable p.
Proof.
  unfold releaseConnectionState. destruct (ph_enabled p) eqn:He; [|done]. cbn [negb].
  by destruct (natTable p !! _).
Qed.

(** A TCP forwarder either leaves the handler alone or releases its own tuple. *)
Lemma handleTCPConn_state p id ok :
  (handleTCPConn p id ok).1 = p ∨
  (handleTCPConn p id ok).1 =
    releaseConnectionState p (tcpip_String (id_RemoteAddress id)) (id_RemotePort id)
      (tcpip_String (id_LocalAddress id)) (id_LocalPort id) TCPProtocolNumber.
Proof. unfold handleTCPConn. destruct (IsBlocked p); [by left|]. case_match; [by left|by right]. Qed.

(** Counting the events of a forwarder. *)
Definition is_start (e : connEvent) : bool := match e with EvSessionStart _ _ _ => true | _ => false end.
Definition is_end (e : connEvent) : bool := match e with EvSessionEnd => true | _ => false end.
Definition starts (l : list connEvent) : nat := length (filter (λ e, is_start e) l).
Definition ends (l : list connEvent) : nat := length (filter (λ e, is_end e) l).
Definition dials (l : list connEvent) : list string :=
  omap (λ e, match e with EvDial t => Some t | _ => None end) l.

Lemma starts_app l k : starts (l ++ k) = (starts l + starts k)%nat.
Proof. unfold starts. by rewrite filter_app, length_app. Qed.
Lemma ends_app l k : ends (l ++ k) = (ends l + ends k)%nat.
Proof. unfold ends. by rewrite filter_app, length_app. Qed.
Lemma dials_app l k : dials (l ++ k) = dials l ++ dials k.
Proof. apply omap_app. Qed.

(** The address a flow is forwarded to. *)
Definition forward_target p (id : EndpointID) (proto : Z) : string :=
  let srcIP := tcpip_String (id_RemoteAddress id) in
  let dstIP := tcpip_String (id_LocalAddress id) in
  hostPort (match LookupDestinationRewrite p srcIP dstIP (id_LocalPort id) proto with
            | Some a => AddrString a
            | None => dstIP
            end) (id_LocalPort id).

(** The three shapes of a forwarder's event list. *)
Lemma forwarder_shape p id ok1 ok2 ok3 evs :
  evs = (handleTCPConn p id ok1).2 ∨ evs = (handleUDPConn p id ok1 ok2 ok3).2 →
  (IsBlocked p = true ∧ (evs = [EvClose] ∨ evs = [EvRelease; EvClose])) ∨
  (∃ r, evs = [EvHTTP r]) ∨
  ∃ proto (st : option (Z * string * string)) pre,
    let t := forward_target p id proto in
    evs = (match st with Some (r, s, d) => [EvSessionStart r s d] | None => [] end) ++ pre ++
          (match st with Some _ => [EvSessionEnd] | None => [] end) ++ [EvRelease; EvClose] ∧
    (pre = [] ∨ pre = [EvDial t] ∨ pre = [EvDial t; EvPipe t]) ∧ IsBlocked p = false.
Proof.
  unfold handleTCPConn, handleUDPConn. intros [Hev|Hev]; destruct (IsBlocked p) eqn:Hb.
  - left. auto.
  - case_match; [right; left; eauto|]. right; right.
    exists TCPProtocolNumber. cbv zeta. unfold forward_target.
    revert Hev. generalize (negb (LookupResourceId p (tcpip_String (id_RemoteAddress id))
      (tcpip_String (id_LocalAddress id)) (id_LocalPort id) TCPProtocolNumber =? 0)).
    set (tgt := hostPort (match LookupDestinationRewrite _ _ _ _ _ with Some _ => _ | None => _ end) _).
    intros [] Hev; simpl in Hev; subst evs.
    + eexists (Some (_, _, _)), (EvDial tgt :: if ok1 then [EvPipe tgt] else []).
      split_and!; [by destruct ok1|destruct ok1; auto|done].
    + exists None, (EvDial tgt :: if ok1 then [EvPipe tgt] else []).
      split_and!; [by destruct ok1|destruct ok1; auto|done].
  - left. auto.
  - right; right. exists UDPProtocolNumber. cbv zeta. unfold forward_target.
    revert Hev. generalize (negb (LookupResourceId p (tcpip_String (id_RemoteAddress id))
      (tcpip_String (id_LocalAddress id)) (id_LocalPort id) UDPProtocolNumber =? 0)).
    set (tgt := hostPort (match LookupDestinationRewrite _ _ _ _ _ with Some _ => _ | None => _ end) _).
    intros [] Hev; simpl in Hev; subst evs.
    + eexists (Some (_, _, _)), (if ok1 && ok2 && ok3 then [EvDial tgt; EvPipe tgt] else []).
      split_and!; [by destruct (ok1 && ok2 && ok3)|destruct (ok1 && ok2 && ok3); auto|done].
    + exists None, (if ok1 && ok2 && ok3 then [EvDial tgt; EvPipe tgt] else []).
      split_and!; [by destruct (ok1 && ok2 && ok3)|destruct (ok1 && ok2 && ok3); auto|done].
Qed.

(** ** Properties *)

(** C3: DNAT round trip.  The first packet of a flow whose rule rewrites it
    to the non-loopback address [n] is injected with destination [n]; every
    reply from [n] to that flow that the proxy stack sends back leaves with
    the original destination as its source, to the original client, with valid
    checksums. *)
Theorem nat_roundtrip lookupIP p b rule n :
  new_flow lookupIP p b rule n →
  ∃ p' b', HandleIncomingPacket lookupIP p b = Ret (p', Some b', true) ∧
    fl_dst b' = n ∧ fl_src b' = fl_src b ∧ ip_sum_ok b' ∧ transport_sum_ok b' ∧
    ∀ q rest, reply_of b n q → ∃ q',
      ReadOutgoingPacket (set_queues [] false (q :: rest) p') =
        Ret (set_queues [] false rest p', Some q') ∧
      fl_src q' = fl_dst b ∧ fl_dst q' = fl_src b ∧ ip_sum_ok q' ∧ transport_sum_ok q'.
Proof.
  intros Hnew. destruct (Handle_new_flow _ _ _ _ _ Hnew) as
    (p' & b' & Hh & _ & Hrev & He & _ & Hd & Hs & Hs1 & Hs2).
  exists p', b'. split_and!; [done..|]. intros q rest Hq. apply Read_reply with (n := n); [done..| |].
  - apply flow_addr_range, Hnew.
  - eexists. rewrite Hrev. apply lookup_insert_eq.
Qed.

(** C4: a packet is injected into the proxy stack only if a subnet rule
    matches its own addresses, destination port and protocol; the result says
    exactly whether a packet was injected, and a rule without RewriteTo injects
    the packet unchanged and translates nothing. *)
Theorem injected_only_if_matched lookupIP p b p' out res :
  HandleIncomingPacket lookupIP p b = Ret (p', out, res) →
  (res = true ↔ is_Some out) ∧
  (res = true → ph_enabled p = true ∧ (20 <= length b)%nat ∧
    ∃ dport rule,
      packetDstPort b (ip_TransportProtocol b) (ip_HeaderLength b) = Some dport ∧
      Match (ph_lookup p) (Addr4 (ip_SourceAddress b)) (Addr4 (ip_DestinationAddress b)) dport
        (ip_TransportProtocol b) = Some rule ∧
      (RewriteTo rule = ""%string → out = Some b ∧ natTable p' = natTable p)).
Proof.
  unfold HandleIncomingPacket. destruct (ph_enabled p) eqn:He; cbn [negb];
    [|intros [= <- <- <-]; split; [split; [done|by intros []]|done]].
  destruct (Nat.ltb_spec (length b) IPv4MinimumSize) as [_|Hl];
    [intros [= <- <- <-]; split; [split; [done|by intros []]|done]|].
  destruct (Z.shiftr (be_get b 0 1) 4 =? 4); cbn [negb];
    [|intros [= <- <- <-]; split; [split; [done|by intros []]|done]].
  destruct (packetDstPort _ _ _) as [dport|] eqn:Hdp;
    [|intros [= <- <- <-]; split; [split; [done|by intros []]|done]].
  destruct (Match _ _ _ _ _) as [rule|] eqn:HM;
    [|intros [= <- <- <-]; split; [split; [done|by intros []]|done]].
  intros Hrest.
  enough ((res = true ↔ is_Some out) ∧ (RewriteTo rule = ""%string → out = Some b ∧ natTable p' = natTable p))
    as [H1 H2].
  { split; [done|]. intros _. split_and!; [done|exact Hl|]. by exists dport, rule. }
  revert Hrest. cbv zeta. case_bool_decide as Hrw.
  { intros [= <- <- <-]. split; [by split; [eexists|]|]. intros _. by destruct (negb _). }
  set (p1 := if negb (ResourceId rule =? 0) then _ else _).
  destruct (match natTable p1 !! _ with Some _ => _ | None => _ end) as [[p2 newDst]|];
    [|intros [= <- <- <-]; split; [by split; [eexists|]|done]].
  destruct (negb (IsLoopback newDst)); [|intros [= <- <- <-]; split; [by split; [eexists|]|done]].
  destruct (rewritePacketDestination b newDst) as [[b'|]|]; cbn [mbind go_bind]; intros [= <- <- <-].
  - split; [by split; [eexists|]|done].
  - split; [split; [done|by intros []]|done].
Qed.

(** A translated flow sticks to its address: with an entry for the flow,
    the packet goes to the recorded address whatever the resolver and the
    current rule's RewriteTo say, and no NAT table changes. *)
Theorem nat_sticky lookupIP p b rule d n :
  flow_wf b → ph_enabled p = true →
  Match (ph_lookup p) (Addr4 (fl_src b)) (Addr4 (fl_dst b)) (fl_dport b) (fl_proto b) = Some rule →
  RewriteTo rule ≠ ""%string →
  natTable p !! flow_key b = Some (mkNatState d (Addr4 n)) → n fits 32 →
  IsLoopback (Addr4 n) = false →
  ∃ p' b', HandleIncomingPacket lookupIP p b = Ret (p', Some b', true) ∧
    fl_dst b' = n ∧ natTable p' = natTable p ∧ reverseNatTable p' = reverseNatTable p ∧
    destRewriteTable p' = destRewriteTable p.
Proof. apply Handle_known_flow. Qed.

(** The TCP forwarder does not release the NAT state of a flow that was
    rewritten to a non-loopback address: gvisor reports the rewritten
    destination, the table is keyed by the original one.  After the connection
    has ended the entry is still there, and a later packet of the same tuple
    still goes to the old address [n] under a new rule set. *)
Theorem release_misses_rewritten_flow lookupIP p b rule n p' b' ok lookupIP' sl' rule' :
  new_flow lookupIP p b rule n → fl_dst b ≠ n →
  HandleIncomingPacket lookupIP p b = Ret (p', Some b', true) →
  let id := mkEndpointID (fl_src b) (fl_sport b) (fl_dst b') (fl_dport b) in
  let p2 := (handleTCPConn p' id ok).1 in
  natTable p2 !! flow_key b = Some (mkNatState (Addr4 (fl_dst b)) (Addr4 n)) ∧
  (Match sl' (Addr4 (fl_src b)) (Addr4 (fl_dst b)) (fl_dport b) (fl_proto b) = Some rule' →
   RewriteTo rule' ≠ ""%string →
   ∃ p3 b3, HandleIncomingPacket lookupIP' (set_lookup (λ _, sl') p2) b = Ret (p3, Some b3, true) ∧
     fl_dst b3 = n).
Proof.
  intros Hnew Hne Hh id p2. destruct (Handle_new_flow _ _ _ _ _ Hnew) as
    (p'' & b'' & Hh' & Hnat & _ & He & _ & Hd & _). rewrite Hh in Hh'. injection Hh' as -> ->.
  destruct Hnew as (Hf & _ & _ & _ & _ & _ & Hn & Hloop).
  pose proof (flow_addr_range b Hf) as [_ Hdr].
  assert (flow_key b ≠ mkConnKey (tcpip_String (fl_src b)) (fl_sport b) (tcpip_String n) (fl_dport b)
            TCPProtocolNumber) as Hkey.
  { unfold flow_key. rewrite (tcpip_string_spec n) by done. intros [= _ Hs _].
    by apply AddrString_inj4 in Hs. }
  assert (natTable p2 !! flow_key b = Some (mkNatState (Addr4 (fl_dst b)) (Addr4 n)) ∧
          ph_enabled p2 = true) as [Hent Hen2].
  { unfold p2, id. rewrite Hd. destruct (handleTCPConn_state p'' (mkEndpointID (fl_src b) (fl_sport b) n (fl_dport b)) ok) as [->| ->].
    - by rewrite Hnat, lookup_insert_eq.
    - cbn [id_RemoteAddress id_RemotePort id_LocalAddress id_LocalPort].
      rewrite release_other by done. rewrite Hnat, lookup_insert_eq.
      destruct (release_frame p'' (tcpip_String (fl_src b)) (fl_sport b) (tcpip_String n) (fl_dport b)
        TCPProtocolNumber) as [-> _]. done. }
  split; [done|]. intros HM' Hrw'.
  destruct (Handle_known_flow lookupIP' (set_lookup (λ _, sl') p2) b rule' (Addr4 (fl_dst b)) n)
    as (p3 & b3 & Hr & Hd3 & _); [done..|]. eauto.
Qed.

(** Two flows from one client port to different original destinations,
    both rewritten to [n], share one reverse entry: after the second is
    translated, replies to the first leave with the second's destination as
    their source. *)
Theorem reverse_nat_collision lookupIP p b1 b2 r1 r2 n p1 o1 p2 o2 q rest :
  new_flow lookupIP p b1 r1 n →
  HandleIncomingPacket lookupIP p b1 = Ret (p1, Some o1, true) →
  new_flow lookupIP p1 b2 r2 n →
  HandleIncomingPacket lookupIP p1 b2 = Ret (p2, Some o2, true) →
  fl_src b2 = fl_src b1 → fl_sport b2 = fl_sport b1 → fl_dport b2 = fl_dport b1 →
  fl_proto b2 = fl_proto b1 → reply_of b1 n q →
  ∃ q', ReadOutgoingPacket (set_queues [] false (q :: rest) p2) =
          Ret (set_queues [] false rest p2, Some q') ∧ fl_src q' = fl_dst b2.
Proof.
  intros _ _ Hnew2 Hh2 Hs Hsp Hdp Hpr Hq.
  destruct (Handle_new_flow _ _ _ _ _ Hnew2) as (p2' & b2' & Hh & _ & Hrev & He & _).
  rewrite Hh2 in Hh. injection Hh as <- <-.
  destruct (Read_reply p2 b1 n q rest (fl_dst b2)) as (q' & Hr & Hsrc & _); [done..| | |eauto].
  - apply flow_addr_range, Hnew2.
  - eexists. rewrite Hrev. unfold flow_reverse_key. rewrite Hs, Hsp, Hdp, Hpr. apply lookup_insert_eq.
Qed.

(** For a flow kept on its original destination (a loopback target),
    storing its translation and then releasing its tuple restores both NAT
    tables. *)
Theorem store_release_restores p rule src dst sport dport proto n :
  ph_enabled p = true → proto mod 256 = proto →
  natTable p !! mkConnKey (AddrString src) sport (AddrString dst) dport proto = None →
  reverseNatTable p !! mkReverseConnKey (AddrString n) (AddrString src) sport dport proto = None →
  let p' := releaseConnectionState (storeNat p rule src dst sport dport proto n)
              (AddrString src) sport (AddrString dst) dport proto in
  natTable p' = natTable p ∧ reverseNatTable p' = reverseNatTable p.
Proof.
  intros He Hpr Hn Hr p'. unfold p', releaseConnectionState.
  destruct (storeNat_tables p rule src dst sport dport proto n) as (Hnat & Hrev & _ & Hen).
  rewrite Hen, He, Hnat, Hrev, Hpr. cbn [negb]. rewrite lookup_insert_eq.
  cbn [set_nat natTable reverseNatTable rewrittenTo]. split; by rewrite delete_insert_id.
Qed.

(** On every outcome of a TCP or UDP forwarder each access session that is
    started is ended, exactly once and after it was started; a blocked handler
    dials nothing; and a dial goes to the recorded rewrite of the destination
    when there is one, to the destination itself otherwise. *)
Theorem forwarder_events p id ok1 ok2 ok3 evs :
  evs = (handleTCPConn p id ok1).2 ∨ evs = (handleUDPConn p id ok1 ok2 ok3).2 →
  (starts evs = ends evs ∧ (starts evs <= 1)%nat) ∧
  (∀ l1 l2, evs = l1 ++ l2 → (ends l1 <= starts l1)%nat) ∧
  (IsBlocked p = true → dials evs = []) ∧
  (∀ t, t ∈ dials evs → ∃ proto, t = forward_target p id proto).
Proof.
  intros Hevs. pose proof (forwarder_shape p id ok1 ok2 ok3 evs Hevs) as Hs.
  destruct Hs as [[Hb Hl]|[[r ->]|(proto & st & pre & -> & Hst)]].
  - assert (starts evs = 0%nat ∧ ends evs = 0%nat ∧ dials evs = []) as (H1 & H2 & H3)
      by (destruct Hl as [->| ->]; done).
    split_and!; [lia..| |done|by rewrite H3; intros t ?%elem_of_nil].
    intros l1 l2 ->. rewrite ends_app in H2. lia.
  - assert (ends [EvHTTP r] = 0%nat) as H2 by done.
    split_and!; [done|exact (Nat.le_0_l 1)| |done|by intros t ?%elem_of_nil].
    intros l1 l2 Heq. rewrite Heq, ends_app in H2. lia.
  - destruct Hst as (Hpre & Hnb).
    assert (starts pre = 0%nat ∧ ends pre = 0%nat ∧
            ∀ t, t ∈ dials pre → t = forward_target p id proto) as (Hp1 & Hp2 & Hp3).
    { destruct Hpre as [->|[->| ->]]; (split; [done|split; [done|]]); cbn; set_solver. }
    destruct st as [[[rid sa] ta]|]; rewrite !starts_app, !ends_app, Hp1, Hp2, !dials_app;
      (split_and!; [done|exact (Nat.le_refl 1) || exact (Nat.le_0_l 1)| |congruence|]).
    + intros l1 l2 Heq. destruct l1 as [|x l1]; [exact (Nat.le_0_l 0)|].
      cbn [app] in Heq. injection Heq as <- Heq.
      assert (ends (pre ++ [EvSessionEnd; EvRelease; EvClose]) = 1%nat) as He by (by rewrite ends_app, Hp2).
      cbn [app] in Heq. rewrite Heq, ends_app in He.
      change (EvSessionStart rid sa ta :: l1) with ([EvSessionStart rid sa ta] ++ l1).
      rewrite ends_app, starts_app. change (starts [_]) with 1%nat. change (ends [_]) with 0%nat. lia.
    + intros t Ht. exists proto. apply Hp3. revert Ht. cbn. rewrite app_nil_r. done.
    + intros l1 l2 Heq. cbn [app] in Heq.
      assert (ends (pre ++ [EvRelease; EvClose]) = 0%nat) as He by (by rewrite ends_app, Hp2).
      rewrite Heq, ends_app in He. lia.
    + intros t Ht. exists proto. apply Hp3. revert Ht. cbn. rewrite app_nil_r. done.
Qed.

End lemmas.

(** ** Witnesses *)

Module ProxyExamples.
Import SubnetExamples PacketExamples.

Definition no_dns : string → option (list Addr) := λ _, None.

(** 10.0.0.0/24 to 10.20.0.0/16, rewritten to 192.168.1.1. *)
Definition dnat_rule : SubnetRule :=
  mkSubnetRule (mkPrefix (ip4 10 0 0 0) 24) (mkPrefix (ip4 10 20 0 0) 16) false "192.168.1.1/32"
    [] 7 "" [] "" "".
(** The same flows, rewritten to 192.168.1.2. *)
Definition dnat_rule2 : SubnetRule :=
  mkSubnetRule (mkPrefix (ip4 10 0 0 0) 24) (mkPrefix (ip4 10 20 0 0) 16) false "192.168.1.2"
    [] 7 "" [] "" "".

Definition table1 : SubnetLookup gtable := AddSubnet NewSubnetLookup dnat_rule.
Definition table2 : SubnetLookup gtable := AddSubnet NewSubnetLookup dnat_rule2.

Definition ph0 : ProxyHandler gtable :=
  mkProxyHandler true table1 ∅ ∅ ∅ ∅ false [] false [] true.

Definition target : Z := 3232235777.  (* 192.168.1.1 *)

(** 10.0.0.5:4000 to 10.20.0.2:53, and the reply of 192.168.1.1:53. *)
Definition udp_packet2 : list Z :=
  [69; 0; 0; 32; 0; 1; 0; 0; 64; 17; 0; 0; 10; 0; 0; 5; 10; 20; 0; 2;
   15; 160; 0; 53; 0; 12; 0; 0; 112; 105; 110; 103].
Definition udp_reply : list Z :=
  [69; 0; 0; 32; 0; 1; 0; 0; 64; 17; 0; 0; 192; 168; 1; 1; 10; 0; 0; 5;
   0; 53; 15; 160; 0; 12; 0; 0; 112; 111; 110; 103].

Ltac bytes := split; [repeat constructor; unfold byte_range; lia|vm_compute; lia].

Lemma udp_flow : flow_wf udp_packet.
Proof. split; [exact udp_packet_wf|]. split; [reflexivity|right; vm_compute; split; [done|lia]]. Qed.
Lemma udp_flow2 : flow_wf udp_packet2.
Proof. split; [bytes|]. split; [reflexivity|right; vm_compute; split; [done|lia]]. Qed.
Lemma udp_reply_flow : flow_wf udp_reply.
Proof. split; [bytes|]. split; [reflexivity|right; vm_compute; split; [done|lia]]. Qed.

Lemma new_flow1 : new_flow no_dns ph0 udp_packet dnat_rule target.
Proof. split; [exact udp_flow|]. repeat (split; [vm_compute; (reflexivity || discriminate)|]). 
  split; [unfold target; lia|]. reflexivity. Qed.

Lemma udp_reply_of : reply_of udp_packet target udp_reply.
Proof. split; [exact udp_reply_flow|]. repeat split. Qed.

Lemma nat_roundtrip_witness :
  ∃ p' b', HandleIncomingPacket no_dns ph0 udp_packet = Ret (p', Some b', true) ∧
    fl_dst b' = target ∧
    ∃ q', ReadOutgoingPacket (set_queues [] false [udp_reply] p') = Ret (set_queues [] false [] p', Some q') ∧
      fl_src q' = fl_dst udp_packet.
Proof.
  destruct (nat_roundtrip no_dns ph0 udp_packet dnat_rule target new_flow1)
    as (p' & b' & Hh & Hd & _ & _ & _ & Hr).
  destruct (Hr udp_reply [] udp_reply_of) as (q' & Hq & Hs & _).
  exists p', b'. split; [exact Hh|]. split; [exact Hd|]. exists q'. split; [exact Hq|exact Hs].
Defined.

Definition ph1 : ProxyHandler gtable :=
  match HandleIncomingPacket no_dns ph0 udp_packet with Ret (p, _, _) => p | Panic => ph0 end.
Definition out1 : list Z :=
  match HandleIncomingPacket no_dns ph0 udp_packet with Ret (_, Some b, _) => b | _ => [] end.

Lemma handled1 : HandleIncomingPacket no_dns ph0 udp_packet = Ret (ph1, Some out1, true).
Proof.
  unfold ph1, out1. destruct (Handle_new_flow _ _ _ _ _ new_flow1) as (p' & b' & Hh & _).
  rewrite Hh. reflexivity.
Qed.

Lemma injected_only_if_matched_witness : is_Some (Some out1) ∧ ph_enabled ph0 = true.
Proof.
  destruct (injected_only_if_matched no_dns ph0 udp_packet ph1 (Some out1) true handled1) as [H1 H2].
  split; [apply H1; reflexivity|]. apply (H2 eq_refl).
Defined.

(** The rule now says 192.168.1.2, and the flow still goes to 192.168.1.1. *)
Definition ph1' : ProxyHandler gtable := set_lookup (λ _, table2) ph1.

Lemma nat_sticky_witness :
  ∃ p' b', HandleIncomingPacket no_dns ph1' udp_packet = Ret (p', Some b', true) ∧ fl_dst b' = target.
Proof.
  destruct (nat_sticky no_dns ph1' udp_packet dnat_rule2 (Addr4 (fl_dst udp_packet)) target)
    as (p' & b' & Hh & Hd & _).
  - exact udp_flow.
  - reflexivity.
  - vm_compute. reflexivity.
  - discriminate.
  - vm_compute. reflexivity.
  - unfold target. lia.
  - reflexivity.
  - exists p', b'. split; [exact Hh|exact Hd].
Defined.

Lemma release_misses_rewritten_flow_witness :
  let id := mkEndpointID (fl_src udp_packet) (fl_sport udp_packet) (fl_dst out1) (fl_dport udp_packet) in
  natTable (handleTCPConn ph1 id true).1 !! flow_key udp_packet =
    Some (mkNatState (Addr4 (fl_dst udp_packet)) (Addr4 target)).
Proof.
  refine (proj1 (release_misses_rewritten_flow no_dns ph0 udp_packet dnat_rule target ph1 out1 true
    no_dns table2 dnat_rule2 new_flow1 _ handled1)).
  vm_compute. discriminate.
Defined.

Definition ph2 : ProxyHandler gtable :=
  match HandleIncomingPacket no_dns ph1 udp_packet2 with Ret (p, _, _) => p | Panic => ph1 end.
Definition out2 : list Z :=
  match HandleIncomingPacket no_dns ph1 udp_packet2 with Ret (_, Some b, _) => b | _ => [] end.

Lemma new_flow2 : new_flow no_dns ph1 udp_packet2 dnat_rule target.
Proof.
  split; [exact udp_flow2|]. repeat (split; [vm_compute; (reflexivity || discriminate)|]).
  split; [unfold target; lia|]. reflexivity.
Qed.

Lemma handled2 : HandleIncomingPacket no_dns ph1 udp_packet2 = Ret (ph2, Some out2, true).
Proof.
  unfold ph2, out2. destruct (Handle_new_flow _ _ _ _ _ new_flow2) as (p' & b' & Hh & _).
  rewrite Hh. reflexivity.
Qed.

Lemma reverse_nat_collision_witness :
  ∃ q', ReadOutgoingPacket (set_queues [] false [udp_reply] ph2) = Ret (set_queues [] false [] ph2, Some q') ∧
    fl_src q' = fl_dst udp_packet2 ∧ fl_dst udp_packet2 ≠ fl_dst udp_packet.
Proof.
  destruct (reverse_nat_collision no_dns ph0 udp_packet udp_packet2 dnat_rule dnat_rule target
    ph1 out1 ph2 out2 udp_reply [] new_flow1 handled1 new_flow2 handled2) as (q' & Hq & Hs).
  - reflexivity.
  - reflexivity.
  - reflexivity.
  - reflexivity.
  - exact udp_reply_of.
  - exists q'. split; [exact Hq|]. split; [exact Hs|]. vm_compute. discriminate.
Defined.

Lemma store_release_restores_witness :
  let p' := releaseConnectionState (storeNat ph0 dnat_rule (ip4 10 0 0 5) (ip4 10 20 0 1) 4000 53 17 (ip4 127 0 0 1))
              (AddrString (ip4 10 0 0 5)) 4000 (AddrString (ip4 10 20 0 1)) 53 17 in
  natTable p' = natTable ph0 ∧ reverseNatTable p' = reverseNatTable ph0.
Proof.
  apply (store_release_restores ph0 dnat_rule (ip4 10 0 0 5) (ip4 10 20 0 1) 4000 53 17 (ip4 127 0 0 1));
    vm_compute; reflexivity.
Defined.

Definition id1 : EndpointID := mkEndpointID (fl_src udp_packet) 4000 target 53.

Lemma forwarder_events_witness :
  starts (handleUDPConn ph1 id1 true true true).2 = 1%nat ∧
  starts (handleUDPConn ph1 id1 true true true).2 = ends (handleUDPConn ph1 id1 true true true).2.
Proof.
  split; [vm_compute; reflexivity|].
  apply (forwarder_events ph1 id1 true true true _ (or_intror eq_refl)).
Defined.

End ProxyExamples.
