(* ===== verification/NetTun.v ===== *)
(** * The TUN device over the netstack ([netstack2/tun.go], [netstack2/proxy.go])

    WireGuard reads the packets of two stacks from one device: the main stack
    of the tunnel's own addresses and the proxy stack with its ICMP replies.
    Each packet queued by a stack is announced by a call of [WriteNotify],
    which takes one packet from a queue and hands it to [Read] over an
    unbuffered channel.  The calls run in goroutines of gvisor; their steps are
    interleaved as actions.  The file also has the construction and the closing
    of the device and its ping sockets. *)

From S2P Require Import Prelude Netip NetipText Bart Packet SubnetLookup ProxyHandler.
From Stdlib Require Import Ascii.

#[global] Instance go_fmap : FMap go := λ A B f m, match m with Ret a => Ret (f a) | Panic => Panic end.

(** ** The device *)

Section NetTun.
Context {Table : Type → Type} `{!BartTable Table, !Headers}.

Notation pkt := (list Z).

(** [td_main] and the two queues of the handler hold what the stacks have
    written.  The three counters are the calls of [WriteNotify] that are about
    to look at the main queue, at the ICMP replies and at the proxy's queue;
    [td_hand] the packets of those that send on the channel.  The last three
    fields are a history: the packets queued, taken (as queued and as handed
    on) and read. *)
Record netTun : Type := mkNetTun {
  td_main : list pkt;
  td_ph : option (ProxyHandler Table);
  td_n1 : nat; td_n2 : nat; td_n3 : nat;
  td_hand : list pkt;
  td_closed : bool;
  td_in : list pkt;
  td_log : list (pkt * pkt);
  td_read : list pkt }.

Definition set_main (q : list pkt) (d : netTun) : netTun :=
  mkNetTun q (td_ph d) (td_n1 d) (td_n2 d) (td_n3 d) (td_hand d) (td_closed d) (td_in d) (td_log d) (td_read d).
Definition set_ph (p : option (ProxyHandler Table)) (d : netTun) : netTun :=
  mkNetTun (td_main d) p (td_n1 d) (td_n2 d) (td_n3 d) (td_hand d) (td_closed d) (td_in d) (td_log d) (td_read d).
Definition set_calls (a b c : nat) (d : netTun) : netTun :=
  mkNetTun (td_main d) (td_ph d) a b c (td_hand d) (td_closed d) (td_in d) (td_log d) (td_read d).

(** A call that has a packet goes on to send it; on a closed channel it
    panics. *)
Definition hand_on (raw out : pkt) (d : netTun) : go netTun :=
  if td_closed d then Panic
  else Ret (mkNetTun (td_main d) (td_ph d) (td_n1 d) (td_n2 d) (td_n3 d) (td_hand d ++ [out]) (td_closed d) (td_in d)
              (td_log d ++ [(raw, out)]) (td_read d)).

(** A packet is queued and a call of [WriteNotify] begins. *)
Definition queued (raw : pkt) (d : netTun) : netTun :=
  mkNetTun (td_main d) (td_ph d) (S (td_n1 d)) (td_n2 d) (td_n3 d) (td_hand d) (td_closed d) (td_in d ++ [raw])
    (td_log d) (td_read d).

(** [WriteNotify] when no other call interferes. *)
Definition WriteNotify (d : netTun) : go netTun :=
  match td_main d with
  | m :: rest => hand_on m m (set_main rest d)
  | [] =>
      match td_ph d with
      | None => Ret d
      | Some p =>
          r ← ReadOutgoingPacket p;
          match r with
          | (p', None) => Ret d
          | (p', Some out) => hand_on (match icmpReplies p, icmpClosed p with
                                       | [], true => []
                                       | [], false => default [] (head (ph_outq p))
                                       | i :: _, _ => i
                                       end) out (set_ph (Some p') d)
          end
      end
  end.

(** Its steps: the main queue; the ICMP replies; the queue of the proxy. *)
Definition notifyMain (d : netTun) : go (option netTun) :=
  match td_n1 d with
  | O => Ret None
  | S n =>
      match td_main d, td_ph d with
      | m :: rest, _ => Some <$> hand_on m m (set_main rest (set_calls n (td_n2 d) (td_n3 d) d))
      | [], None => Ret (Some (set_calls n (td_n2 d) (td_n3 d) d))
      | [], Some p =>
          Ret (Some (set_calls n (if ph_enabled p then S (td_n2 d) else td_n2 d) (td_n3 d) d))
      end
  end.

Definition notifyIcmp (d : netTun) : go (option netTun) :=
  match td_n2 d, td_ph d with
  | S n, Some p =>
      let d := set_calls (td_n1 d) n (td_n3 d) d in
      match icmpReplies p with
      | i :: rest => Some <$> hand_on i i (set_ph (Some (set_queues rest (icmpClosed p) (ph_outq p) p)) d)
      | [] => if icmpClosed p then Some <$> hand_on [] [] d
              else Ret (Some (set_calls (td_n1 d) n (S (td_n3 d)) d))
      end
  | _, _ => Ret None
  end.

Definition notifyProxy (d : netTun) : go (option netTun) :=
  match td_n3 d, td_ph d with
  | S n, Some p =>
      let d := set_calls (td_n1 d) (td_n2 d) n d in
      match ph_outq p with
      | [] => Ret (Some d)
      | raw :: rest =>
          out ← reverseTranslate p raw;
          Some <$> hand_on raw out (set_ph (Some (set_queues (icmpReplies p) (icmpClosed p) rest p)) d)
      end
  | _, _ => Ret None
  end.

(** [Read], receiving from the [i]-th of the calls that send: the bytes read
    into the buffer, cut to its room.  An empty packet reads as an error. *)
Inductive readResult : Type := ReadBlocks | ReadClosed | ReadEOF | ReadOne (bytes : pkt).

Definition readInto (room : nat) (p : pkt) : readResult :=
  match p with [] => ReadEOF | _ => ReadOne (take room p) end.

Definition Read (room i : nat) (d : netTun) : netTun * readResult :=
  match td_hand d !! i with
  | Some p =>
      (mkNetTun (td_main d) (td_ph d) (td_n1 d) (td_n2 d) (td_n3 d) (delete i (td_hand d)) (td_closed d) (td_in d) (td_log d)
         (td_read d ++ [p]), readInto room p)
  | None => if td_closed d then (d, ReadClosed) else (d, ReadBlocks)
  end.

(** What [Write] puts into the stacks. *)
Inductive inject : Type := ToProxy (p : pkt) | ToMain (p : pkt).

(** [Write] from a packet on: the handler, the packets injected and whether
    every packet had a known version. *)
Fixpoint writeLoop (lookupIP : string → option (list Addr)) (p : option (ProxyHandler Table)) (offset : nat) (bufs : list pkt)
    : go (option (ProxyHandler Table) * list inject * bool) :=
  match bufs with
  | [] => Ret (p, [], true)
  | buf :: rest =>
      if Nat.ltb (length buf) offset then Panic else
      let packet := drop offset buf in
      match packet with
      | [] => writeLoop lookupIP p offset rest
      | b0 :: _ =>
          h ← match p with
              | None => Ret (None, None, false)
              | Some ph => r ← HandleIncomingPacket lookupIP ph packet; Ret (Some r.1.1, r.1.2, r.2)
              end;
          let '(p, out, handled) := h in
          let pre := match out with Some o => [ToProxy o] | None => [] end in
          if (handled : bool) then
            r ← writeLoop lookupIP p offset rest; Ret (r.1.1, pre ++ r.1.2, r.2)
          else if (Z.shiftr b0 4 =? 4) || (Z.shiftr b0 4 =? 6) then
            r ← writeLoop lookupIP p offset rest; Ret (r.1.1, ToMain packet :: r.1.2, r.2)
          else Ret (p, [], false)
      end
  end.

(** The count [Write] returns, or [EAFNOSUPPORT]. *)
Definition Write (lookupIP : string → option (list Addr)) (bufs : list pkt) (offset : nat) (d : netTun)
    : go (netTun * list inject * option nat) :=
  r ← writeLoop lookupIP (td_ph d) offset bufs;
  let '(p, injected, ok) := r in
  Ret (set_ph p d, injected, if (ok : bool) then Some (length bufs) else None).

(** [ProxyHandler.Close]: the channel of replies is closed and the endpoint
    drained; closing it again panics. *)
Definition closeHandler (p : ProxyHandler Table) : go (ProxyHandler Table) :=
  if negb (ph_enabled p) then Ret p
  else if icmpClosed p then Panic
  else Ret (set_queues (icmpReplies p) true [] p).

(** [Close]: closing a closed channel panics, and so does a call that is
    sending on it. *)
Definition Close (d : netTun) : go netTun :=
  p ← match td_ph d with None => Ret None | Some p => Some <$> closeHandler p end;
  if td_closed d then Panic
  else match td_hand d with
       | _ :: _ => Panic
       | [] => Ret (mkNetTun [] p (td_n1 d) (td_n2 d) (td_n3 d) [] true (td_in d) (td_log d) (td_read d))
       end.

(** ** The steps of the device and its users *)

Inductive tunAction : Type :=
  | AMain (p : pkt)       (* the main stack writes a packet *)
  | AProxy (p : pkt)      (* the proxy stack writes a packet *)
  | AIcmp (p : pkt)       (* an ICMP reply is queued *)
  | ANotifyMain | ANotifyIcmp | ANotifyProxy
  | ARead (room i : nat)
  | AWrite (lookupIP : string → option (list Addr)) (bufs : list pkt) (offset : nat)
  | ARules (f : SubnetLookup Table → SubnetLookup Table).   (* the rule methods *)

(** Capacity of the queues of gvisor's endpoints; a packet too many is
    dropped and not announced. *)
Definition epCap : nat := 1024.

Definition act (a : tunAction) (d : netTun) : go (option netTun) :=
  match a with
  | AMain p =>
      if Nat.ltb (length (td_main d)) epCap then Ret (Some (queued p (set_main (td_main d ++ [p]) d))) else Ret (Some d)
  | AProxy p =>
      match td_ph d with
      | Some ph =>
          if ph_enabled ph && Nat.ltb (length (ph_outq ph)) epCap
          then Ret (Some (queued p (set_ph (Some (set_queues (icmpReplies ph) (icmpClosed ph) (ph_outq ph ++ [p]) ph)) d)))
          else Ret (Some d)
      | None => Ret None
      end
  | AIcmp p =>
      match td_ph d with
      | Some ph =>
          r ← QueueICMPReply ph p;
          Ret (Some (if (r.2 : bool) then queued p (set_ph (Some r.1) d) else set_ph (Some r.1) d))
      | None => Ret None
      end
  | ANotifyMain => notifyMain d
  | ANotifyIcmp => notifyIcmp d
  | ANotifyProxy => notifyProxy d
  | ARead room i => Ret (Some (Read room i d).1)
  | AWrite lookupIP bufs offset => r ← Write lookupIP bufs offset d; Ret (Some r.1.1)
  | ARules f => Ret (Some (set_ph (set_lookup f <$> td_ph d) d))
  end.

(** What can happen to an open device that was created with [p]. *)
Inductive tunReach (p : option (ProxyHandler Table)) : netTun → Prop :=
  | tr_init : tunReach p (mkNetTun [] p 0 0 0 [] false [] [] [])
  | tr_step a d d' : tunReach p d → act a d = Ret (Some d') → tunReach p d'.

(** ** Every packet reaches [Read] once *)

Definition icmpQ (d : netTun) : list pkt := match td_ph d with Some p => icmpReplies p | None => [] end.
Definition proxyQ (d : netTun) : list pkt := match td_ph d with Some p => ph_outq p | None => [] end.

(** What is handed on is the packet queued, or its reverse translation. *)
Definition entry_ok (e : pkt * pkt) : Prop := e.2 = e.1 ∨ ∃ p : ProxyHandler Table, reverseTranslate p e.1 = Ret e.2.

(** The queues of a handler, all that the device needs of it. *)
Definition handler_ok (p : option (ProxyHandler Table)) : Prop :=
  match p with
  | None => True
  | Some ph => icmpClosed ph = false ∧ (ph_enabled ph = false → icmpReplies ph = [] ∧ ph_outq ph = [])
  end.

Record tun_ok (d : netTun) : Prop := mkTunOk {
  to_open : td_closed d = false;
  to_handler : handler_ok (td_ph d);
  to_n1 : (length (td_main d) <= td_n1 d)%nat;
  to_n2 : (length (td_main d) + length (icmpQ d) <= td_n1 d + td_n2 d)%nat;
  to_n3 : (length (td_main d) + length (icmpQ d) + length (proxyQ d) <= td_n1 d + td_n2 d + td_n3 d)%nat;
  to_in : td_in d ≡ₚ (td_log d).*1 ++ td_main d ++ icmpQ d ++ proxyQ d;
  to_out : (td_log d).*2 ≡ₚ td_read d ++ td_hand d;
  to_log : Forall entry_ok (td_log d) }.

(** The handler changes without its queues. *)
Definition sameQueues (p p' : ProxyHandler Table) : Prop :=
  icmpReplies p' = icmpReplies p ∧ ph_outq p' = ph_outq p ∧ icmpClosed p' = icmpClosed p ∧ ph_enabled p' = ph_enabled p.

Lemma sameQueues_refl p : sameQueues p p.
Proof. done. Qed.

Lemma sameQueues_trans p q r : sameQueues p q → sameQueues q r → sameQueues p r.
Proof. unfold sameQueues. intros (-> & -> & -> & ->) (-> & -> & -> & ->). done. Qed.

Lemma storeNat_sameQueues p rule src dst sp dp proto n : sameQueues p (storeNat p rule src dst sp dp proto n).
Proof. unfold storeNat. repeat case_match; done. Qed.

(** A packet is injected exactly when the handler says so. *)
Lemma Handle_frame lookupIP p b p' out res :
  HandleIncomingPacket lookupIP p b = Ret (p', out, res) →
  sameQueues p p' ∧ res = match out with Some _ => true | None => false end.
Proof.
  unfold HandleIncomingPacket. cbv zeta.
  destruct (negb (ph_enabled p)); [by intros [= <- <- <-]|].
  destruct (Nat.ltb _ _); [by intros [= <- <- <-]|]. destruct (negb _); [by intros [= <- <- <-]|].
  destruct (packetDstPort _ _ _); [|by intros [= <- <- <-]]. destruct (Match _ _ _ _ _) as [rule|]; [|by intros [= <- <- <-]].
  set (p1 := if negb (ResourceId rule =? 0) then _ else p). assert (sameQueues p p1) as H1 by (unfold p1; by destruct (negb _)).
  case_bool_decide; [by intros [= <- <- <-]|].
  match goal with |- match ?m with Some _ => _ | None => _ end = _ → _ => destruct m as [[p2 n]|] eqn:Em end;
    [|by intros [= <- <- <-]].
  assert (sameQueues p1 p2) as H2.
  { destruct (natTable p1 !! _); [by injection Em as <- _|].
    destruct (resolveRewriteAddress lookupIP (RewriteTo rule)); simpl in Em; [|done]. injection Em as <- _. apply storeNat_sameQueues. }
  pose proof (sameQueues_trans _ _ _ H1 H2) as H3. destruct (negb (IsLoopback n)); [|by intros [= <- <- <-]].
  destruct (rewritePacketDestination b n) as [[b'|]|]; cbn [mbind go_bind]; by intros [= <- <- <-].
Qed.

(** The same for a device that may have no handler. *)
Definition sameHandler (p p' : option (ProxyHandler Table)) : Prop :=
  match p, p' with
  | Some q, Some q' => sameQueues q q'
  | None, None => True
  | _, _ => False
  end.

Lemma sameHandler_refl p : sameHandler p p.
Proof. by destruct p. Qed.

Lemma sameHandler_trans p q r : sameHandler p q → sameHandler q r → sameHandler p r.
Proof. destruct p, q, r; simpl; try done. apply sameQueues_trans. Qed.

Lemma write_sameHandler lookupIP p offset bufs p' inj ok :
  writeLoop lookupIP p offset bufs = Ret (p', inj, ok) → sameHandler p p'.
Proof.
  revert p p' inj ok. induction bufs as [|buf rest IH]; intros p p' inj ok; simpl; [intros [= <- _ _]; apply sameHandler_refl|].
  destruct (Nat.ltb _ _); [done|]. destruct (drop offset buf) as [|b0 t] eqn:Ed; [by apply IH|].
  destruct (match p with None => _ | Some _ => _ end) as [[[p1 out] handled]|] eqn:Eh; cbn [mbind go_bind]; [|done].
  assert (sameHandler p p1) as H1.
  { destruct p as [ph|]; [|by injection Eh as <- _ _].
    destruct (HandleIncomingPacket lookupIP ph (b0 :: t)) as [[[q o] h]|] eqn:EH; cbn [mbind go_bind] in Eh; [|done].
    injection Eh as <- _ _. simpl. by eapply Handle_frame. }
  destruct handled; [|destruct (_ || _); [|by intros [= <- _ _]]];
    (destruct (writeLoop lookupIP p1 offset rest) as [[[p2 inj2] ok2]|] eqn:EW; cbn [mbind go_bind]; [|done]);
    intros [= <- _ _]; exact (sameHandler_trans _ _ _ H1 (IH _ _ _ _ EW)).
Qed.

Lemma tun_ok_handler p d : sameHandler (td_ph d) p → tun_ok d → tun_ok (set_ph p d).
Proof.
  intros Hs [H1 H2 H3 H4 H5 H6 H7 H8]. unfold icmpQ, proxyQ in *.
  destruct (td_ph d) as [q|] eqn:E, p as [q'|]; try done.
  destruct Hs as (E1 & E2 & E3 & E4). split; unfold icmpQ, proxyQ; simpl; rewrite ?E1, ?E2, ?E3, ?E4; done.
Qed.

(** A queued packet is announced. *)
Lemma tun_ok_queued p d d1 :
  tun_ok d → td_closed d1 = false → handler_ok (td_ph d1) →
  td_n1 d1 = td_n1 d → td_n2 d1 = td_n2 d → td_n3 d1 = td_n3 d → td_hand d1 = td_hand d →
  td_in d1 = td_in d → td_log d1 = td_log d → td_read d1 = td_read d →
  td_main d1 ++ icmpQ d1 ++ proxyQ d1 ≡ₚ p :: td_main d ++ icmpQ d ++ proxyQ d →
  (length (td_main d1) <= S (length (td_main d)))%nat →
  (length (td_main d1) + length (icmpQ d1) <= S (length (td_main d) + length (icmpQ d)))%nat →
  tun_ok (queued p d1).
Proof.
  intros [H1 H2 H3 H4 H5 H6 H7 H8] Hc Hh E1 E2 E3 Eh Ei El Er HP L1 L2.
  pose proof (Permutation_length HP) as HL. simpl in HL. rewrite !length_app in HL. unfold queued.
  split; unfold icmpQ, proxyQ in *; simpl; rewrite ?E1, ?E2, ?E3, ?Eh, ?Ei, ?El, ?Er; try done; try lia.
  rewrite <-Permutation_cons_append, HP, <-Permutation_middle. by rewrite <-H6.
Qed.

(** A call takes a packet. *)
Lemma tun_ok_hand raw out d d1 d2 :
  tun_ok d → handler_ok (td_ph d1) → td_closed d1 = td_closed d → td_hand d1 = td_hand d → td_in d1 = td_in d →
  td_log d1 = td_log d → td_read d1 = td_read d →
  td_main d ++ icmpQ d ++ proxyQ d ≡ₚ raw :: td_main d1 ++ icmpQ d1 ++ proxyQ d1 → entry_ok (raw, out) →
  (length (td_main d1) <= td_n1 d1)%nat →
  (length (td_main d1) + length (icmpQ d1) <= td_n1 d1 + td_n2 d1)%nat →
  (length (td_main d1) + length (icmpQ d1) + length (proxyQ d1) <= td_n1 d1 + td_n2 d1 + td_n3 d1)%nat →
  hand_on raw out d1 = Ret d2 → tun_ok d2.
Proof.
  intros [H1 H2 H3 H4 H5 H6 H7 H8] Hh Ec Eh Ei El Er HP He L1 L2 L3. unfold hand_on. rewrite Ec, H1. intros [= <-].
  split; unfold icmpQ, proxyQ in *; simpl; rewrite ?Ec, ?Eh, ?Ei, ?El, ?Er; try done.
  - rewrite H6, HP, fmap_app, <-app_assoc. simpl. done.
  - by rewrite fmap_app, H7, <-app_assoc.
  - apply Forall_app. split; [done|]. by constructor.
Qed.

Lemma main_ok p d d' : tun_ok d → act (AMain p) d = Ret (Some d') → tun_ok d'.
Proof.
  intros Hd. pose proof Hd as [H1 H2 _ _ _ _ _ _]. simpl.
  destruct (Nat.ltb _ _); intros [= <-]; [|done]. eapply tun_ok_queued; try done; unfold icmpQ, proxyQ; simpl.
  - rewrite <-app_assoc. simpl. by rewrite <-Permutation_middle.
  - rewrite length_app. simpl. lia.
  - rewrite length_app. simpl. lia.
Qed.

Lemma proxy_ok p d d' : tun_ok d → act (AProxy p) d = Ret (Some d') → tun_ok d'.
Proof.
  intros Hd. pose proof Hd as [H1 H2 _ _ _ _ _ _]. simpl.
  destruct (td_ph d) as [ph|] eqn:Ep; [|done]. destruct (ph_enabled ph && _) eqn:Eb; intros [= <-]; [|done].
  apply andb_prop in Eb as [Een _]. destruct H2 as [Hc He].
  eapply tun_ok_queued; try done; unfold icmpQ, proxyQ; simpl; rewrite ?Ep; try lia.
  - split; [done|]. simpl. congruence.
  - rewrite !app_assoc. by rewrite <-Permutation_cons_append.
Qed.

Lemma icmp_ok p d d' : tun_ok d → act (AIcmp p) d = Ret (Some d') → tun_ok d'.
Proof.
  intros Hd. pose proof Hd as [H1 H2 _ _ _ _ _ _]. simpl.
  destruct (td_ph d) as [ph|] eqn:Ep; [|done]. destruct H2 as [Hc He]. unfold QueueICMPReply.
  assert (tun_ok (set_ph (Some ph) d)) as Hsame by (apply tun_ok_handler; [rewrite Ep; apply sameQueues_refl|done]).
  destruct (ph_enabled ph) eqn:Een; simpl; [|by intros [= <-]].
  rewrite Hc. destruct (Nat.ltb _ _); simpl; intros [= <-]; [|done].
  eapply tun_ok_queued; try done; unfold icmpQ, proxyQ; simpl; rewrite ?Ep; simpl; try lia.
  - split; [done|]. simpl. congruence.
  - rewrite <-!app_assoc. simpl. by rewrite <-!Permutation_middle.
  - rewrite length_app. simpl. lia.
Qed.

(** A step of a call either ends in [hand_on] or only moves a counter. *)
Lemma hand_on_some raw out d d' : Some <$> hand_on raw out d = Ret (Some d') → hand_on raw out d = Ret d'.
Proof. unfold hand_on. destruct (td_closed d); [done|]. by intros [= <-]. Qed.

Lemma notifyMain_ok d d' : tun_ok d → notifyMain d = Ret (Some d') → tun_ok d'.
Proof.
  intros Hd. pose proof Hd as [H1 H2 H3 H4 H5 H6 H7 H8]. unfold notifyMain.
  destruct (td_n1 d) as [|n] eqn:En; [done|]. destruct (td_main d) as [|m rest] eqn:Em; simpl in *.
  - destruct (td_ph d) as [ph|] eqn:Ep; intros [= <-]; unfold icmpQ, proxyQ in *; rewrite Ep in *.
    + destruct (ph_enabled ph) eqn:Een; [|destruct (proj2 H2 Een) as [E1 E2]; rewrite E1 in H4; rewrite E1, E2 in H5, H6];
        split; unfold icmpQ, proxyQ; simpl; rewrite ?Em, ?Ep, ?E1, ?E2; simpl in *; try done; try lia.
    + split; unfold icmpQ, proxyQ; simpl; rewrite ?Em, ?Ep; simpl in *; try done; lia.
  - intros Hh%hand_on_some. eapply tun_ok_hand; [exact Hd|..|exact Hh]; simpl; try done; rewrite ?Em; unfold icmpQ, proxyQ in *;
      simpl in *; try done; try lia. by left.
Qed.

Lemma notifyIcmp_ok d d' : tun_ok d → notifyIcmp d = Ret (Some d') → tun_ok d'.
Proof.
  intros Hd. pose proof Hd as [H1 H2 H3 H4 H5 H6 H7 H8]. unfold notifyIcmp.
  destruct (td_n2 d) as [|n] eqn:En; [done|]. destruct (td_ph d) as [ph|] eqn:Ep; [|done]. destruct H2 as [Hc He].
  unfold icmpQ, proxyQ in *. rewrite Ep in *. cbv zeta. destruct (icmpReplies ph) as [|i rest] eqn:Ei; simpl in *.
  - rewrite Hc. intros [= <-]. split; unfold icmpQ, proxyQ; simpl; rewrite ?Ep, ?Ei; simpl; try done; try lia. split; [done|]. by rewrite Ei.
  - intros Hh%hand_on_some. eapply tun_ok_hand; [exact Hd|..|exact Hh]; unfold icmpQ, proxyQ; simpl; try done; rewrite ?Ep, ?Ei;
      simpl in *; try done; try lia.
    + split; [done|]. intros Hf. by destruct (He Hf).
    + symmetry. apply Permutation_middle.
    + by left.
Qed.

Lemma notifyProxy_ok d d' : tun_ok d → notifyProxy d = Ret (Some d') → tun_ok d'.
Proof.
  intros Hd. pose proof Hd as [H1 H2 H3 H4 H5 H6 H7 H8]. unfold notifyProxy.
  destruct (td_n3 d) as [|n] eqn:En; [done|]. destruct (td_ph d) as [ph|] eqn:Ep; [|done]. destruct H2 as [Hc He].
  unfold icmpQ, proxyQ in *. rewrite Ep in *. cbv zeta. destruct (ph_outq ph) as [|raw rest] eqn:Eo; simpl in *.
  - intros [= <-]. split; unfold icmpQ, proxyQ; simpl; rewrite ?Ep, ?Eo; simpl; try done; try lia. split; [done|]. by rewrite Eo.
  - destruct (reverseTranslate ph raw) as [out|] eqn:Et; cbn [mbind go_bind]; [|done].
    intros Hh%hand_on_some. eapply tun_ok_hand; [exact Hd|..|exact Hh]; unfold icmpQ, proxyQ; simpl; try done; rewrite ?Ep, ?Eo;
      simpl in *; try done; try lia.
    + split; [done|]. intros Hf. by destruct (He Hf).
    + rewrite !app_assoc. symmetry. apply Permutation_middle.
    + right. by exists ph.
Qed.

Lemma read_ok room i d : tun_ok d → tun_ok (Read room i d).1.
Proof.
  intros Hd. pose proof Hd as [H1 H2 H3 H4 H5 H6 H7 H8]. unfold Read. destruct (td_hand d !! i) as [p|] eqn:Ei; simpl.
  - split; unfold icmpQ, proxyQ in *; simpl; try done. rewrite H7, <-app_assoc. f_equiv. simpl. by apply delete_Permutation.
  - by destruct (td_closed d).
Qed.

Lemma act_ok a d d' : tun_ok d → act a d = Ret (Some d') → tun_ok d'.
Proof.
  intros Hd Ha. destruct a as [p|p|p| | | |room i|lk bufs off|f].
  - by eapply main_ok.
  - by eapply proxy_ok.
  - by eapply icmp_ok.
  - by eapply notifyMain_ok.
  - by eapply notifyIcmp_ok.
  - by eapply notifyProxy_ok.
  - injection Ha as <-. by apply read_ok.
  - simpl in Ha. unfold Write in Ha. destruct (writeLoop lk (td_ph d) off bufs) as [[[p inj] ok]|] eqn:Ew; [|done].
    injection Ha as <-. apply tun_ok_handler; [|done]. by eapply write_sameHandler.
  - injection Ha as <-. apply tun_ok_handler; [|done]. by destruct (td_ph d).
Qed.

Lemma reach_ok p d : handler_ok p → match p with Some ph => icmpReplies ph = [] ∧ ph_outq ph = [] | None => True end →
  tunReach p d → tun_ok d.
Proof.
  intros Hh Hq. induction 1 as [|a d d' _ IH Ha]; [|by eapply act_ok].
  split; unfold icmpQ, proxyQ; simpl; try done; destruct p as [ph|]; simpl; try done; destruct Hq as [E1 E2]; rewrite ?E1, ?E2; simpl; try done; lia.
Qed.

(** A device as it is created: with no handler, or a new one. *)
Definition newHandler (p : option (ProxyHandler Table)) : Prop := ∃ tcp udp icmp, p = NewProxyHandler tcp udp icmp.

Lemma newHandler_ok p d : newHandler p → tunReach p d → tun_ok d.
Proof.
  intros (t & u & i & ->) Hr. apply (reach_ok _ d) in Hr; [done|..]; unfold NewProxyHandler; by destruct (_ && _).
Qed.

(** C27: however the writes of the stacks, the steps of the
    notification calls, reads, writes and rule changes interleave: every
    packet that was queued is still queued or was taken by exactly one call;
    every packet taken was handed on as it was, or reverse translated, and is
    read once or waits for a read; and when no call is under way nothing is
    left in a queue. *)
Theorem device_delivers p d :
  newHandler p → tunReach p d →
  td_in d ≡ₚ (td_log d).*1 ++ td_main d ++ icmpQ d ++ proxyQ d ∧
  (td_log d).*2 ≡ₚ td_read d ++ td_hand d ∧ Forall entry_ok (td_log d) ∧
  (td_n1 d = 0 → td_n2 d = 0 → td_n3 d = 0 →
   td_main d = [] ∧ icmpQ d = [] ∧ proxyQ d = [] ∧ td_in d ≡ₚ (td_log d).*1)%nat.
Proof.
  intros Hp Hr. destruct (newHandler_ok p d Hp Hr) as [H1 H2 H3 H4 H5 H6 H7 H8]. split_and!; try done. intros E1 E2 E3.
  rewrite E1, E2, E3 in *. assert (td_main d = []) as Em by (apply length_zero_iff_nil; lia).
  assert (icmpQ d = []) as Ei by (apply length_zero_iff_nil; lia). assert (proxyQ d = []) as Eq by (apply length_zero_iff_nil; lia).
  split_and!; try done. by rewrite H6, Em, Ei, Eq, !app_nil_r.
Qed.

(** A call that nothing interferes with takes its steps to the same end as
    [WriteNotify] in one go. *)
Lemma WriteNotify_steps d n :
  td_n1 d = S n →
  let d' := set_calls n (td_n2 d) (td_n3 d) d in
  match td_main d, td_ph d with
  | _ :: _, _ => notifyMain d = Some <$> WriteNotify d'
  | [], None => notifyMain d = Some <$> WriteNotify d'
  | [], Some p =>
      ph_enabled p = true →
      ∃ d1, notifyMain d = Ret (Some d1) ∧
        (notifyIcmp d1 = Some <$> WriteNotify d' ∨
         ∃ d2, notifyIcmp d1 = Ret (Some d2) ∧ notifyProxy d2 = Some <$> WriteNotify d')
  end.
Proof.
  intros En. unfold notifyMain, WriteNotify. rewrite En. destruct d as [mq ph n1 n2 n3 hand cl inn log rd]. simpl in *.
  destruct mq as [|m rest]; [|done]. destruct ph as [p|]; [|done]. intros He. rewrite He. eexists. split; [done|].
  unfold ReadOutgoingPacket, notifyIcmp. simpl. rewrite He. simpl.
  destruct (icmpReplies p) as [|i rest] eqn:Ei; simpl; [|by left]. destruct (icmpClosed p) eqn:Ec; simpl; [by left|].
  right. eexists. split; [done|]. unfold notifyProxy. simpl. destruct (ph_outq p) as [|raw rest]; simpl; [done|].
  destruct (reverseTranslate p raw); simpl; [|done]. by rewrite Ei, Ec.
Qed.

(** ** Closing *)

Lemma hand_on_closed raw out d : td_closed d = true → hand_on raw out d = Panic.
Proof. unfold hand_on. by intros ->. Qed.

Lemma closed_icmp d p :
  td_closed d = true → td_ph d = Some p → icmpClosed p = true → (0 < td_n2 d)%nat → notifyIcmp d = Panic.
Proof.
  intros Hc Hp Hi Hn. unfold notifyIcmp. rewrite Hp. destruct (td_n2 d); [lia|]. simpl.
  destruct (icmpReplies p); [rewrite Hi|]; by rewrite hand_on_closed.
Qed.


(** ** Writing *)

(** Where a packet goes: to the proxy stack, possibly rewritten, when the
    handler takes it; otherwise to the main stack, as it is, provided that it
    has a known version. *)
Definition versioned (packet : pkt) : Prop := ∃ b0 t, packet = b0 :: t ∧ (Z.shiftr b0 4 = 4 ∨ Z.shiftr b0 4 = 6).

Inductive routed (lookupIP : string → option (list Addr)) :
    option (ProxyHandler Table) → pkt → option (ProxyHandler Table) → inject → Prop :=
  | routed_proxy ph packet ph' o :
      HandleIncomingPacket lookupIP ph packet = Ret (ph', Some o, true) → routed lookupIP (Some ph) packet (Some ph') (ToProxy o)
  | routed_main ph packet ph' :
      HandleIncomingPacket lookupIP ph packet = Ret (ph', None, false) → versioned packet →
      routed lookupIP (Some ph) packet (Some ph') (ToMain packet)
  | routed_plain packet : versioned packet → routed lookupIP None packet None (ToMain packet).

Inductive routedAll (lookupIP : string → option (list Addr)) :
    option (ProxyHandler Table) → list pkt → option (ProxyHandler Table) → list inject → Prop :=
  | routed_nil p : routedAll lookupIP p [] p []
  | routed_cons p packet p1 x rest q inj :
      routed lookupIP p packet p1 x → routedAll lookupIP p1 rest q inj → routedAll lookupIP p (packet :: rest) q (x :: inj).

(** The packets of a batch that [Write] looks at. *)
Definition payloads (offset : nat) (bufs : list pkt) : list pkt := filter (λ p, p ≠ []) (drop offset <$> bufs).

Lemma payloads_cons offset buf rest :
  payloads offset (buf :: rest) = match drop offset buf with [] => payloads offset rest | b :: t => (b :: t) :: payloads offset rest end.
Proof. unfold payloads. rewrite fmap_cons, filter_cons. by destruct (drop offset buf). Qed.

Lemma version_test b0 : (Z.shiftr b0 4 =? 4) || (Z.shiftr b0 4 =? 6) = true → Z.shiftr b0 4 = 4 ∨ Z.shiftr b0 4 = 6.
Proof. rewrite orb_true_iff, !Z.eqb_eq. done. Qed.

Lemma write_routed lookupIP p offset bufs q inj :
  writeLoop lookupIP p offset bufs = Ret (q, inj, true) → routedAll lookupIP p (payloads offset bufs) q inj.
Proof.
  revert p inj. induction bufs as [|buf rest IH]; intros p inj; simpl; [intros [= <- <-]; constructor|].
  destruct (Nat.ltb _ _); [done|]. rewrite payloads_cons. destruct (drop offset buf) as [|b0 t]; [by apply IH|].
  destruct p as [ph|]; simpl.
  - destruct (HandleIncomingPacket lookupIP ph (b0 :: t)) as [[[ph' o] h]|] eqn:EH; cbn [mbind go_bind]; [|done].
    pose proof (proj2 (Handle_frame _ _ _ _ _ _ EH)) as Hh. simpl in *.
    destruct o as [o|]; subst h; [|destruct (_ || _) eqn:Ev; [|done]];
      (destruct (writeLoop lookupIP (Some ph') offset rest) as [[[p2 inj2] ok2]|] eqn:EW; cbn [mbind go_bind]; [|done]);
      intros [= <- <- ->]; (eapply routed_cons; [|by apply IH]); [by constructor|].
    constructor; [done|]. exists b0, t. split; [done|by apply version_test].
  - destruct (_ || _) eqn:Ev; [|done].
    destruct (writeLoop lookupIP None offset rest) as [[[p2 inj2] ok2]|] eqn:EW; cbn [mbind go_bind]; [|done].
    intros [= <- <- ->]. eapply routed_cons; [|by apply IH]. constructor. exists b0, t. split; [done|by apply version_test].
Qed.

Lemma routed_length lookupIP p l q inj : routedAll lookupIP p l q inj → length inj = length l.
Proof. induction 1; simpl; congruence. Qed.

(** A batch that [Write] accepts is routed packet by packet,
    in order, each one to one stack: those the handler takes to the proxy
    stack, the others unchanged to the main stack; the count is that of the
    buffers, and empty ones are skipped. *)
Theorem write_refines lookupIP bufs offset (d d' : netTun) inj n :
  Write lookupIP bufs offset d = Ret (d', inj, Some n) →
  n = length bufs ∧ d' = set_ph (td_ph d') d ∧ routedAll lookupIP (td_ph d) (payloads offset bufs) (td_ph d') inj ∧
  length inj = length (payloads offset bufs).
Proof.
  unfold Write. destruct (writeLoop lookupIP (td_ph d) offset bufs) as [[[q i] ok]|] eqn:Ew; cbn [mbind go_bind]; [|done].
  destruct ok; [|done]. intros [= <- <- <-]. apply write_routed in Ew. split_and!; try done. by eapply routed_length.
Qed.

End NetTun.
Arguments netTun Table : clear implicits.
Arguments tunAction Table : clear implicits.

(** ** Construction *)

Definition isV4 (a : Addr) : bool := match a with Addr4 _ => true | _ => false end.
Definition isV6 (a : Addr) : bool := match a with Addr6 _ _ => true | _ => false end.

(** The protocol numbers of gvisor; zero is none. *)
Definition protoV4 : Z := 2048.
Definition protoV6 : Z := 34525.

(** The outcome of each call on the stacks. *)
Record stackCalls : Type := mkStackCalls {
  st_tcpHandler : bool; st_httpHandler : bool; st_udpHandler : bool; st_icmpHandler : bool;
  st_sack : bool; st_nic : bool; st_proxyNic : bool; st_promiscuous : bool; st_spoofing : bool; st_forwarding : bool;
  st_addAddress : Addr → Z → bool }.

(** What the new device keeps: its options, the addresses of NIC 1, its
    default routes and its events. *)
Record tunConfig : Type := mkTunConfig {
  tc_proxy : bool; tc_addrs : list (Addr * Z); tc_hasV4 : bool; tc_hasV6 : bool; tc_routes : list Z; tc_up : bool }.

(** [NewProxyHandler] installs the handlers of the protocols asked for. *)
Definition handlersOk (c : stackCalls) (tcp udp icmp : bool) : bool :=
  (negb tcp || st_tcpHandler c && st_httpHandler c) && (negb udp || st_udpHandler c) && (negb icmp || st_icmpHandler c).

(** [ProxyHandler.Initialize]. *)
Definition Initialize (c : stackCalls) : bool := st_proxyNic c && st_promiscuous c && st_spoofing c.

(** The loop over the local addresses: they are added one by one. *)
Fixpoint addAddresses (c : stackCalls) (l : list Addr) (cfg : tunConfig) : option tunConfig :=
  match l with
  | [] => Some cfg
  | ip :: rest =>
      let protoNumber := if isV4 ip then protoV4 else if isV6 ip then protoV6 else 0 in
      if negb (st_addAddress c ip protoNumber) then None
      else addAddresses c rest
             (mkTunConfig (tc_proxy cfg) (tc_addrs cfg ++ [(ip, protoNumber)]) (tc_hasV4 cfg || isV4 ip)
                (tc_hasV6 cfg || (negb (isV4 ip) && isV6 ip)) (tc_routes cfg) (tc_up cfg))
  end.

Definition CreateNetTUNWithOptions (c : stackCalls) (localAddresses : list Addr) (tcp udp icmp : bool) : option tunConfig :=
  let proxy := tcp || udp || icmp in
  if proxy && negb (handlersOk c tcp udp icmp) then None
  else if negb (st_sack c) then None
  else if negb (st_nic c) then None
  else if proxy && negb (Initialize c) then None
  else if negb (st_forwarding c) then None
  else
    cfg ← addAddresses c localAddresses (mkTunConfig proxy [] false false [] false);
    Some (mkTunConfig (tc_proxy cfg) (tc_addrs cfg) (tc_hasV4 cfg) (tc_hasV6 cfg)
            ((if tc_hasV4 cfg then [protoV4] else []) ++ (if tc_hasV6 cfg then [protoV6] else [])) true).

Definition CreateNetTUN (c : stackCalls) (localAddresses : list Addr) : option tunConfig :=
  CreateNetTUNWithOptions c localAddresses true true true.

(** ** Rules *)

Section Rules.
Context {Table : Type → Type} `{!BartTable Table, !Headers}.

Definition AddProxySubnetRule (rule : SubnetRule) (d : netTun Table) : netTun Table :=
  match td_ph d with Some p => set_ph (Some (AddSubnetRule p rule)) d | None => d end.
Definition RemoveProxySubnetRule (src dst : Prefix) (d : netTun Table) : netTun Table :=
  match td_ph d with Some p => set_ph (Some (RemoveSubnetRule p src dst)) d | None => d end.
Definition ReplaceProxySubnetRules (rules : list SubnetRule) (d : netTun Table) : netTun Table :=
  match td_ph d with Some p => set_ph (Some (ReplaceAllSubnetRules p rules)) d | None => d end.
Definition GetProxySubnetRules (d : netTun Table) : list SubnetRule :=
  match td_ph d with Some p => ph_GetAllRules p | None => [] end.

End Rules.

(** ** Sockets of the stack *)

(** The full address of NIC 1 and the protocol number. *)
Definition convertToFullAddr (endpoint : AddrPort) : AddrPort * Z :=
  (endpoint, if isV4 (ap_addr endpoint) then protoV4 else protoV6).

Definition zeroAddrPort : AddrPort := mkAddrPort AddrInvalid 0.

(** [*net.TCPAddr] and [*net.UDPAddr]: the bytes of the address and a port. *)
Definition fromIP (ip : option Addr) (port : Z) : AddrPort := mkAddrPort (default AddrInvalid ip) (port mod 65536).

(** [DialContextTCP], [DialTCP] and [ListenTCP] differ in the call they make;
    a nil address is the zero one. *)
Definition tcpArgs (addr : option (option Addr * Z)) : AddrPort * Z :=
  convertToFullAddr match addr with None => zeroAddrPort | Some (ip, port) => fromIP ip port end.

(** What [DialUDPAddrPort] dials: local address, remote address, protocol. *)
Definition DialUDPAddrPort (laddr raddr : AddrPort) : option AddrPort * option AddrPort * Z :=
  let l := if IsValid (ap_addr laddr) || (0 <? ap_port laddr) then Some (convertToFullAddr laddr) else None in
  let r := if IsValid (ap_addr raddr) || (0 <? ap_port raddr) then Some (convertToFullAddr raddr) else None in
  (fst <$> l, fst <$> r, match r, l with Some (_, pn), _ => pn | None, Some (_, pn) => pn | None, None => 0 end).

Definition DialUDP (laddr raddr : option (option Addr * Z)) : option AddrPort * option AddrPort * Z :=
  let conv a := match a with None => zeroAddrPort | Some (ip, port) => fromIP ip port end in
  DialUDPAddrPort (conv laddr) (conv raddr).

(** ** Ping sockets *)

Definition unspecified4 : Addr := Addr4 0.
Definition unspecified6 : Addr := Addr6 0 "".

(** [pc_queue]: the replies the endpoint holds; [pc_registered]: a reader
    waits for an event; [pc_signal]: it has been signalled; [pc_deadline]: the
    timer has fired. *)
Record PingConn : Type := mkPingConn {
  pc_laddr : Addr; pc_raddr : Addr; pc_v6 : bool; pc_bound : bool; pc_open : bool;
  pc_queue : list (list Z * Addr); pc_registered : bool; pc_signal : bool; pc_deadline : bool }.

Inductive pingErr : Type := PInvalid | PEndpoint | PBind | PConnect.

Definition pingNetwork (a : Addr) : string := if isV4 a then "ping4" else if isV6 a then "ping6" else "ping".

(** [newEp], [bindOk] and [connectOk] answer for the stack. *)
Definition DialPingAddr (newEp : bool → bool) (bindOk connectOk : Addr → bool) (laddr raddr : Addr) : PingConn + pingErr :=
  if negb (IsValid laddr) && negb (IsValid raddr) then inr PInvalid
  else
    let v6 := isV6 laddr || isV6 raddr in
    let bind := IsValid laddr in
    let laddr := if bind then laddr else if v6 then unspecified6 else unspecified4 in
    if negb (newEp v6) then inr PEndpoint
    else if bind && negb (bindOk laddr) then inr PBind
    else if IsValid raddr && negb (connectOk raddr) then inr PConnect
    else inl (mkPingConn laddr (if IsValid raddr then raddr else AddrInvalid) v6 bind true [] false false false).

Definition DialPing (newEp : bool → bool) (bindOk connectOk : Addr → bool) (laddr raddr : option Addr) : PingConn + pingErr :=
  DialPingAddr newEp bindOk connectOk (default AddrInvalid laddr) (default AddrInvalid raddr).

Definition ListenPing (newEp : bool → bool) (bindOk connectOk : Addr → bool) (laddr : option Addr) : PingConn + pingErr :=
  DialPingAddr newEp bindOk connectOk (default AddrInvalid laddr) AddrInvalid.

(** The types of address a caller may pass. *)
Inductive netAddr : Type := PingAddrOf (a : Addr) | IPAddrOf (a : option Addr) | OtherAddr.
Inductive pingWrite : Type := WWrongType | WMismatch | WErr (n : nat) | WDone (n : nat).

(** [epWrite] is the endpoint's answer: the count, and whether it failed. *)
Definition WriteTo (epWrite : list Z → Addr → nat * bool) (pc : PingConn) (p : list Z) (addr : netAddr) : pingWrite :=
  let go na :=
    if negb ((isV4 na && isV4 (pc_laddr pc)) || (isV6 na && isV6 (pc_laddr pc))) then WMismatch
    else let '(n, ok) := epWrite p na in if (ok : bool) then WDone n else WErr n in
  match addr with
  | PingAddrOf a => go a
  | IPAddrOf a => go (default AddrInvalid a)
  | OtherAddr => WWrongType
  end.

Definition pingWriteConn (epWrite : list Z → Addr → nat * bool) (pc : PingConn) (p : list Z) : pingWrite :=
  WriteTo epWrite pc p (PingAddrOf (pc_raddr pc)).

Definition set_wait (q : list (list Z * Addr)) (r s t : bool) (pc : PingConn) : PingConn :=
  mkPingConn (pc_laddr pc) (pc_raddr pc) (pc_v6 pc) (pc_bound pc) (pc_open pc) q r s t.

(** A reply arrives: it is queued, and a registered reader is signalled. *)
Definition arrive (reply : list Z * Addr) (pc : PingConn) : PingConn :=
  set_wait (pc_queue pc ++ [reply]) (pc_registered pc) (pc_signal pc || pc_registered pc) (pc_deadline pc) pc.

(** The timer: [SetReadDeadline], [SetDeadline] and [Close] reset it; it fires
    when its time is up, at once for a time that is past. *)
Definition SetReadDeadline (untilPast : bool) (pc : PingConn) : PingConn :=
  set_wait (pc_queue pc) (pc_registered pc) (pc_signal pc) untilPast pc.
Definition fire (pc : PingConn) : PingConn := set_wait (pc_queue pc) (pc_registered pc) (pc_signal pc) true pc.
Definition closePing (pc : PingConn) : PingConn :=
  mkPingConn (pc_laddr pc) (pc_raddr pc) (pc_v6 pc) (pc_bound pc) false [] (pc_registered pc) (pc_signal pc) true.

(** [ReadFrom]: it registers, waits, and then reads; unregistering clears the
    entry. *)
Definition readBegin (pc : PingConn) : PingConn := set_wait (pc_queue pc) true false (pc_deadline pc) pc.

Inductive pingRead : Type := RDeadline | RError | RGot (bytes : list Z) (from : Addr).

(** The end of the wait, by the timer ([timer]) or by the signal; [None] while
    that one has not come.  The bytes are cut to the buffer. *)
Definition readEnd (timer : bool) (room : nat) (pc : PingConn) : option (PingConn * pingRead) :=
  if (timer : bool) then
    if pc_deadline pc then Some (set_wait (pc_queue pc) false false false pc, RDeadline) else None
  else if pc_signal pc then
    Some match pc_queue pc with
         | [] => (set_wait [] false false (pc_deadline pc) pc, RError)
         | (b, from) :: rest => (set_wait rest false false (pc_deadline pc) pc, RGot (take room b) from)
         end
  else None.

(** ** DNS requests *)

(** [newRequest]: [finish] is what the builder makes after the two bytes
    reserved for the length, [None] an error of its steps. *)
Definition newRequest (rand : list Z) (finish : option (list Z)) : option (Z * list Z * list Z) :=
  msg ← finish;
  let id := match rand with [lo; hi] => lo + 256 * hi | _ => 0 end in
  let l := Z.of_nat (length msg) in
  Some (id, msg, [Z.land (Z.shiftr l 8) 255; Z.land l 255] ++ msg).

(** ** Correctness *)

Definition protoOf (a : Addr) : Z := if isV4 a then protoV4 else if isV6 a then protoV6 else 0.

Lemma isV46 a : isV4 a = true → isV6 a = false.
Proof. by destruct a. Qed.

Lemma addAddresses_spec c l cfg cfg' :
  addAddresses c l cfg = Some cfg' →
  Forall (λ a, st_addAddress c a (protoOf a) = true) l ∧
  cfg' = mkTunConfig (tc_proxy cfg) (tc_addrs cfg ++ ((λ a, (a, protoOf a)) <$> l)) (tc_hasV4 cfg || existsb isV4 l)
           (tc_hasV6 cfg || existsb isV6 l) (tc_routes cfg) (tc_up cfg).
Proof.
  revert cfg. induction l as [|a l IH]; intros cfg; simpl.
  - intros [= <-]. split; [constructor|]. destruct cfg. simpl. by rewrite app_nil_r, !orb_false_r.
  - fold (protoOf a). destruct (st_addAddress c a (protoOf a)) eqn:Ea; simpl; [|done]. intros [Hl ->]%IH. simpl.
    split; [by constructor|]. rewrite <-app_assoc, <-!orb_assoc. simpl. f_equal. do 2 f_equal. by destruct a.
Qed.

(** A device that is created has every local address it was
    asked for, in order, under the protocol of its family, a default route for
    each family that has an address and no other, and has announced itself;
    an address that the stack refuses makes the creation fail. *)
Theorem create_families (c : stackCalls) (l : list Addr) (tcp udp icmp : bool) (cfg : tunConfig) :
  CreateNetTUNWithOptions c l tcp udp icmp = Some cfg →
  tc_addrs cfg = ((λ a, (a, protoOf a)) <$> l) ∧ Forall (λ a, st_addAddress c a (protoOf a) = true) l ∧
  (protoV4 ∈ tc_routes cfg ↔ ∃ a, a ∈ l ∧ isV4 a = true) ∧ (protoV6 ∈ tc_routes cfg ↔ ∃ a, a ∈ l ∧ isV6 a = true) ∧
  NoDup (tc_routes cfg) ∧ tc_up cfg = true ∧ tc_proxy cfg = tcp || udp || icmp ∧
  (tc_proxy cfg = true → handlersOk c tcp udp icmp = true ∧ Initialize c = true).
Proof.
  unfold CreateNetTUNWithOptions. intros H.
  destruct (tcp || udp || icmp) eqn:Ep; [destruct (handlersOk c tcp udp icmp) eqn:E1; [|done]|]; simpl in H;
    (destruct (st_sack c); [|done]); (destruct (st_nic c); [|done]); simpl in H;
    [destruct (Initialize c) eqn:E2; [|done]; simpl in H|]; (destruct (st_forwarding c); [|done]); simpl in H;
    destruct (addAddresses c l _) as [cfg1|] eqn:Ea; simpl in H; try done; injection H as <-;
    apply addAddresses_spec in Ea as [Hl ->]; simpl; rewrite <-!existsb_elem;
    (destruct (existsb isV4 l), (existsb isV6 l)); simpl; (split_and!; try done);
    rewrite ?elem_of_cons, ?elem_of_nil; (naive_solver || (repeat constructor; set_solver)).
Qed.

(** A dialled ping socket has a valid local address; a packet
    written to its remote address is refused as mismatched exactly when the
    two addresses are not of one family, which can only happen when both or
    only the local one were given. *)
Theorem ping_families newEp bindOk connectOk (laddr raddr : Addr) (pc : PingConn) epWrite p :
  DialPingAddr newEp bindOk connectOk laddr raddr = inl pc →
  IsValid (pc_laddr pc) = true ∧
  (pingWriteConn epWrite pc p = WMismatch ↔ pingNetwork (pc_laddr pc) ≠ pingNetwork raddr) ∧
  (IsValid laddr = false → pingNetwork (pc_laddr pc) = pingNetwork raddr).
Proof.
  unfold DialPingAddr, pingWriteConn, WriteTo, pingNetwork. destruct laddr as [|l|l z], raddr as [|r|r z']; simpl; try done;
    (destruct (newEp _); simpl; [|done]); try (destruct (bindOk _); simpl; [|done]); try (destruct (connectOk _); simpl; [|done]);
    intros [= <-]; simpl; try (destruct (epWrite p _) as [n [|]]); naive_solver.
Qed.

(** A reply that is queued before [ReadFrom] registers does
    not end its wait: until another reply comes only the deadline does, and
    when one comes the reader gets the earlier reply and leaves the new one. *)
Theorem ping_reply_missed (pc : PingConn) (reply next : list Z * Addr) (room : nat) :
  pc_queue pc = [] → pc_registered pc = false →
  let waiting := readBegin (arrive reply pc) in
  readEnd false room waiting = None ∧
  (readEnd true room (fire waiting) = Some (set_wait [reply] false false false waiting, RDeadline)) ∧
  (∃ pc', readEnd false room (arrive next waiting) = Some (pc', RGot (take room reply.1) reply.2) ∧ pc_queue pc' = [next]).
Proof.
  intros Hq Hr. unfold arrive, readBegin, fire, readEnd. simpl. rewrite Hq. simpl. split_and!; [done|done|].
  destruct reply as [b from]. eexists. by split.
Qed.

(** A reader that is registered gets the first reply that comes. *)
Lemma ping_reply_read (pc : PingConn) b from room :
  pc_queue pc = [] → ∃ pc', readEnd false room (arrive (b, from) (readBegin pc)) = Some (pc', RGot (take room b) from) ∧ pc_queue pc' = [].
Proof. intros Hq. unfold arrive, readBegin, readEnd. simpl. rewrite Hq. simpl. eexists. by split. Qed.

(** The length that the stream transport reads back is that of the request. *)
Lemma request_prefix rand msg id udp tcp :
  newRequest rand (Some msg) = Some (id, udp, tcp) → Z.of_nat (length msg) < 65536 →
  udp = msg ∧ ∃ hi lo, tcp = [hi; lo] ++ msg ∧ hi * 256 + lo = Z.of_nat (length msg).
Proof.
  unfold newRequest. cbn [mbind option_bind]. intros [= <- <- <-] Hl. split; [done|]. eexists _, _. split; [done|].
  change 255 with (Z.ones 8). rewrite !Z.land_ones, Z.shiftr_div_pow2 by lia. change (2 ^ 8) with 256.
  rewrite (Z.mod_small (_ / 256)) by (split; [apply Z.div_pos; lia|apply Z.div_lt_upper_bound; lia]).
  pose proof (Z.div_mod (Z.of_nat (length msg)) 256). lia.
Qed.

(** ** Examples *)

Module NetTunExamples.
Import ProxyExamples.

Definition handler1 : option (ProxyHandler gtable) := NewProxyHandler true true true.
Definition tun0 : netTun gtable := mkNetTun [] handler1 0 0 0 [] false [] [] [].

Fixpoint acts (l : list (tunAction gtable)) (d : netTun gtable) : option (netTun gtable) :=
  match l with
  | [] => Some d
  | a :: l' => match act a d with Ret (Some d') => acts l' d' | _ => None end
  end.

Lemma acts_reach p l d d' : tunReach p d → acts l d = Some d' → tunReach p d'.
Proof.
  revert d. induction l as [|a l IH]; intros d Hd; simpl; [by intros [= <-]|].
  destruct (act a d) as [[d1|]|] eqn:Ha; try done. apply IH. by eapply tr_step.
Qed.

Lemma new1 : newHandler handler1.
Proof. by exists true, true, true. Qed.

(** A packet of each stack and an ICMP reply, announced in another order than
    they are taken. *)
Definition trace1 : list (tunAction gtable) :=
  [AProxy [1]; AMain [2]; ANotifyMain; ANotifyMain; AIcmp [3]; ANotifyIcmp; ANotifyMain; ANotifyIcmp; ANotifyProxy; ARead 9 1].
Definition tun1 : netTun gtable := default tun0 (acts trace1 tun0).

Lemma trace1_ok : acts trace1 tun0 = Some tun1.
Proof. vm_compute. reflexivity. Qed.

Lemma device_delivers_witness :
  td_read tun1 = [[3]] ∧ td_hand tun1 = [[2]; [1]] ∧ (td_log tun1).*2 ≡ₚ td_read tun1 ++ td_hand tun1.
Proof.
  split; [reflexivity|]. split; [reflexivity|].
  destruct (device_delivers handler1 tun1 new1) as (_ & H & _); [|exact H].
  apply (acts_reach _ trace1 tun0); [constructor|exact trace1_ok].
Defined.

(** A call is between its look at the main queue and the ICMP replies. *)
Definition trace2 : list (tunAction gtable) := [AMain [2]; AMain [4]; ANotifyMain; ANotifyMain; ARead 9 1; ARead 9 0; AProxy [1]; ANotifyMain].
Definition tun2 : netTun gtable := default tun0 (acts trace2 tun0).

Lemma trace2_ok : acts trace2 tun0 = Some tun2.
Proof. vm_compute. reflexivity. Qed.

(** Two packets of one stack, read in the other order. *)
Lemma read_reorders : td_in tun2 = [[2]; [4]; [1]] ∧ td_read tun2 = [[4]; [2]].
Proof. split; reflexivity. Qed.


(** The rule's flow goes to the proxy, another packet to the main stack and
    an empty one nowhere. *)
Definition tun3 : netTun gtable := set_ph (Some (set_lookup (λ _, table1) ph0)) tun0.
Definition batch : list (list Z) := [[0; 0]; 0 :: 0 :: PacketExamples.udp_packet; [0; 0; 96; 1]].
Definition wrote : netTun gtable * list inject * option nat :=
  match Write no_dns batch 2 tun3 with Ret r => r | Panic => (tun3, [], None) end.

Lemma batch_accepted : (if Write no_dns batch 2 tun3 is Ret r then bool_decide (r.2 = Some 3%nat) else false) = true.
Proof. vm_compute. reflexivity. Qed.

Lemma wrote_ok : Write no_dns batch 2 tun3 = Ret (wrote.1.1, wrote.1.2, Some 3%nat).
Proof.
  pose proof batch_accepted as H. unfold wrote. destruct (Write no_dns batch 2 tun3) as [[[d inj] n]|]; [|done].
  apply bool_decide_eq_true in H. simpl in *. by subst.
Qed.

Lemma write_refines_witness : length wrote.1.2 = length (payloads 2 batch).
Proof. apply (write_refines no_dns batch 2 tun3 wrote.1.1 wrote.1.2 3%nat wrote_ok). Defined.

Definition calls1 : stackCalls := mkStackCalls true true true true true true true true true true (λ a _, IsValid a).
Definition addrs1 : list Addr := [Addr4 167772161; Addr4 167772162].
Definition config1 : tunConfig := default (mkTunConfig false [] false false [] false) (CreateNetTUN calls1 addrs1).

Lemma create_families_witness : protoV4 ∈ tc_routes config1 ∧ ¬ protoV6 ∈ tc_routes config1.
Proof.
  destruct (create_families calls1 addrs1 true true true config1 eq_refl) as (_ & _ & H4 & H6 & _).
  split; [apply H4; exists (Addr4 167772161); split; [left|reflexivity]|].
  intros (a & Ha & Hv)%H6. unfold addrs1 in Ha. rewrite !elem_of_cons, elem_of_nil in Ha. destruct Ha as [->|[->|[]]]; discriminate.
Defined.

Definition dialled (l r : Addr) : PingConn :=
  match DialPingAddr (λ _, true) (λ _, true) (λ _, true) l r with
  | inl pc => pc
  | inr _ => mkPingConn AddrInvalid AddrInvalid false false false [] false false false
  end.

Lemma ping_families_witness :
  pingWriteConn (λ p _, (length p, true)) (dialled (Addr4 1) (Addr6 1 "")) [8; 0] = WMismatch.
Proof.
  apply (ping_families (λ _, true) (λ _, true) (λ _, true) (Addr4 1) (Addr6 1 "")); [reflexivity|]. discriminate.
Defined.

Lemma ping_reply_missed_witness :
  readEnd false 9 (readBegin (arrive ([0; 0], Addr4 7) (dialled AddrInvalid (Addr4 7)))) = None.
Proof. apply (ping_reply_missed (dialled AddrInvalid (Addr4 7)) ([0; 0], Addr4 7) ([0; 1], Addr4 7) 9); reflexivity. Defined.

End NetTunExamples.
