(* ===== verification/Pipes.v ===== *)
(** * Copying between a netstack connection and its target
    ([netstack2/handlers.go], [browsergateway/rdp.go])

    Both directions of a proxied TCP connection are copied until they end, the
    first one to end giving the other a last delay; a proxied UDP flow is
    copied until it has been idle.  Time is explicit: what a peer sends is a
    list of arrivals with their times. *)

From S2P Require Import Prelude.

(** ** TCP *)

Definition tcpWaitTimeout : Z := 60 * Second.

(** What a connection yields: chunks with the time they can be read, and when
    reading ends (the peer closes, or a read or the write of it fails). *)
Record source : Type := mkSource { so_chunks : list (Z * list Z); so_end : Z }.

(** When the copies of the two directions end: a direction that ends sets the
    read deadline of the connection the other one reads from. *)
Definition streamEnds (up down : source) : Z * Z :=
  if so_end up <=? so_end down then (so_end up, Z.min (so_end down) (so_end up + tcpWaitTimeout))
  else (Z.min (so_end up) (so_end down + tcpWaitTimeout), so_end down).

(** [unidirectionalStreamTCP]: what is copied until [until]. *)
Definition unidirectionalStreamTCP (s : source) (until : Z) : list Z :=
  mjoin (snd <$> filter (λ c, c.1 <= until) (so_chunks s)).

(** [pipeTCP]: the bytes written to the target and to the client, and when it
    returns. *)
Definition pipeTCP (up down : source) : list Z * list Z * Z :=
  let '(eu, ed) := streamEnds up down in
  (unidirectionalStreamTCP up eu, unidirectionalStreamTCP down ed, Z.max eu ed).

(** [forward] of the gateway: the first direction to end closes both
    connections. *)
Definition forward (a b : source) : list Z * list Z * Z :=
  let e := Z.min (so_end a) (so_end b) in
  (unidirectionalStreamTCP a e, unidirectionalStreamTCP b e, e).

(** ** UDP *)

Inductive direction : Type := ToServer | ToClient.

#[global] Instance direction_eq_dec : EqDecision direction.
Proof. solve_decision. Defined.

(** The two loops of [copyPacketData]: whether each still runs and its read
    deadline; the packets written with the address they went to. *)
Record udpPipe (Addr : Type) : Type := mkPipe {
  up_server : option Z;   (* the loop that reads from the client *)
  up_client : option Z;   (* the loop that reads from the server *)
  up_sent : list (direction * list Z * Addr) }.
Arguments mkPipe {Addr}.
Arguments up_server {Addr}.
Arguments up_client {Addr}.
Arguments up_sent {Addr}.

Section UDP.
Context {Addr : Type} (serverAddr clientAddr : option Addr) (timeout : Z).

Definition udpBuffer : nat := Z.to_nat 65535.

(** A packet that arrives at [now] from [from]; [wrote] is whether writing it
    works, without which the loop ends. *)
Record arrival : Type := mkArrival { ar_time : Z; ar_dir : direction; ar_data : list Z; ar_from : Addr; ar_wrote : bool }.

Definition deadlineOf (d : direction) (p : udpPipe Addr) : option Z := match d with ToServer => up_server p | ToClient => up_client p end.

(** [None] ends a loop; a loop whose deadline is passed has ended. *)
Definition expire (now : Z) (o : option Z) : option Z := match o with Some d => if d <? now then None else Some d | None => None end.

(** One iteration of [copyPacketData]: the packet goes to the fixed address,
    or back to its sender when there is none; the deadlines of both
    connections are renewed. *)
Definition copyPacketData (p : udpPipe Addr) (a : arrival) : udpPipe Addr :=
  let now := ar_time a in
  let p := mkPipe (expire now (up_server p)) (expire now (up_client p)) (up_sent p) in
  match deadlineOf (ar_dir a) p with
  | None => p
  | Some _ =>
      if ar_wrote a then
        let to := default (ar_from a) (match ar_dir a with ToServer => serverAddr | ToClient => clientAddr end) in
        let renew (o : option Z) := match o with Some _ => Some (now + timeout) | None => None end in
        mkPipe (renew (up_server p)) (renew (up_client p)) (up_sent p ++ [(ar_dir a, take udpBuffer (ar_data a), to)])
      else match ar_dir a with
           | ToServer => mkPipe None (up_client p) (up_sent p)
           | ToClient => mkPipe (up_server p) None (up_sent p)
           end
  end.

(** [pipeUDP] from [start] over the packets that arrive. *)
Definition pipeUDP (start : Z) (l : list arrival) : udpPipe Addr :=
  foldl copyPacketData (mkPipe (Some (start + timeout)) (Some (start + timeout)) []) l.

(** The packets up to the first pause longer than the timeout. *)
Fixpoint untilIdle (last : Z) (l : list arrival) : list arrival :=
  match l with
  | [] => []
  | a :: l' => if last + timeout <? ar_time a then [] else a :: untilIdle (ar_time a) l'
  end.

Definition addressed (a : arrival) : direction * list Z * Addr :=
  (ar_dir a, take udpBuffer (ar_data a), default (ar_from a) (match ar_dir a with ToServer => serverAddr | ToClient => clientAddr end)).

Lemma pipe_dead sent l : up_sent (foldl copyPacketData (mkPipe None None sent) l) = sent.
Proof.
  induction l as [|a l IH]; [done|]. cbn [foldl].
  assert (copyPacketData (mkPipe None None sent) a = mkPipe None None sent) as ->; [|done].
  unfold copyPacketData. simpl. by destruct (ar_dir a).
Qed.

Lemma pipe_alive last sent l :
  Forall (λ a, ar_wrote a = true) l →
  up_sent (foldl copyPacketData (mkPipe (Some (last + timeout)) (Some (last + timeout)) sent) l) =
  sent ++ (addressed <$> untilIdle last l).
Proof.
  intros Hl. revert last sent. induction Hl as [|a l Ha _ IH]; intros last sent; [by rewrite app_nil_r|]. cbn [foldl untilIdle].
  destruct (last + timeout <? ar_time a) eqn:E.
  - assert (copyPacketData (mkPipe (Some (last + timeout)) (Some (last + timeout)) sent) a = mkPipe None None sent) as ->.
    { unfold copyPacketData, expire. simpl. rewrite E. by destruct (ar_dir a). }
    by rewrite pipe_dead, app_nil_r.
  - assert (copyPacketData (mkPipe (Some (last + timeout)) (Some (last + timeout)) sent) a =
            mkPipe (Some (ar_time a + timeout)) (Some (ar_time a + timeout)) (sent ++ [addressed a])) as ->.
    { unfold copyPacketData, expire. simpl. rewrite E, Ha. unfold addressed. by destruct (ar_dir a). }
    rewrite IH, fmap_cons. by rewrite <-app_assoc.
Qed.

(** While writing works, a UDP flow is copied exactly up to
    the first pause longer than the timeout, counting the packets of both
    directions: each packet of the client to the server's address and each of
    the server to the client's, in the order they came. *)
Theorem udp_until_idle (start : Z) (l : list arrival) :
  Forall (λ a, ar_wrote a = true) l → up_sent (pipeUDP start l) = addressed <$> untilIdle start l.
Proof. intros Hl. unfold pipeUDP. by rewrite pipe_alive. Qed.

End UDP.

(** ** The TCP pipe is complete *)

(** Chunks come before the end of their source. *)
Definition source_ok (s : source) : Prop := Forall (λ c, c.1 <= so_end s) (so_chunks s).
Definition bytesOf (s : source) : list Z := mjoin (snd <$> so_chunks s).

Lemma stream_complete s until : source_ok s → so_end s <= until → unidirectionalStreamTCP s until = bytesOf s.
Proof.
  intros Hs Hu. unfold unidirectionalStreamTCP, bytesOf. rewrite list_filter_all; [done|]. intros c Hc.
  unfold source_ok in Hs. rewrite Forall_forall in Hs. specialize (Hs c Hc). simpl in *. lia.
Qed.


(** The gateway's forwarding stops both directions at the first end: what the
    other side still sends is lost. *)
Lemma forward_truncates a b :
  so_end a < so_end b → (forward a b).2 = so_end a ∧ (forward a b).1.2 = unidirectionalStreamTCP b (so_end a).
Proof. intros Hab. unfold forward. cbn [fst snd]. by rewrite Z.min_l by lia. Qed.

Module PipesExamples.

(** The client closes after its request, the answer comes ten seconds later. *)
Definition request : source := mkSource [(1, [71; 69])] 2.
Definition answer : source := mkSource [(10 * Second, [79]); (11 * Second, [75])] (12 * Second).


(** The same exchange through the gateway loses the answer. *)
Lemma forward_loses : forward request answer = ([71; 69], [], 2).
Proof. reflexivity. Qed.

Definition flow : list (@arrival Z) :=
  [mkArrival 1 ToServer [1] 7 true; mkArrival 5 ToClient [2] 8 true; mkArrival 9 ToServer [3] 7 true; mkArrival 20 ToClient [4] 8 true].

Lemma udp_until_idle_witness :
  up_sent (pipeUDP (Some 8) (Some 7) 5 0 flow) = [(ToServer, [1], 8); (ToClient, [2], 7); (ToServer, [3], 8)].
Proof. rewrite (udp_until_idle (Some 8) (Some 7) 5 0 flow); [reflexivity|repeat constructor]. Defined.

End PipesExamples.
