(* ===== verification/AccessLog.v ===== *)
(** * Access sessions of the proxy ([netstack2/access_log.go])

    The [AccessLogger] keeps the sessions that are open (by id, and UDP ones
    also by address pair, both maps pointing at the same session object),
    queues the ones that ended, and sends the queue to the server after
    merging bursts of short connections ([consolidateSessions]).

    Open sessions live in a store [heap] indexed by locations because the two
    maps share them; a session that ended is no longer in [sessions], nothing
    writes to it again, and the queue holds its value.  The lock is released
    while a batch is being sent, so a flush is two steps, [flush_take] and
    [flush_settle], and other operations may run in between.  The clock, the
    random session id and the outcome of a send are arguments. *)

From S2P Require Import Prelude Netip NetipText HostPort.

Definition maxBufferedSessions : nat := 100.
Definition requeueCap : nat := maxBufferedSessions * 5.
Definition sessionGapThreshold : Z := 5 * Second.
Definition minConnectionsToConsolidate : nat := 2.

Record AccessSession : Type := mkSession {
  SessionID : string; ResourceID : Z; SourceAddr : string; DestAddr : string; Protocol : string;
  StartedAt : Z; EndedAt : Z; BytesTx : Z; BytesRx : Z; ConnectionCount : Z }.

Record udpSessionKey : Type := mkUdpSessionKey { us_src : string; us_dst : string; us_protocol : string }.

Record consolidationKey : Type := mkConsolidationKey {
  ck_sourceIP : string; ck_destAddr : string; ck_protocol : string; ck_resourceID : Z }.

#[global] Instance AccessSession_eq_dec : EqDecision AccessSession.
Proof. solve_decision. Defined.
#[global] Instance udpSessionKey_eq_dec : EqDecision udpSessionKey.
Proof. solve_decision. Defined.
#[global] Instance udpSessionKey_countable : Countable udpSessionKey.
Proof.
  by refine (inj_countable' (λ k, (us_src k, us_dst k, us_protocol k))
               (λ '(a, b, c), mkUdpSessionKey a b c) _); intros [].
Defined.
#[global] Instance consolidationKey_eq_dec : EqDecision consolidationKey.
Proof. solve_decision. Defined.
#[global] Instance consolidationKey_countable : Countable consolidationKey.
Proof.
  by refine (inj_countable' (λ k, (ck_sourceIP k, ck_destAddr k, ck_protocol k, ck_resourceID k))
               (λ '(a, b, c, d), mkConsolidationKey a b c d) _); intros [].
Defined.

Definition set_EndedAt (t : Z) (s : AccessSession) : AccessSession :=
  mkSession (SessionID s) (ResourceID s) (SourceAddr s) (DestAddr s) (Protocol s)
    (StartedAt s) t (BytesTx s) (BytesRx s) (ConnectionCount s).
Definition set_SourceAddr (a : string) (s : AccessSession) : AccessSession :=
  mkSession (SessionID s) (ResourceID s) a (DestAddr s) (Protocol s)
    (StartedAt s) (EndedAt s) (BytesTx s) (BytesRx s) (ConnectionCount s).
Definition set_ConnectionCount (n : Z) (s : AccessSession) : AccessSession :=
  mkSession (SessionID s) (ResourceID s) (SourceAddr s) (DestAddr s) (Protocol s)
    (StartedAt s) (EndedAt s) (BytesTx s) (BytesRx s) n.
Definition add_bytes (s x : AccessSession) : AccessSession :=
  mkSession (SessionID s) (ResourceID s) (SourceAddr s) (DestAddr s) (Protocol s)
    (StartedAt s) (EndedAt s) (swrap64 (BytesTx s + BytesTx x)) (swrap64 (BytesRx s + BytesRx x))
    (ConnectionCount s).

(** ** Consolidation of bursts *)

Definition extractIP (addr : string) : string :=
  match SplitHostPort addr with Some (host, _) => host | None => addr end.

Definition sessionKey (s : AccessSession) : consolidationKey :=
  mkConsolidationKey (extractIP (SourceAddr s)) (DestAddr s) (Protocol s) (ResourceID s).

Definition groupSessions (sessions : list AccessSession) : gmap consolidationKey (list AccessSession) :=
  foldl (λ m s, <[sessionKey s := default [] (m !! sessionKey s) ++ [s]]> m) ∅ sessions.

Definition startedBefore (x y : AccessSession) : bool := StartedAt x <? StartedAt y.

Definition finalizeMergedSourceAddr (s : AccessSession) (sourceIP : string) (ports : gset string) : AccessSession :=
  if Nat.ltb 1 (size ports) then set_SourceAddr sourceIP s else s.

(** The time a session counts as ended at: its start when it has no end. *)
Definition endOrStart (s : AccessSession) : Z := if IsZero (EndedAt s) then StartedAt s else EndedAt s.

(** The session being accumulated, its source addresses, and the ones done. *)
Definition mergeState : Type := list AccessSession * AccessSession * gset string.

Definition mergeInto (cur s : AccessSession) : AccessSession :=
  let c := add_bytes (set_ConnectionCount (swrap64 (ConnectionCount cur + 1)) cur) s in
  if EndedAt c <? endOrStart s then set_EndedAt (endOrStart s) c else c.

Definition mergeStep (sourceIP : string) (st : mergeState) (s : AccessSession) : mergeState :=
  let '(merged, cur, ports) := st in
  if timeSub (StartedAt s) (endOrStart cur) <=? sessionGapThreshold then
    (merged, mergeInto cur s, {[SourceAddr s]} ∪ ports)
  else
    (merged ++ [finalizeMergedSourceAddr cur sourceIP ports],
     set_ConnectionCount 1 s, {[SourceAddr s]}).

Section consolidate.
Context `{MapRange, SortSlice}.

Definition consolidateGroup (key : consolidationKey) (group : list AccessSession) : list AccessSession :=
  if Nat.ltb (length group) minConnectionsToConsolidate then group
  else
    match sort_slice startedBefore group with
    | [] => []
    | g0 :: rest =>
        let '(merged, cur, ports) :=
          foldl (mergeStep (ck_sourceIP key)) ([], set_ConnectionCount 1 g0, {[SourceAddr g0]}) rest in
        merged ++ [finalizeMergedSourceAddr cur (ck_sourceIP key) ports]
    end.

Definition consolidateSessions (sessions : list AccessSession) : list AccessSession :=
  if Nat.leb (length sessions) 1 then sessions
  else foldl (λ result '(key, group), result ++ consolidateGroup key group) []
         (range_map (groupSessions sessions)).

End consolidate.

(** ** The logger *)

Definition loc : Type := nat.

Record AccessLogger : Type := mkAccessLogger {
  heap : gmap loc AccessSession;
  sessions : gmap string loc;
  udpSessions : gmap udpSessionKey loc;
  completedSessions : list AccessSession;
  hasSendFn : bool;
  stopped : bool }.

Definition NewAccessLogger : AccessLogger := mkAccessLogger ∅ ∅ ∅ [] false false.

Definition SetSendFunc (al : AccessLogger) (configured : bool) : AccessLogger :=
  mkAccessLogger (heap al) (sessions al) (udpSessions al) (completedSessions al) configured (stopped al).

Definition set_active (h : gmap loc AccessSession) (ss : gmap string loc) (us : gmap udpSessionKey loc)
    (al : AccessLogger) : AccessLogger :=
  mkAccessLogger h ss us (completedSessions al) (hasSendFn al) (stopped al).
Definition set_completed (l : list AccessSession) (al : AccessLogger) : AccessLogger :=
  mkAccessLogger (heap al) (sessions al) (udpSessions al) l (hasSendFn al) (stopped al).

Definition newSession (sid : string) (resourceID : Z) (src dst proto : string) (now : Z) : AccessSession :=
  mkSession sid resourceID src dst proto now 0 0 0 0.

Definition StartTCPSession (al : AccessLogger) (sid : string) (now resourceID : Z) (src dst : string)
    : AccessLogger * string :=
  let l := fresh (dom (heap al)) in
  (set_active (<[l := newSession sid resourceID src dst "tcp" now]> (heap al))
     (<[sid := l]> (sessions al)) (udpSessions al) al, sid).

Definition udpKey (src dst : string) : udpSessionKey := mkUdpSessionKey src dst "udp".

Definition TrackUDPSession (al : AccessLogger) (sid : string) (now resourceID : Z) (src dst : string)
    : go (AccessLogger * string) :=
  match udpSessions al !! udpKey src dst with
  | Some l => existing ← or_panic (heap al !! l); Ret (al, SessionID existing)
  | None =>
      let l := fresh (dom (heap al)) in
      Ret (set_active (<[l := newSession sid resourceID src dst "udp" now]> (heap al))
             (<[sid := l]> (sessions al)) (<[udpKey src dst := l]> (udpSessions al)) al, sid)
  end.

(** The part of a flush that runs before the send, under the lock. *)
Definition flush_take (al : AccessLogger) : option (list AccessSession * bool) * AccessLogger :=
  match completedSessions al with
  | [] => (None, al)
  | batch => (Some (batch, hasSendFn al), set_completed [] al)
  end.

Definition requeue (batch : list AccessSession) (al : AccessLogger) : AccessLogger :=
  set_completed (take requeueCap (batch ++ completedSessions al)) al.

Section logger.
Context `{MapRange, SortSlice}.
(** [compressSessions]: JSON, zlib and base64, [None] when one of them fails. *)
Context (compressSessions : list AccessSession → option string).

(** What the rest of a flush does with the batch it took: nothing sent, or
    the payload sent and the error the send function returned. *)
Inductive flushOutcome : Type :=
  | NothingSent
  | SendSucceeded (payload : string)
  | SendFailed (payload : string).

Definition flush_settle (batch : list AccessSession) (configured sendOk : bool) (al : AccessLogger)
    : AccessLogger * flushOutcome :=
  if negb configured then (al, NothingSent)
  else
    let batch' := consolidateSessions batch in
    match compressSessions batch' with
    | None => (al, NothingSent)
    | Some payload =>
        if sendOk then (al, SendSucceeded payload) else (requeue batch' al, SendFailed payload)
    end.

(** A flush that nothing interrupts. *)
Definition flush (sendOk : bool) (al : AccessLogger) : AccessLogger * flushOutcome :=
  match flush_take al with
  | (None, al') => (al', NothingSent)
  | (Some (batch, configured), al') => flush_settle batch configured sendOk al'
  end.

Definition maybeFlush (sendOk : bool) (al : AccessLogger) : AccessLogger * flushOutcome :=
  if Nat.leb maxBufferedSessions (length (completedSessions al)) then flush sendOk al else (al, NothingSent).

(** The locked part of [EndTCPSession]. *)
Definition endTCP (al : AccessLogger) (now : Z) (sid : string) : go AccessLogger :=
  match sessions al !! sid with
  | Some l =>
      session ← or_panic (heap al !! l);
      let session' := set_EndedAt now session in
      Ret (set_completed (completedSessions al ++ [session'])
             (set_active (<[l := session']> (heap al)) (delete sid (sessions al)) (udpSessions al) al))
  | None => Ret al
  end.

(** The locked part of [EndUDPSession]. *)
Definition endUDP (al : AccessLogger) (now : Z) (sid : string) : go AccessLogger :=
  match sessions al !! sid with
  | Some l =>
      session ← or_panic (heap al !! l);
      let session' := set_EndedAt now session in
      Ret (set_completed (completedSessions al ++ [session'])
             (set_active (<[l := session']> (heap al)) (delete sid (sessions al))
                (delete (udpKey (SourceAddr session) (DestAddr session)) (udpSessions al)) al))
  | None => Ret al
  end.

Definition EndTCPSession (al : AccessLogger) (now : Z) (sid : string) (sendOk : bool)
    : go (AccessLogger * flushOutcome) :=
  al' ← endTCP al now sid; Ret (maybeFlush sendOk al').

Definition EndUDPSession (al : AccessLogger) (now : Z) (sid : string) (sendOk : bool)
    : go (AccessLogger * flushOutcome) :=
  al' ← endUDP al now sid; Ret (maybeFlush sendOk al').

(** One iteration of the reaping loop. *)
Definition reapOne (now : Z) (acc : go AccessLogger) (e : udpSessionKey * loc) : go AccessLogger :=
  al ← acc;
  session ← or_panic (heap al !! e.2);
  if (StartedAt session <? now - 5 * Minute) && IsZero (EndedAt session) then
    let session' := set_EndedAt now session in
    Ret (set_completed (completedSessions al ++ [session'])
           (set_active (<[e.2 := session']> (heap al)) (delete (SessionID session) (sessions al))
              (delete e.1 (udpSessions al)) al))
  else Ret al.

Definition reapStaleSessions (now : Z) (al : AccessLogger) : go AccessLogger :=
  foldl (reapOne now) (Ret al) (range_map (udpSessions al)).

(** One iteration of the loop of [Close] that ends what is still open. *)
Definition closeOne (now : Z) (acc : go AccessLogger) (e : string * loc) : go AccessLogger :=
  al ← acc;
  session ← or_panic (heap al !! e.2);
  if IsZero (EndedAt session) then
    let session' := set_EndedAt now session in
    Ret (set_completed (completedSessions al ++ [session'])
           (set_active (<[e.2 := session']> (heap al)) (sessions al) (udpSessions al) al))
  else Ret al.

(** [Close] up to its final flush; a second call returns at once. *)
Definition closeActive (now : Z) (al : AccessLogger) : go AccessLogger :=
  al' ← foldl (closeOne now) (Ret al) (range_map (sessions al));
  Ret (mkAccessLogger (heap al') ∅ ∅ (completedSessions al') (hasSendFn al') true).

Definition Close (al : AccessLogger) (now : Z) (sendOk : bool) : go (AccessLogger * flushOutcome) :=
  if stopped al then Ret (al, NothingSent)
  else al' ← closeActive now al; Ret (flush sendOk al').

End logger.

(** ** Consolidation, specified *)

(** A session that ended at a real instant. *)
Definition ended (s : AccessSession) : Prop := 0 < EndedAt s.

(** A run: the sessions merged into one entry, earliest first. *)
Definition run : Type := AccessSession * list AccessSession.
Definition members (r : run) : list AccessSession := r.1 :: r.2.

(** The latest end of a run. *)
Definition runEnd (r : run) : Z := foldl (λ e s, Z.max e (endOrStart s)) (EndedAt r.1) r.2.
Definition runAddrs (r : run) : gset string := list_to_set (SourceAddr <$> members r).

(** The entry of a run: identity and start of its first session, latest end,
    sums of bytes, number of connections, and the bare source address when
    the connections came from different ports. *)
Definition entryOf (sourceIP : string) (r : run) : AccessSession :=
  mkSession (SessionID r.1) (ResourceID r.1)
    (if bool_decide (Forall (λ s, SourceAddr s = SourceAddr r.1) r.2) then SourceAddr r.1 else sourceIP)
    (DestAddr r.1) (Protocol r.1) (StartedAt r.1) (runEnd r)
    (foldl (λ b s, swrap64 (b + BytesTx s)) (BytesTx r.1) r.2)
    (foldl (λ b s, swrap64 (b + BytesRx s)) (BytesRx r.1) r.2)
    (swrap64 (Z.of_nat (length (members r)))).

(** Every member has the key of the first, and starts at most five seconds
    after the latest end of those before it. *)
Definition cohesive (r : run) : Prop :=
  (∀ s, s ∈ members r → sessionKey s = sessionKey r.1) ∧
  (∀ pre s post, r.2 = pre ++ s :: post → StartedAt s <= runEnd (r.1, pre) + sessionGapThreshold) ∧
  StronglySorted (λ x y, StartedAt x <= StartedAt y) (members r).

(** Every session of [r2] starts more than five seconds after [r1] is over. *)
Definition separated (r1 r2 : run) : Prop :=
  ∀ s, s ∈ members r2 → runEnd r1 + sessionGapThreshold < StartedAt s.

(** A connection alone in its group is passed through as it is. *)
Definition summarises (r : run) (out : AccessSession) : Prop :=
  (r.2 = [] ∧ out = r.1) ∨ out = entryOf (extractIP (SourceAddr r.1)) r.

(** Reference definition: cut a start-ordered list at the gaps. *)
Fixpoint runsFrom (r : run) (l : list AccessSession) : list run :=
  match l with
  | [] => [r]
  | s :: l' => if StartedAt s <=? runEnd r + sessionGapThreshold then runsFrom (r.1, r.2 ++ [s]) l'
               else r :: runsFrom (s, []) l'
  end.

(** ** Lemmas on runs *)

Lemma runEnd_snoc r s : runEnd (r.1, r.2 ++ [s]) = Z.max (runEnd r) (endOrStart s).
Proof. unfold runEnd. simpl. by rewrite foldl_app. Qed.

Lemma runEnd_pos r : Forall ended (members r) → 0 < runEnd r.
Proof.
  destruct r as [s0 rest]. unfold runEnd, members. simpl. intros [H0 _]%Forall_cons.
  unfold ended in H0. revert H0. generalize (EndedAt s0) as e. induction rest as [|s rest IH]; intros e He; simpl; [done|].
  apply IH. lia.
Qed.

(** The accumulated session before its source address is settled. *)
Definition rawEntry (r : run) : AccessSession := set_SourceAddr (SourceAddr r.1) (entryOf "" r).

Lemma rawEntry_single s : rawEntry (s, []) = set_ConnectionCount 1 s.
Proof. by destruct s. Qed.

Lemma mergeInto_raw r s : mergeInto (rawEntry r) s = rawEntry (r.1, r.2 ++ [s]).
Proof.
  unfold mergeInto, rawEntry, entryOf, add_bytes, set_SourceAddr, set_ConnectionCount. simpl.
  rewrite runEnd_snoc, !foldl_app. simpl.
  rewrite swrap64_add_l, length_app. simpl.
  replace (Z.of_nat (S (length r.2 + 1))) with (Z.of_nat (S (length r.2)) + 1) by lia.
  destruct (runEnd r <? endOrStart s) eqn:E; unfold set_EndedAt; simpl; f_equal; lia.
Qed.

Lemma size_addrs_le1 r :
  Nat.ltb 1 (size (runAddrs r)) = negb (bool_decide (Forall (λ s, SourceAddr s = SourceAddr r.1) r.2)).
Proof.
  assert (SourceAddr r.1 ∈ runAddrs r) as H0 by (unfold runAddrs, members; set_solver).
  destruct (bool_decide _) eqn:E; [apply bool_decide_eq_true in E|apply bool_decide_eq_false in E];
    rewrite Forall_forall in E.
  - assert (runAddrs r = {[SourceAddr r.1]}) as ->; [|by rewrite size_singleton].
    apply set_eq. intros a. unfold runAddrs, members. rewrite elem_of_list_to_set, list_elem_of_fmap. set_solver.
  - apply Nat.ltb_lt, Nat.lt_nge. intros Hs. apply E. intros s Hs'.
    apply (size_singleton_inv (runAddrs r)); [|unfold runAddrs, members; set_solver|done].
    assert (size (runAddrs r) ≠ 0%nat) by (rewrite size_non_empty_iff; set_solver). lia.
Qed.

Lemma finalize_raw ip r : finalizeMergedSourceAddr (rawEntry r) ip (runAddrs r) = entryOf ip r.
Proof.
  unfold finalizeMergedSourceAddr. rewrite size_addrs_le1. unfold entryOf, rawEntry, set_SourceAddr.
  by destruct (bool_decide _).
Qed.

Lemma endOrStart_raw r : Forall ended (members r) → endOrStart (rawEntry r) = runEnd r.
Proof.
  intros Hr%runEnd_pos. unfold endOrStart, rawEntry, IsZero. simpl.
  destruct (Z.eqb_spec (runEnd r) 0); [lia|done].
Qed.

(** The merging loop computes the entries of the reference runs. *)
Lemma merge_runs ip l merged r :
  Forall ended (members r) → Forall ended l →
  (let '(m, cur, ports) := foldl (mergeStep ip) (merged, rawEntry r, runAddrs r) l in
   m ++ [finalizeMergedSourceAddr cur ip ports]) = merged ++ (entryOf ip <$> runsFrom r l).
Proof.
  revert merged r. induction l as [|s l IH]; intros merged r Hr Hl; simpl.
  - by rewrite finalize_raw.
  - apply Forall_cons in Hl as [Hs Hl]. rewrite endOrStart_raw by done.
    assert ((timeSub (StartedAt s) (runEnd r) <=? sessionGapThreshold) =
            (StartedAt s <=? runEnd r + sessionGapThreshold)) as ->.
    { apply eq_bool_prop_intro. rewrite !Is_true_true, !Z.leb_le, timeSub_le;
        unfold sessionGapThreshold, Second; lia. }
    destruct (StartedAt s <=? _).
    + rewrite mergeInto_raw. replace ({[SourceAddr s]} ∪ runAddrs r) with (runAddrs (r.1, r.2 ++ [s])).
      * apply IH; [|done]. unfold members in *. simpl. apply Forall_cons in Hr as [? ?].
        apply Forall_cons. split; [done|]. apply Forall_app. by split; [|apply Forall_singleton].
      * unfold runAddrs, members. simpl. rewrite fmap_app, list_to_set_app_L. simpl. set_solver.
    + rewrite finalize_raw. rewrite <- rawEntry_single.
      replace ({[SourceAddr s]} : gset string) with (runAddrs (s, [])) by (unfold runAddrs; set_solver).
      rewrite IH; [|by apply Forall_singleton|done]. by rewrite <- app_assoc.
Qed.

Lemma runsFrom_concat r l : concat (members <$> runsFrom r l) = members r ++ l.
Proof.
  revert r. induction l as [|s l IH]; intros r; simpl; [done|].
  destruct (StartedAt s <=? _); simpl; rewrite IH; unfold members; simpl; [|done].
  by rewrite <- app_assoc.
Qed.

Lemma runsFrom_cohesive r l :
  cohesive r → (∀ s, s ∈ l → sessionKey s = sessionKey r.1) →
  StronglySorted (λ x y, StartedAt x <= StartedAt y) (members r ++ l) →
  Forall cohesive (runsFrom r l).
Proof.
  revert r. induction l as [|s l IH]; intros r Hr Hk Hs; simpl; [by apply Forall_singleton|].
  destruct (Z.leb_spec (StartedAt s) (runEnd r + sessionGapThreshold)) as [Hle|Hgt].
  - apply IH; simpl; [|set_solver|unfold members in *; simpl in *; by rewrite <- app_assoc].
    destruct Hr as (Hr1 & Hr2 & Hr3). split_and!.
    + unfold members in *. simpl. set_solver.
    + simpl. intros pre x post Heq. destruct post as [|y post _] using rev_ind.
      * apply app_inj_tail in Heq as [<- <-]. by destruct r.
      * rewrite app_comm_cons, app_assoc in Heq. apply app_inj_tail in Heq as [Heq <-]. eauto.
    + change (members (r.1, r.2 ++ [s])) with (members r ++ [s]).
      replace (members r ++ s :: l) with ((members r ++ [s]) ++ l) in Hs by by rewrite <- app_assoc.
      by apply StronglySorted_app_1_l in Hs.
  - apply Forall_cons. split; [done|]. apply StronglySorted_app_1_r in Hs as Hs2. apply IH; simpl.
    + split_and!; unfold members; simpl; [set_solver|by intros []|repeat constructor].
    + intros x Hx. rewrite (Hk x), (Hk s); set_solver.
    + done.
Qed.

Lemma runsFrom_separated r l :
  StronglySorted (λ x y, StartedAt x <= StartedAt y) l → StronglySorted separated (runsFrom r l).
Proof.
  revert r. induction l as [|s l IH]; intros r Hs; simpl; [repeat constructor|].
  apply StronglySorted_inv in Hs as [Hs Hall].
  destruct (Z.leb_spec (StartedAt s) (runEnd r + sessionGapThreshold)) as [Hle|Hgt]; [by apply IH|].
  constructor; [by apply IH|]. apply Forall_forall. intros r' Hr' x Hx.
  assert (x ∈ s :: l) as Hx'.
  { change (s :: l) with (members (s, []) ++ l). rewrite <- runsFrom_concat.
    apply elem_of_concat. exists (members r'). split; [by apply list_elem_of_fmap_2|done]. }
  apply elem_of_cons in Hx' as [->|Hx']; [lia|]. rewrite Forall_forall in Hall.
  specialize (Hall x Hx'). simpl in Hall. lia.
Qed.

(** ** Lemmas on groups *)

Lemma groupSessions_lookup l k :
  groupSessions l !! k =
  match filter (λ s, sessionKey s = k) l with [] => None | g => Some g end.
Proof.
  unfold groupSessions. induction l as [|s l IH] using rev_ind; [done|].
  rewrite foldl_snoc, filter_app. simpl. destruct (decide (sessionKey s = k)) as [Hk|Hk].
  - rewrite filter_cons_True by done. simpl. subst k. rewrite lookup_insert_eq.
    destruct (filter _ l) eqn:E; rewrite IH; simpl; [done|]. by destruct (_ ++ _).
  - rewrite filter_cons_False by done. simpl. rewrite lookup_insert_ne by done.
    by rewrite app_nil_r.
Qed.

(** The groups are the fibres of the key, each entry non-empty. *)
Lemma groupSessions_fibre l k g :
  groupSessions l !! k = Some g → g = filter (λ s, sessionKey s = k) l ∧ g ≠ [].
Proof. rewrite groupSessions_lookup. destruct (filter _ l) eqn:E; [done|]. by intros [= <-]. Qed.

Lemma groups_partition `{MapRange} l : concat (range_map (groupSessions l)).*2 ≡ₚ l.
Proof.
  rewrite <- (group_partition sessionKey (range_map (groupSessions l)).*1 l) at 2.
  - apply reflexive_eq. f_equal. rewrite <- list_fmap_compose. apply list_fmap_ext.
    intros i [k g] Hi. apply list_elem_of_lookup_2, range_map_elem, groupSessions_fibre in Hi. simpl. tauto.
  - apply range_map_NoDup.
  - intros s Hs. apply list_elem_of_fmap.
    destruct (groupSessions l !! sessionKey s) as [g|] eqn:E.
    + exists (sessionKey s, g). split; [done|]. by apply range_map_elem.
    + rewrite groupSessions_lookup in E. destruct (filter _ l) eqn:Ef; [|done].
      assert (s ∈ filter (λ s', sessionKey s' = sessionKey s) l) as Hin by by apply list_elem_of_filter.
      rewrite Ef in Hin. by apply elem_of_nil in Hin.
Qed.

Section consolidate_lemmas.
Context `{MapRange, SortSlice}.

Lemma sort_started l : StronglySorted (λ x y, StartedAt x <= StartedAt y) (sort_slice startedBefore l).
Proof.
  assert (∀ x y, not_less startedBefore x y ↔ StartedAt x <= StartedAt y) as Heq.
  { intros x y. unfold not_less, startedBefore. rewrite Z.ltb_ge. done. }
  eapply StronglySorted_impl; [intros x y; apply Heq|]. apply sort_slice_sorted.
  - intros x y z. rewrite !Heq. lia.
  - intros x y. rewrite !Heq. lia.
Qed.

(** The runs a group is cut into. *)
Definition group_runs_ok (k : consolidationKey) (g out : list AccessSession) (runs : list run) : Prop :=
  concat (members <$> runs) ≡ₚ g ∧ Forall2 summarises runs out ∧ Forall cohesive runs ∧
  StronglySorted separated runs ∧ ∀ r, r ∈ runs → sessionKey r.1 = k.

Lemma consolidateGroup_runs k g :
  g ≠ [] → (∀ s, s ∈ g → sessionKey s = k) → Forall ended g →
  ∃ runs, group_runs_ok k g (consolidateGroup k g) runs.
Proof.
  intros Hne Hk He. unfold consolidateGroup, minConnectionsToConsolidate.
  destruct (Nat.ltb_spec (length g) 2) as [Hlt|Hge].
  - destruct g as [|s [|]]; simpl in Hlt; [done| |lia]. exists [(s, [])]. split_and!; simpl; [done| | | |].
    + repeat constructor.
    + apply Forall_singleton. split_and!; unfold members; simpl; [set_solver|by intros []|repeat constructor].
    + repeat constructor.
    + set_solver.
  - pose proof (sort_slice_perm startedBefore g) as Hp. pose proof (sort_started g) as Hs.
    destruct (sort_slice startedBefore g) as [|g0 rest].
    { apply Permutation_nil_l in Hp. by subst. }
    assert (∀ s, s ∈ g0 :: rest → sessionKey s = k) as Hk' by (intros s; rewrite Hp; apply Hk).
    assert (Forall ended (g0 :: rest)) as He' by by rewrite Hp.
    apply Forall_cons in He' as [Hg0 Hrest]. exists (runsFrom (g0, []) rest).
    rewrite <- rawEntry_single.
    replace ({[SourceAddr g0]} : gset string) with (runAddrs (g0, [])) by (unfold runAddrs; set_solver).
    rewrite merge_runs; [|by apply Forall_singleton|done].
    assert (Forall cohesive (runsFrom (g0, []) rest)) as Hc.
    { apply runsFrom_cohesive; [|intros s Hin; rewrite !Hk'; set_solver|done].
      split_and!; unfold members; simpl; [set_solver|by intros []|repeat constructor]. }
    assert (∀ r, r ∈ runsFrom (g0, []) rest → sessionKey r.1 = k) as Hrk.
    { intros r Hr. apply Hk'. change (g0 :: rest) with (members (g0, []) ++ rest).
      rewrite <- runsFrom_concat. apply elem_of_concat. exists (members r).
      split; [by apply list_elem_of_fmap_2|]. unfold members. set_solver. }
    split_and!; [by rewrite runsFrom_concat| |done| |done].
    + simpl. apply Forall2_fmap_r, Forall2_same_length_lookup. split; [done|].
      intros i x y Hx Hy. rewrite Hx in Hy. simplify_eq. right. f_equal.
      apply list_elem_of_lookup_2, Hrk in Hx. by rewrite <- Hx.
    + apply runsFrom_separated. by apply StronglySorted_inv in Hs as [? _].
Qed.

(** Runs of the same key never overlap or touch. *)
Definition separated_same_key (r1 r2 : run) : Prop :=
  sessionKey r1.1 = sessionKey r2.1 → separated r1 r2.

(** All that consolidation guarantees of its output. *)
Definition consolidation_of (sessions out : list AccessSession) (runs : list run) : Prop :=
  concat (members <$> runs) ≡ₚ sessions ∧ Forall2 summarises runs out ∧
  Forall cohesive runs ∧ StronglySorted separated_same_key runs.

Lemma consolidate_groups (l : list (consolidationKey * list AccessSession)) :
  NoDup l.*1 → (∀ k g, (k, g) ∈ l → g ≠ [] ∧ (∀ s, s ∈ g → sessionKey s = k) ∧ Forall ended g) →
  ∃ runs, consolidation_of (concat l.*2) (concat ((λ e, consolidateGroup e.1 e.2) <$> l)) runs ∧
          ∀ r, r ∈ runs → sessionKey r.1 ∈ l.*1.
Proof.
  induction l as [|[k g] l IH]; intros Hnd Hl.
  - exists []. split; [|set_solver]. split_and!; simpl; constructor.
  - simpl in Hnd. apply NoDup_cons in Hnd as [Hk Hnd].
    destruct IH as (runs & (Hp & Hsum & Hc & Hsep) & Hkeys); [done|set_solver|].
    destruct (Hl k g (list_elem_of_here _ _)) as (Hne & Hgk & He).
    destruct (consolidateGroup_runs k g Hne Hgk He) as (rs & Hp' & Hsum' & Hc' & Hsep' & Hrk).
    exists (rs ++ runs). split; [split_and!; simpl|].
    + by rewrite fmap_app, concat_app, Hp, Hp'.
    + by apply Forall2_app.
    + by apply Forall_app.
    + apply StronglySorted_app_2; [| |done].
      * intros x y Hx Hy Hxy. exfalso. apply Hk. rewrite <- (Hrk x Hx), Hxy. by apply Hkeys.
      * eapply StronglySorted_impl; [|done]. by intros x y Hxy _.
    + intros r [Hr|Hr]%elem_of_app; simpl; [rewrite (Hrk r Hr)|]; set_solver.
Qed.

Lemma foldl_concat {A B} (f : A → list B) (l : list A) acc :
  foldl (λ result x, result ++ f x) acc l = acc ++ concat (f <$> l).
Proof.
  revert acc. induction l as [|x l IH]; intros acc; simpl; [by rewrite app_nil_r|].
  by rewrite IH, <- app_assoc.
Qed.

Lemma consolidateSessions_runs l :
  Forall ended l → ∃ runs, consolidation_of l (consolidateSessions l) runs.
Proof.
  intros He. unfold consolidateSessions. destruct (Nat.leb_spec (length l) 1) as [Hle|Hgt].
  - exists ((λ s, (s, [])) <$> l). destruct l as [|s [|]]; simpl in Hle; [| |lia].
    + split_and!; constructor.
    + split_and!; simpl; [done|repeat constructor| |repeat constructor].
      apply Forall_singleton. split_and!; unfold members; simpl; [set_solver|by intros []|repeat constructor].
  - destruct (consolidate_groups (range_map (groupSessions l))) as (runs & (Hp & Hrest) & _).
    + apply range_map_NoDup.
    + intros k g Hin%range_map_elem. apply groupSessions_fibre in Hin as [-> Hne]. split_and!; [done| |].
      * intros s Hs. by apply list_elem_of_filter in Hs as [? _].
      * rewrite Forall_forall in *. intros s [_ Hs]%list_elem_of_filter. auto.
    + exists runs. split; [by rewrite Hp, groups_partition|].
      assert (∀ (l : list (consolidationKey * list AccessSession)) acc,
        foldl (λ result '(key, group), result ++ consolidateGroup key group) acc l =
        foldl (λ result e, result ++ consolidateGroup e.1 e.2) acc l) as ->.
      { clear. intros l. induction l as [|[k g] l IH]; intros acc; simpl; [done|]. apply IH. }
      by rewrite foldl_concat.
Qed.

End consolidate_lemmas.

(** ** Conservation *)

(** Raw connections an entry stands for (0 and 1 both mean one). *)
Definition conns (s : AccessSession) : Z := Z.max 1 (ConnectionCount s).

Lemma zsum_Forall2 {A B} (P : A → B → Prop) (f : A → Z) (g : B → Z) l k :
  (∀ x y, P x y → f x = g y) → Forall2 P l k → zsum f l = zsum g k.
Proof. intros HP. induction 1 as [|x y l k Hxy Hlk IH]; simpl; [done|]. by rewrite IH, (HP x y). Qed.

Lemma zsum_mod_Forall2 {A B} (P : A → B → Prop) (f : A → Z) (g : B → Z) m l k :
  (∀ x y, P x y → f x mod m = g y mod m) → Forall2 P l k → zsum f l mod m = zsum g k mod m.
Proof.
  intros HP. induction 1 as [|x y l k Hxy Hlk IH]; simpl; [done|].
  by rewrite Zplus_mod, IH, (HP x y), <- Zplus_mod.
Qed.

Lemma summarises_bytes r out :
  summarises r out →
  zsum BytesTx (members r) mod 2 ^ 64 = BytesTx out mod 2 ^ 64 ∧
  zsum BytesRx (members r) mod 2 ^ 64 = BytesRx out mod 2 ^ 64.
Proof.
  unfold members. intros [[Hr ->]| ->]; simpl.
  - rewrite Hr. simpl. split; f_equal; lia.
  - by rewrite !foldl_swrap64.
Qed.

Lemma summarises_conns r out :
  Forall (λ s, ConnectionCount s = 0) (members r) → Z.of_nat (length (members r)) < 2 ^ 63 →
  summarises r out → Z.of_nat (length (members r)) = conns out.
Proof.
  intros Hraw Hlen [[Hr ->]| ->]; unfold conns.
  - unfold members in *. rewrite Hr in *. apply Forall_cons in Hraw as [-> _]. simpl. lia.
  - unfold entryOf, members in *. cbn [ConnectionCount fst snd length] in *. rewrite swrap64_id; lia.
Qed.

Lemma runs_length (runs : list run) :
  Z.of_nat (length (concat (members <$> runs))) = zsum (λ r, Z.of_nat (length (members r))) runs.
Proof. induction runs as [|r runs IH]; [done|]. cbn [fmap list_fmap concat zsum foldr]. rewrite length_app, Nat2Z.inj_add, IH. done. Qed.

Section conservation.
Context `{MapRange, SortSlice}.

(** Two entries of one key and no more than the threshold apart become one
    entry that counts two connections, whatever they counted before. *)
Lemma consolidate_pair x y :
  ended x → ended y → sessionKey x = sessionKey y →
  StartedAt x <= StartedAt y <= EndedAt y → StartedAt y <= EndedAt x + sessionGapThreshold →
  ∃ e, consolidateSessions [x; y] = [e] ∧ ConnectionCount e = 2 ∧
       (e = entryOf (extractIP (SourceAddr x)) (x, [y]) ∨
        StartedAt x = StartedAt y ∧ e = entryOf (extractIP (SourceAddr y)) (y, [x])).
Proof.
  intros Hx Hy Hk Hst Hgap.
  destruct (consolidateSessions_runs [x; y]) as (runs & Hp & Hsum & Hc & Hsep); [by repeat constructor|].
  assert (zsum (λ r : run, 1 + Z.of_nat (length r.2)) runs = 2) as Hlen.
  { trans (zsum (λ r, Z.of_nat (length (members r))) runs).
    - clear. induction runs as [|r runs IH]; [done|]. simpl. rewrite IH. unfold members. simpl. lia.
    - by rewrite <- runs_length, Hp. }
  assert (∀ rs : list run, zsum (λ r : run, 1 + Z.of_nat (length r.2)) rs <= 0 → rs = []) as Hnil.
  { intros [|r rs]; [done|]. simpl. intros Hz. exfalso.
    assert (0 <= zsum (λ r : run, 1 + Z.of_nat (length r.2)) rs) by (apply zsum_nonneg; lia). lia. }
  destruct runs as [|[a [|b rest]] runs]; [done| |].
  - exfalso. destruct runs as [|[b rest] runs]; [done|]. simpl in Hlen.
    assert (runs = []) as ->.
    { apply Hnil. lia. }
    assert (rest = []) as -> by (destruct rest; simpl in Hlen; [done|lia]).
    apply StronglySorted_inv in Hsep as [_ Hsep]. apply Forall_cons in Hsep as [Hsep _].
    unfold separated_same_key, separated, runEnd, members, sessionGapThreshold, Second in *. simpl in *.
    apply Permutation_length_2_inv in Hp as [[= <- <-]|[= <- <-]].
    + specialize (Hsep Hk y (list_elem_of_here _ _)). lia.
    + specialize (Hsep (eq_sym Hk) x (list_elem_of_here _ _)). lia.
  - simpl in Hlen. assert (runs = []) as -> by (apply Hnil; lia).
    assert (rest = []) as -> by (destruct rest; simpl in Hlen; [done|lia]).
    inversion Hsum as [|? e ? out He Hout]; subst. inversion Hout; subst.
    destruct He as [[[=] _]| ->]. exists (entryOf (extractIP (SourceAddr a)) (a, [b])).
    split_and!; [done|done|]. unfold members in Hp. simpl in Hp.
    apply Permutation_length_2_inv in Hp as [[= <- <-]|[= <- <-]]; [by left|right].
    apply Forall_cons in Hc as [(_ & _ & Hs) _]. apply StronglySorted_inv in Hs as [_ Hs].
    apply Forall_cons in Hs as [Hs _]. simpl in Hs. split; [lia|done].
Qed.

End conservation.

(** ** The logger's invariant *)

Record logger_wf (al : AccessLogger) : Prop := {
  wf_active : ∀ sid l, sessions al !! sid = Some l →
    ∃ s, heap al !! l = Some s ∧ SessionID s = sid ∧ EndedAt s = 0;
  wf_udp : ∀ k l, udpSessions al !! k = Some l →
    ∃ s, heap al !! l = Some s ∧ Protocol s = "udp"%string ∧ k = udpKey (SourceAddr s) (DestAddr s) ∧
         sessions al !! SessionID s = Some l;
  wf_indexed : ∀ sid l s, sessions al !! sid = Some l → heap al !! l = Some s → Protocol s = "udp"%string →
    udpSessions al !! udpKey (SourceAddr s) (DestAddr s) = Some l;
  wf_completed : Forall ended (completedSessions al) }.

Lemma wf_new : logger_wf NewAccessLogger.
Proof. split; simpl; intros; simplify_map_eq; done. Qed.

Lemma wf_set_completed al l : logger_wf al → Forall ended l → logger_wf (set_completed l al).
Proof. intros [? ? ? ?] ?. by split. Qed.

Lemma wf_loc_inj al sid sid' l :
  logger_wf al → sessions al !! sid = Some l → sessions al !! sid' = Some l → sid = sid'.
Proof.
  intros Hwf H1 H2. destruct (wf_active _ Hwf _ _ H1) as (s & Hs & <- & _).
  destruct (wf_active _ Hwf _ _ H2) as (s' & Hs' & <- & _). by simplify_eq.
Qed.

Lemma active_not_fresh al sid l : logger_wf al → sessions al !! sid = Some l → l ≠ fresh (dom (heap al)).
Proof.
  intros Hwf Hl ->. destruct (wf_active _ Hwf _ _ Hl) as (s & Hs & _).
  apply (is_fresh (dom (heap al))). by apply elem_of_dom_2 in Hs.
Qed.

Lemma wf_StartTCP al sid now rid src dst :
  logger_wf al → sessions al !! sid = None → logger_wf (StartTCPSession al sid now rid src dst).1.
Proof.
  intros Hwf Hsid. pose proof (active_not_fresh al) as Hfr. unfold StartTCPSession. simpl.
  set (l := fresh (dom (heap al))) in *. split; simpl.
  - intros sid' l' [[<- <-]|[Hne H]]%lookup_insert_Some.
    + rewrite lookup_insert_eq. by eexists.
    + rewrite lookup_insert_ne by (intros ->; by eapply Hfr). by apply (wf_active _ Hwf).
  - intros k l' H. destruct (wf_udp _ Hwf _ _ H) as (s & Hs & Hp & Hk & Hss). exists s. split_and!; try done.
    + rewrite lookup_insert_ne; [done|]. intros ->. by eapply Hfr.
    + rewrite lookup_insert_ne; [done|]. intros ->. by simplify_eq.
  - intros sid' l' s [[<- <-]|[Hne H]]%lookup_insert_Some Hs Hp.
    + rewrite lookup_insert_eq in Hs. by simplify_eq.
    + rewrite lookup_insert_ne in Hs by (intros ->; by eapply Hfr). by eapply (wf_indexed _ Hwf).
  - apply (wf_completed _ Hwf).
Qed.

Lemma wf_TrackUDP_new al sid now rid src dst :
  logger_wf al → sessions al !! sid = None → udpSessions al !! udpKey src dst = None →
  logger_wf (set_active (<[fresh (dom (heap al)) := newSession sid rid src dst "udp" now]> (heap al))
     (<[sid := fresh (dom (heap al))]> (sessions al))
     (<[udpKey src dst := fresh (dom (heap al))]> (udpSessions al)) al).
Proof.
  intros Hwf Hsid Hkey. pose proof (active_not_fresh al) as Hfr.
  set (l := fresh (dom (heap al))) in *. split; simpl.
  - intros sid' l' [[<- <-]|[Hne H]]%lookup_insert_Some.
    + rewrite lookup_insert_eq. by eexists.
    + rewrite lookup_insert_ne by (intros ->; by eapply Hfr). by apply (wf_active _ Hwf).
  - intros k l' [[<- <-]|[Hne H]]%lookup_insert_Some.
    + eexists. rewrite lookup_insert_eq. split_and!; [done|done|done|]. simpl. by rewrite lookup_insert_eq.
    + destruct (wf_udp _ Hwf _ _ H) as (s & Hs & Hp & Hk & Hss). exists s. split_and!; try done.
      * rewrite lookup_insert_ne; [done|]. intros ->. by eapply Hfr.
      * rewrite lookup_insert_ne; [done|]. intros ->. by simplify_eq.
  - intros sid' l' s [[<- <-]|[Hne H]]%lookup_insert_Some Hs Hp.
    + rewrite lookup_insert_eq in Hs. simplify_eq. simpl. by rewrite lookup_insert_eq.
    + rewrite lookup_insert_ne in Hs by (intros ->; by eapply Hfr).
      pose proof (wf_indexed _ Hwf _ _ _ H Hs Hp) as Hix.
      rewrite lookup_insert_ne; [done|]. intros Heq. rewrite Heq in Hkey. by simplify_eq.
  - apply (wf_completed _ Hwf).
Qed.

(** Ending an open session: TCP sessions leave the UDP index alone, UDP ones
    take their own entry out of it. *)
Lemma wf_end al now sid l s (us : gmap udpSessionKey loc) :
  logger_wf al → 0 < now → sessions al !! sid = Some l → heap al !! l = Some s →
  us = (if decide (Protocol s = "udp"%string)
        then delete (udpKey (SourceAddr s) (DestAddr s)) (udpSessions al) else udpSessions al) →
  logger_wf (set_completed (completedSessions al ++ [set_EndedAt now s])
    (set_active (<[l := set_EndedAt now s]> (heap al)) (delete sid (sessions al)) us al)).
Proof.
  intros Hwf Hnow Hl Hs Hus.
  assert (∀ sid' l', delete sid (sessions al) !! sid' = Some l' → l' ≠ l ∧ sessions al !! sid' = Some l') as Hdel.
  { intros sid' l' [Hne H]%lookup_delete_Some. split; [|done]. intros ->. apply Hne. by eapply wf_loc_inj. }
  destruct (wf_active _ Hwf _ _ Hl) as (s0 & Hs0 & Hsid & Hend). simplify_eq.
  split; simpl.
  - intros sid' l' [Hne H]%Hdel. rewrite lookup_insert_ne by done. by apply (wf_active _ Hwf).
  - intros k l' Hk.
    assert (udpSessions al !! k = Some l' ∧
            (Protocol s = "udp"%string → k ≠ udpKey (SourceAddr s) (DestAddr s))) as [Hk' Hne].
    { destruct (decide _) as [Hp|Hp]; [|done]. apply lookup_delete_Some in Hk as [? ?]. by split. }
    destruct (wf_udp _ Hwf _ _ Hk') as (s' & Hs' & Hp' & -> & Hss).
    assert (l' ≠ l) as Hll by (intros ->; simplify_eq; by apply Hne).
    exists s'. split_and!; [by rewrite lookup_insert_ne|done|done|].
    rewrite lookup_delete_ne; [done|]. intros Heq. rewrite <- Heq in Hss. by simplify_eq.
  - intros sid' l' s' [Hne H]%Hdel Hs' Hp'. rewrite lookup_insert_ne in Hs' by done.
    pose proof (wf_indexed _ Hwf _ _ _ H Hs' Hp') as Hix. destruct (decide _) as [Hp|Hp]; [|done].
    rewrite lookup_delete_ne; [done|]. intros Heq. rewrite <- Heq in Hix.
    pose proof (wf_indexed _ Hwf _ _ _ Hl Hs Hp) as Hix'. by simplify_eq.
  - apply Forall_app. split; [apply (wf_completed _ Hwf)|]. by apply Forall_singleton.
Qed.

(** The protocol of the session an id stands for, if it is open. *)
Definition openProtocol (al : AccessLogger) (sid : string) : option string :=
  l ← sessions al !! sid; s ← heap al !! l; Some (Protocol s).

Lemma openProtocol_Some al sid l s :
  sessions al !! sid = Some l → heap al !! l = Some s → openProtocol al sid = Some (Protocol s).
Proof. unfold openProtocol. intros -> Hs. simpl. by rewrite Hs. Qed.

Lemma endTCP_ok al now sid :
  logger_wf al → 0 < now → (∀ p, openProtocol al sid = Some p → p = "tcp"%string) →
  ∃ al', endTCP al now sid = Ret al' ∧ logger_wf al'.
Proof.
  intros Hwf Hnow Hp. unfold endTCP. destruct (sessions al !! sid) as [l|] eqn:Hl; [|by eexists].
  destruct (wf_active _ Hwf _ _ Hl) as (s & Hs & _). rewrite Hs. simpl.
  eexists. split; [done|]. eapply wf_end; try done. by rewrite (Hp _ (openProtocol_Some _ _ _ _ Hl Hs)).
Qed.

Lemma endUDP_ok al now sid :
  logger_wf al → 0 < now → (∀ p, openProtocol al sid = Some p → p = "udp"%string) →
  ∃ al', endUDP al now sid = Ret al' ∧ logger_wf al'.
Proof.
  intros Hwf Hnow Hp. unfold endUDP. destruct (sessions al !! sid) as [l|] eqn:Hl; [|by eexists].
  destruct (wf_active _ Hwf _ _ Hl) as (s & Hs & _). rewrite Hs. simpl.
  eexists. split; [done|]. eapply wf_end; try done. by rewrite (Hp _ (openProtocol_Some _ _ _ _ Hl Hs)).
Qed.

Section invariant.
Context `{MapRange, SortSlice}.
Context (compressSessions : list AccessSession → option string).

(** Reaping an entry of the UDP index is ending its session. *)
Lemma reapOne_ok al now k l :
  logger_wf al → 0 < now → udpSessions al !! k = Some l →
  ∃ al', reapOne now (Ret al) (k, l) = Ret al' ∧ logger_wf al' ∧
         ∀ k' l', k' ≠ k → udpSessions al !! k' = Some l' → udpSessions al' !! k' = Some l'.
Proof.
  intros Hwf Hnow Hk. destruct (wf_udp _ Hwf _ _ Hk) as (s & Hs & Hp & -> & Hss).
  unfold reapOne. simpl. rewrite Hs. simpl. destruct (_ && _); [|by eexists].
  eexists. split; [done|]. split.
  - eapply wf_end; try done. by destruct (decide _).
  - intros k' l' Hne Hk'. simpl. by rewrite lookup_delete_ne.
Qed.

Lemma reap_loop_ok now es al :
  logger_wf al → 0 < now → NoDup es.*1 → (∀ k l, (k, l) ∈ es → udpSessions al !! k = Some l) →
  ∃ al', foldl (reapOne now) (Ret al) es = Ret al' ∧ logger_wf al'.
Proof.
  revert al. induction es as [|[k l] es IH]; intros al Hwf Hnow Hnd Hes; [by eexists|].
  apply NoDup_cons in Hnd as [Hk Hnd]. simpl in Hk.
  destruct (reapOne_ok al now k l) as (al' & Hr & Hwf' & Hkeep); [done|done|set_solver|].
  cbn [foldl]. rewrite Hr. apply IH; [done..|]. intros k' l' Hin.
  apply Hkeep; [|set_solver]. intros ->. apply Hk. by apply (list_elem_of_fmap_2 fst) in Hin.
Qed.

Lemma reapStaleSessions_ok al now :
  logger_wf al → 0 < now → ∃ al', reapStaleSessions now al = Ret al' ∧ logger_wf al'.
Proof.
  intros Hwf Hnow. apply reap_loop_ok; [done|done|apply range_map_NoDup|].
  intros k l. apply range_map_elem.
Qed.

(** The loop of [Close] queues every open session once, ended now. *)
Lemma close_loop_ok now es al :
  0 < now → NoDup es.*2 →
  (∀ e, e ∈ es → ∃ s, heap al !! e.2 = Some s ∧ EndedAt s = 0) →
  ∃ al', foldl (closeOne now) (Ret al) es = Ret al' ∧
         completedSessions al' = completedSessions al ++
           omap (λ e, set_EndedAt now <$> heap al !! e.2) es ∧
         hasSendFn al' = hasSendFn al.
Proof.
  intros Hnow. revert al. induction es as [|[sid l] es IH]; intros al Hnd Hes.
  - eexists. split_and!; [done| |done]. simpl. by rewrite app_nil_r.
  - apply NoDup_cons in Hnd as [Hl Hnd]. simpl in Hl.
    destruct (Hes (sid, l) (list_elem_of_here _ _)) as (s & Hs & Hend). simpl in Hs.
    cbn [foldl]. unfold closeOne at 2. simpl. rewrite Hs. simpl. rewrite Hend. simpl.
    assert (∀ e, e ∈ es → e.2 ≠ l) as Hne.
    { intros e He <-. apply Hl. by apply (list_elem_of_fmap_2 snd). }
    destruct (IH (set_completed (completedSessions al ++ [set_EndedAt now s])
      (set_active (<[l:=set_EndedAt now s]> (heap al)) (sessions al) (udpSessions al) al)) Hnd)
      as (al' & Hf & Hc & Hsf).
    { intros e He. simpl. rewrite lookup_insert_ne by (intros Heq; by apply (Hne e)). set_solver. }
    exists al'. split_and!; [done| |done]. rewrite Hc. simpl. rewrite <- app_assoc. simpl. do 2 f_equal.
    apply list_omap_ext, Forall2_same_length_lookup. split; [done|].
    intros i e e' H1 H2. rewrite H1 in H2. simplify_eq.
    rewrite lookup_insert_ne; [done|]. intros Heq. eapply Hne; [by eapply list_elem_of_lookup_2|done].
Qed.

Lemma active_locs_NoDup al : logger_wf al → NoDup (range_map (sessions al)).*2.
Proof.
  intros Hwf. pose proof (range_map_NoDup (sessions al)) as Hnd.
  assert (∀ e, e ∈ range_map (sessions al) → sessions al !! e.1 = Some e.2) as Hin
    by (intros [k l]; apply range_map_elem).
  induction (range_map (sessions al)) as [|[sid l] es IH]; [constructor|].
  simpl in *. apply NoDup_cons in Hnd as [Hsid Hnd]. constructor; [|apply IH; [done|set_solver]].
  intros ([sid' l'] & Hl & Hin')%list_elem_of_fmap. simpl in Hl. subst l'.
  assert (sid' = sid) as ->.
  { eapply wf_loc_inj; [done| |].
    - apply (Hin (sid', l)). set_solver.
    - apply (Hin (sid, l)). set_solver. }
  apply Hsid. by apply (list_elem_of_fmap_2 fst) in Hin'.
Qed.

(** The open sessions of a logger. *)
Definition openSessions (al : AccessLogger) : list AccessSession :=
  omap (λ e, heap al !! e.2) (range_map (sessions al)).

Lemma closeActive_ok al now :
  logger_wf al → 0 < now →
  ∃ al', closeActive now al = Ret al' ∧ logger_wf al' ∧ sessions al' = ∅ ∧ udpSessions al' = ∅ ∧
         hasSendFn al' = hasSendFn al ∧
         completedSessions al' = completedSessions al ++ (set_EndedAt now <$> openSessions al).
Proof.
  intros Hwf Hnow. unfold closeActive.
  destruct (close_loop_ok now (range_map (sessions al)) al) as (al' & Hf & Hc & Hsf);
    [done|by apply active_locs_NoDup| |].
  { intros [sid l] Hin%range_map_elem. destruct (wf_active _ Hwf _ _ Hin) as (s & Hs & _ & He). by exists s. }
  rewrite Hf. simpl. eexists. split; [done|].
  assert (completedSessions al' = completedSessions al ++ (set_EndedAt now <$> openSessions al)) as Hc'.
  { rewrite Hc. f_equal. unfold openSessions. rewrite list_fmap_omap. done. }
  split_and!; try done. split; simpl; [intros; by simplify_map_eq..|].
  rewrite Hc'. apply Forall_app. split; [apply (wf_completed _ Hwf)|].
  apply Forall_fmap, Forall_true. done.
Qed.

End invariant.

(** ** Reachable loggers *)

Section reachable.
Context `{MapRange, SortSlice}.
Context (compressSessions : list AccessSession → option string).

(** A logger and the batches whose send is in progress. *)
Definition logConfig : Type := AccessLogger * list (list AccessSession * bool).

(** One atomic action.  The random ids of new sessions are not in use, each
    forwarder ends its sessions with the function of its protocol, and the
    clock does not read the zero time. *)
Inductive logStep : logConfig → logConfig → Prop :=
  | step_start_tcp al fl sid now rid src dst :
      sessions al !! sid = None →
      logStep (al, fl) ((StartTCPSession al sid now rid src dst).1, fl)
  | step_track_udp al fl sid now rid src dst al' id :
      sessions al !! sid = None → TrackUDPSession al sid now rid src dst = Ret (al', id) →
      logStep (al, fl) (al', fl)
  | step_end_tcp al fl now sid al' :
      0 < now → (∀ p, openProtocol al sid = Some p → p = "tcp"%string) →
      endTCP al now sid = Ret al' → logStep (al, fl) (al', fl)
  | step_end_udp al fl now sid al' :
      0 < now → (∀ p, openProtocol al sid = Some p → p = "udp"%string) →
      endUDP al now sid = Ret al' → logStep (al, fl) (al', fl)
  | step_reap al fl now al' :
      0 < now → reapStaleSessions now al = Ret al' → logStep (al, fl) (al', fl)
  | step_take al fl b al' :
      flush_take al = (Some b, al') → logStep (al, fl) (al', b :: fl)
  | step_settle al fl1 b fl2 ok :
      logStep (al, fl1 ++ b :: fl2) ((flush_settle compressSessions b.1 b.2 ok al).1, fl1 ++ fl2)
  | step_set_send al fl c : logStep (al, fl) (SetSendFunc al c, fl)
  | step_close al fl now al' :
      0 < now → closeActive now al = Ret al' → logStep (al, fl) (al', fl).

Lemma summarises_ended r out : Forall ended (members r) → summarises r out → ended out.
Proof.
  intros He [[_ ->]| ->]; [by apply Forall_cons in He as [? _]|]. by apply runEnd_pos.
Qed.

Lemma consolidate_ended l : Forall ended l → Forall ended (consolidateSessions l).
Proof.
  intros He. destruct (consolidateSessions_runs l He) as (runs & Hp & Hsum & _).
  rewrite <- Hp in He. clear Hp. induction Hsum as [|r out runs outs Hr Hs IH]; [constructor|].
  cbn [fmap list_fmap concat] in He. apply Forall_app in He as [He1 He2].
  constructor; [by eapply summarises_ended|by apply IH].
Qed.

Lemma settle_ok b c ok al :
  logger_wf al → Forall ended b → logger_wf (flush_settle compressSessions b c ok al).1.
Proof.
  intros Hwf Hb. unfold flush_settle, requeue. repeat case_match; simpl; try done.
  apply wf_set_completed; [done|]. apply Forall_take, Forall_app.
  split; [by apply consolidate_ended|apply (wf_completed _ Hwf)].
Qed.

Definition config_wf (c : logConfig) : Prop :=
  logger_wf c.1 ∧ Forall (λ b, Forall ended b.1) c.2.

Lemma logStep_wf c c' : config_wf c → logStep c c' → config_wf c'.
Proof.
  intros [Hwf Hfl] Hstep. destruct Hstep; unfold config_wf in *; simpl in *; (split; [|try done]).
  - by apply wf_StartTCP.
  - match goal with H : TrackUDPSession _ _ _ _ _ _ = _ |- _ => revert H end. unfold TrackUDPSession.
    destruct (udpSessions al !! udpKey src dst) as [l|] eqn:Hk.
    + destruct (wf_udp _ Hwf _ _ Hk) as (s & Hs & _). rewrite Hs. simpl. by intros [= <- _].
    + intros [= <- _]. by apply wf_TrackUDP_new.
  - destruct (endTCP_ok al now sid) as (x & ? & ?); [done..|].
    by replace al' with x by congruence.
  - destruct (endUDP_ok al now sid) as (x & ? & ?); [done..|].
    by replace al' with x by congruence.
  - destruct (reapStaleSessions_ok al now) as (x & ? & ?); [done..|].
    by replace al' with x by congruence.
  - revert H1. unfold flush_take. destruct (completedSessions al); [done|].
    intros [= _ <-]. by apply wf_set_completed.
  - revert H1. unfold flush_take. destruct (completedSessions al) eqn:E; [done|].
    intros [= <- _]. constructor; [|done]. simpl. rewrite <- E. apply (wf_completed _ Hwf).
  - apply settle_ok; [done|]. apply Forall_app in Hfl as [_ Hfl]. by apply Forall_cons in Hfl as [? _].
  - apply Forall_app in Hfl as [Hf1 Hf2]. apply Forall_cons in Hf2 as [_ Hf2]. by apply Forall_app.
  - destruct Hwf. by split.
  - destruct (closeActive_ok al now) as (x & ? & ? & _); [done..|].
    by replace al' with x by congruence.
Qed.

Lemma reachable_wf c : rtc logStep (NewAccessLogger, []) c → config_wf c.
Proof.
  assert (∀ c0, rtc logStep c0 c → config_wf c0 → config_wf c) as Hinv.
  { induction 1 as [|x y z Hxy Hyz IH]; [done|]. intros Hx. apply IH. by eapply logStep_wf. }
  intros Hr. apply (Hinv _ Hr). split; [apply wf_new|constructor].
Qed.

End reachable.

(** ** Theorems *)

Section theorems.
Context `{MapRange, SortSlice}.
Context (compressSessions : list AccessSession → option string).

(** C28: consolidation partitions the sessions into runs of one source
    address, destination, protocol and resource: the output is one entry per
    run (earliest start, latest end, sums of bytes, number of connections,
    port dropped when the ports differ), inside a run every connection starts
    at most five seconds after the ones before it are over, and two runs of
    the same key are more than five seconds apart.  For every map iteration
    order and every choice of the unstable sort. *)
Theorem consolidate_runs l :
  Forall ended l → ∃ runs, consolidation_of l (consolidateSessions l) runs.
Proof. apply consolidateSessions_runs. Qed.

(** Consolidating raw connections conserves them: the entries account for
    exactly as many connections as came in, and the byte totals agree modulo
    the wrap-around of [int64]. *)
Theorem consolidate_conserves l :
  Forall ended l → Forall (λ s, ConnectionCount s = 0) l → Z.of_nat (length l) < 2 ^ 63 →
  zsum conns (consolidateSessions l) = Z.of_nat (length l) ∧
  zsum BytesTx (consolidateSessions l) mod 2 ^ 64 = zsum BytesTx l mod 2 ^ 64 ∧
  zsum BytesRx (consolidateSessions l) mod 2 ^ 64 = zsum BytesRx l mod 2 ^ 64.
Proof.
  intros He Hraw Hlen. destruct (consolidateSessions_runs l He) as (runs & Hp & Hsum & _).
  generalize dependent (consolidateSessions l). intros out Hsum.
  rewrite <- Hp in Hraw, Hlen |- *. rewrite !zsum_concat.
  assert (∀ f : AccessSession → Z, zsum (zsum f) (members <$> runs) = zsum (λ r, zsum f (members r)) runs) as Hm.
  { intros f. clear. induction runs as [|r runs IH]; [done|]. cbn [fmap list_fmap zsum foldr]. by f_equal. }
  rewrite !Hm. split_and!.
  - rewrite runs_length in Hlen |- *. symmetry. clear -Hraw Hlen Hsum.
    induction Hsum as [|r out runs outs Hr Hs IH]; [done|].
    cbn [fmap list_fmap concat] in *. apply Forall_app in Hraw as [Hraw1 Hraw2].
    autorewrite with newt in *.
    assert (0 <= zsum (λ r, Z.of_nat (length (members r))) runs) by (apply zsum_nonneg; lia).
    rewrite <- (summarises_conns r out) by (try done; lia). rewrite IH by (try done; lia). done.
  - symmetry. eapply zsum_mod_Forall2; [|done]. intros r o Hr. apply (summarises_bytes r o Hr).
  - symmetry. eapply zsum_mod_Forall2; [|done]. intros r o Hr. apply (summarises_bytes r o Hr).
Qed.

(** In every state the logger can reach, under any interleaving with
    sends in progress, each id in [sessions] is the id of the open session it
    points to, each address pair has at most one open UDP session and it is
    the one the UDP index points to, every queued or in-flight session has
    ended, and none of the operations dereferences a missing session. *)
Theorem logger_invariant al fl :
  rtc (logStep compressSessions) (NewAccessLogger, []) (al, fl) →
  logger_wf al ∧ Forall (λ b, Forall ended b.1) fl ∧
  (∀ sid1 sid2 l1 l2 s1 s2,
     sessions al !! sid1 = Some l1 → heap al !! l1 = Some s1 → Protocol s1 = "udp"%string →
     sessions al !! sid2 = Some l2 → heap al !! l2 = Some s2 → Protocol s2 = "udp"%string →
     SourceAddr s1 = SourceAddr s2 → DestAddr s1 = DestAddr s2 → sid1 = sid2) ∧
  ∀ now sid rid src dst, 0 < now →
    TrackUDPSession al sid now rid src dst ≠ Panic ∧ reapStaleSessions now al ≠ Panic ∧
    closeActive now al ≠ Panic ∧
    (openProtocol al sid = Some "tcp"%string → endTCP al now sid ≠ Panic) ∧
    (openProtocol al sid = Some "udp"%string → endUDP al now sid ≠ Panic).
Proof.
  intros [Hwf Hfl]%reachable_wf. simpl in *. split_and!; [done|done| |].
  - intros sid1 sid2 l1 l2 s1 s2 H1 Hs1 Hp1 H2 Hs2 Hp2 Hsrc Hdst.
    pose proof (wf_indexed _ Hwf _ _ _ H1 Hs1 Hp1) as E1. pose proof (wf_indexed _ Hwf _ _ _ H2 Hs2 Hp2) as E2.
    rewrite Hsrc, Hdst in E1. simplify_eq. by eapply wf_loc_inj.
  - intros now sid rid src dst Hnow. split_and!.
    + unfold TrackUDPSession. destruct (udpSessions al !! udpKey src dst) as [l|] eqn:Hk; [|done].
      destruct (wf_udp _ Hwf _ _ Hk) as (s & Hs & _). by rewrite Hs.
    + destruct (reapStaleSessions_ok al now Hwf Hnow) as (al' & -> & _). done.
    + destruct (closeActive_ok al now Hwf Hnow) as (al' & -> & _). done.
    + intros Ho. destruct (endTCP_ok al now sid Hwf Hnow) as (al' & -> & _); [|done]. intros p. congruence.
    + intros Ho. destruct (endUDP_ok al now sid Hwf Hnow) as (al' & -> & _); [|done]. intros p. congruence.
Qed.

(** [Close] on an open logger ends every open session exactly once, now,
    hands them with the queued ones to one final flush, and leaves nothing
    open. *)
Theorem close_drains al now sendOk :
  logger_wf al → 0 < now → stopped al = false →
  ∃ al0 al' o,
    Close compressSessions al now sendOk = Ret (al', o) ∧
    completedSessions al0 = completedSessions al ++ (set_EndedAt now <$> openSessions al) ∧
    (al', o) = flush compressSessions sendOk al0 ∧ sessions al' = ∅ ∧ udpSessions al' = ∅ ∧
    (∀ p, hasSendFn al = true → completedSessions al0 ≠ [] → sendOk = true →
       compressSessions (consolidateSessions (completedSessions al0)) = Some p →
       o = SendSucceeded p ∧ completedSessions al' = []).
Proof.
  intros Hwf Hnow Hst. destruct (closeActive_ok al now Hwf Hnow) as (al0 & Hc & Hwf0 & Hs & Hu & Hsf & Hcomp).
  unfold Close. rewrite Hst, Hc. simpl.
  exists al0, (flush compressSessions sendOk al0).1, (flush compressSessions sendOk al0).2.
  rewrite <- surjective_pairing. split_and!; [done|done|done| | |].
  1,2: unfold flush, flush_take, flush_settle; repeat case_match; simplify_eq/=; done.
  intros p Hsend Hne -> Hp. unfold flush, flush_take, flush_settle.
  rewrite Hsf, Hsend. destruct (completedSessions al0) as [|x xs]; [done|]. simpl. by rewrite Hp.
Qed.

(** A failed send loses connection counts.  Two raw connections merged
    into one entry of count 2 and put back in the queue, followed by a third
    connection of the same burst, are reported by the next successful flush
    as one entry that counts 2 connections, not 3. *)
Theorem requeue_undercounts al a b c :
  (∀ l, compressSessions l ≠ None) → hasSendFn al = true →
  completedSessions al = [a; b] → Forall ended [a; b; c] →
  sessionKey a = sessionKey b → sessionKey b = sessionKey c →
  extractIP (extractIP (SourceAddr a)) = extractIP (SourceAddr a) →
  StartedAt a < StartedAt b <= EndedAt b → StartedAt b <= EndedAt a + sessionGapThreshold →
  StartedAt a <= StartedAt c <= EndedAt c → StartedAt c <= EndedAt a + sessionGapThreshold →
  ∃ m e p,
    completedSessions (flush compressSessions false al).1 = [m] ∧ ConnectionCount m = 2 ∧
    (flush compressSessions true (set_completed [m; c] (flush compressSessions false al).1)).2
      = SendSucceeded p ∧
    compressSessions [e] = Some p ∧ ConnectionCount e = 2.
Proof.
  intros Hcomp Hsend Hq He Hab Hbc Hip Ht1 Hg1 Ht2 Hg2.
  apply Forall_cons in He as [Ha He]. apply Forall_cons in He as [Hb He]. apply Forall_cons in He as [Hc _].
  destruct (consolidate_pair a b) as (m & Hm & Hmc & Hm'); [done..|lia|lia|].
  destruct Hm' as [Hm'|[? _]]; [|lia].
  assert (completedSessions (flush compressSessions false al).1 = [m] ∧
          hasSendFn (flush compressSessions false al).1 = true) as [Hq1 Hs1].
  { unfold flush, flush_take, flush_settle, requeue. rewrite Hq, Hsend. simpl. rewrite Hm.
    destruct (compressSessions [m]) eqn:Ec; [done|by apply Hcomp in Ec]. }
  assert (EndedAt a <= EndedAt m) as Hend.
  { rewrite Hm'. simpl. unfold runEnd. simpl. lia. }
  destruct (consolidate_pair m c) as (e & Hee & Hec & _).
  - unfold ended in *. lia.
  - done.
  - rewrite <- Hbc, <- Hab, Hm'. unfold sessionKey, entryOf. simpl. by destruct (bool_decide _); rewrite ?Hip.
  - rewrite Hm'. simpl. lia.
  - unfold sessionGapThreshold, Second in *. lia.
  - destruct (compressSessions [e]) as [p|] eqn:Ec; [|by apply Hcomp in Ec].
    exists m, e, p. split_and!; try done.
    unfold flush at 1, flush_take, flush_settle. simpl. by rewrite Hs1, Hee, Ec.
Qed.

(** When the queue overflows after a failed send, the sessions that are
    dropped are the most recent ones: what stays is the first [requeueCap]
    entries of the re-queued batch followed by the sessions that ended while
    it was being sent. *)
Theorem overflow_drops_newest batch al p :
  compressSessions (consolidateSessions batch) = Some p →
  let al' := (flush_settle compressSessions batch true false al).1 in
  completedSessions al' = take requeueCap (consolidateSessions batch ++ completedSessions al) ∧
  (length (completedSessions al') <= requeueCap)%nat ∧
  ((requeueCap <= length (consolidateSessions batch))%nat →
     completedSessions al' = take requeueCap (consolidateSessions batch)).
Proof.
  intros Hp. unfold flush_settle. cbn [negb]. rewrite Hp. cbn [fst requeue set_completed completedSessions].
  split_and!; [done| |].
  - rewrite length_take. lia.
  - intros Hle. by rewrite take_app_le.
Qed.

End theorems.

(** ** Examples and witnesses *)

Module AccessLogExamples.

#[local] Existing Instance canonical_range.
#[local] Existing Instance merge_sort_slice.

Definition session (id src : string) (start stop tx : Z) : AccessSession :=
  mkSession id 7 src "10.0.0.2:443" "tcp" (start * Second) (stop * Second) tx 0 0.

Definition burst : list AccessSession :=
  [session "b" "100.64.0.1:5002" 13 14 20; session "a" "100.64.0.1:5001" 10 12 10;
   session "c" "100.64.0.1:5003" 30 31 5; session "d" "100.64.0.9:80" 11 12 1].

Lemma burst_ended : Forall ended burst.
Proof. repeat constructor. Qed.

(** Two connections two seconds apart merge, the one after a long pause and
    the one from another source do not. *)
Example burst_consolidated :
  (λ s, (SessionID s, SourceAddr s, EndedAt s / Second, BytesTx s, ConnectionCount s)) <$> consolidateSessions burst ≡ₚ
  [("a", "100.64.0.1", 14, 30, 2); ("c", "100.64.0.1:5003", 31, 5, 1); ("d", "100.64.0.9:80", 12, 1, 0)]%string.
Proof. vm_compute. solve_Permutation. Qed.

Definition payload_of (l : list AccessSession) : option string := Some (itoa (Z.of_nat (length l))).

Lemma consolidate_runs_witness : ∃ runs, consolidation_of burst (consolidateSessions burst) runs.
Proof. apply consolidate_runs. apply burst_ended. Defined.

Lemma consolidate_conserves_witness :
  zsum conns (consolidateSessions burst) = 4 ∧
  zsum BytesTx (consolidateSessions burst) mod 2 ^ 64 = 36 ∧
  zsum BytesRx (consolidateSessions burst) mod 2 ^ 64 = 0.
Proof. apply (consolidate_conserves burst); [apply burst_ended|repeat constructor|done]. Defined.

Lemma logger_invariant_witness :
  logger_wf (StartTCPSession NewAccessLogger "id" 1 7 "100.64.0.1:5001" "10.0.0.2:443").1.
Proof.
  refine (proj1 (logger_invariant payload_of _ [] _)).
  apply rtc_once, step_start_tcp. done.
Defined.

Definition open_logger : AccessLogger :=
  SetSendFunc (StartTCPSession NewAccessLogger "id" 1 7 "100.64.0.1:5001" "10.0.0.2:443").1 true.

Lemma open_logger_wf : logger_wf open_logger.
Proof.
  pose proof (wf_StartTCP NewAccessLogger "id" 1 7 "100.64.0.1:5001" "10.0.0.2:443" wf_new eq_refl) as [? ? ? ?].
  by split.
Qed.

Lemma close_drains_witness :
  ∃ al0 al' o, Close payload_of open_logger 9 true = Ret (al', o) ∧
    completedSessions al0 = completedSessions open_logger ++ (set_EndedAt 9 <$> openSessions open_logger) ∧
    (al', o) = flush payload_of true al0 ∧ sessions al' = ∅ ∧ udpSessions al' = ∅ ∧
    (∀ p, hasSendFn open_logger = true → completedSessions al0 ≠ [] → true = true →
       payload_of (consolidateSessions (completedSessions al0)) = Some p →
       o = SendSucceeded p ∧ completedSessions al' = []).
Proof. apply close_drains; [apply open_logger_wf|lia|done]. Defined.

Definition ex_a : AccessSession := session "a" "100.64.0.1:5001" 10 12 0.
Definition ex_b : AccessSession := session "b" "100.64.0.1:5002" 13 14 0.
Definition ex_c : AccessSession := session "c" "100.64.0.1:5003" 15 16 0.

Definition queued_logger : AccessLogger := set_completed [ex_a; ex_b] (SetSendFunc NewAccessLogger true).

Lemma requeue_undercounts_witness :
  ∃ m e p,
    completedSessions (flush payload_of false queued_logger).1 = [m] ∧ ConnectionCount m = 2 ∧
    (flush payload_of true (set_completed [m; ex_c] (flush payload_of false queued_logger).1)).2
      = SendSucceeded p ∧
    payload_of [e] = Some p ∧ ConnectionCount e = 2.
Proof.
  apply (requeue_undercounts payload_of queued_logger ex_a ex_b ex_c); try done.
  by repeat constructor.
Defined.

(** Six hundred sessions of different resources: none of them merge. *)
Definition crowd : list AccessSession :=
  (λ n, mkSession "x" (Z.of_nat n) "100.64.0.1:5001" "10.0.0.2:443" "tcp" Second (2 * Second) 0 0 0) <$> seq 0 600.

Lemma overflow_drops_newest_witness :
  let al' := (flush_settle payload_of crowd true false queued_logger).1 in
  completedSessions al' = take requeueCap (consolidateSessions crowd ++ completedSessions queued_logger) ∧
  (length (completedSessions al') <= requeueCap)%nat ∧
  ((requeueCap <= length (consolidateSessions crowd))%nat →
     completedSessions al' = take requeueCap (consolidateSessions crowd)).
Proof.
  eapply (overflow_drops_newest payload_of crowd queued_logger). unfold payload_of. reflexivity.
Defined.

Example crowd_overflows : Nat.leb requeueCap (length (consolidateSessions crowd)) = true.
Proof. vm_compute. reflexivity. Qed.

End AccessLogExamples.
