(* ===== verification/RequestLog.v ===== *)
(** * HTTP request log ([netstack2/http_request_log.go])

    [HTTPRequestLogger] buffers the requests the HTTP proxy served and sends
    them in batches.  As in the access log the lock is released during a send,
    so a flush is [rl_take] followed by [rl_settle], and requests logged in
    between land in the buffer before a failed batch is put back in front. *)

From S2P Require Import Prelude AccessLog.

Record HTTPRequestLog : Type := mkRequestLog {
  RequestID : string; hl_ResourceID : Z; Timestamp : Z; Method : string; Scheme : string; Host : string;
  Path : string; RawQuery : string; UserAgent : string; hl_SourceAddr : string; hl_TLS : bool }.

Definition set_RequestID (i : string) (r : HTTPRequestLog) : HTTPRequestLog :=
  mkRequestLog i (hl_ResourceID r) (Timestamp r) (Method r) (Scheme r) (Host r) (Path r) (RawQuery r)
    (UserAgent r) (hl_SourceAddr r) (hl_TLS r).

Record HTTPRequestLogger : Type := mkRequestLogger {
  pending : list HTTPRequestLog; rl_hasSendFn : bool; rl_stopped : bool }.

Definition NewHTTPRequestLogger : HTTPRequestLogger := mkRequestLogger [] false false.

Definition rl_SetSendFunc (rl : HTTPRequestLogger) (configured : bool) : HTTPRequestLogger :=
  mkRequestLogger (pending rl) configured (rl_stopped rl).

Definition set_pending (l : list HTTPRequestLog) (rl : HTTPRequestLogger) : HTTPRequestLogger :=
  mkRequestLogger l (rl_hasSendFn rl) (rl_stopped rl).

(** The entry [LogRequest] stores: it gets a fresh id when it has none. *)
Definition withRequestID (newID : string) (log : HTTPRequestLog) : HTTPRequestLog :=
  if bool_decide (RequestID log = "") then set_RequestID newID log else log.

(** The locked part of [LogRequest] and whether it goes on to flush. *)
Definition rl_append (rl : HTTPRequestLogger) (newID : string) (log : HTTPRequestLog)
    : HTTPRequestLogger * bool :=
  let l := pending rl ++ [withRequestID newID log] in
  (set_pending l rl, Nat.leb maxBufferedSessions (length l)).

Definition rl_take (rl : HTTPRequestLogger) : option (list HTTPRequestLog * bool) * HTTPRequestLogger :=
  match pending rl with
  | [] => (None, rl)
  | batch => (Some (batch, rl_hasSendFn rl), set_pending [] rl)
  end.

(** What became of a batch. *)
Inductive batchOutcome : Type :=
  | Delivered (payload : string)  (** the send function returned no error *)
  | Requeued (dropped : nat)      (** the send failed; [dropped] entries exceeded the cap *)
  | Discarded.                    (** no send function, or the batch could not be encoded *)

Section request_logger.
Context (compressRequestLogs : list HTTPRequestLog → option string).

Definition rl_settle (batch : list HTTPRequestLog) (configured sendOk : bool) (rl : HTTPRequestLogger)
    : HTTPRequestLogger * batchOutcome :=
  if negb configured then (rl, Discarded)
  else
    match compressRequestLogs batch with
    | None => (rl, Discarded)
    | Some payload =>
        if sendOk then (rl, Delivered payload)
        else
          let l := batch ++ pending rl in
          if Nat.ltb requeueCap (length l)
          then (set_pending (take requeueCap l) rl, Requeued (length l - requeueCap))
          else (set_pending l rl, Requeued 0)
    end.

Definition rl_flush (sendOk : bool) (rl : HTTPRequestLogger) : HTTPRequestLogger * option batchOutcome :=
  match rl_take rl with
  | (None, rl') => (rl', None)
  | (Some (batch, configured), rl') =>
      let '(rl'', o) := rl_settle batch configured sendOk rl' in (rl'', Some o)
  end.

Definition LogRequest (rl : HTTPRequestLogger) (newID : string) (log : HTTPRequestLog) (sendOk : bool)
    : HTTPRequestLogger * option batchOutcome :=
  let '(rl', shouldFlush) := rl_append rl newID log in
  if shouldFlush : bool then rl_flush sendOk rl' else (rl', None).

(** A second [Close] returns at once. *)
Definition rl_Close (rl : HTTPRequestLogger) (sendOk : bool) : HTTPRequestLogger * option batchOutcome :=
  if rl_stopped rl then (rl, None)
  else rl_flush sendOk (mkRequestLogger (pending rl) (rl_hasSendFn rl) true).

(** ** Histories

    A configuration records the logger, the batches being sent, and, as ghost
    state, every request logged so far, every batch delivered and every
    request given up. *)

Record rlConfig : Type := mkRlConfig {
  rc_logger : HTTPRequestLogger;
  rc_flight : list (list HTTPRequestLog * bool);
  rc_logged : list HTTPRequestLog;
  rc_sent : list (list HTTPRequestLog);
  rc_lost : list HTTPRequestLog }.

Definition settledSent (b : list HTTPRequestLog) (o : batchOutcome) : list (list HTTPRequestLog) :=
  match o with Delivered _ => [b] | _ => [] end.

Definition settledLost (b : list HTTPRequestLog) (rl : HTTPRequestLogger) (o : batchOutcome) : list HTTPRequestLog :=
  match o with
  | Delivered _ => []
  | Requeued _ => drop requeueCap (b ++ pending rl)
  | Discarded => b
  end.

Inductive rlStep : rlConfig → rlConfig → Prop :=
  | rl_step_log rl fl lg st lo newID log :
      rlStep (mkRlConfig rl fl lg st lo)
             (mkRlConfig (rl_append rl newID log).1 fl (lg ++ [withRequestID newID log]) st lo)
  | rl_step_take rl fl lg st lo b rl' :
      rl_take rl = (Some b, rl') →
      rlStep (mkRlConfig rl fl lg st lo) (mkRlConfig rl' (b :: fl) lg st lo)
  | rl_step_settle rl fl1 b fl2 lg st lo ok rl' o :
      rl_settle b.1 b.2 ok rl = (rl', o) →
      rlStep (mkRlConfig rl (fl1 ++ b :: fl2) lg st lo)
             (mkRlConfig rl' (fl1 ++ fl2) lg (st ++ settledSent b.1 o) (lo ++ settledLost b.1 rl o))
  | rl_step_send rl fl lg st lo c :
      rlStep (mkRlConfig rl fl lg st lo) (mkRlConfig (rl_SetSendFunc rl c) fl lg st lo).

Definition rl_start : rlConfig := mkRlConfig NewHTTPRequestLogger [] [] [] [].

(** Every logged request is in exactly one place. *)
Definition accounted (c : rlConfig) : Prop :=
  rc_logged c ≡ₚ concat (rc_sent c) ++ pending (rc_logger c) ++ concat (rc_flight c).*1 ++ rc_lost c.

Lemma rl_settle_accounts b c ok rl rl' o :
  rl_settle b c ok rl = (rl', o) →
  b ++ pending rl ≡ₚ concat (settledSent b o) ++ pending rl' ++ settledLost b rl o.
Proof.
  unfold rl_settle. intros Hs. repeat case_match; simplify_eq/=; rewrite ?app_nil_r; try done;
    try apply Permutation_app_comm.
  - by rewrite take_drop.
  - rewrite drop_ge, app_nil_r; [done|]. by apply Nat.ltb_ge.
Qed.

Lemma rlStep_accounted c c' : accounted c → rlStep c c' → accounted c'.
Proof.
  unfold accounted. intros Hc Hstep. destruct Hstep as
    [rl fl lg st lo newID log|rl fl lg st lo b rl' Ht|rl fl1 b fl2 lg st lo ok rl' o Hs|rl fl lg st lo c]; simpl in *.
  - rewrite Hc. solve_Permutation.
  - revert Ht. unfold rl_take. destruct (pending rl) as [|p ps] eqn:Hp; [done|]. intros [= <- <-]. simpl.
    rewrite Hc. solve_Permutation.
  - apply rl_settle_accounts in Hs. rewrite Hc, !fmap_app, !concat_app. simpl.
    trans (concat st ++ (b.1 ++ pending rl) ++ concat fl1.*1 ++ concat fl2.*1 ++ lo); [solve_Permutation|].
    rewrite Hs. solve_Permutation.
  - done.
Qed.

(** The failed batches that are put back respect the cap. *)
Lemma rl_settle_cap b c ok rl rl' n :
  rl_settle b c ok rl = (rl', Requeued n) →
  pending rl' = take requeueCap (b ++ pending rl) ∧ (length (pending rl') <= requeueCap)%nat ∧
  n = length (settledLost b rl (Requeued n)).
Proof.
  unfold rl_settle. simpl. intros Hs. rewrite length_drop. repeat case_match; simplify_eq/=.
  - split_and!; [done|rewrite length_take; lia|done].
  - match goal with H : Nat.ltb _ _ = false |- _ => apply Nat.ltb_ge in H end.
    rewrite take_ge by done. split_and!; [done|done|]. lia.
Qed.

(** The request log loses and repeats nothing silently.  After any
    interleaving of logging, flushing and sends in progress, the requests
    logged are, as a multiset, exactly those delivered, those in the buffer,
    those in flight, and those given up because there was no way to send or
    encode them or because the re-queue cap was exceeded. *)
Theorem request_log_accounted c : rtc rlStep rl_start c → accounted c.
Proof.
  assert (∀ c0, rtc rlStep c0 c → accounted c0 → accounted c) as Hinv.
  { induction 1 as [|x y z Hxy Hyz IH]; [done|]. intros Hx. apply IH. by eapply rlStep_accounted. }
  intros Hr. apply (Hinv _ Hr). unfold accounted. simpl. constructor.
Qed.

(** A sequence of calls with no overlap: logging and flushing. *)
Definition rl_run (rl : HTTPRequestLogger) (ops : list (string * HTTPRequestLog * bool)) : HTTPRequestLogger :=
  foldl (λ rl '(i, log, ok), (LogRequest rl i log ok).1) rl ops.

(** While no two flushes overlap and the server is down, the buffer holds
    the first [requeueCap] requests in the order they were logged: later ones
    are the ones that are dropped, although the log message says "oldest". *)
Theorem request_log_keeps_oldest ops rl :
  (∀ l, compressRequestLogs l ≠ None) → rl_hasSendFn rl = true →
  Forall (λ op, op.2 = false) ops → (length (pending rl) <= requeueCap)%nat →
  pending (rl_run rl ops) =
  take requeueCap (pending rl ++ ((λ op : string * HTTPRequestLog * bool, withRequestID op.1.1 op.1.2) <$> ops)).
Proof.
  intros Hcomp. revert rl. induction ops as [|[[i log] ok] ops IH]; intros rl Hs Hops Hlen; simpl.
  - by rewrite app_nil_r, take_ge.
  - apply Forall_cons in Hops as [Hok Hops]. simpl in Hok. subst ok.
    set (l := pending rl ++ [withRequestID i log]).
    assert (pending (LogRequest rl i log false).1 = take requeueCap l ∧
            rl_hasSendFn (LogRequest rl i log false).1 = true) as [Hp Hs'].
    { unfold LogRequest, rl_append. fold l.
      destruct (Nat.leb_spec maxBufferedSessions (length l)) as [Hge|Hlt].
      - unfold rl_flush, rl_take. cbn [pending set_pending rl_hasSendFn]. destruct l as [|x l'] eqn:El; [by destruct (pending rl)|].
        rewrite <- El in *. unfold rl_settle. rewrite Hs. cbn [negb pending set_pending].
        destruct (compressRequestLogs l) eqn:Ec; [|by apply Hcomp in Ec]. rewrite app_nil_r.
        destruct (Nat.ltb_spec requeueCap (length l)); cbn [fst pending set_pending rl_hasSendFn]; [done|].
        by rewrite take_ge.
      - cbn [fst pending set_pending rl_hasSendFn].
        rewrite take_ge by (unfold requeueCap, maxBufferedSessions in *; lia). done. }
    rewrite IH; [|done|done|rewrite Hp, length_take; lia]. rewrite Hp.
    rewrite (cons_middle (withRequestID i log)), app_assoc. fold l.
    destruct (Nat.le_ge_cases requeueCap (length l)) as [Hle|Hge]; [|by rewrite (take_ge l)].
    rewrite take_app_le by (rewrite length_take; lia). rewrite take_take, take_app_le by done.
    by rewrite Nat.min_id.
Qed.

End request_logger.

Module RequestLogExamples.

Definition req (p : string) : HTTPRequestLog :=
  mkRequestLog "" 7 Second "GET" "https" "app.example.com" p "" "" "100.64.0.1:5001" true.

Definition payload_of (l : list HTTPRequestLog) : option string := Some (itoa (Z.of_nat (length l))).

Lemma request_log_accounted_witness :
  accounted (mkRlConfig (rl_append NewHTTPRequestLogger "r1" (req "/")).1 [] [withRequestID "r1" (req "/")] [] []).
Proof. apply (request_log_accounted payload_of). apply rtc_once, (rl_step_log payload_of _ [] [] [] []). Defined.

Definition outage : list (string * HTTPRequestLog * bool) := (λ n, (itoa (Z.of_nat n), req "/", false)) <$> seq 0 600.

Lemma request_log_keeps_oldest_witness :
  pending (rl_run payload_of (rl_SetSendFunc NewHTTPRequestLogger true) outage) =
  take requeueCap ([] ++ ((λ op : string * HTTPRequestLog * bool, withRequestID op.1.1 op.1.2) <$> outage)).
Proof.
  apply (request_log_keeps_oldest payload_of outage (rl_SetSendFunc NewHTTPRequestLogger true)); try done.
  - apply Forall_fmap, Forall_true. done.
  - simpl. lia.
Defined.

End RequestLogExamples.
