(* ===== verification/HttpHandler.v ===== *)
(** * The HTTP handler ([netstack2/http_handler.go])

    Connections on ports 80 and 443 whose rule names a protocol are handed to
    an HTTP server through a listener made of a channel; each request is
    redirected to HTTPS or forwarded to the rule's first target.  TLS
    configurations and reverse proxies are cached by text keys.

    [tls.X509KeyPair] and the generated certificate are parameters; what the
    upstream server answers is outside. *)

From S2P Require Import Prelude Netip NetipText HostPort Bart SubnetLookup Packet ProxyHandler RequestLog.
From Stdlib Require Import Ascii.

(** ** The listener *)

(** Connections are numbered.  [srv_up] is the server's accept loop, which ends
    when [Accept] fails; [accepted] and [shut] record what became of the
    connections. *)
Record chanListener : Type := mkListener {
  connCh : list nat; lsn_closed : bool; srv_up : bool; accepted : list nat; shut : list nat }.

Definition newChanListener : chanListener := mkListener [] false true [] [].

Definition connCap : nat := 128.

Inductive lsnAct : Type :=
  | LSend (c : nat)            (* HandleConn's send takes the connection *)
  | LRefuse (c : nat)          (* send sees the closed channel; HandleConn closes the connection *)
  | LAccept
  | LAcceptClosed              (* Accept sees the closed channel; Serve returns *)
  | LClose.

(** A select takes any of its ready cases; [None]: not ready. *)
Definition lsn_step (l : chanListener) (a : lsnAct) : option chanListener :=
  match a with
  | LSend c => if Nat.ltb (length (connCh l)) connCap
               then Some (mkListener (connCh l ++ [c]) (lsn_closed l) (srv_up l) (accepted l) (shut l)) else None
  | LRefuse c => if lsn_closed l
                 then Some (mkListener (connCh l) (lsn_closed l) (srv_up l) (accepted l) (shut l ++ [c])) else None
  | LAccept => if srv_up l then
                 match connCh l with
                 | c :: r => Some (mkListener r (lsn_closed l) (srv_up l) (accepted l ++ [c]) (shut l))
                 | [] => None
                 end
               else None
  | LAcceptClosed => if srv_up l && lsn_closed l
                     then Some (mkListener (connCh l) (lsn_closed l) false (accepted l) (shut l)) else None
  | LClose => Some (mkListener (connCh l) true (srv_up l) (accepted l) (shut l))
  end.

Fixpoint lsn_run (l : chanListener) (acts : list lsnAct) : option chanListener :=
  match acts with [] => Some l | a :: r => l ← lsn_step l a; lsn_run l r end.

(** The connections given to the listener, those it took and those it refused. *)
Definition taken (acts : list lsnAct) : list nat := omap (λ a, match a with LSend c => Some c | _ => None end) acts.
Definition refused (acts : list lsnAct) : list nat := omap (λ a, match a with LRefuse c => Some c | _ => None end) acts.

(** ** The handler *)

(** A reverse proxy: where it forwards, and whether it checks certificates. *)
Record reverseProxy : Type := mkProxy { px_scheme : string; px_host : string; px_insecure : bool }.

#[global] Instance reverseProxy_eq_dec : EqDecision reverseProxy.
Proof. solve_decision. Defined.

Section Handler.
Context {cert : Type} (X509KeyPair : string → string → option cert).

(** The certificate of a TLS configuration. *)
Record HTTPHandler : Type := mkHandler {
  tlsCache : gmap string cert;
  fallbackTLS : option (option cert);   (* fallbackTLSOnce and fallbackTLSCfg *)
  proxyCache : gmap string reverseProxy;
  hasLogger : bool }.

Definition NewHTTPHandler : HTTPHandler := mkHandler ∅ None ∅ false.

Definition SetRequestLogger (h : HTTPHandler) : HTTPHandler :=
  mkHandler (tlsCache h) (fallbackTLS h) (proxyCache h) true.

(** [generated] is the answer of [generateSelfSignedCert], asked for once. *)
Definition getFallbackTLSConfig (generated : option cert) (h : HTTPHandler) : HTTPHandler * option cert :=
  match fallbackTLS h with
  | Some c => (h, c)
  | None => (mkHandler (tlsCache h) (Some generated) (proxyCache h) (hasLogger h), generated)
  end.

Definition tlsKey (rule : SubnetRule) : string := TLSCert rule +:+ "|" +:+ TLSKey rule.

Definition getTLSConfig (generated : option cert) (rule : SubnetRule) (h : HTTPHandler) : HTTPHandler * option cert :=
  match tlsCache h !! tlsKey rule with
  | Some c => (h, Some c)
  | None =>
      match X509KeyPair (TLSCert rule) (TLSKey rule) with
      | None => getFallbackTLSConfig generated h
      | Some c => (mkHandler (<[tlsKey rule := c]> (tlsCache h)) (fallbackTLS h) (proxyCache h) (hasLogger h), Some c)
      end
  end.

(** [doTLS]: only what arrives on port 443 is unwrapped. *)
Definition terminatesTLS (rule : SubnetRule) (localPort : Z) : bool :=
  bool_decide (Protocol rule = "https") && (localPort =? 443).

(** The connection as it goes to the listener. *)
Record httpConn : Type := mkHttpConn { hc_rule : SubnetRule; hc_isTLS : bool; hc_cert : option cert }.

Definition HandleConn (generated : option cert) (localPort : Z) (rule : SubnetRule) (h : HTTPHandler) : HTTPHandler * httpConn :=
  if terminatesTLS rule localPort
  then let '(h, c) := getTLSConfig generated rule h in (h, mkHttpConn rule true c)
  else (h, mkHttpConn rule false None).

(** ** Requests *)

Definition targetHost (t : HTTPTarget) : string := ht_DestAddr t +:+ ":" +:+ itoa (ht_DestPort t).
Definition targetKey (t : HTTPTarget) : string := ht_Scheme t +:+ "://" +:+ targetHost t.

(** The proxy for a target that is not in the cache. *)
Definition newProxy (t : HTTPTarget) : reverseProxy := mkProxy (ht_Scheme t) (targetHost t) (bool_decide (ht_Scheme t = "https")).

Definition getProxy (t : HTTPTarget) (h : HTTPHandler) : HTTPHandler * reverseProxy :=
  match proxyCache h !! targetKey t with
  | Some p => (h, p)
  | None => (mkHandler (tlsCache h) (fallbackTLS h) (<[targetKey t := newProxy t]> (proxyCache h)) (hasLogger h), newProxy t)
  end.

Record request : Type := mkRequest {
  rq_Method : string; rq_Host : string; rq_URLHost : string; rq_RequestURI : string; rq_Path : string; rq_RawQuery : string;
  rq_UserAgent : string; rq_RemoteAddr : string }.

Inductive reply : Type :=
  | NoTargets                                         (* 502 *)
  | PermanentRedirect (url : string)                  (* 308 *)
  | Forward (p : reverseProxy) (host : string) (forwardedProto : string).

(** [Rewrite]: the host of the request is kept, and X-Forwarded-Proto says
    https when TLS was unwrapped here (the request itself is always plain). *)
Definition rewriteProto (isTLS : bool) : string := if isTLS then "https" else "http".

Definition requestLog (now : Z) (rule : SubnetRule) (r : request) : HTTPRequestLog :=
  mkRequestLog "" (ResourceId rule) now (rq_Method r) (Protocol rule) (rq_Host r) (rq_Path r) (rq_RawQuery r) (rq_UserAgent r)
    (rq_RemoteAddr r) (bool_decide (Protocol rule = "https")).

(** [handleRequest] on a connection; [None]: the connection carries no rule. *)
Definition handleRequest (now : Z) (conn : option httpConn) (r : request) (h : HTTPHandler)
    : HTTPHandler * reply * option HTTPRequestLog :=
  match conn with
  | None => (h, NoTargets, None)
  | Some c =>
      let rule := hc_rule c in
      match HTTPTargets rule with
      | [] => (h, NoTargets, None)
      | target :: _ =>
          if bool_decide (Protocol rule = "https") && negb (hc_isTLS c)
          then let host := if bool_decide (rq_Host r = "") then rq_URLHost r else rq_Host r in
               (h, PermanentRedirect ("https://" +:+ host +:+ rq_RequestURI r), None)
          else
            let '(h, p) := getProxy target h in
            (h, Forward p (if bool_decide (rq_Host r = "") then px_host p else rq_Host r) (rewriteProto (hc_isTLS c)),
             if hasLogger h && negb (ResourceId rule =? 0) then Some (requestLog now rule r) else None)
      end
  end.

End Handler.
Arguments mkHandler {cert} _ _ _ _.
Arguments tlsCache {cert} _.
Arguments fallbackTLS {cert} _.
Arguments proxyCache {cert} _.
Arguments hasLogger {cert} _.
Arguments mkHttpConn {cert} _ _ _.
Arguments hc_rule {cert} _.
Arguments hc_isTLS {cert} _.
Arguments hc_cert {cert} _.


(** ** Cached values are those of the key *)

Lemma str_inj a b : str a = str b → a = b.
Proof. intros E. rewrite <- (unstr_str a), <- (unstr_str b). by rewrite E. Qed.

(** A text is cut in two at the first separator. *)
Lemma cut_inj c (a b a' b' : list ascii) :
  has c a = false → has c a' = false → a ++ c :: b = a' ++ c :: b' → a = a' ∧ b = b'.
Proof. intros Ha Ha' E. pose proof (cut_app c a b Ha) as H1. rewrite E, (cut_app c a' b' Ha') in H1. by injection H1. Qed.

(** No separator in the certificate text. *)
Definition plainCert (rule : SubnetRule) : Prop := has "|"%char (str (TLSCert rule)) = false.

Lemma tlsKey_inj r r' : plainCert r → plainCert r' → tlsKey r = tlsKey r' → TLSCert r = TLSCert r' ∧ TLSKey r = TLSKey r'.
Proof.
  intros Hr Hr' E. apply (f_equal str) in E. unfold tlsKey in E. rewrite !str_app in E. simpl in E.
  destruct (cut_inj "|"%char _ _ _ _ Hr Hr' E) as [E1 E2]. split; by apply str_inj.
Qed.

(** A scheme has no colon. *)
Definition plainScheme (t : HTTPTarget) : Prop := has c_colon (str (ht_Scheme t)) = false.

Lemma targetKey_inj t t' : plainScheme t → plainScheme t' → targetKey t = targetKey t' → newProxy t = newProxy t'.
Proof.
  intros Ht Ht' E. apply (f_equal str) in E. unfold targetKey in E. rewrite !str_app in E. simpl in E.
  destruct (cut_inj ":"%char _ _ _ _ Ht Ht' E) as [E1 E2]. injection E2 as E2. apply str_inj in E1, E2.
  unfold newProxy. by rewrite E1, E2.
Qed.

Section Caches.
Context {cert : Type} (X509KeyPair : string → string → option cert).

(** What is cached for a rule or a target is what would be built for it. *)
Record caches_ok (h : HTTPHandler (cert := cert)) : Prop := {
  ck_tls : ∀ k c, tlsCache h !! k = Some c → ∃ r, plainCert r ∧ tlsKey r = k ∧ X509KeyPair (TLSCert r) (TLSKey r) = Some c;
  ck_proxy : ∀ k p, proxyCache h !! k = Some p → ∃ t, plainScheme t ∧ targetKey t = k ∧ newProxy t = p }.

(** What the handler is used for: connections and requests. *)
Inductive httpOp : Type :=
  | HConn (generated : option cert) (localPort : Z) (rule : SubnetRule)
  | HRequest (now : Z) (conn : option (httpConn (cert := cert))) (r : request)
  | HSetLogger.

Definition opRules (o : httpOp) : list SubnetRule :=
  match o with HConn _ _ r => [r] | HRequest _ (Some c) _ => [hc_rule c] | _ => [] end.

(** Rules as the server sends them. *)
Definition plainRule (r : SubnetRule) : Prop := plainCert r ∧ Forall plainScheme (HTTPTargets r).

Definition httpStep (h : HTTPHandler (cert := cert)) (o : httpOp) : HTTPHandler (cert := cert) :=
  match o with
  | HConn g p r => (HandleConn X509KeyPair g p r h).1
  | HRequest now c r => (handleRequest now c r h).1.1
  | HSetLogger => SetRequestLogger h
  end.

Lemma getTLS_ok g r h :
  caches_ok h → plainCert r →
  caches_ok (getTLSConfig X509KeyPair g r h).1 ∧
  (getTLSConfig X509KeyPair g r h).2 =
    match X509KeyPair (TLSCert r) (TLSKey r) with Some c => Some c | None => default g (fallbackTLS h) end.
Proof.
  intros [H1 H2] Hr. unfold getTLSConfig. destruct (tlsCache h !! tlsKey r) as [c|] eqn:E.
  - split; [done|]. destruct (H1 _ _ E) as (r' & Hr' & Ek & Ex). destruct (tlsKey_inj r' r Hr' Hr Ek) as [E1 E2].
    rewrite <- E1, <- E2. by rewrite Ex.
  - destruct (X509KeyPair (TLSCert r) (TLSKey r)) as [c|] eqn:Ex.
    + split; [|done]. split; simpl; [|done]. intros k c' [[<- <-]|[_ Hk]]%lookup_insert_Some; [by exists r|by apply H1].
    + unfold getFallbackTLSConfig. destruct (fallbackTLS h); [by split|]. split; [|done]. by split.
Qed.

Lemma getProxy_ok t (h : HTTPHandler (cert := cert)) :
  caches_ok h → plainScheme t → caches_ok (getProxy t h).1 ∧ (getProxy t h).2 = newProxy t ∧ hasLogger (getProxy t h).1 = hasLogger h.
Proof.
  intros [H1 H2] Ht. unfold getProxy. destruct (proxyCache h !! targetKey t) as [p|] eqn:E.
  - split; [done|]. split; [|done]. destruct (H2 _ _ E) as (t' & Ht' & Ek & <-). by apply targetKey_inj.
  - split; [|done]. split; simpl; [done|]. intros k p [[<- <-]|[_ Hk]]%lookup_insert_Some; [by exists t|by apply H2].
Qed.

Lemma httpStep_ok h o : caches_ok h → Forall plainRule (opRules o) → caches_ok (httpStep h o).
Proof.
  intros Hh Ho. destruct o as [g p r|now [c|] r|]; simpl in *; [| |done|by destruct Hh].
  - apply Forall_cons in Ho as [[Hr _] _]. unfold HandleConn. destruct (terminatesTLS r p); [|done].
    destruct (getTLS_ok g r h Hh Hr) as [H1 _]. by destruct (getTLSConfig X509KeyPair g r h).
  - apply Forall_cons in Ho as [[_ Hr] _]. destruct (HTTPTargets (hc_rule c)) as [|t l]; [done|].
    apply Forall_cons in Hr as [Ht _]. destruct (_ && _); [done|].
    destruct (getProxy_ok t h Hh Ht) as [H1 _]. by destruct (getProxy t h).
Qed.

Lemma httpRun_ok l : ∀ h, caches_ok h → Forall (λ o, Forall plainRule (opRules o)) l → caches_ok (foldl httpStep h l).
Proof.
  induction l as [|o l IH]; simpl; intros h Hh Hl; [done|]. apply Forall_cons in Hl as [Ho Hl]. apply IH; [|done]. by apply httpStep_ok.
Qed.

Lemma new_handler_ok : caches_ok NewHTTPHandler.
Proof. by split. Qed.

End Caches.

(** ** Connections of the forwarder *)

(** What the forwarder hands over: a rule with a protocol and a target, on one
    of the two ports. *)
Lemma forwarded_rule {Table : Type → Type} `{!BartTable Table} (p : ProxyHandler Table) id dialOk rule :
  (handleTCPConn p id dialOk).2 = [EvHTTP rule] →
  (id_LocalPort id = 80 ∨ id_LocalPort id = 443) ∧ Protocol rule ≠ ""%string ∧ HTTPTargets rule ≠ [].
Proof.
  unfold handleTCPConn. destruct (IsBlocked p); [done|].
  destruct (((id_LocalPort id =? 80) || (id_LocalPort id =? 443)) && ph_http p) eqn:Ep.
  2:{ intros E%(f_equal length). simpl in E. rewrite !length_app in E. simpl in E. rewrite !length_app in E. simpl in E. lia. }
  destruct (Match _ _ _ _ _) as [r|]; [destruct (negb (bool_decide (Protocol r = "")) && Nat.ltb 0 (length (HTTPTargets r))) eqn:Er|].
  2,3: intros E%(f_equal length); simpl in E; rewrite !length_app in E; simpl in E; rewrite !length_app in E; simpl in E; lia.
  simpl. intros [= <-]. apply andb_true_iff in Ep as [Ep _], Er as [E1 E2].
  split; [apply orb_true_iff in Ep as [?%Z.eqb_eq|?%Z.eqb_eq]; auto|].
  split; [intros E; by rewrite E in E1|intros E; by rewrite E in E2].
Qed.

(** ** Properties *)

(** C16: whatever the handler served before, a connection that
    the TCP forwarder hands over is served as its rule says: requests on port
    80 of an https rule are redirected and never forwarded; every other request
    goes to the rule's first target, through a proxy built for exactly that
    target, and TLS is unwrapped just for https, with the rule's own
    certificate or, when it is unusable, the self-signed one.  The caches never
    show, as long as certificates have no bar and schemes no colon. *)
Theorem http_service {Table : Type → Type} `{!BartTable Table} {cert : Type} (X509KeyPair : string → string → option cert) (uses : list (httpOp (cert := cert)))
    (p : ProxyHandler Table) (id : EndpointID) (dialOk : bool) (rule : SubnetRule) (generated : option cert) (now : Z) (r : request) :
  Forall (λ o, Forall plainRule (opRules o)) uses → plainRule rule →
  (handleTCPConn p id dialOk).2 = [EvHTTP rule] →
  let h := foldl (httpStep X509KeyPair) NewHTTPHandler uses in
  let '(h1, c) := HandleConn X509KeyPair generated (id_LocalPort id) rule h in
  let '(h2, answer, log) := handleRequest now (Some c) r h1 in
  if bool_decide (Protocol rule = "https"%string) && (id_LocalPort id =? 80)
  then answer = PermanentRedirect ("https://" +:+ (if bool_decide (rq_Host r = "") then rq_URLHost r else rq_Host r) +:+ rq_RequestURI r)
       ∧ log = None
  else ∃ t, head (HTTPTargets rule) = Some t ∧
    answer = Forward (newProxy t) (if bool_decide (rq_Host r = "") then targetHost t else rq_Host r)
               (if bool_decide (Protocol rule = "https") then "https" else "http") ∧
    hc_cert c = (if bool_decide (Protocol rule = "https")
                 then match X509KeyPair (TLSCert rule) (TLSKey rule) with Some x => Some x | None => default generated (fallbackTLS h) end
                 else None) ∧
    log = (if hasLogger h && negb (ResourceId rule =? 0) then Some (requestLog now rule r) else None).
Proof.
  intros Hu [Hc Ht] Hf. destruct (forwarded_rule _ _ _ _ Hf) as (Hport & _ & Htg).
  pose proof (httpRun_ok X509KeyPair uses NewHTTPHandler (new_handler_ok X509KeyPair) Hu) as Hh.
  set (h := foldl (httpStep X509KeyPair) NewHTTPHandler uses) in *. cbv zeta. unfold HandleConn, terminatesTLS.
  destruct (HTTPTargets rule) as [|t l] eqn:Et; [done|]. apply Forall_cons in Ht as [Ht _].
  destruct (bool_decide (Protocol rule = "https")) eqn:Ep; simpl.
  2:{ unfold handleRequest. simpl. rewrite Et, Ep. simpl. destruct (getProxy_ok X509KeyPair t h Hh Ht) as (_ & Epx & El).
      destruct (getProxy t h) as [h2 px]. simpl in *. subst px. exists t. by rewrite El. }
  destruct Hport as [Hp|Hp]; rewrite Hp; simpl.
  - unfold handleRequest. simpl. rewrite Et, Ep. done.
  - destruct (getTLS_ok X509KeyPair generated rule h Hh Hc) as [Hh1 Ec].
    assert (hasLogger (getTLSConfig X509KeyPair generated rule h).1 = hasLogger h) as El0.
    { unfold getTLSConfig, getFallbackTLSConfig. by repeat case_match. }
    destruct (getTLSConfig X509KeyPair generated rule h) as [h1 c1]. simpl in *.
    unfold handleRequest. simpl. rewrite Et, Ep. simpl. destruct (getProxy_ok X509KeyPair t h1 Hh1 Ht) as (_ & Epx & El).
    destruct (getProxy t h1) as [h2 px]. simpl in *. subst px. exists t. by rewrite El, El0.
Qed.

Lemma lsn_account acts : ∀ l l',
  lsn_run l acts = Some l' → (length (connCh l) ≤ connCap)%nat →
  accepted l' ++ connCh l' = accepted l ++ connCh l ++ taken acts ∧ shut l' = shut l ++ refused acts ∧
  (length (connCh l') ≤ connCap)%nat.
Proof.
  induction acts as [|a acts IH]; intros l l' Hr Hl.
  { injection Hr as <-. cbn [taken refused omap list_omap]. by rewrite !app_nil_r. }
  simpl in Hr. destruct (lsn_step l a) as [l1|] eqn:Ea; [|done].
  destruct a; simpl in Ea.
  - destruct (Nat.ltb_spec (length (connCh l)) connCap) as [Hlt|]; [|done]. injection Ea as <-.
    destruct (IH _ _ Hr) as (E1 & E2 & E3); [simpl; rewrite length_app; simpl; lia|]. simpl in *.
    split; [by rewrite E1, <- app_assoc|done].
  - destruct (lsn_closed l); [|done]. injection Ea as <-. destruct (IH _ _ Hr Hl) as (E1 & E2 & E3). simpl in *.
    split; [done|]. split; [by rewrite E2, <- app_assoc|done].
  - destruct (srv_up l); [|done]. destruct (connCh l) as [|c r] eqn:Ec; [done|]. injection Ea as <-.
    destruct (IH _ _ Hr) as (E1 & E2 & E3); [simpl in *; lia|]. simpl in *. split; [by rewrite E1, <- !app_assoc|done].
  - destruct (srv_up l && lsn_closed l); [|done]. injection Ea as <-. by apply (IH _ _ Hr).
  - injection Ea as <-. by apply (IH _ _ Hr).
Qed.

(** No connection is lost or served twice on its way to the
    server: those the listener took are served in the order in which they came,
    at most 128 wait, and those it refused were closed. *)
Theorem listener_accounts (acts : list lsnAct) (l : chanListener) :
  lsn_run newChanListener acts = Some l →
  taken acts = accepted l ++ connCh l ∧ (length (connCh l) ≤ 128)%nat ∧ shut l = refused acts.
Proof.
  intros Hr. destruct (lsn_account acts newChanListener l Hr) as (E1 & E2 & E3); [simpl; lia|]. by rewrite E1.
Qed.

Lemma lsn_stopped l a l' :
  srv_up l = false → lsn_step l a = Some l' →
  srv_up l' = false ∧ accepted l' = accepted l ∧ connCh l' = connCh l ++ taken [a].
Proof.
  intros Hup. destruct a; simpl; rewrite ?Hup; repeat case_match; intros [= <-]; rewrite ?app_nil_r; done.
Qed.

Lemma lsn_stopped_run acts : ∀ l l',
  srv_up l = false → lsn_run l acts = Some l' → accepted l' = accepted l ∧ connCh l' = connCh l ++ taken acts.
Proof.
  induction acts as [|a acts IH]; intros l l' Hup Hr; [injection Hr as <-; by rewrite app_nil_r|].
  simpl in Hr. destruct (lsn_step l a) as [l1|] eqn:Ea; [|done].
  destruct (lsn_stopped l a l1 Hup Ea) as (H1 & H2 & H3). destruct (IH l1 l' H1 Hr) as [-> ->].
  split; [done|]. rewrite H3, <- app_assoc. f_equal. by destruct a.
Qed.

(** Once the server stopped accepting, the connections that
    wait in the listener are never served and never closed; the listener goes
    on taking more of them while it has room. *)
Theorem listener_strands (acts : list lsnAct) (l l' : chanListener) :
  srv_up l = false → lsn_run l acts = Some l' →
  accepted l' = accepted l ∧ connCh l' = connCh l ++ taken acts ∧
  ((length (connCh l) < 128)%nat → ∀ c, is_Some (lsn_step l (LSend c))).
Proof.
  intros Hup Hr. destruct (lsn_stopped_run acts l l' Hup Hr) as [H1 H2]. split; [done|]. split; [done|].
  intros Hlt c. unfold lsn_step, connCap. rewrite (proj2 (Nat.ltb_lt _ _) Hlt). by eexists.
Qed.

Module HttpExamples.
Import SubnetExamples ProxyExamples.

(** Clients in 10.0.0.0/24 reach 10.20.0.1 over https. *)
Definition web : SubnetRule :=
  mkSubnetRule (mkPrefix (ip4 10 0 0 0) 24) (mkPrefix (ip4 10 20 0 0) 16) false "" [] 7 "https"
    [mkHTTPTarget "192.168.1.5" 8080 "http"; mkHTTPTarget "192.168.1.6" 8080 "http"] "CERT" "KEY".
Definition phw : ProxyHandler gtable := mkProxyHandler true (AddSubnet NewSubnetLookup web) ∅ ∅ ∅ ∅ false [] false [] true.
Definition conn (port : Z) : EndpointID := mkEndpointID 167772165 40000 169082881 port.
Definition pair (c k : string) : option string := if bool_decide (k = "KEY"%string) then Some c else None.
Definition get : request := mkRequest "GET" "app.example" "" "/x?y=1" "/x" "y=1" "curl" "10.0.0.5:40000".

(** On port 443 the request is forwarded, on port 80 it is redirected. *)
Lemma http_service_witness :
  (let '(h, c) := HandleConn pair None 443 web NewHTTPHandler in (handleRequest 0 (Some c) get h).1.2) =
    Forward (mkProxy "http" "192.168.1.5:8080" false) "app.example" "https" ∧
  (let '(h, c) := HandleConn pair None 80 web NewHTTPHandler in (handleRequest 0 (Some c) get h).1.2) =
    PermanentRedirect "https://app.example/x?y=1".
Proof.
  split.
  - pose proof (http_service pair [] phw (conn 443) true web None 0 get) as H. simpl in H.
    destruct H as (t & Ht & Ha & _); [constructor|split; [reflexivity|by repeat constructor]|vm_compute; reflexivity|].
    injection Ht as <-. exact Ha.
  - pose proof (http_service pair [] phw (conn 80) true web None 0 get) as H. simpl in H.
    destruct H as [Ha _]; [constructor|split; [reflexivity|by repeat constructor]|vm_compute; reflexivity|]. exact Ha.
Defined.

(** Two key pairs that a bar in the certificate text confuses: the second rule
    gets the certificate of the first. *)
Definition cert1 : SubnetRule := mkSubnetRule (mkPrefix (ip4 10 0 0 0) 24) (mkPrefix (ip4 10 20 0 0) 16) false "" [] 7 "https" [] "A|B" "KEY".
Definition cert2 : SubnetRule := mkSubnetRule (mkPrefix (ip4 10 0 0 0) 24) (mkPrefix (ip4 10 21 0 0) 16) false "" [] 8 "https" [] "A" "B|KEY".

Example bar_collision :
  let h := (getTLSConfig pair None cert1 NewHTTPHandler).1 in
  (getTLSConfig pair None cert2 h).2 = Some "A|B"%string ∧ pair (TLSCert cert2) (TLSKey cert2) = None.
Proof. split; reflexivity. Qed.

Definition closing : list lsnAct := [LSend 1; LSend 2; LAccept; LClose; LAcceptClosed].

Lemma listener_accounts_witness :
  match lsn_run newChanListener (closing ++ [LRefuse 3; LSend 4]) with
  | Some l => accepted l = [1%nat] ∧ connCh l = [2%nat; 4%nat] ∧ shut l = [3%nat]
  | None => False
  end.
Proof.
  destruct (lsn_run newChanListener (closing ++ [LRefuse 3; LSend 4])) as [l|] eqn:E; [|by vm_compute in E].
  destruct (listener_accounts _ l E) as (H1 & _ & H3). vm_compute in E. injection E as <-. done.
Defined.

(** Closing the handler strands connection 2, and then connection 4. *)
Lemma listener_strands_witness :
  match lsn_run newChanListener closing with
  | Some l => match lsn_run l [LSend 4; LRefuse 5] with Some l' => connCh l' = [2%nat; 4%nat] ∧ accepted l' = [1%nat] | None => False end
  | None => False
  end.
Proof.
  destruct (lsn_run newChanListener closing) as [l|] eqn:E; [|by vm_compute in E].
  destruct (lsn_run l [LSend 4; LRefuse 5]) as [l'|] eqn:E'; [|vm_compute in E; injection E as <-; by vm_compute in E'].
  destruct (listener_strands [LSend 4; LRefuse 5] l l') as (H1 & H2 & _); [vm_compute in E; by injection E as <-|done|].
  rewrite H1, H2. vm_compute in E. injection E as <-. done.
Defined.

End HttpExamples.
