(* ===== verification/Resolver.v ===== *)
(** * Names and dialling of the clients' netstack ([netstack2/tun.go])

    The netstack of the client tunnel has a resolver of its own: it asks the
    configured DNS servers over UDP, then TCP, for the A and AAAA records of a
    name, and dials the addresses it gets one after the other within the
    caller's deadline.

    DNS messages are taken as [dnsmessage]'s parser presents them: a header, a
    question and a sequence of answers that may break off.  The parser, the
    sockets and the clock are parameters. *)

From S2P Require Import Prelude Netip NetipText HostPort.
From Stdlib Require Import Ascii.

(** ** Host names *)

Definition isLetter (c : ascii) : bool :=
  (97 <=? code c) && (code c <=? 122) || (65 <=? code c) && (code c <=? 90) || Ascii.eqb c "_"%char.

(** The loop of [isDomainName]: what is left, the last character, whether
    something was not a digit, and the length of the current part. *)
Fixpoint domainLoop (s : list ascii) (last : ascii) (nonNumeric : bool) (partlen : Z) : bool :=
  match s with
  | [] => if Ascii.eqb last "-"%char || (63 <? partlen) then false else nonNumeric
  | c :: r =>
      if isLetter c then domainLoop r c true (partlen + 1)
      else if isDigit c then domainLoop r c nonNumeric (partlen + 1)
      else if Ascii.eqb c "-"%char then
        if Ascii.eqb last c_dot then false else domainLoop r c true (partlen + 1)
      else if Ascii.eqb c c_dot then
        if Ascii.eqb last c_dot || Ascii.eqb last "-"%char then false
        else if (63 <? partlen) || (partlen =? 0) then false
        else domainLoop r c nonNumeric 0
      else false
  end.

Definition isDomainName (s : string) : bool :=
  let cs := str s in
  let l := Z.of_nat (length cs) in
  if (l =? 0) || (254 <? l) || ((l =? 254) && negb (bool_decide (last cs = Some c_dot))) then false
  else domainLoop cs c_dot false 0.

(** ** DNS messages *)

Record dnsHeader : Type := mkDnsHeader {
  dh_ID : Z; dh_Response : bool; dh_Authoritative : bool; dh_Truncated : bool; dh_RecursionAvailable : bool; dh_RCode : Z }.

Definition RCodeSuccess : Z := 0.
Definition RCodeServerFailure : Z := 2.
Definition RCodeNameError : Z := 3.
Definition TypeA : Z := 1.
Definition TypeAAAA : Z := 28.
Definition ClassINET : Z := 1.

Record Question : Type := mkQuestion { q_Name : list Z; q_Type : Z; q_Class : Z }.

(** The answers from the parser's position on: the end of the section, a
    header that does not parse, or an answer with its type, its address when it
    parses as one, and whether it can be skipped. *)
Inductive answers : Type :=
  | SectionDone
  | BadHeader
  | Answer (type : Z) (address : option Z) (skips : bool) (rest : answers).

(** A message whose first question has been read. *)
Record dnsMessage : Type := mkDnsMessage {
  dm_header : dnsHeader; dm_question : Question; dm_more : bool (* further questions *); dm_answers : answers }.

(** [p.Start] and [p.Question] *)
Class DnsParser : Type := {
  parseHeader : list Z → option dnsHeader;
  parseQuestion : list Z → option Question;
  parseRest : list Z → bool * answers }.

Inductive netErr : Type :=
  | ErrNoSuchHost | ErrLameReferral | ErrCannotUnmarshal | ErrCannotMarshal | ErrServerMisbehaving | ErrInvalidDNSResponse
  | ErrNoAnswer | ErrServerTemporarily | ErrCanceled | ErrTimeout | ErrNumericPort | ErrNoSuitableAddress | ErrMissingAddress
  | ErrUnknownNetwork | ErrSplit
  | ErrIO (timeout opError : bool).     (* of the stack or a socket *)

#[global] Instance netErr_eq_dec : EqDecision netErr.
Proof. solve_decision. Defined.

(** Bytes of names are compared without case. *)
Definition asciiLower (b : Z) : Z := if (65 <=? b) && (b <=? 90) then b + 32 else b.

Fixpoint equalBytes (x y : list Z) : bool :=
  match x, y with
  | [], [] => true
  | a :: x', b :: y' => (asciiLower a =? asciiLower b) && equalBytes x' y'
  | _, _ => false
  end.

Definition equalASCIIName (x y : list Z) : bool := if Nat.eqb (length x) (length y) then equalBytes x y else false.

Definition checkResponse (reqID : Z) (reqQues : Question) (respHdr : dnsHeader) (respQues : Question) : bool :=
  if negb (dh_Response respHdr) then false
  else if negb (reqID =? dh_ID respHdr) then false
  else if negb (q_Type reqQues =? q_Type respQues) || negb (q_Class reqQues =? q_Class respQues)
          || negb (equalASCIIName (q_Name reqQues) (q_Name respQues)) then false
  else true.

(** What a socket does: whether it can be dialled, takes a deadline and the
    request; then the packets or bytes that arrive, and the error after them. *)
Record socket : Type := mkSocket {
  so_dial : option netErr; so_deadline : option netErr; so_write : option netErr; so_reads : list (list Z); so_end : netErr }.

Section Exchange.
Context `{DnsParser}.

(** The loop of [dnsPacketRoundTrip]; a packet is cut to 512 bytes. *)
Fixpoint packetLoop (id : Z) (query : Question) (reads : list (list Z)) (end_ : netErr) : dnsMessage + netErr :=
  match reads with
  | [] => inr end_
  | b :: rest =>
      let b := take 512 b in
      match parseHeader b with
      | None => packetLoop id query rest end_
      | Some h =>
          match parseQuestion b with
          | Some q => if checkResponse id query h q then inl (mkDnsMessage h q (parseRest b).1 (parseRest b).2)
                      else packetLoop id query rest end_
          | None => packetLoop id query rest end_
          end
      end
  end.

Definition dnsPacketRoundTrip (s : socket) (id : Z) (query : Question) : dnsMessage + netErr :=
  match so_write s with Some e => inr e | None => packetLoop id query (so_reads s) (so_end s) end.

(** [dnsStreamRoundTrip]: a length, then that many bytes. *)
Definition dnsStreamRoundTrip (s : socket) (id : Z) (query : Question) : dnsMessage + netErr :=
  match so_write s with
  | Some e => inr e
  | None =>
      match concat (so_reads s) with
      | b0 :: b1 :: rest =>
          let l := Z.to_nat (Z.lor (Z.shiftl b0 8) b1) in
          if Nat.ltb (length rest) l then inr (so_end s)
          else
            let b := take l rest in
            match parseHeader b with
            | None => inr ErrCannotUnmarshal
            | Some h =>
                match parseQuestion b with
                | None => inr ErrCannotUnmarshal
                | Some q => if checkResponse id query h q then inl (mkDnsMessage h q (parseRest b).1 (parseRest b).2)
                            else inr ErrInvalidDNSResponse
                end
            end
      | _ => inr (so_end s)
      end
  end.

(** One turn of the loop of [exchange]; [None]: the answer was truncated. *)
Definition exchangeOnce (roundTrip : socket → dnsMessage + netErr) (s : socket) : option (dnsMessage + netErr) :=
  match so_dial s with
  | Some e => Some (inr e)
  | None =>
      match so_deadline s with
      | Some e => Some (inr e)
      | None =>
          match roundTrip s with
          | inr e => Some (inr e)
          | inl m => if dm_more m then Some (inr ErrInvalidDNSResponse)
                     else if dh_Truncated (dm_header m) then None else Some (inl m)
          end
      end
  end.

(** [exchange]: UDP, then TCP.  [id] is the random number; [marshals] tells
    whether the question can be written. *)
Definition exchange (id : Z) (marshals : bool) (q : Question) (udp tcp : socket) : dnsMessage + netErr :=
  if negb marshals then inr ErrCannotMarshal
  else
    let q := mkQuestion (q_Name q) (q_Type q) ClassINET in
    match exchangeOnce (λ s, dnsPacketRoundTrip s id q) udp with
    | Some r => r
    | None => match exchangeOnce (λ s, dnsStreamRoundTrip s id q) tcp with
              | Some r => r
              | None => inr ErrNoAnswer
              end
    end.

End Exchange.

(** ** Answers *)

Definition checkHeader (m : dnsMessage) : option netErr :=
  let h := dm_header m in
  if dh_RCode h =? RCodeNameError then Some ErrNoSuchHost
  else match dm_answers m with
  | BadHeader => Some ErrCannotUnmarshal
  | a =>
      if (dh_RCode h =? RCodeSuccess) && negb (dh_Authoritative h) && negb (dh_RecursionAvailable h)
         && match a with SectionDone => true | _ => false end then Some ErrLameReferral
      else if negb (dh_RCode h =? RCodeSuccess) && negb (dh_RCode h =? RCodeNameError) then
        if dh_RCode h =? RCodeServerFailure then Some ErrServerTemporarily else Some ErrServerMisbehaving
      else None
  end.

Fixpoint skipToAnswer (a : answers) (qtype : Z) : answers + netErr :=
  match a with
  | SectionDone => inr ErrNoSuchHost
  | BadHeader => inr ErrCannotUnmarshal
  | Answer t _ skips rest => if t =? qtype then inl a else if skips then skipToAnswer rest qtype else inr ErrCannotUnmarshal
  end.

Record DNSError : Type := mkDNSError {
  de_Err : netErr; de_Name : string; de_Server : string; de_IsTimeout : bool; de_IsTemporary : bool; de_IsNotFound : bool }.

(** What one server's answer comes to: the answers, an error that ends the
    search, or one after which the next server is asked. *)
Inductive attempt : Type := Found (a : answers) | Final (e : DNSError) | Retry (e : DNSError).

Definition judge (name server : string) (qtype : Z) (r : dnsMessage + netErr) : attempt :=
  match r with
  | inr e => Retry (mkDNSError e name server (match e with ErrIO t _ => t | _ => false end)
                      (match e with ErrIO _ o => o | _ => false end) false)
  | inl m =>
      match checkHeader m with
      | Some ErrNoSuchHost => Final (mkDNSError ErrNoSuchHost name server false false true)
      | Some e => Retry (mkDNSError e name server false (bool_decide (e = ErrServerTemporarily)) false)
      | None =>
          match skipToAnswer (dm_answers m) qtype with
          | inl a => Found a
          | inr ErrNoSuchHost => Final (mkDNSError ErrNoSuchHost name server false false true)
          | inr e => Retry (mkDNSError e name server false false false)
          end
      end
  end.

(** [result]: the parser at the first answer, the server, the error. *)
Record lane : Type := mkLane { ln_answers : answers; ln_server : string; ln_err : option DNSError }.

(** The loops of [tryOneName] over rounds and servers; [asks] has the results
    of the exchanges, in order.  Without servers there is no error either. *)
Fixpoint tryServers (name : string) (qtype : Z) (asks : list (string * (dnsMessage + netErr))) (lastErr : option DNSError)
    : lane :=
  match asks with
  | [] => mkLane BadHeader "" lastErr         (* an empty parser, which has not been started *)
  | (server, r) :: rest =>
      match judge name server qtype r with
      | Found a => mkLane a server None
      | Final e => mkLane BadHeader server (Some e)
      | Retry e => tryServers name qtype rest (Some e)
      end
  end.

(** [nameOk]: the name can be written in a message; [ask] is [exchange] with a
    server in a round. *)
Definition tryOneName (nameOk : bool) (dnsServers : list Addr) (ask : nat → Addr → dnsMessage + netErr) (name : string) (qtype : Z)
    : lane :=
  if negb nameOk then mkLane BadHeader "" (Some (mkDNSError ErrCannotMarshal "" "" false false false))
  else tryServers name qtype
         (concat ((λ i, (λ s, (AddrString s, ask i s)) <$> dnsServers) <$> [0%nat; 1%nat])) None.

(** The loop over one lane's answers. *)
Fixpoint collect (host server : string) (a : answers) (v4 v6 : list Addr) (lastErr : option DNSError)
    : list Addr * list Addr * option DNSError :=
  let bad := Some (mkDNSError ErrCannotMarshal host server false false false) in
  match a with
  | SectionDone => (v4, v6, lastErr)
  | BadHeader => (v4, v6, bad)
  | Answer t address skips rest =>
      if t =? TypeA then match address with Some ip => collect host server rest (v4 ++ [Addr4 ip]) v6 lastErr | None => (v4, v6, bad) end
      else if t =? TypeAAAA then
        match address with Some ip => collect host server rest v4 (v6 ++ [Addr6 ip ""]) lastErr | None => (v4, v6, bad) end
      else if skips then collect host server rest v4 v6 lastErr else (v4, v6, bad)
  end.

(** The lanes in the order in which they arrive. *)
Fixpoint lanesLoop (host : string) (lanes : list lane) (v4 v6 : list Addr) (lastErr : option DNSError)
    : list Addr * list Addr * option DNSError :=
  match lanes with
  | [] => (v4, v6, lastErr)
  | r :: rest =>
      match ln_err r with
      | Some e => lanesLoop host rest v4 v6 (match lastErr with None => Some e | x => x end)
      | None => let '(v4, v6, lastErr) := collect host (ln_server r) (ln_answers r) v4 v6 lastErr in lanesLoop host rest v4 v6 lastErr
      end
  end.

Definition notFound (host : string) : DNSError := mkDNSError ErrNoSuchHost host "" false false true.

(** [host] without its zone. *)
Definition dropZone (host : string) : string :=
  if has c_colon (str host) then match rcut c_percent (str host) with Some (b, _) => unstr b | None => host end else host.

(** [LookupContextHost]; [lanes] are the results of the two goroutines as they
    arrive, of those that were started. *)
Definition LookupContextHost (hasV4 hasV6 : bool) (host : string) (lanes : list lane) : list string + DNSError :=
  if bool_decide (host = "") || (negb hasV6 && negb hasV4) then inr (notFound host)
  else match ParseAddr (dropZone host) with
  | Some ip => inl [AddrString ip]
  | None =>
      if negb (isDomainName host) then inr (notFound host)
      else
        let '(v4, v6, lastErr) := lanesLoop host lanes [] [] None in
        let addrs := if hasV6 then v6 ++ v4 else v4 ++ v6 in
        match addrs, lastErr with
        | [], Some e => inr e
        | _, _ => inl (AddrString <$> addrs)
        end
  end.

(** ** Dialling *)

Definition partialDeadline (now deadline addrsRemaining : Z) : Z + netErr :=
  if IsZero deadline then inl deadline
  else
    let timeRemaining := timeSub deadline now in
    if timeRemaining <=? 0 then inr ErrTimeout
    else
      let timeout := timeRemaining ÷ addrsRemaining in
      let saneMinimum := 2 * Second in
      let timeout := if timeout <? saneMinimum then (if timeRemaining <? saneMinimum then timeRemaining else saneMinimum) else timeout in
      inl (now + timeout).

Inductive netKind : Type := KTcp | KUdp | KPing.

(** [^(tcp|udp|ping)(4|6)?$], with the families it accepts. *)
Definition protoSplitter (network : string) : option (netKind * bool * bool) :=
  let split (k : netKind) (word : string) : option (netKind * bool * bool) :=
    if bool_decide (network = word) then Some (k, true, true)
    else if bool_decide (network = word +:+ "4") then Some (k, true, false)
    else if bool_decide (network = word +:+ "6") then Some (k, false, true)
    else None in
  match split KTcp "tcp" with Some r => Some r | None => match split KUdp "udp" with Some r => Some r | None => split KPing "ping" end end.

(** The clock and the sockets as the loop meets them, address by address:
    whether the context is done, the time, and what the dial returns. *)
Record dialTurn : Type := mkTurn { dt_done : option netErr; dt_now : Z; dt_dial : AddrPort → option Z → nat + netErr }.

(** The loop over the addresses, with the context's deadline. *)
Fixpoint dialLoop (addrs : list AddrPort) (deadline : option Z) (turns : nat → dialTurn) (firstErr : option netErr) : nat + netErr :=
  match addrs with
  | addr :: rest =>
      let t := turns 0%nat in
      match dt_done t with
      | Some e => inr e
      | None =>
          let until :=
            match deadline with
            | None => inl None
            | Some d => match partialDeadline (dt_now t) d (Z.of_nat (length addrs)) with
                        | inr e => inr e
                        | inl p => inl (Some (if p <? d then p else d))
                        end
            end in
          match until with
          | inr e => inr (match firstErr with Some f => f | None => e end)
          | inl u =>
              match dt_dial t addr u with
              | inl c => inl c
              | inr e => dialLoop rest deadline (λ i, turns (S i)) (match firstErr with None => Some e | x => x end)
              end
          end
      end
  | [] => inr (match firstErr with Some e => e | None => ErrMissingAddress end)
  end.

(** The addresses to try: those of the families asked for. *)
Definition suitable (acceptV4 acceptV6 : bool) (port : Z) (allAddr : list string) : list AddrPort :=
  omap (λ a, match ParseAddr a with
             | Some (Addr4 ip) => if acceptV4 then Some (mkAddrPort (Addr4 ip) port) else None
             | Some (Addr6 ip z) => if acceptV6 then Some (mkAddrPort (Addr6 ip z) port) else None
             | _ => None
             end) allAddr.

(** Host and port of the address. *)
Definition dialHost (k : netKind) (address : string) : (string * Z) + netErr :=
  match k with
  | KPing => inl (address, 0)
  | _ => match SplitHostPort address with
         | None => inr ErrSplit
         | Some (host, sport) => match Atoi sport with
                                 | Some port => if (port <? 0) || (65535 <? port) then inr ErrNumericPort else inl (host, port)
                                 | None => inr ErrNumericPort
                                 end
         end
  end.

(** [DialContext]; [lookup] is [LookupContextHost]. *)
Definition DialContext (lookup : string → list string + DNSError) (network address : string) (deadline : option Z) (turns : nat → dialTurn)
    : nat + (netErr + DNSError) :=
  match protoSplitter network with
  | None => inr (inl ErrUnknownNetwork)
  | Some (k, acceptV4, acceptV6) =>
      match dialHost k address with
      | inr e => inr (inl e)
      | inl (host, port) =>
          match lookup host with
          | inr e => inr (inr e)
          | inl allAddr =>
              let addrs := suitable acceptV4 acceptV6 port allAddr in
              if bool_decide (addrs = []) && negb (bool_decide (allAddr = [])) then inr (inl ErrNoSuitableAddress)
              else match dialLoop addrs deadline turns None with inl c => inl c | inr e => inr (inl e) end
          end
      end
  end.

(** ** What a host name is *)

Definition labelChar (c : ascii) : bool := isLetter c || isDigit c || Ascii.eqb c "-"%char.

(** Letters, digits and dashes, one to 63 of them, no dash at an end. *)
Definition goodLabel (l : list ascii) : bool :=
  forallb labelChar l && (1 <=? Z.of_nat (length l)) && (Z.of_nat (length l) <=? 63) &&
  negb (bool_decide (head l = Some "-"%char)) && negb (bool_decide (last l = Some "-"%char)).

(** The parts between dots. *)
Fixpoint dotParts (s : list ascii) : list (list ascii) :=
  match s with
  | [] => [[]]
  | c :: r => if Ascii.eqb c c_dot then [] :: dotParts r
              else match dotParts r with p :: ps => (c :: p) :: ps | [] => [[c]] end
  end.

(** Labels with dots between them; a dot may end the name. *)
Fixpoint goodParts (ps : list (list ascii)) : bool :=
  match ps with
  | [] => false
  | [p] => bool_decide (p = []) || goodLabel p
  | p :: ps => goodLabel p && goodParts ps
  end.

Definition nonDigit (c : ascii) : bool := isLetter c || Ascii.eqb c "-"%char.

Lemma dotParts_cons s : ∃ p ps, dotParts s = p :: ps.
Proof. induction s as [|c s (p & ps & E)]; simpl; [by eexists _, _|]. destruct (Ascii.eqb c c_dot); [by eexists _, _|]. rewrite E. by eexists _, _. Qed.

Lemma dotParts_app cur s p ps :
  forallb labelChar cur = true → dotParts s = p :: ps → dotParts (cur ++ s) = (cur ++ p) :: ps.
Proof.
  intros Hc E. induction cur as [|c cur IH]; [done|]. simpl in *. apply andb_true_iff in Hc as [H1 H2].
  destruct (Ascii.eqb c c_dot) eqn:Ed; [apply Ascii.eqb_eq in Ed; subst c; done|]. by rewrite (IH H2).
Qed.

(** A first part that is no label spoils the name. *)
Lemma goodParts_bad p ps : p ≠ [] → goodLabel p = false → goodParts (p :: ps) = false.
Proof. intros Hp Hg. simpl. rewrite Hg. rewrite bool_decide_false by done. by destruct ps. Qed.

Definition lastOf (cur : list ascii) : ascii := default c_dot (last cur).

Lemma lastOf_dot cur : forallb labelChar cur = true → Ascii.eqb (lastOf cur) c_dot = bool_decide (cur = []).
Proof.
  intros Hc. destruct cur as [|c r] using rev_ind; [done|]. unfold lastOf. rewrite last_snoc. simpl.
  rewrite forallb_app in Hc. apply andb_true_iff in Hc as [_ Hc]. simpl in Hc.
  rewrite bool_decide_false by (by destruct r). destruct (Ascii.eqb c c_dot) eqn:E; [apply Ascii.eqb_eq in E; by subst c|done].
Qed.

Lemma lastOf_dash cur : forallb labelChar cur = true → Ascii.eqb (lastOf cur) "-"%char = bool_decide (last cur = Some "-"%char).
Proof.
  intros Hc. unfold lastOf. destruct (last cur) as [c|]; [|done]. simpl. destruct (Ascii.eqb c "-"%char) eqn:E.
  - apply Ascii.eqb_eq in E. subst c. by rewrite bool_decide_true.
  - rewrite bool_decide_false; [done|]. intros [= ->]. by rewrite Ascii.eqb_refl in E.
Qed.

(** A part that has been read so far: characters of a label, no dash first. *)
Definition started (cur : list ascii) : Prop := forallb labelChar cur = true ∧ head cur ≠ Some "-"%char.

Lemma started_snoc cur c : started cur → labelChar c = true → (cur = [] → c ≠ "-"%char) → started (cur ++ [c]).
Proof.
  intros [H1 H2] Hc Hd. split; [rewrite forallb_app, H1; simpl; by rewrite Hc|].
  destruct cur; simpl; [intros [= E]; by apply Hd|done].
Qed.

Lemma goodLabel_started cur :
  started cur → goodLabel cur = negb (bool_decide (cur = [])) && negb (63 <? Z.of_nat (length cur)) && negb (bool_decide (last cur = Some "-"%char)).
Proof.
  intros [H1 H2]. unfold goodLabel. rewrite H1, (bool_decide_false _ H2). simpl.
  destruct cur as [|c r]; [done|]. rewrite (bool_decide_false (c :: r = [])) by done. cbn [length].
  replace (1 <=? Z.of_nat (S (length r))) with true by (symmetry; apply Z.leb_le; lia).
  simpl. rewrite andb_true_r, Z.leb_antisym. done.
Qed.

(** Dots and dashes are told apart from letters and digits. *)
Lemma labelChar_cases c : isLetter c = false → isDigit c = false → labelChar c = Ascii.eqb c "-"%char.
Proof. intros H1 H2. unfold labelChar. by rewrite H1, H2. Qed.

Lemma domainLoop_spec s : ∀ cur nn,
  started cur →
  domainLoop s (lastOf cur) nn (Z.of_nat (length cur)) = goodParts (dotParts (cur ++ s)) && (nn || existsb nonDigit s).
Proof.
  induction s as [|c s IH]; intros cur nn Hst; destruct Hst as [Hcur Hhd].
  - cbn [domainLoop existsb]. rewrite (dotParts_app cur [] [] []) by done. rewrite app_nil_r, orb_false_r. cbn [goodParts].
    rewrite goodLabel_started by done. rewrite lastOf_dash by done.
    destruct (bool_decide (cur = [])) eqn:E; [apply bool_decide_eq_true in E; by subst|]. simpl.
    by destruct (bool_decide (last cur = _)), (63 <? _), nn.
  - assert (∀ b, labelChar c = true → (cur = [] → c ≠ "-"%char) →
      domainLoop s c b (Z.of_nat (length cur) + 1) = goodParts (dotParts (cur ++ c :: s)) && (b || existsb nonDigit s)) as Hstep.
    { intros b Hc Hd. specialize (IH (cur ++ [c]) b (started_snoc cur c (conj Hcur Hhd) Hc Hd)).
      unfold lastOf in IH. rewrite last_snoc, length_app, <- app_assoc in IH. simpl in IH. rewrite <- IH. f_equal. simpl. lia. }
    cbn [domainLoop existsb]. destruct (isLetter c) eqn:El.
    + rewrite Hstep; [|unfold labelChar; by rewrite El|intros _ ->; done]. unfold nonDigit at 2. rewrite El. simpl.
      by rewrite orb_true_r.
    + destruct (isDigit c) eqn:Ed.
      * rewrite Hstep; [|unfold labelChar; by rewrite El, Ed|intros _ ->; done].
        unfold nonDigit at 2. rewrite El. simpl. destruct (Ascii.eqb c "-"%char) eqn:Eq; [apply Ascii.eqb_eq in Eq; by subst c|done].
      * destruct (Ascii.eqb c "-"%char) eqn:Eq.
        -- rewrite lastOf_dot by done. destruct (bool_decide (cur = [])) eqn:Ec.
           { apply bool_decide_eq_true in Ec. subst cur. apply Ascii.eqb_eq in Eq. subst c. simpl.
             destruct (dotParts_cons s) as (p & ps & ->). rewrite (goodParts_bad (("-"%char : ascii) :: p) ps); [done|done|].
             unfold goodLabel. cbn [head]. rewrite (bool_decide_true (Some "-"%char = Some "-"%char)) by done. cbn [negb]. by rewrite andb_false_r. }
           apply bool_decide_eq_false in Ec. rewrite Hstep; [|by rewrite labelChar_cases|done].
           unfold nonDigit. rewrite El, Eq. simpl. by rewrite orb_true_r.
        -- destruct (Ascii.eqb c c_dot) eqn:Et.
           ++ assert (dotParts (cur ++ c :: s) = cur :: dotParts s) as Edp.
              { rewrite (dotParts_app cur (c :: s) [] (dotParts s)); [by rewrite app_nil_r|done|]. simpl. by rewrite Et. }
              rewrite Edp. destruct (dotParts_cons s) as (p & ps & Ep). specialize (IH [] nn ltac:(by split)). simpl in IH.
              change (goodParts (cur :: dotParts s)) with (match dotParts s with [] => bool_decide (cur = []) || goodLabel cur | _ :: _ => goodLabel cur && goodParts (dotParts s) end).
              rewrite Ep. rewrite <- Ep. rewrite goodLabel_started by done. rewrite lastOf_dot, lastOf_dash by done.
              assert (nonDigit c = false) as -> by (unfold nonDigit; by rewrite El, Eq). rewrite orb_false_l.
              destruct (bool_decide (cur = [])) eqn:Ec; [done|]. simpl.
              replace (Z.of_nat (length cur) =? 0) with false.
              2:{ symmetry. apply Z.eqb_neq. apply bool_decide_eq_false in Ec. destruct cur; [done|simpl; lia]. }
              rewrite orb_false_r. destruct (bool_decide (last cur = _)); simpl; [by rewrite andb_false_r|].
              rewrite andb_true_r. destruct (63 <? _); simpl; [done|]. apply Ascii.eqb_eq in Et. subst c. exact IH.
           ++ destruct (dotParts_cons s) as (p & ps & Ep).
              rewrite (dotParts_app cur (c :: s) (c :: p) ps) by (done || (simpl; by rewrite Et, Ep)).
              rewrite goodParts_bad; [done|by destruct cur|]. unfold goodLabel. rewrite forallb_app. simpl.
              rewrite (labelChar_cases c El Ed), Eq. simpl. by rewrite andb_false_r.
Qed.

(** ** Messages that are let through *)

Lemma equalBytes_lower x y : equalBytes x y = true ↔ asciiLower <$> x = asciiLower <$> y.
Proof.
  revert y. induction x as [|a x IH]; intros [|b y]; simpl; try done. rewrite andb_true_iff, Z.eqb_eq, IH.
  split; [intros [E1 E2]; by f_equal|intros [= E1 E2]; done].
Qed.

(** A response to the question: same number, type, class, and name up to case. *)
Definition answersQuestion (id : Z) (q : Question) (m : dnsMessage) : Prop :=
  dh_Response (dm_header m) = true ∧ dh_ID (dm_header m) = id ∧ q_Type (dm_question m) = q_Type q ∧
  q_Class (dm_question m) = q_Class q ∧ asciiLower <$> q_Name (dm_question m) = asciiLower <$> q_Name q.

Lemma checkResponse_spec id q h q' more a : checkResponse id q h q' = true → answersQuestion id q (mkDnsMessage h q' more a).
Proof.
  unfold checkResponse, answersQuestion, equalASCIIName. simpl. destruct (dh_Response h); [|done]. simpl.
  destruct (Z.eqb_spec id (dh_ID h)) as [->|]; [|done]. simpl.
  destruct (Z.eqb_spec (q_Type q) (q_Type q')) as [->|]; [|done]. destruct (Z.eqb_spec (q_Class q) (q_Class q')) as [->|]; [|done]. simpl.
  destruct (Nat.eqb _ _); [|done]. destruct (equalBytes (q_Name q) (q_Name q')) eqn:E; [|done]. apply equalBytes_lower in E. auto.
Qed.

Section Responses.
Context `{DnsParser}.

(** Whether a packet is taken for the answer. *)
Definition accepts (id : Z) (q : Question) (b : list Z) : bool :=
  match parseHeader (take 512 b), parseQuestion (take 512 b) with
  | Some h, Some q' => checkResponse id q h q'
  | _, _ => false
  end.

Lemma packetLoop_filter id q e reads :
  packetLoop id q reads e = packetLoop id q (filter (λ b, accepts id q b = true) reads) e.
Proof.
  induction reads as [|b reads IH]; [done|]. rewrite filter_cons.
  destruct (decide (accepts id q b = true)) as [Ha|Ha]; unfold accepts in Ha; cbn [packetLoop];
    destruct (parseHeader (take 512 b)) as [h|]; try done; destruct (parseQuestion (take 512 b)) as [q'|]; try done.
  - by rewrite Ha.
  - by destruct (checkResponse id q h q').
Qed.

Lemma packetLoop_answers id q e reads m : packetLoop id q reads e = inl m → answersQuestion id q m.
Proof.
  induction reads as [|b reads IH]; [done|]. cbn [packetLoop].
  destruct (parseHeader (take 512 b)) as [h|]; [|done]. destruct (parseQuestion (take 512 b)) as [q'|]; [|done].
  destruct (checkResponse id q h q') eqn:Ec; [|done]. intros [= <-]. by apply checkResponse_spec.
Qed.

Lemma stream_answers s id q m : dnsStreamRoundTrip s id q = inl m → answersQuestion id q m.
Proof.
  unfold dnsStreamRoundTrip. destruct (so_write s); [done|]. destruct (concat (so_reads s)) as [|b0 [|b1 rest]]; [done..|].
  destruct (Nat.ltb _ _); [done|]. destruct (parseHeader _) as [h|]; [|done]. destruct (parseQuestion _) as [q'|]; [|done].
  destruct (checkResponse id q h q') eqn:Ec; [|done]. intros [= <-]. by apply checkResponse_spec.
Qed.

Lemma exchangeOnce_inl f s m : exchangeOnce f s = Some (inl m) → f s = inl m ∧ dh_Truncated (dm_header m) = false.
Proof.
  unfold exchangeOnce. destruct (so_dial s); [done|]. destruct (so_deadline s); [done|]. destruct (f s) as [m'|e]; [|done].
  destruct (dm_more m'); [done|]. destruct (dh_Truncated (dm_header m')) eqn:E; [done|]. by intros [= <-].
Qed.

End Responses.

(** ** Collected addresses *)

(** Nothing that was collected is lost, and an error stays. *)
Lemma collect_grows host server a : ∀ v4 v6 e v4' v6' e',
  collect host server a v4 v6 e = (v4', v6', e') →
  v4 `prefix_of` v4' ∧ v6 `prefix_of` v6' ∧ (e' = None → e = None).
Proof.
  induction a as [| |t address skips rest IH]; intros v4 v6 e v4' v6' e'; simpl.
  - by intros [= <- <- <-].
  - by intros [= <- <- <-].
  - destruct (t =? TypeA); [|destruct (t =? TypeAAAA); [|destruct skips]].
    + destruct address as [ip|]; [|by intros [= <- <- <-]]. intros E. destruct (IH _ _ _ _ _ _ E) as (H1 & H2 & H3).
      split; [|done]. by eapply prefix_app_l.
    + destruct address as [ip|]; [|by intros [= <- <- <-]]. intros E. destruct (IH _ _ _ _ _ _ E) as (H1 & H2 & H3).
      split; [done|]. split; [by eapply prefix_app_l|done].
    + apply IH.
    + by intros [= <- <- <-].
Qed.

(** A lane as [tryOneName] leaves it. *)
Definition laneOk (qtype : Z) (l : lane) : Prop :=
  is_Some (ln_err l) ∨ ln_answers l = BadHeader ∨ ∃ ip sk rest, ln_answers l = Answer qtype ip sk rest.

Lemma skipToAnswer_type a qtype a' : skipToAnswer a qtype = inl a' → ∃ ip sk rest, a' = Answer qtype ip sk rest.
Proof.
  induction a as [| |t ip sk rest IH]; simpl; [done..|]. destruct (Z.eqb_spec t qtype) as [->|]; [intros [= <-]; by eexists _, _, _|].
  destruct sk; [done|done].
Qed.

Lemma tryServers_ok name qtype asks : ∀ e, laneOk qtype (tryServers name qtype asks e).
Proof.
  induction asks as [|[server r] asks IH]; intros e; simpl; [right; by left|].
  unfold judge. destruct r as [m|err]; [|apply IH]. destruct (checkHeader m) as [x|].
  - destruct x; apply IH || (left; by eexists).
  - destruct (skipToAnswer (dm_answers m) qtype) as [a|x] eqn:E.
    + right. right. destruct (skipToAnswer_type _ _ _ E) as (ip & sk & rest & ->). by eexists _, _, _.
    + destruct x; apply IH || (left; by eexists).
Qed.

Lemma tryOneName_ok nameOk servers ask name qtype : laneOk qtype (tryOneName nameOk servers ask name qtype).
Proof. unfold tryOneName. destruct nameOk; [apply tryServers_ok|left; by eexists]. Qed.

(** Something was found or something went wrong. *)
Definition settled (r : list Addr * list Addr * option DNSError) : Prop := r.1.1 ≠ [] ∨ r.1.2 ≠ [] ∨ r.2 ≠ None.

Lemma prefix_nonempty {A} (l l' : list A) : l `prefix_of` l' → l ≠ [] → l' ≠ [].
Proof. intros [k ->] Hl. by destruct l. Qed.

Lemma collect_settles host server qtype a v4 v6 e :
  (qtype = TypeA ∨ qtype = TypeAAAA) → a = BadHeader ∨ (∃ ip sk rest, a = Answer qtype ip sk rest) → settled (collect host server a v4 v6 e).
Proof.
  intros Hq [->|(ip & sk & rest & ->)]; [right; right; done|].
  assert (∀ w4 w6, w4 ≠ [] ∨ w6 ≠ [] → settled (collect host server rest w4 w6 e)) as Hgo.
  { intros w4 w6 Hw. destruct (collect host server rest w4 w6 e) as [[v4' v6'] e'] eqn:E.
    destruct (collect_grows _ _ _ _ _ _ _ _ _ E) as (H1 & H2 & _).
    destruct Hw; [left; by eapply prefix_nonempty|right; left; by eapply prefix_nonempty]. }
  destruct Hq as [-> | ->]; simpl.
  - destruct ip as [ip|]; [apply Hgo; left; by destruct v4|right; right; done].
  - destruct ip as [ip|]; [apply Hgo; right; by destruct v6|right; right; done].
Qed.

Lemma lanes_keep host lanes : ∀ v4 v6 e, settled (v4, v6, e) → settled (lanesLoop host lanes v4 v6 e).
Proof.
  induction lanes as [|l lanes IH]; intros v4 v6 e Hs; simpl; [done|]. destruct (ln_err l) as [x|].
  - apply IH. destruct e; [done|]. destruct Hs as [?|[?|?]]; [by left|right; by left|done].
  - destruct (collect host (ln_server l) (ln_answers l) v4 v6 e) as [[v4' v6'] e'] eqn:E. apply IH.
    destruct (collect_grows _ _ _ _ _ _ _ _ _ E) as (H1 & H2 & H3).
    destruct Hs as [Hs|[Hs|Hs]]; [left; by eapply prefix_nonempty|right; left; by eapply prefix_nonempty|right; right; auto].
Qed.

Lemma lanes_settle host qtype l lanes : ∀ v4 v6 e,
  (qtype = TypeA ∨ qtype = TypeAAAA) → laneOk qtype l → settled (lanesLoop host (l :: lanes) v4 v6 e).
Proof.
  intros v4 v6 e Hq Hl. simpl. destruct (ln_err l) as [x|] eqn:Ex.
  - apply lanes_keep. destruct e; right; right; done.
  - destruct Hl as [[? ?]|Hl]; [congruence|]. pose proof (collect_settles host (ln_server l) qtype _ v4 v6 e Hq Hl) as Hs.
    destruct (collect host (ln_server l) (ln_answers l) v4 v6 e) as [[v4' v6'] e']. by apply lanes_keep.
Qed.

(** ** Deadlines *)

Lemma partialDeadline_slice now deadline n p :
  1 <= n → partialDeadline now deadline n = inl p → IsZero deadline = false →
  now < p <= deadline ∧ Z.min (2 * Second) (timeSub deadline now) <= p - now ∧ timeSub deadline now ÷ n <= p - now.
Proof.
  intros Hn. unfold partialDeadline. intros Hp Hz. rewrite Hz in Hp. set (r := timeSub deadline now) in *.
  assert (r <= Z.max (- 2 ^ 63) (deadline - now)) as Hr by (unfold r, timeSub; lia).
  destruct (Z.leb_spec r 0) as [|Hpos]; [done|]. injection Hp as <-.
  assert (0 <= r ÷ n <= r) as Hq by (rewrite Z.quot_div_nonneg by lia; split; [apply Z.div_pos; lia|apply Z.div_le_upper_bound; nia]).
  unfold Second in *. destruct (Z.ltb_spec (r ÷ n) (2 * 1000000000)) as [H1|H1]; [destruct (Z.ltb_spec r (2 * 1000000000))|]; lia.
Qed.

(** ** The loop over the addresses *)

(** The connection comes from an address that was to be tried, after the dials
    to all before it failed; each dial had a share of the deadline. *)
Definition share (deadline : option Z) (now : Z) (n : nat) (u : option Z) : Prop :=
  match deadline with None => u = None | Some d => ∃ p, u = Some (Z.min p d) ∧ partialDeadline now d (Z.of_nat n) = inl p end.

Definition dialled (addrs : list AddrPort) (deadline : option Z) (turns : nat → dialTurn) (firstErr : option netErr) (r : nat + netErr) : Prop :=
  match r with
  | inl c => ∃ i a u, addrs !! i = Some a ∧ dt_dial (turns i) a u = inl c ∧
      (∀ j b, (j < i)%nat → addrs !! j = Some b → ∃ u' e, dt_dial (turns j) b u' = inr e) ∧
      share deadline (dt_now (turns i)) (length addrs - i) u
  | inr e => firstErr = Some e ∨ firstErr = None ∨ ∃ i, dt_done (turns i) = Some e
  end.

Lemma dialled_next a addrs deadline turns firstErr u e r :
  dt_dial (turns 0%nat) a u = inr e →
  dialled addrs deadline (λ i, turns (S i)) (match firstErr with None => Some e | x => x end) r →
  dialled (a :: addrs) deadline turns firstErr r.
Proof.
  intros He. destruct r as [c|x]; simpl.
  - intros (i & b & u' & H1 & H2 & H3 & H4). exists (S i), b, u'. split; [done|]. split; [done|]. split; [|done].
    intros [|j] b' Hj Hb; [injection Hb as <-; by eauto|]. apply (H3 j b'); [lia|done].
  - destruct firstErr; [|auto]. intros [H|[H|[i H]]]; [auto|done|right; right; by exists (S i)].
Qed.

Lemma dialLoop_spec addrs deadline : ∀ turns firstErr, dialled addrs deadline turns firstErr (dialLoop addrs deadline turns firstErr).
Proof.
  induction addrs as [|a addrs IH]; intros turns firstErr; [destruct firstErr; simpl; auto|]. cbn [dialLoop].
  destruct (dt_done (turns 0%nat)) as [e|] eqn:Ed; [right; right; by exists 0%nat|].
  assert (∀ u, share deadline (dt_now (turns 0%nat)) (S (length addrs)) u →
    dialled (a :: addrs) deadline turns firstErr (match dt_dial (turns 0%nat) a u with
           | inl c => inl c
           | inr e => dialLoop addrs deadline (λ i, turns (S i)) (match firstErr with None => Some e | x => x end) end)) as Hdial.
  { intros u Hu. destruct (dt_dial (turns 0%nat) a u) as [c|e] eqn:Ec; [|by eapply dialled_next].
    exists 0%nat, a, u. split; [done|]. split; [done|]. split; [intros; lia|done]. }
  destruct deadline as [d|]; [|exact (Hdial None eq_refl)]. cbn [length].
  destruct (partialDeadline (dt_now (turns 0%nat)) d (Z.of_nat (S (length addrs)))) as [p|e] eqn:Ep.
  - apply (Hdial (Some (if p <? d then p else d))). exists p. split; [|done]. destruct (Z.ltb_spec p d); f_equal; lia.
  - destruct firstErr; simpl; auto.
Qed.

(** ** Properties *)

(** The check of host names accepts exactly the names of
    one to 253 characters (254 with a final dot) that are labels of letters,
    digits, underscores and dashes with dots between them, each of at most 63
    characters and with no dash at an end, not all digits. *)
Theorem domain_name_spec (s : string) :
  isDomainName s = true ↔
  goodParts (dotParts (str s)) = true ∧ existsb nonDigit (str s) = true ∧
  1 <= Z.of_nat (length (str s)) <= 254 ∧ (Z.of_nat (length (str s)) = 254 → last (str s) = Some c_dot).
Proof.
  unfold isDomainName. pose proof (domainLoop_spec (str s) [] false ltac:(by split)) as Hloop.
  change (lastOf []) with c_dot in Hloop. change (Z.of_nat (length (@nil ascii))) with 0 in Hloop.
  rewrite Hloop. cbn [app]. rewrite orb_false_l.
  set (l := Z.of_nat (length (str s))). assert (0 <= l) by lia.
  destruct (Z.eqb_spec l 0) as [E|E]; simpl; [split; [done|intros (_ & _ & ? & _); lia]|].
  destruct (Z.ltb_spec 254 l); [split; [done|intros (_ & _ & ? & _); lia]|]. simpl.
  destruct (Z.eqb_spec l 254) as [E'|E']; simpl.
  - destruct (bool_decide_reflect (last (str s) = Some c_dot)) as [Hd|Hd]; simpl; [|split; [done|intros (_ & _ & _ & Hx); by destruct (Hd (Hx E'))]].
    rewrite andb_true_iff. split; [intros [? ?]; repeat split; auto; lia|tauto].
  - rewrite andb_true_iff. split; [intros [? ?]; repeat split; auto; lia|tauto].
Qed.

(** C25: an exchange with a DNS server returns only a response
    to the question it asked, complete, with its number, type, class and name;
    and packets that are something else change nothing: the result is that of
    the matching packets alone. *)
Theorem dns_answers_match `{DnsParser} (id : Z) (marshals : bool) (q : Question) (udp tcp : socket) :
  let q' := mkQuestion (q_Name q) (q_Type q) ClassINET in
  exchange id marshals q udp tcp =
    exchange id marshals q
      (mkSocket (so_dial udp) (so_deadline udp) (so_write udp) (filter (λ b, accepts id q' b = true) (so_reads udp)) (so_end udp)) tcp ∧
  ∀ m, exchange id marshals q udp tcp = inl m → answersQuestion id q' m ∧ dh_Truncated (dm_header m) = false.
Proof.
  intros q'. unfold exchange. destruct marshals; [|done]. simpl. fold q'. split.
  - assert (exchangeOnce (λ s, dnsPacketRoundTrip s id q') udp = exchangeOnce (λ s, dnsPacketRoundTrip s id q')
      (mkSocket (so_dial udp) (so_deadline udp) (so_write udp) (filter (λ b, accepts id q' b = true) (so_reads udp)) (so_end udp))) as <-; [|done].
    unfold exchangeOnce, dnsPacketRoundTrip. simpl. by rewrite <- packetLoop_filter.
  - intros m. destruct (exchangeOnce (λ s, dnsPacketRoundTrip s id q') udp) as [r|] eqn:Eu.
    + intros ->. apply exchangeOnce_inl in Eu as [Eu Et]. split; [|done]. unfold dnsPacketRoundTrip in Eu.
      destruct (so_write udp); [done|]. by eapply packetLoop_answers.
    + destruct (exchangeOnce (λ s, dnsStreamRoundTrip s id q') tcp) as [r|] eqn:Et; [|done].
      intros ->. apply exchangeOnce_inl in Et as [Et Ett]. split; [|done]. by eapply stream_answers.
Qed.

(** A lookup that succeeds has an address: whatever the
    servers answer and in whichever order the two queries come back, the result
    is an error or a list of at least one address; and an address given as
    text comes back without asking anyone. *)
Theorem lookup_nonempty (nameOk hasV4 hasV6 : bool) (host : string) (servers : list Addr) (ask : Z → nat → Addr → dnsMessage + netErr)
    (lanes : list lane) :
  let query t := tryOneName nameOk servers (ask t) (host +:+ ".") t in
  lanes ≡ₚ (if hasV4 then [query TypeA] else []) ++ (if hasV6 then [query TypeAAAA] else []) →
  (∀ l, LookupContextHost hasV4 hasV6 host lanes = inl l → l ≠ []) ∧
  (∀ ip, host ≠ ""%string → hasV4 || hasV6 = true → ParseAddr (dropZone host) = Some ip →
     LookupContextHost hasV4 hasV6 host lanes = inl [AddrString ip]).
Proof.
  intros query Hl. unfold LookupContextHost. split.
  - intros l. destruct (bool_decide (host = "") || _) eqn:E0; [done|]. destruct (ParseAddr (dropZone host)); [by intros [= <-]|].
    destruct (negb (isDomainName host)); [done|].
    assert (settled (lanesLoop host lanes [] [] None)) as Hs.
    { destruct lanes as [|r lanes].
      - apply Permutation_nil_l in Hl. apply orb_false_iff in E0 as [_ E0]. by destruct hasV4, hasV6.
      - assert (r ∈ (if hasV4 then [query TypeA] else []) ++ (if hasV6 then [query TypeAAAA] else [])) as Hr by (rewrite <- Hl; left).
        assert (laneOk TypeA r ∨ laneOk TypeAAAA r) as [Hok|Hok].
        { apply elem_of_app in Hr as [Hr|Hr]; [left; destruct hasV4|right; destruct hasV6]; try (by apply elem_of_nil in Hr);
            apply list_elem_of_singleton in Hr as ->; apply tryOneName_ok. }
        + apply (lanes_settle host TypeA); auto.
        + apply (lanes_settle host TypeAAAA); auto. }
    destruct (lanesLoop host lanes [] [] None) as [[v4 v6] e]. unfold settled in Hs. simpl in Hs.
    destruct hasV6; [destruct (v6 ++ v4) as [|a x] eqn:Ea|destruct (v4 ++ v6) as [|a x] eqn:Ea]; try (by intros [= <-]);
      apply app_eq_nil in Ea as [-> ->]; (destruct e; [done|]); by destruct Hs as [?|[?|?]].
  - intros ip Hh Hv Hp. rewrite bool_decide_false by done. rewrite Hp. destruct hasV4, hasV6; done.
Qed.

(** A dial gives the connection of the first address of the
    asked family that works: the dials to all the addresses before it failed.
    With a deadline each dial is cut off no later than it, and was given its
    equal share of the time left, or two seconds of it. *)
Theorem dial_first_working (lookup : string → list string + DNSError) (network address : string) (deadline : option Z)
    (turns : nat → dialTurn) (c : nat) :
  DialContext lookup network address deadline turns = inl c →
  (∀ d, deadline = Some d → IsZero d = false) →
  ∃ k accept4 accept6 host port allAddr i a u,
    protoSplitter network = Some (k, accept4, accept6) ∧ dialHost k address = inl (host, port) ∧ lookup host = inl allAddr ∧
    let addrs := suitable accept4 accept6 port allAddr in
    addrs !! i = Some a ∧ dt_dial (turns i) a u = inl c ∧
    (∀ j b, (j < i)%nat → addrs !! j = Some b → ∃ u' e, dt_dial (turns j) b u' = inr e) ∧
    (∀ d, deadline = Some d → ∃ p, u = Some p ∧ dt_now (turns i) < p <= d ∧
       let left := timeSub d (dt_now (turns i)) in
       Z.min (2 * Second) left <= p - dt_now (turns i) ∧ left ÷ Z.of_nat (length addrs - i) <= p - dt_now (turns i)).
Proof.
  unfold DialContext. intros Hd Hz. destruct (protoSplitter network) as [[[k a4] a6]|] eqn:Ek; [|done].
  destruct (dialHost k address) as [[host port]|] eqn:Eh; [|done]. destruct (lookup host) as [allAddr|] eqn:El; [|done].
  set (addrs := suitable a4 a6 port allAddr) in *. destruct (bool_decide (addrs = []) && _); [done|].
  pose proof (dialLoop_spec addrs deadline turns None) as Hs. destruct (dialLoop addrs deadline turns None) as [c'|e]; [|done].
  injection Hd as <-. destruct Hs as (i & a & u & H1 & H2 & H3 & H4).
  exists k, a4, a6, host, port, allAddr, i, a, u. split; [done|]. split; [done|]. split; [done|].
  cbv zeta. fold addrs. split; [done|]. split; [done|]. split; [done|]. intros d Ed. unfold share in H4. rewrite Ed in H4.
  destruct H4 as (p & -> & Hp). pose proof (lookup_lt_Some _ _ _ H1) as Hlt.
  destruct (partialDeadline_slice _ d (Z.of_nat (length addrs - i)) p ltac:(lia) Hp (Hz d Ed)) as (Hb & Hm & Hq).
  exists p. rewrite Z.min_l by lia. auto.
Qed.

Module ResolverExamples.

Example names :
  isDomainName <$> ["example.com"; "example.com."; "_srv.example"; "a-b.c"; "-a.c"; "a-.c"; "a..c"; "1.2.3"; "x"; ""; "."; "a b"]%string =
  [true; true; true; true; false; false; false; false; true; false; false; false].
Proof. vm_compute. reflexivity. Qed.

(** A parser for messages of six bytes: number, response bit, truncation,
    return code, question type, and an address for the answer. *)
Definition toy : DnsParser := {|
  parseHeader := λ b, match b with i :: r :: t :: c :: _ => Some (mkDnsHeader i (r =? 1) true (t =? 1) true c) | _ => None end;
  parseQuestion := λ b, match b with _ :: _ :: _ :: _ :: q :: _ => Some (mkQuestion [97; 98] q 1) | _ => None end;
  parseRest := λ b, (false, match b with _ :: _ :: _ :: _ :: q :: a :: _ => Answer q (Some a) true SectionDone | _ => BadHeader end) |}.
#[local] Existing Instance toy.

Definition quiet_socket (reads : list (list Z)) : socket := mkSocket None None None reads (ErrIO true true).

(** A packet with another number is passed over; one with the question's name
    in capitals is taken. *)
Example spoofed :
  exchange 7 true (mkQuestion [65; 98] 1 1) (quiet_socket [[8;1;0;0;1;9]; [7;1;0;0;28;9]; [7;1;0;0;1;10]]) (quiet_socket []) =
  inl (mkDnsMessage (mkDnsHeader 7 true true false true 0) (mkQuestion [97; 98] 1 1) false (Answer 1 (Some 10) true SectionDone)).
Proof. vm_compute. reflexivity. Qed.

(** A truncated answer is asked for again over TCP. *)
Example truncated :
  exchange 7 true (mkQuestion [97; 98] 1 1) (quiet_socket [[7;1;1;0;1;9]]) (quiet_socket [[0]; [6; 7; 1]; [0; 0; 1; 11]]) =
  inl (mkDnsMessage (mkDnsHeader 7 true true false true 0) (mkQuestion [97; 98] 1 1) false (Answer 1 (Some 11) true SectionDone)).
Proof. vm_compute. reflexivity. Qed.

Definition server : Addr := Addr4 167837953.   (* 10.1.1.1 *)

(** The AAAA query fails, the A query answers in the second round. *)
Definition answer (t : Z) (round : nat) (s : Addr) : dnsMessage + netErr :=
  if t =? TypeAAAA then inr (ErrIO true true)
  else match round with
       | O => inr (ErrIO true true)
       | S _ => exchange 7 true (mkQuestion [97; 98] t 1) (quiet_socket [[7;1;0;0;1;10]]) (quiet_socket [])
       end.

Definition lanes : list lane :=
  [tryOneName true [server] (answer TypeAAAA) "ab." TypeAAAA; tryOneName true [server] (answer TypeA) "ab." TypeA].

Lemma lookup_nonempty_witness :
  LookupContextHost true true "ab" lanes = inl ["0.0.0.10"%string] ∧ ["0.0.0.10"%string] ≠ [].
Proof.
  assert (LookupContextHost true true "ab" lanes = inl ["0.0.0.10"%string]) as E by (vm_compute; reflexivity).
  split; [exact E|]. destruct (lookup_nonempty true true true "ab" [server] answer lanes) as [H _]; [apply Permutation_swap|]. exact (H _ E).
Defined.

(** The first address refuses, the second answers; ten seconds are left. *)
Definition turn (n : nat) : dialTurn :=
  mkTurn None (100 * Second + Z.of_nat n * Second) (λ _ _, match n with O => inr (ErrIO false true) | S _ => inl 5%nat end).

Lemma dial_first_working_witness :
  DialContext (λ _, inl ["fd00::1"; "10.0.0.1"; "10.0.0.2"]%string) "tcp4" "db.example:5432" (Some (110 * Second)) turn = inl 5%nat ∧
  ∃ a u, dt_dial (turn 1) a u = inl 5%nat.
Proof.
  assert (DialContext (λ _, inl ["fd00::1"; "10.0.0.1"; "10.0.0.2"]%string) "tcp4" "db.example:5432" (Some (110 * Second)) turn = inl 5%nat) as E
    by (vm_compute; reflexivity).
  split; [exact E|].
  destruct (dial_first_working _ _ _ _ _ _ E) as (k & a4 & a6 & host & port & allAddr & i & a & u & _ & _ & _ & _ & Hd & _);
    [intros d [= <-]; reflexivity|].
  destruct i; [done|]. exists a, u. exact Hd.
Defined.

End ResolverExamples.
