(* ===== verification/SharedBind.v ===== *)
(** * The shared UDP bind ([bind/shared_bind.go])

    One UDP socket shared by WireGuard and the hole-punch senders: reference
    counting, replacement of the socket, the two receive paths (socket and
    packets injected from the netstack), the connectivity-test ("magic")
    packets that are answered here and never reach WireGuard, and the choice
    between socket and netstack when sending.

    A [UDPConn] is a handle with its local port; what the code does to the
    outside is a list of [bindEvent]s in program order.  The outcome of a read
    or a write is an argument.  Byte buffers are lists of bytes updated in
    place by index, as the code does. *)

From S2P Require Import Prelude Netip NetipText HostPort.

(** ** Magic packets *)

Definition bytes_of (s : string) : list Z := code <$> str s.

Definition MagicTestRequest : list Z := bytes_of "PANGOLIN_TEST_REQ".
Definition MagicTestResponse : list Z := bytes_of "PANGOLIN_TEST_RSP".
Definition MagicPacketDataLen : nat := 8.
Definition MagicTestRequestLen : nat := 17 + MagicPacketDataLen.
Definition MagicTestResponseLen : nat := 17 + MagicPacketDataLen.

(** [bytes.HasPrefix]. *)
Definition HasPrefix (s prefix : list Z) : bool := bool_decide (take (length prefix) s = prefix).

Definition IsMagicPacket (payload : list Z) : bool :=
  if Nat.leb MagicTestRequestLen (length payload) && HasPrefix payload MagicTestRequest then true
  else if Nat.leb MagicTestResponseLen (length payload) && HasPrefix payload MagicTestResponse then true
  else false.

(** ** State *)

Record UDPConn : Type := mkUDPConn { conn_id : nat; conn_port : Z }.
#[global] Instance UDPConn_eq_dec : EqDecision UDPConn.
Proof. solve_decision. Defined.

Record injectedPacket : Type := mkInjected { inj_data : list Z; inj_endpoint : AddrPort }.

Record SharedBind : Type := mkSharedBind {
  udpConn : option UDPConn;
  ipv4PC : option UDPConn;
  refCount : Z;
  closed : bool;
  port : Z;
  netstackPackets : list injectedPacket;
  netstackConn : option nat;
  netstackEndpoints : gset AddrPort;
  ipv4Msgs : nat;
  hasCallback : bool;
  rebinding : bool }.

Definition netstackCap : nat := 1024.

Inductive bindEvent : Type :=
  | EvCloseConn (c : UDPConn)
  | EvWriteUDP (c : UDPConn) (data : list Z) (dst : AddrPort)
  | EvWriteNetstack (c : nat) (data : list Z) (dst : AddrPort)
  | EvCallback (from : AddrPort) (echo : list Z)
  | EvBroadcast.

Inductive bindErr : Type :=
  | NoError | ErrClosed | ErrBindClosed | ErrNilConn | ErrBufferFull | ErrNegative | ErrNoDestination | ErrIO.

Definition set_socket (u pc : option UDPConn) (p : Z) (msgs : nat) (r : bool) (b : SharedBind) : SharedBind :=
  mkSharedBind u pc (refCount b) (closed b) p (netstackPackets b) (netstackConn b) (netstackEndpoints b)
    msgs (hasCallback b) r.
Definition set_refCount (n : Z) (b : SharedBind) : SharedBind :=
  mkSharedBind (udpConn b) (ipv4PC b) n (closed b) (port b) (netstackPackets b) (netstackConn b)
    (netstackEndpoints b) (ipv4Msgs b) (hasCallback b) (rebinding b).
Definition set_netstack (q : list injectedPacket) (c : option nat) (e : gset AddrPort) (b : SharedBind) : SharedBind :=
  mkSharedBind (udpConn b) (ipv4PC b) (refCount b) (closed b) (port b) q c e (ipv4Msgs b) (hasCallback b) (rebinding b).
Definition set_callback (v : bool) (b : SharedBind) : SharedBind :=
  mkSharedBind (udpConn b) (ipv4PC b) (refCount b) (closed b) (port b) (netstackPackets b) (netstackConn b)
    (netstackEndpoints b) (ipv4Msgs b) v (rebinding b).

Definition New (conn : option UDPConn) : option SharedBind :=
  match conn with
  | None => None
  | Some c => Some (mkSharedBind (Some c) None 1 false (wrap16 (conn_port c)) [] None ∅ 0 false false)
  end.

Definition SetNetstackConn (c : nat) (b : SharedBind) : SharedBind :=
  set_netstack (netstackPackets b) (Some c) (netstackEndpoints b) b.

Definition ClearNetstackConn (b : SharedBind) : SharedBind := set_netstack (netstackPackets b) None ∅ b.

Definition SetMagicResponseCallback (v : bool) (b : SharedBind) : SharedBind := set_callback v b.

(** [if a.Is4In6() { a = AddrPortFrom(a.Unmap(), port) }], used on every
    address that comes from outside. *)
Definition unmapAddrPort (ap : AddrPort) : AddrPort :=
  if Is4In6 (ap_addr ap) then mkAddrPort (Unmap (ap_addr ap)) (ap_port ap) else ap.

Definition InjectPacket (data : list Z) (fromAddr : AddrPort) (b : SharedBind) : SharedBind * bindErr :=
  if closed b then (b, ErrClosed)
  else
    let from := unmapAddrPort fromAddr in
    let b' := set_netstack (netstackPackets b) (netstackConn b) ({[from]} ∪ netstackEndpoints b) b in
    if Nat.ltb (length (netstackPackets b)) netstackCap
    then (set_netstack (netstackPackets b ++ [mkInjected data from]) (netstackConn b') (netstackEndpoints b') b', NoError)
    else (b', ErrBufferFull).

(** ** Reference counting and replacement of the socket *)

Definition AddRef (b : SharedBind) : SharedBind := set_refCount (swrap32 (refCount b + 1)) b.

Definition closeEvents (u : option UDPConn) : list bindEvent :=
  match u with Some c => [EvCloseConn c] | None => [] end.

(** [closeErr] is what closing the socket returns. *)
Definition closeConnection (closeErr : bindErr) (b : SharedBind) : SharedBind * list bindEvent * bindErr :=
  if closed b then (b, [], NoError)
  else
    (mkSharedBind None None (refCount b) true (port b) (netstackPackets b) None ∅ (ipv4Msgs b)
       (hasCallback b) (rebinding b),
     closeEvents (udpConn b),
     match udpConn b with Some _ => closeErr | None => NoError end).

Definition Release (closeErr : bindErr) (b : SharedBind) : SharedBind * list bindEvent * bindErr :=
  let newCount := swrap32 (refCount b - 1) in
  if newCount <? 0 then (set_refCount 0 b, [], ErrNegative)
  else if newCount =? 0 then closeConnection closeErr (set_refCount newCount b)
  else (set_refCount newCount b, [], NoError).

Definition bind_Close (closeErr : bindErr) (b : SharedBind) : SharedBind * list bindEvent * bindErr := Release closeErr b.

Definition CloseSocket (b : SharedBind) : SharedBind * list bindEvent * (Z * bindErr) :=
  if closed b then (b, [], (0, ErrBindClosed))
  else (set_socket None (ipv4PC b) (port b) (ipv4Msgs b) true b, closeEvents (udpConn b), (port b, NoError)).

Section platform.
(** [wgConn.IdealBatchSize] of the WireGuard library. *)
Context (IdealBatchSize : nat).

(** [linux] is whether the build is for Linux or Android. *)
Definition Rebind (linux : bool) (newConn : option UDPConn) (b : SharedBind) : SharedBind * list bindEvent * bindErr :=
  match newConn with
  | None => (b, [], ErrNilConn)
  | Some c =>
      if closed b then (b, [], ErrBindClosed)
      else (set_socket (Some c) (Some c) (wrap16 (conn_port c))
              (if linux then IdealBatchSize else ipv4Msgs b) false b,
            closeEvents (udpConn b) ++ [EvBroadcast], NoError)
  end.

(** [Open] also returns the two receive functions below. *)
Definition Open (linux : bool) (b : SharedBind) : SharedBind * (Z * bindErr) :=
  if closed b then (b, (0, ErrClosed))
  else
    match udpConn b with
    | None => (b, (0, ErrClosed))
    | Some c =>
        (if linux then set_socket (Some c) (Some c) (port b) IdealBatchSize (rebinding b) b else b, (port b, NoError))
    end.

Definition BatchSize (linux : bool) : nat := if linux then IdealBatchSize else 1.

End platform.

Definition WriteToUDP (b : SharedBind) (data : list Z) (dst : AddrPort) (io : bindErr) : list bindEvent * bindErr :=
  if closed b then ([], ErrClosed)
  else match udpConn b with None => ([], ErrClosed) | Some c => ([EvWriteUDP c data dst], io) end.

(** ** Receiving *)

(** [handleMagicPacket]: what it sends or calls, and whether the packet was
    one of ours. *)
Definition handleMagicPacket (b : SharedBind) (data : list Z) (addr : AddrPort) : list bindEvent * bool :=
  if Nat.leb MagicTestRequestLen (length data) && HasPrefix data MagicTestRequest then
    let echoData := take MagicPacketDataLen (drop (length MagicTestRequest) data) in
    (match udpConn b with Some c => [EvWriteUDP c (MagicTestResponse ++ echoData) addr] | None => [] end, true)
  else if Nat.leb MagicTestResponseLen (length data) && HasPrefix data MagicTestResponse then
    let echoData := take MagicPacketDataLen (drop (length MagicTestResponse) data) in
    (if hasCallback b then [EvCallback (unmapAddrPort addr) echoData] else [], true)
  else ([], false).

(** The slices a receive function fills. *)
Record recvBufs : Type := mkRecv { r_bufs : list (list Z); r_sizes : list Z; r_eps : list (option AddrPort) }.

(** [copy(dst, src)]. *)
Definition copyBytes (dst src : list Z) : list Z :=
  take (length dst) src ++ drop (length src) dst.

(** One message of [ReadBatch]: its length and, when known, its UDP sender. *)
Record ipv4Message : Type := mkMessage { m_N : nat; m_Addr : option AddrPort }.

(** Body of the loop of [receiveIPv4Batch] over message [i]. *)
Definition batchStep (b : SharedBind) (st : recvBufs * nat * list bindEvent) (im : nat * ipv4Message)
    : recvBufs * nat * list bindEvent :=
  let '(r, writeIdx, evs) := st in
  let '(i, m) := im in
  if Nat.eqb (m_N m) 0 then st
  else
    let data := take (m_N m) (default [] (r_bufs r !! i)) in
    let '(mevs, handled) :=
      match m_Addr m with Some a => handleMagicPacket b data a | None => ([], false) end in
    if handled : bool then (r, writeIdx, evs ++ mevs)
    else
      let bufs' := if Nat.eqb writeIdx i then r_bufs r
                   else <[writeIdx := copyBytes (default [] (r_bufs r !! writeIdx)) data]> (r_bufs r) in
      (mkRecv bufs' (<[writeIdx := Z.of_nat (m_N m)]> (r_sizes r))
         (match m_Addr m with
          | Some a => <[writeIdx := Some (unmapAddrPort a)]> (r_eps r)
          | None => r_eps r
          end),
       S writeIdx, evs).

(** [receiveIPv4Batch] after [ReadBatch] returned [msgs] with their bytes in
    the buffers: the compacted slices and the number of packets. *)
Definition receiveIPv4Batch (b : SharedBind) (r : recvBufs) (msgs : list ipv4Message)
    : recvBufs * nat * list bindEvent :=
  foldl (batchStep b) (r, 0%nat, []) (imap pair msgs).

(** [receiveIPv4Simple] on the datagrams the socket yields, one per read:
    magic packets are answered and skipped, the first other one is returned;
    [None] when the reads end with an error first. *)
Fixpoint receiveIPv4Simple (b : SharedBind) (reads : list (list Z * option AddrPort)) (oldEp : option AddrPort)
    : list bindEvent * option (list Z * option AddrPort) :=
  match reads with
  | [] => ([], None)
  | (data, addr) :: rest =>
      let '(evs, handled) :=
        match addr with Some a => handleMagicPacket b data a | None => ([], false) end in
      if handled : bool then
        let '(evs', res) := receiveIPv4Simple b rest oldEp in (evs ++ evs', res)
      else (evs, Some (data, match addr with Some a => Some (unmapAddrPort a) | None => oldEp end))
  end.

(** Result of the netstack receive function: blocked, closed, or a count. *)
Inductive netstackRecv : Type :=
  | NrBlocked
  | NrClosed
  | NrPacket (n : nat) (buf : list Z) (ep : option AddrPort).

(** [makeReceiveNetstack]; [pickClosed] resolves the [select] when the bind is
    closed and packets are queued. *)
Definition receiveNetstack (pickClosed : bool) (b : SharedBind) (buf0 : list Z) : SharedBind * netstackRecv :=
  match netstackPackets b with
  | [] => (b, if closed b then NrClosed else NrBlocked)
  | p :: q =>
      if closed b && pickClosed then (b, NrClosed)
      else
        let b' := set_netstack q (netstackConn b) (netstackEndpoints b) b in
        (b', if Nat.leb (length (inj_data p)) (length buf0)
             then NrPacket 1 (copyBytes buf0 (inj_data p)) (Some (inj_endpoint p))
             else NrPacket 0 buf0 None)
  end.

(** ** Sending *)

(** The endpoints [Send] may be given: WireGuard's own, or another one seen
    through its destination bytes. *)
Inductive bindEndpoint : Type :=
  | StdNetEndpoint (ap : AddrPort)
  | OtherEndpoint (dstBytes : list Z).

Definition be_num (l : list Z) : Z := foldl (λ acc x, acc * 256 + x) 0 l.

(** [netip.AddrFromSlice] on 4 or 16 bytes. *)
Definition AddrFromSlice (l : list Z) : Addr :=
  if Nat.eqb (length l) 4 then Addr4 (be_num l)
  else if Nat.eqb (length l) 16 then Addr6 (be_num l) ""
  else AddrInvalid.

Definition byteAt (l : list Z) (i : nat) : Z := default 0 (l !! i).

Definition decodeDst (dstBytes : list Z) : AddrPort :=
  if Nat.leb 6 (length dstBytes) then
    if Nat.leb 18 (length dstBytes) then
      mkAddrPort (AddrFromSlice (take 16 dstBytes)) (Z.lor (byteAt dstBytes 16) (Z.shiftl (byteAt dstBytes 17) 8))
    else
      mkAddrPort (AddrFromSlice (take 4 dstBytes)) (Z.lor (byteAt dstBytes 4) (Z.shiftl (byteAt dstBytes 5) 8))
  else mkAddrPort AddrInvalid 0.

Definition destination (ep : bindEndpoint) : AddrPort :=
  match ep with StdNetEndpoint ap => ap | OtherEndpoint bs => decodeDst bs end.

(** Writing the buffers in order until one fails; [ok k] tells whether the
    [k]-th write succeeds. *)
Fixpoint writeAll (mk : list Z → bindEvent) (ok : nat → bool) (k : nat) (bufs : list (list Z))
    : list bindEvent * bindErr :=
  match bufs with
  | [] => ([], NoError)
  | buf :: rest =>
      if ok k then let '(evs, e) := writeAll mk ok (S k) rest in (mk buf :: evs, e)
      else ([mk buf], ErrIO)
  end.

Definition Send (b : SharedBind) (bufs : list (list Z)) (ep : bindEndpoint) (ok : nat → bool)
    : list bindEvent * bindErr :=
  if closed b then ([], ErrClosed)
  else
    let dst := destination ep in
    if negb (ap_valid dst) then ([], ErrNoDestination)
    else
      let viaSocket :=
        match udpConn b with
        | None => ([], ErrClosed)
        | Some c => writeAll (λ d, EvWriteUDP c d dst) ok 0 bufs
        end in
      if bool_decide (dst ∈ netstackEndpoints b) then
        match netstackConn b with
        | Some c => writeAll (λ d, EvWriteNetstack c d dst) ok 0 bufs
        | None => viaSocket
        end
      else viaSocket.

(** [DstToBytes]: [AddrPort.MarshalBinary], the address bytes, the zone, and
    the port with its low byte first. *)
Fixpoint be_list (n : nat) (v : Z) : list Z :=
  match n with O => [] | S k => Z.land (Z.shiftr v (8 * Z.of_nat k)) 255 :: be_list k v end.

Definition DstToBytes (ap : AddrPort) : list Z :=
  (match ap_addr ap with
   | AddrInvalid => []
   | Addr4 ip => be_list 4 ip
   | Addr6 ip z => be_list 16 ip ++ bytes_of z
   end) ++ [Z.land (ap_port ap) 255; Z.shiftr (ap_port ap) 8].

Definition DstToString (ap : AddrPort) : string := AddrPortString ap.

Definition ParseEndpoint (s : string) : option bindEndpoint := StdNetEndpoint <$> ParseAddrPort s.

(** ** Lemmas *)

Lemma HasPrefix_app p t : HasPrefix (p ++ t) p = true.
Proof. unfold HasPrefix. rewrite take_app_length. by apply bool_decide_eq_true. Qed.

(** The handler claims exactly the packets [IsMagicPacket] recognises, and
    does nothing with the others. *)
Lemma handleMagicPacket_IsMagic b data addr :
  (handleMagicPacket b data addr).2 = IsMagicPacket data ∧
  (IsMagicPacket data = false → (handleMagicPacket b data addr).1 = []).
Proof.
  unfold handleMagicPacket, IsMagicPacket.
  destruct (_ && HasPrefix data MagicTestRequest); [done|].
  by destruct (_ && HasPrefix data MagicTestResponse).
Qed.

Lemma handle_not_magic b data addr :
  IsMagicPacket data = false → handleMagicPacket b data addr = ([], false).
Proof.
  intros Hm. destruct (handleMagicPacket_IsMagic b data addr) as [H1 H2].
  destruct (handleMagicPacket b data addr) as [evs h]. simpl in *. by rewrite H1, Hm, (H2 Hm).
Qed.

Lemma handle_request b c d addr :
  length d = MagicPacketDataLen → udpConn b = Some c →
  handleMagicPacket b (MagicTestRequest ++ d) addr = ([EvWriteUDP c (MagicTestResponse ++ d) addr], true).
Proof.
  intros Hd Hc. unfold handleMagicPacket. rewrite HasPrefix_app, length_app, Hd, Hc.
  change (Nat.leb MagicTestRequestLen (length MagicTestRequest + MagicPacketDataLen)) with true. simpl andb.
  cbv iota. rewrite drop_app_length, take_ge by lia. done.
Qed.

Lemma response_not_request d : HasPrefix (MagicTestResponse ++ d) MagicTestRequest = false.
Proof. unfold HasPrefix. apply bool_decide_eq_false. by vm_compute. Qed.

Lemma handle_response b d addr :
  length d = MagicPacketDataLen →
  handleMagicPacket b (MagicTestResponse ++ d) addr =
  (if hasCallback b then [EvCallback (unmapAddrPort addr) d] else [], true).
Proof.
  intros Hd. unfold handleMagicPacket. rewrite response_not_request, andb_false_r, HasPrefix_app, length_app, Hd.
  change (Nat.leb MagicTestResponseLen (length MagicTestResponse + MagicPacketDataLen)) with true. simpl andb.
  cbv iota. rewrite drop_app_length, take_ge by lia. done.
Qed.

Lemma copyBytes_take dst src : (length src <= length dst)%nat → take (length src) (copyBytes dst src) = src.
Proof.
  intros H. unfold copyBytes. rewrite (take_ge src) by done. by rewrite take_app_length.
Qed.

Lemma copyBytes_length dst src : length (copyBytes dst src) = length dst.
Proof. unfold copyBytes. rewrite length_app, length_take, length_drop. lia. Qed.

(** ** Batch reception, specified *)

(** The messages of a batch with their bytes. *)
Definition arrived (r : recvBufs) (msgs : list ipv4Message) : list (list Z * ipv4Message) :=
  zip_with (λ buf m, (take (m_N m) buf, m)) (r_bufs r) msgs.

(** The ones WireGuard is to see: not empty and not magic. *)
Definition deliverable (p : list Z * ipv4Message) : bool :=
  negb (Nat.eqb (m_N p.2) 0) && negb (IsMagicPacket p.1).

Definition kept (l : list (list Z * ipv4Message)) : list (list Z * ipv4Message) := filter (λ p, deliverable p) l.

(** The responses and callbacks the magic ones cause, in order. *)
Definition magicEvents (b : SharedBind) (l : list (list Z * ipv4Message)) : list bindEvent :=
  concat ((λ p, match m_Addr p.2 with
                | Some a => if Nat.eqb (m_N p.2) 0 then [] else (handleMagicPacket b p.1 a).1
                | None => []
                end) <$> l).

(** What the caller provides and [ReadBatch] returns: buffers of one size,
    room for every message, and a UDP sender for each. *)
Definition batch_ok (r : recvBufs) (msgs : list ipv4Message) (size : nat) : Prop :=
  (length msgs <= length (r_bufs r))%nat ∧ length (r_sizes r) = length (r_bufs r) ∧
  length (r_eps r) = length (r_bufs r) ∧ Forall (λ buf, length buf = size) (r_bufs r) ∧
  Forall (λ m, (m_N m <= size)%nat ∧ m_Addr m ≠ None) msgs.

(** Slot [k] of the output holds packet [p]. *)
Definition slot_holds (r : recvBufs) (k : nat) (p : list Z * ipv4Message) : Prop :=
  ∃ buf, r_bufs r !! k = Some buf ∧ take (m_N p.2) buf = p.1 ∧
         r_sizes r !! k = Some (Z.of_nat (length p.1)) ∧
         r_eps r !! k = Some (unmapAddrPort <$> m_Addr p.2).

Record batch_inv (b : SharedBind) (r0 : recvBufs) (size : nat) (msgs : list ipv4Message)
    (st : recvBufs * nat * list bindEvent) : Prop := {
  bi_count : st.1.2 = length (kept (arrived r0 msgs));
  bi_le : (st.1.2 <= length msgs)%nat;
  bi_slots : ∀ k p, kept (arrived r0 msgs) !! k = Some p → slot_holds st.1.1 k p;
  bi_rest : ∀ j, (st.1.2 <= j)%nat → r_bufs st.1.1 !! j = r_bufs r0 !! j;
  bi_len : length (r_bufs st.1.1) = length (r_bufs r0) ∧ length (r_sizes st.1.1) = length (r_bufs r0) ∧
           length (r_eps st.1.1) = length (r_bufs r0);
  bi_events : st.2 = magicEvents b (arrived r0 msgs) }.

Lemma arrived_snoc r msgs m buf :
  r_bufs r !! length msgs = Some buf →
  arrived r (msgs ++ [m]) = arrived r msgs ++ [(take (m_N m) buf, m)].
Proof.
  unfold arrived. revert msgs. generalize (r_bufs r) as bufs. induction bufs as [|x bufs IH]; intros msgs Hb; [done|].
  destruct msgs as [|y msgs]; simpl in *; [by simplify_eq; destruct bufs|]. by rewrite IH.
Qed.

Lemma kept_snoc l p : kept (l ++ [p]) = kept l ++ (if deliverable p then [p] else []).
Proof.
  unfold kept. rewrite filter_app. f_equal. destruct (deliverable p) eqn:E.
  - rewrite filter_cons_True by by rewrite E. done.
  - rewrite filter_cons_False by (rewrite E; intros []). done.
Qed.

Lemma magicEvents_snoc b l p : magicEvents b (l ++ [p]) = magicEvents b l ++ magicEvents b [p].
Proof. unfold magicEvents. by rewrite fmap_app, concat_app. Qed.

(** One iteration on a packet that is delivered, and on one that is not. *)
Lemma batchStep_deliver b r w evs i m a buf wb :
  m_Addr m = Some a → r_bufs r !! i = Some buf → r_bufs r !! w = Some wb →
  deliverable (take (m_N m) buf, m) = true →
  batchStep b (r, w, evs) (i, m) =
    (mkRecv (if Nat.eqb w i then r_bufs r else <[w := copyBytes wb (take (m_N m) buf)]> (r_bufs r))
       (<[w := Z.of_nat (m_N m)]> (r_sizes r)) (<[w := Some (unmapAddrPort a)]> (r_eps r)), S w, evs) ∧
  magicEvents b [(take (m_N m) buf, m)] = [].
Proof.
  intros Ea Hbuf Hwb Hd. unfold deliverable in Hd.
  apply andb_true_iff in Hd as [Hn%negb_true_iff Hmagic%negb_true_iff]. simpl in Hn, Hmagic. split.
  - unfold batchStep. rewrite Hn, Hbuf, Ea, Hwb. simpl. by rewrite handle_not_magic.
  - unfold magicEvents. simpl. by rewrite Ea, Hn, handle_not_magic.
Qed.

Lemma batchStep_skip b r w evs i m a buf :
  m_Addr m = Some a → r_bufs r !! i = Some buf → deliverable (take (m_N m) buf, m) = false →
  batchStep b (r, w, evs) (i, m) = (r, w, evs ++ magicEvents b [(take (m_N m) buf, m)]).
Proof.
  intros Ea Hbuf Hd. unfold batchStep, magicEvents. rewrite Hbuf, Ea. simpl. rewrite Ea, app_nil_r.
  unfold deliverable in Hd. simpl in Hd. destruct (Nat.eqb (m_N m) 0) eqn:E0; [by rewrite app_nil_r|].
  simpl in Hd. apply negb_false_iff in Hd.
  destruct (handleMagicPacket_IsMagic b (take (m_N m) buf) a) as [H1 _].
  destruct (handleMagicPacket b (take (m_N m) buf) a) as [mevs h]. simpl in *. by rewrite H1, Hd.
Qed.

Lemma batchStep_inv b r0 size msgs m st :
  batch_ok r0 (msgs ++ [m]) size → batch_inv b r0 size msgs st →
  batch_inv b r0 size (msgs ++ [m]) (batchStep b st (length msgs, m)).
Proof.
  intros (Hroom & Hsz & Hep & Hsize & Hmsgs) [Hcnt Hle Hslots Hrest (Hl1 & Hl2 & Hl3) Hev].
  apply Forall_app in Hmsgs as [_ [[Hm Ha] _]%Forall_cons]. rewrite length_app in Hroom. simpl in Hroom.
  destruct st as [[r w] evs]. cbn [fst snd] in *.
  destruct (lookup_lt_is_Some_2 (r_bufs r0) (length msgs)) as [buf Hbuf]; [lia|].
  assert (length buf = size) as Hlb by (by_forall Hsize; by eapply list_elem_of_lookup_2).
  assert (r_bufs r !! length msgs = Some buf) as Hbuf' by (rewrite Hrest by done; done).
  pose proof (arrived_snoc r0 msgs m buf Hbuf) as Harr. set (p := (take (m_N m) buf, m)) in *.
  destruct (m_Addr m) as [a|] eqn:Ea; [|done]. clear Ha.
  destruct (deliverable p) eqn:Hd.
  - (* delivered *)
    destruct (lookup_lt_is_Some_2 (r_bufs r) w) as [wb Hwb]; [lia|].
    assert (length wb = size) as Hlw.
    { destruct (decide (w = length msgs)) as [->|Hne]; [congruence|].
      rewrite Hrest in Hwb by lia. by_forall Hsize. by eapply list_elem_of_lookup_2. }
    destruct (batchStep_deliver b r w evs (length msgs) m a buf wb) as [-> Hnone]; [done..|].
    assert (length (take (m_N m) buf) = m_N m) as Hlt by (rewrite length_take; lia).
    assert (kept (arrived r0 (msgs ++ [m])) = kept (arrived r0 msgs) ++ [p]) as Hk
      by (rewrite Harr, kept_snoc; by rewrite Hd).
    split; simpl.
    + rewrite Hk, length_app. simpl. lia.
    + rewrite length_app. simpl. lia.
    + intros k q Hq. rewrite Hk in Hq. apply lookup_app_Some in Hq as [Hq|[Hge Hq]].
      * assert (k < w)%nat as Hkw by (rewrite Hcnt; by eapply lookup_lt_Some).
        destruct (Hslots k q Hq) as (kb & H1 & H2 & H3 & H4). exists kb. simpl.
        rewrite !list_lookup_insert_ne by lia. split_and!; try done.
        destruct (Nat.eqb w (length msgs)); [done|]. by rewrite list_lookup_insert_ne by lia.
      * assert (k = w ∧ q = p) as [-> ->].
        { rewrite <- Hcnt in Hge, Hq. destruct (k - w)%nat eqn:Ekw; simpl in Hq; [|done].
          split; [lia|congruence]. }
        exists (if Nat.eqb w (length msgs) then buf else copyBytes wb (take (m_N m) buf)). simpl.
        rewrite Hlt, Ea. rewrite !list_lookup_insert_eq by lia. split_and!; try done.
        -- destruct (Nat.eqb_spec w (length msgs)) as [->|Hne]; [done|]. by rewrite list_lookup_insert_eq by lia.
        -- destruct (Nat.eqb w (length msgs)); [done|]. rewrite <- Hlt at 1. rewrite copyBytes_take; [done|]. lia.
    + intros j Hj. destruct (Nat.eqb w (length msgs)); [apply Hrest; lia|].
      rewrite list_lookup_insert_ne by lia. apply Hrest. lia.
    + rewrite !length_insert. destruct (Nat.eqb w (length msgs)); rewrite ?length_insert; done.
    + fold p in Hnone. by rewrite Harr, magicEvents_snoc, Hnone, Hev, app_nil_r.
  - (* skipped *)
    assert (kept (arrived r0 (msgs ++ [m])) = kept (arrived r0 msgs)) as Hk.
    { rewrite Harr, kept_snoc, Hd. by rewrite app_nil_r. }
    rewrite (batchStep_skip b r w evs (length msgs) m a buf) by done. fold p.
    split; simpl; rewrite ?Hk; try done.
    + rewrite length_app. lia.
    + by rewrite Harr, magicEvents_snoc, Hev.
Qed.

Lemma receiveIPv4Batch_inv b r0 size msgs :
  batch_ok r0 msgs size → batch_inv b r0 size msgs (receiveIPv4Batch b r0 msgs).
Proof.
  unfold receiveIPv4Batch. induction msgs as [|m msgs IH] using rev_ind; intros Hok.
  - destruct Hok as (_ & H1 & H2 & _). split; simpl; try done; unfold arrived; try (by destruct (r_bufs r0)).
  - rewrite imap_app, foldl_app. simpl. rewrite Nat.add_0_r. apply batchStep_inv; [done|]. apply IH.
    destruct Hok as (Hr & ? & ? & ? & Hm). rewrite length_app in Hr. simpl in Hr.
    apply Forall_app in Hm as [? _]. split_and!; try done. lia.
Qed.

(** ** Destination bytes *)

Lemma be_num_app l k : be_num (l ++ k) = foldl (λ acc x, acc * 256 + x) (be_num l) k.
Proof. unfold be_num. by rewrite foldl_app. Qed.

Lemma be_num_list n v acc :
  0 <= v → foldl (λ acc x, acc * 256 + x) acc (be_list n v) = acc * 256 ^ Z.of_nat n + v mod 256 ^ Z.of_nat n.
Proof.
  intros Hv. revert acc. induction n as [|n IH]; intros acc.
  - simpl. rewrite Z.mod_1_r. lia.
  - cbn [be_list foldl]. rewrite IH.
    change 255 with (Z.ones 8). rewrite Z.land_ones, Z.shiftr_div_pow2 by lia.
    replace (2 ^ (8 * Z.of_nat n)) with (256 ^ Z.of_nat n) by (rewrite Z.pow_mul_r by lia; done).
    rewrite Nat2Z.inj_succ, Z.pow_succ_r by lia. change (2 ^ 8) with 256.
    assert (0 < 256 ^ Z.of_nat n) by (apply Z.pow_pos_nonneg; lia).
    rewrite (Z.mul_comm 256), Z.rem_mul_r by lia. lia.
Qed.

Lemma be_list_length n v : length (be_list n v) = n.
Proof. revert v. induction n as [|n IH]; intros v; simpl; [done|]. by rewrite IH. Qed.

Lemma be_num_roundtrip n v : 0 <= v < 256 ^ Z.of_nat n → be_num (be_list n v) = v.
Proof. intros Hv. unfold be_num. rewrite be_num_list by lia. rewrite Z.mod_small by lia. lia. Qed.

Lemma port_bytes p : 0 <= p < 65536 → Z.lor (Z.land p 255) (Z.shiftl (Z.shiftr p 8) 8) = p.
Proof.
  intros Hp. apply Z.bits_inj'. intros n Hn.
  rewrite Z.lor_spec. change 255 with (Z.ones 8). rewrite Z.land_spec, Z.testbit_ones_nonneg by lia.
  destruct (Z.ltb_spec n 8).
  - rewrite Z.shiftl_spec_low by lia. by rewrite andb_true_r, orb_false_r.
  - rewrite Z.shiftl_spec, Z.shiftr_spec by lia. rewrite andb_false_r. simpl. f_equal. lia.
Qed.

(** ** Ownership of sockets *)

(** The operations that touch the socket or the reference count. *)
Inductive bindOp : Type :=
  | OpAddRef
  | OpRelease (closeErr : bindErr)
  | OpCloseSocket
  | OpRebind (c : UDPConn)
  | OpOpen
  | OpInject (data : list Z) (from : AddrPort)
  | OpSetNetstack (c : nat)
  | OpClearNetstack.

Section ownership.
Context (IdealBatchSize : nat) (linux : bool).

Definition apply_op (b : SharedBind) (op : bindOp) : SharedBind * list bindEvent :=
  match op with
  | OpAddRef => (AddRef b, [])
  | OpRelease e => (Release e b).1
  | OpCloseSocket => (CloseSocket b).1
  | OpRebind c => (Rebind IdealBatchSize linux (Some c) b).1
  | OpOpen => ((Open IdealBatchSize linux b).1, [])
  | OpInject d a => ((InjectPacket d a b).1, [])
  | OpSetNetstack c => (SetNetstackConn c b, [])
  | OpClearNetstack => (ClearNetstackConn b, [])
  end.

Definition run_ops (b : SharedBind) (ops : list bindOp) : SharedBind * list bindEvent :=
  foldl (λ '(b, evs) op, let '(b', e) := apply_op b op in (b', evs ++ e)) (b, []) ops.

(** The sockets handed over: those of the rebinds that found the bind open. *)
Fixpoint taken (b : SharedBind) (ops : list bindOp) : list UDPConn :=
  match ops with
  | [] => []
  | op :: ops' =>
      (match op with OpRebind c => if closed b then [] else [c] | _ => [] end) ++ taken (apply_op b op).1 ops'
  end.

Definition closedConns (evs : list bindEvent) : list UDPConn :=
  omap (λ e, match e with EvCloseConn c => Some c | _ => None end) evs.

Definition current (b : SharedBind) : list UDPConn := option_list (udpConn b).

Lemma closedConns_closeEvents u : closedConns (closeEvents u) = option_list u.
Proof. by destruct u. Qed.

(** A closed bind holds nothing. *)
Definition closed_clean (b : SharedBind) : Prop :=
  closed b = true → udpConn b = None ∧ ipv4PC b = None ∧ netstackEndpoints b = ∅.

Lemma apply_op_owns b op :
  current b ++ (match op with OpRebind c => if closed b then [] else [c] | _ => [] end) ≡ₚ
  closedConns (apply_op b op).2 ++ current (apply_op b op).1.
Proof.
  unfold current. destruct op; simpl; rewrite ?app_nil_r; try done.
  - unfold Release. destruct (_ <? 0); [done|]. destruct (_ =? 0); [|done].
    unfold closeConnection. cbn [closed set_refCount udpConn].
    destruct (closed b); cbn [fst snd udpConn set_refCount]; [done|].
    rewrite closedConns_closeEvents. simpl. by rewrite app_nil_r.
  - unfold CloseSocket. destruct (closed b); simpl; [done|].
    rewrite closedConns_closeEvents. by rewrite app_nil_r.
  - destruct (closed b); simpl; [by rewrite app_nil_r|].
    unfold closedConns. rewrite omap_app. simpl. rewrite app_nil_r.
    change (omap _ (closeEvents (udpConn b))) with (closedConns (closeEvents (udpConn b))).
    by rewrite closedConns_closeEvents.
  - unfold Open. destruct (closed b); [done|]. destruct (udpConn b) eqn:E; simpl; [|by rewrite E].
    destruct linux; simpl; by rewrite ?E.
  - unfold InjectPacket. destruct (closed b); [done|]. by destruct (Nat.ltb _ _).
Qed.

Lemma run_ops_cons b op ops :
  run_ops b (op :: ops) = ((run_ops (apply_op b op).1 ops).1, (apply_op b op).2 ++ (run_ops (apply_op b op).1 ops).2).
Proof.
  assert (∀ b evs ops, foldl (λ '(b, evs) op, let '(b', e) := apply_op b op in (b', evs ++ e)) (b, evs) ops =
    ((run_ops b ops).1, evs ++ (run_ops b ops).2)) as Hacc.
  { intros b0 evs0 ops0. unfold run_ops. revert b0 evs0. induction ops0 as [|o l IH]; intros b0 evs0; simpl.
    - by rewrite app_nil_r.
    - destruct (apply_op b0 o) as [b' e]. rewrite IH, (IH b' e). simpl. by rewrite app_assoc. }
  unfold run_ops at 1. simpl. destruct (apply_op b op) as [b' e]. by rewrite Hacc.
Qed.

Lemma run_ops_owns ops b :
  current b ++ taken b ops ≡ₚ closedConns (run_ops b ops).2 ++ current (run_ops b ops).1.
Proof.
  revert b. induction ops as [|op ops IH]; intros b; [unfold run_ops; simpl; by rewrite app_nil_r|].
  rewrite run_ops_cons. cbn [taken fst snd]. unfold closedConns at 1. rewrite omap_app.
  change (omap _ (apply_op b op).2) with (closedConns (apply_op b op).2).
  change (omap _ (run_ops (apply_op b op).1 ops).2) with (closedConns (run_ops (apply_op b op).1 ops).2).
  rewrite app_assoc, (apply_op_owns b op), <- !app_assoc. by rewrite IH.
Qed.

Lemma apply_op_clean b op : closed_clean b → closed_clean (apply_op b op).1.
Proof.
  unfold closed_clean. intros Hb. destruct op; cbn [apply_op fst]; try done.
  - unfold Release. destruct (_ <? 0); [done|]. destruct (_ =? 0); [|done].
    unfold closeConnection. cbn [closed set_refCount]. by destruct (closed b) eqn:E; cbn; auto.
  - unfold CloseSocket. destruct (closed b) eqn:E; cbn; [auto|congruence].
  - unfold Rebind. destruct (closed b) eqn:E; cbn; [auto|congruence].
  - unfold Open. destruct (closed b) eqn:E; [cbn; auto|].
    destruct (udpConn b), linux; cbn; congruence.
  - unfold InjectPacket. destruct (closed b) eqn:E; [cbn; auto|].
    destruct (Nat.ltb _ _); cbn; congruence.
  - cbn. intros Hc. by destruct (Hb Hc) as (? & ? & _).
Qed.

End ownership.

(** ** The socket receive loop ([makeReceiveSocket]) *)

(** What one pass of the loop does, given whether the read failed. *)
Inductive recvPass : Type :=
  | PassReturnClosed              (** [return 0, net.ErrClosed] *)
  | PassWait                      (** blocks in [rebindingCond.Wait] *)
  | PassRetry                     (** [continue] *)
  | PassReturnErr                 (** [return 0, err] *)
  | PassReturn (c : UDPConn).     (** packets read from [c] *)

Definition receiveSocketPass (readFails : bool) (b : SharedBind) : recvPass :=
  if closed b then PassReturnClosed
  else
    match udpConn b with
    | None => if rebinding b then PassWait else PassRetry
    | Some c =>
        if readFails then if rebinding b then PassWait else PassReturnErr
        else PassReturn c
    end.

(** Where the receive goroutine is. *)
Inductive receiver : Type := RcvRunning | RcvWaiting | RcvReturned (p : recvPass).

Definition after_pass (p : recvPass) : receiver :=
  match p with
  | PassWait => RcvWaiting
  | PassRetry => RcvRunning
  | p => RcvReturned p
  end.

(** A broadcast wakes a waiting receiver; nothing else does. *)
Definition wake (evs : list bindEvent) (r : receiver) : receiver :=
  match r with
  | RcvWaiting => if existsb (λ e, match e with EvBroadcast => true | _ => false end) evs then RcvRunning else RcvWaiting
  | r => r
  end.

Section receiver.
Context (IdealBatchSize : nat) (linux : bool).

Inductive rcvStep : SharedBind * receiver → SharedBind * receiver → Prop :=
  | rcv_op b r op :
      rcvStep (b, r) ((apply_op IdealBatchSize linux b op).1, wake (apply_op IdealBatchSize linux b op).2 r)
  | rcv_pass b readFails :
      rcvStep (b, RcvRunning) (b, after_pass (receiveSocketPass readFails b)).

Lemma closed_op b op :
  closed b = true →
  closed (apply_op IdealBatchSize linux b op).1 = true ∧ wake (apply_op IdealBatchSize linux b op).2 RcvWaiting = RcvWaiting.
Proof.
  intros Hc. destruct op; cbn [apply_op fst snd]; try done.
  - unfold Release. destruct (_ <? 0); [done|]. destruct (_ =? 0); [|done].
    unfold closeConnection. cbn [closed set_refCount]. by rewrite Hc.
  - unfold CloseSocket. by rewrite Hc.
  - unfold Rebind. by rewrite Hc.
  - unfold Open. by rewrite Hc.
  - unfold InjectPacket. by rewrite Hc.
Qed.

End receiver.

(** ** Reference balance *)

(** References held after [ops], starting from [n]. *)
Definition balance (n : Z) (ops : list bindOp) : Z :=
  foldl (λ n op, match op with OpAddRef => n + 1 | OpRelease _ => n - 1 | _ => n end) n ops.

(** Between the operations there is always somebody holding the bind. *)
Definition held (n : Z) (ops : list bindOp) : Prop :=
  ∀ k, (k <= length ops)%nat → 0 < balance n (take k ops) < 2 ^ 31.

Section lifecycle.
Context (IdealBatchSize : nat) (linux : bool).

Lemma held_cons n op ops :
  held n (op :: ops) → 0 < n < 2 ^ 31 ∧ held (balance n [op]) ops.
Proof.
  intros Hh. split; [apply (Hh 0%nat); simpl; lia|]. intros k Hk. apply (Hh (S k)). simpl. lia.
Qed.

Lemma swrap32_id z : - 2 ^ 31 <= z < 2 ^ 31 → swrap32 z = z.
Proof. intros. unfold swrap32. rewrite Z.mod_small; lia. Qed.

Lemma apply_op_held b op :
  closed b = false → 0 < balance (refCount b) [op] < 2 ^ 31 → 0 < refCount b < 2 ^ 31 →
  closed (apply_op IdealBatchSize linux b op).1 = false ∧
  refCount (apply_op IdealBatchSize linux b op).1 = balance (refCount b) [op].
Proof.
  intros Hc Hb Hr. destruct op; cbn [apply_op fst]; simpl in Hb; try done.
  - cbn. rewrite swrap32_id by lia. done.
  - unfold Release. rewrite swrap32_id by lia.
    destruct (Z.ltb_spec (refCount b - 1) 0); [lia|]. destruct (Z.eqb_spec (refCount b - 1) 0); [lia|]. done.
  - unfold CloseSocket. by rewrite Hc.
  - unfold Rebind. by rewrite Hc.
  - unfold Open. rewrite Hc. destruct (udpConn b); [|done]. by destruct linux.
  - unfold InjectPacket. rewrite Hc. by destruct (Nat.ltb _ _).
Qed.

Lemma run_ops_held ops b :
  closed b = false → held (refCount b) ops →
  closed (run_ops IdealBatchSize linux b ops).1 = false ∧
  refCount (run_ops IdealBatchSize linux b ops).1 = balance (refCount b) ops.
Proof.
  revert b. induction ops as [|op ops IH]; intros b Hc Hh; [done|].
  rewrite run_ops_cons. cbn [fst]. destruct (held_cons _ _ _ Hh) as [Hn Hh'].
  pose proof (Hh' 0%nat ltac:(lia)) as H1.
  destruct (apply_op_held b op Hc H1 Hn) as [Hc' Hr']. destruct (IH _ Hc') as [H2 H3]; [by rewrite Hr'|].
  split; [done|]. rewrite H3, Hr'. done.
Qed.

End lifecycle.

(** ** Theorems *)

(** C29: the compaction of a received batch is exactly a filter: WireGuard sees
    the non-empty packets that are not connectivity tests, in order, with
    their bytes, lengths and unmapped senders, and the tests among them are
    answered or reported in order. *)
Theorem batch_is_filter b r msgs size :
  batch_ok r msgs size →
  let '(r', n, evs) := receiveIPv4Batch b r msgs in
  n = length (kept (arrived r msgs)) ∧
  (∀ k p, kept (arrived r msgs) !! k = Some p → slot_holds r' k p) ∧
  evs = magicEvents b (arrived r msgs).
Proof.
  intros Hok. destruct (receiveIPv4Batch_inv b r size msgs Hok) as [H1 _ H2 _ _ H3].
  destruct (receiveIPv4Batch b r msgs) as [[r' n] evs]. done.
Qed.

(** A connectivity test makes the round trip: the bind answers a request
    of eight data bytes, whoever sent it, with one packet to the sender; that
    packet is recognised as a test packet by the other side, never reaches
    WireGuard there, and its callback gets the same eight bytes.  A packet is
    taken off the receive path exactly when [IsMagicPacket] says so. *)
Theorem magic_echo b c b' d client server :
  length d = MagicPacketDataLen → udpConn b = Some c → hasCallback b' = true →
  ∃ rsp, handleMagicPacket b (MagicTestRequest ++ d) client = ([EvWriteUDP c rsp client], true) ∧
    IsMagicPacket rsp = true ∧
    handleMagicPacket b' rsp server = ([EvCallback (unmapAddrPort server) d], true) ∧
    ∀ data addr, (handleMagicPacket b data addr).2 = IsMagicPacket data ∧
                 (IsMagicPacket data = false → (handleMagicPacket b data addr).1 = []).
Proof.
  intros Hd Hc Hcb. exists (MagicTestResponse ++ d). split_and!.
  - by apply handle_request.
  - destruct (handleMagicPacket_IsMagic b' (MagicTestResponse ++ d) server) as [<- _].
    by rewrite handle_response.
  - rewrite handle_response by done. by rewrite Hcb.
  - intros. apply handleMagicPacket_IsMagic.
Qed.

(** C30: reference counting and sockets.  While the references taken and
    released leave somebody holding the bind, it stays open and counts the
    holders; every socket it was given has been closed exactly once or is the
    current one; and the release of the last reference closes the current
    socket and leaves the bind empty. *)
Theorem socket_lifecycle IdealBatchSize linux c b ops closeErr :
  New (Some c) = Some b → held 1 ops →
  let b1 := (run_ops IdealBatchSize linux b ops).1 in
  let evs := (run_ops IdealBatchSize linux b ops).2 in
  closed b1 = false ∧ refCount b1 = balance 1 ops ∧
  c :: taken IdealBatchSize linux b ops ≡ₚ closedConns evs ++ current b1 ∧
  (balance 1 ops = 1 →
     let b2 := (Release closeErr b1).1.1 in
     closed b2 = true ∧ udpConn b2 = None ∧ ipv4PC b2 = None ∧ netstackEndpoints b2 = ∅ ∧
     c :: taken IdealBatchSize linux b ops ≡ₚ closedConns (evs ++ (Release closeErr b1).1.2)).
Proof.
  intros [= <-] Hh b1 evs. subst b1 evs.
  match goal with |- context [run_ops _ _ ?b0 _] => set (b := b0) end.
  destruct (run_ops_held IdealBatchSize linux ops b) as [H1 H2]; [done|done|].
  pose proof (run_ops_owns IdealBatchSize linux ops b) as H3. unfold current in H3 at 1. simpl in H3.
  split_and!; [done|done|done|]. intros Hbal. change (balance 1 ops = 1) with (balance (refCount b) ops = 1) in Hbal.
  unfold Release. rewrite H2,  Hbal, swrap32_id by lia. simpl Z.ltb. simpl Z.eqb. cbv iota.
  unfold closeConnection. cbn [closed set_refCount udpConn]. rewrite H1. cbn [fst snd closed udpConn ipv4PC netstackEndpoints].
  split_and!; try done. rewrite H3. unfold closedConns, current. rewrite omap_app.
  by destruct (udpConn (run_ops IdealBatchSize linux b ops).1).
Qed.

(** Closing the bind while its socket is being replaced strands the
    receive goroutine: the configuration in which it waits for the rebind and
    the bind is closed is reachable, and no later operation on the bind, a
    rebind included, makes it return. *)
Theorem close_strands_receiver IdealBatchSize linux c b :
  New (Some c) = Some b →
  ∃ b', rtc (rcvStep IdealBatchSize linux) (b, RcvRunning) (b', RcvWaiting) ∧ closed b' = true ∧
    ∀ b'' r, rtc (rcvStep IdealBatchSize linux) (b', RcvWaiting) (b'', r) → r = RcvWaiting.
Proof.
  intros [= <-]. eexists. split_and!.
  - eapply rtc_l; [apply (rcv_op _ _ _ _ OpCloseSocket)|]. cbn.
    eapply rtc_l; [apply (rcv_pass _ _ _ false)|]. cbn.
    eapply rtc_l; [apply (rcv_op _ _ _ _ (OpRelease NoError))|]. cbn. apply rtc_refl.
  - done.
  - assert (∀ x y, rtc (rcvStep IdealBatchSize linux) x y → closed x.1 = true → x.2 = RcvWaiting → y.2 = RcvWaiting) as Hst.
    { induction 1 as [|x y z Hxy _ IH]; [done|]. intros Hc Hr. inversion Hxy as [b0 r0 op|b0 rf]; subst; simpl in *; [|done].
      subst r0. destruct (closed_op IdealBatchSize linux b0 op Hc) as [H1 H2]. apply IH; simpl; [done|exact H2]. }
    intros b'' r Hr. apply (Hst _ _ Hr); done.
Qed.

(** Routing of sends.  Buffers for an address from which a packet was
    injected go through the netstack connection, in order and to that address,
    even when the injected packet itself was dropped for lack of room; buffers
    for any other address go to the UDP socket; an invalid destination or a
    closed bind sends nothing. *)
Theorem send_routing b nc c data from bufs dst :
  closed b = false → netstackConn b = Some nc → udpConn b = Some c →
  ap_valid (unmapAddrPort from) = true → ap_valid dst = true →
  let b' := (InjectPacket data from b).1 in
  Send b' bufs (StdNetEndpoint (unmapAddrPort from)) (λ _, true) =
    ((λ d, EvWriteNetstack nc d (unmapAddrPort from)) <$> bufs, NoError) ∧
  (dst ∉ netstackEndpoints b → dst ≠ unmapAddrPort from →
     Send b' bufs (StdNetEndpoint dst) (λ _, true) = ((λ d, EvWriteUDP c d dst) <$> bufs, NoError)) ∧
  (∀ e, ap_valid (destination e) = false → Send b' bufs e (λ _, true) = ([], ErrNoDestination)) ∧
  (∀ e ok, Send (closeConnection NoError b').1.1 bufs e ok = ([], ErrClosed)).
Proof.
  intros Hc Hn Hu Hv Hd. cbv zeta.
  assert (∀ mk bs k, writeAll mk (λ _, true) k bs = (mk <$> bs, NoError)) as Hw.
  { intros mk. induction bs as [|x bs IH]; intros k; simpl; [done|]. by rewrite IH. }
  assert (closed (InjectPacket data from b).1 = false ∧ netstackConn (InjectPacket data from b).1 = Some nc ∧
    udpConn (InjectPacket data from b).1 = Some c ∧
    netstackEndpoints (InjectPacket data from b).1 = {[unmapAddrPort from]} ∪ netstackEndpoints b) as (H1 & H2 & H3 & H4).
  { unfold InjectPacket. rewrite Hc. by destruct (Nat.ltb _ _). }
  split_and!.
  - unfold Send. rewrite H1, H2, H4. simpl. rewrite Hv. simpl. rewrite bool_decide_true by set_solver. apply Hw.
  - intros Hni Hne. unfold Send. rewrite H1, H3, H4. simpl. rewrite Hd. simpl.
    rewrite bool_decide_false by set_solver. apply Hw.
  - intros e He. unfold Send. by rewrite H1, He.
  - intros e ok. unfold Send, closeConnection. by rewrite H1.
Qed.

(** A destination survives its byte form: [Send] reads back from
    [DstToBytes] the address and port of every IPv4 endpoint and of every IPv6
    endpoint without a zone, and the printed form of an IPv4 endpoint parses
    back to it.  With a zone the port is read from the zone's characters. *)
Theorem endpoint_roundtrip ip4 ip6 p :
  0 <= ip4 < 2 ^ 32 → 0 <= ip6 < 2 ^ 128 → 0 <= p < 65536 →
  decodeDst (DstToBytes (mkAddrPort (Addr4 ip4) p)) = mkAddrPort (Addr4 ip4) p ∧
  decodeDst (DstToBytes (mkAddrPort (Addr6 ip6 "") p)) = mkAddrPort (Addr6 ip6 "") p ∧
  ParseEndpoint (DstToString (mkAddrPort (Addr4 ip4) p)) = Some (StdNetEndpoint (mkAddrPort (Addr4 ip4) p)) ∧
  ap_port (decodeDst (DstToBytes (mkAddrPort (Addr6 ip6 "eth0") p))) = 29797.
Proof.
  intros H4 H6 Hp. unfold decodeDst, DstToBytes. cbn [ap_addr ap_port]. rewrite !length_app, !be_list_length. simpl length.
  assert (∀ n (v : Z) t i, byteAt (be_list n v ++ t) (n + i) = byteAt t i) as Hat.
  { intros n v t i. unfold byteAt. rewrite lookup_app_r by (rewrite be_list_length; lia).
    rewrite be_list_length. do 2 f_equal. lia. }
  assert (∀ n (v : Z) t, take n (be_list n v ++ t) = be_list n v) as Htk.
  { intros n v t. by rewrite take_app_length' by by rewrite be_list_length. }
  split_and!.
  - cbn [Nat.add Nat.leb]. rewrite Htk, (Hat 4%nat ip4 _ 0%nat), (Hat 4%nat ip4 _ 1%nat). cbn [byteAt lookup list_lookup default].
    unfold AddrFromSlice. rewrite be_list_length. cbn [Nat.eqb]. rewrite be_num_roundtrip by (simpl; lia).
    f_equal. by apply port_bytes.
  - cbn [Nat.add Nat.leb]. rewrite <- app_assoc, Htk, (Hat 16%nat ip6 _ 0%nat), (Hat 16%nat ip6 _ 1%nat).
    unfold AddrFromSlice. rewrite be_list_length. cbn [Nat.eqb]. rewrite be_num_roundtrip by (simpl; lia).
    f_equal. by apply port_bytes.
  - unfold ParseEndpoint, DstToString. by rewrite ParseAddrPort_String4.
  - cbn [Nat.add Nat.leb ap_port]. rewrite <- app_assoc, (Hat 16%nat ip6 _ 0%nat), (Hat 16%nat ip6 _ 1%nat). reflexivity.
Qed.

(** ** Examples and witnesses *)

Module SharedBindExamples.

Definition sock : UDPConn := mkUDPConn 1 51820.
Definition bind0 : SharedBind := mkSharedBind (Some sock) None 1 false 51820 [] None ∅ 0 false false.
Definition peer : AddrPort := mkAddrPort (Addr6 (Z.shiftl 65535 32 + 3221225985) "") 40000.
Definition nonce : list Z := [1; 2; 3; 4; 5; 6; 7; 8].

(** A test request between two data packets, in buffers of 32 bytes. *)
Definition pad (l : list Z) : list Z := l ++ replicate (32 - length l) 0.
Definition batch_bufs : recvBufs :=
  mkRecv [pad [10; 11; 12]; pad (MagicTestRequest ++ nonce); pad [20; 21]; pad []] [0; 0; 0; 0] [None; None; None; None].
Definition batch_msgs : list ipv4Message :=
  [mkMessage 3 (Some peer); mkMessage 25 (Some peer); mkMessage 2 (Some peer); mkMessage 0 (Some peer)].

Example batch_result :
  let '(r', n, evs) := receiveIPv4Batch bind0 batch_bufs batch_msgs in
  n = 2%nat ∧ take 2 (r_sizes r') = [3; 2] ∧ take 2 <$> r_bufs r' !! 1%nat = Some [20; 21] ∧
  r_eps r' !! 1%nat = Some (Some (mkAddrPort (Addr4 3221225985) 40000)) ∧
  evs = [EvWriteUDP sock (MagicTestResponse ++ nonce) peer].
Proof. by vm_compute. Qed.

Lemma batch_is_filter_witness :
  let '(r', n, evs) := receiveIPv4Batch bind0 batch_bufs batch_msgs in
  n = length (kept (arrived batch_bufs batch_msgs)) ∧
  (∀ k p, kept (arrived batch_bufs batch_msgs) !! k = Some p → slot_holds r' k p) ∧
  evs = magicEvents bind0 (arrived batch_bufs batch_msgs).
Proof.
  apply (batch_is_filter bind0 batch_bufs batch_msgs 32).
  unfold batch_ok. split_and!; simpl; try lia; repeat constructor; simpl; try lia; done.
Defined.

Lemma magic_echo_witness :
  ∃ rsp, handleMagicPacket bind0 (MagicTestRequest ++ nonce) peer = ([EvWriteUDP sock rsp peer], true) ∧
    IsMagicPacket rsp = true ∧
    handleMagicPacket (SetMagicResponseCallback true bind0) rsp peer = ([EvCallback (unmapAddrPort peer) nonce], true) ∧
    ∀ data addr, (handleMagicPacket bind0 data addr).2 = IsMagicPacket data ∧
                 (IsMagicPacket data = false → (handleMagicPacket bind0 data addr).1 = []).
Proof. by apply magic_echo. Defined.

Definition life : list bindOp :=
  [OpAddRef; OpOpen; OpCloseSocket; OpRebind (mkUDPConn 2 40001); OpRelease NoError].

Lemma socket_lifecycle_witness :
  let b1 := (run_ops 128 true bind0 life).1 in
  let evs := (run_ops 128 true bind0 life).2 in
  closed b1 = false ∧ refCount b1 = balance 1 life ∧
  sock :: taken 128 true bind0 life ≡ₚ closedConns evs ++ current b1 ∧
  (balance 1 life = 1 →
     let b2 := (Release NoError b1).1.1 in
     closed b2 = true ∧ udpConn b2 = None ∧ ipv4PC b2 = None ∧ netstackEndpoints b2 = ∅ ∧
     sock :: taken 128 true bind0 life ≡ₚ closedConns (evs ++ (Release NoError b1).1.2)).
Proof.
  apply (socket_lifecycle 128 true sock bind0 life NoError); [done|].
  intros k Hk. do 6 (destruct k as [|k]; [by vm_compute|]). simpl in Hk. lia.
Defined.

Lemma close_strands_receiver_witness :
  ∃ b', rtc (rcvStep 128 true) (bind0, RcvRunning) (b', RcvWaiting) ∧ closed b' = true ∧
    ∀ b'' r, rtc (rcvStep 128 true) (b', RcvWaiting) (b'', r) → r = RcvWaiting.
Proof. by apply (close_strands_receiver 128 true sock bind0). Defined.

Definition relay : SharedBind := SetNetstackConn 7 bind0.
Definition other : AddrPort := mkAddrPort (Addr4 134744072) 53.

Lemma send_routing_witness :
  let b' := (InjectPacket [1; 2] peer relay).1 in
  Send b' [[9]; [8]] (StdNetEndpoint (unmapAddrPort peer)) (λ _, true) =
    ((λ d, EvWriteNetstack 7 d (unmapAddrPort peer)) <$> [[9]; [8]], NoError) ∧
  (other ∉ netstackEndpoints relay → other ≠ unmapAddrPort peer →
     Send b' [[9]; [8]] (StdNetEndpoint other) (λ _, true) = ((λ d, EvWriteUDP sock d other) <$> [[9]; [8]], NoError)) ∧
  (∀ e, ap_valid (destination e) = false → Send b' [[9]; [8]] e (λ _, true) = ([], ErrNoDestination)) ∧
  (∀ e ok, Send (closeConnection NoError b').1.1 [[9]; [8]] e ok = ([], ErrClosed)).
Proof. by apply (send_routing relay 7 sock [1; 2] peer [[9]; [8]] other). Defined.

Lemma endpoint_roundtrip_witness :
  decodeDst (DstToBytes (mkAddrPort (Addr4 167772161) 51820)) = mkAddrPort (Addr4 167772161) 51820 ∧
  decodeDst (DstToBytes (mkAddrPort (Addr6 1 "") 51820)) = mkAddrPort (Addr6 1 "") 51820 ∧
  ParseEndpoint (DstToString (mkAddrPort (Addr4 167772161) 51820)) = Some (StdNetEndpoint (mkAddrPort (Addr4 167772161) 51820)) ∧
  ap_port (decodeDst (DstToBytes (mkAddrPort (Addr6 1 "eth0") 51820))) = 29797.
Proof. by apply endpoint_roundtrip. Defined.

End SharedBindExamples.
