(* ===== verification/HealthCheck.v ===== *)
(** * Health checks ([healthcheck/healthcheck.go])

    The [Monitor] owns a map of targets; each enabled target has a goroutine
    that checks it and updates the target object the map also points to.
    Target objects therefore live in a store [store] indexed by locations, and
    goroutines refer to locations.  A context is a number; cancelling it adds
    it to [cancelled].  Operations under the monitor's lock are functions
    returning the goroutines they start and the callbacks they fire; the
    goroutines themselves are the step relation [hcStep].

    The counters are unbounded integers: one check per second would need
    longer than 2^38 years to overflow an [int]. *)

From S2P Require Import Prelude Netip NetipText HostPort.
From Stdlib Require Import Ascii.

Inductive Health : Type := StatusUnknown | StatusHealthy | StatusUnhealthy.
#[global] Instance Health_eq_dec : EqDecision Health.
Proof. solve_decision. Defined.

Definition HealthString (h : Health) : string :=
  match h with StatusHealthy => "healthy" | StatusUnhealthy => "unhealthy" | StatusUnknown => "unknown" end.

Record Config : Type := mkConfig {
  cfg_ID : Z; cfg_Enabled : bool; cfg_Path : string; cfg_Scheme : string; cfg_Mode : string;
  cfg_Hostname : string; cfg_Port : Z; cfg_Interval : Z; cfg_UnhealthyInterval : Z; cfg_Timeout : Z;
  cfg_FollowRedirects : option bool; cfg_Headers : gmap string string; cfg_Method : string; cfg_Status : Z;
  cfg_TLSServerName : string; cfg_HealthyThreshold : Z; cfg_UnhealthyThreshold : Z }.

Definition ctx : Type := nat.
Definition loc : Type := nat.

(** [followRedirects], [insecure] and [serverName] are what the target's HTTP
    client is built from. *)
Record Target : Type := mkTarget {
  t_Config : Config; t_Status : Health; t_LastCheck : Z; t_LastError : string; t_CheckCount : Z;
  t_ctx : ctx; t_followRedirects : bool; t_insecure : bool;
  consecutiveSuccesses : Z; consecutiveFailures : Z }.

Record Monitor : Type := mkMonitor {
  store : gmap loc Target;
  targets : gmap Z loc;
  cancelled : gset ctx;
  nextCtx : ctx;
  hasCallback : bool;
  enforceCert : bool }.

Definition NewMonitor (callback enforce : bool) : Monitor := mkMonitor ∅ ∅ ∅ 0%nat callback enforce.

(** What an operation sets off: a monitoring goroutine for a target, or a
    callback with a copy of the targets. *)
Inductive hcEvent : Type :=
  | EvMonitorTarget (l : loc)
  | EvCallback (snapshot : gmap Z Target).

(** ** Configuration *)

Definition orStr (s d : string) : string := if bool_decide (s = "") then d else s.
Definition orInt (n d : Z) : Z := if n =? 0 then d else n.

Definition withDefaults (c : Config) : Config :=
  mkConfig (cfg_ID c) (cfg_Enabled c) (cfg_Path c) (orStr (cfg_Scheme c) "http") (orStr (cfg_Mode c) "http")
    (cfg_Hostname c) (cfg_Port c) (orInt (cfg_Interval c) 30) (orInt (cfg_UnhealthyInterval c) 30)
    (orInt (cfg_Timeout c) 5) (cfg_FollowRedirects c)
    (if bool_decide (cfg_Headers c = ∅) && negb (bool_decide (cfg_Path c = "")) then ∅ else cfg_Headers c)
    (orStr (cfg_Method c) "GET") (cfg_Status c) (cfg_TLSServerName c)
    (orInt (cfg_HealthyThreshold c) 1) (orInt (cfg_UnhealthyThreshold c) 1).

Definition newTarget (c : Config) (x : ctx) (enforce : bool) : Target :=
  mkTarget c StatusUnknown 0 "" 0 x (default true (cfg_FollowRedirects c)) (negb enforce) 0 0.

(** ** Operations on the monitor *)

Definition set_targets (ts : gmap Z loc) (m : Monitor) : Monitor :=
  mkMonitor (store m) ts (cancelled m) (nextCtx m) (hasCallback m) (enforceCert m).
Definition set_store (st : gmap loc Target) (m : Monitor) : Monitor :=
  mkMonitor st (targets m) (cancelled m) (nextCtx m) (hasCallback m) (enforceCert m).
Definition cancel_ctx (x : ctx) (m : Monitor) : Monitor :=
  mkMonitor (store m) (targets m) ({[x]} ∪ cancelled m) (nextCtx m) (hasCallback m) (enforceCert m).

(** [target.cancel()]. *)
Definition cancel_target (l : loc) (m : Monitor) : Monitor :=
  match store m !! l with Some t => cancel_ctx (t_ctx t) m | None => m end.

(** [getAllTargetsUnsafe]: a copy of each target. *)
Definition getAllTargets (m : Monitor) : gmap Z Target := omap (λ l, store m !! l) (targets m).

Definition notify (m : Monitor) : list hcEvent :=
  if hasCallback m then [EvCallback (getAllTargets m)] else [].

Definition addTargetUnsafe (config : Config) (m : Monitor) : Monitor * list hcEvent :=
  let c := withDefaults config in
  let m1 := match targets m !! cfg_ID c with Some l => cancel_target l m | None => m end in
  let l := fresh (dom (store m1)) in
  let t := newTarget c (nextCtx m1) (enforceCert m1) in
  (mkMonitor (<[l := t]> (store m1)) (<[cfg_ID c := l]> (targets m1)) (cancelled m1) (S (nextCtx m1))
     (hasCallback m1) (enforceCert m1),
   if cfg_Enabled c then [EvMonitorTarget l] else []).

Definition AddTarget (config : Config) (m : Monitor) : Monitor * list hcEvent := addTargetUnsafe config m.

(** Running an operation per element and collecting the events. *)
Definition each {A} (op : A → Monitor → Monitor * list hcEvent) (l : list A) (m : Monitor) : Monitor * list hcEvent :=
  foldl (λ '(m, evs) x, let '(m', e) := op x m in (m', evs ++ e)) (m, []) l.

Definition AddTargets (configs : list Config) (m : Monitor) : Monitor * list hcEvent := each addTargetUnsafe configs m.

Definition removeOne (id : Z) (m : Monitor) : Monitor :=
  match targets m !! id with
  | Some l => set_targets (delete id (targets m)) (cancel_target l m)
  | None => m
  end.

(** The boolean is whether the call succeeds. *)
Definition RemoveTarget (id : Z) (m : Monitor) : Monitor * list hcEvent * bool :=
  match targets m !! id with
  | None => (m, [], false)
  | Some _ => let m' := removeOne id m in (m', notify m', true)
  end.

Definition removeStep (st : Monitor * list Z) (id : Z) : Monitor * list Z :=
  match targets st.1 !! id with
  | None => (st.1, st.2 ++ [id])
  | Some _ => (removeOne id st.1, st.2)
  end.

(** The list is the ids that were not found. *)
Definition RemoveTargets (ids : list Z) (m : Monitor) : Monitor * list hcEvent * list Z :=
  let '(m', notFound) := foldl removeStep (m, []) ids in
  (m', if Nat.eqb (length notFound) (length ids) then [] else notify m', notFound).

Section range.
Context `{MapRange}.

Definition Stop (m : Monitor) : Monitor :=
  set_targets ∅ (foldl (λ m e, cancel_target e.2 m) m (range_map (targets m))).

Definition GetTargetIDs (m : Monitor) : list Z := (range_map (targets m)).*1.

(** The loop of [SyncTargets] that adds or replaces the desired targets. *)
Definition syncOne (e : Z * Config) (m : Monitor) : Monitor * list hcEvent :=
  match targets m !! e.1 with
  | Some _ => addTargetUnsafe e.2 (removeOne e.1 m)
  | None => addTargetUnsafe e.2 m
  end.

Definition SyncTargets (desired : list Config) (m : Monitor) : Monitor * list hcEvent :=
  let desiredIDs : gmap Z Config := foldl (λ d c, <[cfg_ID c := c]> d) ∅ desired in
  let toRemove := filter (λ id, desiredIDs !! id = None) (range_map (targets m)).*1 in
  let m1 := foldl (λ m id, removeOne id m) m toRemove in
  let '(m2, evs) := each syncOne (range_map desiredIDs) m1 in
  (m2, evs ++ (if negb (Nat.eqb (length toRemove) 0) || negb (bool_decide (desiredIDs = ∅)) then notify m2 else [])).

End range.

Definition set_Enabled (v : bool) (c : Config) : Config :=
  mkConfig (cfg_ID c) v (cfg_Path c) (cfg_Scheme c) (cfg_Mode c) (cfg_Hostname c) (cfg_Port c) (cfg_Interval c)
    (cfg_UnhealthyInterval c) (cfg_Timeout c) (cfg_FollowRedirects c) (cfg_Headers c) (cfg_Method c) (cfg_Status c)
    (cfg_TLSServerName c) (cfg_HealthyThreshold c) (cfg_UnhealthyThreshold c).

Definition set_target (c : Config) (s : Health) (x : ctx) (t : Target) : Target :=
  mkTarget c s (t_LastCheck t) (t_LastError t) (t_CheckCount t) x (t_followRedirects t) (t_insecure t)
    (consecutiveSuccesses t) (consecutiveFailures t).

Definition EnableTarget (id : Z) (m : Monitor) : Monitor * list hcEvent * bool :=
  match targets m !! id with
  | None => (m, [], false)
  | Some l =>
      match store m !! l with
      | None => (m, [], false)
      | Some t =>
          if negb (cfg_Enabled (t_Config t)) then
            (mkMonitor (<[l := set_target (set_Enabled true (t_Config t)) (t_Status t) (nextCtx m) t]> (store m))
               (targets m) ({[t_ctx t]} ∪ cancelled m) (S (nextCtx m)) (hasCallback m) (enforceCert m),
             [EvMonitorTarget l], true)
          else (m, [], true)
      end
  end.

Definition DisableTarget (id : Z) (m : Monitor) : Monitor * list hcEvent * bool :=
  match targets m !! id with
  | None => (m, [], false)
  | Some l =>
      match store m !! l with
      | None => (m, [], false)
      | Some t =>
          if cfg_Enabled (t_Config t) then
            let m' := cancel_ctx (t_ctx t)
                        (set_store (<[l := set_target (set_Enabled false (t_Config t)) StatusUnknown (t_ctx t) t]> (store m)) m) in
            (m', notify m', true)
          else (m, [], true)
      end
  end.

(** ** A check *)

(** [strings.ToLower], as far as the comparison with an ASCII word goes. *)
Definition lowerChar (c : ascii) : ascii :=
  if (65 <=? code c) && (code c <=? 90) then ch (code c + 32) else c.
Definition toLower (s : list ascii) : list ascii := lowerChar <$> s.

(** [strings.EqualFold(key, "Host")]: the long s (U+017F) folds to s. *)
Fixpoint foldLongS (s : list ascii) : list ascii :=
  match s with
  | a :: ((b :: s') as r) => if (code a =? 197) && (code b =? 191) then "s"%char :: foldLongS s' else a :: foldLongS r
  | s => s
  end.
Definition isHostKey (key : string) : bool := bool_decide (toLower (foldLongS (str key)) = str "host").

Definition checkURL (c : Config) : string :=
  let host := if 0 <? cfg_Port c then JoinHostPort (cfg_Hostname c) (itoa (cfg_Port c)) else cfg_Hostname c in
  let url := cfg_Scheme c +:+ "://" +:+ host in
  if bool_decide (cfg_Path c = "") then url
  else if bool_decide (head (str (cfg_Path c)) = Some c_slash) then url +:+ cfg_Path c
  else url +:+ "/" +:+ cfg_Path c.

(** The request's host override and the headers set on it, in order. *)
Definition requestHeaders `{MapRange} (c : Config) : option string * list (string * string) :=
  foldl (λ '(host, hs) '(k, v), if isHostKey k then (Some v, hs) else (host, hs ++ [(k, v)]))
    (None, []) (range_map (cfg_Headers c)).

(** How the HTTP exchange ends: building the request fails, performing it
    fails, or a response with a status code arrives. *)
Inductive httpOutcome : Type :=
  | RequestInvalid (err : string)
  | RequestFailed (err : string)
  | Responded (statusCode : Z).

(** [performHTTPCheck]: whether the check passed, and the error text. *)
Definition performHTTPCheck (c : Config) (o : httpOutcome) : bool * string :=
  match o with
  | RequestInvalid err => (false, "failed to create request: " +:+ err)
  | RequestFailed err => (false, "request failed: " +:+ err)
  | Responded code =>
      if 0 <? cfg_Status c then
        if code =? cfg_Status c then (true, "")
        else (false, "unexpected status code: " +:+ itoa code +:+ " (expected: " +:+ itoa (cfg_Status c) +:+ ")")
      else if (200 <=? code) && (code <? 300) then (true, "")
      else (false, "unhealthy status code: " +:+ itoa code)
  end.

(** [performTCPCheck] on the result of the dial. *)
Definition performTCPCheck (dialErr : option string) : bool * string :=
  match dialErr with Some err => (false, "TCP dial failed: " +:+ err) | None => (true, "") end.

Definition tcpAddress (c : Config) : string := JoinHostPort (cfg_Hostname c) (itoa (cfg_Port c)).

Definition isTCP (c : Config) : bool := bool_decide (toLower (str (cfg_Mode c)) = str "tcp").

(** What the network does during a check. *)
Record checkWorld : Type := mkWorld { w_dialErr : option string; w_http : httpOutcome }.

Definition runCheck (c : Config) (w : checkWorld) : bool * string :=
  if isTCP c then performTCPCheck (w_dialErr w) else performHTTPCheck c (w_http w).

(** The threshold logic of [performHealthCheck] on a result. *)
Definition applyResult (now : Z) (passed : bool) (err : string) (t : Target) : Target :=
  let c := t_Config t in
  if passed then
    let succ := consecutiveSuccesses t + 1 in
    let up := cfg_HealthyThreshold c <=? succ in
    mkTarget c (if up then StatusHealthy else t_Status t) now (if up then "" else t_LastError t) (t_CheckCount t + 1)
      (t_ctx t) (t_followRedirects t) (t_insecure t) succ 0
  else
    let fails := consecutiveFailures t + 1 in
    mkTarget c (if cfg_UnhealthyThreshold c <=? fails then StatusUnhealthy else t_Status t) now err (t_CheckCount t + 1)
      (t_ctx t) (t_followRedirects t) (t_insecure t) 0 fails.

Definition performHealthCheck (now : Z) (w : checkWorld) (t : Target) : Target :=
  let '(passed, err) := runCheck (t_Config t) w in applyResult now passed err t.

(** The delay until the next check, in seconds. *)
Definition nextInterval (t : Target) : Z :=
  if bool_decide (t_Status t = StatusUnhealthy) then cfg_UnhealthyInterval (t_Config t) else cfg_Interval (t_Config t).

(** ** The monitoring goroutines ([monitorTarget]) *)

(** Where a goroutine is: about to make its first check, in a check (with the
    status before it, whether it is the first one, and the context the
    request was derived from), or in the [select] (with the context whose
    [Done] channel it listens to). *)
Inductive phase : Type :=
  | PInit
  | PChecking (old : Health) (first : bool) (x : ctx)
  | PSelect (x : ctx) (interval : Z).

Definition goroutine : Type := loc * phase.

Definition checkDone (m : Monitor) (l : loc) (t' : Target) (old : Health) (first : bool)
    : Monitor * list hcEvent * phase :=
  let m' := set_store (<[l := t']> (store m)) m in
  (m',
   if negb (bool_decide (old = t_Status t')) || (first && bool_decide (old = StatusUnknown)) then notify m' else [],
   PSelect (t_ctx t') (nextInterval t')).

(** A configuration: the monitor, its goroutines, the callbacks fired. *)
Definition hcConfig : Type := Monitor * list goroutine * list hcEvent.

Definition started (evs : list hcEvent) : list goroutine :=
  omap (λ e, match e with EvMonitorTarget l => Some (l, PInit) | EvCallback _ => None end) evs.

Section system.
Context `{MapRange}.

(** The operations of the monitor, as one type. *)
Inductive hcOp : Type :=
  | OAdd (c : Config) | OAddAll (cs : list Config) | ORemove (id : Z) | ORemoveAll (ids : list Z)
  | OEnable (id : Z) | ODisable (id : Z) | OSync (cs : list Config) | OStop.

Definition runOp (op : hcOp) (m : Monitor) : Monitor * list hcEvent :=
  match op with
  | OAdd c => AddTarget c m
  | OAddAll cs => AddTargets cs m
  | ORemove id => (RemoveTarget id m).1
  | ORemoveAll ids => (RemoveTargets ids m).1
  | OEnable id => (EnableTarget id m).1
  | ODisable id => (DisableTarget id m).1
  | OSync cs => SyncTargets cs m
  | OStop => (Stop m, [])
  end.

Inductive hcStep : hcConfig → hcConfig → Prop :=
  | hc_op m gs evs op :
      hcStep (m, gs, evs) ((runOp op m).1, gs ++ started (runOp op m).2, evs ++ (runOp op m).2)
  | hc_first m gs1 l gs2 evs t :
      store m !! l = Some t →
      hcStep (m, gs1 ++ (l, PInit) :: gs2, evs)
             (m, gs1 ++ (l, PChecking (t_Status t) true (t_ctx t)) :: gs2, evs)
  | hc_timer m gs1 l x i gs2 evs t :
      store m !! l = Some t →
      hcStep (m, gs1 ++ (l, PSelect x i) :: gs2, evs)
             (m, gs1 ++ (l, PChecking (t_Status t) false (t_ctx t)) :: gs2, evs)
  | hc_result m gs1 l old first x gs2 evs t now passed err m' e p :
      store m !! l = Some t →
      checkDone m l (applyResult now passed err t) old first = (m', e, p) →
      hcStep (m, gs1 ++ (l, PChecking old first x) :: gs2, evs) (m', gs1 ++ (l, p) :: gs2, evs ++ e)
  | hc_stop m gs1 l x i gs2 evs :
      x ∈ cancelled m →
      hcStep (m, gs1 ++ (l, PSelect x i) :: gs2, evs) (m, gs1 ++ gs2, evs).

End system.

(** ** Thresholds *)

(** Length of the run of [v] at the end of a history of results. *)
Fixpoint leadingRun (v : bool) (rs : list bool) : Z :=
  match rs with
  | r :: rs' => if Bool.eqb r v then 1 + leadingRun v rs' else 0
  | [] => 0
  end.
Definition trailingRun (v : bool) (rs : list bool) : Z := leadingRun v (rev rs).

(** The target after a history of checks. *)
Definition afterChecks (t : Target) (rs : list (Z * bool * string)) : Target :=
  foldl (λ t '(now, passed, err), applyResult now passed err t) t rs.

Definition results (rs : list (Z * bool * string)) : list bool := (λ r, r.1.2) <$> rs.

Lemma trailingRun_snoc v rs r : trailingRun v (rs ++ [r]) = if Bool.eqb r v then 1 + trailingRun v rs else 0.
Proof. unfold trailingRun. by rewrite rev_app_distr. Qed.

Lemma trailingRun_nonneg v rs : 0 <= trailingRun v rs.
Proof. unfold trailingRun. induction (rev rs) as [|r l IH]; simpl; [lia|]. destruct (Bool.eqb r v); lia. Qed.

Lemma results_snoc rs r : results (rs ++ [r]) = results rs ++ [r.1.2].
Proof. unfold results. by rewrite fmap_app. Qed.

Lemma afterChecks_snoc t rs r :
  afterChecks t (rs ++ [r]) = applyResult r.1.1 r.1.2 r.2 (afterChecks t rs).
Proof. unfold afterChecks. rewrite foldl_app. by destruct r as [[? ?] ?]. Qed.

(** The counters are the lengths of the current run; the configuration and
    the context stay as they are. *)
Lemma afterChecks_counters c x enf rs :
  let t := afterChecks (newTarget c x enf) rs in
  t_Config t = c ∧ t_ctx t = x ∧
  consecutiveSuccesses t = trailingRun true (results rs) ∧
  consecutiveFailures t = trailingRun false (results rs) ∧
  t_CheckCount t = Z.of_nat (length rs).
Proof.
  induction rs as [|[[now p] err] rs IH] using rev_ind; [done|].
  cbv zeta in *. rewrite afterChecks_snoc, results_snoc, !trailingRun_snoc, length_app.
  destruct IH as (Hc & Hx & Hs & Hf & Hn). unfold applyResult.
  destruct p; simpl; rewrite ?Hs, ?Hf, ?Hn, ?Hc, ?Hx; split_and!; try done; lia.
Qed.

(** A history ends in a decision for [v] when its last run of [v] is at least
    [th] long at some point, and the opposite decision is not reached after. *)
Definition decided (v : bool) (th th' : Z) (rs : list bool) : Prop :=
  ∃ p q, rs = p ++ q ∧ p ≠ [] ∧ th <= trailingRun v p ∧
         ∀ q1 q2, q = q1 ++ q2 → q1 ≠ [] → trailingRun (negb v) (p ++ q1) < th'.

Lemma decided_snoc v th th' rs r :
  1 <= th → 1 <= th' →
  decided v th th' (rs ++ [r]) ↔
  (th <= trailingRun v (rs ++ [r])) ∨ (decided v th th' rs ∧ trailingRun (negb v) (rs ++ [r]) < th').
Proof.
  intros Hth Hth'. split.
  - intros (p & q & Heq & Hp & Hrun & Hq). destruct q as [|x q _] using rev_ind.
    + left. rewrite app_nil_r in Heq. by rewrite Heq.
    + right. rewrite app_assoc in Heq. apply app_inj_tail in Heq as [-> <-]. split.
      * exists p, q. split_and!; try done. intros q1 q2 -> Hne. apply (Hq q1 (q2 ++ [r])); [by rewrite app_assoc|done].
      * rewrite <- app_assoc. apply (Hq (q ++ [r]) []); [by rewrite app_nil_r|by destruct q].
  - intros [Hrun|[(p & q & -> & Hp & Hrun & Hq) Hlt]].
    + exists (rs ++ [r]), []. split_and!; [by rewrite app_nil_r|by destruct rs|done|].
      intros q1 q2 Hnil Hne. symmetry in Hnil. apply app_eq_nil in Hnil as [-> _]. done.
    + exists p, (q ++ [r]). split_and!; [by rewrite app_assoc|done|done|].
      intros q1 q2 Heq Hne. destruct q2 as [|x q2 _] using rev_ind.
      * rewrite app_nil_r in Heq. rewrite <- Heq, app_assoc. done.
      * rewrite app_assoc in Heq. apply app_inj_tail in Heq as [-> _]. by eapply Hq.
Qed.

Lemma decided_nil v th th' : ¬ decided v th th' [].
Proof. intros (p & q & Heq & Hp & _). symmetry in Heq. apply app_eq_nil in Heq as [-> _]. done. Qed.

Lemma trailingRun_opposite v rs : 0 < trailingRun v rs → trailingRun (negb v) rs = 0.
Proof. unfold trailingRun. destruct (rev rs) as [|r l]; simpl; [lia|]. by destruct r, v. Qed.

Lemma status_decided c x enf rs :
  1 <= cfg_HealthyThreshold c → 1 <= cfg_UnhealthyThreshold c →
  let st := t_Status (afterChecks (newTarget c x enf) rs) in
  (st = StatusHealthy ↔ decided true (cfg_HealthyThreshold c) (cfg_UnhealthyThreshold c) (results rs)) ∧
  (st = StatusUnhealthy ↔ decided false (cfg_UnhealthyThreshold c) (cfg_HealthyThreshold c) (results rs)).
Proof.
  intros Hh Hu. induction rs as [|[[now p] err] rs IH] using rev_ind; cbv zeta in *.
  - split; split; try done; intros []%decided_nil.
  - destruct (afterChecks_counters c x enf rs) as (Hc & _ & Hs & Hf & _).
    rewrite afterChecks_snoc, results_snoc. simpl fst. simpl snd.
    rewrite !decided_snoc by done. rewrite <- (proj1 IH), <- (proj2 IH). simpl negb.
    rewrite !trailingRun_snoc. unfold applyResult. rewrite Hc, Hs, Hf.
    pose proof (trailingRun_nonneg true (results rs)). pose proof (trailingRun_nonneg false (results rs)).
    destruct p; simpl.
    + destruct (Z.leb_spec (cfg_HealthyThreshold c) (trailingRun true (results rs) + 1));
        destruct (t_Status (afterChecks (newTarget c x enf) rs)); split; split; intros; try done;
        try (destruct_or?; try done; try lia; destruct_and?; try done; lia); try (left; lia); try (right; split; [done|lia]).
    + destruct (Z.leb_spec (cfg_UnhealthyThreshold c) (trailingRun false (results rs) + 1));
        destruct (t_Status (afterChecks (newTarget c x enf) rs)); split; split; intros; try done;
        try (destruct_or?; try done; try lia; destruct_and?; try done; lia); try (left; lia); try (right; split; [done|lia]).
Qed.

(** ** The monitor's invariant *)

Record monitor_wf (m : Monitor) : Prop := {
  wf_target : ∀ id l, targets m !! id = Some l → ∃ t, store m !! l = Some t ∧ cfg_ID (t_Config t) = id;
  wf_ctx : ∀ l t, store m !! l = Some t → (t_ctx t < nextCtx m)%nat;
  wf_cancelled : ∀ x, x ∈ cancelled m → (x < nextCtx m)%nat;
  wf_ctx_inj : ∀ l1 l2 t1 t2, store m !! l1 = Some t1 → store m !! l2 = Some t2 → t_ctx t1 = t_ctx t2 → l1 = l2;
  wf_live : ∀ id l t, targets m !! id = Some l → store m !! l = Some t → cfg_Enabled (t_Config t) = true →
    t_ctx t ∉ cancelled m;
  wf_dead : ∀ l t, store m !! l = Some t → (∀ id, targets m !! id ≠ Some l) → t_ctx t ∈ cancelled m }.

Lemma wf_NewMonitor cb enf : monitor_wf (NewMonitor cb enf).
Proof. split; simpl; intros; simplify_map_eq; set_solver. Qed.

Lemma target_loc_inj m id1 id2 l :
  monitor_wf m → targets m !! id1 = Some l → targets m !! id2 = Some l → id1 = id2.
Proof.
  intros Hwf H1 H2. destruct (wf_target _ Hwf _ _ H1) as (t & Ht & <-).
  destruct (wf_target _ Hwf _ _ H2) as (t' & Ht' & <-). by simplify_eq.
Qed.

(** The context cancelled when the target of [id] is replaced or removed. *)
Definition oldCtx (m : Monitor) (id : Z) : gset ctx :=
  match targets m !! id ≫= (store m !!.) with Some t => {[t_ctx t]} | None => ∅ end.

Lemma cancel_target_eq m id l :
  targets m !! id = Some l →
  cancel_target l m = mkMonitor (store m) (targets m) (oldCtx m id ∪ cancelled m) (nextCtx m) (hasCallback m) (enforceCert m).
Proof.
  intros Hl. unfold cancel_target, oldCtx, cancel_ctx. rewrite Hl. simpl.
  destruct (store m !! l); [done|]. destruct m; simpl. f_equal. set_solver.
Qed.

Lemma removeOne_eq m id :
  removeOne id m = mkMonitor (store m) (delete id (targets m)) (oldCtx m id ∪ cancelled m) (nextCtx m) (hasCallback m) (enforceCert m).
Proof.
  unfold removeOne. destruct (targets m !! id) as [l|] eqn:Hl.
  - by rewrite (cancel_target_eq m id l Hl).
  - unfold oldCtx. rewrite Hl. simpl. destruct m; simpl in *. f_equal; [by rewrite delete_id|set_solver].
Qed.

Definition newLoc (m : Monitor) : loc := fresh (dom (store m)).

Lemma newLoc_fresh m : store m !! newLoc m = None.
Proof. apply not_elem_of_dom. exact (is_fresh (dom (store m))). Qed.

Lemma add_eq m config :
  addTargetUnsafe config m =
  (mkMonitor (<[newLoc m := newTarget (withDefaults config) (nextCtx m) (enforceCert m)]> (store m))
     (<[cfg_ID config := newLoc m]> (targets m)) (oldCtx m (cfg_ID config) ∪ cancelled m) (S (nextCtx m))
     (hasCallback m) (enforceCert m),
   if cfg_Enabled config then [EvMonitorTarget (newLoc m)] else []).
Proof.
  unfold addTargetUnsafe. simpl cfg_ID. simpl cfg_Enabled.
  destruct (targets m !! cfg_ID config) as [l|] eqn:Hl.
  - by rewrite (cancel_target_eq m _ l Hl).
  - unfold oldCtx. rewrite Hl. simpl. by rewrite union_empty_l_L.
Qed.

Lemma syncOne_add id c m : cfg_ID c = id → syncOne (id, c) m = addTargetUnsafe c m.
Proof.
  intros <-. unfold syncOne. simpl. destruct (targets m !! cfg_ID c) as [l|] eqn:Hl; [|done].
  rewrite !add_eq, removeOne_eq. unfold newLoc. simpl. do 2 f_equal.
  - apply insert_delete_eq.
  - unfold oldCtx at 1. simpl. rewrite lookup_delete_eq. simpl. set_solver.
Qed.

Lemma oldCtx_lt m id : monitor_wf m → ∀ x, x ∈ oldCtx m id → (x < nextCtx m)%nat.
Proof.
  intros Hwf x. unfold oldCtx. destruct (targets m !! id) as [l|] eqn:Hl; simpl; [|set_solver].
  destruct (store m !! l) as [t|] eqn:Ht; [|set_solver]. intros ->%elem_of_singleton. by eapply wf_ctx.
Qed.

Lemma oldCtx_ctx m id l t :
  targets m !! id = Some l → store m !! l = Some t → t_ctx t ∈ oldCtx m id.
Proof. intros Hl Ht. unfold oldCtx. rewrite Hl. simpl. rewrite Ht. set_solver. Qed.

(** A context cancelled for [id] belongs to the target of [id] only. *)
Lemma oldCtx_owner m id l t :
  monitor_wf m → store m !! l = Some t → t_ctx t ∈ oldCtx m id → targets m !! id = Some l.
Proof.
  intros Hwf Ht. unfold oldCtx. destruct (targets m !! id) as [l'|] eqn:Hl; simpl; [|set_solver].
  destruct (store m !! l') as [t'|] eqn:Ht'; [|set_solver]. intros Heq%elem_of_singleton.
  f_equal. symmetry. by eapply (wf_ctx_inj _ Hwf).
Qed.

Lemma wf_removeOne m id : monitor_wf m → monitor_wf (removeOne id m).
Proof.
  intros Hwf. rewrite removeOne_eq. split; simpl.
  - intros id' l [_ H]%lookup_delete_Some. by apply (wf_target _ Hwf).
  - apply (wf_ctx _ Hwf).
  - intros x [H|H]%elem_of_union; [by eapply oldCtx_lt|by apply (wf_cancelled _ Hwf)].
  - apply (wf_ctx_inj _ Hwf).
  - intros id' l t [Hne H]%lookup_delete_Some Ht He [Hx|Hx]%elem_of_union.
    + pose proof (oldCtx_owner m id l t Hwf Ht Hx). apply Hne. by eapply target_loc_inj.
    + by eapply (wf_live _ Hwf).
  - intros l t Ht Hnone. apply elem_of_union. destruct (decide (targets m !! id = Some l)) as [Hl|Hl].
    + left. by eapply oldCtx_ctx.
    + right. eapply (wf_dead _ Hwf); [done|]. intros id' Hid'. destruct (decide (id' = id)) as [->|Hne]; [done|].
      apply (Hnone id'). by rewrite lookup_delete_ne.
Qed.

Lemma wf_add m config : monitor_wf m → monitor_wf (addTargetUnsafe config m).1.
Proof.
  intros Hwf. rewrite add_eq. pose proof (newLoc_fresh m) as Hf.
  assert (∀ id l, targets m !! id = Some l → l ≠ newLoc m) as Hne.
  { intros id l Hl ->. destruct (wf_target _ Hwf _ _ Hl) as (t & Ht & _). congruence. }
  assert (∀ x, x ∈ oldCtx m (cfg_ID config) ∪ cancelled m → (x < nextCtx m)%nat) as Hlt.
  { intros x [H|H]%elem_of_union; [by eapply oldCtx_lt|by apply (wf_cancelled _ Hwf)]. }
  split; cbn [fst store targets cancelled nextCtx].
  - intros id l [[<- <-]|[Hn H]]%lookup_insert_Some; [rewrite lookup_insert_eq; by eexists|].
    rewrite lookup_insert_ne by (apply not_eq_sym; by eapply Hne). by apply (wf_target _ Hwf).
  - intros l t [[<- <-]|[_ H]]%lookup_insert_Some; [simpl; lia|]. pose proof (wf_ctx _ Hwf _ _ H). lia.
  - intros x Hx%Hlt. lia.
  - intros l1 l2 t1 t2 [[<- <-]|[_ H1]]%lookup_insert_Some [[<- <-]|[_ H2]]%lookup_insert_Some Heq; try done.
    + pose proof (wf_ctx _ Hwf _ _ H2). simpl in Heq. lia.
    + pose proof (wf_ctx _ Hwf _ _ H1). simpl in Heq. lia.
    + by eapply (wf_ctx_inj _ Hwf).
  - intros id l t [[<- <-]|[Hn H]]%lookup_insert_Some.
    + rewrite lookup_insert_eq. intros [= <-] _ Hx%Hlt. simpl in Hx. lia.
    + rewrite lookup_insert_ne by (apply not_eq_sym; by eapply Hne). intros Ht He [Hx|Hx]%elem_of_union.
      * pose proof (oldCtx_owner m _ l t Hwf Ht Hx). apply Hn. by eapply target_loc_inj.
      * by eapply (wf_live _ Hwf).
  - intros l t [[<- <-]|[Hn H]]%lookup_insert_Some Hnone.
    + destruct (Hnone (cfg_ID config)). by rewrite lookup_insert_eq.
    + apply elem_of_union. destruct (decide (targets m !! cfg_ID config = Some l)) as [Hl|Hl].
      * left. by eapply oldCtx_ctx.
      * right. eapply (wf_dead _ Hwf); [done|]. intros id' Hid'.
        destruct (decide (id' = cfg_ID config)) as [->|Hne']; [done|].
        apply (Hnone id'). by rewrite lookup_insert_ne by done.
Qed.

(** Writing a target back with the same configuration and context. *)
Lemma wf_update m l t t' :
  monitor_wf m → store m !! l = Some t → t_Config t' = t_Config t → t_ctx t' = t_ctx t →
  monitor_wf (set_store (<[l := t']> (store m)) m).
Proof.
  intros Hwf Ht Hc Hx.
  assert (∀ l0 t0, <[l := t']> (store m) !! l0 = Some t0 →
    ∃ t1, store m !! l0 = Some t1 ∧ t_Config t0 = t_Config t1 ∧ t_ctx t0 = t_ctx t1) as Hl.
  { intros l0 t0 [[<- <-]|[_ H]]%lookup_insert_Some; [by exists t|by exists t0]. }
  split; simpl.
  - intros id l0 H. destruct (wf_target _ Hwf _ _ H) as (t0 & Ht0 & <-). destruct (decide (l = l0)) as [->|Hne].
    + rewrite lookup_insert_eq. simplify_eq. by exists t'; rewrite Hc.
    + rewrite lookup_insert_ne by done. by exists t0.
  - intros l0 t0 (t1 & H1 & _ & ->)%Hl. by eapply (wf_ctx _ Hwf).
  - apply (wf_cancelled _ Hwf).
  - intros l1 l2 t1 t2 (u1 & Hu1 & _ & ->)%Hl (u2 & Hu2 & _ & ->)%Hl. by eapply (wf_ctx_inj _ Hwf).
  - intros id l0 t0 H (t1 & H1 & -> & ->)%Hl. by eapply (wf_live _ Hwf).
  - intros l0 t0 (t1 & H1 & _ & ->)%Hl. by eapply (wf_dead _ Hwf).
Qed.

Lemma wf_Enable m id : monitor_wf m → monitor_wf (EnableTarget id m).1.1.
Proof.
  intros Hwf. unfold EnableTarget. destruct (targets m !! id) as [l|] eqn:Hl; [|done].
  destruct (store m !! l) as [t|] eqn:Ht; [|done]. destruct (negb _); [|done].
  pose proof (wf_ctx _ Hwf) as Hlt. split; cbn [fst store targets cancelled nextCtx].
  - intros id' l' H'. destruct (wf_target _ Hwf _ _ H') as (t' & Ht' & <-). destruct (decide (l = l')) as [->|Hne].
    + rewrite lookup_insert_eq. simplify_eq. by eexists.
    + rewrite lookup_insert_ne by done. by exists t'.
  - intros l' t' [[<- <-]|[_ H]]%lookup_insert_Some; [simpl; lia|]. specialize (Hlt _ _ H). lia.
  - intros x [->%elem_of_singleton|Hx]%elem_of_union; [specialize (Hlt _ _ Ht); lia|].
    pose proof (wf_cancelled _ Hwf x Hx). lia.
  - intros l1 l2 t1 t2 [[<- <-]|[? H1]]%lookup_insert_Some [[<- <-]|[? H2]]%lookup_insert_Some Heq; try done.
    + specialize (Hlt _ _ H2). simpl in Heq. lia.
    + specialize (Hlt _ _ H1). simpl in Heq. lia.
    + by eapply (wf_ctx_inj _ Hwf).
  - intros id' l' t' H' [[<- <-]|[Hne Ht']]%lookup_insert_Some He [Hx%elem_of_singleton|Hx]%elem_of_union.
    + specialize (Hlt _ _ Ht). simpl in Hx. lia.
    + pose proof (wf_cancelled _ Hwf _ Hx) as Hc. simpl in Hc. lia.
    + apply Hne. by eapply (wf_ctx_inj _ Hwf).
    + by eapply (wf_live _ Hwf).
  - intros l' t' [[<- <-]|[Hne Ht']]%lookup_insert_Some Hnone; [by destruct (Hnone id)|].
    apply elem_of_union_r. by eapply (wf_dead _ Hwf).
Qed.

Lemma wf_Disable m id : monitor_wf m → monitor_wf (DisableTarget id m).1.1.
Proof.
  intros Hwf. unfold DisableTarget. destruct (targets m !! id) as [l|] eqn:Hl; [|done].
  destruct (store m !! l) as [t|] eqn:Ht; [|done]. destruct (cfg_Enabled (t_Config t)) eqn:Hen; [|done].
  pose proof (wf_ctx _ Hwf) as Hlt. split; cbn [fst cancel_ctx set_store store targets cancelled nextCtx].
  - intros id' l' H'. destruct (wf_target _ Hwf _ _ H') as (t' & Ht' & <-). destruct (decide (l = l')) as [->|Hne].
    + rewrite lookup_insert_eq. simplify_eq. by eexists.
    + rewrite lookup_insert_ne by done. by exists t'.
  - intros l' t' [[<- <-]|[_ H]]%lookup_insert_Some; [exact (Hlt _ _ Ht)|exact (Hlt _ _ H)].
  - intros x [->%elem_of_singleton|Hx]%elem_of_union; [by eapply Hlt|by apply (wf_cancelled _ Hwf)].
  - intros l1 l2 t1 t2 [[<- <-]|[? H1]]%lookup_insert_Some [[<- <-]|[? H2]]%lookup_insert_Some Heq; try done.
    + exact (wf_ctx_inj _ Hwf _ _ _ _ Ht H2 Heq).
    + exact (wf_ctx_inj _ Hwf _ _ _ _ H1 Ht Heq).
    + exact (wf_ctx_inj _ Hwf _ _ _ _ H1 H2 Heq).
  - intros id' l' t' H' [[<- <-]|[Hne Ht']]%lookup_insert_Some He; [done|].
    intros [Hx%elem_of_singleton|Hx]%elem_of_union; [apply Hne; by eapply (wf_ctx_inj _ Hwf)|by eapply (wf_live _ Hwf)].
  - intros l' t' [[<- <-]|[Hne Ht']]%lookup_insert_Some Hnone; [by destruct (Hnone id)|].
    apply elem_of_union_r. by eapply (wf_dead _ Hwf).
Qed.

(** What no operation undoes: targets stay in the store, cancelled contexts
    stay cancelled, a target whose context changes had the old one cancelled,
    and a target that is neither enabled nor cancelled was so before. *)
Definition monitored (m : Monitor) (t : Target) : Prop :=
  cfg_Enabled (t_Config t) = true ∨ t_ctx t ∈ cancelled m.

Definition advances (m m' : Monitor) : Prop :=
  cancelled m ⊆ cancelled m' ∧
  ∀ l t, store m !! l = Some t →
    ∃ t', store m' !! l = Some t' ∧ (t_ctx t' = t_ctx t ∨ t_ctx t ∈ cancelled m') ∧
          (monitored m t → monitored m' t').

#[global] Instance advances_preorder : PreOrder advances.
Proof.
  split.
  - intros m. split; [done|]. intros l t Ht. exists t. auto.
  - intros m1 m2 m3 [Hc12 H12] [Hc23 H23]. split; [set_solver|]. intros l t Ht.
    destruct (H12 l t Ht) as (t2 & Ht2 & Hx & Hm). destruct (H23 l t2 Ht2) as (t3 & Ht3 & Hx' & Hm').
    exists t3. split_and!; [done| |auto]. destruct Hx as [<-|Hx]; [done|]. right. set_solver.
Qed.

(** The targets of the goroutines an operation starts. *)
Definition starts_ok (m : Monitor) (evs : list hcEvent) : Prop :=
  ∀ l, EvMonitorTarget l ∈ evs → ∃ t, store m !! l = Some t ∧ monitored m t.

Definition op_ok (m : Monitor) (r : Monitor * list hcEvent) : Prop :=
  monitor_wf r.1 ∧ advances m r.1 ∧ starts_ok r.1 r.2.

Lemma starts_ok_advances m m' evs : advances m m' → starts_ok m evs → starts_ok m' evs.
Proof.
  intros [_ Ha] Hs l Hl. destruct (Hs l Hl) as (t & Ht & Hm). destruct (Ha l t Ht) as (t' & Ht' & _ & Hm').
  exists t'. auto.
Qed.

Lemma op_ok_seq m m1 m2 e1 e2 :
  op_ok m (m1, e1) → op_ok m1 (m2, e2) → op_ok m (m2, e1 ++ e2).
Proof.
  intros (Hwf1 & Ha1 & Hs1) (Hwf2 & Ha2 & Hs2). simpl in *. split_and!; [done|by trans m1|].
  intros l [Hl|Hl]%elem_of_app; [by eapply starts_ok_advances|by apply Hs2].
Qed.

Lemma op_ok_events m m' evs evs' :
  op_ok m (m', evs) → (∀ l, EvMonitorTarget l ∈ evs' → EvMonitorTarget l ∈ evs) → op_ok m (m', evs').
Proof. intros (? & ? & Hs) Hev. split_and!; try done. intros l Hl. simpl in *. auto. Qed.

Lemma notify_no_start m l : EvMonitorTarget l ∉ notify m.
Proof. unfold notify. destruct (hasCallback m); set_solver. Qed.

Lemma each_ok {A} (op : A → Monitor → Monitor * list hcEvent) xs m :
  monitor_wf m → (∀ x m, monitor_wf m → op_ok m (op x m)) → op_ok m (each op xs m).
Proof.
  intros Hwf Hop. unfold each. induction xs as [|x xs IH] using rev_ind.
  - split_and!; [done|done|]. intros l Hl. by apply elem_of_nil in Hl.
  - rewrite foldl_snoc. destruct (foldl _ (m, []) xs) as [m1 e1]. pose proof (proj1 IH) as Hwf1. simpl in Hwf1.
    pose proof (Hop x m1 Hwf1) as H. destruct (op x m1) as [m2 e2]. by eapply op_ok_seq.
Qed.

Lemma removeOne_ok m id : monitor_wf m → op_ok m (removeOne id m, []).
Proof.
  intros Hwf. split_and!; [by apply wf_removeOne| |intros l Hl; by apply elem_of_nil in Hl].
  rewrite removeOne_eq. split; simpl; [set_solver|]. intros l t Ht. exists t. split_and!; [done|by left|].
  intros [?|?]; [by left|right; simpl; set_solver].
Qed.

Lemma add_ok c m : monitor_wf m → op_ok m (addTargetUnsafe c m).
Proof.
  intros Hwf. pose proof (wf_add m c Hwf) as Hwf'. pose proof (newLoc_fresh m) as Hf. rewrite add_eq in *.
  split_and!; [done| |].
  - split; simpl; [set_solver|]. intros l t Ht. exists t. rewrite lookup_insert_ne by congruence.
    split_and!; [done|by left|]. intros [?|?]; [by left|right; simpl; set_solver].
  - intros l Hl. simpl in *. destruct (cfg_Enabled c) eqn:He; [|by apply elem_of_nil in Hl].
    apply list_elem_of_singleton in Hl as [= ->]. eexists. rewrite lookup_insert_eq. split; [done|]. by left.
Qed.

Lemma remove_loop_ok ids st m :
  monitor_wf m → op_ok m (st.1, []) →
  op_ok m ((foldl removeStep st ids).1, []).
Proof.
  intros Hwf. revert st. induction ids as [|id ids IH]; intros [m1 nf] Hst; [done|].
  apply IH. unfold removeStep. simpl. destruct (targets m1 !! id) as [l|] eqn:Hl; [|done].
  simpl. change ([] : list hcEvent) with ([] ++ [] : list hcEvent).
  eapply op_ok_seq; [exact Hst|]. apply removeOne_ok, Hst.
Qed.

Lemma Enable_ok m id : monitor_wf m → op_ok m (EnableTarget id m).1.
Proof.
  intros Hwf. pose proof (wf_Enable m id Hwf) as Hwf'. unfold EnableTarget in *.
  destruct (targets m !! id) as [l|] eqn:Hl; [|by split_and!; [done|done|intros ? ?%elem_of_nil]].
  destruct (store m !! l) as [t|] eqn:Ht; [|by split_and!; [done|done|intros ? ?%elem_of_nil]].
  destruct (negb _) eqn:Hen; [|by split_and!; [done|done|intros ? ?%elem_of_nil]].
  split_and!; [done| |].
  - split; simpl; [set_solver|]. intros l' t' Ht'. destruct (decide (l = l')) as [->|Hne].
    + rewrite lookup_insert_eq. eexists. split_and!; [done| |intros _; by left]. right. simplify_eq. set_solver.
    + rewrite lookup_insert_ne by done. exists t'. split_and!; [done|by left|].
      intros [?|?]; [by left|right; simpl; set_solver].
  - intros l' Hl'. simpl in *. apply list_elem_of_singleton in Hl' as [= ->].
    rewrite lookup_insert_eq. eexists. split; [done|]. by left.
Qed.

Lemma Disable_ok m id : monitor_wf m → op_ok m (DisableTarget id m).1.
Proof.
  intros Hwf. pose proof (wf_Disable m id Hwf) as Hwf'. unfold DisableTarget in *.
  destruct (targets m !! id) as [l|] eqn:Hl; [|by split_and!; [done|done|intros ? ?%elem_of_nil]].
  destruct (store m !! l) as [t|] eqn:Ht; [|by split_and!; [done|done|intros ? ?%elem_of_nil]].
  destruct (cfg_Enabled (t_Config t)) eqn:Hen; [|by split_and!; [done|done|intros ? ?%elem_of_nil]].
  split_and!; [done| |intros l' Hl'; by apply notify_no_start in Hl'].
  split; simpl; [set_solver|]. intros l' t' Ht'. destruct (decide (l = l')) as [->|Hne].
  - rewrite lookup_insert_eq. eexists. split_and!; [done|by simplify_eq; left|]. intros _. right. simpl. set_solver.
  - rewrite lookup_insert_ne by done. exists t'. split_and!; [done|by left|].
    intros [?|?]; [by left|right; simpl; set_solver].
Qed.

(** ** All operations *)

Lemma cancel_loop (es : list (Z * loc)) m :
  let m' := foldl (λ m e, cancel_target e.2 m) m es in
  store m' = store m ∧ targets m' = targets m ∧ nextCtx m' = nextCtx m ∧ cancelled m ⊆ cancelled m' ∧
  (∀ e t, e ∈ es → store m !! e.2 = Some t → t_ctx t ∈ cancelled m') ∧
  (∀ x, x ∈ cancelled m' → x ∈ cancelled m ∨ ∃ l t, store m !! l = Some t ∧ x = t_ctx t).
Proof.
  revert m. induction es as [|e es IH]; intros m; cbv zeta in *.
  - simpl. split_and!; try done; [intros ? ? []%elem_of_nil|by left].
  - simpl. destruct (IH (cancel_target e.2 m)) as (Hs & Ht & Hn & Hc & Hin & Hout).
    assert (store (cancel_target e.2 m) = store m ∧ targets (cancel_target e.2 m) = targets m ∧
            nextCtx (cancel_target e.2 m) = nextCtx m ∧ cancelled m ⊆ cancelled (cancel_target e.2 m)) as (H1 & H2 & H3 & H4).
    { unfold cancel_target. destruct (store m !! e.2); simpl; split_and!; try done. set_solver. }
    rewrite Hs, Ht, Hn, H1, H2, H3 in *. split_and!; try done; [set_solver| |].
    + intros e' t [->|He]%elem_of_cons Hst; [|by eapply Hin].
      apply Hc. unfold cancel_target. rewrite Hst. simpl. set_solver.
    + intros x Hx. destruct (Hout x Hx) as [Hx'|?]; [|by right]. unfold cancel_target in Hx'.
      destruct (store m !! e.2) as [t|] eqn:Et; [|by left]. simpl in Hx'.
      apply elem_of_union in Hx' as [->%elem_of_singleton|?]; [right; by exists e.2, t|by left].
Qed.

Section ops.
Context `{MapRange}.

Lemma Stop_ok m : monitor_wf m → op_ok m (Stop m, []).
Proof.
  intros Hwf. unfold Stop.
  destruct (cancel_loop (range_map (targets m)) m) as (Hs & Ht & Hn & Hc & Hin & Hout).
  set (m' := foldl _ m _) in *. split_and!.
  - split; simpl; rewrite ?Hs, ?Hn.
    + intros. by simplify_map_eq.
    + apply (wf_ctx _ Hwf).
    + intros x Hx. destruct (Hout x Hx) as [Hx'|(l & t & Hl & ->)]; [by apply (wf_cancelled _ Hwf)|by eapply (wf_ctx _ Hwf)].
    + apply (wf_ctx_inj _ Hwf).
    + intros. by simplify_map_eq.
    + intros l t Hl _. destruct (decide (Exists (λ e, e.2 = l) (range_map (targets m)))) as [Hex|Hno].
      * apply Exists_exists in Hex as (e & He & <-). by eapply Hin.
      * apply Hc. eapply (wf_dead _ Hwf); [done|]. intros id Hid. apply Hno, Exists_exists.
        exists (id, l). split; [|done]. by apply range_map_elem.
  - split; simpl; [done|]. intros l t Hl. rewrite Hs. exists t. split_and!; [done|by left|].
    intros [?|?]; [by left|right; simpl; set_solver].
  - intros l []%elem_of_nil.
Qed.

Definition desiredMap (desired : list Config) : gmap Z Config := foldl (λ d c, <[cfg_ID c := c]> d) ∅ desired.

Lemma desiredMap_id desired id c : desiredMap desired !! id = Some c → cfg_ID c = id.
Proof.
  unfold desiredMap. induction desired as [|d ds IH] using rev_ind; [done|].
  rewrite foldl_snoc. intros [[<- <-]|[_ Hl]]%lookup_insert_Some; [done|by apply IH].
Qed.

Lemma sync_each_add ds m :
  (∀ e, e ∈ ds → cfg_ID e.2 = e.1) → each syncOne ds m = each addTargetUnsafe ds.*2 m.
Proof.
  unfold each. generalize ([] : list hcEvent) as evs. revert m.
  induction ds as [|[id c] ds IH]; intros m evs Hds; cbn [foldl fmap list_fmap snd]; [done|].
  rewrite syncOne_add by (apply (Hds (id, c)); set_solver).
  destruct (addTargetUnsafe c m) as [m' e]. apply IH. set_solver.
Qed.

Lemma remove_each_ok ids m : monitor_wf m → op_ok m (foldl (λ m id, removeOne id m) m ids, []).
Proof.
  intros Hwf. induction ids as [|id ids IH] using rev_ind.
  - split_and!; [done|done|intros l []%elem_of_nil].
  - rewrite foldl_snoc. change ([] : list hcEvent) with ([] ++ [] : list hcEvent).
    eapply op_ok_seq; [exact IH|]. apply removeOne_ok, IH.
Qed.

Lemma Sync_ok desired m : monitor_wf m → op_ok m (SyncTargets desired m).
Proof.
  intros Hwf. unfold SyncTargets. fold (desiredMap desired).
  set (rm := filter _ _). pose proof (remove_each_ok rm m Hwf) as H1.
  set (m1 := foldl _ m rm) in *.
  assert (∀ e, e ∈ range_map (desiredMap desired) → cfg_ID e.2 = e.1) as Hid.
  { intros [id c] Hin%range_map_elem. by apply (desiredMap_id desired). }
  rewrite sync_each_add by done.
  pose proof (each_ok addTargetUnsafe (range_map (desiredMap desired)).*2 m1 (proj1 H1) add_ok) as H2.
  destruct (each addTargetUnsafe _ m1) as [m2 evs]. eapply op_ok_events.
  - by eapply op_ok_seq.
  - intros l [Hl|Hl]%elem_of_app; [done|]. destruct (_ || _); [by apply notify_no_start in Hl|by apply elem_of_nil in Hl].
Qed.

Lemma runOp_ok op m : monitor_wf m → op_ok m (runOp op m).
Proof.
  intros Hwf. destruct op; simpl.
  - by apply add_ok.
  - apply each_ok; [done|]. apply add_ok.
  - unfold RemoveTarget. destruct (targets m !! id); simpl.
    + eapply op_ok_events; [by apply removeOne_ok|]. intros l' Hl'. by apply notify_no_start in Hl'.
    + split_and!; [done|done|intros l []%elem_of_nil].
  - unfold RemoveTargets. pose proof (remove_loop_ok ids (m, []) m Hwf) as Hr. simpl in Hr.
    destruct (foldl removeStep (m, []) ids) as [m' nf]. simpl in *. eapply op_ok_events.
    + apply Hr. split_and!; [done|done|intros l []%elem_of_nil].
    + intros l Hl. destruct (Nat.eqb _ _); [done|by apply notify_no_start in Hl].
  - by apply Enable_ok.
  - by apply Disable_ok.
  - by apply Sync_ok.
  - by apply Stop_ok.
Qed.

(** ** The goroutines *)

Definition goroutine_ok (m : Monitor) (g : goroutine) : Prop :=
  ∃ t, store m !! g.1 = Some t ∧ monitored m t ∧
       match g.2 with PSelect x _ => x = t_ctx t ∨ x ∈ cancelled m | _ => True end.

Lemma goroutine_ok_advances m m' g : advances m m' → goroutine_ok m g → goroutine_ok m' g.
Proof.
  intros [Hc Ha] (t & Ht & Hm & Hp). destruct (Ha _ t Ht) as (t' & Ht' & Hx & Hm').
  exists t'. split_and!; [done|auto|]. destruct g.2 as [| |x i]; try done.
  destruct Hp as [->|Hp]; [|right; set_solver]. destruct Hx as [<-|Hx]; [by left|by right].
Qed.

Definition config_ok (c : hcConfig) : Prop := monitor_wf c.1.1 ∧ Forall (goroutine_ok c.1.1) c.1.2.

Lemma applyResult_frame now p err t :
  t_Config (applyResult now p err t) = t_Config t ∧ t_ctx (applyResult now p err t) = t_ctx t.
Proof. unfold applyResult. by destruct p. Qed.

Lemma Forall_replace {A} (P : A → Prop) gs1 g g' gs2 :
  Forall P (gs1 ++ g :: gs2) → (P g → P g') → Forall P (gs1 ++ g' :: gs2).
Proof. rewrite !Forall_app, !Forall_cons. tauto. Qed.

Lemma hcStep_ok c c' : config_ok c → hcStep c c' → config_ok c'.
Proof.
  intros [Hwf Hgs] Hstep. destruct Hstep as
    [m gs evs op|m gs1 l gs2 evs t Ht|m gs1 l x i gs2 evs t Ht|m gs1 l old first x gs2 evs t now p err m' e ph Ht Hd
    |m gs1 l x i gs2 evs Hx]; unfold config_ok in *; simpl in *.
  - destruct (runOp_ok op m Hwf) as (Hwf' & Ha & Hs). split; [done|]. apply Forall_app. split.
    + eapply Forall_impl; [done|]. intros g. by apply goroutine_ok_advances.
    + apply Forall_forall. intros g Hg. unfold started in Hg. apply list_elem_of_omap in Hg as (ev & Hev & Hg).
      destruct ev as [l|]; [|done]. simplify_eq. destruct (Hs l Hev) as (t & Ht & Hm). by exists t.
  - split; [done|]. eapply Forall_replace; [done|]. intros (t' & Ht' & Hm & _). by exists t'.
  - split; [done|]. eapply Forall_replace; [done|]. intros (t' & Ht' & Hm & _). by exists t'.
  - destruct (applyResult_frame now p err t) as [Hc Hcx]. unfold checkDone in Hd. simplify_eq.
    set (t' := applyResult now p err t) in *. set (m' := set_store _ m).
    assert (monitor_wf m') as Hwf' by by eapply wf_update.
    assert (advances m m') as Ha.
    { split; [done|]. intros l0 t0 Ht0. unfold m'. simpl. destruct (decide (l = l0)) as [->|Hne].
      - rewrite lookup_insert_eq. exists t'. simplify_eq. split_and!; [done|by left|].
        unfold monitored. by rewrite Hc, Hcx.
      - rewrite lookup_insert_ne by done. exists t0. split_and!; [done|by left|done]. }
    split; [done|]. eapply Forall_replace.
    + eapply Forall_impl; [done|]. intros g. by apply goroutine_ok_advances.
    + intros (t0 & Ht0 & Hm & _). exists t0. split_and!; [done|done|]. unfold m' in Ht0. simpl in Ht0.
      rewrite lookup_insert_eq in Ht0. simplify_eq. simpl. by left.
  - split; [done|]. apply Forall_app in Hgs as [H1 H2]. apply Forall_cons in H2 as [_ H2]. by apply Forall_app.
Qed.

Lemma reachable_ok cb enf c : rtc hcStep (NewMonitor cb enf, [], []) c → config_ok c.
Proof.
  assert (∀ c0, rtc hcStep c0 c → config_ok c0 → config_ok c) as Hinv.
  { induction 1 as [|x y z Hxy Hyz IH]; [done|]. intros Hx. apply IH. by eapply hcStep_ok. }
  intros Hr. apply (Hinv _ Hr). split; [apply wf_NewMonitor|constructor].
Qed.

End ops.

(** ** Synchronisation, specified *)

(** The configuration asked for an id: the last one in the list. *)
Definition lastConfig (desired : list Config) (id : Z) : option Config :=
  last (filter (λ c, cfg_ID c = id) desired).

Lemma desiredMap_last desired id : desiredMap desired !! id = lastConfig desired id.
Proof.
  unfold desiredMap, lastConfig. induction desired as [|c ds IH] using rev_ind; [done|].
  rewrite foldl_snoc, filter_app. destruct (decide (cfg_ID c = id)) as [<-|Hne].
  - rewrite lookup_insert_eq, filter_cons_True by done. by rewrite last_app.
  - rewrite lookup_insert_ne, filter_cons_False by done. simpl. by rewrite app_nil_r.
Qed.

(** The target just created for [c], with its goroutine exactly if enabled. *)
Definition created (m : Monitor) (evs : list hcEvent) (c : Config) : Prop :=
  ∃ l x, targets m !! cfg_ID c = Some l ∧ store m !! l = Some (newTarget (withDefaults c) x (enforceCert m)) ∧
         ¬ (x ∈ cancelled m) ∧ (EvMonitorTarget l ∈ evs ↔ cfg_Enabled c = true).

Record added (cs : list Config) (m m' : Monitor) (evs : list hcEvent) : Prop := {
  ad_wf : monitor_wf m';
  ad_created : ∀ c, c ∈ cs → created m' evs c;
  ad_others : ∀ id, id ∉ cfg_ID <$> cs → targets m' !! id = targets m !! id;
  ad_cancelled : cancelled m ⊆ cancelled m';
  ad_store : ∀ l t, store m !! l = Some t → store m' !! l = Some t;
  ad_replaced : ∀ id l t, id ∈ cfg_ID <$> cs → targets m !! id = Some l → store m !! l = Some t → t_ctx t ∈ cancelled m';
  ad_enforce : enforceCert m' = enforceCert m;
  ad_fresh : ∀ l, EvMonitorTarget l ∈ evs → is_Some (store m' !! l) }.

Lemma each_add_spec cs m :
  monitor_wf m → NoDup (cfg_ID <$> cs) →
  added cs m (each addTargetUnsafe cs m).1 (each addTargetUnsafe cs m).2.
Proof.
  intros Hwf. unfold each. induction cs as [|c cs IH] using rev_ind; intros Hnd.
  - split; simpl; try done; try set_solver.
  - rewrite foldl_snoc. rewrite fmap_app in Hnd. apply NoDup_app in Hnd as (Hnd & Hdis & _).
    destruct (IH Hnd) as [Hwf1 Hcr Ho Hc Hst Hr He Hfr]. destruct (foldl _ (m, []) cs) as [m1 e1]. cbn [fst snd] in *.
    pose proof (wf_add m1 c Hwf1) as Hwf2. pose proof (newLoc_fresh m1) as Hnew. rewrite add_eq in *. cbn [fst snd] in *.
    assert (cfg_ID c ∉ cfg_ID <$> cs) as Hc' by (intros Hin; apply (Hdis (cfg_ID c)); set_solver).
    assert (∀ l, EvMonitorTarget l ∈ e1 → l ≠ newLoc m1) as Hne1.
    { intros l Hl ->. destruct (Hfr _ Hl) as [t Ht]. congruence. }
    split; cbn [store targets cancelled nextCtx enforceCert].
    + done.
    + intros d [Hd|Hd]%elem_of_app.
      * destruct (Hcr d Hd) as (l & x & Hl & Hs & Hx & Hev). exists l, x.
        assert (cfg_ID d ≠ cfg_ID c) as Hdc by (intros Heq; apply Hc'; rewrite <- Heq; by apply list_elem_of_fmap_2).
        cbn [store targets cancelled enforceCert]. split_and!.
        -- by rewrite lookup_insert_ne.
        -- rewrite lookup_insert_ne by congruence. by rewrite Hs.
        -- intros [Ho'|?]%elem_of_union; [|done].
           pose proof (oldCtx_owner m1 (cfg_ID c) l _ Hwf1 Hs Ho') as Hl'.
           apply Hdc. exact (target_loc_inj m1 _ _ l Hwf1 Hl Hl').
        -- rewrite elem_of_app, Hev. split; [intros [?|Hin]; [done|]|by left].
           destruct (cfg_Enabled c); [|by apply elem_of_nil in Hin].
           apply list_elem_of_singleton in Hin as [= ->]. congruence.
      * apply list_elem_of_singleton in Hd as ->. exists (newLoc m1), (nextCtx m1).
        cbn [store targets cancelled enforceCert]. rewrite !lookup_insert_eq. split_and!; [done|done| |].
        -- intros Hx. assert (nextCtx m1 < nextCtx m1)%nat; [|lia].
           apply elem_of_union in Hx as [Hx|Hx]; [by eapply oldCtx_lt|by apply (wf_cancelled _ Hwf1)].
        -- rewrite elem_of_app. split.
           ++ intros [Hin|Hin]; [by apply Hne1 in Hin|]. by destruct (cfg_Enabled c); [|apply elem_of_nil in Hin].
           ++ intros ->. right. set_solver.
    + intros id Hid. rewrite fmap_app in Hid. rewrite lookup_insert_ne by set_solver. apply Ho. set_solver.
    + set_solver.
    + intros l t Ht. rewrite lookup_insert_ne; [by apply Hst|]. intros <-. apply Hst in Ht. congruence.
    + intros id l t Hid Hl Ht. rewrite fmap_app in Hid. apply elem_of_union.
      apply elem_of_app in Hid as [Hid|Hid]; [right; by eapply Hr|].
      apply list_elem_of_singleton in Hid as ->. left.
      eapply oldCtx_ctx; [|by apply Hst]. by rewrite Ho.
    + done.
    + intros l [Hl|Hl]%elem_of_app.
      * rewrite lookup_insert_ne by (apply not_eq_sym, Hne1, Hl). by apply Hfr.
      * destruct (cfg_Enabled c); [|by apply elem_of_nil in Hl].
        apply list_elem_of_singleton in Hl as [= ->]. rewrite lookup_insert_eq. by eexists.
Qed.

Lemma remove_each_spec ids m :
  let m' := foldl (λ m id, removeOne id m) m ids in
  store m' = store m ∧ enforceCert m' = enforceCert m ∧ cancelled m ⊆ cancelled m' ∧
  (∀ id, targets m' !! id = if decide (id ∈ ids) then None else targets m !! id) ∧
  (∀ id l t, id ∈ ids → targets m !! id = Some l → store m !! l = Some t → t_ctx t ∈ cancelled m').
Proof.
  cbv zeta. induction ids as [|i ids IH] using rev_ind.
  - simpl. split_and!; try done. intros id l t []%elem_of_nil.
  - rewrite foldl_snoc. destruct IH as (Hs & He & Hc & Ht & Hx). set (m1 := foldl _ m ids) in *.
    rewrite removeOne_eq. cbn [store enforceCert cancelled targets]. split_and!; [done|done|set_solver| |].
    + intros id. destruct (decide (id = i)) as [->|Hne].
      * rewrite lookup_delete_eq. by rewrite decide_True by set_solver.
      * rewrite lookup_delete_ne by done. rewrite Ht. destruct (decide (id ∈ ids)).
        -- by rewrite decide_True by set_solver.
        -- by rewrite decide_False by set_solver.
    + intros id l t Hid Hl Hst. apply elem_of_union. apply elem_of_app in Hid as [Hid|Hid]; [right; by eapply Hx|].
      apply list_elem_of_singleton in Hid as ->. destruct (decide (i ∈ ids)) as [Hi|Hi]; [right; by eapply Hx|left].
      apply (oldCtx_ctx m1 i l t); [|by rewrite Hs]. rewrite Ht. by rewrite decide_False by done.
Qed.

(** ** Theorems *)

(** C19: hysteresis of the status.  With thresholds of at least one, after any
    history of check results the target is healthy exactly when some run of
    consecutive passes reached the healthy threshold and no run of failures
    has reached the unhealthy one since, unhealthy in the mirrored case, and
    unknown otherwise; the two counters are the length of the current run. *)
Theorem threshold_hysteresis c x enf rs :
  1 <= cfg_HealthyThreshold c → 1 <= cfg_UnhealthyThreshold c →
  let t := afterChecks (newTarget c x enf) rs in
  (t_Status t = StatusHealthy ↔ decided true (cfg_HealthyThreshold c) (cfg_UnhealthyThreshold c) (results rs)) ∧
  (t_Status t = StatusUnhealthy ↔ decided false (cfg_UnhealthyThreshold c) (cfg_HealthyThreshold c) (results rs)) ∧
  consecutiveSuccesses t = trailingRun true (results rs) ∧
  consecutiveFailures t = trailingRun false (results rs) ∧
  t_CheckCount t = Z.of_nat (length rs).
Proof.
  intros Hh Hu. destruct (status_decided c x enf rs Hh Hu) as [H1 H2].
  destruct (afterChecks_counters c x enf rs) as (_ & _ & H3 & H4 & H5). by split_and!.
Qed.

Section theorems.
Context `{MapRange}.

(** The proof of [sync_exact], shared with the components that call it. *)
Lemma SyncTargets_spec desired m :
  monitor_wf m →
  let m' := (SyncTargets desired m).1 in
  let evs := (SyncTargets desired m).2 in
  monitor_wf m' ∧
  (∀ id, is_Some (targets m' !! id) ↔ is_Some (lastConfig desired id)) ∧
  (∀ id c, lastConfig desired id = Some c → created m' evs c) ∧
  (∀ id l t, targets m !! id = Some l → store m !! l = Some t → t_ctx t ∈ cancelled m').
Proof.
  intros Hwf. cbv zeta. unfold SyncTargets. fold (desiredMap desired).
  set (rm := filter _ _). destruct (remove_each_spec rm m) as (Hs1 & He1 & Hc1 & Ht1 & Hx1).
  pose proof (proj1 (remove_each_ok rm m Hwf)) as Hwf1. set (m1 := foldl _ m rm) in *. cbn [fst] in Hwf1.
  assert (∀ e, e ∈ range_map (desiredMap desired) → cfg_ID e.2 = e.1) as Hid.
  { intros [id c] Hin%range_map_elem. by apply (desiredMap_id desired). }
  rewrite sync_each_add by done.
  assert (cfg_ID <$> (range_map (desiredMap desired)).*2 = (range_map (desiredMap desired)).*1) as Hkeys.
  { rewrite <- list_fmap_compose. apply list_fmap_ext. intros i e Hi. apply Hid. by eapply list_elem_of_lookup_2. }
  assert (∀ id, id ∈ (range_map (desiredMap desired)).*1 ↔ is_Some (lastConfig desired id)) as Hdom.
  { intros id. rewrite <- desiredMap_last, list_elem_of_fmap. split.
    - intros ([k c] & -> & Hin%range_map_elem). by eexists.
    - intros [c Hc]. exists (id, c). split; [done|]. by apply range_map_elem. }
  destruct (each_add_spec (range_map (desiredMap desired)).*2 m1 Hwf1) as [Hwf2 Hcr Ho Hc2 Hst Hr _ _];
    [rewrite Hkeys; apply range_map_NoDup|].
  rewrite Hkeys in Ho, Hr. destruct (each addTargetUnsafe _ m1) as [m2 evs]. cbn [fst snd] in *.
  assert (∀ id c, lastConfig desired id = Some c → created m2 evs c ∧ cfg_ID c = id) as Hcreated.
  { intros id c Hc. rewrite <- desiredMap_last in Hc. split; [|by eapply desiredMap_id].
    apply Hcr, list_elem_of_fmap. exists (id, c). split; [done|]. by apply range_map_elem. }
  split_and!; [done| | |].
  - intros id. split.
    + intros [l Hl]. apply Hdom. destruct (decide (id ∈ (range_map (desiredMap desired)).*1)) as [?|Hni]; [done|].
      exfalso. rewrite Ho, Ht1 in Hl by done. destruct (decide (id ∈ rm)) as [?|Hrm]; [done|]. apply Hrm.
      unfold rm. apply list_elem_of_filter. split.
      * destruct (desiredMap desired !! id) as [c|] eqn:E; [|done]. exfalso. apply Hni, Hdom.
        rewrite desiredMap_last in E. by eexists.
      * apply list_elem_of_fmap. exists (id, l). split; [done|]. by apply range_map_elem.
    + intros [c Hc]. destruct (Hcreated id c Hc) as [(l & x & Hl & _) <-]. by eexists.
  - intros id c Hc. destruct (Hcreated id c Hc) as [(l & x & Hl & Hs & Hx & Hev) _]. exists l, x. split_and!; try done.
    rewrite elem_of_app, Hev. split; [intros [?|Hn]; [done|]|by left].
    exfalso. destruct (_ || _); [by apply notify_no_start in Hn|by apply elem_of_nil in Hn].
  - intros id l t Hl Ht. destruct (decide (id ∈ rm)) as [Hrm|Hrm].
    + apply Hc2. by eapply Hx1.
    + eapply (Hr id l t); [|by rewrite Ht1, decide_False|by rewrite Hs1].
      apply Hdom. rewrite <- desiredMap_last. destruct (desiredMap desired !! id) as [c|] eqn:E; [by eexists|].
      exfalso. apply Hrm. unfold rm. apply list_elem_of_filter. split; [done|].
      apply list_elem_of_fmap. exists (id, l). split; [done|]. by apply range_map_elem.
Qed.


(** No orphan monitors.  In every reachable configuration the monitor is
    well formed, and a goroutine that waits in its [select] for a target that
    was removed, replaced or disabled listens to a cancelled context, so it
    can stop at once; the goroutines of current enabled targets never listen
    to the context of another target. *)
Theorem no_orphan_monitors cb enf m gs evs l x i t :
  rtc hcStep (NewMonitor cb enf, [], []) (m, gs, evs) →
  (l, PSelect x i) ∈ gs → store m !! l = Some t →
  monitor_wf m ∧
  ((∀ id, targets m !! id ≠ Some l) ∨ cfg_Enabled (t_Config t) = false → x ∈ cancelled m) ∧
  (x ∉ cancelled m → x = t_ctx t ∧ ∃ id, targets m !! id = Some l ∧ cfg_ID (t_Config t) = id).
Proof.
  intros Hr Hg Ht. destruct (reachable_ok cb enf _ Hr) as [Hwf Hgs]. simpl in *.
  rewrite Forall_forall in Hgs. destruct (Hgs _ Hg) as (t' & Ht' & Hm & Hx). simpl in *. simplify_eq.
  split_and!; [done| |].
  - intros [Hd|Hd]; (destruct Hx as [->|Hx]; [|done]).
    + by eapply (wf_dead _ Hwf).
    + destruct Hm as [Hm|Hm]; [congruence|done].
  - intros Hnx. destruct Hx as [->|Hx]; [|done]. split; [done|].
    destruct (decide (targets m !! cfg_ID (t_Config t) = Some l)) as [Hl|Hl]; [by eexists|].
    exfalso. apply Hnx. eapply (wf_dead _ Hwf); [done|]. intros id Hid. apply Hl.
    destruct (wf_target _ Hwf _ _ Hid) as (t0 & Ht0 & <-). by simplify_eq.
Qed.

End theorems.

(** ** A run in which a target is disabled during its first check *)

Section in_flight.
Context `{MapRange} (c : Config) (enf : bool) (err : string).
Context (He : cfg_Enabled c = true) (Hth : cfg_UnhealthyThreshold c = 1).

(** The monitor with the one target [t]. *)
Definition soleMonitor (t : Target) (dead : gset ctx) (next : ctx) : Monitor :=
  mkMonitor {[0%nat := t]} {[cfg_ID c := 0%nat]} dead next true enf.

(** The target as added, as disabled, and as enabled again. *)
Definition asAdded : Target := newTarget (withDefaults c) 0%nat enf.
Definition asDisabled : Target := set_target (set_Enabled false (withDefaults c)) StatusUnknown 0%nat asAdded.
Definition asEnabled : Target := set_target (set_Enabled true (t_Config asDisabled)) StatusUnknown 1%nat asDisabled.

Lemma step_op m gs evs op m' e gs' :
  runOp op m = (m', e) → gs' = gs ++ started e → hcStep (m, gs, evs) (m', gs', evs ++ e).
Proof. intros Heq ->. pose proof (hc_op m gs evs op) as Hs. by rewrite Heq in Hs. Qed.

Lemma sole_lookup t dead next : store (soleMonitor t dead next) !! 0%nat = Some t.
Proof. apply lookup_singleton_eq. Qed.

Lemma run_until_disabled :
  rtc hcStep (NewMonitor true enf, [], [])
    (soleMonitor asDisabled {[0%nat]} 1%nat, [(0%nat, PChecking StatusUnknown true 0%nat)],
     [EvMonitorTarget 0%nat] ++ notify (soleMonitor asDisabled {[0%nat]} 1%nat)).
Proof.
  eapply rtc_l.
  { apply (step_op _ _ _ (OAdd c) (soleMonitor asAdded ∅ 1%nat) [EvMonitorTarget 0%nat] [(0%nat, PInit)]); [|done].
    cbn [runOp]. unfold AddTarget. rewrite add_eq, He. unfold soleMonitor, oldCtx. cbn. by rewrite !insert_empty. }
  eapply rtc_l; [apply (hc_first _ [] 0%nat [] _ asAdded), sole_lookup|].
  eapply rtc_once, (step_op _ _ _ (ODisable (cfg_ID c))); [|by unfold notify].
  cbn [runOp]. unfold DisableTarget. cbn. rewrite !lookup_singleton_eq. cbn. rewrite He. cbn.
  unfold cancel_ctx, set_store, notify. cbn. by rewrite !insert_singleton_eq, union_empty_r_L.
Qed.

(** A failed check of the only target. *)
Lemma step_fail t dead next old first x gs1 gs2 evs now :
  let t' := applyResult now false err t in
  hcStep (soleMonitor t dead next, gs1 ++ (0%nat, PChecking old first x) :: gs2, evs)
    (soleMonitor t' dead next, gs1 ++ (0%nat, PSelect (t_ctx t) (nextInterval t')) :: gs2,
     evs ++ (if negb (bool_decide (old = t_Status t')) || (first && bool_decide (old = StatusUnknown))
             then notify (soleMonitor t' dead next) else [])).
Proof.
  intros t'. eapply (hc_result _ gs1 0%nat old first x gs2 evs t now false err); [apply sole_lookup|].
  unfold checkDone. fold t'. unfold set_store. cbn. rewrite insert_singleton_eq. done.
Qed.

Lemma fails_at_once t :
  cfg_UnhealthyThreshold (t_Config t) = 1 → consecutiveFailures t = 0 →
  t_Status (applyResult 1 false err t) = StatusUnhealthy.
Proof. intros H1 H2. unfold applyResult. cbn. by rewrite H1, H2. Qed.

Lemma threshold_kept : cfg_UnhealthyThreshold (t_Config asDisabled) = 1 ∧ cfg_UnhealthyThreshold (t_Config asEnabled) = 1.
Proof. cbn. by rewrite Hth. Qed.

Lemma disabled_reported :
  ∃ m l t gs evs snap,
    rtc hcStep (NewMonitor true enf, [], []) (m, [(l, gs)], evs ++ [EvCallback snap]) ∧
    targets m !! cfg_ID c = Some l ∧ store m !! l = Some t ∧ snap !! cfg_ID c = Some t ∧
    cfg_Enabled (t_Config t) = false ∧ t_Status t = StatusUnhealthy.
Proof.
  pose proof (fails_at_once asDisabled (proj1 threshold_kept) eq_refl) as Hst.
  do 4 eexists. exists ([EvMonitorTarget 0%nat] ++ notify (soleMonitor asDisabled {[0%nat]} 1%nat)). eexists. split_and!.
  - eapply rtc_r; [exact run_until_disabled|].
    pose proof (step_fail asDisabled {[0%nat]} 1%nat StatusUnknown true 0%nat [] []
                  ([EvMonitorTarget 0%nat] ++ notify (soleMonitor asDisabled {[0%nat]} 1%nat)) 1) as Hs.
    cbv zeta in Hs. rewrite Hst in Hs. exact Hs.
  - apply lookup_singleton_eq.
  - apply lookup_singleton_eq.
  - unfold getAllTargets. cbn. rewrite lookup_omap, lookup_singleton_eq. cbn. by rewrite lookup_singleton_eq.
  - done.
  - exact Hst.
Qed.

Lemma two_monitors :
  ∃ m l x i j evs,
    rtc hcStep (NewMonitor true enf, [], []) (m, [(l, PSelect x i); (l, PSelect x j)], evs) ∧ ¬ (x ∈ cancelled m).
Proof.
  pose (ta := applyResult 1 false err asEnabled).
  do 6 eexists. split.
  - etrans; [exact run_until_disabled|].
    eapply rtc_l.
    { apply (step_op _ _ _ (OEnable (cfg_ID c)) (soleMonitor asEnabled {[0%nat]} 2%nat) [EvMonitorTarget 0%nat]
               [(0%nat, PChecking StatusUnknown true 0%nat); (0%nat, PInit)]); [|done].
      cbn [runOp]. unfold EnableTarget. cbn. rewrite !lookup_singleton_eq. cbn.
      unfold soleMonitor. rewrite insert_singleton_eq. do 2 f_equal. }
    eapply rtc_l; [apply (step_fail asEnabled _ _ _ _ _ [] [(0%nat, PInit)] _ 1)|].
    eapply rtc_l; [apply (hc_first _ [(0%nat, PSelect 1%nat (nextInterval ta))] 0%nat [] _ ta), sole_lookup|].
    apply rtc_once, (step_fail ta _ _ _ _ _ [(0%nat, PSelect 1%nat (nextInterval ta))] [] _ 2).
  - cbn. set_solver.
Qed.

End in_flight.

(** Disabling a target while a check is in flight does not stick.  The
    cancelled check counts as a failure, so with an unhealthy threshold of one
    the disabled target becomes unhealthy and that is reported; and enabling
    it again leaves two goroutines checking it, neither of which will stop,
    because the first one re-reads the target's new context. *)
Theorem disable_in_flight `{MapRange} (c : Config) (enf : bool) :
  cfg_Enabled c = true → cfg_UnhealthyThreshold c = 1 →
  (∃ m l t gs evs snap,
     rtc hcStep (NewMonitor true enf, [], []) (m, [(l, gs)], evs ++ [EvCallback snap]) ∧
     targets m !! cfg_ID c = Some l ∧ store m !! l = Some t ∧ snap !! cfg_ID c = Some t ∧
     cfg_Enabled (t_Config t) = false ∧ t_Status t = StatusUnhealthy) ∧
  (∃ m l x i j evs,
     rtc hcStep (NewMonitor true enf, [], []) (m, [(l, PSelect x i); (l, PSelect x j)], evs) ∧ ¬ (x ∈ cancelled m)).
Proof.
  intros He Hth. split; [by apply (disabled_reported c enf "context canceled")|].
  by apply (two_monitors c enf "context canceled").
Qed.

(** ** Examples and witnesses *)

Module HealthCheckExamples.

#[local] Existing Instance canonical_range.

Definition cfg (id : Z) (enabled : bool) : Config :=
  mkConfig id enabled "status" "https" "" "fd00::1" 8443 0 5 0 None ∅ "" 204 "app.example.com" 2 1.

Example url_example : checkURL (withDefaults (cfg 1 true)) = "https://[fd00::1]:8443/status"%string.
Proof. by vm_compute. Qed.

Example verdict_examples :
  runCheck (withDefaults (cfg 1 true)) (mkWorld None (Responded 204)) = (true, ""%string) ∧
  runCheck (withDefaults (cfg 1 true)) (mkWorld None (Responded 200)) =
    (false, "unexpected status code: 200 (expected: 204)"%string) ∧
  isHostKey "hOST" = true ∧ isHostKey "Hosts" = false.
Proof. by vm_compute. Qed.

Definition history : list (Z * bool * string) :=
  [(1, true, ""); (2, true, ""); (3, true, ""); (4, false, "timeout"); (5, true, "")]%string.

Example history_status : t_Status (afterChecks (newTarget (withDefaults (cfg 1 true)) 0%nat true) history) = StatusUnhealthy.
Proof. by vm_compute. Qed.

Lemma threshold_hysteresis_witness :
  let t := afterChecks (newTarget (withDefaults (cfg 1 true)) 0%nat true) history in
  (t_Status t = StatusHealthy ↔ decided true 2 1 (results history)) ∧
  (t_Status t = StatusUnhealthy ↔ decided false 1 2 (results history)) ∧
  consecutiveSuccesses t = trailingRun true (results history) ∧
  consecutiveFailures t = trailingRun false (results history) ∧
  t_CheckCount t = Z.of_nat (length history).
Proof. apply (threshold_hysteresis (withDefaults (cfg 1 true)) 0%nat true history); vm_compute; discriminate. Defined.


(** A target added, checked once, and removed while its goroutine waits. *)
Definition checked : Target := applyResult 1 true "" (asAdded (cfg 1 true) false).

Lemma removed_run :
  rtc hcStep (NewMonitor true false, [], [])
    ((runOp (ORemove 1) (soleMonitor (cfg 1 true) false checked ∅ 1%nat)).1,
     [(0%nat, PSelect 0%nat (nextInterval checked))],
     ([EvMonitorTarget 0%nat] ++ [EvCallback (getAllTargets (soleMonitor (cfg 1 true) false checked ∅ 1%nat))]) ++
     (runOp (ORemove 1) (soleMonitor (cfg 1 true) false checked ∅ 1%nat)).2).
Proof.
  eapply rtc_l.
  { apply (step_op _ _ _ (OAdd (cfg 1 true)) (soleMonitor (cfg 1 true) false (asAdded (cfg 1 true) false) ∅ 1%nat)
             [EvMonitorTarget 0%nat] [(0%nat, PInit)]); done. }
  eapply rtc_l; [apply (hc_first _ [] 0%nat [] _ (asAdded (cfg 1 true) false)), sole_lookup|].
  eapply rtc_l.
  { apply (hc_result _ [] 0%nat StatusUnknown true 0%nat [] _ (asAdded (cfg 1 true) false) 1 true ""
             (soleMonitor (cfg 1 true) false checked ∅ 1%nat)
             [EvCallback (getAllTargets (soleMonitor (cfg 1 true) false checked ∅ 1%nat))]
             (PSelect 0%nat (nextInterval checked))); [apply sole_lookup|].
    unfold checkDone, set_store. cbn [soleMonitor store targets]. by rewrite insert_singleton_eq. }
  apply rtc_once. eapply (step_op _ _ _ (ORemove 1)); [apply surjective_pairing|done].
Qed.

Lemma no_orphan_monitors_witness :
  0%nat ∈ cancelled (runOp (ORemove 1) (soleMonitor (cfg 1 true) false checked ∅ 1%nat)).1.
Proof.
  refine (proj1 (proj2 (no_orphan_monitors true false _ _ _ 0%nat 0%nat (nextInterval checked) checked removed_run _ _)) _).
  - apply list_elem_of_here.
  - reflexivity.
  - left. intros id. cbn. destruct (decide (id = 1)) as [->|Hne]; vm_compute; [done|].
    by destruct id as [|[]|].
Defined.

Lemma disable_in_flight_witness :
  (∃ m l t gs evs snap,
     rtc hcStep (NewMonitor true false, [], []) (m, [(l, gs)], evs ++ [EvCallback snap]) ∧
     targets m !! 1 = Some l ∧ store m !! l = Some t ∧ snap !! 1 = Some t ∧
     cfg_Enabled (t_Config t) = false ∧ t_Status t = StatusUnhealthy) ∧
  (∃ m l x i j evs,
     rtc hcStep (NewMonitor true false, [], []) (m, [(l, PSelect x i); (l, PSelect x j)], evs) ∧ ¬ (x ∈ cancelled m)).
Proof. apply (disable_in_flight (cfg 1 true) false); reflexivity. Defined.

End HealthCheckExamples.
