(* ===== verification/ProxyManager.v ===== *)
(** * The proxy manager ([proxy/manager.go], [internal/state/telemetry_view.go])

    [ProxyManager] keeps, per protocol, a map from listen address and port to
    the target address, opens a listener per target while it is running, and
    copies connections and datagrams to the targets while counting bytes and
    connections per tunnel.

    Per-tunnel entries are shared: a connection keeps a pointer to the entry
    it started with, also after the tunnel id was cleared.  They live in a
    store [entries]; [tunnels] maps ids to locations and is [None] where the
    code leaves the Go map nil.  Counters keep their machine width.  Opening a
    listener, dialing and writing are arguments. *)

From S2P Require Import Prelude Netip NetipText HostPort.

Inductive proto : Type := TCP | UDP.
#[global] Instance proto_eq_dec : EqDecision proto.
Proof. solve_decision. Defined.

(** ** Sessions per tunnel ([TelemetryView]) *)

Notation sessionCounts := (gmap string Z).

Definition IncSessions (id : string) (s : sessionCounts) : sessionCounts :=
  <[id := swrap64 (default 0 (s !! id) + 1)]> s.

Definition DecSessions (id : string) (s : sessionCounts) : sessionCounts :=
  match s !! id with
  | Some c => if swrap64 (c - 1) <=? 0 then delete id s else <[id := swrap64 (c - 1)]> s
  | None => s
  end.

Definition ClearTunnel (id : string) (s : sessionCounts) : sessionCounts := delete id s.

Definition ActiveSessions (s : sessionCounts) : Z := map_fold (λ _ c acc, swrap64 (acc + c)) 0 s.

Definition SessionsByTunnel (s : sessionCounts) : sessionCounts := filter (λ e, 0 < e.2) s.

(** ** State of the manager *)

(** [te_attr] is the tunnel id the entry's attribute sets were built for. *)
Record tunnelEntry : Type := mkEntry {
  te_attr : option string;
  bytesInTCP : Z; bytesOutTCP : Z; bytesInUDP : Z; bytesOutUDP : Z;
  activeTCP : Z; activeUDP : Z }.

Definition emptyEntry : tunnelEntry := mkEntry None 0 0 0 0 0 0.

Record mlistener : Type := mkListener { ml_id : nat; ml_port : Z; ml_target : string }.

Notation targetMap := (gmap string (gmap Z string)).

Record ProxyManager : Type := mkPM {
  pm_tnet : bool;
  nativeListenIP : string;
  tcpTargets : targetMap;
  udpTargets : targetMap;
  listeners : list mlistener;
  udpConns : list mlistener;
  nextListener : nat;
  running : bool;
  currentTunnelID : string;
  tunnels : option (gmap string nat);
  entries : gmap nat tunnelEntry;
  asyncBytes : bool;
  flushing : bool;
  udpIdleTimeout : Z;
  blocked : bool }.

Definition defaultUDPIdleTimeout : Z := 90 * Second.

Definition NewProxyManager : ProxyManager :=
  mkPM true "" ∅ ∅ [] [] 0 false "" (Some ∅) ∅ false false defaultUDPIdleTimeout false.
Definition NewProxyManagerNative (listenIP : string) : ProxyManager :=
  mkPM false listenIP ∅ ∅ [] [] 0 false "" (Some ∅) ∅ false false defaultUDPIdleTimeout false.
Definition NewProxyManagerWithoutTNet : ProxyManager :=
  mkPM false "" ∅ ∅ [] [] 0 false "" None ∅ false false defaultUDPIdleTimeout false.

Definition set_targets (t u : targetMap) (p : ProxyManager) : ProxyManager :=
  mkPM (pm_tnet p) (nativeListenIP p) t u (listeners p) (udpConns p) (nextListener p) (running p) (currentTunnelID p)
    (tunnels p) (entries p) (asyncBytes p) (flushing p) (udpIdleTimeout p) (blocked p).
Definition set_listeners (l u : list mlistener) (n : nat) (r : bool) (p : ProxyManager) : ProxyManager :=
  mkPM (pm_tnet p) (nativeListenIP p) (tcpTargets p) (udpTargets p) l u n r (currentTunnelID p)
    (tunnels p) (entries p) (asyncBytes p) (flushing p) (udpIdleTimeout p) (blocked p).
Definition set_tunnels (id : string) (t : option (gmap string nat)) (e : gmap nat tunnelEntry) (p : ProxyManager) : ProxyManager :=
  mkPM (pm_tnet p) (nativeListenIP p) (tcpTargets p) (udpTargets p) (listeners p) (udpConns p) (nextListener p) (running p)
    id t e (asyncBytes p) (flushing p) (udpIdleTimeout p) (blocked p).
Definition set_flags (tn a f : bool) (d : Z) (b : bool) (p : ProxyManager) : ProxyManager :=
  mkPM tn (nativeListenIP p) (tcpTargets p) (udpTargets p) (listeners p) (udpConns p) (nextListener p) (running p)
    (currentTunnelID p) (tunnels p) (entries p) a f d b.
Definition set_entries (e : gmap nat tunnelEntry) (p : ProxyManager) : ProxyManager :=
  set_tunnels (currentTunnelID p) (tunnels p) e p.

Definition SetTNet (p : ProxyManager) : ProxyManager :=
  set_flags true (asyncBytes p) (flushing p) (udpIdleTimeout p) (blocked p) p.
Definition pm_SetBlocked (v : bool) (p : ProxyManager) : ProxyManager :=
  set_flags (pm_tnet p) (asyncBytes p) (flushing p) (udpIdleTimeout p) v p.
Definition SetAsyncBytes (v : bool) (p : ProxyManager) : ProxyManager :=
  set_flags (pm_tnet p) v (flushing p || v) (udpIdleTimeout p) (blocked p) p.
Definition SetUDPIdleTimeout (d : Z) (p : ProxyManager) : ProxyManager :=
  set_flags (pm_tnet p) (asyncBytes p) (flushing p) (if d <=? 0 then defaultUDPIdleTimeout else d) (blocked p) p.

(** ** Targets and listeners *)

Inductive pmErr : Type := PmOk | PmUnsupported | PmNotFound | PmListenFailed | PmNoNetwork.

Definition addEntry (ip : string) (port : Z) (target : string) (m : targetMap) : targetMap :=
  <[ip := <[port := target]> (default ∅ (m !! ip))]> m.

(** Whether a listener for the protocol and port can be opened. *)
Definition listenFn : Type := proto → Z → bool.

Definition startTarget (listenOK : listenFn) (pr : string) (port : Z) (target : string) (p : ProxyManager)
    : ProxyManager * pmErr :=
  let noNetwork := negb (pm_tnet p) && bool_decide (nativeListenIP p = "") in
  if bool_decide (pr = "tcp") then
    if noNetwork then (p, PmNoNetwork)
    else if listenOK TCP port
    then (set_listeners (listeners p ++ [mkListener (nextListener p) port target]) (udpConns p) (S (nextListener p)) (running p) p, PmOk)
    else (p, PmListenFailed)
  else if bool_decide (pr = "udp") then
    if noNetwork then (p, PmNoNetwork)
    else if listenOK UDP port
    then (set_listeners (listeners p) (udpConns p ++ [mkListener (nextListener p) port target]) (S (nextListener p)) (running p) p, PmOk)
    else (p, PmListenFailed)
  else (p, PmUnsupported).

Definition pm_AddTarget (listenOK : listenFn) (pr ip : string) (port : Z) (target : string) (p : ProxyManager)
    : ProxyManager * pmErr :=
  let added :=
    if bool_decide (pr = "tcp") then Some (set_targets (addEntry ip port target (tcpTargets p)) (udpTargets p) p)
    else if bool_decide (pr = "udp") then Some (set_targets (tcpTargets p) (addEntry ip port target (udpTargets p)) p)
    else None in
  match added with
  | None => (p, PmUnsupported)
  | Some p' => if running p' then startTarget listenOK pr port target p' else (p', PmOk)
  end.

(** Closing and removing the first listener on a port: what is left and the
    listener closed, if any. *)
Fixpoint closeFirst (port : Z) (ls : list mlistener) : list mlistener * option mlistener :=
  match ls with
  | [] => ([], None)
  | l :: ls' => if ml_port l =? port then (ls', Some l)
                else let '(r, c) := closeFirst port ls' in (l :: r, c)
  end.

Definition pm_RemoveTarget (pr ip : string) (port : Z) (p : ProxyManager) : ProxyManager * list mlistener * pmErr :=
  if bool_decide (pr = "tcp") then
    match tcpTargets p !! ip with
    | Some ts =>
        let '(ls, c) := closeFirst port (listeners p) in
        (set_listeners ls (udpConns p) (nextListener p) (running p)
           (set_targets (<[ip := delete port ts]> (tcpTargets p)) (udpTargets p) p), option_list c, PmOk)
    | None => (p, [], PmNotFound)
    end
  else if bool_decide (pr = "udp") then
    match udpTargets p !! ip with
    | Some ts =>
        let '(us, c) := closeFirst port (udpConns p) in
        (set_listeners (listeners p) us (nextListener p) (running p)
           (set_targets (tcpTargets p) (<[ip := delete port ts]> (udpTargets p)) p), option_list c, PmOk)
    | None => (p, [], PmNotFound)
    end
  else (p, [], PmUnsupported).

Section range.
Context `{MapRange}.

(** The targets of a protocol in iteration order. *)
Definition rangeTargets (m : targetMap) : list (Z * string) :=
  concat ((λ e, range_map e.2) <$> range_map m).

Fixpoint startAll (listenOK : listenFn) (pr : string) (ts : list (Z * string)) (p : ProxyManager) : ProxyManager * pmErr :=
  match ts with
  | [] => (p, PmOk)
  | (port, target) :: ts' =>
      match startTarget listenOK pr port target p with
      | (p', PmOk) => startAll listenOK pr ts' p'
      | (p', e) => (p', e)
      end
  end.

Definition Start (listenOK : listenFn) (p : ProxyManager) : ProxyManager * pmErr :=
  if running p then (p, PmOk)
  else
    match startAll listenOK "tcp" (rangeTargets (tcpTargets p)) p with
    | (p1, PmOk) =>
        match startAll listenOK "udp" (rangeTargets (udpTargets p1)) p1 with
        | (p2, PmOk) => (set_listeners (listeners p2) (udpConns p2) (nextListener p2) true p2, PmOk)
        | (p2, e) => (p2, e)
        end
    | (p1, e) => (p1, e)
    end.

End range.

(** The listeners closed, last first, as the loop runs. *)
Definition pm_Stop (p : ProxyManager) : ProxyManager * list mlistener :=
  if negb (running p) then (p, [])
  else (set_listeners [] [] (nextListener p) false p, rev (listeners p) ++ rev (udpConns p)).

(** [GetTargets] copies both maps. *)
Definition pm_GetTargets (p : ProxyManager) : targetMap * targetMap := (tcpTargets p, udpTargets p).

(** What the accept loop does when [Accept] fails. *)
Definition acceptErrorStops (closedFlag isRunning isErrClosed : bool) : bool :=
  if closedFlag then true else if negb isRunning then true else isErrClosed.

(** ** Counting bytes *)

Inductive direction : Type := In | Out.

(** A byte count handed to the metrics library, with the labels' tunnel. *)
Record byteSample : Type := mkSample { bs_attr : option string; bs_proto : proto; bs_dir : direction; bs_n : Z }.

Definition counter (pr : proto) (d : direction) (e : tunnelEntry) : Z :=
  match pr, d with
  | TCP, In => bytesInTCP e | TCP, Out => bytesOutTCP e | UDP, In => bytesInUDP e | UDP, Out => bytesOutUDP e
  end.

Definition set_counter (pr : proto) (d : direction) (v : Z) (e : tunnelEntry) : tunnelEntry :=
  match pr, d with
  | TCP, In => mkEntry (te_attr e) v (bytesOutTCP e) (bytesInUDP e) (bytesOutUDP e) (activeTCP e) (activeUDP e)
  | TCP, Out => mkEntry (te_attr e) (bytesInTCP e) v (bytesInUDP e) (bytesOutUDP e) (activeTCP e) (activeUDP e)
  | UDP, In => mkEntry (te_attr e) (bytesInTCP e) (bytesOutTCP e) v (bytesOutUDP e) (activeTCP e) (activeUDP e)
  | UDP, Out => mkEntry (te_attr e) (bytesInTCP e) (bytesOutTCP e) (bytesInUDP e) v (activeTCP e) (activeUDP e)
  end.

Definition addBytes (pr : proto) (d : direction) (n : Z) (e : tunnelEntry) : tunnelEntry :=
  set_counter pr d (wrap64 (counter pr d e + n)) e.

Definition set_attr (id : string) (e : tunnelEntry) : tunnelEntry :=
  mkEntry (Some id) (bytesInTCP e) (bytesOutTCP e) (bytesInUDP e) (bytesOutUDP e) (activeTCP e) (activeUDP e).

Definition addActive (pr : proto) (n : Z) (e : tunnelEntry) : tunnelEntry :=
  match pr with
  | TCP => mkEntry (te_attr e) (bytesInTCP e) (bytesOutTCP e) (bytesInUDP e) (bytesOutUDP e) (swrap64 (activeTCP e + n)) (activeUDP e)
  | UDP => mkEntry (te_attr e) (bytesInTCP e) (bytesOutTCP e) (bytesInUDP e) (bytesOutUDP e) (activeTCP e) (swrap64 (activeUDP e + n))
  end.

(** [pm.tunnels[id]]; reading a nil map finds nothing. *)
Definition entryLoc (id : string) (p : ProxyManager) : option nat := t ← tunnels p; t !! id.

Definition onEntry (l : nat) (f : tunnelEntry → tunnelEntry) (p : ProxyManager) : ProxyManager :=
  set_entries (alter f l (entries p)) p.

(** [getEntry(id)] followed by an update of the entry found. *)
Definition onTunnel (id : string) (f : tunnelEntry → tunnelEntry) (p : ProxyManager) : ProxyManager :=
  match entryLoc id p with Some l => onEntry l f p | None => p end.

(** Writing to a nil map panics. *)
Definition SetTunnelID (id : string) (p : ProxyManager) : go ProxyManager :=
  match tunnels p with
  | None => Panic
  | Some t =>
      match t !! id with
      | Some l => Ret (set_tunnels id (Some t) (alter (set_attr id) l (entries p)) p)
      | None =>
          let l := fresh (dom (entries p)) in
          Ret (set_tunnels id (Some (<[id := l]> t)) (<[l := set_attr id emptyEntry]> (entries p)) p)
      end
  end.

Definition allCounters : list (proto * direction) := [(TCP, In); (TCP, Out); (UDP, In); (UDP, Out)].

(** The samples a flush of one entry produces: [int64(counter)] of each
    counter that is not zero. *)
Definition flushSamples (e : tunnelEntry) : list byteSample :=
  omap (λ '(pr, d), if 0 <? counter pr d e then Some (mkSample (te_attr e) pr d (swrap64 (counter pr d e))) else None)
    allCounters.

Definition resetCounters (e : tunnelEntry) : tunnelEntry := mkEntry (te_attr e) 0 0 0 0 (activeTCP e) (activeUDP e).

Definition ClearTunnelID (p : ProxyManager) : ProxyManager * list byteSample :=
  if bool_decide (currentTunnelID p = "") then (p, [])
  else
    match entryLoc (currentTunnelID p) p with
    | Some l =>
        match entries p !! l with
        | Some e => (set_tunnels "" (delete (currentTunnelID p) <$> tunnels p) (<[l := resetCounters e]> (entries p)) p, flushSamples e)
        | None => (set_tunnels "" (delete (currentTunnelID p) <$> tunnels p) (entries p) p, [])
        end
    | None => (set_tunnels "" (tunnels p) (entries p) p, [])
    end.

(** One tick of [flushLoop]: every entry of the map. *)
Definition flushOne (st : ProxyManager * list byteSample) (l : nat) : ProxyManager * list byteSample :=
  match entries st.1 !! l with
  | Some e => (set_entries (<[l := resetCounters e]> (entries st.1)) st.1, st.2 ++ flushSamples e)
  | None => st
  end.

Definition flushTunnels `{MapRange} (p : ProxyManager) : ProxyManager * list byteSample :=
  match tunnels p with
  | Some t => foldl flushOne (p, []) (range_map t).*2
  | None => (p, [])
  end.

(** [countingWriter.Write] once the underlying write accepted [n] bytes. *)
Definition countWrite (l : nat) (pr : proto) (d : direction) (n : Z) (p : ProxyManager) : ProxyManager * list byteSample :=
  if 0 <? n then
    if asyncBytes p then (onEntry l (addBytes pr d n) p, [])
    else (p, [mkSample (entries p !! l ≫= te_attr) pr d n])
  else (p, []).

(** ** TCP connections ([handleTCPProxy]) *)

(** After a successful [Accept]: the tunnel id the connection is charged to,
    or [None] when it is dropped because the manager is blocked. *)
Definition tcpAccept (p : ProxyManager) (s : sessionCounts) : ProxyManager * sessionCounts * option string :=
  let id := currentTunnelID p in
  if blocked p then (p, s, None)
  else if bool_decide (id = "") then (p, s, Some id)
  else (onTunnel id (addActive TCP 1) p, IncSessions id s, Some id).

(** The goroutine when dialing the target fails: it only closes the accepted
    connection and reports. *)
Definition tcpDialFailed (id : string) (p : ProxyManager) (s : sessionCounts) : ProxyManager * sessionCounts := (p, s).

(** The entry the copying is counted on: the tunnel's, or one of its own. *)
Definition tcpEntry (id : string) (p : ProxyManager) : ProxyManager * nat :=
  match entryLoc id p with
  | Some l => (p, l)
  | None => let l := fresh (dom (entries p)) in (set_entries (<[l := emptyEntry]> (entries p)) p, l)
  end.

(** Both directions are done. *)
Definition tcpFinish (id : string) (p : ProxyManager) (s : sessionCounts) : ProxyManager * sessionCounts :=
  if bool_decide (id = "") then (p, s) else (onTunnel id (addActive TCP (-1)) p, DecSessions id s).

(** ** UDP flows ([handleUDPProxy]) *)

(** [clientConns], [None] after [closeAllClients]; sockets are numbered. *)
Notation clientMap := (option (gmap string nat)).

(** The byte accounting both directions use for a datagram of [n] bytes. *)
Definition countUDP (d : direction) (n : Z) (p : ProxyManager) : ProxyManager * list byteSample :=
  let id := currentTunnelID p in
  if bool_decide (id = "") || negb (0 <? n) then (p, [])
  else if asyncBytes p then (onTunnel id (addBytes UDP d n) p, [])
  else match entryLoc id p with
       | Some l => (p, [mkSample (entries p !! l ≫= te_attr) UDP d n])
       | None => (p, [])
       end.

(** What the network answers while a datagram is handled: resolving and
    dialing for a new client, and the write (bytes written or failure). *)
Record udpWorld : Type := mkUdpWorld { uw_resolve : bool; uw_dial : option nat; uw_write : option Z }.

(** Handling of one datagram of [n] bytes from [clientKey]: the socket a new
    goroutine was started for, if any. *)
Definition udpDatagram (clientKey : string) (n : Z) (w : udpWorld) (cs : gmap string nat) (p : ProxyManager)
    : ProxyManager * gmap string nat * list byteSample * option nat :=
  if blocked p then (p, cs, [], None)
  else
    let '(p1, e1) := countUDP In n p in
    let opened :=
      match cs !! clientKey with
      | Some c => Some (c, p1, cs, None)
      | None =>
          if negb (uw_resolve w) then None
          else match uw_dial w with
               | None => None
               | Some c => Some (c, onTunnel (currentTunnelID p1) (addActive UDP 1) p1, <[clientKey := c]> cs, Some c)
               end
      end in
    match opened with
    | None => (p1, cs, e1, None)
    | Some (c, p2, cs2, started) =>
        match uw_write w with
        | None => (p2, delete clientKey cs2, e1, started)
        | Some written =>
            let '(p3, e2) := countUDP In written p2 in (p3, cs2, e1 ++ e2, started)
        end
    end.

(** A datagram from the target back to the client. *)
Definition udpReply (n : Z) (p : ProxyManager) : ProxyManager * list byteSample := countUDP Out n p.

(** The deferred clean-up of the goroutine of socket [c]. *)
Definition udpExit (clientKey : string) (c : nat) (id : string) (cs : clientMap) (p : ProxyManager)
    : ProxyManager * clientMap :=
  match cs ≫= (.!! clientKey) with
  | Some c' => if Nat.eqb c' c then (onTunnel id (addActive UDP (-1)) p, delete clientKey <$> cs) else (p, cs)
  | None => (p, cs)
  end.

Definition closeAllClients (cs : clientMap) : clientMap := None.

(** ** Lemmas on targets and listeners *)

Definition lookupTarget (m : targetMap) (ip : string) (port : Z) : option string := m !! ip ≫= (.!! port).

Lemma lookup_addEntry m ip port t ip' port' :
  lookupTarget (addEntry ip port t m) ip' port' =
  if decide (ip' = ip ∧ port' = port) then Some t else lookupTarget m ip' port'.
Proof.
  unfold lookupTarget, addEntry. destruct (decide (ip' = ip)) as [->|Hne].
  - rewrite lookup_insert_eq. simpl. destruct (decide (port' = port)) as [->|Hp].
    + rewrite lookup_insert_eq, decide_True by done. done.
    + rewrite lookup_insert_ne, decide_False by naive_solver. destruct (m !! ip); simpl; [done|apply lookup_empty].
  - rewrite lookup_insert_ne, decide_False by naive_solver. done.
Qed.

Lemma lookup_removeEntry m ip port ts ip' port' :
  m !! ip = Some ts →
  lookupTarget (<[ip := delete port ts]> m) ip' port' =
  if decide (ip' = ip ∧ port' = port) then None else lookupTarget m ip' port'.
Proof.
  intros Hts. unfold lookupTarget. destruct (decide (ip' = ip)) as [->|Hne].
  - rewrite lookup_insert_eq, Hts. simpl. destruct (decide (port' = port)) as [->|Hp].
    + rewrite lookup_delete_eq, decide_True by done. done.
    + rewrite lookup_delete_ne, decide_False by naive_solver. done.
  - rewrite lookup_insert_ne, decide_False by naive_solver. done.
Qed.

(** The listeners on a port and those on the other ports. *)
Definition onPort (port : Z) (ls : list mlistener) : list mlistener := filter (λ l, ml_port l = port) ls.
Definition offPort (port : Z) (ls : list mlistener) : list mlistener := filter (λ l, ml_port l ≠ port) ls.

Lemma closeFirst_spec port ls :
  NoDup (ml_port <$> ls) →
  (closeFirst port ls).1 = offPort port ls ∧ option_list (closeFirst port ls).2 = onPort port ls.
Proof.
  induction ls as [|l ls IH]; intros Hnd; [done|]. simpl in Hnd. apply NoDup_cons in Hnd as [Hl Hnd].
  unfold offPort, onPort. simpl closeFirst. destruct (Z.eqb_spec (ml_port l) port) as [<-|Hne].
  - rewrite filter_cons_False by tauto. rewrite filter_cons_True by done.
    assert (∀ x, x ∈ ls → ml_port x ≠ ml_port l) as Hne.
    { intros x Hx Heq. apply Hl. rewrite <- Heq. by apply list_elem_of_fmap_2. }
    rewrite (list_filter_all (λ x, ml_port x ≠ ml_port l)) by done.
    rewrite (list_filter_none (λ x, ml_port x = ml_port l)) by done. done.
  - rewrite filter_cons_True by done. rewrite filter_cons_False by done.
    destruct (IH Hnd) as [H1 H2]. destruct (closeFirst port ls) as [r c]. simpl in *. by rewrite H1, H2.
Qed.

Lemma offPort_onPort port ls : onPort port (offPort port ls) = [].
Proof.
  unfold onPort, offPort. rewrite list_filter_filter. apply list_filter_none. intros x _ [? ?]. done.
Qed.

Lemma offPort_idemp port ls : offPort port (offPort port ls) = offPort port ls.
Proof. unfold offPort. rewrite list_filter_filter. apply list_filter_iff. tauto. Qed.

Lemma offPort_NoDup port ls : NoDup (ml_port <$> ls) → NoDup (ml_port <$> offPort port ls).
Proof. intros H. eapply sublist_NoDup; [done|]. apply fmap_sublist, sublist_filter. Qed.

(** The network is configured. *)
Definition hasNetwork (p : ProxyManager) : bool := pm_tnet p || negb (bool_decide (nativeListenIP p = "")).

Lemma startTarget_tcp listenOK port target p :
  hasNetwork p = true → listenOK TCP port = true →
  startTarget listenOK "tcp" port target p =
  (set_listeners (listeners p ++ [mkListener (nextListener p) port target]) (udpConns p) (S (nextListener p)) (running p) p, PmOk).
Proof.
  unfold startTarget, hasNetwork. intros Hn ->. rewrite bool_decide_true by done.
  destruct (pm_tnet p); [done|]. simpl in *. by destruct (bool_decide (nativeListenIP p = "")).
Qed.

(** ** Lemmas on byte counts *)

Definition entryTotal (e : tunnelEntry) : Z := bytesInTCP e + bytesOutTCP e + bytesInUDP e + bytesOutUDP e.
Definition storeTotal (m : gmap nat tunnelEntry) : Z := zsum (λ x, entryTotal x.2) (map_to_list m).

(** Counters are [uint64] values. *)
Definition entry_ok (e : tunnelEntry) : Prop := ∀ pr d, 0 <= counter pr d e < 2 ^ 64.
Definition store_ok (m : gmap nat tunnelEntry) : Prop := ∀ l e, m !! l = Some e → entry_ok e.

Lemma storeTotal_insert m l e e' :
  m !! l = Some e → storeTotal (<[l := e']> m) = storeTotal m - entryTotal e + entryTotal e'.
Proof.
  intros Hl. unfold storeTotal.
  rewrite <- insert_delete_eq, map_to_list_insert by apply lookup_delete_eq.
  rewrite <- (map_to_list_delete m l e Hl), !zsum_cons. simpl. lia.
Qed.

Lemma storeTotal_fresh m l e : m !! l = None → storeTotal (<[l := e]> m) = storeTotal m + entryTotal e.
Proof. intros Hl. unfold storeTotal. rewrite map_to_list_insert by done. autorewrite with newt. simpl. lia. Qed.

Lemma flushSamples_total e :
  entry_ok e → zsum bs_n (flushSamples e) mod 2 ^ 64 = entryTotal e mod 2 ^ 64.
Proof.
  intros He. unfold flushSamples, entryTotal.
  set (f := λ '(pr, d), if 0 <? counter pr d e then Some (mkSample (te_attr e) pr d (swrap64 (counter pr d e))) else None).
  assert (∀ l, zsum bs_n (omap f l) mod 2 ^ 64 = zsum (λ x, counter x.1 x.2 e) l mod 2 ^ 64) as Hsum.
  { induction l as [|[pr d] l IH]; [done|]. rewrite zsum_cons. cbn [omap list_omap]. unfold f at 1. cbn [fst snd].
    destruct (Z.ltb_spec 0 (counter pr d e)) as [Hlt|Hge].
    - rewrite zsum_cons. cbn [bs_n]. by rewrite Zplus_mod, swrap64_mod, IH, <- Zplus_mod.
    - pose proof (He pr d). replace (counter pr d e) with 0 by lia. exact IH. }
  rewrite Hsum. f_equal. cbn. lia.
Qed.

Lemma resetCounters_total e : entryTotal (resetCounters e) = 0.
Proof. done. Qed.

Lemma resetCounters_ok e : entry_ok (resetCounters e).
Proof. intros [] []; simpl; lia. Qed.

Lemma addBytes_total pr d n e :
  entryTotal (addBytes pr d n e) mod 2 ^ 64 = (entryTotal e + n) mod 2 ^ 64.
Proof.
  assert (∀ v, entryTotal (set_counter pr d v e) = v + (entryTotal e - counter pr d e)) as Hset
    by (intros v; destruct pr, d; unfold entryTotal; simpl; lia).
  unfold addBytes, wrap64. rewrite Hset, Zplus_mod_idemp_l. f_equal. lia.
Qed.

Lemma addBytes_ok pr d n e : entry_ok e → entry_ok (addBytes pr d n e).
Proof.
  intros He pr' d'. pose proof (He pr' d') as H. unfold addBytes, wrap64.
  pose proof (Z.mod_pos_bound (counter pr d e + n) (2 ^ 64)). destruct pr, d, pr', d'; simpl in *; lia.
Qed.

(** ** Histories of byte counting *)

Inductive byteOp : Type :=
  | BWrite (l : nat) (pr : proto) (d : direction) (n : Z)  (** a connection on entry [l] wrote [n] bytes *)
  | BDatagram (d : direction) (n : Z)                      (** a datagram of [n] bytes was counted *)
  | BFlush                                                 (** a tick of the flush loop *)
  | BClear                                                 (** [ClearTunnelID] *)
  | BSet (id : string).                                    (** [SetTunnelID] *)

Section bytes.
Context `{MapRange}.

Definition applyByte (op : byteOp) (p : ProxyManager) : ProxyManager * list byteSample :=
  match op with
  | BWrite l pr d n => countWrite l pr d n p
  | BDatagram d n => countUDP d n p
  | BFlush => flushTunnels p
  | BClear => ClearTunnelID p
  | BSet id => (match SetTunnelID id p with Ret p' => p' | Panic => p end, [])
  end.

(** The bytes an operation is to account for. *)
Definition toCount (op : byteOp) (p : ProxyManager) : Z :=
  match op with
  | BWrite _ _ _ n => Z.max 0 n
  | BDatagram _ n => if bool_decide (currentTunnelID p = "") then 0
                     else match entryLoc (currentTunnelID p) p with Some _ => Z.max 0 n | None => 0 end
  | _ => 0
  end.

Fixpoint runBytes (ops : list byteOp) (p : ProxyManager) : ProxyManager * list byteSample :=
  match ops with
  | [] => (p, [])
  | op :: ops' => let '(p1, s1) := applyByte op p in let '(p2, s2) := runBytes ops' p1 in (p2, s1 ++ s2)
  end.

Fixpoint countAll (ops : list byteOp) (p : ProxyManager) : Z :=
  match ops with [] => 0 | op :: ops' => toCount op p + countAll ops' (applyByte op p).1 end.

(** The entries the map points to exist, and counters are in range. *)
Definition pm_ok (p : ProxyManager) : Prop :=
  store_ok (entries p) ∧ ∀ id l, entryLoc id p = Some l → is_Some (entries p !! l).

Definition writes_ok (m : gmap nat tunnelEntry) (ops : list byteOp) : Prop :=
  ∀ l pr d n, BWrite l pr d n ∈ ops → is_Some (m !! l).

(** What one operation keeps: the store grows, counters stay in range, and
    samples plus unflushed counters change by the bytes counted. *)
Record byte_step (p p' : ProxyManager) (samples : list byteSample) (n : Z) : Prop := {
  bs_ok : pm_ok p';
  bs_grow : ∀ l, is_Some (entries p !! l) → is_Some (entries p' !! l);
  bs_sum : (zsum bs_n samples + storeTotal (entries p')) mod 2 ^ 64 = (storeTotal (entries p) + n) mod 2 ^ 64 }.

Lemma store_ok_insert m l e : store_ok m → entry_ok e → store_ok (<[l := e]> m).
Proof. intros Hm He l' e' [[<- <-]|[_ H0]]%lookup_insert_Some; [done|by eapply Hm]. Qed.

Lemma is_Some_insert {A} (m : gmap nat A) l l' (x : A) : is_Some (m !! l') → is_Some (<[l := x]> m !! l').
Proof.
  intros [y Hy]. destruct (decide (l = l')) as [->|Hne]; [rewrite lookup_insert_eq; by eexists|].
  rewrite lookup_insert_ne by done. by eexists.
Qed.

Lemma onEntry_step p l e pr d n :
  pm_ok p → entries p !! l = Some e → byte_step p (onEntry l (addBytes pr d n) p) [] n.
Proof.
  intros [Hst Hloc] He. unfold onEntry, set_entries, set_tunnels.
  assert (alter (addBytes pr d n) l (entries p) = <[l := addBytes pr d n e]> (entries p)) as Halt.
  { apply map_eq. intros l'. destruct (decide (l' = l)) as [->|Hne].
    - rewrite lookup_alter_eq, lookup_insert_eq, He. done.
    - by rewrite lookup_alter_ne, lookup_insert_ne by done. }
  split; cbn [entries]; rewrite ?Halt.
  - split; cbn [entries]; rewrite ?Halt.
    + apply store_ok_insert; [done|]. apply addBytes_ok. by eapply Hst.
    + intros id l' Hl'. apply is_Some_insert. by apply (Hloc id).
  - intros l' Hl'. by apply is_Some_insert.
  - rewrite (storeTotal_insert _ _ e) by done. cbn [zsum foldr].
    replace (0 + (storeTotal (entries p) - entryTotal e + entryTotal (addBytes pr d n e)))
      with (entryTotal (addBytes pr d n e) + (storeTotal (entries p) - entryTotal e)) by lia.
    rewrite Zplus_mod, addBytes_total, <- Zplus_mod. f_equal. lia.
Qed.

Lemma no_change_step p s n :
  pm_ok p → zsum bs_n s mod 2 ^ 64 = n mod 2 ^ 64 → byte_step p p s n.
Proof.
  intros Hp Hs. split; [done|done|]. rewrite Zplus_mod, Hs, <- Zplus_mod. f_equal. lia.
Qed.

Lemma reset_step p l e :
  pm_ok p → entries p !! l = Some e →
  byte_step p (set_entries (<[l := resetCounters e]> (entries p)) p) (flushSamples e) 0.
Proof.
  intros [Hst Hloc] He. split.
  - split; [apply store_ok_insert; [done|apply resetCounters_ok]|].
    intros id l' Hl'. apply is_Some_insert. by apply (Hloc id).
  - intros l' Hl'. by apply is_Some_insert.
  - simpl entries. rewrite (storeTotal_insert _ _ e), resetCounters_total by done.
    rewrite Zplus_mod, flushSamples_total, <- Zplus_mod by (by eapply Hst). f_equal. lia.
Qed.

Lemma byte_step_trans p p1 p2 s1 s2 n1 n2 :
  byte_step p p1 s1 n1 → byte_step p1 p2 s2 n2 → byte_step p p2 (s1 ++ s2) (n1 + n2).
Proof.
  intros [H1 G1 S1] [H2 G2 S2]. split; [done|eauto|].
  rewrite zsum_app. replace (zsum bs_n s1 + zsum bs_n s2 + storeTotal (entries p2))
    with (zsum bs_n s1 + (zsum bs_n s2 + storeTotal (entries p2))) by lia.
  rewrite <- Zplus_mod_idemp_r, S2, Zplus_mod_idemp_r.
  replace (zsum bs_n s1 + (storeTotal (entries p1) + n2)) with (zsum bs_n s1 + storeTotal (entries p1) + n2) by lia.
  rewrite <- Zplus_mod_idemp_l, S1, Zplus_mod_idemp_l. f_equal. lia.
Qed.

Lemma flush_loop_step ls p s0 :
  pm_ok p →
  let '(p', s) := foldl flushOne (p, s0) ls in ∃ s1, s = s0 ++ s1 ∧ byte_step p p' s1 0.
Proof.
  revert p s0. induction ls as [|l ls IH]; intros p s0 Hp.
  - simpl. exists []. split; [by rewrite app_nil_r|]. by apply no_change_step.
  - cbn [foldl]. unfold flushOne at 2. cbn [fst snd]. destruct (entries p !! l) as [e|] eqn:He; [|by apply IH].
    pose proof (reset_step p l e Hp He) as H1.
    specialize (IH (set_entries (<[l := resetCounters e]> (entries p)) p) (s0 ++ flushSamples e) (bs_ok _ _ _ _ H1)).
    destruct (foldl flushOne _ ls) as [p' s]. destruct IH as (s1 & -> & H2).
    exists (flushSamples e ++ s1). split; [by rewrite app_assoc|]. by apply (byte_step_trans _ _ _ _ _ 0 0 H1 H2).
Qed.

(** Moving the map pointers around does not touch the counters. *)
Lemma retarget_step p p' s id t :
  byte_step p p' s 0 → (∀ i l, t ≫= (.!! i) = Some l → is_Some (entries p' !! l)) →
  byte_step p (set_tunnels id t (entries p') p') s 0.
Proof. intros [[Hst _] Hg Hs] Ht. by split. Qed.

Lemma ClearTunnelID_step p : pm_ok p → byte_step p (ClearTunnelID p).1 (ClearTunnelID p).2 0.
Proof.
  intros Hp. unfold ClearTunnelID. destruct (bool_decide _); [by apply no_change_step|].
  assert (∀ p' i l, (∀ l, is_Some (entries p !! l) → is_Some (entries p' !! l)) →
    (delete (currentTunnelID p) <$> tunnels p) ≫= (.!! i) = Some l → is_Some (entries p' !! l)) as Hdel.
  { intros p' i l Hg Hl. apply Hg. destruct (tunnels p) as [t|] eqn:Et; [|done]. simpl in Hl.
    apply lookup_delete_Some in Hl as [_ Hl]. apply (proj2 Hp i). unfold entryLoc. by rewrite Et. }
  destruct (entryLoc (currentTunnelID p) p) as [l|] eqn:El.
  - destruct (proj2 Hp _ _ El) as [e He]. rewrite He. pose proof (reset_step p l e Hp He) as H1.
    apply (retarget_step _ _ _ "" (delete (currentTunnelID p) <$> tunnels p)) in H1; [exact H1|].
    intros i l'. apply Hdel, (bs_grow _ _ _ _ H1).
  - apply (retarget_step p p [] "" (tunnels p)); [by apply no_change_step|]. intros i l' Hl'. by apply (proj2 Hp i).
Qed.

Lemma SetTunnelID_step p id p' : pm_ok p → SetTunnelID id p = Ret p' → byte_step p p' [] 0.
Proof.
  intros [Hst Hloc] Hset. unfold SetTunnelID in Hset. destruct (tunnels p) as [t|] eqn:Et; [|done].
  assert (∀ i l, t !! i = Some l → is_Some (entries p !! l)) as Ht.
  { intros i l Hl. apply (Hloc i). unfold entryLoc. by rewrite Et. }
  destruct (t !! id) as [l|] eqn:El; simplify_eq.
  - destruct (Ht id l El) as [e He].
    assert (alter (set_attr id) l (entries p) = <[l := set_attr id e]> (entries p)) as Halt.
    { apply map_eq. intros l'. destruct (decide (l' = l)) as [->|Hne].
      - rewrite lookup_alter_eq, lookup_insert_eq, He. done.
      - by rewrite lookup_alter_ne, lookup_insert_ne by done. }
    rewrite Halt. split; simpl.
    + split; simpl; [apply store_ok_insert; [done|]; intros pr d; apply (Hst l e He pr d)|].
      intros i l' Hl'. apply is_Some_insert. by apply (Ht i).
    + intros l' Hl'. by apply is_Some_insert.
    + rewrite (storeTotal_insert _ _ e) by done. f_equal. unfold entryTotal. simpl. lia.
  - assert (entries p !! fresh (dom (entries p)) = None) as Hf.
    { apply not_elem_of_dom. exact (is_fresh (dom (entries p))). }
    split; simpl.
    + split; simpl; [apply store_ok_insert; [done|]; intros [] []; simpl; lia|].
      intros i l' Hl'. unfold entryLoc in Hl'. simpl in Hl'.
      apply lookup_insert_Some in Hl' as [[_ <-]|[_ Hl']]; [rewrite lookup_insert_eq; by eexists|].
      apply is_Some_insert. by apply (Ht i).
    + intros l' Hl'. by apply is_Some_insert.
    + rewrite storeTotal_fresh by done. f_equal.
Qed.

Lemma applyByte_step op p :
  pm_ok p → (∀ l pr d n, op = BWrite l pr d n → is_Some (entries p !! l)) →
  byte_step p (applyByte op p).1 (applyByte op p).2 (toCount op p).
Proof.
  intros Hp Hw. destruct op as [l pr d n|d n| | |id]; simpl.
  - unfold countWrite. destruct (Hw l pr d n eq_refl) as [e He].
    destruct (Z.ltb_spec 0 n) as [Hn|Hn]; [|replace (Z.max 0 n) with 0 by lia; by apply no_change_step].
    replace (Z.max 0 n) with n by lia. destruct (asyncBytes p); [by eapply onEntry_step|].
    apply no_change_step; [done|]. cbn. f_equal. lia.
  - unfold countUDP. destruct (bool_decide _); [by apply no_change_step|]. cbn [orb].
    destruct (Z.ltb_spec 0 n) as [Hn|Hn]; cbn [negb].
    + replace (Z.max 0 n) with n by lia. unfold onTunnel. destruct (entryLoc _ p) as [l|] eqn:El.
      * destruct (proj2 Hp _ _ El) as [e He]. destruct (asyncBytes p); [by eapply onEntry_step|].
        apply no_change_step; [done|]. cbn. f_equal. lia.
      * destruct (asyncBytes p); by apply no_change_step.
    + replace (Z.max 0 n) with 0 by lia. destruct (entryLoc _ p); by apply no_change_step.
  - unfold flushTunnels. destruct (tunnels p) as [t|]; [|by apply no_change_step].
    pose proof (flush_loop_step (range_map t).*2 p [] Hp) as Hf.
    destruct (foldl flushOne (p, []) _) as [p' s]. destruct Hf as (s1 & -> & Hf). exact Hf.
  - by apply ClearTunnelID_step.
  - destruct (SetTunnelID id p) as [p'|] eqn:E; [by eapply SetTunnelID_step|by apply no_change_step].
Qed.

Lemma runBytes_step ops p :
  pm_ok p → writes_ok (entries p) ops → byte_step p (runBytes ops p).1 (runBytes ops p).2 (countAll ops p).
Proof.
  revert p. induction ops as [|op ops IH]; intros p Hp Hw; cbn [runBytes countAll]; [by apply no_change_step|].
  assert (byte_step p (applyByte op p).1 (applyByte op p).2 (toCount op p)) as H1.
  { apply applyByte_step; [done|]. intros l pr d n ->. eapply Hw. apply list_elem_of_here. }
  specialize (IH (applyByte op p).1 (bs_ok _ _ _ _ H1)).
  destruct (applyByte op p) as [p1 s1]. cbn [fst snd] in *.
  destruct (runBytes ops p1) as [p2 s2]. cbn [fst snd] in *. eapply byte_step_trans; [exact H1|]. apply IH.
  intros l pr d n Hin. apply (bs_grow _ _ _ _ H1). eapply Hw. by apply list_elem_of_further.
Qed.

End bytes.

(** ** Theorems *)

(** Replacing a TCP target of a running manager takes effect.  Removing
    the target and adding it with a new address, as the update path does,
    closes exactly the old listener on the port and opens one that forwards
    to the new address; the target tables change at that address and port
    only, and listeners on other ports and all UDP sockets stay. *)
Theorem replace_target_effective listenOK ip port ts target p :
  running p = true → hasNetwork p = true → NoDup (ml_port <$> listeners p) →
  tcpTargets p !! ip = Some ts → listenOK TCP port = true →
  let '(p1, closedL, e1) := pm_RemoveTarget "tcp" ip port p in
  let '(p2, e2) := pm_AddTarget listenOK "tcp" ip port target p1 in
  e1 = PmOk ∧ e2 = PmOk ∧ closedL = onPort port (listeners p) ∧
  (∃ i, onPort port (listeners p2) = [mkListener i port target]) ∧
  offPort port (listeners p2) = offPort port (listeners p) ∧
  NoDup (ml_port <$> listeners p2) ∧ udpConns p2 = udpConns p ∧ udpTargets p2 = udpTargets p ∧
  ∀ ip' port', lookupTarget (tcpTargets p2) ip' port' =
    if decide (ip' = ip ∧ port' = port) then Some target else lookupTarget (tcpTargets p) ip' port'.
Proof.
  intros Hrun Hnet Hnd Hts Hok. destruct (closeFirst_spec port (listeners p) Hnd) as [Hl Hc].
  unfold pm_RemoveTarget. rewrite bool_decide_true by done. rewrite Hts.
  destruct (closeFirst port (listeners p)) as [ls c]. cbn [fst snd] in Hl, Hc. subst ls.
  unfold pm_AddTarget. rewrite bool_decide_true by done. cbn [running set_targets set_listeners]. rewrite Hrun.
  rewrite startTarget_tcp by done. cbn [listeners udpConns udpTargets tcpTargets nextListener set_targets set_listeners].
  split_and!; try done.
  - eexists. unfold onPort. rewrite filter_app. fold (onPort port (offPort port (listeners p))).
    rewrite offPort_onPort. by rewrite filter_cons_True.
  - unfold offPort at 1. rewrite filter_app. fold (offPort port (offPort port (listeners p))).
    rewrite offPort_idemp, filter_cons_False by (simpl; tauto). by rewrite app_nil_r.
  - rewrite fmap_app. apply NoDup_app. split_and!; [by apply offPort_NoDup| |apply NoDup_singleton].
    intros q (l & -> & Hin)%list_elem_of_fmap Hq. apply list_elem_of_singleton in Hq. simpl in Hq.
    unfold offPort in Hin. apply list_elem_of_filter in Hin as [Hne _]. done.
  - intros ip' port'. rewrite lookup_addEntry, (lookup_removeEntry _ _ _ ts) by done. by destruct (decide _).
Qed.

(** C31: byte counts are conserved.  Over any history of writes, datagrams,
    flushes and changes of the tunnel id, the bytes handed to the metrics plus
    those still in the counters equal the bytes counted, modulo the width of
    the counters; no flush loses or repeats a count. *)
Theorem bytes_conserved `{MapRange} ops p :
  pm_ok p → writes_ok (entries p) ops →
  let '(p', samples) := runBytes ops p in
  (zsum bs_n samples + storeTotal (entries p')) mod 2 ^ 64 =
  (storeTotal (entries p) + countAll ops p) mod 2 ^ 64 ∧ pm_ok p'.
Proof.
  intros Hp Hw. destruct (runBytes_step ops p Hp Hw) as [H1 _ H2].
  by destruct (runBytes ops p) as [p' s].
Qed.

(** The number of open TCP connections charged to a tunnel. *)
Definition tunnelTCP (id : string) (p : ProxyManager) : option Z :=
  l ← entryLoc id p; activeTCP <$> entries p !! l.
Definition tunnelUDP (id : string) (p : ProxyManager) : option Z :=
  l ← entryLoc id p; activeUDP <$> entries p !! l.

Lemma onTunnel_lookup id f p l e :
  entryLoc id p = Some l → entries p !! l = Some e →
  entryLoc id (onTunnel id f p) = Some l ∧ entries (onTunnel id f p) !! l = Some (f e).
Proof.
  intros Hl He. unfold onTunnel. rewrite Hl. unfold onEntry, set_entries. split; [done|].
  simpl. by rewrite lookup_alter_eq, He.
Qed.

(** TCP session accounting.  A connection that is accepted and completes
    leaves the tunnel's session count and active-connection gauge as they
    were; a connection whose dial to the target fails leaves both one higher
    for ever, since nothing decrements them on that path; a blocked manager
    changes nothing. *)
Theorem tcp_accounting p s l e :
  let id := currentTunnelID p in
  id ≠ ""%string → blocked p = false → entryLoc id p = Some l → entries p !! l = Some e →
  - 2 ^ 63 <= activeTCP e < 2 ^ 63 - 1 → 0 <= default 0 (s !! id) < 2 ^ 63 - 1 → s !! id ≠ Some 0 →
  ∃ p1 s1, tcpAccept p s = (p1, s1, Some id) ∧
    tunnelTCP id p1 = Some (activeTCP e + 1) ∧ default 0 (s1 !! id) = default 0 (s !! id) + 1 ∧
    (let '(p2, s2) := tcpFinish id p1 s1 in
     tunnelTCP id p2 = Some (activeTCP e) ∧ default 0 (s2 !! id) = default 0 (s !! id)) ∧
    (let '(p2, s2) := tcpDialFailed id p1 s1 in
     tunnelTCP id p2 = Some (activeTCP e + 1) ∧ default 0 (s2 !! id) = default 0 (s !! id) + 1) ∧
    tcpAccept (pm_SetBlocked true p) s = (pm_SetBlocked true p, s, None).
Proof.
  intros id Hid Hb Hl He Ha Hs Hs0. unfold tcpAccept. fold id. rewrite Hb, bool_decide_false by done.
  destruct (onTunnel_lookup id (addActive TCP 1) p l e Hl He) as [Hl1 He1].
  set (p1 := onTunnel id (addActive TCP 1) p) in *.
  destruct (onTunnel_lookup id (addActive TCP (-1)) p1 l _ Hl1 He1) as [Hl2 He2].
  assert (swrap64 (activeTCP e + 1) = activeTCP e + 1) as Hw by (apply swrap64_id; lia).
  assert (tunnelTCP id p1 = Some (activeTCP e + 1)) as Ht1.
  { unfold tunnelTCP. rewrite Hl1. cbn. rewrite He1. cbn. by rewrite Hw. }
  assert (default 0 (IncSessions id s !! id) = default 0 (s !! id) + 1) as Hs1.
  { unfold IncSessions. rewrite lookup_insert_eq. cbn. apply swrap64_id. lia. }
  exists p1, (IncSessions id s). split_and!; try done. unfold tcpFinish. rewrite bool_decide_false by done. split.
  - unfold tunnelTCP. rewrite Hl2. cbn. rewrite He2. cbn. rewrite Hw. f_equal. rewrite swrap64_id; lia.
  - unfold DecSessions, IncSessions. rewrite lookup_insert_eq. rewrite (swrap64_id (default 0 (s !! id) + 1)) by lia.
    rewrite swrap64_id by lia. destruct (Z.leb_spec (default 0 (s !! id) + 1 - 1) 0) as [Hle|Hgt].
    + rewrite lookup_delete_eq. cbn. lia.
    + rewrite lookup_insert_eq. cbn. lia.
Qed.

(** UDP accounting.  In asynchronous mode a datagram of [n] bytes that is
    forwarded in full adds [2n] to the tunnel's ingress counter; and a client
    whose first datagram cannot be written leaves the active-flow gauge one
    higher, because the socket is already out of the table when its goroutine
    cleans up. *)
Theorem udp_accounting p cs key n c l e :
  let id := currentTunnelID p in
  id ≠ ""%string → blocked p = false → asyncBytes p = true → 0 < n →
  entryLoc id p = Some l → entries p !! l = Some e → cs !! key = None →
  - 2 ^ 63 <= activeUDP e < 2 ^ 63 - 1 →
  (let '(p', cs', samples, g) := udpDatagram key n (mkUdpWorld true (Some c) (Some n)) cs p in
   samples = [] ∧ g = Some c ∧ cs' = <[key := c]> cs ∧
   (bytesInUDP <$> entries p' !! l) = Some (wrap64 (wrap64 (bytesInUDP e + n) + n)) ∧
   let '(p'', cs'') := udpExit key c id (Some cs') p' in
   tunnelUDP id p'' = Some (activeUDP e) ∧ cs'' = Some cs) ∧
  (let '(p', cs', samples, g) := udpDatagram key n (mkUdpWorld true (Some c) None) cs p in
   g = Some c ∧ cs' = cs ∧
   let '(p'', cs'') := udpExit key c id (Some cs') p' in
   tunnelUDP id p'' = Some (activeUDP e + 1) ∧ cs'' = Some cs).
Proof.
  intros id Hid Hb Has Hn Hl He Hk Ha.
  assert (∀ q m, currentTunnelID q = id → asyncBytes q = true → 0 < m →
            countUDP In m q = (onTunnel id (addBytes UDP In m) q, [])) as Hcount.
  { intros q m Hq Hqa Hm. unfold countUDP. rewrite Hq, Hqa, bool_decide_false by done.
    destruct (Z.ltb_spec 0 m); [done|lia]. }
  assert (∀ f q, currentTunnelID (onTunnel id f q) = currentTunnelID q ∧ asyncBytes (onTunnel id f q) = asyncBytes q) as Hframe.
  { intros f q. unfold onTunnel. by destruct (entryLoc id q). }
  unfold udpDatagram. rewrite Hb, Hk, (Hcount p n eq_refl Has Hn). cbn [uw_resolve uw_dial uw_write negb].
  destruct (Hframe (addBytes UDP In n) p) as [Hf1 Hf2]. rewrite Hf1. fold id.
  destruct (onTunnel_lookup id (addBytes UDP In n) p l e Hl He) as [Hl1 He1].
  set (p1 := onTunnel id (addBytes UDP In n) p) in *.
  destruct (onTunnel_lookup id (addActive UDP 1) p1 l _ Hl1 He1) as [Hl2 He2].
  destruct (Hframe (addActive UDP 1) p1) as [Hf3 Hf4]. set (p2 := onTunnel id (addActive UDP 1) p1) in *.
  assert (swrap64 (activeUDP e + 1) = activeUDP e + 1) as Hw by (apply swrap64_id; lia). split.
  - rewrite (Hcount p2 n); [|by rewrite Hf3, Hf1|by rewrite Hf4, Hf2|done].
    destruct (onTunnel_lookup id (addBytes UDP In n) p2 l _ Hl2 He2) as [Hl3 He3].
    set (p3 := onTunnel id (addBytes UDP In n) p2) in *.
    destruct (onTunnel_lookup id (addActive UDP (-1)) p3 l _ Hl3 He3) as [Hl4 He4].
    split_and!; [done|done|done|by rewrite He3|].
    unfold udpExit. cbn. rewrite lookup_insert_eq, Nat.eqb_refl. split.
    + unfold tunnelUDP. rewrite Hl4. cbn. rewrite He4. cbn. rewrite Hw. f_equal. rewrite swrap64_id; lia.
    + f_equal. by apply delete_insert_id.
  - split_and!; [done|by apply delete_insert_id|]. rewrite delete_insert_id by done.
    unfold udpExit. cbn. rewrite Hk. split; [|done].
    unfold tunnelUDP. rewrite Hl2. cbn. rewrite He2. cbn. by rewrite Hw.
Qed.

(** ** Behaviour on the error paths *)

(** Listeners are matched by port alone: removing a target on one listen
    address closes the listener that serves another address's target, which
    stays in the table. *)
Lemma remove_closes_other_ip ip1 ip2 port ts2 t p :
  NoDup (ml_port <$> listeners p) → ip1 ≠ ip2 → tcpTargets p !! ip2 = Some ts2 →
  lookupTarget (tcpTargets p) ip1 port = Some t →
  let p' := (pm_RemoveTarget "tcp" ip2 port p).1.1 in
  lookupTarget (tcpTargets p') ip1 port = Some t ∧ onPort port (listeners p') = [].
Proof.
  intros Hnd Hne Hts Ht. destruct (closeFirst_spec port (listeners p) Hnd) as [Hl _].
  unfold pm_RemoveTarget. rewrite bool_decide_true by done. rewrite Hts.
  destruct (closeFirst port (listeners p)) as [ls c]. cbn [fst snd] in *. subst ls. split.
  - simpl. rewrite (lookup_removeEntry _ _ _ ts2) by done. by rewrite decide_False by naive_solver.
  - apply offPort_onPort.
Qed.

Lemma startTarget_running listenOK pr port t p : running (startTarget listenOK pr port t p).1 = running p.
Proof. unfold startTarget. by repeat case_match. Qed.

Lemma startAll_running listenOK pr ts p : running (startAll listenOK pr ts p).1 = running p.
Proof.
  revert p. induction ts as [|[port t] ts IH]; intros p; cbn [startAll]; [done|].
  pose proof (startTarget_running listenOK pr port t p) as Hr.
  destruct (startTarget listenOK pr port t p) as [p' e]. cbn [fst] in Hr. destruct e; cbn [fst]; by rewrite ?IH.
Qed.

(** A start that fails half-way leaves the manager not running with the
    listeners it already opened, and stopping it then closes none of them. *)
Lemma failed_start_leaks `{MapRange} listenOK p p' e :
  running p = false → Start listenOK p = (p', e) → e ≠ PmOk → running p' = false ∧ pm_Stop p' = (p', []).
Proof.
  intros Hr Hs He.
  assert (running p' = false) as Hr'.
  { unfold Start in Hs. rewrite Hr in Hs.
    pose proof (startAll_running listenOK "tcp" (rangeTargets (tcpTargets p)) p) as H1.
    destruct (startAll _ "tcp" _ p) as [p1 e1]. cbn [fst] in H1.
    destruct e1; simplify_eq; try congruence.
    pose proof (startAll_running listenOK "udp" (rangeTargets (udpTargets p1)) p1) as H2.
    destruct (startAll _ "udp" _ p1) as [p2 e2]. cbn [fst] in H2. destruct e2; simplify_eq; congruence. }
  split; [done|]. unfold pm_Stop. by rewrite Hr'.
Qed.

(** Setting the tunnel id of a manager made without a network writes to a nil
    map. *)
Lemma SetTunnelID_without_tnet id : SetTunnelID id NewProxyManagerWithoutTNet = Panic.
Proof. done. Qed.

(** ** Examples and witnesses *)

Module ProxyManagerExamples.

#[local] Existing Instance canonical_range.

Definition listens : listenFn := λ _ _, true.

Definition started : ProxyManager :=
  (Start listens (pm_AddTarget listens "tcp" "100.89.0.2" 8080 "10.0.0.5:80"
                    (pm_AddTarget listens "tcp" "100.89.0.2" 9090 "10.0.0.6:80" NewProxyManager).1).1).1.

Example started_listens : running started = true ∧ length (listeners started) = 2%nat.
Proof. by vm_compute. Qed.

Lemma replace_target_effective_witness :
  let '(p1, closedL, e1) := pm_RemoveTarget "tcp" "100.89.0.2" 8080 started in
  let '(p2, e2) := pm_AddTarget listens "tcp" "100.89.0.2" 8080 "10.0.0.7:80" p1 in
  e1 = PmOk ∧ e2 = PmOk ∧ closedL = onPort 8080 (listeners started) ∧
  (∃ i, onPort 8080 (listeners p2) = [mkListener i 8080 "10.0.0.7:80"]) ∧
  offPort 8080 (listeners p2) = offPort 8080 (listeners started) ∧
  NoDup (ml_port <$> listeners p2) ∧ udpConns p2 = udpConns started ∧ udpTargets p2 = udpTargets started ∧
  ∀ ip' port', lookupTarget (tcpTargets p2) ip' port' =
    if decide (ip' = "100.89.0.2"%string ∧ port' = 8080) then Some "10.0.0.7:80"%string
    else lookupTarget (tcpTargets started) ip' port'.
Proof.
  eapply (replace_target_effective listens "100.89.0.2" 8080 _ "10.0.0.7:80" started); try reflexivity.
  apply (bool_decide_unpack _). by vm_compute.
Defined.

Definition entry0 : tunnelEntry := mkEntry (Some "peer"%string) 0 0 0 0 0 0.
Definition tunnelled : ProxyManager :=
  mkPM true "" ∅ ∅ [] [] 0 true "peer" (Some {["peer" := 0%nat]}) {[0%nat := entry0]} true true defaultUDPIdleTimeout false.

Lemma tunnelled_ok : pm_ok tunnelled.
Proof.
  split.
  - intros l e He. simpl in He. apply lookup_singleton_Some in He as [_ <-]. intros [] []; simpl; lia.
  - intros id l Hl. unfold entryLoc in Hl. simpl in Hl. apply lookup_singleton_Some in Hl as [_ <-].
    simpl. rewrite lookup_singleton_eq. by eexists.
Qed.

Definition traffic : list byteOp :=
  [BWrite 0 TCP In 1500; BDatagram Out 512; BFlush; BWrite 0 TCP Out 9000; BClear; BWrite 0 TCP In 40; BSet "peer"; BFlush].

Lemma bytes_conserved_witness :
  let '(p', samples) := runBytes traffic tunnelled in
  (zsum bs_n samples + storeTotal (entries p')) mod 2 ^ 64 =
  (storeTotal (entries tunnelled) + countAll traffic tunnelled) mod 2 ^ 64 ∧ pm_ok p'.
Proof.
  apply (bytes_conserved traffic tunnelled); [apply tunnelled_ok|].
  intros l pr d n Hin. assert (l = 0%nat) as ->; [|by eexists].
  unfold traffic in Hin. set_unfold in Hin. naive_solver.
Defined.

(** The bytes written after the tunnel was cleared stay in the orphaned
    entry. *)
Example traffic_samples :
  zsum bs_n (runBytes traffic tunnelled).2 = 11012 ∧ storeTotal (entries (runBytes traffic tunnelled).1) = 40.
Proof. by vm_compute. Qed.

Definition quiet : sessionCounts := ∅.

Lemma tcp_accounting_witness :
  let id := currentTunnelID tunnelled in
  ∃ p1 s1, tcpAccept tunnelled quiet = (p1, s1, Some id) ∧
    tunnelTCP id p1 = Some (activeTCP entry0 + 1) ∧ default 0 (s1 !! id) = default 0 (quiet !! id) + 1 ∧
    (let '(p2, s2) := tcpFinish id p1 s1 in
     tunnelTCP id p2 = Some (activeTCP entry0) ∧ default 0 (s2 !! id) = default 0 (quiet !! id)) ∧
    (let '(p2, s2) := tcpDialFailed id p1 s1 in
     tunnelTCP id p2 = Some (activeTCP entry0 + 1) ∧ default 0 (s2 !! id) = default 0 (quiet !! id) + 1) ∧
    tcpAccept (pm_SetBlocked true tunnelled) quiet = (pm_SetBlocked true tunnelled, quiet, None).
Proof. by apply (tcp_accounting tunnelled quiet 0%nat entry0). Defined.

Lemma udp_accounting_witness :
  (let '(p', cs', samples, g) := udpDatagram "100.89.0.1:5000" 512 (mkUdpWorld true (Some 3%nat) (Some 512)) ∅ tunnelled in
   samples = [] ∧ g = Some 3%nat ∧ cs' = <["100.89.0.1:5000"%string := 3%nat]> ∅ ∧
   (bytesInUDP <$> entries p' !! 0%nat) = Some (wrap64 (wrap64 (0 + 512) + 512)) ∧
   let '(p'', cs'') := udpExit "100.89.0.1:5000" 3%nat "peer" (Some cs') p' in
   tunnelUDP "peer" p'' = Some 0 ∧ cs'' = Some ∅) ∧
  (let '(p', cs', samples, g) := udpDatagram "100.89.0.1:5000" 512 (mkUdpWorld true (Some 3%nat) None) ∅ tunnelled in
   g = Some 3%nat ∧ cs' = ∅ ∧
   let '(p'', cs'') := udpExit "100.89.0.1:5000" 3%nat "peer" (Some cs') p' in
   tunnelUDP "peer" p'' = Some (0 + 1) ∧ cs'' = Some ∅).
Proof. by apply (udp_accounting tunnelled ∅ "100.89.0.1:5000" 512 3%nat 0%nat entry0). Defined.

End ProxyManagerExamples.
