(* ===== verification/Targets.v ===== *)
(** * Proxy targets sent by the server ([newt/targets.go])

    A target arrives as text ["listenPort:host:targetPort"]; [updateTargets]
    parses each one, lets an optional script rewrite the address, and applies
    it to the proxy manager.  The script is a parameter: its result for an
    action, protocol and target, or an error. *)

From S2P Require Import Prelude Netip NetipText HostPort ProxyManager.
From Stdlib Require Import Ascii.

(** [parseTargetString]: the listen port and the target address. *)
Definition parseTarget (target : list ascii) : option (Z * list ascii) :=
  match cut c_colon target with
  | (_, None) => None
  | (listenPortStr, Some remainder) =>
      listenPort ← sscanf_d listenPortStr;
      if (listenPort <=? 0) || (65535 <? listenPort) then None
      else
        '(host, targetPort) ← splitHostPort remainder;
        match host, targetPort with
        | [], _ => None
        | _, [] => None
        | _, _ => Some (listenPort, joinHostPort host targetPort)
        end
  end.

Definition parseTargetString (target : string) : option (Z * string) :=
  '(p, t) ← parseTarget (str target); Some (p, unstr t).

Section update.
(** [executeUpdownScript] when a script is configured: the new target, empty
    when it printed nothing, or [None] on an error. *)
Context (script : option (string → string → string → option string)) (listenOK : listenFn).

Definition processTarget (action pr target : string) : string :=
  match script with
  | None => target
  | Some f =>
      match f action pr target with
      | None => target
      | Some t => if bool_decide (t = "") then target else t
      end
  end.

(** The loop: [Some] the manager after a failed removal ends it early. *)
Fixpoint updateTargets (action ip pr : string) (ts : list string) (p : ProxyManager) : ProxyManager * pmErr :=
  match ts with
  | [] => (p, PmOk)
  | t :: ts' =>
      match parseTargetString t with
      | None => updateTargets action ip pr ts' p
      | Some (port, target) =>
          if bool_decide (action = "add") then
            let p1 := (pm_RemoveTarget pr ip port p).1.1 in
            let p2 := (pm_AddTarget listenOK pr ip port (processTarget action pr target) p1).1 in
            updateTargets action ip pr ts' p2
          else if bool_decide (action = "remove") then
            match pm_RemoveTarget pr ip port p with
            | (p1, _, PmOk) => updateTargets action ip pr ts' p1
            | (p1, _, e) => (p1, e)
            end
          else updateTargets action ip pr ts' p
      end
  end.

End update.

Example parse_examples :
  parseTargetString "8080:10.0.0.5:80" = Some (8080, "10.0.0.5:80")%string ∧
  parseTargetString "443:[fd00::5]:8443" = Some (443, "[fd00::5]:8443")%string ∧
  parseTargetString "8080:fd00::5:80" = None ∧ parseTargetString "0:h:80" = None ∧
  parseTargetString "65536:h:80" = None ∧ parseTargetString "8080::80" = None ∧
  parseTargetString "8080" = None ∧ parseTargetString "x:h:80" = None.
Proof. vm_compute. auto 10. Qed.

(** The listen port is followed by anything at all that does not continue the
    number. *)
Example parse_lenient : parseTargetString "80abc:h:1" = Some (80, "h:1"%string).
Proof. by vm_compute. Qed.

(** ** Lemmas *)

Lemma parseTarget_ok p h q :
  0 < p <= 65535 → h ≠ [] → no_brackets h → q ≠ [] → plain q →
  parseTarget (str (itoa p) ++ c_colon :: joinHostPort h q) = Some (p, joinHostPort h q).
Proof.
  intros Hp Hh Hb Hq Hpl. unfold parseTarget.
  rewrite cut_app by (apply (itoa_plain p); lia). rewrite sscanf_d_itoa by lia. cbn [mbind option_bind].
  destruct (Z.leb_spec p 0); [lia|]. destruct (Z.ltb_spec 65535 p); [lia|]. cbn [orb].
  rewrite split_join by done. cbn [mbind option_bind]. destruct h; [done|]. by destruct q.
Qed.

Lemma parseTarget_sound s p t :
  parseTarget s = Some (p, t) →
  0 < p <= 65535 ∧ ∃ h q, t = joinHostPort h q ∧ splitHostPort t = Some (h, q) ∧ h ≠ [] ∧ q ≠ [].
Proof.
  unfold parseTarget. destruct (cut c_colon s) as [lp [rem|]]; [|done].
  intros (n & Hn & H)%bind_Some. destruct ((n <=? 0) || (65535 <? n)) eqn:Er; [done|].
  apply orb_false_iff in Er as [E1%Z.leb_gt E2%Z.ltb_ge].
  apply bind_Some in H as ([h q] & Hs & H). destruct h as [|c h]; [done|]. destruct q as [|d q]; [done|].
  simplify_eq. split; [lia|]. destruct (split_parts _ _ _ Hs) as [Hb Hp].
  exists (c :: h), (d :: q). split_and!; [done|by apply split_join|done|done].
Qed.

(** Target strings round trip.  Writing a listen port between 1 and
    65535, a host without brackets and a port as the server does parses back
    to exactly them, IPv6 hosts included; and every string that parses gives
    a port in that range and an address that splits into a non-empty host and
    port. *)
Theorem target_roundtrip :
  (∀ p h q, 0 < p <= 65535 → str h ≠ [] → no_brackets (str h) → str q ≠ [] → plain (str q) →
     parseTargetString (itoa p +:+ ":" +:+ JoinHostPort h q) = Some (p, JoinHostPort h q)) ∧
  (∀ s p t, parseTargetString s = Some (p, t) →
     0 < p <= 65535 ∧ ∃ h q, SplitHostPort t = Some (h, q) ∧ t = JoinHostPort h q ∧ str h ≠ [] ∧ str q ≠ []).
Proof.
  split.
  - intros p h q Hp Hh Hb Hq Hpl. unfold parseTargetString, JoinHostPort.
    rewrite !str_app, str_unstr. change (str ":") with [c_colon]. cbn [app].
    by rewrite parseTarget_ok.
  - intros s p t Hs. unfold parseTargetString in Hs. apply bind_Some in Hs as ([p' t'] & Hp & Ht). simplify_eq.
    destruct (parseTarget_sound _ _ _ Hp) as (Hr & h & q & -> & Hsp & Hh & Hq). split; [done|].
    exists (unstr h), (unstr q). unfold SplitHostPort, JoinHostPort. rewrite !str_unstr, Hsp. done.
Qed.
