(* ===== verification/Keys.v ===== *)
(** * WireGuard keys as text ([util.FixKey], [util.UnfixKey])

    The server and [wgtypes] write a key in base64, the device's text protocol
    in hexadecimal.  The two converters are modelled with the parts of
    [encoding/base64], [encoding/hex] and [strings] they call, byte strings
    being lists of characters as elsewhere. *)

From S2P Require Import Prelude NetipText.
From Stdlib Require Import Ascii.

(** ** [strings.Split] on one byte, [HasPrefix] and [TrimPrefix] *)

Fixpoint splitOn (c : ascii) (s : list ascii) : list (list ascii) :=
  match s with
  | [] => [[]]
  | x :: s' =>
      if Ascii.eqb x c then [] :: splitOn c s'
      else match splitOn c s' with
           | [] => [[x]]
           | w :: ws => (x :: w) :: ws
           end
  end.

(** [Some rest] when [s] has the prefix [p], [rest] being [TrimPrefix s p]. *)
Fixpoint trimPrefix (p s : list ascii) : option (list ascii) :=
  match p, s with
  | [], _ => Some s
  | _ :: _, [] => None
  | a :: p', b :: s' => if Ascii.eqb a b then trimPrefix p' s' else None
  end.

(** ** [strings.TrimSpace] *)

(** The UTF-8 encodings of the code points [unicode.IsSpace] accepts. *)
Definition spaceRunes : list (list ascii) :=
  map (map ch)
    ([[9]; [10]; [11]; [12]; [13]; [32]; [0xC2; 0x85]; [0xC2; 0xA0]; [0xE1; 0x9A; 0x80]]
     ++ map (λ i, [0xE2; 0x80; 0x80 + i]) [0; 1; 2; 3; 4; 5; 6; 7; 8; 9; 10; 0x28; 0x29; 0x2F]
     ++ [[0xE2; 0x81; 0x9F]; [0xE3; 0x80; 0x80]]).

(** Strip leading runs of the given encodings; each step removes a byte, so
    the length of the text is enough fuel. *)
Fixpoint trimLeft (runes : list (list ascii)) (fuel : nat) (s : list ascii) : list ascii :=
  match fuel with
  | O => s
  | S fuel' =>
      match for_return (λ r, trimPrefix r s) runes with
      | Some s' => trimLeft runes fuel' s'
      | None => s
      end
  end.

Definition TrimSpace (s : list ascii) : list ascii :=
  let l := trimLeft spaceRunes (length s) s in
  rev (trimLeft (map (@rev ascii) spaceRunes) (length l) (rev l)).

(** ** [encoding/hex] *)

Fixpoint hexEncode (bs : list Z) : list ascii :=
  match bs with
  | [] => []
  | b :: bs' => hexDigit (b / 16) :: hexDigit (b mod 16) :: hexEncode bs'
  end.

Fixpoint hexDecode (s : list ascii) : option (list Z) :=
  match s with
  | [] => Some []
  | [_] => None
  | a :: b :: s' =>
      x ← hexVal a; y ← hexVal b; bs ← hexDecode s'; Some (x * 16 + y :: bs)
  end.

(** ** [base64.StdEncoding] *)

Definition b64Char (n : Z) : ascii :=
  if n <? 26 then ch (65 + n)
  else if n <? 52 then ch (71 + n)
  else if n <? 62 then ch (n - 4)
  else if n =? 62 then "+"%char else "/"%char.

Definition b64Val (c : ascii) : option Z :=
  let n := code c in
  if (65 <=? n) && (n <=? 90) then Some (n - 65)
  else if (97 <=? n) && (n <=? 122) then Some (n - 71)
  else if (48 <=? n) && (n <=? 57) then Some (n + 4)
  else if n =? 43 then Some 62
  else if n =? 47 then Some 63 else None.

Definition b64Pad : ascii := "="%char.

Fixpoint b64Encode (bs : list Z) : list ascii :=
  match bs with
  | [] => []
  | [a] => [b64Char (a / 4); b64Char (a mod 4 * 16); b64Pad; b64Pad]
  | [a; b] => [b64Char (a / 4); b64Char (a mod 4 * 16 + b / 16); b64Char (b mod 16 * 4); b64Pad]
  | a :: b :: c :: bs' =>
      b64Char (a / 4) :: b64Char (a mod 4 * 16 + b / 16)
      :: b64Char (b mod 16 * 4 + c / 64) :: b64Char (c mod 64) :: b64Encode bs'
  end.

(** The quanta of a text without line breaks: padding only in the last one,
    whose unused low bits are not checked. *)
Fixpoint b64Quanta (s : list ascii) : option (list Z) :=
  match s with
  | [] => Some []
  | a :: b :: c :: d :: s' =>
      va ← b64Val a; vb ← b64Val b;
      if Ascii.eqb c b64Pad then
        if Ascii.eqb d b64Pad && bool_decide (s' = []) then Some [va * 4 + vb / 16] else None
      else
        vc ← b64Val c;
        if Ascii.eqb d b64Pad then
          if bool_decide (s' = []) then Some [va * 4 + vb / 16; vb mod 16 * 16 + vc / 4] else None
        else
          vd ← b64Val d; bs ← b64Quanta s';
          Some (va * 4 + vb / 16 :: vb mod 16 * 16 + vc / 4 :: vc mod 4 * 64 + vd :: bs)
  | _ => None
  end.

Definition isLineBreak (c : ascii) : bool := (code c =? 10) || (code c =? 13).

(** [DecodeString] skips line breaks wherever they stand. *)
Definition b64Decode (s : list ascii) : option (list Z) :=
  b64Quanta (filter (λ c, isLineBreak c = false) s).

(** ** The converters.  [Panic] is [logger.Fatal], which ends the process. *)

Definition FixKey (key : string) : go string :=
  decoded ← or_panic (b64Decode (TrimSpace (str key)));
  mret (unstr (hexEncode decoded)).

Definition UnfixKey (hexKey : string) : go string :=
  decoded ← or_panic (hexDecode (str hexKey));
  mret (unstr (b64Encode decoded)).

Example FixKey_example :
  FixKey " AAEC/wA=
" = Ret "000102ff00"%string ∧ UnfixKey "000102FF00" = Ret "AAEC/wA="%string ∧
  FixKey "AAEC/wA" = Panic ∧ FixKey "A=EC" = Panic ∧ UnfixKey "0" = Panic.
Proof. vm_compute. auto. Qed.

(** ** Lemmas *)

Lemma splitOn_absent c s : Forall (λ x, Ascii.eqb x c = false) s → splitOn c s = [s].
Proof. induction 1 as [|x s Hx _ IH]; simpl; [done|]. by rewrite Hx, IH. Qed.

Lemma splitOn_app c s t :
  Forall (λ x, Ascii.eqb x c = false) s → splitOn c (s ++ c :: t) = s :: splitOn c t.
Proof.
  induction 1 as [|x s Hx _ IH]; simpl.
  - by rewrite Ascii.eqb_refl.
  - by rewrite Hx, IH.
Qed.

(** No piece contains the separator. *)
Lemma splitOn_pieces c s w : w ∈ splitOn c s → Forall (λ x, Ascii.eqb x c = false) w.
Proof.
  revert w. induction s as [|x s IH]; intros w; cbn [splitOn].
  - intros ->%list_elem_of_singleton. constructor.
  - destruct (Ascii.eqb x c) eqn:Hx.
    + intros [->|Hw]%elem_of_cons; [constructor|auto].
    + destruct (splitOn c s) as [|v vs] eqn:E.
      * intros ->%list_elem_of_singleton. by repeat constructor.
      * intros [->|Hw]%elem_of_cons; [|apply IH; set_solver].
        constructor; [done|]. apply IH. set_solver.
Qed.

Lemma trimPrefix_Some p s t : trimPrefix p s = Some t ↔ s = p ++ t.
Proof.
  revert s. induction p as [|a p IH]; intros s; simpl; [naive_solver|].
  destruct s as [|b s]; [naive_solver|]. destruct (Ascii.eqb_spec a b) as [->|Hne].
  - rewrite IH. naive_solver.
  - naive_solver.
Qed.

Lemma hexVal_digit x : 0 <= x < 16 → hexVal (hexDigit x) = Some x.
Proof.
  intros Hx. assert (forallb (λ n, bool_decide (hexVal (hexDigit n) = Some n)) (seqZ 0 16) = true) as Hall by by vm_compute.
  rewrite forallb_forall in Hall. eapply bool_decide_eq_true, Hall, list_elem_of_In, elem_of_seqZ. lia.
Qed.

Lemma hex_roundtrip bs : Forall byte_range bs → hexDecode (hexEncode bs) = Some bs.
Proof.
  unfold byte_range. induction 1 as [|b bs Hb _ IH]; [done|]. cbn [hexEncode hexDecode].
  rewrite !hexVal_digit, IH by (Z.div_mod_to_equations; lia).
  simpl. do 2 f_equal. pose proof (Z.div_mod b 16). lia.
Qed.

(** The printable non-space characters, which contain both alphabets. *)
Definition visible (c : ascii) : bool := (33 <=? code c) && (code c <=? 126).

Definition b64_char_ok (n : Z) : bool :=
  bool_decide (b64Val (b64Char n) = Some n) && negb (Ascii.eqb (b64Char n) b64Pad)
  && visible (b64Char n).

Lemma b64Char_facts n :
  0 <= n < 64 →
  b64Val (b64Char n) = Some n ∧ Ascii.eqb (b64Char n) b64Pad = false ∧ visible (b64Char n) = true.
Proof.
  intros Hn. assert (forallb b64_char_ok (seqZ 0 64) = true) as Hall by by vm_compute.
  rewrite forallb_forall in Hall. specialize (Hall n). unfold b64_char_ok in Hall.
  rewrite !andb_true_iff, bool_decide_eq_true, negb_true_iff in Hall.
  assert (In n (seqZ 0 64)) as Hin by (apply list_elem_of_In, elem_of_seqZ; lia). naive_solver.
Qed.

Lemma b64_ind (P : list Z → Prop) :
  P [] → (∀ a, P [a]) → (∀ a b, P [a; b]) → (∀ a b c bs, P bs → P (a :: b :: c :: bs)) → ∀ bs, P bs.
Proof.
  intros H0 H1 H2 H3. fix IH 1. intros [|a [|b [|c bs]]]; [done|apply H1|apply H2|apply H3, IH].
Qed.

(** The six-bit groups of up to three bytes, and their reassembly. *)
Lemma b64_groups a b c :
  byte_range a → byte_range b → byte_range c →
  0 <= a / 4 < 64 ∧ 0 <= a mod 4 * 16 + b / 16 < 64 ∧ 0 <= b mod 16 * 4 + c / 64 < 64 ∧ 0 <= c mod 64 < 64 ∧
  a / 4 * 4 + (a mod 4 * 16 + b / 16) / 16 = a ∧
  (a mod 4 * 16 + b / 16) mod 16 * 16 + (b mod 16 * 4 + c / 64) / 4 = b ∧
  (b mod 16 * 4 + c / 64) mod 4 * 64 + c mod 64 = c.
Proof. unfold byte_range. intros. split_and!; Z.div_mod_to_equations; lia. Qed.

Lemma b64_roundtrip_quanta bs : Forall byte_range bs → b64Quanta (b64Encode bs) = Some bs.
Proof.
  assert (byte_range 0) as H0 by (unfold byte_range; lia).
  induction bs as [|a|a b|a b c bs IH] using b64_ind; intros Hbs; [done| | |].
  - apply Forall_cons in Hbs as [Ha _].
    destruct (b64_groups a 0 0 Ha H0 H0) as (G1 & G2 & _ & _ & E1 & _). rewrite Z.add_0_r in G2, E1.
    cbn [b64Encode b64Quanta]. destruct (b64Char_facts _ G1) as (-> & _ & _), (b64Char_facts _ G2) as (-> & _ & _).
    cbn. by rewrite E1.
  - apply Forall_cons in Hbs as [Ha [Hb _]%Forall_cons].
    destruct (b64_groups a b 0 Ha Hb H0) as (G1 & G2 & G3 & _ & E1 & E2 & _).
    rewrite Z.add_0_r in G3. cbn [b64Encode b64Quanta].
    destruct (b64Char_facts _ G1) as (-> & _ & _), (b64Char_facts _ G2) as (-> & _ & _), (b64Char_facts _ G3) as (-> & -> & _).
    change (0 / 64) with 0 in E2. rewrite Z.add_0_r in E2. cbn. by rewrite E1, E2.
  - apply Forall_cons in Hbs as [Ha [Hb [Hc Hbs]%Forall_cons]%Forall_cons].
    destruct (b64_groups a b c Ha Hb Hc) as (G1 & G2 & G3 & G4 & E1 & E2 & E3).
    cbn [b64Encode b64Quanta].
    destruct (b64Char_facts _ G1) as (-> & _ & _), (b64Char_facts _ G2) as (-> & _ & _),
      (b64Char_facts _ G3) as (-> & -> & _), (b64Char_facts _ G4) as (-> & -> & _).
    rewrite IH by done. cbn. by rewrite E1, E2, E3.
Qed.

Lemma b64Encode_visible bs : Forall byte_range bs → Forall (λ c, visible c = true) (b64Encode bs).
Proof.
  assert (byte_range 0) as H0 by (unfold byte_range; lia).
  induction bs as [|a|a b|a b c bs IH] using b64_ind; intros Hbs; [constructor| | |].
  - apply Forall_cons in Hbs as [Ha _].
    destruct (b64_groups a 0 0 Ha H0 H0) as (G1 & G2 & _). rewrite Z.add_0_r in G2.
    repeat constructor; by apply b64Char_facts.
  - apply Forall_cons in Hbs as [Ha [Hb _]%Forall_cons].
    destruct (b64_groups a b 0 Ha Hb H0) as (G1 & G2 & G3 & _). rewrite Z.add_0_r in G3.
    repeat constructor; by apply b64Char_facts.
  - apply Forall_cons in Hbs as [Ha [Hb [Hc Hbs]%Forall_cons]%Forall_cons].
    destruct (b64_groups a b c Ha Hb Hc) as (G1 & G2 & G3 & G4 & _).
    cbn [b64Encode]. repeat (apply Forall_cons; split; [by apply b64Char_facts|]). by apply IH.
Qed.

(** A text of visible characters has no space to trim and no line break. *)
Definition hidden_head (r : list ascii) : bool := match r with x :: _ => negb (visible x) | [] => false end.

Lemma for_return_runes runes c s :
  forallb hidden_head runes = true →
  visible c = true → for_return (λ r, trimPrefix r (c :: s)) runes = None.
Proof.
  intros Hr Hc. apply for_return_None. intros r Hin%list_elem_of_In. rewrite forallb_forall in Hr. specialize (Hr r Hin).
  destruct r as [|x r]; [done|]. simpl in *. destruct (Ascii.eqb_spec x c) as [->|]; [|done]. by rewrite Hc in Hr.
Qed.

Lemma trimLeft_visible runes fuel s :
  forallb hidden_head runes = true →
  Forall (λ c, visible c = true) s → trimLeft runes fuel s = s.
Proof.
  intros Hr Hs. destruct fuel as [|fuel]; [done|]. cbn [trimLeft].
  destruct Hs as [|c s Hc _]; [|by rewrite for_return_runes].
  replace (for_return _ runes) with (@None (list ascii)); [done|]. symmetry. apply for_return_None.
  intros r Hin%list_elem_of_In. rewrite forallb_forall in Hr. specialize (Hr r Hin). by destruct r.
Qed.

Lemma TrimSpace_visible s : Forall (λ c, visible c = true) s → TrimSpace s = s.
Proof.
  intros Hs. unfold TrimSpace. rewrite (trimLeft_visible spaceRunes) by (done || by vm_compute).
  rewrite trimLeft_visible; [apply rev_involutive|by vm_compute|].
  rewrite Forall_forall in *. intros c Hc. apply Hs. by apply list_elem_of_In, in_rev, list_elem_of_In.
Qed.

Lemma b64_roundtrip bs : Forall byte_range bs → b64Decode (b64Encode bs) = Some bs.
Proof.
  intros Hbs. unfold b64Decode. rewrite list_filter_all; [by apply b64_roundtrip_quanta|].
  intros c Hc. pose proof (b64Encode_visible bs Hbs) as Hv. rewrite Forall_forall in Hv.
  specialize (Hv c Hc). unfold visible, isLineBreak in *. lia.
Qed.

(** Both converters on the text of a key. *)
Lemma FixKey_b64 bs : Forall byte_range bs → FixKey (unstr (b64Encode bs)) = Ret (unstr (hexEncode bs)).
Proof.
  intros Hbs. unfold FixKey. rewrite str_unstr, TrimSpace_visible by by apply b64Encode_visible.
  by rewrite b64_roundtrip.
Qed.

Lemma UnfixKey_hex bs : Forall byte_range bs → UnfixKey (unstr (hexEncode bs)) = Ret (unstr (b64Encode bs)).
Proof. intros Hbs. unfold UnfixKey. by rewrite str_unstr, hex_roundtrip. Qed.

Lemma hexEncode_inj bs bs' :
  Forall byte_range bs → Forall byte_range bs' → hexEncode bs = hexEncode bs' → bs = bs'.
Proof. intros Hb Hb' E. apply (f_equal hexDecode) in E. rewrite !hex_roundtrip in E by done. by simplify_eq. Qed.

Lemma hexEncode_visible bs : Forall byte_range bs → Forall (λ c, visible c = true) (hexEncode bs).
Proof.
  assert (forallb (λ n, visible (hexDigit n)) (seqZ 0 16) = true) as Hall by by vm_compute.
  rewrite forallb_forall in Hall. unfold byte_range. induction 1 as [|b bs Hb _ IH]; [constructor|].
  cbn [hexEncode]. repeat (apply Forall_cons; split); [..|done]; apply Hall, list_elem_of_In, elem_of_seqZ; Z.div_mod_to_equations; lia.
Qed.
