(* ===== verification/Util.v ===== *)
(** * Shared helpers ([util/util.go])

    Resolution of endpoints to addresses, the choice of a free UDP port, log
    levels, and the two functions that read a header field from a packet.  DNS
    is a parameter: what the system's resolver and each upstream server answer
    for a name.  [FixKey] and [UnfixKey] are in Keys.v. *)

From S2P Require Import Prelude Netip NetipText HostPort Keys Checksum.
From Stdlib Require Import Ascii.

(** ** [strings] *)

Definition TrimPrefix (p s : string) : string := match trimPrefix (str p) (str s) with Some r => unstr r | None => s end.
Definition TrimSuffix (p s : string) : string :=
  match trimPrefix (rev (str p)) (rev (str s)) with Some r => unstr (rev r) | None => s end.

(** [strings.HasPrefix] and [strings.HasSuffix] *)
Definition startsWith (p s : string) : bool := match trimPrefix (str p) (str s) with Some _ => true | None => false end.
Definition endsWith (p s : string) : bool := match trimPrefix (rev (str p)) (rev (str s)) with Some _ => true | None => false end.

(** [strings.ToUpper] on the ASCII letters. *)
Definition upperChar (c : ascii) : ascii := if (97 <=? code c) && (code c <=? 122) then ch (code c - 32) else c.

(** ** Endpoints *)

(** [net.IP.String]: an IPv4-mapped address is printed as IPv4. *)
Definition ipString (a : Addr) : string := AddrString (Unmap a).

(** [ip.To4() != nil] *)
Definition isTo4 (a : Addr) : bool := match Unmap a with Addr4 _ => true | _ => false end.

Definition cleanDomain (domain : string) : string :=
  TrimSuffix "/" (TrimPrefix "https://" (TrimPrefix "http://" (unstr (TrimSpace (str domain))))).

Definition hostAndPort (domain : string) : string * string :=
  match SplitHostPort domain with Some hp => hp | None => (domain, ""%string) end.

Definition cleanHost (host : string) : string := TrimPrefix "[" (TrimSuffix "]" host).

(** The first IPv4 address, or the first address. *)
Definition chooseIP (ips : list Addr) : option string :=
  match ips with
  | [] => None
  | ip0 :: _ => Some (ipString (default ip0 (find isTo4 ips)))
  end.

Definition withPort (ipAddr port : string) : string :=
  if bool_decide (port = "") then ipAddr else JoinHostPort ipAddr port.

(** The body both resolvers share, over the lookup they use. *)
Definition resolveWith (look : string → option (list Addr)) (domain : string) : option string :=
  let '(host, port) := hostAndPort (cleanDomain domain) in
  match ParseIP (cleanHost host) with
  | Some ip => Some (withPort (ipString ip) port)
  | None => ips ← look host; ipAddr ← chooseIP ips; Some (withPort ipAddr port)
  end.

(** An upstream server without a port is asked on port 53. *)
Definition dnsAddr (server : string) : string :=
  match SplitHostPort server with Some _ => server | None => JoinHostPort server "53" end.

(** The loop over the upstream servers: the first answer that is not an
    error, whatever it holds. *)
Fixpoint lookupUpstream (lookupVia : string → string → option (list Addr)) (servers : list string) (host : string)
    : option (list Addr) :=
  match servers with
  | [] => None
  | s :: r => match lookupVia (dnsAddr s) host with Some ips => Some ips | None => lookupUpstream lookupVia r host end
  end.

(** The system's resolver, and the one that asks a given server. *)
Class DNS : Type := { lookupIP : string → option (list Addr); lookupVia : string → string → option (list Addr) }.

(** Addresses from DNS have no zone. *)
Definition zoneless (a : Addr) : bool := match a with Addr4 _ => true | Addr6 _ z => bool_decide (z = "") | AddrInvalid => false end.

Class DNSLaws `{DNS} : Prop := {
  lookupIP_zoneless h ips : lookupIP h = Some ips → Forall (λ a, zoneless a = true) ips;
  lookupVia_zoneless s h ips : lookupVia s h = Some ips → Forall (λ a, zoneless a = true) ips }.

Section Resolve.
Context `{DNS}.

Definition ResolveDomain (domain : string) : option string := resolveWith lookupIP domain.

Definition ResolveDomainUpstream (domain : string) (publicDNS : list string) : option string :=
  resolveWith (match publicDNS with [] => lookupIP | _ => lookupUpstream lookupVia publicDNS end) domain.

(** What the callers do with a list of servers: upstream when there is one. *)
Definition resolveVia (publicDNS : list string) (endpoint : string) : option string :=
  match publicDNS with [] => ResolveDomain endpoint | _ => ResolveDomainUpstream endpoint publicDNS end.

End Resolve.

(** ** Log levels *)

Inductive LogLevel : Type := DEBUG | INFO | WARN | ERROR | FATAL.

#[global] Instance LogLevel_eq_dec : EqDecision LogLevel.
Proof. solve_decision. Defined.

Definition ParseLogLevel (level : string) : LogLevel :=
  let l := unstr (map upperChar (str level)) in
  if bool_decide (l = "DEBUG") then DEBUG
  else if bool_decide (l = "INFO") then INFO
  else if bool_decide (l = "WARN") then WARN
  else if bool_decide (l = "ERROR") then ERROR
  else if bool_decide (l = "FATAL") then FATAL
  else INFO.

(** [device.LogLevelSilent], [LogLevelError], [LogLevelVerbose] *)
Inductive wgLogLevel : Type := LogLevelSilent | LogLevelError | LogLevelVerbose.

Definition MapToWireGuardLogLevel (level : LogLevel) : wgLogLevel :=
  match level with
  | DEBUG => LogLevelVerbose
  | WARN => LogLevelError
  | ERROR | FATAL => LogLevelSilent
  | INFO => LogLevelSilent
  end.

(** ** A free UDP port *)

(** The exchange of two elements of a slice. *)
Definition swap (i j : nat) (l : list Z) : list Z :=
  match l !! i, l !! j with
  | Some x, Some y => <[j := x]> (<[i := y]> l)
  | _, _ => l
  end.

(** The shuffle: [i] from the last index down to one; [rnd n] is what
    [rand.IntN(n)] returned. *)
Fixpoint shuffle (rnd : nat → nat) (i : nat) (l : list Z) : list Z :=
  match i with
  | O => l
  | S i' => shuffle rnd i' (swap i (rnd (S i)) l)
  end.

(** The ports in the order they are tried: none for an impossible range. *)
Definition portCandidates (rnd : nat → nat) (minPort maxPort : Z) : list Z :=
  if maxPort <? minPort then []
  else
    let adjustedMaxPort := wrap16 (maxPort - 1) in
    if adjustedMaxPort <? minPort then []
    else
      let n := Z.to_nat (wrap16 (wrap16 (adjustedMaxPort - minPort) + 1)) in
      let portRange := map (λ i, wrap16 (minPort + Z.of_nat i)) (seq 0 n) in
      shuffle rnd (n - 1) portRange.

(** [canListen] tells whether the port can be bound on 127.0.0.1; the socket
    is closed again. *)
Definition FindAvailableUDPPort (rnd : nat → nat) (canListen : Z → bool) (minPort maxPort : Z) : option Z :=
  find canListen (portCandidates rnd minPort maxPort).

(** ** Header fields *)

(** Indexing panics outside the packet. *)
Definition GetProtocol (packet : list Z) : go (option Z) :=
  if Nat.ltb (length packet) 20 then Ret None
  else
    b0 ← or_panic (packet !! 0%nat);
    let version := Z.shiftr b0 4 in
    if version =? 4 then p ← or_panic (packet !! 9%nat); Ret (Some p)
    else if version =? 6 then
      if Nat.ltb (length packet) 40 then Ret None else p ← or_panic (packet !! 6%nat); Ret (Some p)
    else Ret None.

(** The big-endian word at an offset. *)
Definition uint16_at (packet : list Z) (off : nat) : go Z :=
  hi ← or_panic (packet !! off); lo ← or_panic (packet !! S off); Ret (hi * 256 + lo).

Definition GetDestPort (packet : list Z) : go (option Z) :=
  if Nat.ltb (length packet) 20 then Ret None
  else
    b0 ← or_panic (packet !! 0%nat);
    let version := Z.shiftr b0 4 in
    if version =? 4 then
      let headerLen := Z.to_nat (Z.land b0 15 * 4) in
      if Nat.ltb (length packet) (headerLen + 4) then Ret None
      else port ← uint16_at packet (headerLen + 2); Ret (Some port)
    else if version =? 6 then
      let headerLen := 40%nat in
      if Nat.ltb (length packet) (headerLen + 4) then Ret None
      else port ← uint16_at packet (headerLen + 2); Ret (Some port)
    else Ret None.

(** ** The texts of addresses *)

Lemma has_false c s : Forall (λ d, code d ≠ code c) s → has c s = false.
Proof.
  induction 1 as [|d s Hd _ IH]; [done|]. rewrite has_cons, IH, orb_false_r.
  destruct (Ascii.eqb c d) eqn:E; [|done]. apply Ascii.eqb_eq in E. by subst.
Qed.

(** The characters of an address without a zone: up to the colon and the
    lower-case letters. *)
Definition ipChar (c : ascii) : Prop := 0 <= code c <= 58 ∨ 97 <= code c <= 102.

Lemma hexDigit_ipChar x : 0 <= x < 16 → ipChar (hexDigit x).
Proof.
  intros Hx. unfold hexDigit, ipChar. destruct (Z.ltb_spec x 10); rewrite code_ch by lia; lia.
Qed.

Lemma appendDecimal_ipChar x : 0 <= x < 256 → Forall (λ c, ipChar c ∧ c ≠ c_colon) (appendDecimal x).
Proof.
  intros Hx.
  assert (∀ y, 0 <= y < 10 → ipChar (ch (48 + y)) ∧ ch (48 + y) ≠ c_colon) as H.
  { intros y Hy. assert (code (ch (48 + y)) = 48 + y) as E by (apply code_ch; lia). split; [left; lia|].
    intros Hc. rewrite Hc in E. change (code c_colon) with 58 in E. lia. }
  unfold appendDecimal. rewrite !Forall_app, !Forall_singleton. split_and!; repeat case_match; try exact (List.Forall_nil _);
    rewrite ?Forall_singleton; try apply H; try (apply Z.mod_pos_bound; lia); try done.
  split; [apply Z.div_pos; lia|apply Z.div_lt_upper_bound; lia].
Qed.

Lemma land15 x : 0 <= Z.land x 15 < 16.
Proof. change 15 with (Z.ones 4). rewrite Z.land_ones by lia. by apply Z.mod_pos_bound. Qed.

Lemma appendHex_ipChar ip i : Forall ipChar (appendHex (v6u16 ip i)).
Proof.
  assert (0 <= v6u16 ip i < 65536) as Hx.
  { unfold v6u16. change 65535 with (Z.ones 16). rewrite Z.land_ones by lia. by apply Z.mod_pos_bound. }
  unfold appendHex. rewrite !Forall_app, !Forall_singleton. split_and!; repeat case_match; try exact (List.Forall_nil _);
    rewrite ?Forall_singleton; apply hexDigit_ipChar; try apply land15.
  rewrite Z.shiftr_div_pow2 by lia. split; [apply Z.div_pos; lia|apply Z.div_lt_upper_bound; lia].
Qed.

Lemma groups6_ipChar fuel ip zs ze i : Forall ipChar (groups6 fuel ip zs ze i).
Proof.
  assert (ipChar c_colon) as Hc by (left; change (code c_colon) with 58; lia).
  revert i. induction fuel as [|f IH]; intros i; simpl; [done|].
  repeat case_match; repeat (apply Forall_cons; split; [done|]); rewrite ?Forall_app; auto using appendHex_ipChar.
Qed.

Definition colons (s : list ascii) : nat := length (filter (λ c, c = c_colon) s).

Lemma colons_app s t : colons (s ++ t) = (colons s + colons t)%nat.
Proof. unfold colons. by rewrite filter_app, length_app. Qed.

Lemma colons_cons s : colons (c_colon :: s) = S (colons s).
Proof. done. Qed.

Lemma colons_has s : has c_colon s = false → colons s = 0%nat.
Proof.
  induction s as [|c s IH]; [done|]. rewrite has_cons. intros [H1 H2]%orb_false_iff.
  unfold colons. rewrite filter_cons_False; [by apply IH|]. intros ->. by rewrite Ascii.eqb_refl in H1.
Qed.

(** The groups of an IPv6 address are separated by at least two colons. *)
Lemma groups6_colons fuel ip zs ze : (3 <= fuel)%nat → (2 <= colons (groups6 fuel ip zs ze 0))%nat.
Proof.
  intros Hf. destruct fuel as [|[|[|f]]]; [lia..|].
  assert (∀ g i, (0 < i < 8)%nat → (1 <= colons (groups6 (S g) ip zs ze i))%nat) as H1.
  { intros g i Hi. cbn [groups6]. destruct (Nat.leb_spec 8 i); [lia|].
    destruct (Nat.eqb i zs); [rewrite !colons_cons; lia|].
    destruct (Nat.ltb_spec 0 i); [|lia]. rewrite colons_app, colons_cons. lia. }
  cbn [groups6]. change (Nat.leb 8 0) with false. destruct (Nat.eqb 0 zs); [rewrite !colons_cons; lia|].
  change (Nat.ltb 0 0) with false. cbn [app]. change (Nat.leb 8 1) with false. rewrite colons_app.
  destruct (Nat.eqb 1 zs); [rewrite !colons_cons; lia|]. change (Nat.ltb 0 1) with true.
  cbn [app]. rewrite colons_cons, colons_app. pose proof (H1 f 2%nat ltac:(lia)). cbn [groups6] in *. lia.
Qed.

Lemma zoneless_cases a : zoneless a = true → (∃ ip, Unmap a = Addr4 ip) ∨ (∃ ip, Unmap a = Addr6 ip "" ∧ Is4In6 (Addr6 ip "") = false).
Proof.
  destruct a as [|ip|ip z]; [done|by left; eexists|]. intros ->%bool_decide_eq_true. unfold Unmap.
  destruct (Is4In6 (Addr6 ip "")) eqn:E; [left; by eexists|right; by exists ip].
Qed.

Lemma string4_chars ip : Forall (λ c, ipChar c ∧ c ≠ c_colon) (string4 ip).
Proof.
  assert (ipChar c_dot) as Hd by (left; change (code c_dot) with 46; lia).
  unfold string4. repeat (rewrite Forall_app || rewrite Forall_cons). split_and!; try done; apply appendDecimal_ipChar, v4_range.
Qed.

(** Such a text holds no bracket, and never reads as a host with a port. *)
Lemma ipString_text a : zoneless a = true → no_brackets (str (ipString a)) ∧ SplitHostPort (ipString a) = None.
Proof.
  intros Hz. unfold ipString, AddrString, SplitHostPort. rewrite str_unstr.
  assert (∀ s, Forall ipChar s → no_brackets s) as Hnb.
  { intros s Hs. split; apply has_false; (eapply Forall_impl; [exact Hs|]); intros c [?|?];
      [change (code c_open) with 91|change (code c_open) with 91|change (code c_close) with 93|change (code c_close) with 93]; lia. }
  destruct (zoneless_cases a Hz) as [[ip ->]|(ip & -> & E)]; cbn [addr_chars].
  - pose proof (string4_chars ip) as H4. split; [apply Hnb; eapply Forall_impl; [exact H4|]; by intros c [? ?]|].
    unfold splitHostPort. destruct (rcut c_colon (string4 ip)) as [[b q]|] eqn:Er; [|done]. exfalso.
    apply rcut_Some in Er as [Er _]. rewrite Er, Forall_app, Forall_cons in H4. naive_solver.
  - rewrite E. unfold string6. destruct (zero_span ip) as [zs ze]. rewrite bool_decide_true by done. rewrite app_nil_r.
    pose proof (groups6_ipChar 9 ip zs ze 0) as Hc. pose proof (groups6_colons 9 ip zs ze ltac:(lia)) as H2.
    generalize dependent (groups6 9 ip zs ze 0). intros s Hc H2. destruct (Hnb s Hc) as [Ho Hk]. split; [done|].
    unfold splitHostPort. destruct (rcut c_colon s) as [[b q]|] eqn:Er; [|done]. cbn [mbind option_bind].
    apply rcut_Some in Er as [Er Hq]. destruct s as [|c s]; [done|].
    destruct (Ascii.eqb c c_open) eqn:Eo.
    { rewrite has_cons, Ascii.eqb_sym, Eo in Ho. done. }
    destruct (has c_colon b) eqn:Hb; [done|]. exfalso.
    rewrite Er, colons_app, colons_cons, (colons_has b Hb), (colons_has q Hq) in H2. lia.
Qed.

Lemma ParseIP_zoneless s a : ParseIP s = Some a → zoneless a = true.
Proof.
  unfold ParseIP, ParseAddr. destruct (parseAddr (str s)) as [r|] eqn:E; [|done].
  pose proof (parseAddr_valid _ _ E) as Hv. destruct r as [|ip|ip z]; [done|by intros [= <-]|].
  case_bool_decide as Hz; [|done]. intros [= <-]. by apply bool_decide_eq_true.
Qed.

(** ** Properties *)

Lemma hostAndPort_plain d h p : hostAndPort d = (h, p) → p ≠ ""%string → plain (str p).
Proof.
  unfold hostAndPort. destruct (SplitHostPort d) as [[h' p']|] eqn:E; intros [= <- <-] Hp; [|done].
  by apply SplitHostPort_parts in E as [_ ?].
Qed.

(** The address that is chosen: IPv4 when there is one. *)
Lemma chooseIP_spec ips t :
  chooseIP ips = Some t →
  ∃ ip, ip ∈ ips ∧ t = ipString ip ∧ (isTo4 ip = false → ∀ ip', ip' ∈ ips → isTo4 ip' = false).
Proof.
  unfold chooseIP. destruct ips as [|ip0 r] eqn:E; [done|]. rewrite <- E. intros [= <-].
  destruct (find isTo4 ips) as [ip|] eqn:Ef; simpl.
  - apply find_some in Ef as [Hin H4]. exists ip. split_and!; [by apply list_elem_of_In|done|]. by rewrite H4.
  - exists ip0. split_and!; [rewrite E; left|done|]. intros _ ip' Hin. eapply find_none; [exact Ef|]. by apply list_elem_of_In.
Qed.

Section ResolveFacts.
Context `{DNSLaws}.

(** The lookup a list of servers stands for. *)
Definition asked (publicDNS : list string) : string → option (list Addr) :=
  match publicDNS with [] => lookupIP | _ => lookupUpstream lookupVia publicDNS end.

Lemma asked_zoneless publicDNS h ips : asked publicDNS h = Some ips → Forall (λ a, zoneless a = true) ips.
Proof.
  unfold asked. destruct publicDNS as [|s r]; [apply lookupIP_zoneless|]. generalize (s :: r) as l.
  induction l as [|s' l IH]; simpl; [done|]. destruct (lookupVia (dnsAddr s') h) eqn:E; [|done].
  intros [= <-]. by eapply lookupVia_zoneless.
Qed.

Lemma resolveVia_upstream publicDNS endpoint : resolveVia publicDNS endpoint = ResolveDomainUpstream endpoint publicDNS.
Proof. by destruct publicDNS. Qed.

(** A name that resolves gives an address as text, with the port of the name
    when it had one.  The address is the one the name spells, or one that the
    lookup returned: an IPv4 address unless there was none. *)
Lemma resolved_text (domain : string) (publicDNS : list string) (r host port : string) :
  hostAndPort (cleanDomain domain) = (host, port) → ResolveDomainUpstream domain publicDNS = Some r →
  ∃ ip, zoneless ip = true ∧
    (if bool_decide (port = "") then r = ipString ip ∧ SplitHostPort r = None else SplitHostPort r = Some (ipString ip, port)) ∧
    (ParseIP (cleanHost host) = Some ip ∨
     ∃ ips, asked publicDNS host = Some ips ∧ ip ∈ ips ∧ (isTo4 ip = false → ∀ ip', ip' ∈ ips → isTo4 ip' = false)).
Proof.
  intros Hd. unfold ResolveDomainUpstream, resolveWith. rewrite Hd. fold (asked publicDNS).
  assert (∀ ip, zoneless ip = true → r = withPort (ipString ip) port →
    if bool_decide (port = "") then r = ipString ip ∧ SplitHostPort r = None else SplitHostPort r = Some (ipString ip, port)) as Hport.
  { intros ip Hz ->. destruct (ipString_text ip Hz) as [Hb Hs]. unfold withPort.
    case_bool_decide as Hp; [done|]. apply SplitHostPort_Join; [done|]. by eapply hostAndPort_plain. }
  destruct (ParseIP (cleanHost host)) as [ip|] eqn:Ep.
  - intros [= <-]. exists ip. pose proof (ParseIP_zoneless _ _ Ep). split_and!; [done|by apply Hport|by left].
  - intros (ips & Hips & (t & Ht & [= <-])%bind_Some)%bind_Some. destruct (chooseIP_spec _ _ Ht) as (ip & Hin & -> & H4).
    pose proof (asked_zoneless _ _ _ Hips) as Hz. rewrite Forall_forall in Hz. exists ip.
    split_and!; [by apply Hz|by apply Hport; [apply Hz|]|]. right. by exists ips.
Qed.

End ResolveFacts.

Lemma swap_perm i j l : swap i j l ≡ₚ l.
Proof.
  unfold swap. destruct (l !! i) eqn:Hi; [|done]. destruct (l !! j) eqn:Hj; [|done]. by apply Permutation_insert_swap.
Qed.

Lemma shuffle_perm rnd i l : shuffle rnd i l ≡ₚ l.
Proof. revert l. induction i as [|i IH]; intros l; simpl; [done|]. by rewrite IH, swap_perm. Qed.

(** The candidates are the ports from the lowest up to, and without, the
    highest; the sixteen-bit arithmetic wraps only for the empty range 0-0. *)
Lemma portCandidates_elem rnd mn mx p :
  0 <= mn <= 65535 → 0 <= mx <= 65535 → p ∈ portCandidates rnd mn mx ↔ mn <= p < mx.
Proof.
  intros Hn Hx. unfold portCandidates. destruct (Z.ltb_spec mx mn); [rewrite elem_of_nil; lia|].
  destruct (Z.ltb_spec (wrap16 (mx - 1)) mn) as [Ha|Ha]; unfold wrap16 in *.
  { rewrite elem_of_nil. destruct (decide (mx = 0)) as [->|]; [lia|]. rewrite Z.mod_small in Ha by lia. lia. }
  rewrite shuffle_perm. destruct (decide (mx = 0)) as [->|Hm].
  { assert (mn = 0) as -> by lia. vm_compute (Z.to_nat _). simpl. rewrite elem_of_nil. lia. }
  rewrite (Z.mod_small (mx - 1)) in * by lia.
  rewrite (Z.mod_small (mx - 1 - mn)), (Z.mod_small (mx - 1 - mn + 1)) by lia.
  rewrite list_elem_of_fmap. setoid_rewrite elem_of_seq. split.
  - intros (i & -> & Hi). rewrite Z.mod_small by lia. lia.
  - intros Hp. exists (Z.to_nat (p - mn)). rewrite Z.mod_small by lia. lia.
Qed.

(** A port that is returned lies in the range with the one
    after it and could be bound; when none is returned, no port of the range
    but the last could.  The shuffle decides only which one is taken. *)
Theorem free_port_exact (rnd : nat → nat) (canListen : Z → bool) (minPort maxPort : Z) :
  0 <= minPort <= 65535 → 0 <= maxPort <= 65535 →
  match FindAvailableUDPPort rnd canListen minPort maxPort with
  | Some p => minPort <= p < maxPort ∧ canListen p = true
  | None => ∀ p, minPort <= p < maxPort → canListen p = false
  end.
Proof.
  intros Hn Hx. unfold FindAvailableUDPPort. destruct (find canListen _) as [p|] eqn:Ef.
  - apply find_some in Ef as [Hin Hc]. apply list_elem_of_In in Hin. by rewrite portCandidates_elem in Hin.
  - intros p Hp. eapply find_none; [exact Ef|]. apply list_elem_of_In. by apply portCandidates_elem.
Qed.

(** The port after the returned one may well be taken. *)
Theorem next_port_unchecked (rnd : nat → nat) (minPort maxPort : Z) :
  0 <= minPort < maxPort → maxPort <= 65535 →
  ∃ canListen, FindAvailableUDPPort rnd canListen minPort maxPort = Some minPort ∧ canListen (minPort + 1) = false.
Proof.
  intros Hn Hx. exists (λ p, p =? minPort). split; [|apply Z.eqb_neq; lia].
  unfold FindAvailableUDPPort. destruct (find _ _) as [p|] eqn:Ef.
  - apply find_some in Ef as [_ Hc%Z.eqb_eq]. by subst.
  - assert ((minPort =? minPort) = false) as E; [|by rewrite Z.eqb_refl in E].
    apply (find_none _ _ Ef). apply list_elem_of_In, portCandidates_elem; lia.
Qed.

Lemma be_get_1 b i x : b !! i = Some x → be_get b i 1 = x.
Proof. intros H. unfold be_get. by rewrite (drop_S _ _ _ H). Qed.

Lemma uint16_at_spec b i : (i + 2 <= length b)%nat → uint16_at b i = Ret (be_get b i 2).
Proof.
  intros Hl. destruct (lookup_lt_is_Some_2 b i ltac:(lia)) as [x Hx].
  destruct (lookup_lt_is_Some_2 b (S i) ltac:(lia)) as [y Hy].
  unfold uint16_at, be_get. rewrite Hx, Hy, (drop_S _ _ _ Hx), (drop_S _ _ _ Hy). done.
Qed.

(** The header length of the version: the IHL field, or forty bytes. *)
Definition headerLen (packet : list Z) : nat :=
  if Z.shiftr (be_get packet 0 1) 4 =? 4 then Z.to_nat (Z.land (be_get packet 0 1) 15 * 4) else 40.

(** The two header readers never index outside the packet.
    They return the protocol field of the version and the second word after
    the header, as far as the packet reaches. *)
Theorem header_fields (packet : list Z) :
  GetProtocol packet = Ret
    (if Nat.ltb (length packet) 20 then None
     else if Z.shiftr (be_get packet 0 1) 4 =? 4 then Some (be_get packet 9 1)
     else if (Z.shiftr (be_get packet 0 1) 4 =? 6) && Nat.leb 40 (length packet) then Some (be_get packet 6 1) else None) ∧
  GetDestPort packet = Ret
    (if Nat.ltb (length packet) 20 then None
     else if ((Z.shiftr (be_get packet 0 1) 4 =? 4) || (Z.shiftr (be_get packet 0 1) 4 =? 6)) && Nat.leb (headerLen packet + 4) (length packet)
     then Some (be_get packet (headerLen packet + 2) 2) else None).
Proof.
  unfold GetProtocol, GetDestPort, headerLen. destruct (Nat.ltb_spec (length packet) 20) as [Hl|Hl]; [done|].
  destruct (lookup_lt_is_Some_2 packet 0 ltac:(lia)) as [b0 H0]. destruct (lookup_lt_is_Some_2 packet 9 ltac:(lia)) as [b9 H9].
  destruct (lookup_lt_is_Some_2 packet 6 ltac:(lia)) as [b6 H6].
  rewrite (be_get_1 _ _ _ H0), (be_get_1 _ _ _ H9), (be_get_1 _ _ _ H6), H0, H9, H6. cbn [or_panic mbind go_bind].
  destruct (Z.shiftr b0 4 =? 4) eqn:E4; cbn [orb andb]; [|destruct (Z.shiftr b0 4 =? 6) eqn:E6; cbn [orb andb]].
  - split; [done|]. rewrite Nat.leb_antisym. destruct (Nat.ltb_spec (length packet) (Z.to_nat (Z.land b0 15 * 4) + 4)); [done|].
    by rewrite uint16_at_spec by lia.
  - rewrite !Nat.leb_antisym. destruct (Nat.ltb_spec (length packet) 40).
    + rewrite (proj2 (Nat.ltb_lt (length packet) (40 + 4))) by lia. done.
    + split; [done|]. destruct (Nat.ltb_spec (length packet) (40 + 4)); [done|]. by rewrite uint16_at_spec by lia.
  - done.
Qed.

Module UtilExamples.

(** One name with both families, one upstream server that answers. *)
Definition dns1 : DNS := {|
  lookupIP := λ h, if bool_decide (h = "gw.example"%string) then Some [Addr6 1 ""; Addr4 167772161] else None;
  lookupVia := λ s h, if bool_decide (s = "9.9.9.9:53"%string) then Some [Addr6 1 ""] else None |}.

#[local] Instance dns1_laws : @DNSLaws dns1.
Proof.
  split; intros *; cbn [lookupIP lookupVia dns1]; case_bool_decide; [|done|..|done]; intros E; injection E as <-; repeat constructor.
Qed.

Example resolutions :
  @ResolveDomain dns1 " https://gw.example:443/" = Some "10.0.0.1:443"%string ∧
  @ResolveDomain dns1 "http://[fd00::1]:80" = Some "[fd00::1]:80"%string ∧
  @ResolveDomain dns1 "[fd00::1]" = Some "fd00::1"%string ∧
  @ResolveDomain dns1 "::ffff:10.0.0.1" = Some "10.0.0.1"%string ∧
  @ResolveDomain dns1 "gw.example//" = None ∧
  @ResolveDomainUpstream dns1 "gw.example:51820" ["8.8.8.8"; "9.9.9.9"]%string = Some "[::1]:51820"%string.
Proof. vm_compute. auto 10. Qed.

Example levels :
  ParseLogLevel "debug" = DEBUG ∧ ParseLogLevel "verbose" = INFO ∧ MapToWireGuardLogLevel (ParseLogLevel "Warn") = LogLevelError ∧
  MapToWireGuardLogLevel (ParseLogLevel "error") = LogLevelSilent.
Proof. vm_compute. auto. Qed.

Example ports :
  FindAvailableUDPPort (λ n, 0%nat) (λ p, Z.even p) 7 12 = Some 8 ∧ FindAvailableUDPPort (λ n, 0%nat) (λ _, true) 7 7 = None ∧
  FindAvailableUDPPort (λ n, 0%nat) (λ _, true) 0 0 = None.
Proof. vm_compute. auto. Qed.

(** A header length below twenty is taken at its word: with IHL zero the
    "destination port" is the total length of the packet. *)
Example short_ihl : GetDestPort (64 :: 0 :: 5 :: 220 :: replicate 16 0) = Ret (Some 1500).
Proof. vm_compute. reflexivity. Qed.

Lemma free_port_exact_witness : 7 <= 8 < 12 ∧ Z.even 8 = true.
Proof. apply (free_port_exact (λ n, 0%nat) Z.even 7 12); lia. Defined.

Lemma next_port_unchecked_witness :
  ∃ canListen, FindAvailableUDPPort (λ _, 0%nat) canListen 49152 65535 = Some 49152 ∧ canListen (49152 + 1) = false.
Proof. apply next_port_unchecked; lia. Defined.

End UtilExamples.
