(* ===== verification/Clients.v ===== *)
(** * Client access: targets, certificates and peers ([clients/clients.go])

    The part of [WireGuardService] that turns the server's messages into state
    of the data path: targets become access rules of the proxy handler
    ([syncTargets], [ensureTargets] and the add, remove and update handlers),
    shared certificates are looked up while rules are built, and peers become
    commands on the WireGuard device's text interface ([syncPeers],
    [ensureWireguardPeers] and the peer handlers).

    The device ([IpcGet], [IpcSet] of wireguard-go) and the key type of
    [wgtypes] are classes with the behaviour their documentation states; the
    operating system's part in creating the interface is an outcome record.
    Messages are the decoded values; a failed decoding changes nothing. *)

From S2P Require Import Prelude Netip NetipText Bart SubnetLookup Packet ProxyHandler Keys.
From Stdlib Require Import Ascii.

(** ** Data *)

Record Target : Type := mkTarget {
  tg_SourcePrefix : string;
  tg_SourcePrefixes : list string;
  tg_DestPrefix : string;
  tg_RewriteTo : string;
  tg_DisableIcmp : bool;
  tg_PortRange : list PortRange;
  tg_ResourceId : Z;
  tg_Protocol : string;
  tg_HTTPTargets : list HTTPTarget;
  tg_TLSCert : string;
  tg_TLSKey : string;
  tg_TLSCertID : string;
}.

Record CertData : Type := mkCertData { cd_ID : string; cd_Cert : string; cd_Key : string }.
Record CertPair : Type := mkCertPair { cp_Cert : string; cp_Key : string }.

Record Peer : Type := mkPeer {
  PublicKey : string;
  AllowedIPs : list string;
  Endpoint : string;
}.

Record WgConfig : Type := mkWgConfig {
  wc_IpAddress : string;
  wc_Peers : list Peer;
  wc_Targets : list Target;
  wc_Certs : list CertData;
  wc_ChainId : string;
}.

(** ** Certificates.  A nil map reads as the empty one. *)

Definition storeCert (m : gmap string CertPair) (c : CertData) : gmap string CertPair :=
  <[cd_ID c := mkCertPair (cd_Cert c) (cd_Key c)]> m.

Definition SetCerts (cs : list CertData) : gmap string CertPair := foldl storeCert ∅ cs.

Definition AddCerts (certs : gmap string CertPair) (cs : list CertData) : gmap string CertPair :=
  if Nat.eqb (length cs) 0 then certs else foldl storeCert certs cs.

Definition RemoveCerts (certs : gmap string CertPair) (ids : list string) : gmap string CertPair :=
  if Nat.eqb (length ids) 0 then certs else foldl (λ m id, delete id m) certs ids.

Definition resolveTLS (certs : gmap string CertPair) (target : Target) : string * string :=
  if bool_decide (tg_TLSCertID target = "") then (tg_TLSCert target, tg_TLSKey target)
  else match certs !! tg_TLSCertID target with
       | None => (tg_TLSCert target, tg_TLSKey target)
       | Some cert => (cp_Cert cert, cp_Key cert)
       end.

(** ** Targets *)

Definition resolveSourcePrefixes (target : Target) : list string :=
  if Nat.ltb 0 (length (tg_SourcePrefixes target)) then tg_SourcePrefixes target
  else if bool_decide (tg_SourcePrefix target = "") then [] else [tg_SourcePrefix target].

(** The rule literal, the same in all four places that build one. *)
Definition targetRule (certs : gmap string CertPair) (target : Target) (sourcePrefix destPrefix : Prefix)
    : SubnetRule :=
  let '(tlsCert, tlsKey) := resolveTLS certs target in
  mkSubnetRule sourcePrefix destPrefix (tg_DisableIcmp target) (tg_RewriteTo target)
    (map (λ pr, mkPortRange (pr_Min pr) (pr_Max pr) (pr_Protocol pr)) (tg_PortRange target))
    (tg_ResourceId target) (tg_Protocol target) (tg_HTTPTargets target) tlsCert tlsKey.

(** ** The device and its keys *)

(** [wgtypes.ParseKey] and [Key.String]: a key is its 32 bytes, its text is
    their base64 encoding. *)
Class WgKeys : Type := {
  ParseKey : string → option (list Z);
  KeyString : list Z → string;
  ParseKey_bytes : ∀ s k, ParseKey s = Some k → length k = 32%nat ∧ Forall byte_range k;
  KeyString_b64 : ∀ k, length k = 32%nat → Forall byte_range k → KeyString k = unstr (b64Encode k);
}.

(** wireguard-go's device: the text configuration protocol and [Up]. [None]
    and [false] are errors. *)
Class Device (D : Type) : Type := {
  NewDevice : D;
  IpcGet : D → option string;
  IpcSet : string → D → D * bool;
  Up : D → D * bool;
}.

Definition nl : ascii := ch 10.
Definition lines (s : string) : list (list ascii) := splitOn nl (str s).

(** A setting of a peer, as opposed to a line that starts another section or
    changes what the command does. *)
Definition is_setting (l : list ascii) : Prop :=
  (∃ v, l = str "allowed_ip=" ++ v) ∨ (∃ v, l = str "endpoint=" ++ v) ∨
  l = str "persistent_keepalive_interval=25".

(** What the protocol's documentation says of the peers a device has:
    [dev_keys] are their keys in hexadecimal, [IpcGet] has one [public_key=]
    line for each, a successful command for a key with [remove=true] removes
    that peer, and one with settings only creates the peer if it is absent. *)
Class DeviceLaws (D : Type) `{!Device D} : Type := {
  dev_keys : D → gset string;
  IpcGet_keys d s k : IpcGet d = Some s → k ∈ dev_keys d ↔ str "public_key=" ++ str k ∈ lines s;
  IpcSet_remove d d' cmd k :
    lines cmd = [str "public_key=" ++ str k; str "remove=true"] →
    IpcSet cmd d = (d', true) → dev_keys d' = dev_keys d ∖ {[k]};
  IpcSet_add d d' cmd k ls :
    lines cmd = (str "public_key=" ++ str k) :: ls → Forall is_setting ls →
    IpcSet cmd d = (d', true) → dev_keys d' = dev_keys d ∪ {[k]};
}.

Section service.
Context {Table : Type → Type} `{!BartTable Table} {D : Type} `{!Device D, !WgKeys, !MapRange}.

Record WireGuardService : Type := mkService {
  svc_key : list Z;  (* wgtypes.Key *)
  svc_native : bool;  (* useNativeInterface *)
  svc_config : WgConfig;
  svc_chain : string;  (* pendingConfigChainId *)
  svc_getConfig : bool;  (* stopGetConfig != nil: a request is being repeated *)
  svc_certs : gmap string CertPair;
  svc_tnet : option (ProxyHandler Table);  (* the proxy handler of tnet, nil in native mode *)
  svc_device : option D;
  svc_TunnelIP : string;
  svc_blocked : bool;
  svc_creds : bool;  (* credStore != nil *)
  svc_tester : bool;  (* wgTesterServer != nil *)
  svc_ssh : bool;  (* sshServer != nil *)
  svc_punches : nat;  (* calls of TriggerHolePunch *)
}.

Definition set_config (c : WgConfig) (s : WireGuardService) : WireGuardService :=
  mkService (svc_key s) (svc_native s) c (svc_chain s) (svc_getConfig s) (svc_certs s) (svc_tnet s)
    (svc_device s) (svc_TunnelIP s) (svc_blocked s) (svc_creds s) (svc_tester s) (svc_ssh s)
    (svc_punches s).

Definition set_chain (c : string) (s : WireGuardService) : WireGuardService :=
  mkService (svc_key s) (svc_native s) (svc_config s) c (svc_getConfig s) (svc_certs s) (svc_tnet s)
    (svc_device s) (svc_TunnelIP s) (svc_blocked s) (svc_creds s) (svc_tester s) (svc_ssh s)
    (svc_punches s).

Definition stop_getConfig  (s : WireGuardService) : WireGuardService :=
  mkService (svc_key s) (svc_native s) (svc_config s) (svc_chain s) false (svc_certs s) (svc_tnet s)
    (svc_device s) (svc_TunnelIP s) (svc_blocked s) (svc_creds s) (svc_tester s) (svc_ssh s)
    (svc_punches s).

Definition set_certs (c : gmap string CertPair) (s : WireGuardService) : WireGuardService :=
  mkService (svc_key s) (svc_native s) (svc_config s) (svc_chain s) (svc_getConfig s) c (svc_tnet s)
    (svc_device s) (svc_TunnelIP s) (svc_blocked s) (svc_creds s) (svc_tester s) (svc_ssh s)
    (svc_punches s).

Definition set_tnet (t : option (ProxyHandler Table)) (s : WireGuardService) : WireGuardService :=
  mkService (svc_key s) (svc_native s) (svc_config s) (svc_chain s) (svc_getConfig s) (svc_certs s) t
    (svc_device s) (svc_TunnelIP s) (svc_blocked s) (svc_creds s) (svc_tester s) (svc_ssh s)
    (svc_punches s).

Definition set_device (d : option D) (s : WireGuardService) : WireGuardService :=
  mkService (svc_key s) (svc_native s) (svc_config s) (svc_chain s) (svc_getConfig s) (svc_certs s)
    (svc_tnet s) d (svc_TunnelIP s) (svc_blocked s) (svc_creds s) (svc_tester s) (svc_ssh s)
    (svc_punches s).

Definition set_tunnelIP (ip : string) (s : WireGuardService) : WireGuardService :=
  mkService (svc_key s) (svc_native s) (svc_config s) (svc_chain s) (svc_getConfig s) (svc_certs s)
    (svc_tnet s) (svc_device s) ip (svc_blocked s) (svc_creds s) (svc_tester s) (svc_ssh s)
    (svc_punches s).

Definition set_servers (t h : bool) (s : WireGuardService) : WireGuardService :=
  mkService (svc_key s) (svc_native s) (svc_config s) (svc_chain s) (svc_getConfig s) (svc_certs s)
    (svc_tnet s) (svc_device s) (svc_TunnelIP s) (svc_blocked s) (svc_creds s) t h (svc_punches s).

Definition TriggerHolePunch  (s : WireGuardService) : WireGuardService :=
  mkService (svc_key s) (svc_native s) (svc_config s) (svc_chain s) (svc_getConfig s) (svc_certs s)
    (svc_tnet s) (svc_device s) (svc_TunnelIP s) (svc_blocked s) (svc_creds s) (svc_tester s)
    (svc_ssh s) (S (svc_punches s)).

Definition with_tnet (f : ProxyHandler Table → ProxyHandler Table) (s : WireGuardService) : WireGuardService :=
  match svc_tnet s with
  | None => s
  | Some p => set_tnet (Some (f p)) s
  end.

(** ** Targets *)

(** The rules [syncTargets] collects: invalid prefixes are skipped. *)
Definition collectRules (certs : gmap string CertPair) (desired : list Target) : list SubnetRule :=
  foldl (λ rules target,
    match ParsePrefix (tg_DestPrefix target) with
    | None => rules
    | Some destPrefix =>
        foldl (λ rules sp,
          match ParsePrefix sp with
          | None => rules
          | Some sourcePrefix => rules ++ [targetRule certs target sourcePrefix destPrefix]
          end) rules (resolveSourcePrefixes target)
    end) [] desired.

Definition syncTargets (s : WireGuardService) (desired : list Target) : WireGuardService :=
  with_tnet (λ p, ReplaceAllSubnetRules p (collectRules (svc_certs s) desired)) s.

(** The body shared by the add handler and the second loop of the update
    handler: each rule is added as soon as it is built. *)
Definition addTargets (certs : gmap string CertPair) (targets : list Target)
    (p : ProxyHandler Table) : ProxyHandler Table :=
  foldl (λ p target,
    match ParsePrefix (tg_DestPrefix target) with
    | None => p
    | Some destPrefix =>
        foldl (λ p sp,
          match ParsePrefix sp with
          | None => p
          | Some sourcePrefix => AddSubnetRule p (targetRule certs target sourcePrefix destPrefix)
          end) p (resolveSourcePrefixes target)
    end) p targets.

(** The body shared by the remove handler and the first loop of the update
    handler. *)
Definition removeTargets (targets : list Target) (p : ProxyHandler Table) : ProxyHandler Table :=
  foldl (λ p target,
    match ParsePrefix (tg_DestPrefix target) with
    | None => p
    | Some destPrefix =>
        foldl (λ p sp,
          match ParsePrefix sp with
          | None => p
          | Some sourcePrefix => RemoveSubnetRule p sourcePrefix destPrefix
          end) p (resolveSourcePrefixes target)
    end) p targets.

Definition handleAddTarget (s : WireGuardService) (targets : list Target) : WireGuardService :=
  with_tnet (addTargets (svc_certs s) targets) s.

Definition handleRemoveTarget (s : WireGuardService) (targets : list Target) : WireGuardService :=
  with_tnet (removeTargets targets) s.

Definition handleUpdateTarget (s : WireGuardService) (old new : list Target) : WireGuardService :=
  with_tnet (λ p, addTargets (svc_certs s) new (removeTargets old p)) s.

(** [ensureTargets] returns at the first invalid prefix, keeping what it added
    before; [false] is its error. *)
Fixpoint ensureSources (certs : gmap string CertPair) (target : Target) (destPrefix : Prefix)
    (sps : list string) (p : ProxyHandler Table) : ProxyHandler Table * bool :=
  match sps with
  | [] => (p, true)
  | sp :: sps' =>
      match ParsePrefix sp with
      | None => (p, false)
      | Some sourcePrefix =>
          ensureSources certs target destPrefix sps'
            (AddSubnetRule p (targetRule certs target sourcePrefix destPrefix))
      end
  end.

Fixpoint ensureLoop (certs : gmap string CertPair) (targets : list Target) (p : ProxyHandler Table)
    : ProxyHandler Table * bool :=
  match targets with
  | [] => (p, true)
  | target :: targets' =>
      match ParsePrefix (tg_DestPrefix target) with
      | None => (p, false)
      | Some destPrefix =>
          match ensureSources certs target destPrefix (resolveSourcePrefixes target) p with
          | (p', false) => (p', false)
          | (p', true) => ensureLoop certs targets' p'
          end
      end
  end.

Definition ensureTargets (s : WireGuardService) (targets : list Target) : WireGuardService * bool :=
  match svc_tnet s with
  | None => (s, true)
  | Some p =>
      let '(p', ok) := ensureLoop (svc_certs s) targets p in (set_tnet (Some p') s, ok)
  end.

(** ** Peers *)

(** The loop over the lines of [IpcGet]: what follows [public_key=]. *)
Definition peerKeys (cfg : string) : list string :=
  omap (λ line, unstr <$> trimPrefix (str "public_key=") line) (lines cfg).

(** [util.FixKey(pubKey.String())] *)
Definition deviceKey (k : list Z) : go string := FixKey (KeyString k).

Definition NL : string := unstr [nl].

Definition allowedLines (ips : list string) : string :=
  foldr (λ ip acc, NL +:+ "allowed_ip=" +:+ ip +:+ acc) "" ips.

Definition peerConfig (key : string) (peer : Peer) : string :=
  "public_key=" +:+ key +:+ allowedLines (AllowedIPs peer)
  +:+ (if bool_decide (Endpoint peer = "") then "" else NL +:+ "endpoint=" +:+ Endpoint peer)
  +:+ NL +:+ "persistent_keepalive_interval=25".

Definition removeConfig (key : string) : string := "public_key=" +:+ key +:+ NL +:+ "remove=true".

Definition addPeerToDevice (peer : Peer) (d : D) : go (D * bool) :=
  match ParseKey (PublicKey peer) with
  | None => mret (d, false)
  | Some pubKey => key ← deviceKey pubKey; mret (IpcSet (peerConfig key peer) d)
  end.

Definition removePeer (publicKey : string) (d : D) : go (D * bool) :=
  match ParseKey publicKey with
  | None => mret (d, false)
  | Some pubKey => key ← deviceKey pubKey; mret (IpcSet (removeConfig key) d)
  end.

(** [desiredPeerMap] of [syncPeers]. *)
Fixpoint desiredPeerMap (peers : list Peer) (m : gmap string Peer) : go (gmap string Peer) :=
  match peers with
  | [] => mret m
  | peer :: peers' =>
      match ParseKey (PublicKey peer) with
      | None => desiredPeerMap peers' m
      | Some pubKey => key ← deviceKey pubKey; desiredPeerMap peers' (<[key := peer]> m)
      end
  end.

(** The two loops; the second component counts the warnings they log. *)
Fixpoint removeStale (keys : list string) (d : D) (failed : nat) : D * nat :=
  match keys with
  | [] => (d, failed)
  | key :: keys' =>
      let '(d', ok) := IpcSet (removeConfig key) d in
      removeStale keys' d' (if ok then failed else S failed)
  end.

Fixpoint addMissing (peers : list Peer) (d : D) (failed : nat) : go (D * nat) :=
  match peers with
  | [] => mret (d, failed)
  | peer :: peers' =>
      '(d', ok) ← addPeerToDevice peer d;
      addMissing peers' d' (if ok : bool then failed else S failed)
  end.

(** [None] when it returns an error; [Some n] with the number of peers whose
    command failed otherwise. *)
Definition syncPeers (desiredPeers : list Peer) (s : WireGuardService)
    : go (WireGuardService * option nat) :=
  match svc_device s with
  | None => mret (s, None)
  | Some d =>
      match IpcGet d with
      | None => mret (s, None)
      | Some cfg =>
          let currentPeerKeys : gmap string bool :=
            foldl (λ m k, <[k := true]> m) ∅ (peerKeys cfg) in
          desired ← desiredPeerMap desiredPeers ∅;
          let '(d1, f1) :=
            removeStale (filter (λ k, desired !! k = None) (range_map currentPeerKeys).*1) d 0 in
          let missing := filter (λ '(k, _), currentPeerKeys !! k = None) (range_map desired) in
          '(d2, f2) ← addMissing missing.*2 d1 f1;
          mret (set_device (Some d2) s, Some f2)
      end
  end.

Definition Sync (peers : list Peer) (targets : list Target) (s : WireGuardService) : go WireGuardService :=
  '(s1, _) ← syncPeers peers s;
  mret (syncTargets s1 targets).

(** [ensureWireguardPeers] clears the device, then adds until one fails. *)
Fixpoint addUntil (peers : list Peer) (d : D) : go (D * bool) :=
  match peers with
  | [] => mret (d, true)
  | peer :: peers' =>
      '(d', ok) ← addPeerToDevice peer d;
      if ok : bool then addUntil peers' d' else mret (d', false)
  end.

Definition ensureWireguardPeers (peers : list Peer) (s : WireGuardService) : go (WireGuardService * bool) :=
  match svc_device s with
  | None => mret (s, false)
  | Some d =>
      match IpcGet d with
      | None => mret (s, false)
      | Some cfg =>
          '(d', ok) ← addUntil peers (removeStale (peerKeys cfg) d 0).1;
          mret (set_device (Some d') s, ok : bool)
      end
  end.

Definition handleAddPeer (peer : Peer) (s : WireGuardService) : go WireGuardService :=
  match svc_device s with
  | None => mret s
  | Some d => '(d', _) ← addPeerToDevice peer d; mret (set_device (Some d') (TriggerHolePunch s))
  end.

Definition handleRemovePeer (publicKey : string) (s : WireGuardService) : go WireGuardService :=
  match svc_device s with
  | None => mret s
  | Some d => '(d', _) ← removePeer publicKey d; mret (set_device (Some d') s)
  end.

(** [handleUpdatePeer]; [endpointSpecified] says whether the message has an
    endpoint field at all. *)
Definition updateConfig (key : string) (request : Peer) (endpointSpecified : bool) : string :=
  "public_key=" +:+ key +:+ NL +:+ "update_only=true"
  +:+ (if Nat.ltb 0 (length (AllowedIPs request))
       then NL +:+ "replace_allowed_ips=true" +:+ allowedLines (AllowedIPs request) else "")
  +:+ (if endpointSpecified then
         if bool_decide (Endpoint request = "") then NL +:+ "endpoint=0.0.0.0:0"
         else NL +:+ "endpoint=" +:+ Endpoint request
       else "")
  +:+ NL +:+ "persistent_keepalive_interval=25".

Definition handleUpdatePeer (request : Peer) (endpointSpecified : bool) (s : WireGuardService)
    : go WireGuardService :=
  let s := TriggerHolePunch s in
  match ParseKey (PublicKey request) with
  | None => mret s
  | Some pubKey =>
      match svc_device s with
      | None => mret s
      | Some d =>
          key ← deviceKey pubKey;
          mret (set_device (Some (IpcSet (updateConfig key request endpointSpecified) d).1) s)
      end
  end.

(** ** Configuration *)

(** [Prefix.String] of a valid prefix. *)
Definition PrefixString (p : Prefix) : string := AddrString (pfx_addr p) +:+ "/" +:+ itoa (pfx_bits p).

Definition normalizeInterfaceAddress (raw : string) : option (string * Addr) :=
  match ParsePrefix raw with
  | Some prefix => Some (PrefixString prefix, pfx_addr prefix)
  | None =>
      addr ← ParseAddr raw;
      Some (PrefixString (PrefixFrom addr (BitLen addr)), addr)
  end.

(** What the operating system does while the interface is created: whether a
    utun name is found (other systems: true), the TUN device or the netstack
    is created, the UAPI socket is listened on, the address is configured, and
    the SSH server starts. *)
Record ifaceEnv : Type := mkIfaceEnv {
  env_utun : bool; env_tun : bool; env_uapi : bool; env_configure : bool; env_ssh : bool;
}.

(** Configure the private key and bring the new device up. *)
Definition configureDevice (s : WireGuardService) : go (WireGuardService * bool) :=
  key ← deviceKey (svc_key s);
  let '(d1, ok1) := IpcSet ("private_key=" +:+ key) NewDevice in
  if negb ok1 then mret (set_device (Some d1) s, false)
  else let '(d2, ok2) := Up d1 in mret (set_device (Some d2) s, ok2).

(** Both modes; [Panic] is the exit when the UAPI socket cannot be opened. *)
Definition ensureWireguardInterface (env : ifaceEnv) (wgconfig : WgConfig) (s : WireGuardService)
    : go (WireGuardService * bool) :=
  match normalizeInterfaceAddress (wc_IpAddress wgconfig) with
  | None => mret (s, false)
  | Some (_, tunnelIP) =>
      if svc_native s then
        if negb (env_utun env) then mret (s, false)
        else if negb (env_tun env) then mret (s, false)
        else
          let s := set_tnet None (set_tunnelIP (AddrString tunnelIP) s) in
          if negb (env_uapi env) then Panic
          else
            '(s, ok) ← configureDevice s;
            if negb ok then mret (s, false)
            else if negb (env_configure env) then mret (s, false)
            else mret (set_servers true (svc_ssh s) s, true)
      else if negb (env_tun env) then mret (set_tnet None s, false)
      else
        let s := set_tunnelIP (AddrString tunnelIP) (set_tnet (NewProxyHandler true true true) s) in
        '(s, ok) ← configureDevice s;
        if negb ok then mret (s, false)
        else
          let s := set_servers true (svc_ssh s || svc_creds s && env_ssh env) s in
          mret (if svc_blocked s then with_tnet (λ p, SetBlocked p true) s else s, true)
  end.

Definition handleConfig (env : ifaceEnv) (config : WgConfig) (s : WireGuardService) : go WireGuardService :=
  let stale := negb (bool_decide (wc_ChainId config = "")) && negb (bool_decide (wc_ChainId config = svc_chain s)) in
  if stale then mret s
  else
    let s := if bool_decide (wc_ChainId config = "") then s else set_chain "" s in
    let s := stop_getConfig (set_certs (SetCerts (wc_Certs config)) (set_config config s)) in
    '(s, ok) ← ensureWireguardInterface env config s;
    if negb ok then mret s
    else
      '(s, _) ← ensureWireguardPeers (wc_Peers config) s;
      mret (ensureTargets s (wc_Targets config)).1.

(** ** Messages that change the access rules *)

Inductive TargetMsg : Type :=
  | MsgSync (certs : list CertData) (targets : list Target)      (* the newt/sync message *)
  | MsgAdd (targets : list Target)
  | MsgRemove (targets : list Target)
  | MsgUpdate (old new : list Target)
  | MsgAddCerts (certs : list CertData)
  | MsgRemoveCerts (ids : list string).

Definition handleTargetMsg (s : WireGuardService) (m : TargetMsg) : WireGuardService :=
  match m with
  | MsgSync cs ts => syncTargets (set_certs (SetCerts cs) s) ts
  | MsgAdd ts => handleAddTarget s ts
  | MsgRemove ts => handleRemoveTarget s ts
  | MsgUpdate old new => handleUpdateTarget s old new
  | MsgAddCerts cs => set_certs (AddCerts (svc_certs s) cs) s
  | MsgRemoveCerts ids => set_certs (RemoveCerts (svc_certs s) ids) s
  end.

End service.
Arguments WireGuardService Table D : clear implicits.

(** ** Specification of the rule messages

    What a message means for the map from prefix pairs to rules: [targetRules]
    are the rules of the valid prefixes of a target list, in order. *)

Definition targetRules1 (certs : gmap string CertPair) (t : Target) : list SubnetRule :=
  match ParsePrefix (tg_DestPrefix t) with
  | None => []
  | Some d => omap (λ sp, (λ p, targetRule certs t p d) <$> ParsePrefix sp) (resolveSourcePrefixes t)
  end.

Definition targetRules (certs : gmap string CertPair) (ts : list Target) : list SubnetRule :=
  flat_map (targetRules1 certs) ts.

Definition targetPairs (ts : list Target) : list (Prefix * Prefix) := rule_key <$> targetRules ∅ ts.

Definition spec_msg (st : gmap string CertPair * gmap (Prefix * Prefix) SubnetRule) (m : TargetMsg) :=
  let '(certs, rules) := st in
  match m with
  | MsgSync cs ts => (SetCerts cs, foldl spec_add ∅ (targetRules (SetCerts cs) ts))
  | MsgAdd ts => (certs, foldl spec_add rules (targetRules certs ts))
  | MsgRemove ts => (certs, foldl (λ m k, delete k m) rules (targetPairs ts))
  | MsgUpdate old new =>
      (certs, foldl spec_add (foldl (λ m k, delete k m) rules (targetPairs old)) (targetRules certs new))
  | MsgAddCerts cs => (AddCerts certs cs, rules)
  | MsgRemoveCerts ids => (RemoveCerts certs ids, rules)
  end.

(** ** Lemmas: targets *)

Lemma foldl_omap {A B C} (f : A → option B) (g : C → B → C) l c :
  foldl (λ c x, match f x with None => c | Some y => g c y end) c l = foldl g c (omap f l).
Proof. revert c. induction l as [|x l IH]; intros c; [done|]. cbn. by destruct (f x); rewrite IH. Qed.

Lemma foldl_ext_eq {A B} (f g : A → B → A) l a : (∀ a x, f a x = g a x) → foldl f a l = foldl g a l.
Proof. intros Hfg. revert a. induction l as [|x l IH]; intros a; [done|]. cbn. by rewrite Hfg, IH. Qed.

Lemma foldl_flat_map {A B C} (f : A → list B) (g : C → B → C) l c :
  foldl (λ c x, foldl g c (f x)) c l = foldl g c (flat_map f l).
Proof. revert c. induction l as [|x l IH]; intros c; [done|]. cbn. by rewrite IH, foldl_app. Qed.

(** Every nested loop over targets and sources is one loop over the rules. *)
Lemma target_loop {C} certs (g : C → SubnetRule → C) ts c :
  foldl (λ c target,
    match ParsePrefix (tg_DestPrefix target) with
    | None => c
    | Some destPrefix =>
        foldl (λ c sp,
          match ParsePrefix sp with
          | None => c
          | Some sourcePrefix => g c (targetRule certs target sourcePrefix destPrefix)
          end) c (resolveSourcePrefixes target)
    end) c ts = foldl g c (targetRules certs ts).
Proof.
  unfold targetRules. rewrite <- foldl_flat_map. apply foldl_ext_eq. intros a t. unfold targetRules1.
  destruct (ParsePrefix (tg_DestPrefix t)) as [d|]; [|done]. rewrite <- foldl_omap.
  apply foldl_ext_eq. intros b sp. by destruct (ParsePrefix sp).
Qed.

Lemma targetRule_prefixes certs t s d :
  SourcePrefix (targetRule certs t s d) = s ∧ DestPrefix (targetRule certs t s d) = d.
Proof. unfold targetRule. by destruct (resolveTLS certs t). Qed.

Lemma targetRules_valid certs ts : Forall (λ r, rule_valid r = true) (targetRules certs ts).
Proof.
  apply Forall_forall. intros r Hr. apply list_elem_of_In, in_flat_map in Hr as (t & _ & Hr).
  apply list_elem_of_In in Hr. unfold targetRules1 in Hr.
  destruct (ParsePrefix (tg_DestPrefix t)) as [d|] eqn:Ed; [|by apply elem_of_nil in Hr].
  apply list_elem_of_omap in Hr as (sp & _ & Hr). apply fmap_Some in Hr as (p & Ep & ->).
  unfold rule_valid. destruct (targetRule_prefixes certs t p d) as [-> ->].
  by rewrite (ParsePrefix_valid _ _ Ep), (ParsePrefix_valid _ _ Ed).
Qed.

Lemma foldl_snoc_app {A} (l acc : list A) : foldl (λ acc r, acc ++ [r]) acc l = acc ++ l.
Proof. revert acc. induction l as [|x l IH]; intros acc; cbn; [by rewrite app_nil_r|]. by rewrite IH, <- app_assoc. Qed.

Lemma collectRules_eq certs ts : collectRules certs ts = targetRules certs ts.
Proof. unfold collectRules. rewrite (target_loop certs (λ acc r, acc ++ [r])). apply foldl_snoc_app. Qed.

Section target_lemmas.
Context {Table : Type → Type} `{!BartTable Table, !BartLaws Table}.
Implicit Types (p : ProxyHandler Table) (m : gmap (Prefix * Prefix) SubnetRule).

Lemma addTargets_eq certs ts p : addTargets certs ts p = foldl AddSubnetRule p (targetRules certs ts).
Proof. apply target_loop. Qed.

Lemma removeTargets_eq ts p :
  removeTargets ts p = foldl (λ p r, RemoveSubnetRule p (SourcePrefix r) (DestPrefix r)) p (targetRules ∅ ts).
Proof.
  rewrite <- target_loop. apply foldl_ext_eq. intros a t. destruct (ParsePrefix _) as [d|]; [|done].
  apply foldl_ext_eq. intros b sp. destruct (ParsePrefix sp) as [s|]; [|done].
  by destruct (targetRule_prefixes ∅ t s d) as [-> ->].
Qed.

(** An enabled handler whose rule table stands for [m]. *)
Definition ph_repr p m : Prop := ph_enabled p = true ∧ repr (ph_lookup p) m.

Lemma ph_repr_add certs ts p m :
  ph_repr p m → ph_repr (addTargets certs ts p) (foldl spec_add m (targetRules certs ts)).
Proof.
  rewrite addTargets_eq. pose proof (targetRules_valid certs ts) as Hv. revert p m.
  induction Hv as [|r rs Hr _ IH]; intros p m Hp; [done|]. cbn. apply IH. destruct Hp as [He Hp].
  unfold AddSubnetRule. rewrite He. split; [done|]. by apply repr_add.
Qed.

Lemma ph_repr_remove ts p m :
  ph_repr p m → ph_repr (removeTargets ts p) (foldl (λ m k, delete k m) m (targetPairs ts)).
Proof.
  rewrite removeTargets_eq. unfold targetPairs. pose proof (targetRules_valid ∅ ts) as Hv. revert p m.
  induction Hv as [|r rs Hr _ IH]; intros p m Hp; [done|]. cbn. apply IH. destruct Hp as [He Hp].
  unfold RemoveSubnetRule. rewrite He. split; [done|].
  unfold rule_valid in Hr. apply andb_true_iff in Hr as [??]. by apply (repr_remove _ m).
Qed.

Lemma ph_repr_replace certs ts p :
  ph_enabled p = true →
  ph_repr (ReplaceAllSubnetRules p (collectRules certs ts)) (foldl spec_add ∅ (targetRules certs ts)).
Proof.
  intros He. unfold ReplaceAllSubnetRules. rewrite He, collectRules_eq. split; [done|].
  apply repr_replace, targetRules_valid.
Qed.

End target_lemmas.

Section target_messages.
Context {Table : Type → Type} `{!BartTable Table, !BartLaws Table} {D : Type}.
Implicit Types (s : WireGuardService Table D).

(** The service's rules stand for the specification's state. *)
Definition svc_repr s (st : gmap string CertPair * gmap (Prefix * Prefix) SubnetRule) : Prop :=
  svc_certs s = st.1 ∧ ∃ p, svc_tnet s = Some p ∧ ph_repr p st.2.

Lemma svc_repr_step s st msg : svc_repr s st → svc_repr (handleTargetMsg s msg) (spec_msg st msg).
Proof.
  destruct st as [certs m]. intros (Hc & p & Hp & Hr). simpl in *. subst certs. destruct msg; simpl.
  - unfold syncTargets, with_tnet. cbn. rewrite Hp. split; [done|]. eexists. split; [done|].
    apply ph_repr_replace, Hr.
  - unfold handleAddTarget, with_tnet. rewrite Hp. split; [done|]. eexists. split; [done|]. by apply ph_repr_add.
  - unfold handleRemoveTarget, with_tnet. rewrite Hp. split; [done|]. eexists. split; [done|].
    by apply ph_repr_remove.
  - unfold handleUpdateTarget, with_tnet. rewrite Hp. split; [done|]. eexists. split; [done|].
    by apply ph_repr_add, ph_repr_remove.
  - split; [done|]. by exists p.
  - split; [done|]. by exists p.
Qed.

Lemma svc_repr_steps msgs s st : svc_repr s st → svc_repr (foldl handleTargetMsg s msgs) (foldl spec_msg st msgs).
Proof. revert s st. induction msgs as [|x l IH]; intros s st Hs; [done|]. cbn. by apply IH, svc_repr_step. Qed.

(** C8: the access rules follow the server's messages exactly.  After any
    sequence of sync, add, remove, update and certificate messages the
    installed rules are those of the specification map: a sync replaces
    everything by the rules of the valid prefixes of its targets (the last one
    of a prefix pair winning), add and remove overwrite and delete prefix
    pairs, update removes the old ones before adding the new, invalid prefixes
    are skipped, and certificates are the ones known when a rule was built. *)
Theorem target_messages_refine s p certs m msgs :
  svc_certs s = certs → svc_tnet s = Some p → ph_enabled p = true → repr (ph_lookup p) m →
  ∃ p', svc_tnet (foldl handleTargetMsg s msgs) = Some p' ∧
    svc_certs (foldl handleTargetMsg s msgs) = (foldl spec_msg (certs, m) msgs).1 ∧
    repr (ph_lookup p') (foldl spec_msg (certs, m) msgs).2 ∧
    (∀ r, r ∈ ph_GetAllRules p' ↔ (foldl spec_msg (certs, m) msgs).2 !! rule_key r = Some r).
Proof.
  intros Hc Hp He Hr. destruct (svc_repr_steps msgs s (certs, m)) as (Hc' & p' & Hp' & He' & Hr').
  { split; [done|]. by exists p. }
  exists p'. split_and!; [done..|]. unfold ph_GetAllRules. rewrite He'. by apply GetAllRules_keyed.
Qed.

End target_messages.

(** ** Lemmas: peers *)

Lemma splitOn_lines w ls :
  Forall (λ x, Ascii.eqb x nl = false) w → Forall (Forall (λ x, Ascii.eqb x nl = false)) ls →
  splitOn nl (w ++ concat (map (cons nl) ls)) = w :: ls.
Proof.
  intros Hw Hls. revert w Hw. induction Hls as [|l ls Hl _ IH]; intros w Hw; simpl.
  - rewrite app_nil_r. by apply splitOn_absent.
  - rewrite splitOn_app by done. f_equal. by apply IH.
Qed.

(** No line break in it. *)
Definition clean (s : string) : Prop := Forall (λ x, Ascii.eqb x nl = false) (str s).
Definition clean_peer (p : Peer) : Prop := Forall clean (AllowedIPs p) ∧ clean (Endpoint p).

#[global] Instance clean_dec s : Decision (clean s).
Proof. unfold clean. apply _. Defined.
#[global] Instance clean_peer_dec p : Decision (clean_peer p).
Proof. unfold clean_peer. apply _. Defined.

Definition peerSettings (p : Peer) : list (list ascii) :=
  map (λ ip, str "allowed_ip=" ++ str ip) (AllowedIPs p)
  ++ (if bool_decide (Endpoint p = "") then [] else [str "endpoint=" ++ str (Endpoint p)])
  ++ [str "persistent_keepalive_interval=25"].

Lemma str_NL : str NL = [nl].
Proof. done. Qed.

Lemma str_allowedLines ips :
  str (allowedLines ips) = concat (map (cons nl) (map (λ ip, str "allowed_ip=" ++ str ip) ips)).
Proof. induction ips as [|ip ips IH]; [done|]. cbn [allowedLines foldr map concat]. autorewrite with newt. rewrite str_NL, <- IH. cbn [app]. by rewrite app_assoc. Qed.

Lemma str_peerConfig k p :
  str (peerConfig k p) = (str "public_key=" ++ str k) ++ concat (map (cons nl) (peerSettings p)).
Proof.
  unfold peerConfig, peerSettings.
  case_bool_decide; rewrite !str_app, ?str_app, str_NL, str_allowedLines, !map_app, !concat_app, <- !app_assoc;
    cbn [map concat app]; by rewrite ?app_nil_r.
Qed.

Lemma peerSettings_ok p : Forall is_setting (peerSettings p).
Proof.
  unfold peerSettings. apply Forall_app. split; [|apply Forall_app; split].
  - apply Forall_forall. intros l (ip & -> & _)%list_elem_of_fmap. left. by eexists.
  - case_bool_decide; constructor; [right; left; by eexists|constructor].
  - constructor; [by right; right|constructor].
Qed.

Lemma clean_lit lit :
  forallb (λ x, negb (Ascii.eqb x nl)) lit = true → Forall (λ x, Ascii.eqb x nl = false) lit.
Proof.
  intros Hl. apply Forall_forall. intros x Hx%list_elem_of_In.
  rewrite forallb_forall in Hl. specialize (Hl x Hx). by destruct (Ascii.eqb x nl).
Qed.

Lemma clean_lit_app lit s :
  forallb (λ x, negb (Ascii.eqb x nl)) lit = true → clean s →
  Forall (λ x, Ascii.eqb x nl = false) (lit ++ str s).
Proof. intros Hl Hs. apply Forall_app. split; [by apply clean_lit|done]. Qed.

Lemma lines_peerConfig k p :
  clean k → clean_peer p → lines (peerConfig k p) = (str "public_key=" ++ str k) :: peerSettings p.
Proof.
  intros Hk [Hips He]. unfold lines. rewrite str_peerConfig. apply splitOn_lines; [by apply clean_lit_app|].
  unfold peerSettings. apply Forall_app. split; [|apply Forall_app; split].
  - apply Forall_forall. intros l (ip & -> & Hip)%list_elem_of_fmap. apply clean_lit_app; [done|].
    by_forall Hips.
  - case_bool_decide; [constructor|]. constructor; [|constructor]. by apply clean_lit_app.
  - constructor; [by apply clean_lit|constructor].
Qed.

Lemma lines_removeConfig k :
  clean k → lines (removeConfig k) = [str "public_key=" ++ str k; str "remove=true"].
Proof.
  intros Hk. unfold lines, removeConfig. rewrite !str_app, str_NL.
  replace (str "public_key=" ++ str k ++ [nl] ++ str "remove=true")
    with ((str "public_key=" ++ str k) ++ concat (map (cons nl) [str "remove=true"]))
    by (cbn [map concat]; by rewrite app_nil_r, <- app_assoc).
  apply splitOn_lines; [by apply clean_lit_app|]. constructor; [by apply clean_lit|constructor].
Qed.

Definition hexKey (k : list Z) : string := unstr (hexEncode k).

Lemma peerKeys_elem cfg k : k ∈ peerKeys cfg ↔ str "public_key=" ++ str k ∈ lines cfg.
Proof.
  unfold peerKeys. rewrite list_elem_of_omap. split.
  - intros (l & Hl & (v & Hv & ->)%fmap_Some). apply trimPrefix_Some in Hv as ->. by rewrite str_unstr.
  - intros Hl. exists (str "public_key=" ++ str k). split; [done|].
    rewrite (proj2 (trimPrefix_Some _ _ (str k)) eq_refl). cbn. by rewrite unstr_str.
Qed.

Lemma peerKeys_clean cfg k : k ∈ peerKeys cfg → clean k.
Proof. intros Hk%peerKeys_elem%splitOn_pieces. by apply Forall_app in Hk as [_ ?]. Qed.

Lemma dom_insert_all (l : list string) (m : gmap string bool) :
  dom (foldl (λ m k, <[k := true]> m) m l) = dom m ∪ list_to_set l.
Proof. revert m. induction l as [|k l IH]; intros m; cbn; [set_solver|]. rewrite IH, dom_insert_L. set_solver. Qed.

Lemma remove_then_add (A B : gset string) : A ∖ (A ∖ B) ∪ (B ∖ A) = B.
Proof. apply set_eq. intros k. rewrite elem_of_union, !elem_of_difference. destruct (decide (k ∈ A)), (decide (k ∈ B)); tauto. Qed.

Section peer_lemmas.
Context {Table : Type → Type} `{!BartTable Table} {D : Type} `{!Device D, !DeviceLaws D, !WgKeys, !MapRange}.
Implicit Types (d : D) (s : WireGuardService Table D) (ps : list Peer).

Lemma deviceKey_ok txt k : ParseKey txt = Some k → deviceKey k = Ret (hexKey k) ∧ clean (hexKey k).
Proof.
  intros [Hlen Hk]%ParseKey_bytes. unfold deviceKey. rewrite KeyString_b64, FixKey_b64 by done. split; [done|].
  unfold clean, hexKey. rewrite str_unstr. eapply Forall_impl; [by apply hexEncode_visible|].
  intros c Hc. destruct (Ascii.eqb_spec c nl) as [->|]; done.
Qed.

(** The peers with a well-formed key, by their key on the device. *)
Definition peerKey (p : Peer) : option string := hexKey <$> ParseKey (PublicKey p).
Definition desired_keys ps : gset string := list_to_set (omap peerKey ps).

Lemma desired_keys_cons p ps :
  desired_keys (p :: ps) = match peerKey p with Some k => {[k]} ∪ desired_keys ps | None => desired_keys ps end.
Proof. unfold desired_keys. cbn. by destruct (peerKey p). Qed.

Lemma desiredPeerMap_spec ps m :
  ∃ m', desiredPeerMap ps m = Ret m' ∧ dom m' = dom m ∪ desired_keys ps ∧
    ∀ k p, m' !! k = Some p → m !! k = Some p ∨ (p ∈ ps ∧ peerKey p = Some k).
Proof.
  revert m. induction ps as [|p ps IH]; intros m; cbn [desiredPeerMap].
  - exists m. split_and!; [done|set_solver|auto].
  - rewrite desired_keys_cons. unfold peerKey. destruct (ParseKey (PublicKey p)) as [b|] eqn:E; cbn.
    + destruct (deviceKey_ok _ _ E) as [-> _]. cbn. destruct (IH (<[hexKey b := p]> m)) as (m' & -> & Hd & Hl).
      exists m'. split_and!; [done|rewrite Hd, dom_insert_L; set_solver|].
      intros k q [Hk|[? ?]]%Hl; [|right; set_solver]. rewrite lookup_insert in Hk. case_decide; [|auto].
      simplify_eq. right. split; [set_solver|]. by rewrite E.
    + destruct (IH m) as (m' & -> & Hd & Hl). exists m'. split_and!; [done..|].
      intros k q [?|[? ?]]%Hl; [auto|right; set_solver].
Qed.

Lemma removeStale_spec keys d f d' f' :
  Forall clean keys → removeStale keys d f = (d', f') →
  (f <= f')%nat ∧ (f' = f → dev_keys d' = dev_keys d ∖ list_to_set keys).
Proof.
  intros Hk. revert d f. induction Hk as [|k keys Hk _ IH]; intros d f; cbn [removeStale].
  - intros [= -> ->]. split; [lia|]. set_solver.
  - destruct (IpcSet (removeConfig k) d) as [d1 ok] eqn:E. intros Hrun. apply IH in Hrun as [Hle Heq].
    destruct ok; [|split; lia]. split; [done|]. intros Hf. rewrite (Heq Hf).
    rewrite (IpcSet_remove d d1 _ k (lines_removeConfig k Hk) E). set_solver.
Qed.

Lemma addMissing_spec ps d f :
  Forall clean_peer ps → Forall (λ p, is_Some (peerKey p)) ps →
  ∃ d' f', addMissing ps d f = Ret (d', f') ∧ (f <= f')%nat ∧
    (f' = f → dev_keys d' = dev_keys d ∪ desired_keys ps).
Proof.
  intros Hc Hp. revert d f. induction Hc as [|p ps Hcp _ IH]; intros d f; cbn [addMissing].
  - exists d, f. split_and!; [done|lia|set_solver].
  - apply Forall_cons in Hp as [[k Hk] Hp]. rewrite desired_keys_cons, Hk.
    unfold peerKey in Hk. apply fmap_Some in Hk as (b & E & ->). unfold addPeerToDevice. rewrite E.
    destruct (deviceKey_ok _ _ E) as [-> Hcl]. cbn.
    destruct (IpcSet (peerConfig (hexKey b) p) d) as [d1 ok] eqn:Ei. cbn.
    destruct (IH Hp d1 (if ok then f else S f)) as (d' & f' & -> & Hle & Heq). exists d', f'.
    split; [done|]. destruct ok; [|split; lia]. split; [done|]. intros Hf. rewrite (Heq Hf).
    rewrite (IpcSet_add d d1 _ (hexKey b) _ (lines_peerConfig _ _ Hcl Hcp) (peerSettings_ok p) Ei). set_solver.
Qed.

(** The keys of the commands [syncPeers] sends. *)
Lemma missing_keys (cur : gmap string bool) (des : gmap string Peer) :
  (∀ k p, des !! k = Some p → peerKey p = Some k) →
  desired_keys (filter (λ '(k, _), cur !! k = None) (range_map des)).*2 = dom des ∖ dom cur.
Proof.
  intros Hd. apply set_eq. intros k. unfold desired_keys. rewrite elem_of_list_to_set, list_elem_of_omap.
  rewrite elem_of_difference, elem_of_dom, not_elem_of_dom. split.
  - intros (p & ([k' p'] & -> & Hin)%list_elem_of_fmap & Hk).
    apply list_elem_of_filter in Hin as [Hc Hin%range_map_elem]. pose proof (Hd _ _ Hin) as Hk'.
    simpl in Hk. rewrite Hk in Hk'. simplify_eq. eauto.
  - intros [[p Hp] Hc]. exists p. split; [|by apply Hd]. apply list_elem_of_fmap. exists (k, p). split; [done|].
    apply list_elem_of_filter. split; [done|]. by apply range_map_elem.
Qed.

Lemma stale_keys (cur : gmap string bool) (des : gmap string Peer) :
  list_to_set (filter (λ k, des !! k = None) (range_map cur).*1) =@{gset string} dom cur ∖ dom des.
Proof.
  apply set_eq. intros k. rewrite elem_of_list_to_set, list_elem_of_filter, elem_of_difference, not_elem_of_dom.
  rewrite list_elem_of_fmap, elem_of_dom. split.
  - intros [Hd ([k' b] & -> & Hin%range_map_elem)]. split; [by exists b|done].
  - intros [[b Hb] Hd]. split; [done|]. exists (k, b). split; [done|]. by apply range_map_elem.
Qed.

(** C9: syncPeers makes the device's peers the desired ones.  It returns on
    every desired list; when no command failed, the device afterwards has
    exactly the keys of the desired peers whose key is well formed, whatever
    it had before, in whatever order the maps are visited.  Peers are compared
    by key only: when the keys already agree the device is left as it is, so a
    peer whose allowed addresses or endpoint changed keeps the old ones. *)
Theorem sync_peers_exact s d cfg ps :
  svc_device s = Some d → IpcGet d = Some cfg → Forall clean_peer ps →
  ∃ d' failed, syncPeers ps s = Ret (set_device (Some d') s, Some failed) ∧
    (failed = 0%nat → dev_keys d' = desired_keys ps) ∧
    (dev_keys d = desired_keys ps → d' = d ∧ failed = 0%nat).
Proof.
  intros Hd Hg Hc. unfold syncPeers. rewrite Hd, Hg.
  set (cur := foldl _ ∅ (peerKeys cfg)).
  assert (dom cur = dev_keys d) as Hcur.
  { unfold cur. rewrite dom_insert_all. apply set_eq. intros k.
    rewrite (IpcGet_keys d cfg k Hg), <- peerKeys_elem. set_solver. }
  destruct (desiredPeerMap_spec ps ∅) as (des & -> & Hdom & Hdes). cbn [mbind go_bind].
  rewrite dom_empty_L, union_empty_l_L in Hdom.
  assert (∀ k p, des !! k = Some p → p ∈ ps ∧ peerKey p = Some k) as Hdes'.
  { intros k p [Hk|?]%Hdes; [by rewrite lookup_empty in Hk|done]. }
  destruct (removeStale _ d 0) as [d1 f1] eqn:Er.
  destruct (addMissing_spec (filter (λ '(k, _), cur !! k = None) (range_map des)).*2 d1 f1) as (d2 & f2 & Ea & Hle & Hadd).
  { apply Forall_forall. intros p ([k q] & -> & [_ [Hq _]%range_map_elem%Hdes']%list_elem_of_filter)%list_elem_of_fmap.
    by_forall Hc. }
  { apply Forall_forall. intros p ([k q] & -> & [_ [_ Hq]%range_map_elem%Hdes']%list_elem_of_filter)%list_elem_of_fmap.
    by exists k. }
  rewrite Ea. exists d2, f2. split; [done|]. pose proof (stale_keys cur des) as Hst.
  pose proof (missing_keys cur des (λ k p H, proj2 (Hdes' k p H))) as Hms. split.
  - intros ->. apply removeStale_spec in Er as [Hle1 Hrem].
    + rewrite Hadd, Hrem, Hst, Hms, Hcur, Hdom by lia. apply remove_then_add.
    + apply Forall_forall. intros k [_ ([k' b] & -> & Hin%range_map_elem)%list_elem_of_fmap]%list_elem_of_filter.
      apply (peerKeys_clean cfg), peerKeys_elem, (IpcGet_keys d cfg k' Hg). rewrite <- Hcur. by apply elem_of_dom_2 in Hin.
  - intros Heq. assert (dom cur = dom des) as Hdd by congruence.
    rewrite list_filter_none in Er.
    2:{ intros k ([k' b] & -> & Hin%range_map_elem)%list_elem_of_fmap Hn. apply elem_of_dom_2 in Hin.
        rewrite Hdd in Hin. apply elem_of_dom in Hin as [? Hin]. simpl in Hn. congruence. }
    rewrite list_filter_none in Ea.
    2:{ intros [k q] Hin%range_map_elem Hn. apply elem_of_dom_2 in Hin.
        rewrite <- Hdd in Hin. apply elem_of_dom in Hin as [? Hin]. simpl in Hn. congruence. }
    by go_simpl.
Qed.

End peer_lemmas.

(** A configuration with a chain id is processed at most once: its replay,
    and any response whose id is not the pending one, changes nothing. *)
Section config.
Context {Table : Type → Type} `{!BartTable Table} {D : Type} `{!Device D, !WgKeys, !MapRange}.

Lemma handleConfig_stale env cfg (s : WireGuardService Table D) :
  wc_ChainId cfg ≠ "" → wc_ChainId cfg ≠ svc_chain s → handleConfig env cfg s = Ret s.
Proof. intros H1 H2. unfold handleConfig. by rewrite !bool_decide_false. Qed.

Lemma configureDevice_chain (s s' : WireGuardService Table D) ok :
  configureDevice s = Ret (s', ok) → svc_chain s' = svc_chain s.
Proof.
  unfold configureDevice. destruct (deviceKey (svc_key s)); [cbn|done].
  destruct (IpcSet _ _) as [d1 [|]]; cbn; [destruct (Up d1)|]; intros; by go_simpl.
Qed.

Lemma ensureWireguardInterface_chain env cfg (s s' : WireGuardService Table D) ok :
  ensureWireguardInterface env cfg s = Ret (s', ok) → svc_chain s' = svc_chain s.
Proof.
  unfold ensureWireguardInterface. destruct (normalizeInterfaceAddress _) as [[? ip]|]; [|intros; by go_simpl].
  destruct (svc_native s).
  - destruct (env_utun env); [cbn|intros; by go_simpl]. destruct (env_tun env); [cbn|intros; by go_simpl].
    destruct (env_uapi env); [cbn|done].
    destruct (configureDevice _) as [[s1 ok1]|] eqn:E; [|done]. apply configureDevice_chain in E. cbn.
    destruct ok1; [cbn|intros; by go_simpl]. destruct (env_configure env); intros; by go_simpl.
  - destruct (env_tun env); [cbn|intros; by go_simpl].
    destruct (configureDevice _) as [[s1 ok1]|] eqn:E; [|done]. apply configureDevice_chain in E. cbn.
    destruct ok1; [cbn|intros; by go_simpl]. unfold with_tnet. cbn.
    destruct (svc_blocked s1); [destruct (svc_tnet s1)|]; intros; by go_simpl.
Qed.

Lemma handleConfig_chain env cfg (s s' : WireGuardService Table D) :
  wc_ChainId cfg ≠ "" → wc_ChainId cfg = svc_chain s → handleConfig env cfg s = Ret s' → svc_chain s' = "".
Proof.
  intros H1 H2. unfold handleConfig. rewrite bool_decide_false, bool_decide_true by done. cbn.
  destruct (ensureWireguardInterface _ _ _) as [[s1 ok]|] eqn:E; [|done].
  apply ensureWireguardInterface_chain in E. cbn. destruct ok; [cbn|intros; by go_simpl].
  unfold ensureWireguardPeers. destruct (svc_device s1) as [d|]; [destruct (IpcGet d) as [c|]|]; cbn;
    [destruct (addUntil _ _) as [[d' ok]|]; [cbn|done]|..];
    unfold ensureTargets; cbn; (destruct (svc_tnet s1); [destruct (ensureLoop _ _ _)|]); intros; by go_simpl.
Qed.

(** Processing a response consumes its id, so the second copy is dropped. *)
Lemma handleConfig_once env env' cfg (s s' : WireGuardService Table D) :
  wc_ChainId cfg ≠ "" → handleConfig env cfg s = Ret s' → handleConfig env' cfg s' = Ret s'.
Proof.
  intros H1 Hs. destruct (decide (wc_ChainId cfg = svc_chain s)) as [Heq|Hne].
  - apply handleConfig_stale; [done|]. by rewrite (handleConfig_chain env cfg s s').
  - rewrite handleConfig_stale in Hs by done. simplify_eq. by apply handleConfig_stale.
Qed.

End config.

(** ** Witnesses *)

Module ClientExamples.

(** A device that keeps the keys of its peers only. *)
Definition settingb (l : list ascii) : bool :=
  bool_decide (is_Some (trimPrefix (str "allowed_ip=") l)) || bool_decide (is_Some (trimPrefix (str "endpoint=") l))
  || bool_decide (l = str "persistent_keepalive_interval=25").

Definition keyLine (k : string) : list ascii := str "public_key=" ++ str k.

Definition key_get (d : list string) : option string :=
  Some (unstr (str "protocol_version=1" ++ concat (map (cons nl) (map keyLine (filter clean d))))).

Definition key_set (cmd : string) (d : list string) : list string * bool :=
  match lines cmd with
  | [] => (d, false)
  | l :: ls =>
      match trimPrefix (str "public_key=") l with
      | None => (d, bool_decide (is_Some (trimPrefix (str "private_key=") l)))
      | Some k =>
          if bool_decide (ls = [str "remove=true"]) then (filter (λ x, x ≠ unstr k) d, true)
          else if forallb settingb ls then (unstr k :: d, true) else (d, false)
      end
  end.

#[local] Instance key_device : Device (list string) := {|
  NewDevice := []; IpcGet := key_get; IpcSet := key_set; Up d := (d, true) |}.

Lemma settingb_ok l : is_setting l → settingb l = true ∧ l ≠ str "remove=true".
Proof.
  unfold settingb. intros [(v & ->)|[(v & ->)| ->]].
  - by rewrite (bool_decide_true _ (mk_is_Some _ _ (proj2 (trimPrefix_Some _ _ v) eq_refl))).
  - rewrite (bool_decide_true _ (mk_is_Some _ _ (proj2 (trimPrefix_Some (str "endpoint=") _ v) eq_refl))).
    by rewrite orb_true_r.
  - by vm_compute.
Qed.

Lemma key_get_lines d s k : key_get d = Some s → k ∈ filter clean d ↔ str "public_key=" ++ str k ∈ lines s.
Proof.
  unfold key_get. intros <-%Some_inj. unfold lines. rewrite str_unstr, splitOn_lines.
  - rewrite elem_of_cons, list_elem_of_fmap. split.
    + intros Hk. right. by exists k.
    + intros [Hk|(k' & Hk & Hin)]; [by apply (f_equal (take 2)) in Hk|].
      unfold keyLine in Hk. apply app_inv_head, (f_equal unstr) in Hk. rewrite !unstr_str in Hk. by subst.
  - by apply clean_lit.
  - apply Forall_forall. intros l (k' & -> & [Hk' _]%list_elem_of_filter)%list_elem_of_fmap.
    by apply clean_lit_app.
Qed.

#[local] Instance key_laws : DeviceLaws (list string).
Proof.
  refine {| dev_keys d := list_to_set (filter clean d) |}.
  - intros d s k Hs. rewrite elem_of_list_to_set. by apply key_get_lines.
  - intros d d' cmd k Hl Hs. cbn in Hs. unfold key_set in Hs. rewrite Hl in Hs.
    rewrite (proj2 (trimPrefix_Some _ _ (str k)) eq_refl), bool_decide_true in Hs by done.
    rewrite unstr_str in Hs. simplify_eq. apply set_eq. intros x.
    rewrite elem_of_difference, !elem_of_list_to_set, !list_elem_of_filter, not_elem_of_singleton. tauto.
  - intros d d' cmd k ls Hl Hls Hs. cbn in Hs. unfold key_set in Hs. rewrite Hl in Hs.
    rewrite (proj2 (trimPrefix_Some _ _ (str k)) eq_refl), unstr_str in Hs.
    assert (clean k) as Hk.
    { pose proof (splitOn_pieces nl (str cmd) (str "public_key=" ++ str k)) as Hp. unfold lines in Hl.
      rewrite Hl in Hp. specialize (Hp (list_elem_of_here _ _)). by apply Forall_app in Hp as [_ ?]. }
    rewrite bool_decide_false in Hs.
    2:{ intros ->. apply Forall_cons in Hls as [Hrm _]. by apply settingb_ok in Hrm as [_ ?]. }
    replace (forallb settingb ls) with true in Hs.
    2:{ symmetry. apply forallb_forall. intros l Hin%list_elem_of_In. rewrite Forall_forall in Hls.
        by apply settingb_ok, Hls. }
    simplify_eq. rewrite filter_cons_True by done. cbn. set_solver.
Defined.

(** [wgtypes] as documented. *)
#[local] Instance wg_keys : WgKeys.
Proof.
  refine {| ParseKey s := k ← b64Decode (str s);
              if bool_decide (length k = 32%nat ∧ Forall (λ b, 0 <= b < 256) k) then Some k else None;
            KeyString k := unstr (b64Encode k) |}.
  - intros s k (b & _ & Hb)%bind_Some. case_bool_decide; simplify_eq. done.
  - done.
Defined.

#[local] Instance map_order : MapRange := canonical_range.

Definition wgKey (n : Z) : string := unstr (b64Encode (replicate 31 0 ++ [n])).
Definition devKey (n : Z) : string := hexKey (replicate 31 0 ++ [n]).

Definition no_config : WgConfig := mkWgConfig "" [] [] [] "".

Definition svc (tnet : option (ProxyHandler gtable)) (dev : list string) : WireGuardService gtable (list string) :=
  mkService (replicate 32 7) false no_config "" false ∅ tnet (Some dev) "" false false false false 0.

Definition ps : list Peer :=
  [mkPeer (wgKey 1) ["100.64.0.1/32"] "203.0.113.9:51820"; mkPeer "not a key" [] "";
   mkPeer (wgKey 3) ["100.64.0.3/32"; "fd00::3/128"] ""].

(** Peer 1 stays, peer 2 goes, peer 3 comes. *)
Example sync_peers_example :
  syncPeers ps (svc None [devKey 1; devKey 2]) = Ret (svc None [devKey 3; devKey 1], Some 0%nat).
Proof. by vm_compute. Qed.

Lemma sync_peers_exact_witness :
  ∃ d' failed,
    syncPeers ps (svc None [devKey 1; devKey 2]) = Ret (set_device (Some d') (svc None [devKey 1; devKey 2]), Some failed) ∧
    (failed = 0%nat → dev_keys d' = desired_keys ps) ∧
    (dev_keys [devKey 1; devKey 2] = desired_keys ps → d' = [devKey 1; devKey 2] ∧ failed = 0%nat).
Proof.
  eapply (sync_peers_exact (svc None [devKey 1; devKey 2]) [devKey 1; devKey 2]); [reflexivity|reflexivity|].
  apply (bool_decide_unpack _). vm_compute. exact I.
Defined.

(** Targets: one with a shared certificate, one replaced, one invalid. *)
Definition tg (src : list string) (dst rewrite cert : string) : Target :=
  mkTarget "" src dst rewrite false [mkPortRange 443 443 "tcp"] 1 "https" [] "" "" cert.

Definition handler0 : ProxyHandler gtable := mkProxyHandler true NewSubnetLookup ∅ ∅ ∅ ∅ false [] false [] true.

Definition msgs : list TargetMsg :=
  [MsgSync [mkCertData "c1" "PEM" "KEY"] [tg ["10.0.0.0/24"; "bad"] "10.20.0.0/16" "a" "c1"; tg ["10.0.0.0/24"] "nonsense" "" ""];
   MsgAdd [tg ["10.1.0.9/24"] "10.20.0.0/16" "b" ""];
   MsgUpdate [tg ["10.1.0.0/24"] "10.20.0.0/16" "" ""] [tg ["10.1.0.0/24"] "10.30.0.0/16" "c" "gone"];
   MsgRemoveCerts ["c1"%string]].

Example target_messages_example :
  (λ p, (λ r, (rule_key r, RewriteTo r, TLSCert r)) <$> ph_GetAllRules p) <$>
    svc_tnet (foldl handleTargetMsg (svc (Some handler0) []) msgs)
  = Some [((mkPrefix (Addr4 0x0A010000) 24, mkPrefix (Addr4 0x0A1E0000) 16), "c", "");
          ((mkPrefix (Addr4 0x0A000000) 24, mkPrefix (Addr4 0x0A140000) 16), "a", "PEM")]%string.
Proof. by vm_compute. Qed.

Lemma target_messages_refine_witness :
  ∃ p', svc_tnet (foldl handleTargetMsg (svc (Some handler0) []) msgs) = Some p' ∧
    svc_certs (foldl handleTargetMsg (svc (Some handler0) []) msgs) = (foldl spec_msg (∅, ∅) msgs).1 ∧
    repr (ph_lookup p') (foldl spec_msg (∅, ∅) msgs).2 ∧
    (∀ r, r ∈ ph_GetAllRules p' ↔ (foldl spec_msg (∅, ∅) msgs).2 !! rule_key r = Some r).
Proof.
  apply (target_messages_refine (svc (Some handler0) []) handler0 ∅ ∅ msgs);
    [reflexivity|reflexivity|reflexivity|apply repr_new].
Defined.

End ClientExamples.
