(* ===== verification/ClientService.v ===== *)
(** * The life of the client WireGuard service ([clients/clients.go],
    [newt/clients.go], [clients/permissions/permissions_linux.go])

    The service owns a shared socket with two references, a device, the
    servers on its netstack, the hole punch manager, the request for its
    configuration and the goroutines that report bandwidth.  This file has its
    creation, the messages that start and stop those parts, its end, the state
    in which connections are blocked, and the filter of the device's
    configuration text.  Messages, peers and targets are in [Clients]. *)

From S2P Require Import Prelude Netip NetipText HostPort Keys Util SharedBind.
From Stdlib Require Import Ascii.

(** ** State *)

(** Of the parts that can be stopped, whether they run.  [wl_checkers] counts the goroutines of
    [periodicBandwidthCheck]; [wl_events] is what happened to the socket. *)
Record wgLife : Type := mkLife {
  wl_bind : option SharedBind; wl_events : list bindEvent;
  wl_device : bool; wl_tnet : bool; wl_ssh : bool; wl_tester : bool;
  wl_relay : bool; wl_punching : bool;
  wl_request : option string;      (* the chain of the repeated request *)
  wl_checkers : nat;
  wl_token : string; wl_punchToken : string }.

(** ** Creation *)

(** [listen] gives the socket of a port; [dns] must be an address. *)
Definition NewWireGuardService (keyOk : bool) (rnd : nat → nat) (canListen : Z → bool) (listen : Z → option UDPConn)
    (port : Z) (dns : string) : go (option wgLife) :=
  if negb keyOk then Ret None
  else match (if port =? 0 then (λ p, p mod 65536) <$> FindAvailableUDPPort rnd canListen 49152 65535 else Some port) with
  | None => Ret None
  | Some port =>
      match listen port with
      | None => Ret None
      | Some conn =>
          match New (Some conn) with
          | None => Ret None
          | Some b =>
              match ParseAddr dns with
              | None => Panic
              | Some _ => Ret (Some (mkLife (Some (AddRef b)) [] false false false false false false None 0 "" ""))
              end
          end
      end
  end.

(** ** Operations *)

(** The repeated request is stopped and begun anew, with a new chain; a
    goroutine that reports the bandwidth is started. *)
Definition LoadRemoteConfig (chainId : string) (s : wgLife) : wgLife :=
  mkLife (wl_bind s) (wl_events s) (wl_device s) (wl_tnet s) (wl_ssh s) (wl_tester s) (wl_relay s) (wl_punching s)
    (Some chainId) (S (wl_checkers s)) (wl_token s) (wl_punchToken s).

(** What a configuration that was applied leaves behind: the device, with a
    netstack unless the interface is native, and the servers that started. *)
Definition configured (native ssh tester : bool) (s : wgLife) : wgLife :=
  mkLife (wl_bind s) (wl_events s) true (negb native) (negb native && ssh) tester (wl_relay s) (wl_punching s)
    (wl_request s) (wl_checkers s) (wl_token s) (wl_punchToken s).

Definition SetToken (token : string) (s : wgLife) : wgLife :=
  mkLife (wl_bind s) (wl_events s) (wl_device s) (wl_tnet s) (wl_ssh s) (wl_tester s) (wl_relay s) (wl_punching s)
    (wl_request s) (wl_checkers s) token token.

Definition startParts (relay punching : bool) (s : wgLife) : wgLife :=
  mkLife (wl_bind s) (wl_events s) (wl_device s) (wl_tnet s) (wl_ssh s) (wl_tester s) (wl_relay s || relay)
    (wl_punching s || punching) (wl_request s) (wl_checkers s) (wl_token s) (wl_punchToken s).

Definition IsReady (s : wgLife) : bool := wl_device s && wl_tnet s.

(** [device.Close] closes its bind, which gives back its reference. *)
Definition releaseBind (b : SharedBind) (evs : list bindEvent) : SharedBind * list bindEvent :=
  let '(b', e, _) := Release NoError b in (b', evs ++ e).

Definition Close (s : wgLife) : wgLife :=
  let '(b, evs) :=
    match wl_bind s with
    | None => (None, wl_events s)
    | Some b =>
        let '(b, evs) := if wl_device s then releaseBind b (wl_events s) else (b, wl_events s) in
        let '(b, evs) := releaseBind b evs in (Some b, evs)
    end in
  mkLife None evs false false false false false false None (wl_checkers s) (wl_token s) (wl_punchToken s).

(** The bind that [Close] drops, as it leaves it. *)
Definition leftBind (s : wgLife) : option SharedBind :=
  match wl_bind s with
  | None => None
  | Some b => Some (releaseBind (if wl_device s then (releaseBind b []).1 else b) []).1
  end.

(** [reportPeerBandwidth]: the readings are sent when there are any. *)
Definition reportPeerBandwidth {A} (calculated : option A) (send : bool) : option A * bool :=
  match calculated with
  | None => (None, false)
  | Some d => (Some d, send)
  end.

(** ** The socket is given back *)

(** A service that is used after its creation. *)
Inductive lifeOp : Type :=
  | LLoad (chainId : string) | LConfigured (native ssh tester : bool) | LToken (t : string) | LStart (relay punching : bool).

Definition lifeStep (s : wgLife) (o : lifeOp) : wgLife :=
  match o with
  | LLoad c => LoadRemoteConfig c s
  | LConfigured n h t => configured n h t s
  | LToken t => SetToken t s
  | LStart r p => startParts r p s
  end.

Definition isConfigured (o : lifeOp) : bool := match o with LConfigured _ _ _ => true | _ => false end.
Definition isLoad (o : lifeOp) : bool := match o with LLoad _ => true | _ => false end.

Lemma lifeRun_spec l s :
  let s' := foldl lifeStep s l in
  wl_bind s' = wl_bind s ∧ wl_events s' = wl_events s ∧ wl_device s' = wl_device s || existsb isConfigured l ∧
  wl_checkers s' = (wl_checkers s + length (filter (λ o, isLoad o = true) l))%nat.
Proof.
  revert s. induction l as [|o l IH]; intros s; cbn [foldl existsb].
  - rewrite filter_nil, orb_false_r. simpl. split_and!; try done; lia.
  - destruct (IH (lifeStep s o)) as (H1 & H2 & H3 & H4). cbn zeta in *. rewrite H1, H2, H3, H4, filter_cons.
    destruct o; simpl; split_and!; try done; try lia; by destruct (wl_device s).
Qed.

Lemma New_created keyOk rnd canListen listen port dns s :
  NewWireGuardService keyOk rnd canListen listen port dns = Ret (Some s) →
  ∃ conn p b, listen p = Some conn ∧ New (Some conn) = Some b ∧ wl_bind s = Some (AddRef b) ∧ wl_events s = [] ∧
    wl_device s = false ∧ wl_checkers s = 0%nat.
Proof.
  unfold NewWireGuardService. destruct keyOk; cbn [negb]; [|done]. destruct (if port =? 0 then _ else _) as [p|]; [|done].
  destruct (listen p) as [conn|] eqn:El; [|done]. destruct (ParseAddr dns); [|done].
  intros [= <-]. by eexists conn, p, _.
Qed.

(** The socket that a service opened is closed by [Close],
    once, exactly when the service had been configured; closed before that,
    it keeps one reference and the socket stays open. *)
Theorem close_releases_socket keyOk rnd canListen listen port dns s (ops : list lifeOp) :
  NewWireGuardService keyOk rnd canListen listen port dns = Ret (Some s) →
  let s' := foldl lifeStep s ops in
  ∃ conn p, listen p = Some conn ∧
    wl_events (Close s') = (if existsb isConfigured ops then [EvCloseConn conn] else []) ∧
    (∀ b, leftBind s' = Some b → closed b = existsb isConfigured ops ∧ refCount b = if existsb isConfigured ops then 0 else 1) ∧
    Close (Close s') = Close s'.
Proof.
  intros Hn. destruct (New_created _ _ _ _ _ _ _ Hn) as (conn & p & b & Hl & Hb & Hs & He & Hd & _). cbn zeta.
  exists conn, p. split; [done|]. destruct (lifeRun_spec ops s) as (H1 & H2 & H3 & _). cbn zeta in *.
  rewrite Hs in H1. rewrite He in H2. rewrite Hd in H3. simpl in H3. injection Hb as <-.
  unfold Close, leftBind. rewrite H1, H2, H3. destruct (existsb isConfigured ops); simpl; split_and!; try done;
    by intros b [= <-].
Qed.

(** Every request for a configuration starts a goroutine that
    reports the bandwidth every ten seconds, and nothing ends one: after [n]
    connections there are [n], and closing the service leaves them. *)
Theorem checkers_accumulate keyOk rnd canListen listen port dns s (ops : list lifeOp) :
  NewWireGuardService keyOk rnd canListen listen port dns = Ret (Some s) →
  let s' := foldl lifeStep s ops in
  wl_checkers s' = length (filter (λ o, isLoad o = true) ops) ∧ wl_checkers (Close s') = wl_checkers s'.
Proof.
  intros Hn. destruct (New_created _ _ _ _ _ _ _ Hn) as (conn & p & b & _ & _ & _ & _ & _ & Hc). cbn zeta.
  destruct (lifeRun_spec ops s) as (_ & _ & _ & H4). cbn zeta in H4. rewrite Hc in H4. split; [done|].
  unfold Close. destruct (match wl_bind _ with Some _ => _ | None => _ end). done.
Qed.

(** ** Blocking *)

(** The flag, whether the proxy handler exists and blocks, and what the two
    sides are about to do: [SetBlocked] has stored its value; the
    configuration has read the flag. *)
Record blocking : Type := mkBlocking { bl_flag : bool; bl_handler : option bool; bl_setting : option bool; bl_applying : option bool }.

Inductive blockAction : Type :=
  | BStore (v : bool)      (* [SetBlocked] stores the flag *)
  | BHandler               (* and sets it in the handler, if there is one *)
  | BCreate                (* the configuration makes the handler *)
  | BLoad | BApply.        (* and reads the flag, and applies it if set *)

Definition blockStep (s : blocking) (a : blockAction) : blocking :=
  match a with
  | BStore v => mkBlocking v (bl_handler s) (Some v) (bl_applying s)
  | BHandler =>
      match bl_setting s with
      | Some v => mkBlocking (bl_flag s) (match bl_handler s with Some _ => Some v | None => None end) None (bl_applying s)
      | None => s
      end
  | BCreate => mkBlocking (bl_flag s) (Some false) (bl_setting s) None
  | BLoad => mkBlocking (bl_flag s) (bl_handler s) (bl_setting s) (Some (bl_flag s))
  | BApply =>
      match bl_applying s with
      | Some v => mkBlocking (bl_flag s) (match bl_handler s with Some h => Some (h || v) | None => None end) (bl_setting s) None
      | None => s
      end
  end.

Definition SetBlocked (v : bool) : list blockAction := [BStore v; BHandler].
Definition applyBlocked : list blockAction := [BCreate; BLoad; BApply].

Definition block0 : blocking := mkBlocking false None None None.

(** Calls that do not overlap. *)
Inductive blockCall : Type := CSet (v : bool) | CConfigure.
Definition callActions (c : blockCall) : list blockAction := match c with CSet v => SetBlocked v | CConfigure => applyBlocked end.

Definition quiet (s : blocking) : Prop := bl_setting s = None ∧ bl_applying s = None ∧ (∀ h, bl_handler s = Some h → h = bl_flag s).

Lemma call_quiet s c : quiet s → quiet (foldl blockStep s (callActions c)).
Proof.
  destruct s as [f h st ap]. intros (H1 & H2 & H3). simpl in *. subst. destruct c as [v|]; simpl; split_and!; try done; simpl.
  - destruct h; naive_solver.
  - by intros h' [= <-].
Qed.

(** When its calls do not overlap, a handler always blocks
    exactly when it was last told to, whether it existed then or was made
    later; when lifting the block overlaps with a new configuration the
    handler can stay blocked. *)
Theorem blocking_applied :
  (∀ calls h, let s := foldl blockStep block0 (calls ≫= callActions) in bl_handler s = Some h → h = bl_flag s) ∧
  (∃ s, foldl blockStep block0 (SetBlocked true ++ [BCreate; BLoad] ++ SetBlocked false ++ [BApply]) = s ∧
     bl_flag s = false ∧ bl_handler s = Some true).
Proof.
  split; [|eexists; by split_and!]. intros calls h. cbn zeta.
  assert (quiet (foldl blockStep block0 (calls ≫= callActions))) as (_ & _ & Hq); [|apply Hq].
  assert (quiet block0) as H0 by done. revert H0. generalize block0. induction calls as [|c calls IH]; intros s Hs; [done|].
  rewrite bind_cons, foldl_app. by apply IH, call_quiet.
Qed.

(** ** The filter of the device's configuration *)

Definition readOnlyFields : list string :=
  ["last_handshake_time_sec"; "last_handshake_time_nsec"; "rx_bytes"; "tx_bytes"; "protocol_version"].

Definition isReadOnly (line : list ascii) : bool :=
  existsb (λ f, match trimPrefix (str f ++ ["="%char]) line with Some _ => true | None => false end) readOnlyFields.

Definition nl : ascii := ch 10.

Fixpoint joinLines (l : list (list ascii)) : list ascii :=
  match l with
  | [] => []
  | [x] => x
  | x :: l' => x ++ nl :: joinLines l'
  end.

(** The lines that are kept. *)
Definition keptLine (line : list ascii) : Prop := line ≠ [] ∧ isReadOnly line = false.
#[global] Instance keptLine_dec line : Decision (keptLine line).
Proof. unfold keptLine. apply _. Defined.

Definition filterReadOnlyFields (config : list ascii) : list ascii := joinLines (filter keptLine (splitOn nl config)).

Lemma lines_split_join l :
  l ≠ [] → Forall (λ w, Forall (λ x, Ascii.eqb x nl = false) w) l → splitOn nl (joinLines l) = l.
Proof.
  intros Hne Hl. induction Hl as [|w l Hw Hl IH]; [done|]. destruct l as [|w' l]; [by apply splitOn_absent|].
  change (joinLines (w :: w' :: l)) with (w ++ nl :: joinLines (w' :: l)). rewrite splitOn_app by done. by rewrite IH.
Qed.

Lemma kept_pieces config : Forall (λ w, Forall (λ x, Ascii.eqb x nl = false) w) (filter keptLine (splitOn nl config)).
Proof. apply Forall_forall. intros w Hw. apply list_elem_of_filter in Hw as [_ Hw]. by eapply splitOn_pieces. Qed.

(** The lines of the filtered text are the lines of the
    device's that are not empty and set no read-only field, in order; text
    without such fields passes unchanged through a second filter. *)
Theorem filter_exact (config : list ascii) :
  let out := filterReadOnlyFields config in
  filter keptLine (splitOn nl out) = filter keptLine (splitOn nl config) ∧
  Forall keptLine (filter (λ w, w ≠ []) (splitOn nl out)) ∧ filterReadOnlyFields out = out.
Proof.
  cbn zeta. unfold filterReadOnlyFields. set (l := filter keptLine (splitOn nl config)).
  assert (filter keptLine (splitOn nl (joinLines l)) = l) as E.
  { destruct (decide (l = [])) as [El|El]; [rewrite El; done|]. rewrite lines_split_join by (try done; apply kept_pieces).
    apply list_filter_all. intros w Hw. by apply list_elem_of_filter in Hw as [? _]. }
  split_and!; [done| |by rewrite E]. apply Forall_forall. intros w Hw. apply list_elem_of_filter in Hw as [Hne Hw].
  destruct (decide (l = [])) as [El|El]; [rewrite El in Hw; simpl in Hw; set_solver|].
  rewrite lines_split_join in Hw by (try done; apply kept_pieces). by apply list_elem_of_filter in Hw as [? _].
Qed.

(** ** Setting up ([newt/clients.go]) *)

(** The host part of the endpoint. *)
Definition setupHost (endpoint : string) : string :=
  TrimSuffix "/" (if startsWith "http://" endpoint then TrimPrefix "http://" endpoint
                  else if startsWith "https://" endpoint then TrimPrefix "https://" endpoint else endpoint).

(** Root, the capability CAP_NET_ADMIN, or a test interface that can be made.
    [caps] is the effective set, [None] when it cannot be read. *)
Definition CheckNativeInterfacePermissions (euid : Z) (caps : option Z) (tryCreateTestTun : bool) : bool :=
  if euid =? 0 then true
  else match caps with
  | Some effective => if negb (Z.land effective (Z.shiftl 1 12) =? 0) then true else tryCreateTestTun
  | None => tryCreateTestTun
  end.

Definition tryCreateTestTun (opened ioctl : bool) : bool := opened && ioctl.

(** [None]: the program ends; otherwise the service. *)
Definition setupClients (native permitted : bool) (create : go (option wgLife)) : go (option wgLife) :=
  if native && negb permitted then Ret None else create.

Module ClientServiceExamples.

Definition conn0 : UDPConn := mkUDPConn 1 51820.
Definition made : go (option wgLife) := NewWireGuardService true (λ _, 0%nat) (λ _, true) (λ _, Some conn0) 51820 "9.9.9.9".
Definition life0 : wgLife := match made with Ret (Some s) => s | _ => mkLife None [] false false false false false false None 0 "" "" end.

Lemma made_ok : made = Ret (Some life0).
Proof. vm_compute. reflexivity. Qed.

Lemma close_releases_socket_witness : wl_events (Close (foldl lifeStep life0 [LLoad "a"; LConfigured false true true])) = [EvCloseConn conn0].
Proof.
  destruct (close_releases_socket true (λ _, 0%nat) (λ _, true) (λ _, Some conn0) 51820 "9.9.9.9" life0
    [LLoad "a"; LConfigured false true true] made_ok) as (conn & p & [= <-] & H & _). exact H.
Defined.

Lemma checkers_accumulate_witness : wl_checkers (Close (foldl lifeStep life0 [LLoad "a"; LLoad "b"; LLoad "c"])) = 3%nat.
Proof.
  destruct (checkers_accumulate true (λ _, 0%nat) (λ _, true) (λ _, Some conn0) 51820 "9.9.9.9" life0
    [LLoad "a"; LLoad "b"; LLoad "c"] made_ok) as [H1 H2]. rewrite H2, H1. reflexivity.
Defined.

(** A name server that is not an address. *)
Lemma dns_name_panics : NewWireGuardService true (λ _, 0%nat) (λ _, true) (λ _, Some conn0) 51820 "dns.example.com" = Panic.
Proof. vm_compute. reflexivity. Qed.

Lemma host_examples : setupHost "https://example.com/" = "example.com"%string ∧ setupHost "http://h:80" = "h:80"%string.
Proof. split; vm_compute; reflexivity. Qed.

End ClientServiceExamples.
