(* ===== verification/Bandwidth.v ===== *)
(** * Bandwidth reports ([clients/clients.go], [calculatePeerBandwidth])

    Every ten seconds the client service reads the byte counters of its
    WireGuard peers from the device and reports to the server what each peer
    transferred since the last reading.  The readings are kept by key; peers
    that are gone from the device are forgotten.

    Reported volumes are modelled in bytes; the code divides the byte count, as
    a float64, by 2^20, which is exact below 2^53 bytes. *)

From S2P Require Import Prelude NetipText HostPort Keys Clients.
From Stdlib Require Import Ascii.

Record PeerReading : Type := mkReading { rd_rx : Z; rd_tx : Z; rd_at : Z }.

(** The difference of two counters; a counter that went down was reset. *)
Definition counterDiff (cur last : Z) : Z :=
  let d := swrap64 (cur - last) in if d <? 0 then cur else d.

Definition processPeerBandwidth (publicKey : string) (rxBytes txBytes now : Z) (last : gmap string PeerReading)
    : gmap string PeerReading * option (string * Z * Z) :=
  let last' := <[publicKey := mkReading rxBytes txBytes now]> last in
  match last !! publicKey with
  | Some l =>
      if 0 <? timeSub now (rd_at l) then
        let bytesIn := counterDiff rxBytes (rd_rx l) in
        let bytesOut := counterDiff txBytes (rd_tx l) in
        (last', if (0 <? bytesIn) || (0 <? bytesOut) then Some (publicKey, bytesIn, bytesOut) else None)
      else (last', None)
  | None => (last', None)
  end.

(** The variables of the loop over the lines. *)
Record bwState : Type := mkBw {
  bw_key : string; bw_rx : Z; bw_tx : Z; bw_last : gmap string PeerReading; bw_out : list (string * Z * Z) }.

(** [if currentPubKey != "" { ... }] *)
Definition bwFlush (now : Z) (st : bwState) : bwState :=
  if bool_decide (bw_key st = "") then st
  else
    let '(last, r) := processPeerBandwidth (bw_key st) (bw_rx st) (bw_tx st) now (bw_last st) in
    mkBw (bw_key st) (bw_rx st) (bw_tx st) last (bw_out st ++ option_list r).

Definition bwLine (now : Z) (st : bwState) (line : list ascii) : bwState :=
  match trimPrefix (str "public_key=") line with
  | Some k => let st := bwFlush now st in mkBw (unstr k) 0 0 (bw_last st) (bw_out st)
  | None =>
      match trimPrefix (str "rx_bytes=") line with
      | Some v => mkBw (bw_key st) (AtoiValue (unstr v)) (bw_tx st) (bw_last st) (bw_out st)
      | None =>
          match trimPrefix (str "tx_bytes=") line with
          | Some v => mkBw (bw_key st) (bw_rx st) (AtoiValue (unstr v)) (bw_last st) (bw_out st)
          | None => st
          end
      end
  end.

(** The locked part of [calculatePeerBandwidth]: the new readings and the
    report, by the device's keys. *)
Definition peerReports (stats : string) (now : Z) (last : gmap string PeerReading)
    : gmap string PeerReading * list (string * Z * Z) :=
  let st := bwFlush now (foldl (bwLine now) (mkBw "" 0 0 last []) (lines stats)) in
  (filter (λ '(k, _), k ∈ peerKeys stats) (bw_last st), bw_out st).

Fixpoint unfixAll (l : list (string * Z * Z)) : go (list (string * Z * Z)) :=
  match l with
  | [] => Ret []
  | (k, a, b) :: l' => k' ← UnfixKey k; r ← unfixAll l'; Ret ((k', a, b) :: r)
  end.

(** [device]: [None] when there is none, else what [IpcGet] returns; the report
    is [None] on an error. *)
Definition calculatePeerBandwidth (device : option (option string)) (now : Z) (last : gmap string PeerReading)
    : go (gmap string PeerReading * option (list (string * Z * Z))) :=
  match device with
  | None => Ret (last, Some [])
  | Some None => Ret (last, None)
  | Some (Some stats) =>
      let '(last', out) := peerReports stats now last in
      out' ← unfixAll out; Ret (last', Some out')
  end.

(** ** What the text says *)

(** The blocks of the device's text: the first line of each peer is its key,
    and the last value of a counter counts. *)
Fixpoint statBlocks (cur : option (string * Z * Z)) (ls : list (list ascii)) : list (string * Z * Z) :=
  match ls with
  | [] => option_list cur
  | l :: ls' =>
      match trimPrefix (str "public_key=") l with
      | Some k => option_list cur ++ statBlocks (Some (unstr k, 0, 0)) ls'
      | None =>
          match cur with
          | None => statBlocks None ls'
          | Some (k, rx, tx) =>
              match trimPrefix (str "rx_bytes=") l with
              | Some v => statBlocks (Some (k, AtoiValue (unstr v), tx)) ls'
              | None => match trimPrefix (str "tx_bytes=") l with
                        | Some v => statBlocks (Some (k, rx, AtoiValue (unstr v))) ls'
                        | None => statBlocks cur ls'
                        end
              end
          end
      end
  end.

Definition statsOf (stats : string) : list (string * Z * Z) := statBlocks None (lines stats).

(** Processing the peers one after the other. *)
Definition report (now : Z) (acc : gmap string PeerReading * list (string * Z * Z)) (p : string * Z * Z) :=
  let '(last', r) := processPeerBandwidth p.1.1 p.1.2 p.2 now acc.1 in (last', acc.2 ++ option_list r).

Definition processAll (now : Z) (ps : list (string * Z * Z)) (last : gmap string PeerReading)
    : gmap string PeerReading * list (string * Z * Z) := foldl (report now) (last, []) ps.

Definition keysOf (ps : list (string * Z * Z)) : list string := (λ p, p.1.1) <$> ps.

(** ** Lemmas: parsing *)

(** The peer whose lines are being read. *)
Definition current (st : bwState) : option (string * Z * Z) :=
  if bool_decide (bw_key st = "") then None else Some (bw_key st, bw_rx st, bw_tx st).

Lemma bwFlush_current now st :
  (bw_last (bwFlush now st), bw_out (bwFlush now st)) =
  foldl (report now)
    (bw_last st, bw_out st) (option_list (current st)).
Proof.
  unfold bwFlush, current. case_bool_decide; [done|]. simpl. unfold report. simpl.
  by destruct (processPeerBandwidth _ _ _ _ _).
Qed.

(** No key is empty: the device names its peers. *)
Definition namedPeers (stats : string) : Prop := Forall (λ k, k ≠ ""%string) (peerKeys stats).

Lemma statBlocks_key cur k l ls :
  trimPrefix (str "public_key=") l = Some k → statBlocks cur (l :: ls) = option_list cur ++ statBlocks (Some (unstr k, 0, 0)) ls.
Proof. intros E. change (statBlocks cur (l :: ls)) with (statBlocks cur ([l] ++ ls)). cbn [app statBlocks]. by rewrite E. Qed.

(** A line that is no key changes the counters of the current peer at most. *)
Definition counterLine (l : list ascii) (p : string * Z * Z) : string * Z * Z :=
  let '(k, rx, tx) := p in
  match trimPrefix (str "rx_bytes=") l with
  | Some v => (k, AtoiValue (unstr v), tx)
  | None => match trimPrefix (str "tx_bytes=") l with
            | Some v => (k, rx, AtoiValue (unstr v))
            | None => p
            end
  end.

Lemma counterLine_key l p : (counterLine l p).1.1 = p.1.1.
Proof.
  destruct p as [[k rx] tx]. unfold counterLine. destruct (trimPrefix (str "rx_bytes=") l); [done|].
  by destruct (trimPrefix (str "tx_bytes=") l).
Qed.

Lemma statBlocks_other cur l ls :
  trimPrefix (str "public_key=") l = None → statBlocks cur (l :: ls) = statBlocks (counterLine l <$> cur) ls.
Proof.
  intros E. cbn [statBlocks]. rewrite E. destruct cur as [[[k rx] tx]|]; [|done]. cbn [fmap option_fmap option_map]. unfold counterLine.
  destruct (trimPrefix (str "rx_bytes=") l); [done|]. by destruct (trimPrefix (str "tx_bytes=") l).
Qed.

Lemma loop_blocks now ls : ∀ st,
  Forall (λ l, trimPrefix (str "public_key=") l ≠ Some []) ls →
  let st' := bwFlush now (foldl (bwLine now) st ls) in
  (bw_last st', bw_out st') =
  foldl (report now)
    (bw_last st, bw_out st) (statBlocks (current st) ls).
Proof.
  induction ls as [|l ls IH]; intros st Hls; cbn zeta; [apply bwFlush_current|].
  apply Forall_cons in Hls as [Hl Hls]. change (foldl (bwLine now) st (l :: ls)) with (foldl (bwLine now) (bwLine now st l) ls).
  rewrite IH by done. unfold bwLine at 1 2 3. destruct (trimPrefix (str "public_key=") l) as [k|] eqn:Ek.
  - assert (unstr k ≠ ""%string) as Hk by (destruct k; [done|discriminate]).
    rewrite (statBlocks_key _ k) by done. rewrite foldl_app, <- bwFlush_current. f_equal.
    unfold current at 1. cbn [bw_key bw_rx bw_tx]. by rewrite bool_decide_false.
  - rewrite statBlocks_other by done. unfold current, counterLine. destruct (trimPrefix (str "rx_bytes=") l); [cbn; by case_bool_decide|].
    destruct (trimPrefix (str "tx_bytes=") l); cbn; by case_bool_decide.
Qed.

Lemma named_lines stats : namedPeers stats → Forall (λ l, trimPrefix (str "public_key=") l ≠ Some []) (lines stats).
Proof.
  intros Hn. apply Forall_forall. intros l Hl Hk. unfold namedPeers in Hn. rewrite Forall_forall in Hn. apply (Hn ""%string); [|done].
  apply list_elem_of_omap. exists l. by rewrite Hk.
Qed.

Lemma peerReports_blocks stats now last :
  namedPeers stats →
  peerReports stats now last =
  let '(last', out) := processAll now (statsOf stats) last in (filter (λ '(k, _), k ∈ peerKeys stats) last', out).
Proof.
  intros Hn. unfold peerReports, processAll, statsOf. pose proof (loop_blocks now (lines stats) (mkBw "" 0 0 last []) (named_lines _ Hn)) as Hb.
  simpl in Hb. change (current (mkBw "" 0 0 last [])) with (@None (string * Z * Z)) in Hb. by rewrite <- Hb.
Qed.

Lemma keys_blocks cur ls :
  keysOf (statBlocks cur ls) = keysOf (option_list cur) ++ omap (λ l, unstr <$> trimPrefix (str "public_key=") l) ls.
Proof.
  revert cur. induction ls as [|l ls IH]; intros cur; [simpl; by rewrite app_nil_r|]. cbn [omap list_omap].
  destruct (trimPrefix (str "public_key=") l) as [k|] eqn:Ek.
  - rewrite (statBlocks_key _ k) by done. unfold keysOf. rewrite fmap_app. f_equal. apply IH.
  - rewrite statBlocks_other by done. rewrite IH. cbn [fmap option_fmap option_map]. f_equal. destruct cur as [p|]; [|done].
    change ([(counterLine l p).1.1] = [p.1.1]). by rewrite counterLine_key.
Qed.

Lemma keys_statsOf stats : keysOf (statsOf stats) = peerKeys stats.
Proof. apply keys_blocks. Qed.

(** ** Lemmas: readings *)

Definition statOf (k : string) (stats : string) : option (Z * Z) :=
  match filter (λ p, p.1.1 = k) (statsOf stats) with (_, rx, tx) :: _ => Some (rx, tx) | [] => None end.

(** What a peer's new counters add to its last reading. *)
Definition increments (now : Z) (last : option PeerReading) (cur : option (Z * Z)) : Z * Z :=
  match last, cur with
  | Some l, Some (rx, tx) => if 0 <? timeSub now (rd_at l) then (counterDiff rx (rd_rx l), counterDiff tx (rd_tx l)) else (0, 0)
  | _, _ => (0, 0)
  end.

Definition totalFor (k : string) (out : list (string * Z * Z)) : Z * Z :=
  let mine := filter (λ p, p.1.1 = k) out in (zsum (λ p, p.1.2) mine, zsum (λ p, p.2) mine).

Definition byteCounter (z : Z) : Prop := 0 <= z < 2 ^ 63.

Lemma counterDiff_spec cur last :
  byteCounter cur → byteCounter last → counterDiff cur last = (if cur <? last then cur else cur - last) ∧ 0 <= counterDiff cur last.
Proof.
  unfold byteCounter, counterDiff. intros. rewrite swrap64_id by lia.
  destruct (Z.ltb_spec (cur - last) 0), (Z.ltb_spec cur last); lia.
Qed.

(** One peer: its own reading is replaced, others stay, and the report is the
    increment. *)
Lemma process_spec k rx tx now last :
  byteCounter rx → byteCounter tx → (∀ l, last !! k = Some l → byteCounter (rd_rx l) ∧ byteCounter (rd_tx l)) →
  let '(last', r) := processPeerBandwidth k rx tx now last in
  last' = <[k := mkReading rx tx now]> last ∧ totalFor k (option_list r) = increments now (last !! k) (Some (rx, tx)) ∧
  ∀ k', k' ≠ k → totalFor k' (option_list r) = (0, 0).
Proof.
  intros Hrx Htx Hl. unfold processPeerBandwidth, increments. destruct (last !! k) as [l|] eqn:El; [|done].
  destruct (0 <? timeSub now (rd_at l)); [|done]. destruct (Hl l eq_refl) as [Hlr Hlt].
  destruct (counterDiff_spec rx (rd_rx l)) as [_ H1]; [done..|]. destruct (counterDiff_spec tx (rd_tx l)) as [_ H2]; [done..|].
  set (a := counterDiff rx (rd_rx l)) in *. set (b := counterDiff tx (rd_tx l)) in *. split; [done|].
  destruct (_ || _) eqn:E.
  - unfold totalFor. simpl option_list. split.
    + rewrite filter_cons_True by done. simpl. f_equal; lia.
    + intros k' Hk'. rewrite filter_cons_False by (simpl; congruence). done.
  - apply orb_false_iff in E as [E1%Z.ltb_ge E2%Z.ltb_ge]. split; [|done]. unfold totalFor. simpl. f_equal; lia.
Qed.

Lemma totalFor_app k l1 l2 :
  totalFor k (l1 ++ l2) = ((totalFor k l1).1 + (totalFor k l2).1, (totalFor k l1).2 + (totalFor k l2).2).
Proof. unfold totalFor. simpl. by rewrite filter_app, !zsum_app. Qed.

(** The readings are byte counters. *)
Definition readingsOK (last : gmap string PeerReading) : Prop :=
  ∀ k l, last !! k = Some l → byteCounter (rd_rx l) ∧ byteCounter (rd_tx l).

Definition statsOK (ps : list (string * Z * Z)) : Prop := Forall (λ p, byteCounter p.1.2 ∧ byteCounter p.2) ps.

Lemma processAll_spec now k ps : ∀ last out last' out',
  readingsOK last → statsOK ps → NoDup (keysOf ps) →
  foldl (report now) (last, out) ps = (last', out') →
  readingsOK last' ∧
  match filter (λ p, p.1.1 = k) ps with
  | (_, rx, tx) :: _ =>
      last' !! k = Some (mkReading rx tx now) ∧
      totalFor k out' = ((totalFor k out).1 + (increments now (last !! k) (Some (rx, tx))).1,
                         (totalFor k out).2 + (increments now (last !! k) (Some (rx, tx))).2)
  | [] => last' !! k = last !! k ∧ totalFor k out' = totalFor k out
  end.
Proof.
  induction ps as [|[[q rx] tx] ps IH]; intros last out last' out' Hr Hs Hn Hf; [by injection Hf as <- <-|].
  apply Forall_cons in Hs as [[Hrx Htx] Hs]. apply NoDup_cons in Hn as [Hq Hn]. simpl in Hf, Hrx, Htx. unfold report at 2 in Hf. simpl in Hf.
  pose proof (process_spec q rx tx now last Hrx Htx (Hr q)) as Hp. destruct (processPeerBandwidth q rx tx now last) as [last1 r].
  destruct Hp as (-> & Hq1 & Hother).
  assert (readingsOK (<[q := mkReading rx tx now]> last)) as Hr1.
  { intros x l. destruct (decide (x = q)) as [->|]; [rewrite lookup_insert_eq; by intros [= <-]|rewrite lookup_insert_ne by done; apply Hr]. }
  destruct (IH _ _ _ _ Hr1 Hs Hn Hf) as [Hr' Hk]. split; [done|]. destruct (decide (q = k)) as [->|Hne].
  - rewrite filter_cons_True by done. rewrite list_filter_none in Hk.
    + destruct Hk as [Hl Ht]. rewrite lookup_insert_eq in Hl. split; [done|]. by rewrite Ht, totalFor_app, Hq1.
    + intros x Hx Ex. apply Hq, list_elem_of_fmap. by exists x.
  - rewrite filter_cons_False by done. rewrite lookup_insert_ne in Hk by done.
    assert (totalFor k (out ++ option_list r) = totalFor k out) as Et
      by (rewrite totalFor_app, Hother by done; destruct (totalFor k out); simpl; f_equal; lia).
    rewrite Et in Hk. exact Hk.
Qed.

(** What the device's text must be: named peers, each once, with counters. *)
Definition goodStats (stats : string) : Prop :=
  namedPeers stats ∧ NoDup (peerKeys stats) ∧ statsOK (statsOf stats).

Lemma statOf_None k stats : statOf k stats = None ↔ k ∉ peerKeys stats.
Proof.
  unfold statOf. rewrite <- keys_statsOf. unfold keysOf. rewrite list_elem_of_fmap. split.
  - destruct (filter _ _) as [|[[? ?] ?] ?] eqn:E; [|done]. intros _ (p & -> & Hp).
    assert (p ∈ filter (λ q, q.1.1 = p.1.1) (statsOf stats)) as Hin by (by apply list_elem_of_filter). rewrite E in Hin. by apply elem_of_nil in Hin.
  - intros Hn. destruct (filter _ _) as [|p l] eqn:E; [done|]. destruct Hn. exists p.
    assert (p ∈ filter (λ q, q.1.1 = k) (statsOf stats)) as [? ?]%list_elem_of_filter by (rewrite E; left). done.
Qed.

Lemma peerReports_spec stats now last k :
  goodStats stats → readingsOK last →
  let '(last', out) := peerReports stats now last in
  readingsOK last' ∧
  last' !! k = (λ '(rx, tx), mkReading rx tx now) <$> statOf k stats ∧
  totalFor k out = increments now (last !! k) (statOf k stats).
Proof.
  intros (Hn & Hd & Hs) Hr. rewrite peerReports_blocks by done. unfold processAll.
  destruct (foldl (report now) (last, []) (statsOf stats)) as [last' out] eqn:E.
  destruct (processAll_spec now k (statsOf stats) last [] last' out) as [Hr' Hk]; [done..|by rewrite keys_statsOf|done|].
  pose proof (statOf_None k stats) as HN. split; [|].
  - intros x l Hx. apply map_lookup_filter_Some in Hx as [Hx _]. by eapply Hr'.
  - unfold statOf in *. destruct (filter _ (statsOf stats)) as [|[[q rx] tx] ps] eqn:Ef; destruct Hk as [Hl Ht].
    + split; [|rewrite Ht; by destruct (last !! k)]. apply map_lookup_filter_None. right. intros y _. by apply HN.
    + split; [|rewrite Ht; by destruct (increments now (last !! k) (Some (rx, tx)))]. apply map_lookup_filter_Some. split; [done|].
      destruct (decide (k ∈ peerKeys stats)) as [|Hni]; [done|]. by apply HN in Hni.
Qed.

(** ** Properties *)

(** A run of the report: the times and the device's texts. *)
Fixpoint reportAll (calls : list (Z * string)) (last : gmap string PeerReading) : list (string * Z * Z) :=
  match calls with
  | [] => []
  | (now, stats) :: calls' => let '(last', out) := peerReports stats now last in out ++ reportAll calls' last'
  end.

(** What a counter moved by; one that went down started again. *)
Definition moved (a b : Z) : Z := if b <? a then b else b - a.

(** What a peer transferred between the texts in which it is present. *)
Fixpoint transferred (k : string) (prev : option (Z * Z)) (calls : list (Z * string)) : Z * Z :=
  match calls with
  | [] => (0, 0)
  | (_, stats) :: calls' =>
      let cur := statOf k stats in
      let '(a, b) := match prev, cur with
                     | Some (rx0, tx0), Some (rx, tx) => (moved rx0 rx, moved tx0 tx)
                     | _, _ => (0, 0)
                     end in
      let '(x, y) := transferred k cur calls' in (a + x, b + y)
  end.

(** The readings are taken one after the other. *)
Fixpoint inOrder (t : Z) (calls : list (Z * string)) : Prop :=
  match calls with [] => True | (now, _) :: calls' => t < now ∧ inOrder now calls' end.

Lemma timeSub_pos t u : u < t → (0 <? timeSub t u) = true.
Proof. intros. apply Z.ltb_lt. unfold timeSub. lia. Qed.

Lemma statOf_counters k stats rx tx : goodStats stats → statOf k stats = Some (rx, tx) → byteCounter rx ∧ byteCounter tx.
Proof.
  intros (_ & _ & Hs). unfold statOf. destruct (filter _ (statsOf stats)) as [|[[q rx'] tx'] l] eqn:E; [done|]. intros [= <- <-].
  assert ((q, rx', tx') ∈ filter (λ p, p.1.1 = k) (statsOf stats)) as [_ Hin]%list_elem_of_filter by (rewrite E; left).
  unfold statsOK in Hs. rewrite Forall_forall in Hs. apply (Hs _ Hin).
Qed.

Lemma reportAll_total k calls : ∀ t last prev,
  Forall (λ c, goodStats c.2) calls → inOrder t calls → readingsOK last →
  last !! k = (λ '(rx, tx), mkReading rx tx t) <$> prev →
  totalFor k (reportAll calls last) = transferred k prev calls.
Proof.
  induction calls as [|[now stats] calls IH]; intros t last prev Hg Ho Hr Hl; [done|].
  apply Forall_cons in Hg as [Hg Hgs]. destruct Ho as [Ht Ho]. simpl in Hg. cbn [reportAll transferred].
  pose proof (peerReports_spec stats now last k Hg Hr) as Hs. destruct (peerReports stats now last) as [last' out].
  destruct Hs as (Hr' & Hl' & Htot). rewrite totalFor_app, (IH now last' (statOf k stats)), Htot by done.
  destruct (transferred k (statOf k stats) calls) as [x y]. rewrite Hl.
  destruct prev as [[rx0 tx0]|]; cbn [fmap option_fmap option_map increments]; [|done].
  destruct (statOf k stats) as [[rx tx]|] eqn:Es; [|done]. cbn [rd_at rd_rx rd_tx]. rewrite timeSub_pos by done.
  destruct (statOf_counters k stats rx tx Hg Es). specialize (Hr k _ Hl) as [? ?]. simpl in *.
  destruct (counterDiff_spec rx rx0) as [-> _]; [done..|]. destruct (counterDiff_spec tx tx0) as [-> _]; [done..|]. done.
Qed.

(** A peer's counters only grow along the texts, from [(rx, tx)] on. *)
Fixpoint growing (k : string) (rx tx : Z) (calls : list (Z * string)) : option (Z * Z) :=
  match calls with
  | [] => Some (rx, tx)
  | (_, stats) :: calls' =>
      match statOf k stats with
      | Some (rx', tx') => if (rx <=? rx') && (tx <=? tx') then growing k rx' tx' calls' else None
      | None => None
      end
  end.

Lemma transferred_growing k calls : ∀ rx tx rx' tx',
  growing k rx tx calls = Some (rx', tx') → transferred k (Some (rx, tx)) calls = (rx' - rx, tx' - tx).
Proof.
  induction calls as [|[now stats] calls IH]; intros rx tx rx' tx'; cbn [growing transferred].
  - intros [= <- <-]. f_equal; lia.
  - destruct (statOf k stats) as [[rx1 tx1]|]; [|done]. destruct (_ && _) eqn:E; [|done]. intros Hg.
    rewrite (IH _ _ _ _ Hg). apply andb_true_iff in E as [?%Z.leb_le ?%Z.leb_le]. unfold moved.
    destruct (Z.ltb_spec rx1 rx), (Z.ltb_spec tx1 tx); f_equal; lia.
Qed.


(** ** Examples *)

Module BandwidthExamples.

Definition text (rx tx : Z) : string :=
  "private_key=00" +:+ NL +:+ "public_key=0a0b" +:+ NL +:+ "rx_bytes=" +:+ itoa rx +:+ NL +:+ "tx_bytes=" +:+ itoa tx +:+ NL
  +:+ "public_key=0c" +:+ NL +:+ "errno=0" +:+ NL.

Example parsed : statsOf (text 10 20) = [("0a0b"%string, 10, 20); ("0c"%string, 0, 0)].
Proof. by vm_compute. Qed.

Example reported :
  ∃ last, calculatePeerBandwidth (Some (Some (text 15 20))) 5 {[ "0a0b"%string := mkReading 10 20 4; "dead"%string := mkReading 1 1 1 ]}
  = Ret (last, Some [("Cgs="%string, 5, 0)]) ∧ last !! "dead"%string = None.
Proof. eexists. by vm_compute. Qed.

(** Two goroutines that read the device and take the lock in opposite orders
    report the bytes in between twice. *)
Example out_of_order :
  totalFor "0a0b" (reportAll [(1, text 0 0); (3, text 100 0); (2, text 40 0); (4, text 100 0)] ∅) = (160, 0).
Proof. by vm_compute. Qed.

Lemma good rx tx : byteCounter rx → byteCounter tx → statsOf (text rx tx) = [("0a0b"%string, rx, tx); ("0c"%string, 0, 0)] →
  goodStats (text rx tx).
Proof.
  intros Hrx Htx Hs. assert (peerKeys (text rx tx) = ["0a0b"; "0c"]%string) as Hk by (by rewrite <- keys_statsOf, Hs).
  split_and!.
  - unfold namedPeers. rewrite Hk. by repeat constructor.
  - rewrite Hk. apply NoDup_cons. split; [set_solver|apply NoDup_singleton].
  - unfold statsOK. rewrite Hs. apply Forall_cons_2; [by split|]. apply Forall_cons_2; [split; unfold byteCounter; simpl; lia|constructor].
Qed.


End BandwidthExamples.
