(* ===== verification/Relay.v ===== *)
(** * The direct UDP relay ([clients/clients.go])

    Clients that reach the site through the main tunnel send their WireGuard
    packets to a port of the tunnel's netstack.  The relay reads them there and
    injects them into the shared socket of the client device, which answers
    through the same listener ([SharedBind.v]).  A goroutine runs per relay; a
    new relay replaces the old one, and stopping waits for the goroutine.

    The state holds the fields of the service the relay uses, its goroutines
    and the listeners that are open.  Starting and stopping are called one at a
    time; each waits for the goroutines, so that a call is a step up to the
    wait and a step after it, with the goroutine's steps in between. *)

From S2P Require Import Prelude Netip NetipText SharedBind.

(** A relay goroutine on its listener: before its look at the stop channel, or
    reading. *)
Inductive relayG : Type := RTop (l : nat) | RRead (l : nat).

(** What follows the wait. *)
Inductive pendingCall : Type := PStop | PStart (tunnelIP : string) (listens : bool).

Record relay : Type := mkRelay {
  ry_bind : SharedBind;
  ry_stop : option nat;              (* directRelayStop *)
  ry_closed : gset nat;              (* closed channels *)
  ry_listener : option nat;          (* netstackListener *)
  ry_open : gset nat;                (* listeners that are open *)
  ry_gs : gmap nat relayG;
  ry_next : nat;
  ry_call : option pendingCall;
  ry_othertnet : bool }.             (* othertnet != nil *)

Definition set_rg (gs : gmap nat relayG) (y : relay) : relay :=
  mkRelay (ry_bind y) (ry_stop y) (ry_closed y) (ry_listener y) (ry_open y) gs (ry_next y) (ry_call y) (ry_othertnet y).
Definition set_rcall (c : option pendingCall) (y : relay) : relay :=
  mkRelay (ry_bind y) (ry_stop y) (ry_closed y) (ry_listener y) (ry_open y) (ry_gs y) (ry_next y) c (ry_othertnet y).
Definition set_rbind (b : SharedBind) (y : relay) : relay :=
  mkRelay b (ry_stop y) (ry_closed y) (ry_listener y) (ry_open y) (ry_gs y) (ry_next y) (ry_call y) (ry_othertnet y).

(** ** Operations *)

(** [StopDirectUDPRelay] up to the wait; closing a closed channel panics. *)
Definition stopBegin (y : relay) : go relay :=
  match ry_stop y with
  | None => Ret y
  | Some c =>
      if bool_decide (c ∈ ry_closed y) then Panic
      else Ret (mkRelay (ry_bind y) (ry_stop y) (ry_closed y ∪ {[c]}) (ry_listener y) (ry_open y) (ry_gs y) (ry_next y)
                  (ry_call y) (ry_othertnet y))
  end.

(** [StopDirectUDPRelay] after the wait. *)
Definition stopEnd (y : relay) : relay :=
  mkRelay (ClearNetstackConn (ry_bind y)) None (ry_closed y) None
    (match ry_listener y with Some l => ry_open y ∖ {[l]} | None => ry_open y end)
    (ry_gs y) (ry_next y) (ry_call y) (ry_othertnet y).

(** The rest of [StartDirectUDPRelay]. *)
Definition startEnd (tunnelIP : string) (listens : bool) (y : relay) : relay :=
  let y := mkRelay (ry_bind y) (Some (ry_next y)) (ry_closed y) (ry_listener y) (ry_open y) (ry_gs y) (S (ry_next y))
             (ry_call y) (ry_othertnet y) in
  match ParseIP tunnelIP with
  | None => y
  | Some _ =>
      if negb listens then y
      else
        let l := ry_next y in
        mkRelay (SetNetstackConn l (ry_bind y)) (ry_stop y) (ry_closed y) (Some l) (ry_open y ∪ {[l]})
          (<[S l := RTop l]> (ry_gs y)) (S (S l)) (ry_call y) (ry_othertnet y)
  end.

(** Whether the stop channel is seen closed; a nil channel never is. *)
Definition stopped (y : relay) : bool :=
  match ry_stop y with Some c => bool_decide (c ∈ ry_closed y) | None => false end.

(** What a read returns. *)
Inductive readOutcome : Type :=
  | ReadPacket (data : list Z) (from : AddrPort) | ReadTimeout | ReadError | ReadOther (* not a UDP address *).

Inductive relayAct : Type :=
  | YSetOthertnet (tnet : bool)
  | YStart (tunnelIP : string) (listens : bool)
  | YStop
  | YDone                                 (* the wait is over *)
  | YTop (g : nat)
  | YRead (g : nat) (r : readOutcome).

(** [None]: the step is not possible. *)
Definition ystep (y : relay) (a : relayAct) : option (go relay) :=
  match a with
  | YSetOthertnet b =>
      Some (Ret (mkRelay (ry_bind y) (ry_stop y) (ry_closed y) (ry_listener y) (ry_open y) (ry_gs y) (ry_next y) (ry_call y) b))
  | YStart ip listens =>
      if negb (bool_decide (is_Some (ry_call y)))
      then Some (if negb (ry_othertnet y) then Ret y else y ← stopBegin y; Ret (set_rcall (Some (PStart ip listens)) y))
      else None
  | YStop =>
      if negb (bool_decide (is_Some (ry_call y))) then Some (y ← stopBegin y; Ret (set_rcall (Some PStop) y)) else None
  | YDone =>
      match ry_call y with
      | Some c =>
          if bool_decide (ry_gs y = ∅) || bool_decide (ry_stop y = None)
          then Some (Ret (set_rcall None (match c with PStop => stopEnd y | PStart ip listens => startEnd ip listens (stopEnd y) end)))
          else None
      | None => None
      end
  | YTop g =>
      match ry_gs y !! g with
      | Some (RTop l) => Some (Ret (set_rg (if stopped y then delete g (ry_gs y) else <[g := RRead l]> (ry_gs y)) y))
      | _ => None
      end
  | YRead g r =>
      match ry_gs y !! g with
      | Some (RRead l) =>
          Some (Ret (match r with
                     | ReadPacket data from => set_rbind (InjectPacket data (unmapAddrPort from) (ry_bind y)).1 (set_rg (<[g := RTop l]> (ry_gs y)) y)
                     | ReadError => set_rg (if stopped y then delete g (ry_gs y) else <[g := RTop l]> (ry_gs y)) y
                     | ReadTimeout | ReadOther => set_rg (<[g := RTop l]> (ry_gs y)) y
                     end))
      | _ => None
      end
  end.

Fixpoint yrun (y : relay) (l : list relayAct) : option (go relay) :=
  match l with
  | [] => Some (Ret y)
  | a :: l' => match ystep y a with
               | Some (Ret y') => yrun y' l'
               | r => r
               end
  end.

(** A service that has just been created. *)
Definition relayInit (b : SharedBind) : relay := mkRelay b None ∅ None ∅ ∅ 0 None false.

(** ** Invariant *)

Definition gListener (s : relayG) : nat := match s with RTop l | RRead l => l end.

(** A goroutine has the service's listener, which is the only open one, and a
    stop channel to hear from; that is closed exactly while a call waits. *)
Record relay_ok (y : relay) : Prop := {
  yk_open : ry_open y = match ry_listener y with Some l => {[l]} | None => ∅ end;
  yk_gs : ∀ g s, ry_gs y !! g = Some s → ry_listener y = Some (gListener s) ∧ is_Some (ry_stop y);
  yk_one : ∀ g g' s s', ry_gs y !! g = Some s → ry_gs y !! g' = Some s' → g = g';
  yk_stop : ∀ c, ry_stop y = Some c → (c < ry_next y)%nat ∧ (c ∈ ry_closed y ↔ is_Some (ry_call y));
  yk_closed : ∀ c, c ∈ ry_closed y → (c < ry_next y)%nat;
  yk_conn : netstackConn (ry_bind y) = ry_listener y }.

Lemma relay_init_ok b : netstackConn b = None → relay_ok (relayInit b).
Proof. intros Hb. split; simpl; try done; set_solver. Qed.

Lemma InjectPacket_conn d f b : netstackConn (InjectPacket d f b).1 = netstackConn b.
Proof. unfold InjectPacket. repeat case_match; simpl; auto. Qed.

(** Steps that change the goroutines only, keeping or removing one. *)
Lemma ok_goroutine y g s s' (keep : bool) :
  relay_ok y → ry_gs y !! g = Some s → gListener s' = gListener s →
  relay_ok (set_rg (if keep then <[g := s']> (ry_gs y) else delete g (ry_gs y)) y).
Proof.
  intros [Ho Hg H1 Hs Hc Hn] Hgs El. split; simpl; try done.
  - intros x t Hx. destruct keep; [|apply lookup_delete_Some in Hx as [_ Hx]; by eapply Hg].
    apply lookup_insert_Some in Hx as [[<- <-]|[_ Hx]]; [rewrite El; by eapply Hg|by eapply Hg].
  - intros x x' t t' Hx Hx'. assert (∀ z u, (if keep then <[g := s']> (ry_gs y) else delete g (ry_gs y)) !! z = Some u → z = g) as Hz.
    { intros z u Hz. destruct keep.
      - apply lookup_insert_Some in Hz as [[<- _]|[_ Hz]]; [done|by eapply H1].
      - apply lookup_delete_Some in Hz as [_ Hz]. by eapply H1. }
    rewrite (Hz _ _ Hx), (Hz _ _ Hx'). done.
Qed.

Lemma ok_inject y d f : relay_ok y → relay_ok (set_rbind (InjectPacket d f (ry_bind y)).1 y).
Proof.
  intros [Ho Hg H1 Hs Hc Hn]. split; simpl; try done. by rewrite InjectPacket_conn.
Qed.

Lemma ok_begin y c : relay_ok y → ry_call y = None → ∃ y', stopBegin y = Ret y' ∧ relay_ok (set_rcall (Some c) y').
Proof.
  intros [Ho Hg H1 Hs Hc Hn] Hcall. unfold stopBegin. destruct (ry_stop y) as [k|] eqn:Ek.
  - destruct (Hs k eq_refl) as [Hlt Hiff]. rewrite Hcall in Hiff. rewrite bool_decide_false by (intros [? ?]%Hiff; done).
    eexists. split; [done|]. split; simpl; try done.
    + intros k' [= <-]. split; [done|]. split; [by eexists|set_solver].
    + intros k' [? | ->%elem_of_singleton]%elem_of_union; [by apply Hc|done].
  - eexists. split; [done|]. split; simpl; rewrite ?Ek; done.
Qed.

Lemma ok_end y : relay_ok y → (ry_gs y = ∅ ∨ ry_stop y = None) → relay_ok (set_rcall None (stopEnd y)) ∧ ry_gs y = ∅.
Proof.
  intros [Ho Hg H1 Hs Hc Hn] Hdone. assert (ry_gs y = ∅) as He.
  { destruct Hdone as [?|E]; [done|]. apply map_empty. intros g. destruct (ry_gs y !! g) eqn:Eg; [|done].
    destruct (Hg _ _ Eg) as [_ [? ?]]. congruence. }
  split; [|done]. split; simpl; try done.
  - destruct (ry_listener y); rewrite Ho; set_solver.
  - intros g s. by rewrite He.
Qed.

Lemma ok_start y ip listens :
  relay_ok y → ry_call y = None → ry_stop y = None → ry_listener y = None → ry_gs y = ∅ → relay_ok (startEnd ip listens y).
Proof.
  intros [Ho Hg H1 Hs Hc Hn] Hcall Hst Hl He. unfold startEnd.
  assert (∀ c, c ∈ ry_closed y → (c < S (ry_next y))%nat) as Hc' by (intros c Hx; specialize (Hc c Hx); lia).
  assert (ry_next y ∉ ry_closed y) as Hfresh by (intros Hx; specialize (Hc _ Hx); lia).
  destruct (ParseIP ip); [destruct listens|]; split; simpl; rewrite ?He, ?Hl, ?Hcall in *; try done.
  all: try (intros c [= <-]; split; [lia|]; split; [done|by intros [? ?]]).
  - rewrite Ho. set_solver.
  - intros g s Hgs. apply lookup_insert_Some in Hgs as [[<- <-]|[_ Hgs]]; [by eauto|by rewrite lookup_empty in Hgs].
  - intros g g' s s' Hx Hx'. apply lookup_insert_Some in Hx as [[<- _]|[_ Hx]]; [|by rewrite lookup_empty in Hx].
    apply lookup_insert_Some in Hx' as [[<- _]|[_ Hx']]; [done|by rewrite lookup_empty in Hx'].
  - intros c Hx. specialize (Hc' c Hx). lia.
Qed.

Lemma ok_othertnet y b : relay_ok y →
  relay_ok (mkRelay (ry_bind y) (ry_stop y) (ry_closed y) (ry_listener y) (ry_open y) (ry_gs y) (ry_next y) (ry_call y) b).
Proof. by intros []. Qed.

(** A read keeps the goroutine or, on an error with the channel closed, ends it. *)
Lemma ok_read y g l r :
  relay_ok y → ry_gs y !! g = Some (RRead l) → ∃ y', ystep y (YRead g r) = Some (Ret y') ∧ relay_ok y'.
Proof.
  intros Hy Hg. simpl. rewrite Hg. eexists. split; [done|].
  pose proof (ok_goroutine y g (RRead l) (RTop l) true Hy Hg eq_refl) as Hk.
  destruct r; [exact (ok_inject _ _ _ Hk)|done| |done].
  destruct (stopped y); [exact (ok_goroutine y g (RRead l) (RTop l) false Hy Hg eq_refl)|done].
Qed.

Lemma ok_top y g l :
  relay_ok y → ry_gs y !! g = Some (RTop l) → ∃ y', ystep y (YTop g) = Some (Ret y') ∧ relay_ok y'.
Proof.
  intros Hy Hg. simpl. rewrite Hg. eexists. split; [done|].
  destruct (stopped y); [exact (ok_goroutine y g (RTop l) (RRead l) false Hy Hg eq_refl)
                        |exact (ok_goroutine y g (RTop l) (RRead l) true Hy Hg eq_refl)].
Qed.

(** After the wait nothing of the old relay is left. *)
Lemma ok_done y c :
  relay_ok y → ry_call y = Some c → ry_gs y = ∅ ∨ ry_stop y = None →
  relay_ok (set_rcall None (match c with PStop => stopEnd y | PStart ip listens => startEnd ip listens (stopEnd y) end)).
Proof.
  intros Hy Hc Hd. destruct (ok_end y Hy Hd) as [He Hg]. destruct c as [|ip listens]; [done|].
  assert (set_rcall None (startEnd ip listens (stopEnd y)) = startEnd ip listens (set_rcall None (stopEnd y))) as ->.
  { unfold startEnd. destruct (ParseIP ip); [destruct listens|]; done. }
  by apply ok_start.
Qed.

Lemma relay_step_ok y a r : relay_ok y → ystep y a = Some r → ∃ y', r = Ret y' ∧ relay_ok y'.
Proof.
  intros Hy Hs. destruct a as [b|ip listens| | |g|g o].
  - injection Hs as <-. eexists. split; [done|by apply ok_othertnet].
  - simpl in Hs. destruct (ry_call y) eqn:Ec; [done|]. injection Hs as <-. destruct (negb (ry_othertnet y)); [by eauto|].
    destruct (ok_begin y (PStart ip listens) Hy Ec) as (y' & -> & Hy'). by eauto.
  - simpl in Hs. destruct (ry_call y) eqn:Ec; [done|]. injection Hs as <-.
    destruct (ok_begin y PStop Hy Ec) as (y' & -> & Hy'). by eauto.
  - simpl in Hs. destruct (ry_call y) as [c|] eqn:Ec; [|done].
    destruct (bool_decide (ry_gs y = ∅) || bool_decide (ry_stop y = None)) eqn:Ed; [|done]. injection Hs as <-.
    eexists. split; [done|]. apply ok_done; [done..|]. apply orb_true_iff in Ed as [E|E]; apply bool_decide_eq_true in E; auto.
  - destruct (ry_gs y !! g) as [[l|l]|] eqn:Eg; [|simpl in Hs; by rewrite Eg in Hs..].
    destruct (ok_top y g l Hy Eg) as (y' & E & ?). rewrite E in Hs. injection Hs as <-. by eauto.
  - destruct (ry_gs y !! g) as [[l|l]|] eqn:Eg; [simpl in Hs; by rewrite Eg in Hs| |simpl in Hs; by rewrite Eg in Hs].
    destruct (ok_read y g l o Hy Eg) as (y' & E & ?). rewrite E in Hs. injection Hs as <-. by eauto.
Qed.

Lemma relay_run_ok l : ∀ y r, relay_ok y → yrun y l = Some r → ∃ y', r = Ret y' ∧ relay_ok y'.
Proof.
  induction l as [|a l IH]; simpl; intros y r Hy Hr; [injection Hr as <-; by eauto|].
  destruct (ystep y a) as [o|] eqn:Ea; [|done]. destruct (relay_step_ok _ _ _ Hy Ea) as (y' & -> & Hy'). by apply (IH y').
Qed.

(** ** What waits for a goroutine ends *)

(** Steps of goroutines. *)
Definition isGoroutineAct (a : relayAct) : bool := match a with YTop _ | YRead _ _ => true | _ => false end.

(** Steps a goroutine has left once the channel is closed. *)
Definition stepsLeft (y : relay) : nat :=
  map_fold (λ _ s n, match s with RTop _ => 1 | RRead _ => 2 end + n)%nat 0%nat (ry_gs y).

Lemma relay_one_goroutine y g s : relay_ok y → ry_gs y !! g = Some s → ry_gs y = {[g := s]}.
Proof.
  intros Hy Hg. apply map_eq. intros g'. destruct (decide (g' = g)) as [->|Hne]; [by rewrite lookup_singleton_eq|].
  rewrite lookup_singleton_ne by done. destruct (ry_gs y !! g') eqn:E; [|done]. by rewrite (yk_one y Hy _ _ _ _ E Hg) in Hne.
Qed.

Lemma stepsLeft_one y g s : relay_ok y → ry_gs y !! g = Some s → stepsLeft y = match s with RTop _ => 1%nat | RRead _ => 2%nat end.
Proof. intros Hy Hg. unfold stepsLeft. rewrite (relay_one_goroutine y g s Hy Hg), map_fold_singleton. by destruct s. Qed.

Lemma stopped_waiting y g s : relay_ok y → is_Some (ry_call y) → ry_gs y !! g = Some s → stopped y = true.
Proof.
  intros Hy Hc Hg. destruct (yk_gs y Hy g s Hg) as [_ [c Es]]. unfold stopped. rewrite Es.
  apply bool_decide_true. by apply (yk_stop y Hy c Es).
Qed.

Lemma InjectPacket_queue d f b : (length (netstackPackets (InjectPacket d f b).1) ≤ S (length (netstackPackets b)))%nat.
Proof. unfold InjectPacket. repeat case_match; simpl; rewrite ?length_app; simpl; lia. Qed.

(** A step of a goroutine while a call waits: one step less, the call still
    waits, and only a step that is not the last can add a packet. *)
Lemma waiting_step y a y' :
  relay_ok y → is_Some (ry_call y) → isGoroutineAct a = true → ystep y a = Some (Ret y') →
  (stepsLeft y' < stepsLeft y)%nat ∧ ry_call y' = ry_call y ∧
  (length (netstackPackets (ry_bind y')) + pred (stepsLeft y') ≤ length (netstackPackets (ry_bind y)) + pred (stepsLeft y))%nat.
Proof.
  intros Hy Hc Ha Hs. destruct (relay_step_ok _ _ _ Hy Hs) as (y0 & [= <-] & Hy').
  destruct a as [| | | |g|g o]; try done; simpl in Hs.
  - destruct (ry_gs y !! g) as [[l|l]|] eqn:Eg; try done. rewrite (stopped_waiting y g _ Hy Hc Eg) in Hs. injection Hs as <-.
    rewrite (stepsLeft_one y g _ Hy Eg). unfold stepsLeft. simpl.
    rewrite (relay_one_goroutine y g _ Hy Eg), delete_singleton_eq, map_fold_empty. repeat split; auto; lia.
  - destruct (ry_gs y !! g) as [[l|l]|] eqn:Eg; try done. rewrite (stopped_waiting y g _ Hy Hc Eg) in Hs. injection Hs as <-.
    rewrite (stepsLeft_one y g _ Hy Eg). unfold stepsLeft.
    destruct o as [d f| | |]; simpl; rewrite (relay_one_goroutine y g _ Hy Eg), ?insert_singleton_eq, ?delete_singleton_eq,
      ?map_fold_singleton, ?map_fold_empty; repeat split; auto; try lia.
    pose proof (InjectPacket_queue d (unmapAddrPort f) (ry_bind y)). lia.
Qed.

Lemma waiting_run l : ∀ y y',
  relay_ok y → is_Some (ry_call y) → Forall (λ a, isGoroutineAct a = true) l → yrun y l = Some (Ret y') →
  (length l + stepsLeft y' ≤ stepsLeft y)%nat ∧ ry_call y' = ry_call y ∧
  (length (netstackPackets (ry_bind y')) + pred (stepsLeft y') ≤ length (netstackPackets (ry_bind y)) + pred (stepsLeft y))%nat.
Proof.
  induction l as [|a l IH]; intros y y' Hy Hc Hl Hr; [injection Hr as <-; by split|].
  inversion Hl as [|? ? Ha Hl']; subst. simpl in Hr. destruct (ystep y a) as [o|] eqn:Ea; [|done].
  destruct (relay_step_ok _ _ _ Hy Ea) as (y1 & -> & Hy1).
  destruct (waiting_step _ _ _ Hy Hc Ha Ea) as (H1 & H2 & Hp). rewrite <- H2 in Hc.
  destruct (IH _ _ Hy1 Hc Hl' Hr) as (H3 & H4 & Hp'). simpl. repeat split; [lia|congruence|lia].
Qed.

Lemma stepsLeft_bound y : relay_ok y → (stepsLeft y ≤ 2)%nat ∧ (stepsLeft y = 0%nat → ry_gs y = ∅).
Proof.
  intros Hy. destruct (decide (ry_gs y = ∅)) as [E|Hne].
  - unfold stepsLeft. rewrite E, map_fold_empty. split; [lia|done].
  - apply map_choose in Hne as (g & s & Hg). rewrite (stepsLeft_one y g s Hy Hg). destruct s; split; lia.
Qed.

(** A waiting call can go on, or a goroutine it waits for can. *)
Lemma waiting_progress y :
  relay_ok y → is_Some (ry_call y) →
  is_Some (ystep y YDone) ∨ ∃ g, is_Some (ystep y (YTop g)) ∨ ∀ o, is_Some (ystep y (YRead g o)).
Proof.
  intros Hy [c Hc]. destruct (decide (ry_gs y = ∅)) as [E|Hne].
  - left. simpl. rewrite Hc, bool_decide_true by done. by eexists.
  - right. apply map_choose in Hne as (g & s & Hg). exists g. destruct s as [l|l].
    + left. simpl. rewrite Hg. by eexists.
    + right. intros o. simpl. rewrite Hg. by eexists.
Qed.

(** After the wait of a stop nothing is left. *)
Lemma stop_done y y' :
  relay_ok y → ry_call y = Some PStop → ystep y YDone = Some (Ret y') →
  ry_gs y' = ∅ ∧ ry_open y' = ∅ ∧ netstackConn (ry_bind y') = None.
Proof.
  intros Hy Hc Hs. simpl in Hs. rewrite Hc in Hs.
  destruct (bool_decide (ry_gs y = ∅) || bool_decide (ry_stop y = None)) eqn:Ed; [|done]. injection Hs as <-.
  assert (ry_gs y = ∅ ∨ ry_stop y = None) as Hd
    by (apply orb_true_iff in Ed as [E|E]; apply bool_decide_eq_true in E; auto).
  destruct (ok_end y Hy Hd) as [He Hg]. split; [done|]. split; [apply (yk_open _ He)|done].
Qed.

(** ** Properties *)


(** A call that stops or replaces a relay always comes
    back: from the moment it waits, the relay goroutine takes at most two more
    steps and hands the shared socket at most one more packet, whatever it
    reads; until they are taken a step is possible, and after them the call
    goes on. *)
Theorem relay_stop_ends (b : SharedBind) (acts gacts : list relayAct) (y y' : relay) :
  netstackConn b = None → yrun (relayInit b) acts = Some (Ret y) → is_Some (ry_call y) →
  Forall (λ a, isGoroutineAct a = true) gacts → yrun y gacts = Some (Ret y') →
  (length gacts ≤ 2)%nat ∧
  (length (netstackPackets (ry_bind y')) ≤ S (length (netstackPackets (ry_bind y))))%nat ∧
  (length gacts = 2%nat → is_Some (ystep y' YDone)) ∧
  (is_Some (ystep y' YDone) ∨ ∃ g, is_Some (ystep y' (YTop g)) ∨ ∀ o, is_Some (ystep y' (YRead g o))).
Proof.
  intros Hb Hr Hc Hg Hr'. destruct (relay_run_ok _ _ _ (relay_init_ok b Hb) Hr) as (y0 & [= <-] & Hy).
  destruct (relay_run_ok _ _ _ Hy Hr') as (y1 & [= <-] & Hy').
  destruct (waiting_run _ _ _ Hy Hc Hg Hr') as (Hlen & Ec & Hp). destruct (stepsLeft_bound y Hy) as [Hb2 _].
  destruct (stepsLeft_bound y' Hy') as [_ He]. rewrite <- Ec in Hc.
  split; [lia|]. split; [lia|]. split; [|by apply waiting_progress].
  intros H2. destruct Hc as [c Hc]. simpl. rewrite Hc, bool_decide_true by (apply He; lia). by eexists.
Qed.

Module RelayExamples.

Definition b0 : SharedBind := mkSharedBind None None 1 false 21820 [] None ∅ 0 true false.
Definition clientEnd : AddrPort := mkAddrPort (Addr4 1683587074) 51820.
Definition started : list relayAct := [YSetOthertnet true; YStart "100.89.128.4" true; YDone; YTop 2].

(** A packet that arrives while the relay is stopped is still injected; the
    goroutine sees the closed channel at its next turn. *)
Lemma relay_stop_ends_witness :
  match yrun (relayInit b0) (started ++ [YStop]) with
  | Some (Ret y) =>
      match yrun y [YRead 2 (ReadPacket [1;2;3] clientEnd); YTop 2] with
      | Some (Ret y') => length (netstackPackets (ry_bind y')) = 1%nat ∧ is_Some (ystep y' YDone)
      | _ => False
      end
  | _ => False
  end.
Proof.
  destruct (yrun (relayInit b0) (started ++ [YStop])) as [[y|]|] eqn:Ey; [|by vm_compute in Ey..].
  destruct (yrun y [YRead 2 (ReadPacket [1;2;3] clientEnd); YTop 2]) as [[y'|]|] eqn:Ey'.
  - split; [vm_compute in Ey; injection Ey as <-; vm_compute in Ey'; by injection Ey' as <-|].
    refine (proj1 (proj2 (proj2 (relay_stop_ends b0 (started ++ [YStop]) [YRead 2 (ReadPacket [1;2;3] clientEnd); YTop 2] y y'
      eq_refl Ey _ _ Ey'))) eq_refl); [vm_compute in Ey; injection Ey as <-; by eexists|by repeat constructor].
  - vm_compute in Ey. injection Ey as <-. by vm_compute in Ey'.
  - vm_compute in Ey. injection Ey as <-. by vm_compute in Ey'.
Defined.

(** Starting twice, the second listener replacing the first, then stopping. *)
Definition session : list relayAct :=
  started ++ [YStart "100.89.128.5" true; YRead 2 ReadTimeout; YTop 2; YDone; YTop 5; YStop; YRead 5 ReadError].


(** A start that fails after the stop leaves no relay, and a stop channel
    that the next call closes. *)
Example failed_start :
  match yrun (relayInit b0) (started ++ [YStart "no address" true; YRead 2 ReadTimeout; YTop 2; YDone]) with
  | Some (Ret y) => (ry_stop y, ry_listener y, stepsLeft y)
  | _ => (None, None, 9%nat)
  end = (Some 3%nat, None, 0%nat).
Proof. vm_compute. reflexivity. Qed.

End RelayExamples.
