(* ===== verification/NetSettings.v ===== *)
(** * Network settings of the tunnel ([network/settings.go])

    The package keeps one set of settings (addresses, masks, routes, DNS
    servers, MTU) that the mobile packet-tunnel providers poll, and a counter
    that tells them when to look again.  The settings hold Go slices: a snapshot
    that [GetSettings] returns shares their arrays, [append] writes into the
    array it was given while there is room, and removing an element moves the
    rest of the array.  The model keeps the arrays in a store, so that what a
    snapshot shows later can be stated. *)

From S2P Require Import Prelude.

(** ** Go slices

    A slice is an array of the store, a length and a capacity; the array starts
    at the slice's first element. *)

Record slice : Type := mkSlice { sl_arr : nat; sl_len : nat; sl_cap : nat }.

Definition nilSlice : slice := mkSlice 0 0 0.

#[global] Instance slice_eq_dec : EqDecision slice.
Proof. solve_decision. Defined.

(** How much [append] allocates is left to the implementation; it is enough. *)
Class GrowSlice : Type := {
  growCap : nat → nat → nat;
  growCap_enough : ∀ old need, (need ≤ growCap old need)%nat }.

(** Arrays of elements of one type, and the next free name. *)
Record store (A : Type) : Type := mkStore { st_arrays : gmap nat (list A); st_next : nat }.
Arguments mkStore {A} _ _.
Arguments st_arrays {A} _.
Arguments st_next {A} _.

Section Slices.
Context {A : Type} (zero : A).

Definition arrayOf (h : store A) (s : slice) : list A := default [] (st_arrays h !! sl_arr s).

(** The elements a slice shows. *)
Definition elems (h : store A) (s : slice) : list A := take (sl_len s) (arrayOf h s).

Definition setArray (a : nat) (l : list A) (h : store A) : store A := mkStore (<[a := l]> (st_arrays h)) (st_next h).

(** A slice literal, or [make] followed by a copy. *)
Definition newSlice (l : list A) (extra : nat) (h : store A) : store A * slice :=
  (mkStore (<[st_next h := l ++ replicate extra zero]> (st_arrays h)) (S (st_next h)),
   mkSlice (st_next h) (length l) (length l + extra)).

(** [append(s, x)] *)
Definition appendOne `{GrowSlice} (x : A) (s : slice) (h : store A) : store A * slice :=
  if Nat.ltb (sl_len s) (sl_cap s)
  then (setArray (sl_arr s) (<[sl_len s := x]> (arrayOf h s)) h, mkSlice (sl_arr s) (S (sl_len s)) (sl_cap s))
  else newSlice (elems h s ++ [x]) (growCap (sl_cap s) (S (sl_len s)) - S (sl_len s)) h.

(** [append(s[:i], s[i+1:]...)]: the tail moves down in place, the array keeps
    its last element. *)
Definition removeAt (i : nat) (s : slice) (h : store A) : go (store A * slice) :=
  if Nat.ltb i (sl_len s)
  then let l := elems h s in
       Ret (setArray (sl_arr s) (take i l ++ drop (S i) l ++ drop (sl_len s - 1) (arrayOf h s)) h,
            mkSlice (sl_arr s) (sl_len s - 1) (sl_cap s))
  else Panic.

(** A slice of the store. *)
Definition slice_ok (h : store A) (s : slice) : Prop :=
  (sl_len s ≤ sl_cap s)%nat ∧
  (sl_cap s = 0%nat ∨ (sl_arr s < st_next h)%nat ∧ length (arrayOf h s) = sl_cap s).

(** Two slices that share no array. *)
Definition apart (s t : slice) : Prop := sl_cap s = 0%nat ∨ sl_cap t = 0%nat ∨ sl_arr s ≠ sl_arr t.

(** ** Facts about slices *)

Lemma arrayOf_set a l h s : arrayOf (setArray a l h) s = if decide (sl_arr s = a) then l else arrayOf h s.
Proof.
  unfold arrayOf, setArray. simpl. destruct (decide (sl_arr s = a)) as [<-|Hne];
    [by rewrite lookup_insert_eq|by rewrite lookup_insert_ne].
Qed.

Lemma arrayOf_new l extra h s :
  arrayOf (newSlice l extra h).1 s = if decide (sl_arr s = st_next h) then l ++ replicate extra zero else arrayOf h s.
Proof.
  unfold arrayOf, newSlice. simpl. destruct (decide (sl_arr s = st_next h)) as [<-|Hne];
    [by rewrite lookup_insert_eq|by rewrite lookup_insert_ne].
Qed.

Lemma elems_empty h s : sl_cap s = 0%nat → slice_ok h s → elems h s = [].
Proof. intros E [? _]. unfold elems. by replace (sl_len s) with 0%nat by lia. Qed.

Lemma length_elems h s : slice_ok h s → length (elems h s) = sl_len s.
Proof. intros [? [E|[_ E]]]; unfold elems; rewrite length_take; lia. Qed.

(** What an operation on [s] that gives [s'] does to the other slices. *)
Definition frames (h : store A) (s : slice) (h' : store A) (s' : slice) : Prop :=
  ∀ t, slice_ok h t → apart s t → elems h' t = elems h t ∧ slice_ok h' t ∧ apart s' t.

Lemma new_spec l extra h :
  let '(h', s') := newSlice l extra h in
  elems h' s' = l ∧ slice_ok h' s' ∧ ∀ t, slice_ok h t → elems h' t = elems h t ∧ slice_ok h' t ∧ apart s' t.
Proof.
  assert (length (arrayOf (newSlice l extra h).1 (newSlice l extra h).2) = (length l + extra)%nat) as Hlen
    by (rewrite arrayOf_new; simpl; rewrite decide_True by done; by rewrite length_app, length_replicate).
  change (let '(h', s') := ((newSlice l extra h).1, (newSlice l extra h).2) in
    elems h' s' = l ∧ slice_ok h' s' ∧ ∀ t, slice_ok h t → elems h' t = elems h t ∧ slice_ok h' t ∧ apart s' t).
  split; [|split].
  - unfold elems. rewrite arrayOf_new. simpl. rewrite decide_True by done. by rewrite take_app_length.
  - split; simpl; [lia|]. right. split; [lia|done].
  - intros t [Hle [E|[Hlt Hl]]].
    + split; [unfold elems; by replace (sl_len t) with 0%nat by lia|]. split; [split; [done|by left]|right; by left].
    + assert (arrayOf (newSlice l extra h).1 t = arrayOf h t) as Ea by (rewrite arrayOf_new; by rewrite decide_False by lia).
      split; [unfold elems; by rewrite Ea|]. split.
      * split; [done|]. right. rewrite Ea. simpl. split; [lia|done].
      * right. right. simpl. lia.
Qed.

(** Writing into the array of [s] leaves the slices apart from it alone. *)
Lemma frames_set h s l len : (0 < sl_cap s)%nat → frames h s (setArray (sl_arr s) l h) (mkSlice (sl_arr s) len (sl_cap s)).
Proof.
  intros Hc t Ht Hap. destruct (decide (sl_cap t = 0)%nat) as [E|E].
  - destruct Ht as [Hle _]. unfold elems, slice_ok, apart. replace (sl_len t) with 0%nat by lia. repeat split; auto; lia.
  - assert (sl_arr t ≠ sl_arr s) as Hne by (destruct Hap as [?|[?|?]]; lia).
    unfold elems, slice_ok in *. rewrite !arrayOf_set, !decide_False by done. repeat split; [tauto..|]. right. right. simpl. congruence.
Qed.

Lemma append_spec `{GrowSlice} x s h :
  slice_ok h s →
  let '(h', s') := appendOne x s h in
  elems h' s' = elems h s ++ [x] ∧ slice_ok h' s' ∧ frames h s h' s'.
Proof.
  intros Hs. unfold appendOne. destruct (Nat.ltb_spec (sl_len s) (sl_cap s)) as [Hlt|Hge].
  - destruct Hs as [_ [?|[Hn Hl]]]; [lia|]. split; [|split].
    + unfold elems. rewrite arrayOf_set. simpl. rewrite decide_True by done. apply list_eq. intros i.
      destruct (decide (i < sl_len s)%nat) as [Hi|Hi].
      * rewrite lookup_take_lt, list_lookup_insert_ne, lookup_app_l, lookup_take_lt by (rewrite ?length_take; lia). done.
      * destruct (decide (i = sl_len s)) as [->|Hne].
        { rewrite lookup_take_lt, list_lookup_insert_eq by lia. rewrite lookup_app_r by (rewrite length_take; lia).
          rewrite length_take. by replace (sl_len s - _)%nat with 0%nat by lia. }
        rewrite lookup_take_ge by lia. rewrite lookup_ge_None_2; [done|]. rewrite length_app, length_take. simpl. lia.
    + split; simpl; [lia|]. right. split; [done|]. rewrite arrayOf_set. simpl. rewrite decide_True by done. by rewrite length_insert.
    + apply frames_set. lia.
  - pose proof (new_spec (elems h s ++ [x]) (growCap (sl_cap s) (S (sl_len s)) - S (sl_len s)) h) as Hnew.
    destruct (newSlice _ _ h) as [h' s']. destruct Hnew as (E & Hok & Hf). split; [done|]. split; [done|].
    intros t Ht _. by apply Hf.
Qed.

Lemma remove_spec i s h :
  slice_ok h s → (i < sl_len s)%nat →
  ∃ h' s', removeAt i s h = Ret (h', s') ∧ elems h' s' = delete i (elems h s) ∧ slice_ok h' s' ∧ frames h s h' s'.
Proof.
  intros Hs Hi. unfold removeAt. rewrite (proj2 (Nat.ltb_lt _ _) Hi). eexists _, _. split; [done|].
  pose proof (length_elems h s Hs) as El. destruct Hs as [Hle [?|[Hn Hl]]]; [lia|]. split; [|split].
  - unfold elems at 1. rewrite arrayOf_set. simpl. rewrite decide_True by done. rewrite app_assoc, take_app_le.
    + rewrite delete_take_drop, take_ge; [done|]. rewrite length_app, length_take, length_drop. lia.
    + rewrite length_app, length_take, length_drop. lia.
  - split; simpl; [lia|]. right. split; [done|]. rewrite arrayOf_set. simpl. rewrite decide_True by done.
    rewrite !length_app, length_take, !length_drop. lia.
  - apply frames_set. lia.
Qed.

(** What a copy of the slice shows after the removal: its last element twice. *)
Lemma removed_copy i s h h' s' :
  slice_ok h s → (i < sl_len s)%nat → removeAt i s h = Ret (h', s') →
  elems h' s = delete i (elems h s) ++ option_list (last (elems h s)).
Proof.
  intros Hs Hi. pose proof (length_elems h s Hs) as El. unfold removeAt. rewrite (proj2 (Nat.ltb_lt _ _) Hi). intros [= <- <-].
  destruct Hs as [Hle [?|[Hn Hl]]]; [lia|]. unfold elems at 1. rewrite arrayOf_set, decide_True, app_assoc by done.
  rewrite delete_take_drop, last_lookup, El.
  assert (length (take i (elems h s) ++ drop (S i) (elems h s)) = (sl_len s - 1)%nat) as Hp by (rewrite length_app, length_take, length_drop; lia).
  rewrite take_app, Hp, take_ge by lia. f_equal. replace (sl_len s - (sl_len s - 1))%nat with 1%nat by lia.
  unfold elems. rewrite lookup_take_lt by lia. replace (pred (sl_len s)) with (sl_len s - 1)%nat by lia.
  destruct (lookup_lt_is_Some_2 (arrayOf h s) (sl_len s - 1)) as [y Hy]; [lia|]. rewrite Hy. by rewrite (drop_S _ _ _ Hy).
Qed.

(** ** Several slices of a store *)

Record separated (h : store A) (ss : list slice) : Prop := {
  sep_ok : Forall (slice_ok h) ss;
  sep_apart : ∀ i j s t, i ≠ j → ss !! i = Some s → ss !! j = Some t → apart s t }.

Lemma apart_sym s t : apart s t → apart t s.
Proof. unfold apart. intuition. Qed.

(** Replacing one slice by the result of an operation on it. *)
Lemma separated_update h ss k s h' s' l :
  separated h ss → ss !! k = Some s → elems h' s' = l → slice_ok h' s' → frames h s h' s' →
  separated h' (<[k := s']> ss) ∧ elems h' <$> <[k := s']> ss = <[k := l]> (elems h <$> ss).
Proof.
  intros [Hok Hap] Hk El Hs' Hf.
  assert (∀ j t, j ≠ k → ss !! j = Some t → elems h' t = elems h t ∧ slice_ok h' t ∧ apart s' t) as Ho.
  { intros j t Hne Hj. apply Hf; [by eapply Forall_lookup_1|]. by apply (Hap k j). }
  split; [split|].
  - apply Forall_lookup. intros j t. destruct (decide (j = k)) as [->|Hne].
    + rewrite list_lookup_insert_eq by (by eapply lookup_lt_Some). intros [= <-]. done.
    + rewrite list_lookup_insert_ne by done. intros Hj. by apply (Ho j).
  - intros i j t u Hij Hi Hj. destruct (decide (i = k)) as [->|Hik].
    + rewrite list_lookup_insert_eq in Hi by (by eapply lookup_lt_Some). injection Hi as <-.
      rewrite list_lookup_insert_ne in Hj by done. by apply (Ho j).
    + rewrite list_lookup_insert_ne in Hi by done. destruct (decide (j = k)) as [->|Hjk].
      * rewrite list_lookup_insert_eq in Hj by (by eapply lookup_lt_Some). injection Hj as <-. apply apart_sym. by apply (Ho i).
      * rewrite list_lookup_insert_ne in Hj by done. by apply (Hap i j).
  - rewrite list_fmap_insert, El. apply list_eq. intros j. destruct (decide (j = k)) as [->|Hne].
    + rewrite !list_lookup_insert_eq by (rewrite length_fmap; by eapply lookup_lt_Some). done.
    + rewrite !list_lookup_insert_ne by done. rewrite !list_lookup_fmap. destruct (ss !! j) as [t|] eqn:Ej; [|done].
      simpl. f_equal. by apply (Ho j).
Qed.

(** Replacing one by a fresh slice. *)
Lemma separated_new h ss k l extra :
  separated h ss → (k < length ss)%nat →
  let '(h', s') := newSlice l extra h in
  separated h' (<[k := s']> ss) ∧ elems h' <$> <[k := s']> ss = <[k := l]> (elems h <$> ss).
Proof.
  intros Hsep [s Hk]%lookup_lt_is_Some_2. pose proof (new_spec l extra h) as Hnew.
  destruct (newSlice l extra h) as [h' s']. destruct Hnew as (E & Hok & Hf).
  apply (separated_update h ss k s); [done..|]. intros t Ht _. by apply Hf.
Qed.

Lemma separated_nil h n : separated h (replicate n nilSlice).
Proof.
  split.
  - apply Forall_replicate. split; simpl; [lia|by left].
  - intros i j s t _ [-> _]%lookup_replicate. intros _. by left.
Qed.

End Slices.

#[global] Arguments newSlice : simpl never.
#[global] Arguments appendOne : simpl never.
#[global] Arguments removeAt : simpl never.
#[global] Arguments elems : simpl never.

(** ** The settings *)

Record IPv4Route : Type := mkRoute4 {
  r4_DestinationAddress : string; r4_SubnetMask : string; r4_GatewayAddress : string; r4_IsDefault : bool }.

Record IPv6Route : Type := mkRoute6 {
  r6_DestinationAddress : string; r6_NetworkPrefixLength : Z; r6_GatewayAddress : string; r6_IsDefault : bool }.

#[global] Instance IPv4Route_eq_dec : EqDecision IPv4Route.
Proof. solve_decision. Defined.
#[global] Instance IPv6Route_eq_dec : EqDecision IPv6Route.
Proof. solve_decision. Defined.

Record NetworkSettings : Type := mkNetworkSettings {
  ns_TunnelRemoteAddress : string;
  ns_MTU : option Z;
  ns_DNSServers : slice;
  ns_IPv4Addresses : slice;
  ns_IPv4SubnetMasks : slice;
  ns_IPv4IncludedRoutes : slice;
  ns_IPv4ExcludedRoutes : slice;
  ns_IPv6Addresses : slice;
  ns_IPv6NetworkPrefixes : slice;
  ns_IPv6IncludedRoutes : slice;
  ns_IPv6ExcludedRoutes : slice }.

Definition emptySettings : NetworkSettings :=
  mkNetworkSettings "" None nilSlice nilSlice nilSlice nilSlice nilSlice nilSlice nilSlice nilSlice nilSlice.

(** The package's variables and the arrays. *)
Record net : Type := mkNet {
  nt_settings : NetworkSettings;
  nt_incrementor : Z;
  nt_strs : store string;
  nt_r4 : store IPv4Route;
  nt_r6 : store IPv6Route }.

Definition noRoute4 : IPv4Route := mkRoute4 "" "" "" false.
Definition noRoute6 : IPv6Route := mkRoute6 "" 0 "" false.

(** Every field with its setter. *)
Definition with_tunnel (a : string) (n : NetworkSettings) : NetworkSettings :=
  mkNetworkSettings a (ns_MTU n) (ns_DNSServers n) (ns_IPv4Addresses n) (ns_IPv4SubnetMasks n) (ns_IPv4IncludedRoutes n)
    (ns_IPv4ExcludedRoutes n) (ns_IPv6Addresses n) (ns_IPv6NetworkPrefixes n) (ns_IPv6IncludedRoutes n) (ns_IPv6ExcludedRoutes n).
Definition with_mtu (m : Z) (n : NetworkSettings) : NetworkSettings :=
  mkNetworkSettings (ns_TunnelRemoteAddress n) (Some m) (ns_DNSServers n) (ns_IPv4Addresses n) (ns_IPv4SubnetMasks n)
    (ns_IPv4IncludedRoutes n) (ns_IPv4ExcludedRoutes n) (ns_IPv6Addresses n) (ns_IPv6NetworkPrefixes n) (ns_IPv6IncludedRoutes n)
    (ns_IPv6ExcludedRoutes n).
(** The slices of strings: DNS servers, addresses, masks, IPv6 addresses, prefixes. *)
Definition with_strs (d a m a6 p6 : slice) (n : NetworkSettings) : NetworkSettings :=
  mkNetworkSettings (ns_TunnelRemoteAddress n) (ns_MTU n) d a m (ns_IPv4IncludedRoutes n) (ns_IPv4ExcludedRoutes n) a6 p6
    (ns_IPv6IncludedRoutes n) (ns_IPv6ExcludedRoutes n).
Definition with_r4 (i e : slice) (n : NetworkSettings) : NetworkSettings :=
  mkNetworkSettings (ns_TunnelRemoteAddress n) (ns_MTU n) (ns_DNSServers n) (ns_IPv4Addresses n) (ns_IPv4SubnetMasks n) i e
    (ns_IPv6Addresses n) (ns_IPv6NetworkPrefixes n) (ns_IPv6IncludedRoutes n) (ns_IPv6ExcludedRoutes n).
Definition with_r6 (i e : slice) (n : NetworkSettings) : NetworkSettings :=
  mkNetworkSettings (ns_TunnelRemoteAddress n) (ns_MTU n) (ns_DNSServers n) (ns_IPv4Addresses n) (ns_IPv4SubnetMasks n)
    (ns_IPv4IncludedRoutes n) (ns_IPv4ExcludedRoutes n) (ns_IPv6Addresses n) (ns_IPv6NetworkPrefixes n) i e.
Definition with_addresses (a m : slice) (n : NetworkSettings) : NetworkSettings :=
  with_strs (ns_DNSServers n) a m (ns_IPv6Addresses n) (ns_IPv6NetworkPrefixes n) n.
Definition with_included (i : slice) (n : NetworkSettings) : NetworkSettings := with_r4 i (ns_IPv4ExcludedRoutes n) n.

(** [networkSettings = ...; incrementor++] *)
Definition update (s : NetworkSettings) (n : net) : net :=
  mkNet s (swrap64 (nt_incrementor n + 1)) (nt_strs n) (nt_r4 n) (nt_r6 n).
Definition set_strs (h : store string) (n : net) : net := mkNet (nt_settings n) (nt_incrementor n) h (nt_r4 n) (nt_r6 n).
Definition set_r4 (h : store IPv4Route) (n : net) : net := mkNet (nt_settings n) (nt_incrementor n) (nt_strs n) h (nt_r6 n).
Definition set_r6 (h : store IPv6Route) (n : net) : net := mkNet (nt_settings n) (nt_incrementor n) (nt_strs n) (nt_r4 n) h.

Definition SetTunnelRemoteAddress (address : string) (n : net) : net := update (with_tunnel address (nt_settings n)) n.
Definition SetMTU (mtu : Z) (n : net) : net := update (with_mtu mtu (nt_settings n)) n.
Definition SetDNSServers (servers : slice) (n : net) : net :=
  let s := nt_settings n in
  update (with_strs servers (ns_IPv4Addresses s) (ns_IPv4SubnetMasks s) (ns_IPv6Addresses s) (ns_IPv6NetworkPrefixes s) s) n.
Definition SetIPv4Settings (addresses subnetMasks : slice) (n : net) : net :=
  update (with_addresses addresses subnetMasks (nt_settings n)) n.

(** The result tells whether there was no primary address. *)
Definition AddIPv4Address `{GrowSlice} (address subnetMask : string) (n : net) : net * bool :=
  let s := nt_settings n in
  if Nat.eqb (sl_len (ns_IPv4Addresses s)) 0 then (n, true)
  else if bool_decide (address ∈ elems (nt_strs n) (ns_IPv4Addresses s)) then (n, false)
  else
    let '(h1, a) := appendOne "" address (ns_IPv4Addresses s) (nt_strs n) in
    let '(h2, m) := appendOne "" subnetMask (ns_IPv4SubnetMasks s) h1 in
    (update (with_addresses a m s) (set_strs h2 n), false).

(** The first position of an element. *)
Fixpoint indexOf {A} `{EqDecision A} (x : A) (l : list A) : option nat :=
  match l with
  | [] => None
  | y :: l' => if bool_decide (y = x) then Some 0%nat else S <$> indexOf x l'
  end.

Definition RemoveIPv4Address (address : string) (n : net) : go net :=
  let s := nt_settings n in
  match indexOf address (elems (nt_strs n) (ns_IPv4Addresses s)) with
  | None => Ret n
  | Some i =>
      '(h1, a) ← removeAt i (ns_IPv4Addresses s) (nt_strs n);
      '(h2, m) ← removeAt i (ns_IPv4SubnetMasks s) h1;
      Ret (update (with_addresses a m s) (set_strs h2 n))
  end.

Definition SetIPv4IncludedRoutes (routes : slice) (n : net) : net := update (with_included routes (nt_settings n)) n.

Definition AddIPv4IncludedRoute `{GrowSlice} (route : IPv4Route) (n : net) : net :=
  let s := nt_settings n in
  if bool_decide (route ∈ elems (nt_r4 n) (ns_IPv4IncludedRoutes s)) then n
  else
    let '(h, i) := appendOne noRoute4 route (ns_IPv4IncludedRoutes s) (nt_r4 n) in
    update (with_included i s) (set_r4 h n).

(** The counter goes up also when the route was not there. *)
Definition RemoveIPv4IncludedRoute (route : IPv4Route) (n : net) : go net :=
  let s := nt_settings n in
  match indexOf route (elems (nt_r4 n) (ns_IPv4IncludedRoutes s)) with
  | None => Ret (update s n)
  | Some i =>
      '(h, r) ← removeAt i (ns_IPv4IncludedRoutes s) (nt_r4 n);
      Ret (update (with_included r s) (set_r4 h n))
  end.

Definition SetIPv4ExcludedRoutes (routes : slice) (n : net) : net :=
  update (with_r4 (ns_IPv4IncludedRoutes (nt_settings n)) routes (nt_settings n)) n.
Definition SetIPv6Settings (addresses networkPrefixes : slice) (n : net) : net :=
  let s := nt_settings n in
  update (with_strs (ns_DNSServers s) (ns_IPv4Addresses s) (ns_IPv4SubnetMasks s) addresses networkPrefixes s) n.
Definition SetIPv6IncludedRoutes (routes : slice) (n : net) : net :=
  update (with_r6 routes (ns_IPv6ExcludedRoutes (nt_settings n)) (nt_settings n)) n.
Definition SetIPv6ExcludedRoutes (routes : slice) (n : net) : net :=
  update (with_r6 (ns_IPv6IncludedRoutes (nt_settings n)) routes (nt_settings n)) n.
Definition ClearNetworkSettings (n : net) : net := update emptySettings n.
Definition GetSettings (n : net) : NetworkSettings := nt_settings n.
Definition GetIncrementor (n : net) : Z := nt_incrementor n.

(** ** Sequences of calls

    A caller that sets a list passes a slice of its own, with some room behind
    it. *)

Inductive netOp : Type :=
  | OpTunnel (address : string)
  | OpMTU (mtu : Z)
  | OpDNS (servers : list string) (room : nat)
  | OpIPv4 (addresses masks : list string) (room : nat)
  | OpAddAddress (address mask : string)
  | OpRemoveAddress (address : string)
  | OpIncluded (routes : list IPv4Route) (room : nat)
  | OpAddRoute (route : IPv4Route)
  | OpRemoveRoute (route : IPv4Route)
  | OpExcluded (routes : list IPv4Route) (room : nat)
  | OpIPv6 (addresses prefixes : list string) (room : nat)
  | OpIncluded6 (routes : list IPv6Route) (room : nat)
  | OpExcluded6 (routes : list IPv6Route) (room : nat)
  | OpClear.

Definition passStrs (l : list string) (room : nat) (n : net) : net * slice :=
  let '(h, s) := newSlice "" l room (nt_strs n) in (set_strs h n, s).
Definition passR4 (l : list IPv4Route) (room : nat) (n : net) : net * slice :=
  let '(h, s) := newSlice noRoute4 l room (nt_r4 n) in (set_r4 h n, s).
Definition passR6 (l : list IPv6Route) (room : nat) (n : net) : net * slice :=
  let '(h, s) := newSlice noRoute6 l room (nt_r6 n) in (set_r6 h n, s).

Definition execOp `{GrowSlice} (o : netOp) (n : net) : go net :=
  match o with
  | OpTunnel a => Ret (SetTunnelRemoteAddress a n)
  | OpMTU m => Ret (SetMTU m n)
  | OpDNS l r => let '(n, s) := passStrs l r n in Ret (SetDNSServers s n)
  | OpIPv4 a m r => let '(n, sa) := passStrs a r n in let '(n, sm) := passStrs m r n in Ret (SetIPv4Settings sa sm n)
  | OpAddAddress a m => Ret (AddIPv4Address a m n).1
  | OpRemoveAddress a => RemoveIPv4Address a n
  | OpIncluded l r => let '(n, s) := passR4 l r n in Ret (SetIPv4IncludedRoutes s n)
  | OpAddRoute r => Ret (AddIPv4IncludedRoute r n)
  | OpRemoveRoute r => RemoveIPv4IncludedRoute r n
  | OpExcluded l r => let '(n, s) := passR4 l r n in Ret (SetIPv4ExcludedRoutes s n)
  | OpIPv6 a p r => let '(n, sa) := passStrs a r n in let '(n, sp) := passStrs p r n in Ret (SetIPv6Settings sa sp n)
  | OpIncluded6 l r => let '(n, s) := passR6 l r n in Ret (SetIPv6IncludedRoutes s n)
  | OpExcluded6 l r => let '(n, s) := passR6 l r n in Ret (SetIPv6ExcludedRoutes s n)
  | OpClear => Ret (ClearNetworkSettings n)
  end.

Fixpoint execOps `{GrowSlice} (l : list netOp) (n : net) : go net :=
  match l with [] => Ret n | o :: l' => n' ← execOp o n; execOps l' n' end.

Definition initialNet : net := mkNet emptySettings 0 (mkStore ∅ 0) (mkStore ∅ 0) (mkStore ∅ 0).

(** ** What the settings promise

    The specification has values instead of slices, and keeps an address
    together with its mask. *)

Record netView : Type := mkView {
  v_tunnel : string; v_mtu : option Z; v_dns : list string; v_addrs : list (string * string);
  v_incl : list IPv4Route; v_excl : list IPv4Route; v_addrs6 : list string; v_prefixes6 : list string;
  v_incl6 : list IPv6Route; v_excl6 : list IPv6Route; v_count : Z }.

(** One more change to look at. *)
Definition bump (v : netView) : netView :=
  mkView (v_tunnel v) (v_mtu v) (v_dns v) (v_addrs v) (v_incl v) (v_excl v) (v_addrs6 v) (v_prefixes6 v) (v_incl6 v) (v_excl6 v)
    (swrap64 (v_count v + 1)).
Definition v_strs (d : list string) (a : list (string * string)) (a6 p6 : list string) (v : netView) : netView :=
  mkView (v_tunnel v) (v_mtu v) d a (v_incl v) (v_excl v) a6 p6 (v_incl6 v) (v_excl6 v) (v_count v).
Definition v_routes (i e : list IPv4Route) (v : netView) : netView :=
  mkView (v_tunnel v) (v_mtu v) (v_dns v) (v_addrs v) i e (v_addrs6 v) (v_prefixes6 v) (v_incl6 v) (v_excl6 v) (v_count v).
Definition v_routes6 (i e : list IPv6Route) (v : netView) : netView :=
  mkView (v_tunnel v) (v_mtu v) (v_dns v) (v_addrs v) (v_incl v) (v_excl v) (v_addrs6 v) (v_prefixes6 v) i e (v_count v).

(** Without the first element that satisfies [p]. *)
Fixpoint dropFirst {A} (p : A → bool) (l : list A) : list A :=
  match l with [] => [] | x :: l' => if p x then l' else x :: dropFirst p l' end.

Definition specOp (o : netOp) (v : netView) : netView :=
  match o with
  | OpTunnel a => bump (mkView a (v_mtu v) (v_dns v) (v_addrs v) (v_incl v) (v_excl v) (v_addrs6 v) (v_prefixes6 v) (v_incl6 v) (v_excl6 v) (v_count v))
  | OpMTU m => bump (mkView (v_tunnel v) (Some m) (v_dns v) (v_addrs v) (v_incl v) (v_excl v) (v_addrs6 v) (v_prefixes6 v) (v_incl6 v) (v_excl6 v) (v_count v))
  | OpDNS l _ => bump (v_strs l (v_addrs v) (v_addrs6 v) (v_prefixes6 v) v)
  | OpIPv4 a m _ => bump (v_strs (v_dns v) (zip a m) (v_addrs6 v) (v_prefixes6 v) v)
  | OpAddAddress a m =>
      if bool_decide (v_addrs v = []) || bool_decide (a ∈ (v_addrs v).*1) then v
      else bump (v_strs (v_dns v) (v_addrs v ++ [(a, m)]) (v_addrs6 v) (v_prefixes6 v) v)
  | OpRemoveAddress a =>
      if bool_decide (a ∈ (v_addrs v).*1)
      then bump (v_strs (v_dns v) (dropFirst (λ p, bool_decide (p.1 = a)) (v_addrs v)) (v_addrs6 v) (v_prefixes6 v) v)
      else v
  | OpIncluded l _ => bump (v_routes l (v_excl v) v)
  | OpAddRoute r => if bool_decide (r ∈ v_incl v) then v else bump (v_routes (v_incl v ++ [r]) (v_excl v) v)
  | OpRemoveRoute r => bump (v_routes (dropFirst (λ x, bool_decide (x = r)) (v_incl v)) (v_excl v) v)
  | OpExcluded l _ => bump (v_routes (v_incl v) l v)
  | OpIPv6 a p _ => bump (v_strs (v_dns v) (v_addrs v) a p v)
  | OpIncluded6 l _ => bump (v_routes6 l (v_excl6 v) v)
  | OpExcluded6 l _ => bump (v_routes6 (v_incl6 v) l v)
  | OpClear => bump (mkView "" None [] [] [] [] [] [] [] [] (v_count v))
  end.

Definition initialView : netView := mkView "" None [] [] [] [] [] [] [] [] 0.

(** ** Refinement *)

Definition strSlices (s : NetworkSettings) : list slice :=
  [ns_DNSServers s; ns_IPv4Addresses s; ns_IPv4SubnetMasks s; ns_IPv6Addresses s; ns_IPv6NetworkPrefixes s].
Definition r4Slices (s : NetworkSettings) : list slice := [ns_IPv4IncludedRoutes s; ns_IPv4ExcludedRoutes s].
Definition r6Slices (s : NetworkSettings) : list slice := [ns_IPv6IncludedRoutes s; ns_IPv6ExcludedRoutes s].

Record net_rel (n : net) (v : netView) : Prop := {
  nr_sep : separated (nt_strs n) (strSlices (nt_settings n));
  nr_strs : elems (nt_strs n) <$> strSlices (nt_settings n) = [v_dns v; (v_addrs v).*1; (v_addrs v).*2; v_addrs6 v; v_prefixes6 v];
  nr_sep4 : separated (nt_r4 n) (r4Slices (nt_settings n));
  nr_r4 : elems (nt_r4 n) <$> r4Slices (nt_settings n) = [v_incl v; v_excl v];
  nr_sep6 : separated (nt_r6 n) (r6Slices (nt_settings n));
  nr_r6 : elems (nt_r6 n) <$> r6Slices (nt_settings n) = [v_incl6 v; v_excl6 v];
  nr_misc : ns_TunnelRemoteAddress (nt_settings n) = v_tunnel v ∧ ns_MTU (nt_settings n) = v_mtu v;
  nr_count : nt_incrementor n = v_count v }.

(** Changing the strings, the IPv4 or the IPv6 routes only. *)
Lemma rel_strs n v d a m a6 p6 h ld la l6 lp :
  net_rel n v → separated h [d; a; m; a6; p6] → elems h <$> [d; a; m; a6; p6] = [ld; la.*1; la.*2; l6; lp] →
  net_rel (update (with_strs d a m a6 p6 (nt_settings n)) (set_strs h n)) (bump (v_strs ld la l6 lp v)).
Proof. intros [? ? ? ? ? ? ? Hc] Hs He. split; simpl; try done. by rewrite Hc. Qed.

Lemma rel_r4 n v i e h li le :
  net_rel n v → separated h [i; e] → elems h <$> [i; e] = [li; le] →
  net_rel (update (with_r4 i e (nt_settings n)) (set_r4 h n)) (bump (v_routes li le v)).
Proof. intros [? ? ? ? ? ? ? Hc] Hs He. split; simpl; try done. by rewrite Hc. Qed.

Lemma rel_r6 n v i e h li le :
  net_rel n v → separated h [i; e] → elems h <$> [i; e] = [li; le] →
  net_rel (update (with_r6 i e (nt_settings n)) (set_r6 h n)) (bump (v_routes6 li le v)).
Proof. intros [? ? ? ? ? ? ? Hc] Hs He. split; simpl; try done. by rewrite Hc. Qed.

(** Two fresh slices at once, as [SetIPv4Settings] and [SetIPv6Settings] get. *)
Lemma separated_new2 h ss j k l1 l2 r :
  separated h ss → (j < length ss)%nat → (k < length ss)%nat →
  let '(h1, s1) := newSlice (""%string) l1 r h in
  let '(h2, s2) := newSlice (""%string) l2 r h1 in
  separated h2 (<[k := s2]> (<[j := s1]> ss)) ∧
  elems h2 <$> <[k := s2]> (<[j := s1]> ss) = <[k := l2]> (<[j := l1]> (elems h <$> ss)).
Proof.
  intros Hs Hj Hk. pose proof (separated_new "" h ss j l1 r Hs Hj) as H1.
  destruct (newSlice "" l1 r h) as [h1 s1]. destruct H1 as [H1 E1].
  pose proof (separated_new "" h1 (<[j := s1]> ss) k l2 r H1) as H2. rewrite length_insert in H2. specialize (H2 Hk).
  destruct (newSlice "" l2 r h1) as [h2 s2]. by rewrite E1 in H2.
Qed.

Lemma indexOf_None {A} `{EqDecision A} (x : A) l : indexOf x l = None ↔ x ∉ l.
Proof.
  induction l as [|y l IH]; simpl; [split; [intros _; apply not_elem_of_nil|done]|].
  rewrite not_elem_of_cons. destruct (bool_decide_reflect (y = x)) as [->|Hne]; [by split; [|intros [? _]]|].
  rewrite fmap_None, IH. split; [intros ?; split; auto|by intros [_ ?]].
Qed.

(** [indexOf] and [delete] drop the first pair with the address. *)
Lemma indexOf_pairs (a : string) (l : list (string * string)) i :
  indexOf a l.*1 = Some i →
  (i < length l)%nat ∧ dropFirst (λ p, bool_decide (p.1 = a)) l = delete i l.
Proof.
  revert i. induction l as [|p l IH]; intros i; simpl; [done|].
  destruct (bool_decide (p.1 = a)); [intros [= <-]; simpl; split; [lia|done]|].
  intros (j & E & ->)%fmap_Some. destruct (IH j E) as [Hlt ->]. simpl. split; [lia|done].
Qed.

Lemma indexOf_drop {A} `{EqDecision A} (x : A) l i :
  indexOf x l = Some i → (i < length l)%nat ∧ dropFirst (λ y, bool_decide (y = x)) l = delete i l.
Proof.
  revert i. induction l as [|y l IH]; intros i; simpl; [done|].
  destruct (bool_decide (y = x)); [intros [= <-]; simpl; split; [lia|done]|].
  intros (j & E & ->)%fmap_Some. destruct (IH j E) as [Hlt ->]. simpl. split; [lia|done].
Qed.

Lemma dropFirst_absent {A} `{EqDecision A} (x : A) l : x ∉ l → dropFirst (λ y, bool_decide (y = x)) l = l.
Proof.
  induction l as [|y l IH]; simpl; [done|]. rewrite not_elem_of_cons. intros [Hne Hl].
  rewrite bool_decide_false by congruence. by rewrite IH.
Qed.

Section Refinement.
Context `{GrowSlice}.

(** An address list and its masks are given together. *)
Definition op_ok (o : netOp) : Prop := match o with OpIPv4 a m _ => length a = length m | _ => True end.

(** A new slice in place of one of the strings, of the IPv4 or IPv6 routes. *)
Ltac fresh_slice sep eqs k :=
  match goal with
  | |- context [newSlice ?z ?l ?r ?h] =>
      let Hn := fresh "Hn" in let E := fresh "E" in
      pose proof (separated_new z h _ k l r sep) as Hn; destruct (newSlice z l r h) as [? ?];
      destruct Hn as [Hn E]; [simpl; lia|]; rewrite eqs in E; simpl in Hn, E
  end.

Lemma rel_dns n v l r : net_rel n v → ∃ n', execOp (OpDNS l r) n = Ret n' ∧ net_rel n' (specOp (OpDNS l r) v).
Proof.
  intros Hr. unfold execOp, passStrs. fresh_slice (nr_sep n v Hr) (nr_strs n v Hr) 0%nat.
  eexists. split; [done|]. exact (rel_strs n v _ _ _ _ _ _ _ _ _ _ Hr Hn E).
Qed.

Lemma rel_included n v l r : net_rel n v → ∃ n', execOp (OpIncluded l r) n = Ret n' ∧ net_rel n' (specOp (OpIncluded l r) v).
Proof.
  intros Hr. unfold execOp, passR4. fresh_slice (nr_sep4 n v Hr) (nr_r4 n v Hr) 0%nat.
  eexists. split; [done|]. exact (rel_r4 n v _ _ _ _ _ Hr Hn E).
Qed.

Lemma rel_excluded n v l r : net_rel n v → ∃ n', execOp (OpExcluded l r) n = Ret n' ∧ net_rel n' (specOp (OpExcluded l r) v).
Proof.
  intros Hr. unfold execOp, passR4. fresh_slice (nr_sep4 n v Hr) (nr_r4 n v Hr) 1%nat.
  eexists. split; [done|]. exact (rel_r4 n v _ _ _ _ _ Hr Hn E).
Qed.

Lemma rel_included6 n v l r : net_rel n v → ∃ n', execOp (OpIncluded6 l r) n = Ret n' ∧ net_rel n' (specOp (OpIncluded6 l r) v).
Proof.
  intros Hr. unfold execOp, passR6. fresh_slice (nr_sep6 n v Hr) (nr_r6 n v Hr) 0%nat.
  eexists. split; [done|]. exact (rel_r6 n v _ _ _ _ _ Hr Hn E).
Qed.

Lemma rel_excluded6 n v l r : net_rel n v → ∃ n', execOp (OpExcluded6 l r) n = Ret n' ∧ net_rel n' (specOp (OpExcluded6 l r) v).
Proof.
  intros Hr. unfold execOp, passR6. fresh_slice (nr_sep6 n v Hr) (nr_r6 n v Hr) 1%nat.
  eexists. split; [done|]. exact (rel_r6 n v _ _ _ _ _ Hr Hn E).
Qed.

Lemma rel_ipv4 n v a m r :
  net_rel n v → length a = length m → ∃ n', execOp (OpIPv4 a m r) n = Ret n' ∧ net_rel n' (specOp (OpIPv4 a m r) v).
Proof.
  intros Hr Hlen. unfold execOp, passStrs.
  pose proof (separated_new2 (nt_strs n) _ 1 2 a m r (nr_sep n v Hr) ltac:(simpl; lia) ltac:(simpl; lia)) as H2.
  destruct (newSlice "" a r (nt_strs n)) as [h1 s1]. cbn [nt_strs set_strs]. destruct (newSlice "" m r h1) as [h2 s2].
  destruct H2 as [H2 E2]. rewrite (nr_strs n v Hr) in E2. simpl in H2, E2.
  eexists. split; [done|].
  refine (rel_strs n v _ _ _ _ _ _ _ (zip a m) _ _ Hr H2 _). rewrite fst_zip, snd_zip by lia. exact E2.
Qed.

Lemma rel_ipv6 n v a p r : net_rel n v → ∃ n', execOp (OpIPv6 a p r) n = Ret n' ∧ net_rel n' (specOp (OpIPv6 a p r) v).
Proof.
  intros Hr. unfold execOp, passStrs.
  pose proof (separated_new2 (nt_strs n) _ 3 4 a p r (nr_sep n v Hr) ltac:(simpl; lia) ltac:(simpl; lia)) as H2.
  destruct (newSlice "" a r (nt_strs n)) as [h1 s1]. cbn [nt_strs set_strs]. destruct (newSlice "" p r h1) as [h2 s2].
  destruct H2 as [H2 E2]. rewrite (nr_strs n v Hr) in E2. simpl in H2, E2.
  eexists. split; [done|]. exact (rel_strs n v _ _ _ _ _ _ _ _ _ _ Hr H2 E2).
Qed.

(** The slices of the record, one by one. *)
Lemma rel_addresses n v : net_rel n v →
  elems (nt_strs n) (ns_IPv4Addresses (nt_settings n)) = (v_addrs v).*1 ∧
  elems (nt_strs n) (ns_IPv4SubnetMasks (nt_settings n)) = (v_addrs v).*2 ∧
  sl_len (ns_IPv4Addresses (nt_settings n)) = length (v_addrs v) ∧
  sl_len (ns_IPv4SubnetMasks (nt_settings n)) = length (v_addrs v).
Proof.
  intros Hr. pose proof (nr_strs n v Hr) as E. simpl in E. injection E as _ E1 E2 _ _.
  pose proof (sep_ok _ _ (nr_sep n v Hr)) as Hok. unfold strSlices in Hok. rewrite !Forall_cons in Hok.
  destruct Hok as (_ & H1 & H2 & _). split; [done|]. split; [done|].
  split; [rewrite <- (length_elems _ _ H1), E1|rewrite <- (length_elems _ _ H2), E2]; by rewrite length_fmap.
Qed.

Lemma rel_add_address n v a m :
  net_rel n v → ∃ n', execOp (OpAddAddress a m) n = Ret n' ∧ net_rel n' (specOp (OpAddAddress a m) v).
Proof.
  intros Hr. simpl. destruct (rel_addresses n v Hr) as (E1 & E2 & L1 & L2). unfold AddIPv4Address. rewrite L1, E1.
  destruct (v_addrs v) as [|q l] eqn:Ev; [by eexists|]. rewrite <- Ev in *. rewrite (bool_decide_false (v_addrs v = [])) by (by rewrite Ev).
  replace (Nat.eqb (length (v_addrs v)) 0) with false by (by rewrite Ev).
  simpl. destruct (bool_decide (a ∈ (v_addrs v).*1)) eqn:Em; [by eexists|].
  pose proof (nr_sep n v Hr) as Hsep. pose proof (sep_ok _ _ Hsep) as Hok. unfold strSlices in Hok. rewrite !Forall_cons in Hok.
  destruct Hok as (_ & O1 & O2 & _). pose proof (append_spec "" a _ (nt_strs n) O1) as Ha.
  destruct (appendOne "" a _ (nt_strs n)) as [h1 s1]. destruct Ha as (Ea & Oa & Fa).
  destruct (separated_update _ _ 1 _ _ _ _ Hsep eq_refl Ea Oa Fa) as [Hsep1 Es1].
  pose proof (sep_ok _ _ Hsep1) as Hok1. simpl in Hok1. rewrite !Forall_cons in Hok1. destruct Hok1 as (_ & _ & O3 & _).
  pose proof (append_spec "" m _ h1 O3) as Hm. destruct (appendOne "" m _ h1) as [h2 s2]. destruct Hm as (Em' & Om & Fm).
  destruct (separated_update _ _ 2 _ _ _ _ Hsep1 eq_refl Em' Om Fm) as [Hsep2 Es2].
  eexists. split; [done|]. refine (rel_strs n v _ _ _ _ _ _ _ (v_addrs v ++ [(a, m)]) _ _ Hr Hsep2 _). simpl in Es2 |- *. rewrite Es2.
  simpl in Es1. injection Es1 as -> -> Ek -> ->. pose proof (nr_strs n v Hr) as E. simpl in E. injection E as -> -> E' -> ->.
  rewrite Ek, E', !fmap_app. done.
Qed.

Lemma rel_remove_address n v a :
  net_rel n v → ∃ n', execOp (OpRemoveAddress a) n = Ret n' ∧ net_rel n' (specOp (OpRemoveAddress a) v).
Proof.
  intros Hr. destruct (rel_addresses n v Hr) as (E1 & E2 & L1 & L2). unfold execOp, RemoveIPv4Address. rewrite E1.
  destruct (indexOf a (v_addrs v).*1) as [i|] eqn:Ei; simpl.
  2:{ rewrite bool_decide_false by (by apply indexOf_None). by eexists. }
  rewrite bool_decide_true.
  2:{ destruct (decide (a ∈ (v_addrs v).*1)) as [?|Hn]; [done|]. apply indexOf_None in Hn. congruence. }
  destruct (indexOf_pairs _ _ _ Ei) as [Hi ->].
  pose proof (nr_sep n v Hr) as Hsep. pose proof (sep_ok _ _ Hsep) as Hok. unfold strSlices in Hok. rewrite !Forall_cons in Hok.
  destruct Hok as (_ & O1 & O2 & _). destruct (remove_spec i _ (nt_strs n) O1 ltac:(lia)) as (h1 & s1 & -> & Ea & Oa & Fa).
  destruct (separated_update _ _ 1 _ _ _ _ Hsep eq_refl Ea Oa Fa) as [Hsep1 Es1].
  pose proof (sep_ok _ _ Hsep1) as Hok1. simpl in Hok1. rewrite !Forall_cons in Hok1. destruct Hok1 as (_ & _ & O3 & _).
  simpl. destruct (remove_spec i _ h1 O3 ltac:(lia)) as (h2 & s2 & -> & Em & Om & Fm).
  destruct (separated_update _ _ 2 _ _ _ _ Hsep1 eq_refl Em Om Fm) as [Hsep2 Es2].
  eexists. split; [done|]. refine (rel_strs n v _ _ _ _ _ _ _ (delete i (v_addrs v)) _ _ Hr Hsep2 _). simpl in Es2 |- *. rewrite Es2.
  simpl in Es1. injection Es1 as -> -> Ek -> ->. pose proof (nr_strs n v Hr) as E. simpl in E. injection E as -> -> E' -> ->.
  by rewrite Ek, E', <- !list_fmap_delete.
Qed.

(** The included routes and their slice. *)
Lemma rel_routes n v : net_rel n v →
  elems (nt_r4 n) (ns_IPv4IncludedRoutes (nt_settings n)) = v_incl v ∧
  slice_ok (nt_r4 n) (ns_IPv4IncludedRoutes (nt_settings n)) ∧
  sl_len (ns_IPv4IncludedRoutes (nt_settings n)) = length (v_incl v).
Proof.
  intros Hr. pose proof (nr_r4 n v Hr) as E. simpl in E. injection E as E1 _.
  pose proof (sep_ok _ _ (nr_sep4 n v Hr)) as Hok. unfold r4Slices in Hok. rewrite !Forall_cons in Hok.
  destruct Hok as (H1 & _). split; [done|]. split; [done|]. by rewrite <- E1, length_elems.
Qed.

(** An operation on the slice of included routes. *)
Lemma rel_routes_update n v h i l :
  net_rel n v → elems h i = l → slice_ok h i → frames (nt_r4 n) (ns_IPv4IncludedRoutes (nt_settings n)) h i →
  net_rel (update (with_included i (nt_settings n)) (set_r4 h n)) (bump (v_routes l (v_excl v) v)).
Proof.
  intros Hr El Ok Hf. destruct (separated_update _ _ 0 _ _ _ _ (nr_sep4 n v Hr) eq_refl El Ok Hf) as [Hsep Es].
  rewrite (nr_r4 n v Hr) in Es. exact (rel_r4 n v _ _ _ _ _ Hr Hsep Es).
Qed.

Lemma rel_add_route n v r : net_rel n v → ∃ n', execOp (OpAddRoute r) n = Ret n' ∧ net_rel n' (specOp (OpAddRoute r) v).
Proof.
  intros Hr. destruct (rel_routes n v Hr) as (E & Ok & _). unfold execOp, AddIPv4IncludedRoute. rewrite E. simpl.
  destruct (bool_decide (r ∈ v_incl v)); [by eexists|].
  pose proof (append_spec noRoute4 r _ _ Ok) as Ha. destruct (appendOne noRoute4 r _ (nt_r4 n)) as [h i].
  destruct Ha as (Ea & Oa & Fa). rewrite E in Ea. eexists. split; [done|]. by apply rel_routes_update.
Qed.

Lemma rel_remove_route n v r : net_rel n v → ∃ n', execOp (OpRemoveRoute r) n = Ret n' ∧ net_rel n' (specOp (OpRemoveRoute r) v).
Proof.
  intros Hr. destruct (rel_routes n v Hr) as (E & Ok & Hl). unfold execOp, RemoveIPv4IncludedRoute. rewrite E. simpl.
  destruct (indexOf r (v_incl v)) as [i|] eqn:Ei.
  - destruct (indexOf_drop _ _ _ Ei) as [Hi ->]. destruct (remove_spec i _ (nt_r4 n) Ok ltac:(lia)) as (h & s & -> & Es & Os & Fs).
    rewrite E in Es. eexists. split; [done|]. by apply rel_routes_update.
  - rewrite dropFirst_absent by (by apply indexOf_None). eexists. split; [done|].
    destruct Hr as [? ? ? ? ? ? ? Hc]. destruct v. split; simpl in *; try done. by rewrite Hc.
Qed.

Lemma rel_clear n v : net_rel n v → net_rel (ClearNetworkSettings n) (specOp OpClear v).
Proof.
  intros Hr. split; simpl; try done; try apply (separated_nil _ 5); try apply (separated_nil _ 2). by rewrite (nr_count n v Hr).
Qed.

Lemma rel_step o n v : op_ok o → net_rel n v → ∃ n', execOp o n = Ret n' ∧ net_rel n' (specOp o v).
Proof.
  intros Ho Hr. destruct o.
  - eexists. split; [done|]. destruct Hr as [? ? ? ? ? ? [? ?] Hc]. split; simpl; try done. by rewrite Hc.
  - eexists. split; [done|]. destruct Hr as [? ? ? ? ? ? [? ?] Hc]. split; simpl; try done. by rewrite Hc.
  - by apply rel_dns.
  - by apply rel_ipv4.
  - by apply rel_add_address.
  - by apply rel_remove_address.
  - by apply rel_included.
  - by apply rel_add_route.
  - by apply rel_remove_route.
  - by apply rel_excluded.
  - by apply rel_ipv6.
  - by apply rel_included6.
  - by apply rel_excluded6.
  - eexists. split; [done|]. by apply rel_clear.
Qed.

Lemma rel_run l : ∀ n v, Forall op_ok l → net_rel n v → ∃ n', execOps l n = Ret n' ∧ net_rel n' (foldl (flip specOp) v l).
Proof.
  induction l as [|o l IH]; simpl; intros n v Hl Hr; [by eexists|]. apply Forall_cons in Hl as [Ho Hl].
  destruct (rel_step o n v Ho Hr) as (n' & -> & Hr'). by apply IH.
Qed.

Lemma rel_initial : net_rel initialNet initialView.
Proof. split; simpl; try done; try apply (separated_nil _ 5); apply (separated_nil _ 2). Qed.

End Refinement.

(** ** Snapshots *)

(** What a copy of the settings shows in the current stores. *)
Definition shown (n : net) (s : NetworkSettings) : list (list string) * list (list IPv4Route) * list (list IPv6Route) :=
  (elems (nt_strs n) <$> strSlices s, elems (nt_r4 n) <$> r4Slices s, elems (nt_r6 n) <$> r6Slices s).

(** Appending to [c] writes nothing that [t] shows. *)
Definition quiet (c t : slice) : Prop :=
  sl_cap c = 0%nat ∨ sl_cap t = 0%nat ∨ sl_arr c ≠ sl_arr t ∨ (sl_len t ≤ sl_len c)%nat.

Section Snapshots.
Context `{GrowSlice}.

Lemma append_quiet {A} (z x : A) c t h :
  slice_ok h c → slice_ok h t → quiet c t →
  let '(h', c') := appendOne z x c h in elems h' t = elems h t ∧ slice_ok h' t ∧ quiet c' t.
Proof.
  intros Hc Ht Hq. unfold appendOne. destruct (Nat.ltb_spec (sl_len c) (sl_cap c)) as [Hlt|Hge].
  - unfold elems, slice_ok, quiet in *. rewrite !arrayOf_set. simpl. destruct (decide (sl_arr t = sl_arr c)) as [E|E].
    + assert (arrayOf h c = arrayOf h t) as -> by (unfold arrayOf; by rewrite E).
      rewrite length_insert. split; [|split; [done|lia]].
      destruct Hq as [?|[?|[?|?]]]; [lia| |congruence|]; rewrite take_insert_ge; [done|lia|done|lia].
    + split; [done|]. split; [done|]. right. right. left. congruence.
  - pose proof (new_spec z (elems h c ++ [x]) (growCap (sl_cap c) (S (sl_len c)) - S (sl_len c)) h) as Hnew.
    destruct (newSlice z _ _ h) as [h' c']. destruct Hnew as (_ & _ & Hf). destruct (Hf t Ht) as (E & Ok & Ha).
    split; [done|]. split; [done|]. unfold quiet. destruct Ha as [?|[?|?]]; auto.
Qed.

(** A slice that a caller passes is quiet for every slice there is. *)
Lemma new_quiet {A} (z : A) l extra h t :
  slice_ok h t →
  let '(h', c') := newSlice z l extra h in elems h' t = elems h t ∧ slice_ok h' t ∧ quiet c' t.
Proof.
  intros Ht. pose proof (new_spec z l extra h) as Hnew. destruct (newSlice z l extra h) as [h' c']. destruct Hnew as (_ & _ & Hf).
  destruct (Hf t Ht) as (E & Ok & Ha). split; [done|]. split; [done|]. unfold quiet. destruct Ha as [?|[?|?]]; auto.
Qed.

Record snapped (t : NetworkSettings) (n : net) : Prop := {
  sn_strs : ∀ s, s ∈ strSlices t → slice_ok (nt_strs n) s ∧ quiet (ns_IPv4Addresses (nt_settings n)) s ∧
                                   quiet (ns_IPv4SubnetMasks (nt_settings n)) s;
  sn_r4 : ∀ s, s ∈ r4Slices t → slice_ok (nt_r4 n) s ∧ quiet (ns_IPv4IncludedRoutes (nt_settings n)) s;
  sn_r6 : ∀ s, s ∈ r6Slices t → slice_ok (nt_r6 n) s }.

(** Operations on the strings that leave the shown ones alone; likewise for
    the routes. *)
Lemma snapped_strs t n d a m a6 p6 h :
  snapped t n →
  (∀ s, s ∈ strSlices t → slice_ok (nt_strs n) s → elems h s = elems (nt_strs n) s ∧ slice_ok h s ∧
     (quiet (ns_IPv4Addresses (nt_settings n)) s → quiet (ns_IPv4SubnetMasks (nt_settings n)) s → quiet a s ∧ quiet m s)) →
  let n' := update (with_strs d a m a6 p6 (nt_settings n)) (set_strs h n) in shown n' t = shown n t ∧ snapped t n'.
Proof.
  intros [H1 H2 H3] Hf. split.
  - unfold shown. simpl. f_equal. f_equal. repeat (f_equal; [apply Hf; [set_solver|apply H1; set_solver]|]).
    f_equal. apply Hf; [set_solver|apply H1; set_solver].
  - split; simpl; try done. intros s Hs. destruct (H1 s Hs) as (Ok & Q1 & Q2). destruct (Hf s Hs Ok) as (_ & Ok' & Hq). by split; [|apply Hq].
Qed.

Lemma snapped_r4 t n i e h :
  snapped t n →
  (∀ s, s ∈ r4Slices t → slice_ok (nt_r4 n) s → elems h s = elems (nt_r4 n) s ∧ slice_ok h s ∧
     (quiet (ns_IPv4IncludedRoutes (nt_settings n)) s → quiet i s)) →
  let n' := update (with_r4 i e (nt_settings n)) (set_r4 h n) in shown n' t = shown n t ∧ snapped t n'.
Proof.
  intros [H1 H2 H3] Hf. split.
  - unfold shown. simpl. f_equal. f_equal. repeat (f_equal; [apply Hf; [set_solver|apply H2; set_solver]|]).
    f_equal. apply Hf; [set_solver|apply H2; set_solver].
  - split; simpl; try done. intros s Hs. destruct (H2 s Hs) as (Ok & Q). destruct (Hf s Hs Ok) as (_ & Ok' & Hq). by split; [|apply Hq].
Qed.

Lemma snapped_r6 t n i e l z extra :
  snapped t n →
  let h := (newSlice z l extra (nt_r6 n)).1 in
  let n' := update (with_r6 i e (nt_settings n)) (set_r6 h n) in shown n' t = shown n t ∧ snapped t n'.
Proof.
  intros [H1 H2 H3] h.
  assert (∀ s, s ∈ r6Slices t → elems h s = elems (nt_r6 n) s ∧ slice_ok h s) as Hf.
  { intros s Hs. pose proof (new_quiet z l extra (nt_r6 n) s (H3 s Hs)) as Hq. subst h.
    destruct (newSlice z l extra (nt_r6 n)) as [h' c']. by destruct Hq as (? & ? & _). }
  split.
  - unfold shown. simpl. f_equal. f_equal; [apply Hf; set_solver|]. f_equal. apply Hf. set_solver.
  - split; simpl; try done. intros s Hs. by apply Hf.
Qed.

(** Every operation but the removals. *)
Definition keeps (o : netOp) : bool := match o with OpRemoveAddress _ | OpRemoveRoute _ => false | _ => true end.

Lemma snapped_add_address t n v a m :
  net_rel n v → snapped t n → let n' := (AddIPv4Address a m n).1 in shown n' t = shown n t ∧ snapped t n'.
Proof.
  intros Hr Hs. unfold AddIPv4Address. destruct (Nat.eqb _ _); [done|]. destruct (bool_decide _); [done|].
  pose proof (nr_sep n v Hr) as Hsep. pose proof (sep_ok _ _ Hsep) as Hok. unfold strSlices in Hok. rewrite !Forall_cons in Hok.
  destruct Hok as (_ & O1 & O2 & _). pose proof (append_spec "" a _ _ O1) as Ha.
  pose proof (λ s, append_quiet (""%string) a _ s _ O1) as Q1.
  destruct (appendOne "" a _ (nt_strs n)) as [h1 s1]. destruct Ha as (Ea & Oa & Fa).
  destruct (separated_update _ _ 1 _ _ _ _ Hsep eq_refl Ea Oa Fa) as [Hsep1 _].
  pose proof (sep_ok _ _ Hsep1) as Hok1. simpl in Hok1. rewrite !Forall_cons in Hok1. destruct Hok1 as (_ & _ & O3 & _).
  pose proof (λ s, append_quiet (""%string) m _ s _ O3) as Q2. destruct (appendOne "" m _ h1) as [h2 s2].
  apply (snapped_strs t n); [done|]. intros s Hin Ok. destruct (sn_strs _ _ Hs s Hin) as (_ & Qa & Qm).
  destruct (Q1 s Ok Qa) as (E1 & Ok1 & Q1'). destruct (Q2 s Ok1 Qm) as (E2 & Ok2 & Q2'). rewrite E2, E1. auto.
Qed.

Lemma snapped_add_route t n v r :
  net_rel n v → snapped t n → let n' := AddIPv4IncludedRoute r n in shown n' t = shown n t ∧ snapped t n'.
Proof.
  intros Hr Hs. unfold AddIPv4IncludedRoute. destruct (bool_decide _); [done|].
  destruct (rel_routes n v Hr) as (_ & Ok & _). pose proof (λ s, append_quiet noRoute4 r _ s _ Ok) as Q.
  destruct (appendOne noRoute4 r _ (nt_r4 n)) as [h i]. apply (snapped_r4 t n); [done|].
  intros s Hin Os. destruct (sn_r4 _ _ Hs s Hin) as [_ Qs]. destruct (Q s Os Qs) as (E & Ok' & Q'). auto.
Qed.

Lemma snapped_clear t n : snapped t n → shown (ClearNetworkSettings n) t = shown n t ∧ snapped t (ClearNetworkSettings n).
Proof.
  intros [H1 H2 H3]. split; [done|]. split; simpl; try done.
  - intros s Hs. destruct (H1 s Hs) as [? _]. split; [done|]. split; by left.
  - intros s Hs. destruct (H2 s Hs) as [? _]. split; [done|]. by left.
Qed.

Lemma snapped_step t o n v n' :
  keeps o = true → net_rel n v → snapped t n → execOp o n = Ret n' → shown n' t = shown n t ∧ snapped t n'.
Proof.
  intros Ho Hr Hs. pose proof (λ l r s, new_quiet (""%string) l r (nt_strs n) s) as Qn.
  destruct o; try done; unfold execOp, passStrs, passR4.
  - intros [= <-]. by destruct Hs.
  - intros [= <-]. by destruct Hs.
  - specialize (Qn servers room). destruct (newSlice "" servers room (nt_strs n)) as [h c]. intros [= <-].
    apply (snapped_strs t n); [done|]. intros s _ Ok. destruct (Qn s Ok) as (? & ? & _). auto.
  - specialize (Qn addresses room). destruct (newSlice "" addresses room (nt_strs n)) as [h1 c1]. cbn [nt_strs set_strs].
    pose proof (λ s, new_quiet (""%string) masks room h1 s) as Qm. destruct (newSlice "" masks room h1) as [h2 c2]. intros [= <-].
    apply (snapped_strs t n); [done|]. intros s _ Ok. destruct (Qn s Ok) as (E1 & Ok1 & ?). destruct (Qm s Ok1) as (E2 & ? & ?).
    rewrite E2, E1. auto.
  - intros [= <-]. by apply (snapped_add_address t n v).
  - pose proof (λ s, new_quiet noRoute4 routes room (nt_r4 n) s) as Q4. destruct (newSlice noRoute4 routes room (nt_r4 n)) as [h c].
    intros [= <-]. apply (snapped_r4 t n); [done|]. intros s _ Ok. destruct (Q4 s Ok) as (? & ? & ?). auto.
  - intros [= <-]. by apply (snapped_add_route t n v).
  - pose proof (λ s, new_quiet noRoute4 routes room (nt_r4 n) s) as Q4. destruct (newSlice noRoute4 routes room (nt_r4 n)) as [h c].
    intros [= <-]. apply (snapped_r4 t n); [done|]. intros s _ Ok. destruct (Q4 s Ok) as (? & ? & ?). auto.
  - specialize (Qn addresses room). destruct (newSlice "" addresses room (nt_strs n)) as [h1 c1]. cbn [nt_strs set_strs].
    pose proof (λ s, new_quiet (""%string) prefixes room h1 s) as Qm. destruct (newSlice "" prefixes room h1) as [h2 c2]. intros [= <-].
    apply (snapped_strs t n); [done|]. intros s _ Ok. destruct (Qn s Ok) as (E1 & Ok1 & ?). destruct (Qm s Ok1) as (E2 & ? & ?).
    rewrite E2, E1. auto.
  - intros [= <-]. by apply (snapped_r6 t n).
  - intros [= <-]. by apply (snapped_r6 t n).
  - intros [= <-]. by apply snapped_clear.
Qed.

Lemma snapped_run t l : ∀ n v n',
  Forall op_ok l → Forall (λ o, keeps o = true) l → net_rel n v → snapped t n → execOps l n = Ret n' → shown n' t = shown n t.
Proof.
  induction l as [|o l IH]; simpl; intros n v n' Hl Hk Hr Hs He; [by injection He as <-|].
  apply Forall_cons in Hl as [Ho Hl]. apply Forall_cons in Hk as [Hko Hk].
  destruct (rel_step o n v Ho Hr) as (n1 & E & Hr1). rewrite E in He. simpl in He.
  destruct (snapped_step t o n v n1 Hko Hr Hs E) as [Es Hs1]. by rewrite (IH n1 _ n' Hl Hk Hr1 Hs1 He).
Qed.

(** A fresh copy of the settings. *)
Lemma snapped_now n v : net_rel n v → snapped (GetSettings n) n.
Proof.
  intros Hr. assert (∀ c, quiet c c) as Hq by (intros c; unfold quiet; lia).
  assert (∀ c t, apart c t → quiet c t) as Ha by (intros c t; unfold apart, quiet; tauto).
  destruct Hr as [[O1 A1] _ [O4 A4] _ [O6 _] _ _ _]. split.
  - intros s Hs. split; [by eapply Forall_forall in O1|]. apply list_elem_of_lookup in Hs as [k Hk]. split.
    + destruct (decide (k = 1%nat)) as [->|]; [injection Hk as <-; apply Hq|]. apply Ha. by apply (A1 1%nat k).
    + destruct (decide (k = 2%nat)) as [->|]; [injection Hk as <-; apply Hq|]. apply Ha. by apply (A1 2%nat k).
  - intros s Hs. split; [by eapply Forall_forall in O4|]. apply list_elem_of_lookup in Hs as [k Hk].
    destruct (decide (k = 0%nat)) as [->|]; [injection Hk as <-; apply Hq|]. apply Ha. by apply (A4 0%nat k).
  - intros s Hs. by eapply Forall_forall in O6.
Qed.

End Snapshots.

(** ** Properties *)

(** C21: any sequence of calls that gives masks with their
    addresses returns without a panic, whatever room the slices have and
    however [append] grows them, and the settings then hold exactly what the
    specification with plain values says, each address with its mask; the
    counter has gone up with every change. *)
Theorem settings_refine `{GrowSlice} (ops : list netOp) :
  Forall op_ok ops →
  ∃ n, execOps ops initialNet = Ret n ∧
    let v := foldl (flip specOp) initialView ops in
    shown n (GetSettings n) =
      ([v_dns v; (v_addrs v).*1; (v_addrs v).*2; v_addrs6 v; v_prefixes6 v], [v_incl v; v_excl v], [v_incl6 v; v_excl6 v]) ∧
    ns_TunnelRemoteAddress (GetSettings n) = v_tunnel v ∧ ns_MTU (GetSettings n) = v_mtu v ∧ GetIncrementor n = v_count v.
Proof.
  intros Ho. destruct (rel_run ops initialNet initialView Ho rel_initial) as (n & E & Hr). exists n. split; [done|].
  destruct Hr as [_ E1 _ E4 _ E6 [? ?] ?]. unfold shown, GetSettings. by rewrite E1, E4, E6.
Qed.

(** A copy of the settings that was handed out keeps
    showing the same through later calls, as long as nothing is removed:
    [append] only writes behind what the copy shows. *)
Theorem snapshot_kept `{GrowSlice} (before after : list netOp) (n n' : net) :
  Forall op_ok before → Forall op_ok after → Forall (λ o, keeps o = true) after →
  execOps before initialNet = Ret n → execOps after n = Ret n' →
  shown n' (GetSettings n) = shown n (GetSettings n).
Proof.
  intros Hb Ha Hk E E'. destruct (rel_run before initialNet initialView Hb rel_initial) as (n0 & E0 & Hr).
  rewrite E in E0. injection E0 as <-. eapply snapped_run; [done..|by eapply snapped_now|done].
Qed.

(** Removing a route changes copies of the settings that
    were handed out before: they no longer show it and show their last route
    twice. *)
Theorem snapshot_overwritten `{GrowSlice} (before : list netOp) (n : net) (r : IPv4Route) (i : nat) :
  Forall op_ok before → execOps before initialNet = Ret n →
  let copy := ns_IPv4IncludedRoutes (GetSettings n) in
  let l := elems (nt_r4 n) copy in
  indexOf r l = Some i →
  ∃ n', RemoveIPv4IncludedRoute r n = Ret n' ∧
    elems (nt_r4 n') (ns_IPv4IncludedRoutes (GetSettings n')) = delete i l ∧
    elems (nt_r4 n') copy = delete i l ++ option_list (last l).
Proof.
  intros Hb E copy l Hi. destruct (rel_run before initialNet initialView Hb rel_initial) as (n0 & E0 & Hr).
  rewrite E in E0. injection E0 as <-. destruct (rel_routes _ _ Hr) as (El & Ok & Hl).
  destruct (indexOf_drop _ _ _ Hi) as [Hlt _]. subst l copy. unfold GetSettings in *. rewrite El in *.
  destruct (remove_spec i _ (nt_r4 n) Ok ltac:(lia)) as (h & s & Er & Es & _).
  unfold RemoveIPv4IncludedRoute. rewrite El, Hi, Er. eexists. split; [done|]. split; [by rewrite El in Es|].
  simpl. rewrite (removed_copy i _ _ _ _ Ok ltac:(lia) Er). by rewrite El.
Qed.

Module SettingsExamples.

(** [append] doubling the capacity. *)
Definition doubling : GrowSlice.
Proof. refine {| growCap := λ old need, Nat.max need (2 * old) |}. intros. lia. Defined.
#[local] Existing Instance doubling.

Definition route (d : string) : IPv4Route := mkRoute4 d "255.255.255.0" "" false.
Definition setup : list netOp :=
  [OpIPv4 ["100.89.128.4"%string] ["255.255.255.255"%string] 0; OpMTU 1280;
   OpAddRoute (route "10.0.1.0"); OpAddRoute (route "10.0.2.0"); OpAddRoute (route "10.0.3.0"); OpAddRoute (route "10.0.2.0")].

Lemma settings_refine_witness :
  ∃ n, execOps (setup ++ [OpAddAddress "10.1.0.1" "255.255.255.255"; OpRemoveAddress "100.89.128.4"; OpRemoveRoute (route "10.0.1.0")])
         initialNet = Ret n ∧
    (shown n (GetSettings n)).1 = ([[]; ["10.1.0.1"%string]; ["255.255.255.255"%string]; []; []],
                                   [[route "10.0.2.0"; route "10.0.3.0"]; []]) ∧ GetIncrementor n = 8.
Proof.
  destruct (settings_refine (setup ++ [OpAddAddress "10.1.0.1" "255.255.255.255"; OpRemoveAddress "100.89.128.4"; OpRemoveRoute (route "10.0.1.0")]))
    as (n & E & Es & _ & _ & Ec); [by repeat constructor|].
  exists n. split; [done|]. rewrite Es, Ec. split; vm_compute; reflexivity.
Defined.

(** A copy taken before the first route is removed. *)
Lemma snapshot_overwritten_witness :
  match execOps setup initialNet with
  | Ret n => ∃ n', RemoveIPv4IncludedRoute (route "10.0.1.0") n = Ret n' ∧
      elems (nt_r4 n) (ns_IPv4IncludedRoutes (GetSettings n)) = [route "10.0.1.0"; route "10.0.2.0"; route "10.0.3.0"] ∧
      elems (nt_r4 n') (ns_IPv4IncludedRoutes (GetSettings n)) = [route "10.0.2.0"; route "10.0.3.0"; route "10.0.3.0"]
  | Panic => False
  end.
Proof.
  destruct (execOps setup initialNet) as [n|] eqn:E; [|by vm_compute in E].
  assert (elems (nt_r4 n) (ns_IPv4IncludedRoutes (GetSettings n)) = [route "10.0.1.0"; route "10.0.2.0"; route "10.0.3.0"]) as El
    by (vm_compute in E; injection E as <-; vm_compute; reflexivity).
  destruct (snapshot_overwritten setup n (route "10.0.1.0") 0) as (n' & Er & _ & Ec); [by repeat constructor|done|by rewrite El|].
  exists n'. split; [done|]. split; [done|]. rewrite Ec, El. reflexivity.
Defined.

Lemma snapshot_kept_witness :
  match execOps setup initialNet with
  | Ret n => match execOps [OpAddRoute (route "10.0.4.0"); OpClear; OpMTU 1500] n with
             | Ret n' => (shown n' (GetSettings n)).1.2 = [[route "10.0.1.0"; route "10.0.2.0"; route "10.0.3.0"]; []] ∧
                         (shown n' (GetSettings n')).1.2 = [[]; []]
             | Panic => False
             end
  | Panic => False
  end.
Proof.
  destruct (execOps setup initialNet) as [n|] eqn:E; [|by vm_compute in E].
  destruct (execOps [OpAddRoute (route "10.0.4.0"); OpClear; OpMTU 1500] n) as [n'|] eqn:E'.
  - rewrite (snapshot_kept setup [OpAddRoute (route "10.0.4.0"); OpClear; OpMTU 1500] n n') by (done || by repeat constructor).
    vm_compute in E. injection E as <-. vm_compute in E'. injection E' as <-. split; vm_compute; reflexivity.
  - vm_compute in E. injection E as <-. by vm_compute in E'.
Defined.

(** A list of masks that is shorter than the addresses makes a removal panic. *)
Example masks_missing :
  execOps [OpIPv4 ["10.0.0.1"%string; "10.0.0.2"%string] ["255.255.255.255"%string] 0; OpRemoveAddress "10.0.0.2"] initialNet = Panic.
Proof. vm_compute. reflexivity. Qed.

End SettingsExamples.
