(* ===== verification/Routes.v ===== *)
(** * Routes and interface addresses ([network/route.go], [interface.go] and
      their Windows files)

    Adding a route for a subnet records it in the settings ([NetSettings.v])
    and asks the operating system for it; removing undoes both.  The system
    calls are events of a log; whether a call works, which interfaces there are
    and what the Windows route table holds is a parameter, a function of the
    calls made before. *)

From S2P Require Import Prelude Netip NetipText HostPort Keys NetSettings.
From Stdlib Require Import Ascii.

(** ** [net.ParseCIDR] and the texts made of its results *)

Record cidr : Type := mkCidr { ci_ip : Addr; ci_net : Addr; ci_bits : Z }.

#[global] Instance cidr_eq_dec : EqDecision cidr.
Proof. solve_decision. Defined.

Definition ParseCIDR (s : string) : option cidr :=
  match cut c_slash (str s) with
  | (a, Some m) =>
      ip ← parseAddr a;
      if match ip with Addr6 _ z => negb (bool_decide (z = "")) | _ => false end then None else
      n ← match m with [] => None | _ => digits_value m 0 end;
      if BitLen ip <? n then None else Some (mkCidr ip (mask_addr ip n) n)
  | (_, None) => None
  end.

(** [IP.String], which writes an IPv4-mapped address as IPv4. *)
Definition IPString (a : Addr) : string := AddrString (Unmap a).

(** [net.IP(mask).String()] *)
Definition maskString (c : cidr) : string :=
  let w := BitLen (ci_ip c) in
  let m := Z.shiftl (Z.ones (ci_bits c)) (w - ci_bits c) in
  match ci_ip c with Addr4 _ => IPString (Addr4 m) | _ => IPString (Addr6 m "") end.

(** [To4], or the address as it is. *)
Definition netipOf (a : Addr) : Addr := Unmap a.

(** ** The operating system *)

Definition VPNRouteMetric : Z := 9999.

(** A route given to netlink; a link index or a priority of 0 is not set. *)
Record nlRoute : Type := mkNlRoute { nl_dst : cidr; nl_gw : option Addr; nl_link : Z; nl_priority : Z }.

(** A route of the Windows table. *)
Record winRoute : Type := mkWinRoute { wr_prefix : Prefix; wr_luid : Z; wr_metric : Z }.

Inductive osCall : Type :=
  | RouteAdd (r : nlRoute) | RouteDel (r : nlRoute)
  | WinAddRoute (luid : Z) (p : Prefix) (nextHop : Addr) (metric : Z) | WinDelete (r : winRoute)
  | AddrAdd (link : Z) (a : cidr) | AddrDel (link : Z) (a : cidr) | LinkSetUp (link : Z)
  | WinAddIP (luid : Z) (p : Prefix) | WinDeleteIP (luid : Z) (p : Prefix)
  | Exec (prog : string) (args : list string).

(** What the code sees of the host; the log holds the calls made so far. *)
Class Host : Type := {
  GOOS : string;
  linkByName : list osCall → string → option Z;
  luidByName : list osCall → string → option Z;       (* InterfaceByName and LUIDFromIndex *)
  callOk : list osCall → osCall → bool;
  forwardTable : list osCall → bool → option (list winRoute) }.

(** The log after an operation, and whether it failed. *)
Definition osResult : Type := list osCall * bool.

Section OS.
Context `{Host} (PreferLocalRoutes NativeConfigDisabled : bool).

Definition call (c : osCall) (log : list osCall) : osResult := (log ++ [c], negb (callOk log c)).

Definition metric : Z := if PreferLocalRoutes then VPNRouteMetric else 0.

(** ** Routes *)

Definition DarwinAddRouteWithSource (destination gateway interfaceName sourceIP : string) (log : list osCall) : osResult :=
  if negb (bool_decide (GOOS = "darwin")) then (log, false)
  else if NativeConfigDisabled then (log, false)
  else
    let ifa := if bool_decide (sourceIP = "") then [] else ["-ifa"%string; sourceIP] in
    if negb (bool_decide (gateway = ""))
    then call (Exec "route" (["-q"; "-n"; "add"; "-inet"; destination; "-gateway"; gateway]%string ++ ifa)) log
    else if negb (bool_decide (interfaceName = ""))
    then call (Exec "route" (["-q"; "-n"; "add"; "-inet"; destination; "-interface"; interfaceName]%string ++ ifa)) log
    else (log, true).

Definition DarwinAddRoute (destination gateway interfaceName : string) (log : list osCall) : osResult :=
  DarwinAddRouteWithSource destination gateway interfaceName "" log.

Definition DarwinRemoveRoute (destination : string) (log : list osCall) : osResult :=
  if negb (bool_decide (GOOS = "darwin")) then (log, false)
  else if NativeConfigDisabled then (log, false)
  else call (Exec "route" ["-q"; "-n"; "delete"; "-inet"; destination]%string) log.

Definition LinuxAddRoute (destination gateway interfaceName : string) (log : list osCall) : osResult :=
  if negb (bool_decide (GOOS = "linux")) then (log, false)
  else match ParseCIDR destination with
  | None => (log, true)
  | Some dst =>
      if negb (bool_decide (gateway = "")) then
        match ParseIP gateway with
        | None => (log, true)
        | Some gw => call (RouteAdd (mkNlRoute dst (Some gw) 0 metric)) log
        end
      else if negb (bool_decide (interfaceName = "")) then
        match linkByName log interfaceName with
        | None => (log, true)
        | Some i => call (RouteAdd (mkNlRoute dst None i metric)) log
        end
      else (log, true)
  end.

Definition LinuxRemoveRoute (destination interfaceName : string) (log : list osCall) : osResult :=
  if negb (bool_decide (GOOS = "linux")) then (log, false)
  else match ParseCIDR destination with
  | None => (log, true)
  | Some dst =>
      if bool_decide (interfaceName = "") then call (RouteDel (mkNlRoute dst None 0 metric)) log
      else match linkByName log interfaceName with
           | None => (log, true)
           | Some i => call (RouteDel (mkNlRoute dst None i metric)) log
           end
  end.

(** [WindowsAddRoute]; outside Windows it does nothing. *)
Definition WindowsAddRoute (destination gateway interfaceName : string) (log : list osCall) : osResult :=
  if negb (bool_decide (GOOS = "windows")) then (log, false)
  else match ParseCIDR destination with
  | None => (log, true)
  | Some dst =>
      let addr := netipOf (ci_net dst) in
      let prefix := PrefixFrom addr (ci_bits dst) in
      match (if bool_decide (interfaceName = "") then Some 0 else luidByName log interfaceName) with
      | None => (log, true)
      | Some luid =>
          if negb (bool_decide (gateway = "")) then
            match ParseIP gateway with
            | None => (log, true)
            | Some gw => call (WinAddRoute luid prefix (netipOf gw) metric) log
            end
          else if negb (bool_decide (interfaceName = "")) then
            call (WinAddRoute luid prefix (match addr with Addr4 _ => Addr4 0 | _ => Addr6 0 "" end) metric) log
          else (log, true)
      end
  end.

(** The first entry to delete. *)
Definition winMatch (prefix : Prefix) (luid : option Z) (r : winRoute) : bool :=
  bool_decide (wr_prefix r = prefix) &&
  match luid with Some l => (wr_luid r =? l) && (wr_metric r =? metric) | None => true end.

Definition WindowsRemoveRoute (destination interfaceName : string) (log : list osCall) : osResult :=
  if negb (bool_decide (GOOS = "windows")) then (log, false)
  else match ParseCIDR destination with
  | None => (log, true)
  | Some dst =>
      let addr := netipOf (ci_net dst) in
      let prefix := PrefixFrom addr (ci_bits dst) in
      match (if bool_decide (interfaceName = "") then Some None else Some <$> luidByName log interfaceName) with
      | None => (log, true)
      | Some luid =>
          match forwardTable log (match addr with Addr4 _ => false | _ => true end) with
          | None => (log, true)
          | Some routes =>
              match for_return (λ r, if winMatch prefix luid r then Some r else None) routes with
              | Some r => call (WinDelete r) log
              | None => (log, true)
              end
          end
      end
  end.

(** ** Routes of the settings *)

(** The settings and the log. *)
Record netHost : Type := mkNetHost { nh_net : net; nh_log : list osCall }.

Definition routeEntry (destination gateway : string) : option IPv4Route :=
  c ← ParseCIDR destination; Some (mkRoute4 (IPString (ci_net c)) (maskString c) gateway false).

Context `{GrowSlice}.

Definition AddRouteForNetworkConfigWithGateway (destination gateway : string) (n : net) : net * bool :=
  match routeEntry destination gateway with None => (n, true) | Some r => (AddIPv4IncludedRoute r n, false) end.
Definition AddRouteForNetworkConfig (destination : string) (n : net) : net * bool :=
  AddRouteForNetworkConfigWithGateway destination "" n.
Definition RemoveRouteForNetworkConfigWithGateway (destination gateway : string) (n : net) : go (net * bool) :=
  match routeEntry destination gateway with
  | None => Ret (n, true)
  | Some r => n' ← RemoveIPv4IncludedRoute r n; Ret (n', false)
  end.
Definition RemoveRouteForNetworkConfig (destination : string) (n : net) : go (net * bool) :=
  RemoveRouteForNetworkConfigWithGateway destination "" n.

(** One turn of the loop of [AddRoutesWithSource]; errors are logged. *)
Definition addSubnet (interfaceName sourceIP subnet : string) (s : netHost) : netHost :=
  let subnet := unstr (TrimSpace (str subnet)) in
  if bool_decide (subnet = "") then s
  else let '(n, err) := AddRouteForNetworkConfig subnet (nh_net s) in
  if err || bool_decide (interfaceName = "") then mkNetHost n (nh_log s)
  else mkNetHost n
    (if bool_decide (GOOS = "darwin") then (DarwinAddRouteWithSource subnet "" interfaceName sourceIP (nh_log s)).1
     else if bool_decide (GOOS = "windows") then (WindowsAddRoute subnet "" interfaceName (nh_log s)).1
     else if bool_decide (GOOS = "linux") then (LinuxAddRoute subnet "" interfaceName (nh_log s)).1
     else nh_log s).

Definition AddRoutesWithSource (remoteSubnets : list string) (interfaceName sourceIP : string) (s : netHost) : netHost :=
  foldl (λ s subnet, addSubnet interfaceName sourceIP subnet s) s remoteSubnets.
Definition AddRoutes (remoteSubnets : list string) (interfaceName : string) (s : netHost) : netHost :=
  AddRoutesWithSource remoteSubnets interfaceName "" s.

Definition removeSubnet (interfaceName subnet : string) (s : netHost) : go netHost :=
  let subnet := unstr (TrimSpace (str subnet)) in
  if bool_decide (subnet = "") then Ret s
  else
    '(n, err) ← RemoveRouteForNetworkConfig subnet (nh_net s);
    Ret (if err : bool then mkNetHost n (nh_log s)
         else mkNetHost n
           (if bool_decide (GOOS = "darwin") then (DarwinRemoveRoute subnet (nh_log s)).1
            else if bool_decide (GOOS = "windows") then (WindowsRemoveRoute subnet interfaceName (nh_log s)).1
            else if bool_decide (GOOS = "linux") then (LinuxRemoveRoute subnet interfaceName (nh_log s)).1
            else nh_log s)).

Fixpoint RemoveRoutes (remoteSubnets : list string) (interfaceName : string) (s : netHost) : go netHost :=
  match remoteSubnets with
  | [] => Ret s
  | x :: l => s ← removeSubnet interfaceName x s; RemoveRoutes l interfaceName s
  end.

Definition AddRouteForServerIPWithSource (serverIP interfaceName sourceIP : string) (s : netHost) : netHost * bool :=
  if bool_decide (interfaceName = "") then (s, false)
  else
    let '(n, err) := AddRouteForNetworkConfigWithGateway serverIP sourceIP (nh_net s) in
    if err then (mkNetHost n (nh_log s), true)
    else if bool_decide (GOOS = "darwin")
    then let '(log, e) := DarwinAddRouteWithSource serverIP "" interfaceName sourceIP (nh_log s) in (mkNetHost n log, e)
    else (mkNetHost n (nh_log s), false).

Definition RemoveRouteForServerIPWithSource (serverIP interfaceName sourceIP : string) (s : netHost) : go (netHost * bool) :=
  if bool_decide (interfaceName = "") then Ret (s, false)
  else
    '(n, err) ← RemoveRouteForNetworkConfigWithGateway serverIP sourceIP (nh_net s);
    Ret (if err : bool then (mkNetHost n (nh_log s), true)
         else if bool_decide (GOOS = "darwin")
         then let '(log, e) := DarwinRemoveRoute serverIP (nh_log s) in (mkNetHost n log, e)
         else (mkNetHost n (nh_log s), false)).

(** ** Addresses of an interface *)

Definition cidrText (c : cidr) : string := (IPString (ci_ip c) +:+ "/" +:+ itoa (ci_bits c))%string.

Definition configureDarwin (interfaceName : string) (c : cidr) (log : list osCall) : osResult :=
  if NativeConfigDisabled then (log, false)
  else
    let '(log, err) := call (Exec "/sbin/ifconfig" [interfaceName; "inet"%string; cidrText c; IPString (ci_ip c); "alias"%string]) log in
    if err then (log, true) else call (Exec "/sbin/ifconfig" [interfaceName; "up"%string]) log.

Definition removeDarwinAddress (interfaceName : string) (c : cidr) (log : list osCall) : osResult :=
  if NativeConfigDisabled then (log, false)
  else call (Exec "/sbin/ifconfig" [interfaceName; "inet"%string; cidrText c; "-alias"%string]) log.

Definition configureLinux (interfaceName : string) (c : cidr) (log : list osCall) : osResult :=
  match linkByName log interfaceName with
  | None => (log, true)
  | Some link =>
      let '(log, err) := call (AddrAdd link c) log in
      if err then (log, true) else call (LinkSetUp link) log
  end.

Definition removeLinuxAddress (interfaceName : string) (c : cidr) (log : list osCall) : osResult :=
  match linkByName log interfaceName with None => (log, true) | Some link => call (AddrDel link c) log end.

Definition configureWindows (interfaceName : string) (c : cidr) (log : list osCall) : osResult :=
  match luidByName log interfaceName with
  | None => (log, true)
  | Some luid => call (WinAddIP luid (PrefixFrom (netipOf (ci_ip c)) (ci_bits c))) log
  end.

Definition removeWindowsAddress (interfaceName : string) (c : cidr) (log : list osCall) : osResult :=
  match luidByName log interfaceName with
  | None => (log, true)
  | Some luid => call (WinDeleteIP luid (PrefixFrom (netipOf (ci_ip c)) (ci_bits c))) log
  end.

(** [switch runtime.GOOS] of the three callers. *)
Definition configureOS (interfaceName : string) (c : cidr) (log : list osCall) : osResult :=
  if bool_decide (interfaceName = "") then (log, false)
  else if bool_decide (GOOS = "linux") then configureLinux interfaceName c log
  else if bool_decide (GOOS = "darwin") then configureDarwin interfaceName c log
  else if bool_decide (GOOS = "windows") then configureWindows interfaceName c log
  else (log, false).

Definition unconfigureOS (interfaceName : string) (c : cidr) (log : list osCall) : osResult :=
  if bool_decide (interfaceName = "") then (log, false)
  else if bool_decide (GOOS = "linux") then removeLinuxAddress interfaceName c log
  else if bool_decide (GOOS = "darwin") then removeDarwinAddress interfaceName c log
  else if bool_decide (GOOS = "windows") then removeWindowsAddress interfaceName c log
  else (log, false).

Definition withLog (n : net) (r : osResult) : netHost * bool := (mkNetHost n r.1, r.2).

Definition ConfigureInterface (interfaceName tunnelIp : string) (mtu : Z) (s : netHost) : netHost * bool :=
  match ParseCIDR tunnelIp with
  | None => (s, true)
  | Some c =>
      let '(n, addrs) := passStrs [IPString (ci_ip c)] 0 (nh_net s) in
      let '(n, masks) := passStrs [maskString c] 0 n in
      let n := SetMTU mtu (SetIPv4Settings addrs masks n) in
      withLog n (configureOS interfaceName c (nh_log s))
  end.

Definition AddSecondaryAddress (interfaceName addr : string) (s : netHost) : netHost * bool :=
  match ParseCIDR addr with
  | None => (s, true)
  | Some c =>
      let '(n, err) := AddIPv4Address (IPString (ci_ip c)) (maskString c) (nh_net s) in
      if err then (mkNetHost n (nh_log s), true) else withLog n (configureOS interfaceName c (nh_log s))
  end.

Definition RemoveSecondaryAddress (interfaceName addr : string) (s : netHost) : go (netHost * bool) :=
  match ParseCIDR addr with
  | None => Ret (s, true)
  | Some c =>
      n ← RemoveIPv4Address (IPString (ci_ip c)) (nh_net s);
      Ret (withLog n (unconfigureOS interfaceName c (nh_log s)))
  end.

End OS.

(** ** An interface name that is not used *)

(** [^utun(\d+)$] and [Atoi]; a number that overflows is left out. *)
Definition utunNumber (name : string) : option Z :=
  d ← trimPrefix (str "utun") (str name);
  if bool_decide (d = []) || negb (forallb isDigit d) then None else Atoi (unstr d).

Fixpoint firstUnused (used : list Z) (i : Z) (fuel : nat) : option string :=
  match fuel with
  | O => None
  | S f => if bool_decide (i ∈ used) then firstUnused used (i + 1) f else Some ("utun" +:+ itoa i)%string
  end.

(** [ifaces] is the list of interfaces, [None] when it cannot be read. *)
Definition FindUnusedUTUN (ifaces : option (list string)) : option string :=
  ifaces ← ifaces; firstUnused (omap utunNumber ifaces) 0 256.

(** ** Adding and removing, on the specification of the settings *)

Definition addRoute (l : list IPv4Route) (r : IPv4Route) : list IPv4Route := if bool_decide (r ∈ l) then l else l ++ [r].
Definition dropRoute (l : list IPv4Route) (r : IPv4Route) : list IPv4Route := dropFirst (λ x, bool_decide (x = r)) l.

(** The entries a list of subnets stands for. *)
Definition entryOf (subnet : string) : option IPv4Route :=
  let s := unstr (TrimSpace (str subnet)) in if bool_decide (s = "") then None else routeEntry s "".

Lemma dropFirst_nodup (l : list IPv4Route) r : NoDup l → dropRoute l r = filter (λ x, x ≠ r) l.
Proof.
  unfold dropRoute. induction 1 as [|x l Hx Hl IH]; [done|]. cbn [dropFirst]. rewrite filter_cons.
  destruct (bool_decide_reflect (x = r)) as [->|Hne].
  - rewrite decide_False by (intros Hc; by apply Hc). symmetry. apply list_filter_all. intros y Hy ->. done.
  - rewrite decide_True by done. by rewrite IH.
Qed.

Lemma dropRoute_app l e r : r ∉ l → dropRoute (l ++ e) r = l ++ dropRoute e r.
Proof.
  unfold dropRoute. induction l as [|x l IH]; [done|]. rewrite not_elem_of_cons. intros [Hne Hl]. simpl.
  rewrite bool_decide_false by congruence. by rewrite IH.
Qed.

Lemma drops_nodup rs : ∀ l e, NoDup e → (∀ r, r ∈ rs → r ∉ l) → foldl dropRoute (l ++ e) rs = l ++ filter (λ x, x ∉ rs) e.
Proof.
  induction rs as [|r rs IH]; intros l e He Hd; simpl.
  - f_equal. symmetry. apply list_filter_all. intros x _. apply not_elem_of_nil.
  - rewrite dropRoute_app by (apply Hd; set_solver). rewrite dropFirst_nodup by done. rewrite IH by (try apply NoDup_filter; set_solver).
    f_equal. rewrite list_filter_filter. apply list_filter_iff. set_solver.
Qed.

Lemma adds_app rs : ∀ l e, NoDup e → (∀ r, r ∈ rs → r ∉ l) →
  ∃ e', foldl addRoute (l ++ e) rs = l ++ e' ∧ NoDup e' ∧ ∀ x, x ∈ e' → x ∈ e ∨ x ∈ rs.
Proof.
  induction rs as [|r rs IH]; intros l e He Hd; simpl; [exists e; split; [done|]; split; [done|auto]|].
  assert (∃ e1, addRoute (l ++ e) r = l ++ e1 ∧ NoDup e1 ∧ ∀ x, x ∈ e1 → x ∈ e ∨ x = r) as (e1 & -> & H1 & H2).
  { unfold addRoute. destruct (bool_decide_reflect (r ∈ l ++ e)) as [Hin|Hin]; [by exists e; auto|].
    rewrite elem_of_app in Hin. exists (e ++ [r]). rewrite app_assoc. split; [done|]. split.
    - apply NoDup_app. split; [done|]. split; [|apply NoDup_singleton]. set_solver.
    - set_solver. }
  destruct (IH l e1 H1) as (e' & -> & H3 & H4); [set_solver|]. exists e'. split; [done|]. split; [done|]. set_solver.
Qed.

(** Subnets that were not there before are gone after both. *)
Lemma add_remove rs l : (∀ r, r ∈ rs → r ∉ l) → foldl dropRoute (foldl addRoute l rs) rs = l.
Proof.
  intros Hd. destruct (adds_app rs l [] NoDup_nil_2 Hd) as (e & E & He & Hs). rewrite app_nil_r in E. rewrite E.
  rewrite drops_nodup by done. rewrite list_filter_none; [apply app_nil_r|]. intros x Hx Hn. destruct (Hs x Hx); set_solver.
Qed.

Section LinuxRoutes.
Context `{Host} `{GrowSlice} (PreferLocalRoutes NativeConfigDisabled : bool).

(** The log of Linux calls. *)
Lemma linux_add s ifn (i : Z) log :
  GOOS = "linux"%string → (∀ l, linkByName l ifn = Some i) → ifn ≠ ""%string →
  (LinuxAddRoute PreferLocalRoutes s "" ifn log).1 =
  log ++ (RouteAdd <$> ((λ c, mkNlRoute c None i (metric PreferLocalRoutes)) <$> option_list (ParseCIDR s))).
Proof.
  intros Hos Hl Hn. unfold LinuxAddRoute. rewrite bool_decide_true by done. simpl.
  destruct (ParseCIDR s); simpl; [|by rewrite app_nil_r]. rewrite bool_decide_false by done. simpl. by rewrite Hl.
Qed.

Lemma linux_remove s ifn (i : Z) log :
  GOOS = "linux"%string → (ifn = ""%string ∧ i = 0 ∨ (ifn ≠ ""%string ∧ ∀ l, linkByName l ifn = Some i)) →
  (LinuxRemoveRoute PreferLocalRoutes s ifn log).1 =
  log ++ (RouteDel <$> ((λ c, mkNlRoute c None i (metric PreferLocalRoutes)) <$> option_list (ParseCIDR s))).
Proof.
  intros Hos Hl. unfold LinuxRemoveRoute. rewrite bool_decide_true by done. simpl.
  destruct (ParseCIDR s); simpl; [|by rewrite app_nil_r].
  destruct Hl as [[-> ->]|[Hn Hl]]; [done|]. rewrite bool_decide_false by done. by rewrite Hl.
Qed.

(** The subnet, when it is one. *)
Definition subnetOf (x : string) : option cidr :=
  let s := unstr (TrimSpace (str x)) in if bool_decide (s = "") then None else ParseCIDR s.

Definition onLink (i : Z) (c : cidr) : nlRoute := mkNlRoute c None i (metric PreferLocalRoutes).

(** One subnet on Linux: the settings follow the specification, the log gets
    the route, or nothing without an interface. *)
Lemma add_subnet_linux x ifn (i : Z) n v log :
  GOOS = "linux"%string → (ifn = ""%string ∨ ∀ l, linkByName l ifn = Some i) → net_rel n v →
  let s := addSubnet PreferLocalRoutes NativeConfigDisabled ifn "" x (mkNetHost n log) in
  (∃ v', net_rel (nh_net s) v' ∧ v_incl v' = foldl addRoute (v_incl v) (option_list (entryOf x))) ∧
  nh_log s = if bool_decide (ifn = ""%string) then log else log ++ (RouteAdd <$> (onLink i <$> option_list (subnetOf x))).
Proof.
  intros Hos Hl Hr. unfold addSubnet, entryOf, subnetOf. cbn [nh_net nh_log]. set (t := unstr (TrimSpace (str x))).
  destruct (bool_decide (t = "")); [split; [by eexists|]; destruct (bool_decide _); [done|by rewrite app_nil_r]|].
  unfold AddRouteForNetworkConfig, AddRouteForNetworkConfigWithGateway. pose proof (linux_add t ifn i log Hos) as Hadd.
  unfold routeEntry. destruct (ParseCIDR t) as [c|] eqn:Ec; cbn.
  2:{ split; [by eexists|]. destruct (bool_decide _); [done|by rewrite app_nil_r]. }
  destruct (rel_add_route n v (mkRoute4 (IPString (ci_net c)) (maskString c) "" false) Hr) as (n' & [= <-] & Hr').
  split.
  - eexists. split; [destruct (bool_decide _); exact Hr'|]. simpl. unfold addRoute. by repeat case_bool_decide.
  - destruct (bool_decide_reflect (ifn = "")) as [E|E]; [done|]. rewrite Hos. simpl.
    destruct Hl as [?|Hl]; [done|]. by rewrite Hadd.
Qed.

Lemma remove_subnet_linux x ifn (i : Z) n v log :
  GOOS = "linux"%string → (ifn = ""%string ∧ i = 0 ∨ (ifn ≠ ""%string ∧ ∀ l, linkByName l ifn = Some i)) → net_rel n v →
  ∃ s, removeSubnet PreferLocalRoutes NativeConfigDisabled ifn x (mkNetHost n log) = Ret s ∧
  (∃ v', net_rel (nh_net s) v' ∧ v_incl v' = foldl dropRoute (v_incl v) (option_list (entryOf x))) ∧
  nh_log s = log ++ (RouteDel <$> (onLink i <$> option_list (subnetOf x))).
Proof.
  intros Hos Hl Hr. unfold removeSubnet, entryOf, subnetOf. cbn [nh_net nh_log]. set (t := unstr (TrimSpace (str x))).
  destruct (bool_decide (t = "")); [eexists; split; [done|]; split; [by eexists|by rewrite app_nil_r]|].
  unfold RemoveRouteForNetworkConfig, RemoveRouteForNetworkConfigWithGateway. pose proof (linux_remove t ifn i log Hos Hl) as Hrem.
  unfold routeEntry. destruct (ParseCIDR t) as [c|] eqn:Ec; cbn.
  2:{ eexists. split; [done|]. split; [by eexists|by rewrite app_nil_r]. }
  destruct (rel_remove_route n v (mkRoute4 (IPString (ci_net c)) (maskString c) "" false) Hr) as (n' & En & Hr').
  simpl in En. rewrite En. eexists. split; [done|]. rewrite Hos. simpl. split; [by eexists|]. by rewrite Hrem.
Qed.

Lemma add_subnets_linux subnets ifn (i : Z) : ∀ n v log,
  GOOS = "linux"%string → (ifn = ""%string ∨ ∀ l, linkByName l ifn = Some i) → net_rel n v →
  let s := AddRoutes PreferLocalRoutes NativeConfigDisabled subnets ifn (mkNetHost n log) in
  (∃ v', net_rel (nh_net s) v' ∧ v_incl v' = foldl addRoute (v_incl v) (omap entryOf subnets)) ∧
  nh_log s = if bool_decide (ifn = ""%string) then log else log ++ (RouteAdd <$> (onLink i <$> omap subnetOf subnets)).
Proof.
  unfold AddRoutes, AddRoutesWithSource. induction subnets as [|x l IH]; intros n v log Hos Hl Hr.
  { simpl. split; [by eexists|]. destruct (bool_decide _); [done|by rewrite app_nil_r]. }
  cbn [foldl]. destruct (add_subnet_linux x ifn i n v log Hos Hl Hr) as [(v1 & Hr1 & Ev1) El1].
  destruct (addSubnet _ _ ifn "" x (mkNetHost n log)) as [n1 log1]. cbn [nh_net nh_log] in *.
  destruct (IH n1 v1 log1 Hos Hl Hr1) as [(v2 & Hr2 & Ev2) El2]. split.
  - exists v2. split; [done|]. rewrite Ev2, Ev1, <- foldl_app. f_equal. simpl. by destruct (entryOf x).
  - rewrite El2, El1. destruct (bool_decide _); [done|]. rewrite <- app_assoc. f_equal. simpl. by destruct (subnetOf x).
Qed.

Lemma remove_subnets_linux subnets ifn (i : Z) : ∀ n v log,
  GOOS = "linux"%string → (ifn = ""%string ∧ i = 0 ∨ (ifn ≠ ""%string ∧ ∀ l, linkByName l ifn = Some i)) → net_rel n v →
  ∃ s, RemoveRoutes PreferLocalRoutes NativeConfigDisabled subnets ifn (mkNetHost n log) = Ret s ∧
  (∃ v', net_rel (nh_net s) v' ∧ v_incl v' = foldl dropRoute (v_incl v) (omap entryOf subnets)) ∧
  nh_log s = log ++ (RouteDel <$> (onLink i <$> omap subnetOf subnets)).
Proof.
  induction subnets as [|x l IH]; intros n v log Hos Hl Hr.
  { eexists. split; [done|]. split; [by eexists|by rewrite app_nil_r]. }
  destruct (remove_subnet_linux x ifn i n v log Hos Hl Hr) as ([n1 log1] & E1 & (v1 & Hr1 & Ev1) & El1).
  cbn [nh_net nh_log] in *. destruct (IH n1 v1 log1 Hos Hl Hr1) as (s2 & E2 & (v2 & Hr2 & Ev2) & El2).
  exists s2. cbn [RemoveRoutes]. rewrite E1. split; [exact E2|]. split.
  - exists v2. split; [done|]. rewrite Ev2, Ev1, <- foldl_app. f_equal. simpl. by destruct (entryOf x).
  - rewrite El2, El1, <- app_assoc. f_equal. simpl. by destruct (subnetOf x).
Qed.

End LinuxRoutes.

(** Dropping the address that was added last. *)
Lemma dropFirst_last (l : list (string * string)) a m :
  a ∉ l.*1 → dropFirst (λ p, bool_decide (p.1 = a)) (l ++ [(a, m)]) = l.
Proof.
  induction l as [|p l IH]; simpl; [by rewrite bool_decide_true|]. rewrite not_elem_of_cons. intros [Hp Hl].
  rewrite bool_decide_false by congruence. by rewrite IH.
Qed.

(** ** Interface names *)

Lemma utunNumber_itoa i : 0 <= i < 256 → utunNumber ("utun" +:+ itoa i) = Some i.
Proof.
  intros Hi. assert (Forall (λ j, utunNumber ("utun" +:+ itoa j) = Some j) (seqZ 0 256)) as Hall
    by (apply (bool_decide_unpack _); vm_compute; reflexivity).
  rewrite Forall_forall in Hall. apply Hall. apply elem_of_seqZ. lia.
Qed.

(** ** Properties *)

Section Properties.
Context `{Host} `{GrowSlice} (PreferLocalRoutes NativeConfigDisabled : bool).


(** Without an interface name, [AddRoutes] leaves the
    routing table alone, but [RemoveRoutes] asks the kernel to delete a route
    to every subnet with no link and no owner: one that it did not add. *)
Theorem remove_unowned (ops : list netOp) (n : net) (log : list osCall) (subnets : list string) :
  GOOS = "linux"%string → Forall op_ok ops → execOps ops initialNet = Ret n →
  ∃ s, RemoveRoutes PreferLocalRoutes NativeConfigDisabled subnets ""
         (AddRoutes PreferLocalRoutes NativeConfigDisabled subnets "" (mkNetHost n log)) = Ret s ∧
    nh_log s = log ++ (RouteDel <$> (onLink PreferLocalRoutes 0 <$> omap subnetOf subnets)).
Proof.
  intros Hos Ho E. destruct (rel_run ops initialNet initialView Ho rel_initial) as (n0 & E0 & Hr).
  rewrite E in E0. injection E0 as <-. set (v := foldl (flip specOp) initialView ops) in *.
  destruct (add_subnets_linux PreferLocalRoutes NativeConfigDisabled subnets "" 0 n v log Hos (or_introl eq_refl) Hr)
    as [(v1 & Hr1 & _) El1]. destruct (AddRoutes _ _ subnets "" (mkNetHost n log)) as [n1 log1]. cbn [nh_net nh_log] in *.
  destruct (remove_subnets_linux PreferLocalRoutes NativeConfigDisabled subnets "" 0 n1 v1 log1 Hos (or_introl (conj eq_refl eq_refl)) Hr1)
    as (s & Es & _ & El2). exists s. split; [done|]. by rewrite El2, El1.
Qed.

(** On Linux, where the system calls work, a secondary
    address that is removed again leaves the address list, and every mask with
    its address, as they were, and the interface is asked to drop exactly the
    address it was given; there must be a primary address, and the address must
    be new. *)
Theorem secondary_roundtrip (ops : list netOp) (n : net) (log : list osCall) (ifn addr : string) (i : Z) (c : cidr) :
  GOOS = "linux"%string → ifn ≠ ""%string → (∀ l, linkByName l ifn = Some i) → (∀ l x, callOk l x = true) →
  Forall op_ok ops → execOps ops initialNet = Ret n → ParseCIDR addr = Some c →
  let addresses m := (elems (nt_strs m) (ns_IPv4Addresses (GetSettings m)), elems (nt_strs m) (ns_IPv4SubnetMasks (GetSettings m))) in
  (addresses n).1 ≠ [] → IPString (ci_ip c) ∉ (addresses n).1 →
  ∃ s, AddSecondaryAddress NativeConfigDisabled ifn addr (mkNetHost n log) = (s, false) ∧
    addresses (nh_net s) = ((addresses n).1 ++ [IPString (ci_ip c)], (addresses n).2 ++ [maskString c]) ∧
    ∃ s', RemoveSecondaryAddress NativeConfigDisabled ifn addr s = Ret (s', false) ∧
      addresses (nh_net s') = addresses n ∧ nh_log s' = log ++ [AddrAdd i c; LinkSetUp i; AddrDel i c].
Proof.
  intros Hos Hifn Hl Hok Ho E Hc addresses Hne Hnew. destruct (rel_run ops initialNet initialView Ho rel_initial) as (n0 & E0 & Hr).
  rewrite E in E0. injection E0 as <-. set (v := foldl (flip specOp) initialView ops) in *.
  destruct (rel_addresses n v Hr) as (E1 & E2 & L1 & _). subst addresses. unfold GetSettings in *. cbn [fst] in *. rewrite E1 in Hne, Hnew.
  destruct (rel_add_address n v (IPString (ci_ip c)) (maskString c) Hr) as (n' & En & Hr'). injection En as En.
  assert ((AddIPv4Address (IPString (ci_ip c)) (maskString c) n).2 = false) as Eerr.
  { unfold AddIPv4Address. rewrite L1. destruct (v_addrs v) as [|p l]; [done|]. simpl. destruct (bool_decide _); [done|].
    destruct (appendOne _ _ _ _). by destruct (appendOne _ _ _ _). }
  unfold AddSecondaryAddress. rewrite Hc. cbn [nh_net nh_log]. destruct (AddIPv4Address _ _ n) as [n1 err]. simpl in En, Eerr. subst n1 err.
  unfold configureOS, configureLinux, call. rewrite bool_decide_false by done. rewrite Hos, Hl, Hok. simpl. rewrite Hok.
  eexists. split; [done|]. simpl in Hr'. rewrite !bool_decide_false in Hr' by (done || by intros E'; rewrite E' in Hne). simpl in Hr'.
  destruct (rel_addresses n' _ Hr') as (E1' & E2' & _). simpl in E1', E2'. simpl.
  split; [by rewrite E1', E2', E1, E2, !fmap_app|]. unfold RemoveSecondaryAddress. rewrite Hc. cbn [nh_net nh_log].
  destruct (rel_remove_address n' _ (IPString (ci_ip c)) Hr') as (n2 & En2 & Hr2). simpl in En2. rewrite En2. simpl.
  unfold unconfigureOS, removeLinuxAddress, call. rewrite bool_decide_false by done. rewrite Hos, Hl, Hok. simpl.
  eexists. split; [done|]. simpl. split; [|by rewrite <- !app_assoc].
  simpl in Hr2. rewrite bool_decide_true in Hr2 by (rewrite fmap_app; set_solver). rewrite dropFirst_last in Hr2 by done.
  destruct (rel_addresses n2 _ Hr2) as (-> & -> & _). simpl. by rewrite E1, E2.
Qed.

End Properties.

(** The name [FindUnusedUTUN] returns is that of no interface, it is the
    smallest, and there is one unless all 256 are used. *)
Lemma firstUnused_spec used fuel : ∀ i,
  match firstUnused used i fuel with
  | Some name => ∃ k, i <= k < i + Z.of_nat fuel ∧ name = ("utun" +:+ itoa k)%string ∧ (k ∉ used) ∧ ∀ j, i <= j < k → j ∈ used
  | None => ∀ j, i <= j < i + Z.of_nat fuel → j ∈ used
  end.
Proof.
  induction fuel as [|f IH]; intros i; simpl; [lia|]. destruct (bool_decide_reflect (i ∈ used)) as [Hi|Hi].
  - specialize (IH (i + 1)). destruct (firstUnused used (i + 1) f) as [name|].
    + destruct IH as (k & Hk & -> & Hu & Hj). exists k. split; [lia|]. split; [done|]. split; [done|].
      intros j Hj'. destruct (decide (j = i)) as [->|]; [done|]. apply Hj. lia.
    + intros j Hj. destruct (decide (j = i)) as [->|]; [done|]. apply IH. lia.
  - exists i. split; [lia|]. split; [done|]. split; [done|]. lia.
Qed.

(** A new tunnel interface gets the smallest number that no
    existing one has, so its name is not taken; without one of the 256 there is
    an error. *)
Theorem utun_unused (ifaces : list string) :
  match FindUnusedUTUN (Some ifaces) with
  | Some name => (name ∉ ifaces) ∧ ∃ k, 0 <= k < 256 ∧ name = ("utun" +:+ itoa k)%string ∧
                 ∀ j, 0 <= j < k → ∃ x, x ∈ ifaces ∧ utunNumber x = Some j
  | None => ∀ j, 0 <= j < 256 → ∃ x, x ∈ ifaces ∧ utunNumber x = Some j
  end.
Proof.
  change (FindUnusedUTUN (Some ifaces)) with (firstUnused (omap utunNumber ifaces) 0 256).
  pose proof (firstUnused_spec (omap utunNumber ifaces) 256 0) as Hs. destruct (firstUnused _ 0 256) as [name|].
  - destruct Hs as (k & Hk & -> & Hu & Hj). split.
    + intros Hin. apply Hu. apply list_elem_of_omap. eexists. split; [done|]. apply utunNumber_itoa. lia.
    + exists k. split; [lia|]. split; [done|]. intros j Hj'. apply list_elem_of_omap. by apply Hj.
  - intros j Hj. apply list_elem_of_omap. apply Hs. lia.
Qed.

Module RouteExamples.

(** A Linux host where every call works. *)
Definition linux : Host := {|
  GOOS := "linux"; linkByName := λ _ n, if bool_decide (n = "newt"%string) then Some 7 else None;
  luidByName := λ _ _, None; callOk := λ _ _, true; forwardTable := λ _ _, None |}.
#[local] Existing Instance linux.
#[local] Existing Instance SettingsExamples.doubling.

Definition subnets : list string := ["10.0.1.7/24"; " 10.0.2.0/24"; "nonsense"; ""; "10.0.1.0/24"]%string.

Example entries : omap entryOf subnets =
  [mkRoute4 "10.0.1.0" "255.255.255.0" "" false; mkRoute4 "10.0.2.0" "255.255.255.0" "" false;
   mkRoute4 "10.0.1.0" "255.255.255.0" "" false].
Proof. vm_compute. reflexivity. Qed.

(** An IPv6 subnet is recorded as an IPv4 route. *)
Example ipv6_entry : entryOf "fd00:1::5/64" = Some (mkRoute4 "fd00:1::" "ffff:ffff:ffff:ffff::" "" false).
Proof. vm_compute. reflexivity. Qed.


Lemma remove_unowned_witness :
  ∃ s, RemoveRoutes false false ["192.168.1.0/24"%string] "" (AddRoutes false false ["192.168.1.0/24"%string] "" (mkNetHost initialNet [])) = Ret s ∧
    nh_log s = [RouteDel (mkNlRoute (mkCidr (Addr4 3232235776) (Addr4 3232235776) 24) None 0 0)].
Proof.
  destruct (remove_unowned false false [] initialNet [] ["192.168.1.0/24"%string]) as (s & E & El); [done|constructor|done|].
  exists s. split; [done|]. rewrite El. vm_compute. reflexivity.
Defined.

Lemma secondary_roundtrip_witness :
  match execOps [OpIPv4 ["100.89.128.4"%string] ["255.255.255.255"%string] 1] initialNet with
  | Ret n => ∃ s, AddSecondaryAddress false "newt" "10.10.0.5/24" (mkNetHost n []) = (s, false) ∧
      elems (nt_strs (nh_net s)) (ns_IPv4SubnetMasks (GetSettings (nh_net s))) = ["255.255.255.255"%string; "255.255.255.0"%string]
  | Panic => False
  end.
Proof.
  destruct (execOps _ initialNet) as [n|] eqn:E; [|by vm_compute in E].
  destruct (secondary_roundtrip false [OpIPv4 ["100.89.128.4"%string] ["255.255.255.255"%string] 1] n [] "newt" "10.10.0.5/24" 7
    (mkCidr (Addr4 168427525) (Addr4 168427520) 24)) as (s & Es & Ea & _); try done; try (by vm_compute in E; injection E as <-).
  - by repeat constructor.
  - vm_compute in E. injection E as <-. apply (bool_decide_unpack _). vm_compute. reflexivity.
  - exists s. split; [done|]. injection Ea as _ ->. vm_compute in E. injection E as <-. vm_compute. reflexivity.
Defined.

Example utuns : FindUnusedUTUN (Some ["lo0"; "utun0"; "utun01"; "utun2"; "utun"; "utun3x"]%string) = Some "utun3"%string.
Proof. vm_compute. reflexivity. Qed.

End RouteExamples.
