(* ===== verification/LocalEndpoints.v ===== *)
(** * Local endpoints ([network/localendpoints.go])

    The addresses of the host's interfaces that a client may try directly,
    ranked by what the interface's name tells of it.  The name patterns are
    regular expressions made of letters, digits and anchors, without regard to
    case; the model has a matcher for that fragment. *)

From S2P Require Import Prelude Netip NetipText HostPort Keys Routes.
From Stdlib Require Import Ascii.

(** ** Patterns *)

(** A lower-case character or another sign, the same when it may be missing,
    [\d+] and [\d*]. *)
Inductive rxItem : Type := Lit (c : ascii) | Opt (c : ascii) | Digits1 | Digits0.

(** [^], the items, [$]. *)
Record rx : Type := mkRx { rx_start : bool; rx_items : list rxItem; rx_end : bool }.

(** The texts a letter stands for under [(?i)]: both cases and, as Unicode
    folds them, the Kelvin sign for k and the long s for s. *)
Definition foldings (c : ascii) : list (list ascii) :=
  [c] :: (if (97 <=? code c) && (code c <=? 122) then [[ch (code c - 32)]] else [])
      ++ (if code c =? 107 then [[ch 226; ch 132; ch 170]] else [])
      ++ (if code c =? 115 then [[ch 197; ch 191]] else []).

(** The rest after a letter. *)
Definition stripLit (c : ascii) (s : list ascii) : option (list ascii) :=
  for_return (λ v, trimPrefix v s) (foldings c).

(** After any number of digits. *)
Fixpoint digitsThen (k : list ascii → bool) (s : list ascii) : bool :=
  k s || match s with c :: s' => isDigit c && digitsThen k s' | [] => false end.

Fixpoint matchItems (items : list rxItem) (atEnd : bool) (s : list ascii) : bool :=
  match items with
  | [] => if atEnd then bool_decide (s = []) else true
  | Lit c :: r => match stripLit c s with Some s' => matchItems r atEnd s' | None => false end
  | Opt c :: r => match stripLit c s with Some s' => matchItems r atEnd s' | None => false end || matchItems r atEnd s
  | Digits1 :: r => match s with c :: s' => isDigit c && digitsThen (matchItems r atEnd) s' | [] => false end
  | Digits0 :: r => digitsThen (matchItems r atEnd) s
  end.

(** [MatchString] *)
Fixpoint anywhere (k : list ascii → bool) (s : list ascii) : bool :=
  k s || match s with _ :: s' => anywhere k s' | [] => false end.

Definition MatchString (p : rx) (name : string) : bool :=
  if rx_start p then matchItems (rx_items p) (rx_end p) (str name) else anywhere (matchItems (rx_items p) (rx_end p)) (str name).

Definition lits (s : string) : list rxItem := Lit <$> str s.

(** [^word$] with digits: [w\d+], [w\d*]; a word at the start; a word anywhere. *)
Definition numbered1 (s : string) : rx := mkRx true (lits s ++ [Digits1]) true.
Definition numbered0 (s : string) : rx := mkRx true (lits s ++ [Digits0]) true.
Definition prefixed (s : string) : rx := mkRx true (lits s) false.
Definition word (s : string) : rx := mkRx false (lits s) false.
Definition slotted (s : string) : rx := mkRx true (lits s ++ [Digits1] ++ lits "s" ++ [Digits1]) false.
Definition dashed (a b : string) : rx := mkRx false (lits a ++ [Opt "-"%char] ++ lits b) false.

Definition physicalInterfacePatterns : list rx :=
  [numbered1 "eth"; numbered1 "en"; numbered1 "eno"; numbered1 "ens"; slotted "enp"; numbered0 "wlan"; slotted "wlp"; numbered1 "wl";
   word "ethernet"; dashed "wi" "fi"; word "wireless"].

Definition virtualInterfacePatterns : list rx :=
  [word "docker"; word "podman"; prefixed "veth"; prefixed "virbr"; word "vmnet"; word "vboxnet"; word "virtualbox"; prefixed "vbox";
   word "vmware"; dashed "hyper" "v"; word "vethernet"; word "npcap"; numbered0 "tun"; numbered0 "tap"; numbered0 "wg";
   numbered0 "utun"; word "zerotier"; prefixed "zt"; word "tailscale"; numbered0 "ppp"; word "bridge"; prefixed "br-"; numbered1 "br";
   prefixed "cni"; word "flannel"; word "weave"; word "kube"; word "isatap"; word "teredo"; word "bluetooth"; numbered0 "awdl";
   numbered0 "llw"; word "p2p"].

Definition scorePhysical : Z := 0.
Definition scoreUnknown : Z := 10.
Definition scoreVirtual : Z := 20.

Definition interfaceScore (name : string) : Z :=
  if existsb (λ re, MatchString re name) physicalInterfacePatterns then scorePhysical
  else if existsb (λ re, MatchString re name) virtualInterfacePatterns then scoreVirtual
  else scoreUnknown.

(** ** Endpoints *)

(** An interface: its addresses are [None] when they cannot be read; an address
    of an unknown kind has no IP. *)
Record iface : Type := mkIface { if_Name : string; if_up : bool; if_loopback : bool; if_addrs : option (list (option Addr)) }.

Definition IsUnspecified (a : Addr) : bool :=
  match Unmap a with Addr4 ip => ip =? 0 | Addr6 ip _ => ip =? 0 | AddrInvalid => false end.
Definition IsLinkLocalUnicast (a : Addr) : bool :=
  match Unmap a with
  | Addr4 ip => Z.shiftr ip 16 =? 43518                     (* 169.254 *)
  | Addr6 ip _ => Z.shiftr ip 118 =? 1018                   (* fe80::/10 *)
  | AddrInvalid => false
  end.
Definition IsLinkLocalMulticast (a : Addr) : bool :=
  match Unmap a with
  | Addr4 ip => Z.shiftr ip 8 =? 14680064                   (* 224.0.0 *)
  | Addr6 ip _ => (Z.shiftr ip 120 =? 255) && (Z.land (Z.shiftr ip 112) 15 =? 2)
  | AddrInvalid => false
  end.

Definition usableAddr (o : option Addr) : option Addr :=
  a ← o;
  if IsLoopback a || IsUnspecified a then None
  else if IsLinkLocalUnicast a || IsLinkLocalMulticast a then None
  else Some a.

Record candidate : Type := mkCandidate { ca_score : Z; ca_ip : string }.

Definition skipped (excludeInterface : string) (i : iface) : bool :=
  negb (bool_decide (excludeInterface = "")) && bool_decide (if_Name i = excludeInterface) || negb (if_up i) || if_loopback i.

(** One turn of the loop over the interfaces. *)
Definition candidatesOf (excludeInterface : string) (i : iface) : list candidate :=
  if skipped excludeInterface i then []
  else match if_addrs i with
       | None => []
       | Some addrs => (λ a, mkCandidate (interfaceScore (if_Name i)) (IPString a)) <$> omap usableAddr addrs
       end.

(** [sort.SliceStable] by score. *)
Fixpoint insertCandidate (c : candidate) (l : list candidate) : list candidate :=
  match l with
  | [] => [c]
  | d :: l' => if ca_score d <? ca_score c then d :: insertCandidate c l' else c :: l
  end.
Definition sortStable (l : list candidate) : list candidate := foldr insertCandidate [] l.

(** [ifaces] is [None] when the interfaces cannot be listed. *)
Definition GetLocalEndpoints (port : Z) (excludeInterface : string) (ifaces : option (list iface)) : list string :=
  match ifaces with
  | None => []
  | Some l => (λ c, JoinHostPort (ca_ip c) (itoa port)) <$> sortStable (concat (candidatesOf excludeInterface <$> l))
  end.

(** ** Reference: one class of interfaces after the other *)

Definition classEndpoints (port : Z) (excludeInterface : string) (score : Z) (l : list iface) : list string :=
  concat ((λ i, (λ a, JoinHostPort (IPString a) (itoa port)) <$> omap usableAddr (default [] (if_addrs i)))
    <$> filter (λ i, skipped excludeInterface i = false ∧ interfaceScore (if_Name i) = score) l).

Lemma score_cases name : interfaceScore name = 0 ∨ interfaceScore name = 10 ∨ interfaceScore name = 20.
Proof. unfold interfaceScore. repeat case_match; auto. Qed.

Definition ofScore (s : Z) (l : list candidate) : list candidate := filter (λ c, ca_score c = s) l.

(** A stable sort by a score of three values. *)
Lemma insert_buckets c l :
  (ca_score c = 0 ∨ ca_score c = 10 ∨ ca_score c = 20) →
  insertCandidate c (ofScore 0 l ++ ofScore 10 l ++ ofScore 20 l) = ofScore 0 (c :: l) ++ ofScore 10 (c :: l) ++ ofScore 20 (c :: l).
Proof.
  intros Hc.
  assert (∀ s k t, s < ca_score c → insertCandidate c (ofScore s k ++ t) = ofScore s k ++ insertCandidate c t) as Hskip.
  { intros s k t Hs. induction k as [|d k IH]; [done|]. unfold ofScore in *. rewrite filter_cons.
    destruct (decide (ca_score d = s)) as [E|E]; [|done]. simpl. rewrite E, (proj2 (Z.ltb_lt _ _) Hs). by rewrite IH. }
  assert (∀ t, (∀ d, d ∈ t → ca_score c <= ca_score d) → insertCandidate c t = c :: t) as Hfront.
  { intros [|d t] Ht; [done|]. simpl. destruct (Z.ltb_spec (ca_score d) (ca_score c)); [|done].
    specialize (Ht d ltac:(set_solver)). lia. }
  assert (∀ s d k, d ∈ ofScore s k → ca_score d = s) as Hsc by (intros s d k [? _]%list_elem_of_filter; done).
  assert (∀ s, ofScore s (c :: l) = if decide (ca_score c = s) then c :: ofScore s l else ofScore s l) as Hcons
    by (intros s; unfold ofScore; rewrite filter_cons; by destruct (decide _)).
  rewrite !Hcons. destruct Hc as [E|[E|E]]; rewrite E in *; simpl.
  - apply Hfront. intros d Hd. rewrite !elem_of_app in Hd. destruct Hd as [H|[H|H]]; apply Hsc in H; lia.
  - rewrite Hskip by lia. f_equal. apply Hfront. intros d Hd. rewrite elem_of_app in Hd. destruct Hd as [H|H]; apply Hsc in H; lia.
  - rewrite !Hskip by lia. f_equal. f_equal. apply Hfront. intros d H. apply Hsc in H. lia.
Qed.

Lemma sort_buckets l :
  Forall (λ c, ca_score c = 0 ∨ ca_score c = 10 ∨ ca_score c = 20) l →
  sortStable l = ofScore 0 l ++ ofScore 10 l ++ ofScore 20 l.
Proof. induction 1 as [|c l Hc Hl IH]; [done|]. cbn [sortStable foldr]. fold (sortStable l). rewrite IH. by apply insert_buckets. Qed.

Lemma candidates_scores excl i : Forall (λ c, ca_score c = interfaceScore (if_Name i)) (candidatesOf excl i).
Proof.
  unfold candidatesOf. destruct (skipped excl i); [constructor|]. destruct (if_addrs i); [|constructor].
  apply Forall_fmap. apply Forall_true. done.
Qed.

(** The candidates of a score are those of the interfaces with the score. *)
Lemma class_candidates port excl s l :
  (λ c, JoinHostPort (ca_ip c) (itoa port)) <$> ofScore s (concat (candidatesOf excl <$> l)) = classEndpoints port excl s l.
Proof.
  unfold classEndpoints. induction l as [|i l IH]; [done|]. cbn [fmap list_fmap concat]. unfold ofScore in *.
  rewrite filter_app, fmap_app, IH. rewrite filter_cons. pose proof (candidates_scores excl i) as Hs.
  destruct (decide (interfaceScore (if_Name i) = s)) as [E|E].
  - rewrite list_filter_all by (intros c Hc; rewrite Forall_forall in Hs; rewrite Hs by done; done).
    unfold candidatesOf. destruct (skipped excl i) eqn:Ek.
    + rewrite decide_False by (intros [? _]; done). done.
    + rewrite decide_True by done. cbn [fmap list_fmap concat]. f_equal. destruct (if_addrs i); [|done]. simpl. by rewrite <- list_fmap_compose.
  - rewrite list_filter_none by (intros c Hc Hc'; rewrite Forall_forall in Hs; rewrite Hs in Hc' by done; done).
    rewrite decide_False by (intros [_ ?]; done). done.
Qed.

(** ** Patterns inside patterns *)

Lemma anywhere_here k s : k s = true → anywhere k s = true.
Proof. intros H. destruct s; simpl; by rewrite H. Qed.

Lemma anywhere_suffix k s t : anywhere k t = true → anywhere k (s ++ t) = true.
Proof. intros H. induction s as [|c s IH]; [done|]. simpl. by rewrite IH, orb_true_r. Qed.

Lemma stripLit_suffix c s t : stripLit c s = Some t → ∃ v, s = v ++ t.
Proof.
  unfold stripLit. induction (foldings c) as [|v l IH]; simpl; [done|].
  destruct (trimPrefix v s) eqn:E; [intros [= <-]; exists v; by apply trimPrefix_Some|done].
Qed.

(** A name that contains a word contains the word without its first letter. *)
Lemma word_tail c r s :
  anywhere (matchItems (Lit c :: r) false) s = true → anywhere (matchItems r false) s = true.
Proof.
  induction s as [|d s IH].
  - simpl. intros [H|?]%orb_true_iff; [|done]. destruct (stripLit c []) as [t|] eqn:E; [|done].
    apply stripLit_suffix in E as [v E]. symmetry in E. apply app_eq_nil in E as [_ ->]. by rewrite H.
  - intros H. cbn [anywhere] in H. apply orb_true_iff in H as [H|H].
    + cbn [matchItems] in H. destruct (stripLit c (d :: s)) as [t|] eqn:E; [|done].
      apply stripLit_suffix in E as [v ->]. apply anywhere_suffix. by apply anywhere_here.
    + cbn [anywhere]. by rewrite (IH H), orb_true_r.
Qed.

(** ** Properties *)

(** The local endpoints are exactly the usable addresses of
    the interfaces that are up, no loopback and not excluded, first those of
    the physical interfaces, then of the unknown, then of the virtual ones,
    each class in the order in which the host lists interfaces and addresses. *)
Theorem endpoints_ranked (port : Z) (excludeInterface : string) (ifaces : list iface) :
  GetLocalEndpoints port excludeInterface (Some ifaces) =
  classEndpoints port excludeInterface scorePhysical ifaces ++
  classEndpoints port excludeInterface scoreUnknown ifaces ++
  classEndpoints port excludeInterface scoreVirtual ifaces.
Proof.
  unfold GetLocalEndpoints. rewrite sort_buckets.
  - by rewrite !fmap_app, !class_candidates.
  - apply Forall_concat. apply Forall_fmap. apply Forall_true. intros i. simpl.
    eapply Forall_impl; [apply candidates_scores|]. intros c ->. apply score_cases.
Qed.

(** The virtual pattern vethernet never decides: a name that
    matches it also contains ethernet, which is looked at first, so that a
    Hyper-V switch is ranked as a physical interface. *)
Theorem vethernet_is_physical (name : string) :
  MatchString (word "vethernet") name = true → interfaceScore name = scorePhysical.
Proof.
  intros H. unfold interfaceScore.
  assert (MatchString (word "ethernet") name = true) as He by exact (word_tail "v"%char (lits "ethernet") (str name) H).
  rewrite (proj2 (existsb_exists _ _)); [done|]. exists (word "ethernet"). split; [|done]. simpl. tauto.
Qed.

Module EndpointExamples.

Example scores :
  interfaceScore <$> ["eth0"; "ETH12"; "enp3s0"; "enp3s0f1"; "wlan0"; "Wi-Fi"; "WiFi 2"; "Ethernet"; "docker0"; "br-12ab"; "br0"; "wg0";
                      "tailscale0"; "veth12"; "utun3"; "eth"; "bond0"; "wlan"]%string =
  [0; 0; 0; 0; 0; 0; 0; 0; 20; 20; 20; 20; 20; 20; 20; 10; 10; 0].
Proof. vm_compute. reflexivity. Qed.

Lemma vethernet_is_physical_witness :
  MatchString (word "vethernet") "vEthernet (Default Switch)" = true ∧ interfaceScore "vEthernet (Default Switch)" = 0.
Proof. split; [vm_compute; reflexivity|]. apply vethernet_is_physical. vm_compute. reflexivity. Defined.

Definition addr (s : string) : option Addr := ParseAddr s.

Example ranked :
  GetLocalEndpoints 51820 "newt"
    (Some [mkIface "lo" true true (Some [addr "127.0.0.1"]);
           mkIface "docker0" true false (Some [addr "172.17.0.1"; addr "fe80::1"]);
           mkIface "newt" true false (Some [addr "100.89.128.4"]);
           mkIface "bond0" true false (Some [addr "10.0.0.5"]);
           mkIface "down0" false false (Some [addr "10.9.0.5"]);
           mkIface "eth0" true false (Some [None; addr "192.168.1.20"; addr "::ffff:10.1.1.1"; addr "2001:db8::20"; addr "169.254.3.4"]);
           mkIface "eth1" true false None]) =
  ["192.168.1.20:51820"; "10.1.1.1:51820"; "[2001:db8::20]:51820"; "10.0.0.5:51820"; "172.17.0.1:51820"]%string.
Proof. vm_compute. reflexivity. Qed.

End EndpointExamples.
