(* ===== verification/ExitNode.v ===== *)
(** * Exit-node selection ([exitnode/exitnode.go])

    Before it registers, newt pings the exit nodes the server offers and
    reports one result per node.  [PingExitNodes] is translated whole; what
    the HTTP client returns is a parameter: the outcome of each attempt on a
    node's URL, a latency or the text of the error. *)

From S2P Require Import Prelude NetipText Keys.
From Stdlib Require Import Ascii.

(** [Weight] is a float64 that is only copied: its 64 bits. *)
Record ExitNode : Type := mkExitNode {
  en_ID : Z;
  en_Name : string;
  en_Endpoint : string;
  en_Weight : Z;
  en_Was : bool;   (* WasPreviouslyConnected *)
}.

Record ExitNodePingResult : Type := mkPingResult {
  pr_ID : Z;
  pr_LatencyMs : Z;
  pr_Weight : Z;
  pr_Error : string;
  pr_Name : string;
  pr_Endpoint : string;
  pr_Was : bool;
}.

#[global] Instance ExitNodePingResult_eq_dec : EqDecision ExitNodePingResult.
Proof. solve_decision. Defined.

(** ** The URL that is fetched *)

Definition HasPrefix (s p : list ascii) : bool := bool_decide (is_Some (trimPrefix p s)).
Definition HasSuffix (s p : list ascii) : bool := HasPrefix (rev s) (rev p).

Fixpoint trimLeftChar (c : ascii) (s : list ascii) : list ascii :=
  match s with
  | x :: s' => if Ascii.eqb x c then trimLeftChar c s' else s
  | [] => []
  end.
(** [strings.TrimRight(s, "/")] *)
Definition TrimRight (c : ascii) (s : list ascii) : list ascii := rev (trimLeftChar c (rev s)).

Definition pingURL (endpoint : string) : string :=
  let url := str endpoint in
  let url :=
    if negb (HasPrefix url (str "http://")) && negb (HasPrefix url (str "https://"))
    then str "http://" ++ url else url in
  let url :=
    if negb (HasSuffix url (str "/ping")) then TrimRight c_slash url ++ str "/ping" else url in
  unstr url.

Example pingURL_examples :
  pingURL "10.0.0.1:8080" = "http://10.0.0.1:8080/ping"%string ∧
  pingURL "https://a.example//" = "https://a.example/ping"%string ∧
  pingURL "http://a/ping" = "http://a/ping"%string.
Proof. vm_compute. auto. Qed.

(** ** Pinging one node *)

Definition pingAttempts : nat := 3.

(** [Milliseconds] of a duration, and the integer division of durations:
    both truncate toward zero. *)
Definition Milliseconds (d : Z) : Z := Z.quot d 1000000.

Section ping.
(** Outcome of attempt [j] on the URL: a latency, or the error's text. *)
Context (httpGet : string → nat → Z + string).

Record nodeResult : Type := mkNodeResult {
  nr_Node : ExitNode;
  nr_Latency : Z;
  nr_Err : option string;
}.

(** The loop over attempts: total latency, successes and the last error. *)
Definition pingStep (url : string) (acc : Z * Z * option string) (j : nat) : Z * Z * option string :=
  let '(total, successes, lastErr) := acc in
  match httpGet url j with
  | inr err => (total, successes, Some err)
  | inl latency => (swrap64 (total + latency), successes + 1, lastErr)
  end.

Definition pingNode (node : ExitNode) : nodeResult :=
  let url := pingURL (en_Endpoint node) in
  let '(total, successes, lastErr) := foldl (pingStep url) (0, 0, None) (seq 0 pingAttempts) in
  if successes =? 0 then mkNodeResult node 0 lastErr
  else mkNodeResult node (Z.quot total successes) None.

Definition toPingResult (res : nodeResult) : ExitNodePingResult :=
  let node := nr_Node res in
  mkPingResult (en_ID node) (Milliseconds (nr_Latency res)) (en_Weight node)
    (match nr_Err res with None => ""%string | Some e => e end) (en_Name node) (en_Endpoint node) (en_Was node).

(** The result of a node that is selected without pinging. *)
Definition directResult (node : ExitNode) : ExitNodePingResult :=
  mkPingResult (en_ID node) 0 (en_Weight node) "" (en_Name node) (en_Endpoint node) (en_Was node).

(** [previouslyConnectedNodeIdx]: the last node that carries the flag. *)
Definition lastPrevious (rs : list ExitNodePingResult) : option nat :=
  foldl (λ acc '(i, res), if pr_Was res then Some i else acc) None (imap (λ i r, (i, r)) rs).

Definition goodNode (idx : option nat) (p : nat * ExitNodePingResult) : bool :=
  negb (bool_decide (Some p.1 = idx)) && (0 <? pr_LatencyMs p.2) && bool_decide (pr_Error p.2 = "").

Definition excludePrevious (rs : list ExitNodePingResult) : list ExitNodePingResult :=
  let idx := lastPrevious rs in
  let indexed := imap (λ i r, (i, r)) rs in
  let goodNodeCount := length (filter (λ p, goodNode idx p) indexed) in
  if negb (bool_decide (idx = None)) && Nat.ltb 0 goodNodeCount
  then (filter (λ p, Some p.1 ≠ idx) indexed).*2
  else rs.

Definition PingExitNodes (exitNodes : list ExitNode) (preferEndpoint : string) (alreadyConnected : bool)
    : list ExitNodePingResult :=
  match exitNodes with
  | [] => []
  | first :: _ =>
      if Nat.eqb (length exitNodes) 1 || negb (bool_decide (preferEndpoint = "")) then
        let selected :=
          if bool_decide (preferEndpoint = "") then first
          else default first
                 (for_return (λ node, if bool_decide (en_Endpoint node = preferEndpoint) then Some node else None)
                    exitNodes) in
        [directResult selected]
      else
        let pingResults := toPingResult <$> (pingNode <$> exitNodes) in
        if alreadyConnected then excludePrevious pingResults else pingResults
  end.

End ping.

(** ** Lemmas *)

Lemma imap_pair_snd {A} (l : list A) : (imap (λ i x, (i, x)) l).*2 = l.
Proof. apply list_eq. intros i. rewrite list_lookup_fmap, list_lookup_imap. by destruct (l !! i). Qed.

Lemma imap_pair_elem {A} (l : list A) i x : (i, x) ∈ imap (λ i x, (i, x)) l ↔ l !! i = Some x.
Proof.
  rewrite list_elem_of_lookup. setoid_rewrite list_lookup_imap. split.
  - intros (j & Hj). apply fmap_Some in Hj as (y & Hy & ?). by simplify_eq.
  - intros Hx. exists i. by rewrite Hx.
Qed.

Lemma lastPrevious_spec rs :
  match lastPrevious rs with
  | None => ∀ r, r ∈ rs → pr_Was r = false
  | Some i => ∃ r, rs !! i = Some r ∧ pr_Was r = true ∧
      ∀ j r', (i < j)%nat → rs !! j = Some r' → pr_Was r' = false
  end.
Proof.
  unfold lastPrevious. induction rs as [|x rs IH] using rev_ind; simpl.
  - intros r ?%elem_of_nil. done.
  - rewrite imap_app, foldl_app. simpl. rewrite Nat.add_0_r. destruct (pr_Was x) eqn:Ex.
    + exists x. split; [apply list_lookup_middle; done|]. split; [done|].
      intros j r' Hj Hr'. apply lookup_lt_Some in Hr'. rewrite length_app in Hr'. simpl in Hr'. lia.
    + destruct (foldl _ None _) as [i|].
      * destruct IH as (r & Hr & Hw & Hlast). exists r. split; [by apply lookup_app_l_Some|]. split; [done|].
        intros j r' Hj Hr'. apply lookup_app_Some in Hr' as [Hr'|[_ Hr']]; [by eapply Hlast|].
        apply list_lookup_singleton_Some in Hr' as [_ <-]. done.
      * intros r [Hr| ->%list_elem_of_singleton]%elem_of_app; auto.
Qed.

(** The exclusion removes at most one result, keeps the order, and removes
    one only if another result is good. *)
Lemma excludePrevious_spec rs :
  excludePrevious rs = rs ∨
  ∃ l1 r l2 g, rs = l1 ++ r :: l2 ∧ excludePrevious rs = l1 ++ l2 ∧ pr_Was r = true ∧
    (∀ r', r' ∈ l2 → pr_Was r' = false) ∧ g ∈ l1 ++ l2 ∧ 0 < pr_LatencyMs g ∧ pr_Error g = "".
Proof.
  unfold excludePrevious. pose proof (lastPrevious_spec rs) as Hspec.
  destruct (lastPrevious rs) as [i|] eqn:Ei; [|by left]. cbn [bool_decide negb andb].
  destruct (Nat.ltb_spec 0 (length (filter (λ p, goodNode (Some i) p) (imap (λ i r, (i, r)) rs)))) as [Hc|_];
    [|left; by rewrite andb_false_r].
  destruct Hspec as (r & Hr & Hw & Hlast). right.
  destruct (list_elem_of_split_length rs i r Hr) as (l1 & l2 & -> & Hi).
  destruct (filter _ _) as [|[j g] gs] eqn:Eg; [simpl in Hc; lia|].
  assert ((j, g) ∈ filter (λ p, goodNode (Some i) p) (imap (λ i r, (i, r)) (l1 ++ r :: l2))) as Hg
    by (rewrite Eg; apply list_elem_of_here).
  apply list_elem_of_filter in Hg as [Hgood Hg%imap_pair_elem]. unfold goodNode in Hgood. simpl in Hgood.
  apply Is_true_true, andb_true_iff in Hgood as [[Hne%negb_true_iff%bool_decide_eq_false Hl%Z.ltb_lt]%andb_true_iff He%bool_decide_eq_true].
  assert ((filter (λ p : nat * ExitNodePingResult, Some p.1 ≠ Some i) (imap (λ i r, (i, r)) (l1 ++ r :: l2))).*2 = l1 ++ l2)
    as Hdrop.
  { rewrite imap_app, filter_app, fmap_app. f_equal.
    - rewrite list_filter_all; [apply imap_pair_snd|]. intros [k x] Hk%imap_pair_elem%lookup_lt_Some. simpl. intros [=]. lia.
    - cbn [imap]. rewrite filter_cons_False by (simpl; rewrite Nat.add_0_r; intros Hn; apply Hn; by subst).
      rewrite list_filter_all.
      + apply list_eq. intros k. rewrite list_lookup_fmap, list_lookup_imap. unfold compose. by destruct (l2 !! k).
      + intros [k x] Hk. apply list_elem_of_lookup in Hk as (q & Hq). rewrite list_lookup_imap in Hq.
        apply fmap_Some in Hq as (y & _ & ?). unfold compose in *. simplify_eq. simpl. intros [=]. lia. }
  exists l1, r, l2, g. rewrite Hdrop. split_and!; try done.
  - intros r' Hr'. apply list_elem_of_lookup in Hr' as (k & Hk). apply (Hlast (length l1 + S k)%nat); [lia|].
    rewrite lookup_app_r by lia. by replace (length l1 + S k - length l1)%nat with (S k) by lia.
  - apply lookup_app_Some in Hg as [Hg|[Hge Hg]].
    + apply elem_of_app. left. by eapply list_elem_of_lookup_2.
    + apply elem_of_app. right. destruct (j - length l1)%nat as [|k] eqn:Ek.
      * exfalso. apply Hne. f_equal. lia.
      * by eapply list_elem_of_lookup_2.
Qed.

(** The latencies of the successful attempts on a node, in order. *)
Definition answers (httpGet : string → nat → Z + string) (n : ExitNode) : list Z :=
  omap (λ j, match httpGet (pingURL (en_Endpoint n)) j with inl l => Some l | inr _ => None end)
    (seq 0 pingAttempts).

Lemma pingNode_answers httpGet n :
  nr_Node (pingNode httpGet n) = n ∧
  (answers httpGet n = [] → nr_Latency (pingNode httpGet n) = 0 ∧ is_Some (nr_Err (pingNode httpGet n))) ∧
  (answers httpGet n ≠ [] → nr_Err (pingNode httpGet n) = None ∧
     nr_Latency (pingNode httpGet n) =
       Z.quot (foldl (λ t l, swrap64 (t + l)) 0 (answers httpGet n)) (Z.of_nat (length (answers httpGet n)))).
Proof.
  unfold pingNode, answers, pingAttempts. cbn [seq foldl omap list_omap].
  unfold pingStep. destruct (httpGet _ 0%nat), (httpGet _ 1%nat), (httpGet _ 2%nat); naive_solver.
Qed.

Lemma toPingResult_fields httpGet n :
  pr_Was (toPingResult (pingNode httpGet n)) = en_Was n ∧
  pr_LatencyMs (toPingResult (pingNode httpGet n)) = Milliseconds (nr_Latency (pingNode httpGet n)).
Proof. destruct (pingNode_answers httpGet n) as (Hn & _). unfold toPingResult. simpl. by rewrite Hn. Qed.

Lemma Milliseconds_pos d : 0 < Milliseconds d → 1000000 <= d.
Proof.
  unfold Milliseconds. intros H. destruct (Z.lt_ge_cases d 1000000) as [Hlt|]; [|done]. exfalso.
  destruct (Z.lt_ge_cases d 0) as [Hn|Hn].
  - pose proof (Z.quot_opp_l d 1000000). pose proof (Z.quot_pos (- d) 1000000). lia.
  - rewrite Z.quot_small in H; lia.
Qed.

(** The preferred node if there is one, the first node otherwise. *)
Lemma prefer_selection (nodes : list ExitNode) first (prefer : string) :
  first ∈ nodes →
  let sel := default first
    (for_return (λ node, if bool_decide (en_Endpoint node = prefer) then Some node else None) nodes) in
  sel ∈ nodes ∧ ((∀ x, x ∈ nodes → en_Endpoint x ≠ prefer) → sel = first) ∧
  ((∃ x, x ∈ nodes ∧ en_Endpoint x = prefer) → en_Endpoint sel = prefer).
Proof.
  intros Hf. cbn zeta. destruct (for_return _ nodes) as [y|] eqn:E; simpl.
  - apply for_return_Some in E as (l1 & x & l2 & -> & Hx & _). case_bool_decide as He; simplify_eq.
    split_and!; [set_solver| |done]. intros Hall. exfalso. apply (Hall y); [set_solver|done].
  - split_and!; [done..|]. intros (x & Hx & He). eapply for_return_None in E; [|exact Hx].
    by rewrite bool_decide_true in E.
Qed.

Lemma PingExitNodes_eq httpGet nodes first prefer connected :
  nodes !! 0%nat = Some first →
  PingExitNodes httpGet nodes prefer connected =
  if Nat.eqb (length nodes) 1 || negb (bool_decide (prefer = "")) then
    [directResult (if bool_decide (prefer = "") then first
       else default first
         (for_return (λ node, if bool_decide (en_Endpoint node = prefer) then Some node else None) nodes))]
  else if connected then excludePrevious (toPingResult <$> (pingNode httpGet <$> nodes))
       else toPingResult <$> (pingNode httpGet <$> nodes).
Proof. destruct nodes; [done|]. intros [= ->]. done. Qed.

(** What PingExitNodes reports.  Nothing for no node; with a single node or
    any preference, the node of the preferred endpoint if there is one and the
    first node otherwise, without pinging; else one result per node in order,
    from which, on a reconnect, at most the last previously connected node is
    left out, and only when another node answered with an average latency of
    at least a millisecond.  A node's latency is the average of its successful
    attempts. *)
Theorem ping_selection httpGet nodes prefer connected :
  let rs := PingExitNodes httpGet nodes prefer connected in
  (rs = [] ↔ nodes = []) ∧
  (length nodes = 1%nat ∨ prefer ≠ "" → ∀ n, nodes !! 0%nat = Some n →
     ∃ sel, sel ∈ nodes ∧ rs = [directResult sel] ∧
       (prefer = "" ∨ (∀ x, x ∈ nodes → en_Endpoint x ≠ prefer) → sel = n) ∧
       (prefer ≠ "" → (∃ x, x ∈ nodes ∧ en_Endpoint x = prefer) → en_Endpoint sel = prefer)) ∧
  (length nodes ≠ 1%nat → prefer = "" →
     rs = toPingResult <$> (pingNode httpGet <$> nodes) ∨
     connected = true ∧ ∃ l1 out l2 g,
       nodes = l1 ++ out :: l2 ∧ rs = toPingResult <$> (pingNode httpGet <$> (l1 ++ l2)) ∧
       en_Was out = true ∧ (∀ x, x ∈ l2 → en_Was x = false) ∧
       g ∈ l1 ++ l2 ∧ 1000000 <= nr_Latency (pingNode httpGet g) ∧ answers httpGet g ≠ []).
Proof.
  cbn zeta. destruct nodes as [|first rest]; [split; [done|]; split; intros; [done|by left]|].
  remember (first :: rest) as nodes eqn:Hnodes.
  assert (nodes !! 0%nat = Some first) as H0 by by subst. assert (nodes ≠ []) as Hnn by by subst.
  assert (first ∈ nodes) as Hf by (subst; apply list_elem_of_here). clear Hnodes.
  rewrite (PingExitNodes_eq _ _ first) by done.
  pose proof (prefer_selection nodes first prefer Hf) as Hsel. cbn zeta in Hsel.
  destruct (Nat.eqb_spec (length nodes) 1) as [H1|H1]; [|destruct (decide (prefer = "")) as [->|Hp]].
  - cbn [orb]. split_and!; [done| |done]. intros _ n Hn. simplify_eq. case_bool_decide as Hp.
    + exists first. split_and!; done.
    + eexists. split; [apply Hsel|]. split; [done|]. split; [intros [?|?]; [done|by apply Hsel]|intros _; apply Hsel].
  - rewrite bool_decide_true by done. cbn [orb negb].
    pose proof (excludePrevious_spec (toPingResult <$> (pingNode httpGet <$> nodes))) as Hex.
    assert (toPingResult <$> (pingNode httpGet <$> nodes) ≠ []) as Hne by (by destruct nodes).
    split_and!; [| intros [?|?]; done|intros _ _].
    + split; [|done]. destruct connected; [|done]. destruct Hex as [->|(l1 & r & l2 & g & _ & -> & _ & _ & Hg & _)]; [done|].
      intros Hnil. rewrite Hnil in Hg. by apply elem_of_nil in Hg.
    + destruct connected; [|by left]. destruct Hex as [->|(l1 & r & l2 & g & Heq & Hout & Hw & Hl2 & Hg & Hlat & _)]; [by left|].
      right. split; [done|]. rewrite <- list_fmap_compose in Heq.
      apply fmap_app_inv in Heq as (k1 & k & -> & Hk & ->). symmetry in Hk.
      apply fmap_cons_inv in Hk as (o & k2 & -> & -> & ->). rewrite Hout. exists k1, o, k2.
      rewrite <- fmap_app in Hg. apply list_elem_of_fmap in Hg as (g' & -> & Hg').
      destruct (toPingResult_fields httpGet o) as [Hwo _], (toPingResult_fields httpGet g') as [_ Hmg].
      assert (1000000 <= nr_Latency (pingNode httpGet g')) as Hms by (apply Milliseconds_pos; rewrite <- Hmg; exact Hlat).
      exists g'. split_and!; [done| |by rewrite <- Hwo| |done|done|].
      * by rewrite <- list_fmap_compose, fmap_app.
      * intros x Hx. destruct (toPingResult_fields httpGet x) as [<- _]. apply Hl2. apply list_elem_of_fmap. by exists x.
      * intros Hnil. destruct (pingNode_answers httpGet g') as (_ & Hz & _). destruct (Hz Hnil). lia.
  - rewrite bool_decide_false by done. cbn [orb negb]. split_and!; [done| |by intros _ ->].
    intros _ n Hn. simplify_eq. eexists. split; [apply Hsel|]. split; [done|].
    split; [intros [?|?]; [done|by apply Hsel]|intros _; apply Hsel].
Qed.

Module ExitNodeExamples.

Definition node (i : Z) (e : string) (was : bool) : ExitNode := mkExitNode i "n" e 0 was.

(** a answers in 2 ms, b in 0.4 ms, c not at all. *)
Definition get (url : string) (j : nat) : Z + string :=
  if bool_decide (url = "http://a/ping"%string) then inl 2000000
  else if bool_decide (url = "http://b/ping"%string) then inl 400000 else inr "refused"%string.

(** A preference that names no offered node selects the first one unpinged. *)
Example prefer_unknown :
  PingExitNodes get [node 1 "c" false; node 2 "a" false] "z" false = [directResult (node 1 "c" false)].
Proof. by vm_compute. Qed.

(** On a reconnect the previous node is dropped when another one answers ... *)
Example drops_previous :
  pr_ID <$> PingExitNodes get [node 1 "c" true; node 2 "a" false] "" true = [2].
Proof. by vm_compute. Qed.

(** ... but not when that one answers within a millisecond. *)
Example keeps_previous_submillisecond :
  pr_ID <$> PingExitNodes get [node 1 "c" true; node 2 "b" false] "" true = [1; 2].
Proof. by vm_compute. Qed.

End ExitNodeExamples.
