(* ===== verification/HolePunch.v ===== *)
(** * The hole punch manager ([holepunch/holepunch.go])

    The manager keeps a table of exit nodes and a goroutine that sends each of
    them an encrypted packet, at intervals that double up to a maximum.  The
    goroutine reads the manager's channel fields anew each time it enters its
    [select]; the model keeps goroutines, channels and the manager's fields
    apart, so that calls may fall between any two of the goroutine's steps.

    DNS, the encryption of the payload and the socket write are
    parameters.  One round of packets is one step. *)

From S2P Require Import Prelude Netip NetipText HostPort Util.

Record ExitNode : Type := mkExitNode {
  hn_Endpoint : string;
  hn_RelayPort : Z;      (* uint16 *)
  hn_PublicKey : string;
  hn_SiteIds : list Z;
}.

Record Manager : Type := mkManager {
  hm_running : bool;
  hm_stopChan : option nat;
  hm_updateChan : option nat;
  hm_ID : string;
  hm_token : string;
  hm_publicKey : string;
  hm_clientType : string;
  hm_exitNodes : gmap string ExitNode;
  hm_publicDNS : list string;
  hm_interval : Z;
  hm_intervalMin : Z;
  hm_intervalMax : Z;
  hm_defaultMin : Z;
  hm_defaultMax : Z;
}.

Definition defaultIntervalMax : Z := 60 * Second.
Definition defaultIntervalMin : Z := 1 * Second.

Definition NewManager (ID clientType publicKey : string) (publicDNS : list string) : Manager :=
  mkManager false None None ID "" publicKey clientType ∅ publicDNS
    defaultIntervalMin defaultIntervalMin defaultIntervalMax defaultIntervalMin defaultIntervalMax.

Definition set_run (r : bool) (sc uc : option nat) (m : Manager) : Manager :=
  mkManager r sc uc (hm_ID m) (hm_token m) (hm_publicKey m) (hm_clientType m) (hm_exitNodes m) (hm_publicDNS m)
    (hm_interval m) (hm_intervalMin m) (hm_intervalMax m) (hm_defaultMin m) (hm_defaultMax m).
Definition set_nodes (ns : gmap string ExitNode) (m : Manager) : Manager :=
  mkManager (hm_running m) (hm_stopChan m) (hm_updateChan m) (hm_ID m) (hm_token m) (hm_publicKey m) (hm_clientType m)
    ns (hm_publicDNS m) (hm_interval m) (hm_intervalMin m) (hm_intervalMax m) (hm_defaultMin m) (hm_defaultMax m).
Definition set_token (t : string) (m : Manager) : Manager :=
  mkManager (hm_running m) (hm_stopChan m) (hm_updateChan m) (hm_ID m) t (hm_publicKey m) (hm_clientType m)
    (hm_exitNodes m) (hm_publicDNS m) (hm_interval m) (hm_intervalMin m) (hm_intervalMax m) (hm_defaultMin m) (hm_defaultMax m).
Definition set_dns (l : list string) (m : Manager) : Manager :=
  mkManager (hm_running m) (hm_stopChan m) (hm_updateChan m) (hm_ID m) (hm_token m) (hm_publicKey m) (hm_clientType m)
    (hm_exitNodes m) l (hm_interval m) (hm_intervalMin m) (hm_intervalMax m) (hm_defaultMin m) (hm_defaultMax m).
Definition set_intervals (cur mn mx : Z) (m : Manager) : Manager :=
  mkManager (hm_running m) (hm_stopChan m) (hm_updateChan m) (hm_ID m) (hm_token m) (hm_publicKey m) (hm_clientType m)
    (hm_exitNodes m) (hm_publicDNS m) cur mn mx (hm_defaultMin m) (hm_defaultMax m).

(** What is encrypted: the name of the identifier field depends on the client
    type. *)
Record Payload : Type := mkPayload { pl_field : string; pl_ID : string; pl_Token : string; pl_PublicKey : string }.

Inductive punchEvent : Type := Punched (addr : string) (payload : Payload) (serverKey : string).

(** A goroutine: started, between two selects, waiting on the channels it read
    when it entered the select, or returning. *)
Inductive gor : Type :=
  | GNew
  | GBusy (nodes : list (string * string)) (period : Z)
  | GWait (nodes : list (string * string)) (period : Z) (sc uc : option nat)
  | GExiting.

Record world : Type := mkWorld {
  w_m : Manager;
  w_closed : gset nat;          (* closed channels *)
  w_pending : gset nat;         (* update channels holding a signal *)
  w_next : nat;                 (* next channel or goroutine *)
  w_gs : gmap nat gor;
  w_sent : list punchEvent;
}.

Definition with_m (f : Manager → Manager) (w : world) : world :=
  mkWorld (f (w_m w)) (w_closed w) (w_pending w) (w_next w) (w_gs w) (w_sent w).
Definition with_g (g : nat) (s : gor) (w : world) : world :=
  mkWorld (w_m w) (w_closed w) (w_pending w) (w_next w) (<[g := s]> (w_gs w)) (w_sent w).

Section manager.
(** [udpAddr]: [net.ResolveUDPAddr]; [encrypts]: whether [encryptPayload] succeeds for a key; [writes]: whether
    the socket takes the packet. *)
Context `{!MapRange, !DNS} (udpAddr : string → option string)
  (encrypts : string → bool) (writes : string → bool).

(** ** Operations *)

(** The non-blocking send on the update channel, whose buffer holds one. *)
Definition signalUpdate (w : world) : world :=
  if hm_running (w_m w) then
    match hm_updateChan (w_m w) with
    | Some u => mkWorld (w_m w) (w_closed w) (w_pending w ∪ {[u]}) (w_next w) (w_gs w) (w_sent w)
    | None => w
    end
  else w.

Definition optset (o : option nat) : gset nat := match o with Some c => {[c]} | None => ∅ end.

Definition Stop (w : world) : world :=
  if negb (hm_running (w_m w)) then w
  else mkWorld (set_run false None None (w_m w))
         (w_closed w ∪ optset (hm_stopChan (w_m w)) ∪ optset (hm_updateChan (w_m w)))
         (w_pending w) (w_next w) (w_gs w) (w_sent w).

Definition AddExitNode (exitNode : ExitNode) (w : world) : world * bool :=
  match hm_exitNodes (w_m w) !! hn_Endpoint exitNode with
  | Some _ => (w, false)
  | None => (signalUpdate (with_m (set_nodes (<[hn_Endpoint exitNode := exitNode]> (hm_exitNodes (w_m w)))) w), true)
  end.

Definition RemoveExitNode (endpoint : string) (w : world) : world * bool :=
  match hm_exitNodes (w_m w) !! endpoint with
  | None => (w, false)
  | Some _ => (signalUpdate (with_m (set_nodes (delete endpoint (hm_exitNodes (w_m w)))) w), true)
  end.

(** One iteration of [RemoveExitNodesByPeer]. *)
Definition removePeerStep (peerID : Z) (acc : gmap string ExitNode * nat) (kv : string * ExitNode)
    : gmap string ExitNode * nat :=
  let '(nodes, removed) := acc in
  let '(endpoint, node) := kv in
  let newSiteIds := filter (λ id, id ≠ peerID) (hn_SiteIds node) in
  if Nat.eqb (length newSiteIds) (length (hn_SiteIds node)) then (nodes, removed)
  else if Nat.eqb (length newSiteIds) 0 then (delete endpoint nodes, S removed)
  else (<[endpoint := mkExitNode (hn_Endpoint node) (hn_RelayPort node) (hn_PublicKey node) newSiteIds]> nodes, removed).

Definition RemoveExitNodesByPeer (peerID : Z) (w : world) : world * nat :=
  let '(nodes, removed) :=
    foldl (removePeerStep peerID) (hm_exitNodes (w_m w), 0%nat) (range_map (hm_exitNodes (w_m w))) in
  let w' := with_m (set_nodes nodes) w in
  (if Nat.ltb 0 removed then signalUpdate w' else w', removed).

Definition GetExitNodes (m : Manager) : list ExitNode := (range_map (hm_exitNodes m)).*2.

Definition SetServerHolepunchInterval (mn mx : Z) (w : world) : world :=
  signalUpdate (with_m (set_intervals mn mn mx) w).

Definition ResetServerHolepunchInterval (w : world) : world :=
  signalUpdate (with_m (set_intervals (hm_defaultMin (w_m w)) (hm_defaultMin (w_m w)) (hm_defaultMax (w_m w))) w).

(** [sendHolePunch] *)
Definition sendHolePunch (m : Manager) (remoteAddr serverPubKey : string) : option punchEvent :=
  if bool_decide (serverPubKey = "") || bool_decide (hm_token m = "") then None
  else
    let field := if bool_decide (hm_clientType m = "newt") then "newtId"%string else "olmId"%string in
    if encrypts serverPubKey && writes remoteAddr
    then Some (Punched remoteAddr (mkPayload field (hm_ID m) (hm_token m) (hm_publicKey m)) serverPubKey)
    else None.

(** The address of one exit node. *)
Definition resolveNode (m : Manager) (n : ExitNode) : option string :=
  host ← resolveVia (hm_publicDNS m) (hn_Endpoint n);
  udpAddr (JoinHostPort host (itoa (hn_RelayPort n))).

(** [resolveNodes]: the nodes that resolve, with their keys. *)
Definition resolveNodes (m : Manager) : list (string * string) :=
  omap (λ n, (λ a, (a, hn_PublicKey n)) <$> resolveNode m n) (GetExitNodes m).

Definition sendAll (m : Manager) (nodes : list (string * string)) : list punchEvent :=
  omap (λ '(a, k), sendHolePunch m a k) nodes.

(** [TriggerHolePunch]; [false] is its error. *)
Definition TriggerHolePunch (w : world) : world * bool :=
  if Nat.eqb (size (hm_exitNodes (w_m w))) 0 then (w, false)
  else
    let sent := sendAll (w_m w) (resolveNodes (w_m w)) in
    (mkWorld (w_m w) (w_closed w) (w_pending w) (w_next w) (w_gs w) (w_sent w ++ sent), negb (Nat.eqb (length sent) 0)).

(** Two fresh channels and a goroutine. *)
Definition spawn (w : world) : world :=
  let sc := w_next w in
  mkWorld (set_run true (Some sc) (Some (S sc)) (w_m w)) (w_closed w) (w_pending w)
    (S (S (S sc))) (<[S (S sc) := GNew]> (w_gs w)) (w_sent w).

Definition StartMultipleExitNodes (exitNodes : list ExitNode) (w : world) : world * bool :=
  if hm_running (w_m w) then (w, false)
  else (spawn (with_m (set_nodes (foldl (λ ns n, <[hn_Endpoint n := n]> ns) ∅ exitNodes)) w), true).

Definition Start (w : world) : world * bool :=
  if hm_running (w_m w) then (w, false) else (spawn w, true).

(** ** The goroutine *)

Definition send_round (nodes : list (string * string)) (w : world) : world :=
  mkWorld (w_m w) (w_closed w) (w_pending w) (w_next w) (w_gs w) (w_sent w ++ sendAll (w_m w) nodes).

Definition resetInterval (m : Manager) : Manager :=
  set_intervals (hm_intervalMin m) (hm_intervalMin m) (hm_intervalMax m) m.

(** Doubling up to the maximum. *)
Definition nextInterval (m : Manager) : Z :=
  let newInterval := swrap64 (hm_interval m * 2) in
  if hm_intervalMax m <? newInterval then hm_intervalMax m else newInterval.

Definition backoff (m : Manager) : Manager :=
  set_intervals (nextInterval m) (hm_intervalMin m) (hm_intervalMax m) m.

Inductive action : Type :=
  | AStartMultiple (ns : list ExitNode) | AStart | AStop
  | AAdd (n : ExitNode) | ARemove (endpoint : string) | ARemovePeer (id : Z)
  | ASetInterval (mn mx : Z) | AResetInterval | ASetToken (t : string) | ASetDNS (l : list string) | ATrigger
  | GInit (g : nat)      (* resolve, first round, start the ticker *)
  | GSelect (g : nat)    (* evaluate the channel fields and block *)
  | GStop (g : nat) | GUpdate (g : nat) | GTick (g : nat)   (* what the select receives *)
  | GExit (g : nat).     (* the deferred function *)

Definition api (a : action) (w : world) : world :=
  match a with
  | AStartMultiple ns => (StartMultipleExitNodes ns w).1
  | AStart => (Start w).1
  | AStop => Stop w
  | AAdd n => (AddExitNode n w).1
  | ARemove e => (RemoveExitNode e w).1
  | ARemovePeer i => (RemoveExitNodesByPeer i w).1
  | ASetInterval mn mx => SetServerHolepunchInterval mn mx w
  | AResetInterval => ResetServerHolepunchInterval w
  | ASetToken t => with_m (set_token t) w
  | ASetDNS l => with_m (set_dns l) w
  | ATrigger => (TriggerHolePunch w).1
  | _ => w
  end.

(** A refresh: resolve, back to the minimum interval, send at once. *)
Definition refresh (g : nat) (w : world) : world :=
  let nodes := resolveNodes (w_m w) in
  let w1 := with_m resetInterval w in
  with_g g (GBusy nodes (hm_interval (w_m w1))) (send_round nodes w1).

(** The step of a goroutine, [None] when it cannot take it. *)
Definition gstep (a : action) (w : world) : option world :=
  match a with
  | GInit g =>
      match w_gs w !! g with
      | Some GNew => Some (refresh g w)
      | _ => None
      end
  | GSelect g =>
      match w_gs w !! g with
      | Some (GBusy nodes p) => Some (with_g g (GWait nodes p (hm_stopChan (w_m w)) (hm_updateChan (w_m w))) w)
      | _ => None
      end
  | GStop g =>
      match w_gs w !! g with
      | Some (GWait _ _ (Some sc) _) => if bool_decide (sc ∈ w_closed w) then Some (with_g g GExiting w) else None
      | _ => None
      end
  | GUpdate g =>
      match w_gs w !! g with
      | Some (GWait _ _ _ (Some uc)) =>
          if bool_decide (uc ∈ w_closed w) then Some (refresh g w)
          else if bool_decide (uc ∈ w_pending w) then
            Some (refresh g (mkWorld (w_m w) (w_closed w) (w_pending w ∖ {[uc]}) (w_next w) (w_gs w) (w_sent w)))
          else None
      | _ => None
      end
  | GTick g =>
      match w_gs w !! g with
      | Some (GWait nodes p _ _) =>
          if Nat.ltb 0 (length nodes) then
            let next := nextInterval (w_m w) in
            (* the ticker is reset only when the interval changes *)
            let p' := if next =? hm_interval (w_m w) then p else next in
            Some (with_g g (GBusy nodes p') (with_m backoff (send_round nodes w)))
          else Some (with_g g (GBusy nodes p) w)
      | _ => None
      end
  | GExit g =>
      match w_gs w !! g with
      | Some GExiting =>
          Some (mkWorld (set_run false (hm_stopChan (w_m w)) (hm_updateChan (w_m w)) (w_m w))
                  (w_closed w) (w_pending w) (w_next w) (delete g (w_gs w)) (w_sent w))
      | _ => None
      end
  | _ => Some (api a w)
  end.

(** [WireGuardService.StartHolepunch] of clients/clients.go: the manager's only
    caller in newt, once per connection to an exit node. *)
Definition StartHolepunch (publicKey endpoint : string) (relayPort : Z) (w : world) : world :=
  let relayPort := if relayPort =? 0 then 21820 else relayPort in
  (StartMultipleExitNodes [mkExitNode endpoint relayPort publicKey []] w).1.

Definition run (w : world) (as' : list action) : option world :=
  foldl (λ ow a, w ← ow; gstep a w) (Some w) as'.

Definition init (m : Manager) : world := mkWorld m ∅ ∅ 0 ∅ [].

End manager.

(** ** Lemmas *)

Section lemmas.
Context `{!MapRange, !DNS} (udpAddr : string → option string)
  (encrypts : string → bool) (writes : string → bool).
Notation step := (gstep udpAddr encrypts writes).
Notation runs := (run udpAddr encrypts writes).

Lemma runs_cons w a l : runs w (a :: l) = match step a w with Some w' => runs w' l | None => None end.
Proof.
  unfold run. simpl. destruct (step a w) as [w'|]; [done|]. induction l as [|b l IH]; [done|]. exact IH.
Qed.

(** Rule induction on runs: a property every enabled step preserves holds
    after every run. *)
Lemma runs_ind (ok : action → Prop) (P : world → Prop) :
  (∀ w a w', ok a → P w → step a w = Some w' → P w') →
  ∀ l w w', Forall ok l → P w → runs w l = Some w' → P w'.
Proof.
  intros Hstep l. induction l as [|a l IH]; intros w w' Hok HP.
  - by intros [= <-].
  - apply Forall_cons in Hok as [Ha Hl]. rewrite runs_cons. destruct (step a w) as [w1|] eqn:E; [|done]. eauto.
Qed.

(** A call is always enabled. *)
Definition is_call (a : action) : bool :=
  match a with GInit _ | GSelect _ | GStop _ | GUpdate _ | GTick _ | GExit _ => false | _ => true end.

Lemma step_call a w : is_call a = true → step a w = Some (api udpAddr encrypts writes a w).
Proof. by destruct a. Qed.

(** *** Intervals *)

Definition interval_ok (m : Manager) : Prop :=
  0 < hm_intervalMin m <= hm_interval m ∧ hm_interval m <= hm_intervalMax m < 2 ^ 62 ∧
  0 < hm_defaultMin m <= hm_defaultMax m ∧ hm_defaultMax m < 2 ^ 62.

Definition action_ok (a : action) : Prop :=
  match a with ASetInterval mn mx => 0 < mn <= mx ∧ mx < 2 ^ 62 | _ => True end.

Lemma nextInterval_min m : interval_ok m → nextInterval m = Z.min (hm_intervalMax m) (hm_interval m * 2).
Proof.
  intros (? & ? & _). unfold nextInterval. rewrite swrap64_id by lia. destruct (Z.ltb_spec (hm_intervalMax m) (hm_interval m * 2)); lia.
Qed.

(** Every operation keeps the manager's intervals, or sets them within bounds. *)
Lemma signalUpdate_m w : w_m (signalUpdate w) = w_m w.
Proof. unfold signalUpdate. by destruct (hm_running (w_m w)), (hm_updateChan (w_m w)). Qed.

Lemma api_intervals a w :
  action_ok a → interval_ok (w_m w) → interval_ok (w_m (api udpAddr encrypts writes a w)).
Proof.
  intros Ha Hi. destruct a; simpl; try done.
  - unfold StartMultipleExitNodes. by destruct (hm_running (w_m w)).
  - unfold Start. by destruct (hm_running (w_m w)).
  - unfold Stop. by destruct (hm_running (w_m w)).
  - unfold AddExitNode. destruct (hm_exitNodes (w_m w) !! _); [done|]. simpl. by rewrite signalUpdate_m.
  - unfold RemoveExitNode. destruct (hm_exitNodes (w_m w) !! _); [|done]. simpl. by rewrite signalUpdate_m.
  - unfold RemoveExitNodesByPeer. destruct (foldl _ _ _) as [ns r]. simpl. destruct (Nat.ltb 0 r); [by rewrite signalUpdate_m|done].
  - unfold SetServerHolepunchInterval. rewrite signalUpdate_m. simpl in *. destruct Hi as (_ & _ & Hd). repeat split; simpl; lia.
  - unfold ResetServerHolepunchInterval. rewrite signalUpdate_m. destruct Hi as (_ & _ & Hd). repeat split; simpl; lia.
  - unfold TriggerHolePunch. by destruct (Nat.eqb _ 0).
Qed.

Lemma step_intervals w a w' :
  action_ok a → interval_ok (w_m w) → step a w = Some w' → interval_ok (w_m w').
Proof.
  intros Ha Hi Hs. assert (interval_ok (resetInterval (w_m w))) as Hr.
  { destruct Hi as (? & ? & ?). repeat split; simpl; lia. }
  assert (interval_ok (backoff (w_m w))) as Hb.
  { pose proof (nextInterval_min _ Hi) as Hn. destruct Hi as (? & ? & ?). unfold backoff. rewrite Hn. repeat split; simpl; lia. }
  destruct (is_call a) eqn:Ec; [rewrite step_call in Hs by done; simplify_eq; by apply api_intervals|].
  destruct a as [| | | | | | | | | | |g|g|g|g|g|g]; try done; simpl in Hs; destruct (w_gs w !! g) as [[|nodes p|nodes p sc uc|]|]; try done.
  - by injection Hs as <-.
  - by injection Hs as <-.
  - destruct sc as [sc|]; [|done]. case_bool_decide; [|done]. by injection Hs as <-.
  - destruct uc as [uc|]; [|done]. case_bool_decide; [by injection Hs as <-|]. case_bool_decide; [|done].
    by injection Hs as <-.
  - destruct (Nat.ltb 0 (length nodes)); by injection Hs as <-.
  - by injection Hs as <-.
Qed.

(** *** What a stopped goroutine does *)

Definition not_start (a : action) : Prop :=
  match a with AStart | AStartMultiple _ => False | _ => True end.

(** No channels to read, and goroutine [g] between selects or waiting on nil
    channels. *)
Definition leaked (g : nat) (nodes : list (string * string)) (w : world) : Prop :=
  (hm_running (w_m w) = false ∧ hm_stopChan (w_m w) = None ∧ hm_updateChan (w_m w) = None) ∧
  ∃ p, w_gs w !! g = Some (GBusy nodes p) ∨ w_gs w !! g = Some (GWait nodes p None None).

Lemma signalUpdate_stopped w : hm_running (w_m w) = false → signalUpdate w = w.
Proof. intros Hr. unfold signalUpdate. by rewrite Hr. Qed.

Lemma api_leaked g nodes a w :
  not_start a → leaked g nodes w → leaked g nodes (api udpAddr encrypts writes a w).
Proof.
  intros Ha Hl. pose proof Hl as [(Hr & Hs & Hu) Hg]. destruct a; simpl; try done.
  - unfold Stop. by rewrite Hr.
  - unfold AddExitNode. destruct (hm_exitNodes (w_m w) !! _); [done|]. by rewrite signalUpdate_stopped.
  - unfold RemoveExitNode. destruct (hm_exitNodes (w_m w) !! _); [|done]. by rewrite signalUpdate_stopped.
  - unfold RemoveExitNodesByPeer. destruct (foldl _ _ _) as [ns r]. simpl.
    destruct (Nat.ltb 0 r); [by rewrite signalUpdate_stopped|done].
  - unfold SetServerHolepunchInterval. by rewrite signalUpdate_stopped.
  - unfold ResetServerHolepunchInterval. by rewrite signalUpdate_stopped.
  - unfold TriggerHolePunch. by destruct (Nat.eqb _ 0).
Qed.

(** Replacing another goroutine leaves [g] alone. *)
Lemma leaked_other g g' nodes s w w' :
  g' ≠ g → leaked g nodes w →
  (hm_running (w_m w'), hm_stopChan (w_m w'), hm_updateChan (w_m w')) =
  (hm_running (w_m w), hm_stopChan (w_m w), hm_updateChan (w_m w)) →
  w_gs w' = <[g' := s]> (w_gs w) → leaked g nodes w'.
Proof.
  intros Hne [(H1 & H2 & H3) (p & Hg)] [= E1 E2 E3] E4. split; [by rewrite E1, E2, E3|].
  exists p. by rewrite E4, lookup_insert_ne.
Qed.

Lemma step_leaked g nodes w a w' :
  not_start a → leaked g nodes w → step a w = Some w' → leaked g nodes w'.
Proof.
  intros Ha Hl Hs. pose proof Hl as [(Hr & Hsc & Huc) (p & Hg)].
  destruct (is_call a) eqn:Ec; [rewrite step_call in Hs by done; simplify_eq; by apply api_leaked|].
  destruct a as [| | | | | | | | | | |g'|g'|g'|g'|g'|g']; try done; simpl in Hs;
    (destruct (decide (g' = g)) as [->|Hne];
     [destruct Hg as [Hg|Hg]; rewrite Hg in Hs; try done
     |destruct (w_gs w !! g') as [[|ns q|ns q sc uc|]|]; try done]).
  - injection Hs as <-. by eapply leaked_other.
  - injection Hs as <-. split; [done|]. exists p. right. rewrite Hsc, Huc. apply lookup_insert_eq.
  - injection Hs as <-. by eapply leaked_other.
  - destruct sc as [sc|]; [|done]. case_bool_decide; [|done]. injection Hs as <-. by eapply leaked_other.
  - destruct uc as [uc|]; [|done]. case_bool_decide; [injection Hs as <-; by eapply leaked_other|].
    case_bool_decide; [|done]. injection Hs as <-. by eapply leaked_other.
  - destruct (Nat.ltb 0 (length nodes)); injection Hs as <-; (split; [done|]); eexists; left; apply lookup_insert_eq.
  - destruct (Nat.ltb 0 (length ns)); injection Hs as <-; by eapply leaked_other.
  - injection Hs as <-. split; [done|]. exists p. simpl. by rewrite lookup_delete_ne.
Qed.

(** *** Reconnection *)

(** Only the first exit node is known, to the table, to every goroutine and in
    everything sent; nothing has been stopped. *)
Definition gor_key (k : string) (s : gor) : Prop :=
  match s with
  | GNew => True
  | GBusy ns _ | GWait ns _ _ _ => Forall (λ p, p.2 = k) ns
  | GExiting => False
  end.

Definition only_node (n : ExitNode) (w : world) : Prop :=
  hm_running (w_m w) = true ∧ hm_exitNodes (w_m w) = {[hn_Endpoint n := n]} ∧ w_closed w = ∅ ∧
  (∀ g s, w_gs w !! g = Some s → gor_key (hn_PublicKey n) s) ∧
  Forall (λ '(Punched _ _ k), k = hn_PublicKey n) (w_sent w).

Lemma resolveNodes_key n m :
  hm_exitNodes m = {[hn_Endpoint n := n]} → Forall (λ p, p.2 = hn_PublicKey n) (resolveNodes udpAddr m).
Proof.
  intros Hm. apply Forall_forall. intros [a k] Hp. unfold resolveNodes, GetExitNodes in Hp.
  apply list_elem_of_omap in Hp as (x & Hx & Ha). apply list_elem_of_fmap in Hx as ([e y] & -> & Hy%range_map_elem).
  rewrite Hm in Hy. apply lookup_singleton_Some in Hy as [_ <-]. apply fmap_Some in Ha as (? & _ & [= _ ->]). done.
Qed.

Lemma sendAll_key k m ns :
  Forall (λ p, p.2 = k) ns → Forall (λ '(Punched _ _ k'), k' = k) (sendAll encrypts writes m ns).
Proof.
  intros Hns. apply Forall_forall. intros ev Hev. unfold sendAll in Hev.
  apply list_elem_of_omap in Hev as ([a k'] & Hin & Hs). rewrite Forall_forall in Hns. specialize (Hns _ Hin). simpl in Hns.
  unfold sendHolePunch in Hs. destruct (_ || _); [done|]. destruct (_ && _); [|done]. by simplify_eq.
Qed.

Lemma only_node_update n w g s f evs :
  only_node n w → gor_key (hn_PublicKey n) s →
  hm_running (f (w_m w)) = true → hm_exitNodes (f (w_m w)) = hm_exitNodes (w_m w) →
  Forall (λ '(Punched _ _ k), k = hn_PublicKey n) evs →
  only_node n (mkWorld (f (w_m w)) (w_closed w) (w_pending w) (w_next w) (<[g := s]> (w_gs w)) (w_sent w ++ evs)).
Proof.
  intros (Hr & Hn & Hc & Hg & He) Hs Hf1 Hf2 Hevs. repeat split; simpl; [done|by rewrite Hf2|done| |by apply Forall_app].
  intros g' s' [[<- <-]|[_ ?]]%lookup_insert_Some; eauto.
Qed.

Definition reconnecting (a : action) : Prop :=
  match a with
  | AStartMultiple _ | ATrigger | ASetToken _ | GInit _ | GSelect _ | GStop _ | GUpdate _ | GTick _ | GExit _ => True
  | _ => False
  end.

Lemma step_only_node n w a w' :
  reconnecting a → only_node n w → step a w = Some w' → only_node n w'.
Proof.
  intros Ha Hw Hs. pose proof Hw as (Hr & Hn & Hc & Hg & He). pose proof (resolveNodes_key n (w_m w) Hn) as Hres.
  pose proof (sendAll_key _ (w_m w) _ Hres) as Hsend.
  destruct a as [ns| | | | | | | |t| | |g|g|g|g|g|g]; try done; simpl in Hs;
    try (destruct (w_gs w !! g) as [[|nodes p|nodes p sc uc|]|] eqn:Eg; try done; pose proof (Hg _ _ Eg) as Hk).
  - unfold StartMultipleExitNodes in Hs. rewrite Hr in Hs. by injection Hs as <-.
  - by injection Hs as <-.
  - unfold TriggerHolePunch in Hs. destruct (Nat.eqb _ 0); injection Hs as <-; [done|].
    repeat split; simpl; [done..|]. by apply Forall_app.
  - injection Hs as <-. apply (only_node_update n w g _ resetInterval); done.
  - injection Hs as <-.
    pose proof (only_node_update n w g (GWait nodes p (hm_stopChan (w_m w)) (hm_updateChan (w_m w))) id []) as HH.
    rewrite app_nil_r in *. apply HH; done.
  - destruct sc as [sc|]; [|done]. rewrite Hc, bool_decide_false in Hs; [done|set_solver].
  - destruct uc as [uc|]; [|done]. rewrite Hc in Hs. rewrite bool_decide_false in Hs by set_solver.
    case_bool_decide; [|done]. injection Hs as <-.
    destruct (only_node_update n w g (GBusy (resolveNodes udpAddr (w_m w)) (hm_intervalMin (w_m w))) resetInterval
                (sendAll encrypts writes (w_m w) (resolveNodes udpAddr (w_m w)))) as (?&?&_&?&?); try done.
  - destruct (Nat.ltb 0 (length nodes)); injection Hs as <-.
    + apply (only_node_update n w g _ backoff); [done..|]. by apply sendAll_key.
    + pose proof (only_node_update n w g (GBusy nodes p) id []) as HH. rewrite app_nil_r in HH. apply HH; done.
  - done.
Qed.

(** *** Rounds of the ticker *)

Definition rounds (g n : nat) : list action := concat (replicate n [GTick g; GSelect g]).

Lemma step_tick g w nodes p sc uc :
  w_gs w !! g = Some (GWait nodes p sc uc) → nodes ≠ [] →
  ∃ w' p', runs w [GTick g; GSelect g] = Some w' ∧ w_m w' = backoff (w_m w) ∧
    w_gs w' !! g = Some (GWait nodes p' (hm_stopChan (w_m w)) (hm_updateChan (w_m w))) ∧
    w_sent w' = w_sent w ++ sendAll encrypts writes (w_m w) nodes.
Proof.
  intros Hg Hn. unfold run. simpl. rewrite Hg. destruct nodes as [|x nodes]; [done|]. simpl.
  rewrite lookup_insert_eq. eexists _, _. split; [done|]. split; [done|]. simpl. by rewrite lookup_insert_eq.
Qed.

Lemma runs_app w l k : runs w (l ++ k) = w' ← runs w l; runs w' k.
Proof.
  revert w. induction l as [|a l IH]; intros w; [done|]. simpl. rewrite !runs_cons. by destruct (step a w).
Qed.

(** ** Properties *)


(** Back-off.  While exit nodes are resolved and no refresh intervenes, the
    goroutine can always take its next rounds; each round sends to every node
    and after [n] rounds the interval is the initial one doubled [n] times,
    capped by the maximum, so it settles at the maximum after logarithmically
    many rounds. *)
Theorem backoff_rounds g w nodes p sc uc n :
  w_gs w !! g = Some (GWait nodes p sc uc) → nodes ≠ [] → interval_ok (w_m w) →
  ∃ w', runs w (rounds g n) = Some w' ∧
    hm_interval (w_m w') = Z.min (hm_intervalMax (w_m w)) (hm_interval (w_m w) * 2 ^ Z.of_nat n) ∧
    w_sent w' = w_sent w ++ concat (replicate n (sendAll encrypts writes (w_m w) nodes)) ∧
    (hm_intervalMax (w_m w) <= 2 ^ Z.of_nat n → hm_interval (w_m w') = hm_intervalMax (w_m w)).
Proof.
  intros Hg Hn Hi.
  assert (∃ w' p' sc' uc', runs w (rounds g n) = Some w' ∧ w_gs w' !! g = Some (GWait nodes p' sc' uc') ∧
    (∃ i, w_m w' = set_intervals i (hm_intervalMin (w_m w)) (hm_intervalMax (w_m w)) (w_m w) ∧
      i = Z.min (hm_intervalMax (w_m w)) (hm_interval (w_m w) * 2 ^ Z.of_nat n)) ∧ interval_ok (w_m w') ∧
    w_sent w' = w_sent w ++ concat (replicate n (sendAll encrypts writes (w_m w) nodes)))
    as (w' & ? & ? & ? & Hrun & _ & (i & Hm & Hival) & _ & Hsent).
  { clear - Hg Hn Hi. induction n as [|n IH].
    - exists w, p, sc, uc. split_and!; [done|done| |done|by rewrite app_nil_r].
      exists (hm_interval (w_m w)). destruct Hi as (? & ? & _). split; [by destruct (w_m w)|].
      rewrite Z.pow_0_r. lia.
    - destruct IH as (w' & p' & sc' & uc' & Hrun & Hg' & (i & Hm & Hival) & Hi' & Hsent).
      destruct (step_tick g w' nodes p' sc' uc' Hg' Hn) as (w2 & p2 & Hs & Hm2 & Hg2 & Hs2).
      eexists w2, p2, _, _. split_and!; [|done| | |].
      + unfold rounds. rewrite replicate_S_end, concat_app, runs_app. unfold rounds in Hrun. by rewrite Hrun.
      + eexists. split; [rewrite Hm2; unfold backoff; rewrite nextInterval_min by done; by rewrite Hm|]. simpl.
        destruct Hi as (? & ? & _). rewrite Nat2Z.inj_succ, Z.pow_succ_r by lia.
        pose proof (Z.pow_pos_nonneg 2 (Z.of_nat n)). nia.
      + rewrite Hm2. pose proof (nextInterval_min _ Hi') as Hnx. unfold backoff. rewrite Hnx.
        destruct Hi' as (? & ? & ?). repeat split; simpl; lia.
      + rewrite Hs2, Hsent, <- app_assoc, replicate_S_end, concat_app. simpl. rewrite app_nil_r. by rewrite Hm. }
  exists w'. rewrite Hm. simpl. rewrite Hival. split_and!; [done|done|done|]. intros Hpow. destruct Hi as (? & ? & _). nia.
Qed.

(** Stop only reaches a goroutine that is blocked in its select.  A
    goroutine waiting on the stop channel ends; one that is between selects
    (sending, or resolving names) reads nil channels afterwards and never ends:
    whatever is called later short of a new start, it is still there, and it
    sends the next round to every node it knew. *)
Theorem stop_misses_busy g w nodes p :
  hm_running (w_m w) = true →
  (∀ sc uc, hm_stopChan (w_m w) = Some sc → w_gs w !! g = Some (GWait nodes p (Some sc) uc) →
     ∃ w', runs (Stop w) [GStop g; GExit g] = Some w' ∧ w_gs w' !! g = None) ∧
  (w_gs w !! g = Some (GBusy nodes p) → ∀ acts w', Forall not_start acts → runs (Stop w) acts = Some w' →
     nodes ≠ [] → ∃ w'' l, l ⊆ [GSelect g; GTick g] ∧ runs w' l = Some w'' ∧
       w_sent w'' = w_sent w' ++ sendAll encrypts writes (w_m w') nodes).
Proof.
  intros Hr. split.
  - intros sc uc Hsc Hg. rewrite runs_cons. unfold Stop. rewrite Hr, Hsc. simpl. rewrite Hg.
    rewrite bool_decide_true by set_solver. unfold run. simpl. rewrite lookup_insert_eq. eexists. split; [done|].
    simpl. by rewrite lookup_delete_eq.
  - intros Hg acts w' Hns Hrun Hn. assert (leaked g nodes w') as [_ (q & Hq)].
    { eapply (runs_ind not_start (leaked g nodes)); [intros ???; apply step_leaked|exact Hns| |exact Hrun].
      unfold Stop. rewrite Hr. split; [done|]. exists p. by left. }
    destruct nodes as [|x nodes]; [done|]. destruct Hq as [Hq|Hq].
    + exists (default w' (runs w' [GSelect g; GTick g])), [GSelect g; GTick g]. split; [done|].
      unfold run. simpl. rewrite Hq. simpl. rewrite lookup_insert_eq. done.
    + exists (default w' (runs w' [GTick g])), [GTick g]. split; [set_solver|]. unfold run. simpl. by rewrite Hq.
Qed.

(** A reconnect does not move hole punching to the new exit node.  After
    StartHolepunch for the first exit node, further StartHolepunch calls for
    other nodes are ignored because the manager runs: in every continuation the
    table holds the first node only and every packet sent is for its key. *)
Theorem reconnect_keeps_old_node m pk ep port acts w :
  hm_running m = false → Forall reconnecting acts →
  runs (StartHolepunch pk ep port (init m)) acts = Some w →
  dom (hm_exitNodes (w_m w)) = {[ep]} ∧ Forall (λ '(Punched _ _ k), k = pk) (w_sent w) ∧
  ∀ pk2 ep2 port2, StartHolepunch pk2 ep2 port2 w = w.
Proof.
  intros Hm Ha Hrun. set (n := mkExitNode ep (if port =? 0 then 21820 else port) pk []).
  assert (only_node n w) as (Hr & Hn & _ & _ & He).
  { eapply (runs_ind reconnecting (only_node n)); [intros ???; apply step_only_node|exact Ha| |exact Hrun].
    unfold StartHolepunch, StartMultipleExitNodes. simpl. rewrite Hm. split_and!; simpl; [done|apply insert_empty|done| |constructor].
    intros g s [[_ <-]|[_ Hs]]%lookup_insert_Some; [done|by rewrite lookup_empty in Hs]. }
  split_and!; [rewrite Hn; apply dom_singleton_L|exact He|]. intros. unfold StartHolepunch, StartMultipleExitNodes. by rewrite Hr.
Qed.

(** An endpoint without a port that resolves is punched at an
    address with the relay port of its exit node. *)
Theorem punch_target `{!DNSLaws} (m : Manager) (n : ExitNode) (host : string) :
  hostAndPort (cleanDomain (hn_Endpoint n)) = (host, ""%string) → 0 <= hn_RelayPort n →
  is_Some (resolveVia (hm_publicDNS m) (hn_Endpoint n)) →
  ∃ ip text, zoneless ip = true ∧ resolveNode udpAddr m n = udpAddr text ∧
    SplitHostPort text = Some (ipString ip, itoa (hn_RelayPort n)).
Proof.
  intros Hd Hp [r Hr]. unfold resolveNode. rewrite Hr. simpl. rewrite resolveVia_upstream in Hr.
  destruct (resolved_text _ _ _ _ _ Hd Hr) as (ip & Hz & [-> _] & _).
  exists ip, (JoinHostPort (ipString ip) (itoa (hn_RelayPort n))). split; [done|]. split; [done|].
  apply SplitHostPort_Join; [by apply ipString_text|by apply itoa_plain].
Qed.

End lemmas.

(** ** Witnesses *)

Module HolePunchExamples.

#[local] Instance order : MapRange := canonical_range.

Definition dns : DNS := {|
  lookupIP := λ h, if bool_decide (h = "a.example"%string) then Some [Addr4 167772161]
                   else if bool_decide (h = "b.example"%string) then Some [Addr4 167772162] else None;
  lookupVia := λ _ _, None |}.
#[local] Existing Instance dns.
Definition addr (s : string) : option string := Some s.
Definition yes (_ : string) : bool := true.
Notation go_run := (run addr yes yes).

Definition m0 : Manager := set_token "tok" (NewManager "site" "newt" "pub" []).
Definition n1 : ExitNode := mkExitNode "a.example" 21820 "K1" [1; 2].
Definition n2 : ExitNode := mkExitNode "b.example" 21820 "K2" [2].

(** The goroutine of the first start is number 2. *)
Definition boot : list action := [AStartMultiple [n1; n2]; GInit 2; GSelect 2].
Definition w1 : world := default (init m0) (go_run (init m0) boot).

Example boot_sends : length (w_sent w1) = 2%nat ∧ hm_interval (w_m w1) = Second.
Proof. by vm_compute. Qed.

(** Removing peer 2 keeps node 1 and drops node 2. *)
Example remove_peer :
  (RemoveExitNodesByPeer 2 w1).2 = 1%nat ∧
  map_to_list (hm_exitNodes (w_m (RemoveExitNodesByPeer 2 w1).1)) = [("a.example"%string, mkExitNode "a.example" 21820 "K1" [1])].
Proof. by vm_compute. Qed.

(** Stop and a new start before the old goroutine has returned: its deferred
    function marks the manager as stopped, so a second Stop does nothing and
    a third start runs a second goroutine. *)
Example restart_race :
  (λ w, (hm_running (w_m w), dom (w_gs w))) <$>
    go_run w1 [AStop; GStop 2; AStart; GExit 2; GInit 5; GSelect 5; AStop; AStart; GInit 8; GSelect 8]
  = Some (true, {[5%nat; 8%nat]}).
Proof. by vm_compute. Qed.

Definition acts1 : list action := [ASetToken "tok"; ASetInterval 5 12; AStartMultiple [n1]; GInit 2; GSelect 2; GTick 2; GSelect 2; GTick 2].
Definition wi : world := default (init m0) (go_run (init (NewManager "site" "newt" "pub" [])) acts1).


Lemma backoff_rounds_witness :
  ∃ w', go_run w1 (rounds 2 6) = Some w' ∧
    hm_interval (w_m w') = Z.min (hm_intervalMax (w_m w1)) (hm_interval (w_m w1) * 2 ^ Z.of_nat 6) ∧
    w_sent w' = w_sent w1 ++ concat (replicate 6 (sendAll yes yes (w_m w1) [("10.0.0.1:21820", "K1"); ("10.0.0.2:21820", "K2")]%string)) ∧
    (hm_intervalMax (w_m w1) <= 2 ^ Z.of_nat 6 → hm_interval (w_m w') = hm_intervalMax (w_m w1)).
Proof.
  apply (backoff_rounds addr yes yes 2 w1 [("10.0.0.1:21820", "K1"); ("10.0.0.2:21820", "K2")]%string Second (Some 0%nat) (Some 1%nat) 6);
    [by vm_compute|done|]. vm_compute. repeat split; congruence.
Defined.

(** Stop while the goroutine is between two selects. *)
Definition wb : world := default (init m0) (go_run w1 [GTick 2]).

Lemma stop_misses_busy_witness :
  (∀ sc uc, hm_stopChan (w_m wb) = Some sc → w_gs wb !! 2%nat = Some (GWait [("10.0.0.1:21820", "K1"); ("10.0.0.2:21820", "K2")]%string (2 * Second) (Some sc) uc) →
     ∃ w', go_run (Stop wb) [GStop 2; GExit 2] = Some w' ∧ w_gs w' !! 2%nat = None) ∧
  (w_gs wb !! 2%nat = Some (GBusy [("10.0.0.1:21820", "K1"); ("10.0.0.2:21820", "K2")]%string (2 * Second)) →
   ∀ acts w', Forall not_start acts → go_run (Stop wb) acts = Some w' → [("10.0.0.1:21820", "K1"); ("10.0.0.2:21820", "K2")]%string ≠ [] →
     ∃ w'' l, l ⊆ [GSelect 2; GTick 2] ∧ go_run w' l = Some w'' ∧
       w_sent w'' = w_sent w' ++ sendAll yes yes (w_m w') [("10.0.0.1:21820", "K1"); ("10.0.0.2:21820", "K2")]%string).
Proof. apply (stop_misses_busy addr yes yes 2 wb). by vm_compute. Defined.

(** The second case of the witness is not vacuous. *)
Example busy_when_stopped : w_gs wb !! 2%nat = Some (GBusy [("10.0.0.1:21820", "K1"); ("10.0.0.2:21820", "K2")]%string (2 * Second)).
Proof. by vm_compute. Qed.

Definition acts2 : list action := [GInit 2; GSelect 2; AStartMultiple [n2]; GTick 2; GSelect 2].
Definition wr : world := default (init m0) (go_run (StartHolepunch "K1" "a.example" 0 (init m0)) acts2).

Lemma reconnect_keeps_old_node_witness :
  dom (hm_exitNodes (w_m wr)) = {["a.example"%string]} ∧ Forall (λ '(Punched _ _ k), k = "K1"%string) (w_sent wr) ∧
  ∀ pk2 ep2 port2, StartHolepunch pk2 ep2 port2 wr = wr.
Proof.
  apply (reconnect_keeps_old_node addr yes yes m0 "K1" "a.example" 0 acts2 wr);
    [done|repeat constructor|by vm_compute].
Defined.

#[local] Instance dns_laws : @DNSLaws dns.
Proof.
  split; intros *; cbn [lookupIP lookupVia dns]; [|done].
  repeat case_bool_decide; [| |done]; intros E; injection E as <-; repeat constructor.
Qed.

Lemma punch_target_witness :
  ∃ ip text, zoneless ip = true ∧ resolveNode addr m0 n1 = addr text ∧ SplitHostPort text = Some (ipString ip, "21820"%string).
Proof.
  apply (punch_target addr m0 n1 "a.example"); [vm_compute; reflexivity|vm_compute; congruence|].
  eexists. vm_compute. reflexivity.
Defined.

End HolePunchExamples.
