(* ===== verification/Probe.v ===== *)
(** * Connectivity probes ([holepunch/tester.go])

    [HolepunchTester] sends a test packet with eight random bytes through the
    shared socket and waits for the packet that echoes them.  Several
    goroutines meet here: callers of [TestEndpoint], the receive loop that
    calls [handleResponse], and [Stop].  They are modelled as actions on one
    world, each an interval in which the code holds what it needs: the parts of
    [TestEndpoint] before, between and after its accesses to the map, the two
    halves of [handleResponse], and every turn of the loop in [Stop].  DNS is
    the class of Util.v, [net.ResolveUDPAddr] a parameter. *)

From S2P Require Import Prelude Netip NetipText HostPort Util SharedBind.

(** ** State *)

Inductive replyChan : Type := ChanEmpty | ChanReply (rtt : Z) | ChanClosed.

(** The request, with its channel and the key it is stored under. *)
Record pendingRequest : Type := mkPending { pr_endpoint : string; pr_sentAt : Z; pr_replyChan : replyChan; pr_key : list Z }.

Inductive testError : Type :=
  | ErrNotRunning | ErrBind | ErrResolve | ErrRandom | ErrSend | ErrCancelled | ErrTimeout | ErrNoConn.

Record TestResult : Type := mkResult { tr_Success : bool; tr_RTT : Z; tr_Endpoint : string; tr_Error : option testError }.

Record TestConnectionOptions : Type := mkOptions { op_Timeout : Z; op_Retries : Z }.

Definition DefaultTestOptions : TestConnectionOptions := mkOptions (5 * Second) 0.

(** [stopChan] has no reader and is left out. *)
Record HolepunchTester : Type := mkTester {
  ht_sharedBind : option SharedBind;
  ht_publicDNS : list string;
  ht_running : bool;
  ht_pendingRequests : gmap (list Z) nat;
  ht_callback : bool;
  ht_addrCache : gmap string (AddrPort * Z) }.

Definition addrCacheTTL : Z := 5 * Minute.

Definition NewHolepunchTester (sharedBind : option SharedBind) (publicDNS : list string) : HolepunchTester :=
  mkTester sharedBind publicDNS false ∅ false ∅.

Definition set_bind (b : option SharedBind) (t : HolepunchTester) : HolepunchTester :=
  mkTester b (ht_publicDNS t) (ht_running t) (ht_pendingRequests t) (ht_callback t) (ht_addrCache t).
Definition set_running (r : bool) (t : HolepunchTester) : HolepunchTester :=
  mkTester (ht_sharedBind t) (ht_publicDNS t) r (ht_pendingRequests t) (ht_callback t) (ht_addrCache t).
Definition set_pending (p : gmap (list Z) nat) (t : HolepunchTester) : HolepunchTester :=
  mkTester (ht_sharedBind t) (ht_publicDNS t) (ht_running t) p (ht_callback t) (ht_addrCache t).
Definition set_cache (c : gmap string (AddrPort * Z)) (t : HolepunchTester) : HolepunchTester :=
  mkTester (ht_sharedBind t) (ht_publicDNS t) (ht_running t) (ht_pendingRequests t) (ht_callback t) c.

Definition SetPublicDNS (servers : list string) (t : HolepunchTester) : HolepunchTester :=
  mkTester (ht_sharedBind t) servers (ht_running t) (ht_pendingRequests t) (ht_callback t) ∅.

Definition SetCallback (v : bool) (t : HolepunchTester) : HolepunchTester :=
  mkTester (ht_sharedBind t) (ht_publicDNS t) (ht_running t) (ht_pendingRequests t) v (ht_addrCache t).

Definition InvalidateCache (endpoint : string) (t : HolepunchTester) : HolepunchTester :=
  set_cache (delete endpoint (ht_addrCache t)) t.

Definition ClearCache (t : HolepunchTester) : HolepunchTester := set_cache ∅ t.

(** [false] is an error. *)
Definition Start (t : HolepunchTester) : HolepunchTester * bool :=
  if ht_running t then (t, false)
  else match ht_sharedBind t with
       | None => (t, false)
       | Some b => (set_bind (Some (SetMagicResponseCallback true b)) (set_running true t), true)
       end.

(** The test packet. *)
Definition testRequest (randomData : list Z) : list Z := MagicTestRequest ++ randomData.

Section Tester.
Context `{DNS} (udpAddr : string → option AddrPort).

(** The text that is given to [net.ResolveUDPAddr]. *)
Definition endpointHost (publicDNS : list string) (endpoint : string) : string :=
  let host := default endpoint (resolveVia publicDNS endpoint) in
  match SplitHostPort host with Some _ => host | None => JoinHostPort host "21820" end.

Definition resolveEndpoint (now : Z) (endpoint : string) (t : HolepunchTester) : HolepunchTester * option AddrPort :=
  let fresh :=
    match udpAddr (endpointHost (ht_publicDNS t) endpoint) with
    | None => (t, None)
    | Some a => (set_cache (<[endpoint := (a, now)]> (ht_addrCache t)) t, Some a)
    end in
  match ht_addrCache t !! endpoint with
  | Some (a, at_) => if now - at_ <? addrCacheTTL then (t, Some a) else fresh
  | None => fresh
  end.

(** ** [TestConnectionWithBind] *)

(** The loop: [writes i] is the outcome of the [i]-th send and the time it
    took.  The packets that were handed over are counted. *)
Fixpoint attemptLoop (writes : nat → bindErr * Z) (send : bindErr → bindErr) (left attempt : nat) (result : TestResult) : TestResult * nat :=
  match left with
  | O => (result, attempt)
  | S left' =>
      match send (writes attempt).1 with
      | NoError => (mkResult true (writes attempt).2 (tr_Endpoint result) None, S attempt)
      | _ =>
          let result' := mkResult (tr_Success result) (tr_RTT result) (tr_Endpoint result) (Some ErrSend) in
          match left' with O => (result', S attempt) | S _ => attemptLoop writes send left' (S attempt) result' end
      end
  end.

Definition TestConnectionWithBind (sharedBind : option SharedBind) (endpoint : string) (opts : option TestConnectionOptions)
    (random : option (list Z)) (writes : nat → bindErr * Z) : TestResult * nat :=
  let o := default DefaultTestOptions opts in
  let fail e := (mkResult false 0 endpoint (Some e), 0%nat) in
  match sharedBind with
  | None => fail ErrBind
  | Some b =>
      if closed b then fail ErrBind
      else
        match udpAddr (endpointHost [] endpoint), random with
        | None, _ => fail ErrResolve
        | Some _, None => fail ErrRandom
        | Some a, Some data =>
            match udpConn b with
            | None => fail ErrNoConn
            | Some _ =>
                attemptLoop writes (λ io, (WriteToUDP b (testRequest data) a io).2) (Z.to_nat (op_Retries o + 1)) 0
                  (mkResult false 0 endpoint None)
            end
        end
  end.

(** ** Goroutines *)

(** A caller of [TestEndpoint]: past the check of [running]; with its request
    stored; waiting in the [select]; returned. *)
Inductive testState : Type :=
  | TChecked (endpoint : string)
  | TStored (req : nat) (dst : AddrPort)
  | TWaiting (req : nat)
  | TDone (r : TestResult).

(** [Stop] in its loop, with the keys it may still visit: an entry is loaded;
    its channel is closed. *)
Inductive stopState : Type :=
  | SRange (todo : list (list Z))
  | SLoaded (key : list Z) (req : nat) (todo : list (list Z))
  | SClosed (key : list Z) (todo : list (list Z)).

(** The receive loop in [handleResponse]: called with the echoed bytes; with
    the request it took out of the map and the time that passed. *)
Inductive handlerState : Type := HCalled (echo : list Z) | HSending (req : nat) (rtt : Z).

Record world : Type := mkWorld {
  w_t : HolepunchTester;
  w_reqs : gmap nat pendingRequest;        (* the requests ever made *)
  w_tests : gmap nat testState;
  w_stop : option stopState;               (* [Stop] holds the lock meanwhile *)
  w_handler : option handlerState;
  w_now : Z;
  w_next : nat;
  w_out : list bindEvent;                  (* packets handed to the socket *)
  w_heard : list (list Z * Z) }.           (* responses, with their times *)

Definition init (t : HolepunchTester) (now : Z) : world := mkWorld t ∅ ∅ None None now 0 [] [].

Definition with_t (t : HolepunchTester) (w : world) : world :=
  mkWorld t (w_reqs w) (w_tests w) (w_stop w) (w_handler w) (w_now w) (w_next w) (w_out w) (w_heard w).
Definition with_test (g : nat) (s : testState) (w : world) : world :=
  mkWorld (w_t w) (w_reqs w) (<[g := s]> (w_tests w)) (w_stop w) (w_handler w) (w_now w) (w_next w) (w_out w) (w_heard w).
Definition with_req (r : nat) (q : pendingRequest) (w : world) : world :=
  mkWorld (w_t w) (<[r := q]> (w_reqs w)) (w_tests w) (w_stop w) (w_handler w) (w_now w) (w_next w) (w_out w) (w_heard w).
Definition with_stop (s : option stopState) (w : world) : world :=
  mkWorld (w_t w) (w_reqs w) (w_tests w) s (w_handler w) (w_now w) (w_next w) (w_out w) (w_heard w).
Definition with_handler (h : option handlerState) (w : world) : world :=
  mkWorld (w_t w) (w_reqs w) (w_tests w) (w_stop w) h (w_now w) (w_next w) (w_out w) (w_heard w).
Definition with_out (e : list bindEvent) (w : world) : world :=
  mkWorld (w_t w) (w_reqs w) (w_tests w) (w_stop w) (w_handler w) (w_now w) (w_next w) (w_out w ++ e) (w_heard w).
Definition with_heard (e : list Z) (w : world) : world :=
  mkWorld (w_t w) (w_reqs w) (w_tests w) (w_stop w) (w_handler w) (w_now w) (w_next w) (w_out w) (w_heard w ++ [(e, w_now w)]).
Definition tick (d : Z) (w : world) : world :=
  mkWorld (w_t w) (w_reqs w) (w_tests w) (w_stop w) (w_handler w) (w_now w + Z.max 0 d) (w_next w) (w_out w) (w_heard w).
Definition fresh_id (w : world) : world :=
  mkWorld (w_t w) (w_reqs w) (w_tests w) (w_stop w) (w_handler w) (w_now w) (S (w_next w)) (w_out w) (w_heard w).

Definition set_chan (c : replyChan) (q : pendingRequest) : pendingRequest := mkPending (pr_endpoint q) (pr_sentAt q) c (pr_key q).
Definition failed (endpoint : string) (e : testError) : testState := TDone (mkResult false 0 endpoint (Some e)).
Definition drop_pending (k : list Z) (w : world) : world := with_t (set_pending (delete k (ht_pendingRequests (w_t w))) (w_t w)) w.

(** ** [TestEndpoint] *)

(** Up to the check of [running] and of the socket. *)
Definition testBegin (endpoint : string) (w : world) : world :=
  let g := w_next w in
  fresh_id (with_test g
    (if negb (ht_running (w_t w)) then failed endpoint ErrNotRunning
     else match ht_sharedBind (w_t w) with
          | None => failed endpoint ErrBind
          | Some b => if closed b then failed endpoint ErrBind else TChecked endpoint
          end) w).

(** Resolution and the request in the map. *)
Definition testStore (g : nat) (endpoint : string) (random : option (list Z)) (w : world) : world :=
  let '(t, oa) := resolveEndpoint (w_now w) endpoint (w_t w) in
  let w := with_t t w in
  match oa, random with
  | None, _ => with_test g (failed endpoint ErrResolve) w
  | Some _, None => with_test g (failed endpoint ErrRandom) w
  | Some a, Some data =>
      let r := w_next w in
      fresh_id (with_test g (TStored r a) (with_t (set_pending (<[data := r]> (ht_pendingRequests t)) t)
        (with_req r (mkPending endpoint (w_now w) ChanEmpty data) w)))
  end.

(** The packet; [io] is the outcome of the system call. *)
Definition testWrite (g r : nat) (dst : AddrPort) (io : bindErr) (w : world) : world :=
  match w_reqs w !! r, ht_sharedBind (w_t w) with
  | Some q, Some b =>
      let '(evs, err) := WriteToUDP b (testRequest (pr_key q)) dst io in
      match err with
      | NoError => with_test g (TWaiting r) (with_out evs w)
      | _ => with_test g (failed (pr_endpoint q) ErrSend) (drop_pending (pr_key q) w)
      end
  | _, _ => w
  end.

(** The branch of the [select] that receives from the channel. *)
Definition testReceive (g r : nat) (w : world) : option world :=
  match w_reqs w !! r with
  | Some q =>
      match pr_replyChan q with
      | ChanEmpty => None
      | ChanReply rtt => Some (with_test g (TDone (mkResult true rtt (pr_endpoint q) None)) (with_req r (set_chan ChanEmpty q) w))
      | ChanClosed => Some (with_test g (failed (pr_endpoint q) ErrCancelled) w)
      end
  | None => None
  end.

Definition testTimeout (g r : nat) (w : world) : option world :=
  match w_reqs w !! r with
  | Some q => Some (with_test g (failed (pr_endpoint q) ErrTimeout) (drop_pending (pr_key q) w))
  | None => None
  end.

(** ** [handleResponse] *)

(** The call from the shared socket, which has just read its callback. *)
Definition respond (echoData : list Z) (w : world) : option world :=
  match w_handler w, ht_sharedBind (w_t w) with
  | None, Some b => if hasCallback b then Some (with_handler (Some (HCalled echoData)) (with_heard echoData w)) else None
  | _, _ => None
  end.

(** [LoadAndDelete], and the time since the request. *)
Definition handleResponse (echoData : list Z) (w : world) : world :=
  match ht_pendingRequests (w_t w) !! echoData with
  | None => with_handler None w
  | Some r =>
      match w_reqs w !! r with
      | Some q => with_handler (Some (HSending r (w_now w - pr_sentAt q))) (drop_pending echoData w)
      | None => with_handler None w
      end
  end.

(** The non-blocking send; on a closed channel it panics. *)
Definition handlerSend (r : nat) (rtt : Z) (w : world) : go world :=
  match w_reqs w !! r with
  | Some q =>
      match pr_replyChan q with
      | ChanEmpty => Ret (with_handler None (with_req r (set_chan (ChanReply rtt) q) w))
      | ChanReply _ => Ret (with_handler None w)
      | ChanClosed => Panic
      end
  | None => Ret (with_handler None w)
  end.

(** ** [Stop] *)

(** Up to the loop over the requests. *)
Definition stopBegin (w : world) : world :=
  if negb (ht_running (w_t w)) then w
  else
    let t := set_bind (SetMagicResponseCallback false <$> ht_sharedBind (w_t w)) (set_running false (w_t w)) in
    with_stop (Some (SRange (map_to_list (ht_pendingRequests t)).*1)) (with_t t w).

(** One step of the loop: load an entry if it is still there, close its
    channel, delete the key; after the last, clear the cache. *)
Definition stopStep (s : stopState) (w : world) : go world :=
  match s with
  | SRange [] => Ret (with_stop None (with_t (ClearCache (w_t w)) w))
  | SRange (k :: todo) =>
      Ret (with_stop (Some (match ht_pendingRequests (w_t w) !! k with
                            | Some r => SLoaded k r todo
                            | None => SRange todo
                            end)) w)
  | SLoaded k r todo =>
      match w_reqs w !! r with
      | Some q =>
          match pr_replyChan q with
          | ChanClosed => Panic
          | _ => Ret (with_stop (Some (SClosed k todo)) (with_req r (set_chan ChanClosed q) w))
          end
      | None => Ret (with_stop (Some (SRange todo)) w)
      end
  | SClosed k todo => Ret (with_stop (Some (SRange todo)) (drop_pending k w))
  end.

(** ** Interleaving *)

Inductive action : Type :=
  | AStart | AStop | AStopStep
  | ASetPublicDNS (l : list string) | AInvalidate (endpoint : string) | AClearCache
  | ABegin (endpoint : string) | AStore (g : nat) (random : option (list Z)) | AWrite (g : nat) (io : bindErr)
  | AReceive (g : nat) | ATimeout (g : nat)
  | ARespond (echo : list Z) | AMatch | ASend
  | ABind (b : SharedBind)          (* the socket changes; the callback stays *)
  | ATick (d : Z).

(** [None]: the action is not possible now.  The operations that take the
    lock wait while [Stop] holds it. *)
Definition perform (a : action) (w : world) : option (go world) :=
  let locked := match w_stop w with Some _ => true | None => false end in
  match a with
  | AStart => if locked then None else Some (Ret (with_t (Start (w_t w)).1 w))
  | AStop => if locked then None else Some (Ret (stopBegin w))
  | AStopStep => match w_stop w with Some s => Some (stopStep s w) | None => None end
  | ASetPublicDNS l => if locked then None else Some (Ret (with_t (SetPublicDNS l (w_t w)) w))
  | AInvalidate e => Some (Ret (with_t (InvalidateCache e (w_t w)) w))
  | AClearCache => Some (Ret (with_t (ClearCache (w_t w)) w))
  | ABegin e => if locked then None else Some (Ret (testBegin e w))
  | AStore g random => match w_tests w !! g with Some (TChecked e) => Some (Ret (testStore g e random w)) | _ => None end
  | AWrite g io => match w_tests w !! g with Some (TStored r dst) => Some (Ret (testWrite g r dst io w)) | _ => None end
  | AReceive g => match w_tests w !! g with Some (TWaiting r) => Ret <$> testReceive g r w | _ => None end
  | ATimeout g => match w_tests w !! g with Some (TWaiting r) => Ret <$> testTimeout g r w | _ => None end
  | ARespond echo => Ret <$> respond echo w
  | AMatch => match w_handler w with Some (HCalled echo) => Some (Ret (handleResponse echo w)) | _ => None end
  | ASend => match w_handler w with Some (HSending r rtt) => Some (handlerSend r rtt w) | _ => None end
  | ABind b => match ht_sharedBind (w_t w) with
               | Some b0 => Some (Ret (with_t (set_bind (Some (set_callback (hasCallback b0) b)) (w_t w)) w))
               | None => None
               end
  | ATick d => Some (Ret (tick d w))
  end.

Fixpoint run (l : list action) (w : world) : option (go world) :=
  match l with
  | [] => Some (Ret w)
  | a :: l' => match perform a w with Some (Ret w') => run l' w' | r => r end
  end.

Inductive reachable (t : HolepunchTester) : world → Prop :=
  | reach_init now : reachable t (init t now)
  | reach_step w a w' : reachable t w → perform a w = Some (Ret w') → reachable t w'.

(** ** Invariant *)

(** Responses that could have completed a request: they echo its key and came
    when it had been made. *)
Definition answered (w : world) (q : pendingRequest) (rtt : Z) : Prop :=
  ∃ at_, (pr_key q, at_) ∈ w_heard w ∧ 0 <= rtt ∧ at_ <= pr_sentAt q + rtt ∧ pr_sentAt q + rtt <= w_now w.

Definition isReply (c : replyChan) : Prop := match c with ChanReply _ => True | _ => False end.

Record req_ok (w : world) (r : nat) (q : pendingRequest) : Prop := mkReqOk {
  rq_made : (r < w_next w)%nat ∧ pr_sentAt q <= w_now w;
  rq_reply rtt : pr_replyChan q = ChanReply rtt → answered w q rtt }.

(** A request in the map has an empty channel, unless [Stop] is about to
    delete it. *)
Definition pending_ok (w : world) (k : list Z) (r : nat) : Prop :=
  ∃ q, w_reqs w !! r = Some q ∧ pr_key q = k ∧
    (pr_replyChan q = ChanEmpty ∨ pr_replyChan q = ChanClosed ∧ ∃ todo, w_stop w = Some (SClosed k todo)).

Definition handler_ok (w : world) (h : handlerState) : Prop :=
  match h with
  | HCalled e => ∃ at_, (e, at_) ∈ w_heard w
  | HSending r rtt => (∃ q, w_reqs w !! r = Some q ∧ ¬ isReply (pr_replyChan q) ∧ answered w q rtt) ∧
                      ∀ k, ht_pendingRequests (w_t w) !! k ≠ Some r
  end.

Definition stop_ok (w : world) (s : stopState) : Prop :=
  match s with
  | SLoaded k r _ => ∃ q, w_reqs w !! r = Some q ∧ pr_key q = k ∧ pr_replyChan q ≠ ChanClosed
  | _ => True
  end.

(** A result is a success without an error, with the time of an answer, or a
    failure with one. *)
Definition test_ok (w : world) (s : testState) : Prop :=
  match s with
  | TDone (mkResult true rtt e err) => err = None ∧ ∃ r q, w_reqs w !! r = Some q ∧ pr_endpoint q = e ∧ answered w q rtt
  | TDone (mkResult false rtt _ err) => rtt = 0 ∧ is_Some err
  | TStored r _ | TWaiting r => is_Some (w_reqs w !! r)
  | TChecked _ => True
  end.

Record inv (w : world) : Prop := mkInv {
  i_req r q : w_reqs w !! r = Some q → req_ok w r q;
  i_pending k r : ht_pendingRequests (w_t w) !! k = Some r → pending_ok w k r;
  i_handler h : w_handler w = Some h → handler_ok w h;
  i_stop s : w_stop w = Some s → stop_ok w s;
  i_test g s : w_tests w !! g = Some s → test_ok w s;
  i_heard e at_ : (e, at_) ∈ w_heard w → at_ <= w_now w }.

(** What an action does to the parts the invariant looks at, when it does not
    touch the requests: time and history grow, entries may leave the map. *)
Record extends (w w' : world) : Prop := mkExtends {
  ex_reqs : w_reqs w' = w_reqs w;
  ex_pending : ht_pendingRequests (w_t w') ⊆ ht_pendingRequests (w_t w);
  ex_now : w_now w <= w_now w';
  ex_next : (w_next w <= w_next w')%nat;
  ex_heard x : x ∈ w_heard w → x ∈ w_heard w' }.

Lemma answered_mono w w' q rtt :
  answered w q rtt → w_now w <= w_now w' → (∀ x, x ∈ w_heard w → x ∈ w_heard w') → answered w' q rtt.
Proof. intros (at_ & ? & ? & ? & ?) ? ?. exists at_. split_and!; [auto|lia..]. Qed.

Lemma req_ok_extends w w' r q : req_ok w r q → extends w w' → req_ok w' r q.
Proof.
  intros [[? ?] Hr] []. split; [lia|]. intros rtt E. eapply answered_mono; [by apply Hr|done|done].
Qed.

Lemma handler_ok_extends w w' h : handler_ok w h → extends w w' → handler_ok w' h.
Proof.
  intros Hh []. destruct h as [e|r rtt]; simpl in *.
  - destruct Hh as [at_ ?]. exists at_. auto.
  - destruct Hh as [(q & Hq & Hn & Ha) Hk]. split; [exists q; rewrite ex_reqs0; split_and!; [done..|by eapply answered_mono]|].
    intros k Hin. apply (Hk k). by eapply lookup_weaken.
Qed.

Lemma stop_ok_extends w w' s : stop_ok w s → extends w w' → stop_ok w' s.
Proof. intros Hs []. destruct s; simpl in *; [done| |done]. by rewrite ex_reqs0. Qed.

Lemma test_ok_extends w w' s : test_ok w s → extends w w' → test_ok w' s.
Proof.
  intros Hs []. destruct s as [|r|r|[[] rtt e err]]; simpl in *; rewrite ?ex_reqs0; [done..| |done].
  destruct Hs as (? & r & q & ? & ? & ?). split; [done|]. exists r, q. split_and!; [done..|by eapply answered_mono].
Qed.

(** Every action that leaves the requests alone keeps the invariant when what
    it changes is as it should be. *)
Lemma inv_extends w w' :
  inv w → extends w w' →
  (∀ k todo, w_stop w = Some (SClosed k todo) → w_stop w' = w_stop w ∨ ht_pendingRequests (w_t w') !! k = None) →
  (∀ h, w_handler w' = Some h → w_handler w = Some h ∨ handler_ok w' h) →
  (∀ s, w_stop w' = Some s → w_stop w = Some s ∨ stop_ok w' s) →
  (∀ g s, w_tests w' !! g = Some s → w_tests w !! g = Some s ∨ test_ok w' s) →
  (∀ e at_, (e, at_) ∈ w_heard w' → (e, at_) ∈ w_heard w ∨ at_ <= w_now w') →
  inv w'.
Proof.
  intros Hi He Hsc Hh Hs Ht Hr. destruct (He) as [Er Ep En _ _]. split.
  - intros r q E. rewrite Er in E. eapply req_ok_extends; [by apply (i_req w)|done].
  - intros k r E. pose proof (lookup_weaken _ _ _ _ E Ep) as E0. destruct (i_pending w Hi _ _ E0) as (q & Hq & Hk & Hc).
    exists q. rewrite Er. split_and!; [done..|]. destruct Hc as [?|[? [todo Et]]]; [by left|]. right. split; [done|].
    destruct (Hsc _ _ Et) as [->|E']; [by exists todo|congruence].
  - intros h E. destruct (Hh h E) as [E'|?]; [|done]. eapply handler_ok_extends; [by apply (i_handler w)|done].
  - intros s E. destruct (Hs s E) as [E'|?]; [|done]. eapply stop_ok_extends; [by apply (i_stop w)|done].
  - intros g s E. destruct (Ht g s E) as [E'|?]; [|done]. eapply test_ok_extends; [by eapply (i_test w)|done].
  - intros e at_ E. destruct (Hr e at_ E) as [E'|?]; [|done]. pose proof (i_heard w Hi _ _ E'). lia.
Qed.

(** A channel may be filled, emptied or closed. *)
Lemma inv_set_chan w r q c :
  inv w → w_reqs w !! r = Some q →
  (∀ rtt, c = ChanReply rtt → answered w q rtt) →
  (∀ k, ht_pendingRequests (w_t w) !! k = Some r → c = ChanEmpty ∨ c = ChanClosed ∧ ∃ todo, w_stop w = Some (SClosed k todo)) →
  (∀ rtt, w_handler w = Some (HSending r rtt) → ¬ isReply c) →
  (∀ k todo, w_stop w = Some (SLoaded k r todo) → c ≠ ChanClosed) →
  inv (with_req r (set_chan c q) w).
Proof.
  intros Hi Hq Hc Hp Hh Hs.
  assert (∀ r' q', w_reqs w !! r' = Some q' → ∃ q'', w_reqs (with_req r (set_chan c q) w) !! r' = Some q'' ∧
    pr_key q'' = pr_key q' ∧ pr_sentAt q'' = pr_sentAt q' ∧ pr_endpoint q'' = pr_endpoint q' ∧
    (pr_replyChan q'' = pr_replyChan q' ∨ r' = r ∧ pr_replyChan q'' = c)) as Hl.
  { intros r' q' E. simpl. destruct (decide (r' = r)) as [->|Hne].
    - rewrite lookup_insert_eq. exists (set_chan c q). rewrite Hq in E. injection E as <-. split_and!; auto.
    - rewrite lookup_insert_ne by done. exists q'. split_and!; auto. }
  assert (∀ q' q'' rtt, pr_key q'' = pr_key q' → pr_sentAt q'' = pr_sentAt q' → answered w q' rtt → answered (with_req r (set_chan c q) w) q'' rtt) as Ha.
  { intros q' q'' rtt E1 E2 (at_ & ? & ? & ? & ?). exists at_. rewrite E1, E2. by split_and!. }
  split.
  - intros r' q' E. simpl in E. destruct (decide (r' = r)) as [->|Hne].
    + rewrite lookup_insert_eq in E. injection E as <-. destruct (i_req w Hi _ _ Hq) as [? _]. split; [done|]. intros rtt Ec. apply (Ha q); auto.
    + rewrite lookup_insert_ne in E by done. destruct (i_req w Hi _ _ E) as [? Hr]. split; [done|]. intros rtt Ec. apply (Ha q'); auto.
  - intros k r' E. destruct (i_pending w Hi _ _ E) as (q' & Hq' & Hk & Hc'). destruct (Hl _ _ Hq') as (q'' & E'' & Ek & _ & _ & Er).
    exists q''. split_and!; [done|congruence|]. destruct Er as [Er|[-> Er]]; rewrite Er; [done|]. simpl. auto.
  - intros h E. pose proof (i_handler w Hi h E) as H0. destruct h as [e|r' rtt]; [done|]. destruct H0 as [(q' & Hq' & Hn & Han) Hk].
    split; [|done]. destruct (Hl _ _ Hq') as (q'' & E'' & Ek & Es & _ & Er). exists q''. split_and!; [done| |by eapply Ha].
    destruct Er as [Er|[-> Er]]; rewrite Er; [done|]. by eapply Hh.
  - intros s E. pose proof (i_stop w Hi s E) as H0. destruct s as [|k r' todo|]; [done| |done]. destruct H0 as (q' & Hq' & Hk & Hn).
    destruct (Hl _ _ Hq') as (q'' & E'' & Ek & _ & _ & Er). exists q''. split_and!; [done|congruence|].
    destruct Er as [Er|[-> Er]]; rewrite Er; [done|]. by eapply Hs.
  - intros g s E. pose proof (i_test w Hi g s E) as H0. destruct s as [|r' d|r'|[[] rtt e err]]; [done| | | |done].
    + destruct H0 as [q' Hq']. destruct (Hl _ _ Hq') as (q'' & E'' & _). by exists q''.
    + destruct H0 as [q' Hq']. destruct (Hl _ _ Hq') as (q'' & E'' & _). by exists q''.
    + destruct H0 as (? & r' & q' & Hq' & Ee & Han). split; [done|]. destruct (Hl _ _ Hq') as (q'' & E'' & Ek & Es & Een & _).
      exists r', q''. split_and!; [done|congruence|by eapply Ha].
  - apply (i_heard w Hi).
Qed.

(** A new request enters the map. *)
Lemma inv_new_req w e data :
  inv w →
  let r := w_next w in
  inv (fresh_id (with_t (set_pending (<[data := r]> (ht_pendingRequests (w_t w))) (w_t w)) (with_req r (mkPending e (w_now w) ChanEmpty data) w))).
Proof.
  intros Hi r. assert (∀ r' q', w_reqs w !! r' = Some q' → r' ≠ r) as Hf.
  { intros r' q' E ->. destruct (i_req w Hi _ _ E) as [[? _] _]. unfold r in *. lia. }
  assert (∀ r' q', w_reqs w !! r' = Some q' → <[r := mkPending e (w_now w) ChanEmpty data]> (w_reqs w) !! r' = Some q') as Hl.
  { intros r' q' E. rewrite lookup_insert_ne; [done|]. apply not_eq_sym. by eapply Hf. }
  split; simpl.
  - intros r' q' E. destruct (decide (r' = r)) as [->|Hne].
    + rewrite lookup_insert_eq in E. injection E as <-. split; [simpl; unfold r; lia|done].
    + rewrite lookup_insert_ne in E by done. destruct (i_req w Hi _ _ E) as [[? ?] Hr]. split; [simpl; lia|done].
  - intros k r' E. destruct (decide (k = data)) as [->|Hne].
    + rewrite lookup_insert_eq in E. injection E as <-. eexists. simpl. rewrite lookup_insert_eq. split_and!; [done|done|by left].
    + rewrite lookup_insert_ne in E by done. destruct (i_pending w Hi _ _ E) as (q' & Hq' & Hk & Hc). exists q'. simpl. by rewrite (Hl _ _ Hq').
  - intros h E. pose proof (i_handler w Hi h E) as H0. destruct h as [|r' rtt]; [done|]. destruct H0 as [(q' & Hq' & Hn & Ha) Hk]. split.
    + exists q'. simpl. by rewrite (Hl _ _ Hq').
    + intros k. simpl. destruct (decide (k = data)) as [->|Hne]; [rewrite lookup_insert_eq; intros [= <-]; by eapply Hf|by rewrite lookup_insert_ne].
  - intros s E. pose proof (i_stop w Hi s E) as H0. destruct s as [|k r' todo|]; [done| |done]. destruct H0 as (q' & Hq' & Hk & Hn).
    exists q'. simpl. by rewrite (Hl _ _ Hq').
  - intros g s E. pose proof (i_test w Hi g s E) as H0. destruct s as [|r' d|r'|[[] rtt e' err]]; [done| | | |done]; simpl in *.
    + destruct H0 as [q' Hq']. by rewrite (Hl _ _ Hq').
    + destruct H0 as [q' Hq']. by rewrite (Hl _ _ Hq').
    + destruct H0 as (? & r' & q' & Hq' & ? & ?). split; [done|]. exists r', q'. by rewrite (Hl _ _ Hq').
  - apply (i_heard w Hi).
Qed.

Ltac ext_split := split; simpl; try done; try lia; try apply delete_subseteq.
Ltac by_extends w := apply (inv_extends w); [done|ext_split|..]; simpl; try by (intros; left).

Lemma extends_refl w : extends w w.
Proof. by ext_split. Qed.

(** The tester's other fields do not matter. *)
Lemma inv_with_t w t : inv w → ht_pendingRequests t = ht_pendingRequests (w_t w) → inv (with_t t w).
Proof. intros Hi Ep. by_extends w. by rewrite Ep. Qed.

Lemma inv_with_test w g s : inv w → test_ok w s → inv (with_test g s w).
Proof.
  intros Hi Hs. by_extends w. intros g' s' E.
  destruct (decide (g' = g)) as [->|]; [|rewrite lookup_insert_ne in E by done; by left].
  rewrite lookup_insert_eq in E. injection E as <-. right. eapply test_ok_extends; [done|]. ext_split.
Qed.

Lemma inv_fresh w : inv w → inv (fresh_id w).
Proof. intros Hi. by_extends w. Qed.

Lemma inv_drop w k : inv w → inv (drop_pending k w).
Proof. intros Hi. by_extends w. Qed.

Lemma inv_with_handler w h : inv w → (∀ x, h = Some x → handler_ok w x) → inv (with_handler h w).
Proof.
  intros Hi Hh. by_extends w. intros x E. right.
  eapply handler_ok_extends; [by apply Hh|]. ext_split.
Qed.

Lemma inv_with_stop w s :
  inv w → (∀ x, s = Some x → stop_ok w x) →
  (∀ k todo, w_stop w = Some (SClosed k todo) → ht_pendingRequests (w_t w) !! k = None) → inv (with_stop s w).
Proof.
  intros Hi Hs Hc. by_extends w; [intros k todo E; right; by eapply Hc|].
  intros x E. right. eapply stop_ok_extends; [by apply Hs|]. ext_split.
Qed.

Lemma failed_ok w e err : test_ok w (failed e err).
Proof. simpl. by split; [|eexists]. Qed.

Lemma resolveEndpoint_pending now e t : ht_pendingRequests (resolveEndpoint now e t).1 = ht_pendingRequests t.
Proof. unfold resolveEndpoint. by repeat case_match. Qed.

Lemma inv_store w g e random : inv w → inv (testStore g e random w).
Proof.
  intros Hi. unfold testStore. pose proof (resolveEndpoint_pending (w_now w) e (w_t w)) as Ep.
  destruct (resolveEndpoint (w_now w) e (w_t w)) as [t oa]. simpl in Ep. pose proof (inv_with_t w t Hi Ep) as Ht.
  destruct oa as [a|]; [|by apply inv_with_test, failed_ok]. destruct random as [data|]; [|by apply inv_with_test, failed_ok].
  pose proof (inv_new_req _ e data Ht) as Hn. simpl in Hn.
  refine (inv_with_test _ g (TStored (w_next w) a) Hn _). simpl. rewrite lookup_insert_eq. by eexists.
Qed.

Lemma inv_write w g r dst io : inv w → w_tests w !! g = Some (TStored r dst) → inv (testWrite g r dst io w).
Proof.
  intros Hi Hg. unfold testWrite. destruct (w_reqs w !! r) as [q|] eqn:Eq; [|done]. destruct (ht_sharedBind (w_t w)) as [b|]; [|done].
  destruct (WriteToUDP b (testRequest (pr_key q)) dst io) as [evs err].
  assert (inv (with_out evs w)) as Ho by by_extends w.
  destruct err; try (apply inv_with_test, failed_ok; by apply inv_drop).
  apply inv_with_test; [done|]. simpl. by rewrite Eq.
Qed.

Lemma inv_receive w g r w' : inv w → testReceive g r w = Some w' → inv w'.
Proof.
  intros Hi. unfold testReceive. destruct (w_reqs w !! r) as [q|] eqn:Eq; [|done].
  destruct (pr_replyChan q) as [|rtt|] eqn:Ec; [done| |]; intros [= <-]; [|by apply inv_with_test, failed_ok].
  assert (inv (with_req r (set_chan ChanEmpty q) w)) as Hc by (apply inv_set_chan; try done; by auto).
  apply inv_with_test; [done|]. split; [done|]. exists r, (set_chan ChanEmpty q). simpl. rewrite lookup_insert_eq. split_and!; [done..|].
  destruct (i_req w Hi _ _ Eq) as [_ Hr]. destruct (Hr rtt Ec) as (at_ & ? & ? & ? & ?). by exists at_.
Qed.

Lemma inv_handle w e : inv w → w_handler w = Some (HCalled e) → inv (handleResponse e w).
Proof.
  intros Hi Hh. unfold handleResponse. destruct (ht_pendingRequests (w_t w) !! e) as [r|] eqn:Ep; [|by apply inv_with_handler].
  destruct (w_reqs w !! r) as [q|] eqn:Eq; [|by apply inv_with_handler].
  apply inv_with_handler; [by apply inv_drop|]. intros x [= <-]. destruct (i_pending w Hi _ _ Ep) as (q' & Eq' & Hk & Hc).
  rewrite Eq in Eq'. injection Eq' as <-. split.
  - exists q. split_and!; [done|by destruct Hc as [->|[-> _]]; intros []|].
    destruct (i_handler w Hi _ Hh) as [at_ Hat]. exists at_. pose proof (i_heard w Hi _ _ Hat). destruct (i_req w Hi _ _ Eq) as [[_ ?] _].
    rewrite Hk. simpl. split_and!; [done|lia..].
  - intros k. simpl. destruct (decide (k = e)) as [->|Hne]; [by rewrite lookup_delete_eq|]. rewrite lookup_delete_ne by done.
    intros E. destruct (i_pending w Hi _ _ E) as (q'' & Eq'' & Hk'' & _). rewrite Eq in Eq''. injection Eq'' as <-. congruence.
Qed.

Lemma inv_send w r rtt w' : inv w → w_handler w = Some (HSending r rtt) → handlerSend r rtt w = Ret w' → inv w'.
Proof.
  intros Hi Hh. unfold handlerSend. destruct (i_handler w Hi _ Hh) as [(q & Eq & Hn & Ha) Hk]. rewrite Eq.
  assert (inv (with_handler None w)) as Hi' by by apply inv_with_handler.
  destruct (pr_replyChan q) eqn:Ec; [|by destruct Hn|done]. intros [= <-].
  refine (inv_set_chan _ r q (ChanReply rtt) Hi' Eq _ _ _ _); simpl; [|by intros k E; apply Hk in E|done|done].
  by intros ? [= <-].
Qed.

Lemma inv_stop_begin w : inv w → w_stop w = None → inv (stopBegin w).
Proof.
  intros Hi Hs. unfold stopBegin. destruct (negb (ht_running (w_t w))); [done|].
  apply inv_with_stop; [by apply inv_with_t|by intros x [= <-]|]. simpl. by rewrite Hs.
Qed.

(** The loop of [Stop] never closes a channel twice. *)
Lemma inv_stop_step w s : inv w → w_stop w = Some s → ∃ w', stopStep s w = Ret w' ∧ inv w'.
Proof.
  intros Hi Hs. destruct s as [[|k todo]|k r todo|k todo]; simpl.
  - eexists. split; [done|]. apply inv_with_stop; [by apply inv_with_t|done|]. simpl. by rewrite Hs.
  - eexists. split; [done|]. apply inv_with_stop; [done| |by rewrite Hs].
    intros x [= <-]. destruct (ht_pendingRequests (w_t w) !! k) as [r|] eqn:Ep; [|done].
    destruct (i_pending w Hi _ _ Ep) as (q & Eq & Hk & Hc). exists q. split_and!; [done..|].
    destruct Hc as [->|[_ [todo' Es]]]; [done|]. by rewrite Hs in Es.
  - destruct (i_stop w Hi _ Hs) as (q & Eq & Hk & Hc). rewrite Eq.
    assert (inv (with_req r (set_chan ChanClosed q) (with_stop (Some (SClosed k todo)) w))) as H1.
    { refine (inv_set_chan (with_stop (Some (SClosed k todo)) w) r q ChanClosed _ Eq _ _ _ _); simpl; [|done| |by intros ? ? []|done].
      - apply inv_with_stop; [done|by intros x [= <-]|by rewrite Hs].
      - intros k' E. destruct (i_pending w Hi _ _ E) as (q' & Eq' & Hk' & _). rewrite Eq in Eq'. injection Eq' as <-.
        right. split; [done|]. rewrite <- Hk', Hk. by exists todo. }
    destruct (pr_replyChan q); [eexists; split; [done|exact H1]..|done].
  - eexists. split; [done|]. refine (inv_with_stop _ _ (inv_drop w k Hi) _ _); [by intros x [= <-]|].
    simpl. rewrite Hs. intros k' todo' [= <- <-]. apply lookup_delete_eq.
Qed.

Lemma inv_perform w a w' : inv w → perform a w = Some (Ret w') → inv w'.
Proof.
  intros Hi. destruct a as [| | |l|e| |e|g random|g io|g|g|echo| | |b|d]; simpl.
  - destruct (w_stop w); [done|]. intros [= <-]. apply inv_with_t; [done|]. unfold Start. by repeat case_match.
  - destruct (w_stop w) eqn:Es; [done|]. intros [= <-]. by apply inv_stop_begin.
  - destruct (w_stop w) as [s|] eqn:Es; [|done]. destruct (inv_stop_step w s Hi Es) as (w2 & -> & H2). by intros [= <-].
  - destruct (w_stop w); [done|]. intros [= <-]. by apply inv_with_t.
  - intros [= <-]. by apply inv_with_t.
  - intros [= <-]. by apply inv_with_t.
  - destruct (w_stop w); [done|]. intros [= <-]. unfold testBegin. apply inv_fresh, inv_with_test; [done|].
    repeat case_match; try apply failed_ok. done.
  - destruct (w_tests w !! g) as [[e|r dst|r|res]|]; try done. intros [= <-]. by apply inv_store.
  - destruct (w_tests w !! g) as [[e|r dst|r|res]|] eqn:Eg; try done. intros [= <-]. by apply inv_write.
  - destruct (w_tests w !! g) as [[e|r dst|r|res]|]; try done. destruct (testReceive g r w) eqn:E; [|done]. intros [= <-]. by eapply inv_receive.
  - destruct (w_tests w !! g) as [[e|r dst|r|res]|]; try done. unfold testTimeout. destruct (w_reqs w !! r); [|done]. intros [= <-].
    apply inv_with_test, failed_ok. by apply inv_drop.
  - unfold respond. destruct (w_handler w) eqn:Eh; [done|]. destruct (ht_sharedBind (w_t w)) as [b|]; [|done].
    destruct (hasCallback b); [|done]. intros [= <-]. by_extends w.
    + intros x Hx. apply elem_of_app. by left.
    + intros h [= <-]. right. exists (w_now w). simpl. apply elem_of_app. right. by left.
    + intros e at_ [?|E]%elem_of_app; [by left|]. right. apply list_elem_of_singleton in E. injection E as _ ->. lia.
  - destruct (w_handler w) as [[e|r rtt]|] eqn:Eh; try done. intros [= <-]. by apply inv_handle.
  - destruct (w_handler w) as [[e|r rtt]|] eqn:Eh; try done. intros [= E]. by eapply inv_send.
  - destruct (ht_sharedBind (w_t w)); [|done]. intros [= <-]. by apply inv_with_t.
  - intros [= <-]. by_extends w.
Qed.

Lemma reachable_inv t w : ht_pendingRequests t = ∅ → reachable t w → inv w.
Proof.
  intros Hp. induction 1 as [now|w a w' _ IH Ha]; [|by eapply inv_perform].
  split; simpl; try done; [intros k r; by rewrite Hp|]. by intros e at_ ?%elem_of_nil.
Qed.

Lemma run_reachable t l w w' : reachable t w → run l w = Some (Ret w') → reachable t w'.
Proof.
  revert w. induction l as [|a l IH]; intros w Hr; simpl; [by intros [= <-]|].
  destruct (perform a w) as [[w1|]|] eqn:E; [|done..]. apply IH. by eapply reach_step.
Qed.

(** ** Properties *)


(** C15: a test on a running tester over an open socket, answered
    by a peer whose socket is open, succeeds after the time [d] the answer
    took: the peer's socket echoes the packet the test sends, and the tester's
    socket hands the echo back. *)
Theorem probe_roundtrip (w : world) (b peer : SharedBind) (c c' : UDPConn) (endpoint : string) (data : list Z) (from to : AddrPort) (d : Z) :
  ht_running (w_t w) = true → ht_sharedBind (w_t w) = Some b → closed b = false → udpConn b = Some c → hasCallback b = true →
  w_stop w = None → w_handler w = None → length data = MagicPacketDataLen → 0 <= d →
  (resolveEndpoint (w_now w) endpoint (w_t w)).2 = Some to → udpConn peer = Some c' →
  let g := w_next w in
  ∃ w1 reply,
    run [ABegin endpoint; AStore g (Some data); AWrite g NoError] w = Some (Ret w1) ∧
    w_out w1 = w_out w ++ [EvWriteUDP c (testRequest data) to] ∧
    handleMagicPacket peer (testRequest data) from = ([EvWriteUDP c' reply from], true) ∧
    handleMagicPacket b reply to = ([EvCallback (unmapAddrPort to) data], true) ∧
    ∃ w2, run [ATick d; ARespond data; AMatch; ASend; AReceive g] w1 = Some (Ret w2) ∧
      w_tests w2 !! g = Some (TDone (mkResult true d endpoint None)).
Proof.
  intros Hrun Hb Hcl Hc Hcb Hs Hh Hlen Hd Hres Hc' g.
  destruct (resolveEndpoint (w_now w) endpoint (w_t w)) as [t oa] eqn:Er. simpl in Hres. subst oa.
  assert (ht_sharedBind t = Some b) as Hbt.
  { unfold resolveEndpoint in Er. repeat case_match; simplify_eq; done. }
  unfold run, perform, testBegin. rewrite Hs, Hrun, Hb, Hcl. cbn [negb w_tests fresh_id with_test]. fold g.
  rewrite lookup_insert_eq. unfold testStore. cbn [w_now w_t fresh_id with_test]. rewrite Er.
  cbn [w_tests fresh_id with_test with_t with_req w_next]. rewrite lookup_insert_eq. unfold testWrite.
  cbn [w_reqs fresh_id with_test with_t with_req w_next w_t set_pending ht_sharedBind]. rewrite lookup_insert_eq, Hbt.
  unfold WriteToUDP. rewrite Hcl, Hc. cbn [pr_key].
  eexists _, (MagicTestResponse ++ data). split_and!; [done|done|by apply handle_request|rewrite handle_response by done; by rewrite Hcb|].
  unfold respond. cbn. rewrite Hh, Hbt, Hcb. cbn. unfold handleResponse. cbn. rewrite lookup_insert_eq. cbn. rewrite lookup_insert_eq. cbn.
  unfold handlerSend. cbn. rewrite lookup_insert_eq. cbn. unfold with_test at 1. cbn. rewrite lookup_insert_eq. unfold testReceive. cbn.
  rewrite !lookup_insert_eq. cbn. eexists. split; [done|]. cbn. rewrite lookup_insert_eq. do 3 f_equal. lia.
Qed.


(** A name that resolves leads to the text of an address and
    a port: the one the endpoint has, or 21820. *)
Theorem endpoint_target `{!DNSLaws} (publicDNS : list string) (endpoint host port r : string) :
  hostAndPort (cleanDomain endpoint) = (host, port) → ResolveDomainUpstream endpoint publicDNS = Some r →
  ∃ ip, zoneless ip = true ∧
    SplitHostPort (endpointHost publicDNS endpoint) = Some (ipString ip, if bool_decide (port = "") then "21820"%string else port).
Proof.
  intros Hd Hr. unfold endpointHost. rewrite resolveVia_upstream, Hr. simpl.
  destruct (resolved_text endpoint publicDNS r host port Hd Hr) as (ip & Hz & Hp & _).
  exists ip. split; [done|]. case_bool_decide; [destruct Hp as [-> Hn]; rewrite Hn|by rewrite Hp].
  apply SplitHostPort_Join; [by apply ipString_text|by vm_compute].
Qed.

(** Within five minutes the cached address is used whatever
    the resolver would say; afterwards, and after the endpoint was invalidated
    or the servers were changed, it is asked again. *)
Theorem cache_window (t : HolepunchTester) (endpoint : string) (now now' : Z) (t1 : HolepunchTester) (a : AddrPort) :
  resolveEndpoint now endpoint t = (t1, Some a) → ht_addrCache t !! endpoint = None →
  (now' - now < addrCacheTTL → resolveEndpoint now' endpoint t1 = (t1, Some a)) ∧
  (addrCacheTTL <= now' - now → (resolveEndpoint now' endpoint t1).2 = udpAddr (endpointHost (ht_publicDNS t1) endpoint)) ∧
  (resolveEndpoint now' endpoint (InvalidateCache endpoint t1)).2 = udpAddr (endpointHost (ht_publicDNS t1) endpoint) ∧
  ∀ l, (resolveEndpoint now' endpoint (SetPublicDNS l t1)).2 = udpAddr (endpointHost l endpoint).
Proof.
  unfold resolveEndpoint at 1. intros E Hc. rewrite Hc in E. destruct (udpAddr _) as [a'|]; [|done]. injection E as <- <-.
  unfold resolveEndpoint. simpl. rewrite lookup_insert_eq, lookup_delete_eq, lookup_empty.
  split_and!; [intros Ht|intros Ht| |intros l].
  - by rewrite (proj2 (Z.ltb_lt _ _)) by done.
  - rewrite (proj2 (Z.ltb_ge _ _)) by done. by destruct (udpAddr _).
  - by destruct (udpAddr _).
  - by destruct (udpAddr _).
Qed.

#[local] Instance bindErr_eq_dec : EqDecision bindErr.
Proof. solve_decision. Defined.

(** The attempts end at the first send that succeeds. *)
Lemma attemptLoop_spec writes send n i e err :
  (0 < n)%nat →
  (∃ j, (j < n)%nat ∧ send (writes (i + j)%nat).1 = NoError ∧ (∀ k, (k < j)%nat → send (writes (i + k)%nat).1 ≠ NoError) ∧
     attemptLoop writes send n i (mkResult false 0 e err) = (mkResult true (writes (i + j)%nat).2 e None, (i + S j)%nat)) ∨
  ((∀ k, (k < n)%nat → send (writes (i + k)%nat).1 ≠ NoError) ∧
     attemptLoop writes send n i (mkResult false 0 e err) = (mkResult false 0 e (Some ErrSend), (i + n)%nat)).
Proof.
  revert i err. induction n as [|n IH]; intros i err Hn; [lia|]. simpl.
  destruct (decide (send (writes i).1 = NoError)) as [E|E].
  { left. rewrite E. exists 0%nat. rewrite Nat.add_0_r, E. split_and!; [lia|done|lia|]. f_equal. lia. }
  assert (attemptLoop writes send (S n) i (mkResult false 0 e err) =
    match n with O => (mkResult false 0 e (Some ErrSend), S i) | S _ => attemptLoop writes send n (S i) (mkResult false 0 e (Some ErrSend)) end) as Es.
  { simpl. by destruct (send (writes i).1). }
  simpl in Es. rewrite Es. clear Es.
  assert (∀ k, (k < S n)%nat → (∀ k', (k' < k)%nat → send (writes (S i + k')%nat).1 ≠ NoError) →
    ∀ k', (k' < S k)%nat → send (writes (i + k')%nat).1 ≠ NoError) as Hall.
  { intros k _ H' [|k'] Hk'; [by rewrite Nat.add_0_r|]. rewrite Nat.add_succ_r. apply H'. lia. }
  destruct n as [|n].
  { right. split; [|f_equal; lia]. apply (Hall 0%nat); [lia|]. lia. }
  destruct (IH (S i) (Some ErrSend) ltac:(lia)) as [(j & Hj & Hs & Hb & Hr)|[Hb Hr]]; rewrite Hr.
  - left. exists (S j). rewrite <- !Nat.add_succ_comm. split_and!; [lia|done| |f_equal; lia].
    apply Hall; [lia|done].
  - right. split; [|f_equal; lia]. apply Hall; [lia|done].
Qed.

(** A test over the shared socket reports the first send the
    socket accepts as a success, without waiting for an answer; it fails when
    none of the attempts is accepted, and with a negative number of retries it
    fails without an error and without sending. *)
Theorem bind_test_sends (b : SharedBind) (c : UDPConn) (a : AddrPort) (endpoint : string) (opts : TestConnectionOptions) (data : list Z)
    (writes : nat → bindErr * Z) :
  closed b = false → udpConn b = Some c → udpAddr (endpointHost [] endpoint) = Some a →
  let n := Z.to_nat (op_Retries opts + 1) in
  let res := TestConnectionWithBind (Some b) endpoint (Some opts) (Some data) writes in
  (op_Retries opts < 0 → res = (mkResult false 0 endpoint None, 0%nat)) ∧
  (0 <= op_Retries opts →
    (∃ j, (j < n)%nat ∧ (writes j).1 = NoError ∧ (∀ k, (k < j)%nat → (writes k).1 ≠ NoError) ∧
       res = (mkResult true (writes j).2 endpoint None, S j)) ∨
    ((∀ k, (k < n)%nat → (writes k).1 ≠ NoError) ∧ res = (mkResult false 0 endpoint (Some ErrSend), n))).
Proof.
  intros Hcl Hc Ha n res. unfold res, TestConnectionWithBind. rewrite Hcl, Hc, Ha.
  change (default DefaultTestOptions (Some opts)) with opts. fold n. split.
  - intros Hr. assert (n = 0%nat) as -> by (unfold n; lia). done.
  - intros Hr. assert (∀ e, (WriteToUDP b (testRequest data) a e).2 = e) as Hw by (intros e; unfold WriteToUDP; by rewrite Hcl, Hc).
    destruct (attemptLoop_spec writes (λ io, (WriteToUDP b (testRequest data) a io).2) n 0 endpoint None) as [(j & Hj & Hs & Hb & E)|[Hb E]];
      [unfold n; lia|left|right]; rewrite E; setoid_rewrite Hw in Hb; [|done].
    exists j. rewrite Hw in Hs. by split_and!.
Qed.

End Tester.

(** ** Examples *)

Module ProbeExamples.

Definition conn1 : UDPConn := mkUDPConn 1 51820.
Definition bind1 : SharedBind := mkSharedBind (Some conn1) None 1 false 51820 [] None ∅ 0 false false.
Definition gw : AddrPort := mkAddrPort (Addr4 167772161) 21820.
Definition addr1 (s : string) : option AddrPort := if bool_decide (s = "10.0.0.1:21820"%string) then Some gw else None.
Definition t0 : HolepunchTester := NewHolepunchTester (Some bind1) [].
Definition data1 : list Z := [1; 2; 3; 4; 5; 6; 7; 8].
#[local] Existing Instance UtilExamples.dns1.

(** The world after a successful test. *)
Definition oneTest : list action :=
  [AStart; ABegin "gw.example"; AStore 0 (Some data1); AWrite 0 NoError; ATick 5; ARespond data1; AMatch; ASend; AReceive 0].
Definition afterTest : world :=
  match run addr1 oneTest (init t0 0) with
  | Some (Ret w) => w
  | _ => init t0 0
  end.

(** A response that is handled while [Stop] is at the same request. *)
Definition race : list action :=
  [AStart; ABegin "gw.example"; AStore 0 (Some data1); AWrite 0 NoError; ARespond data1; AStop; AStopStep; AMatch; AStopStep; ASend].

(** The response and [Stop] may both hold a request: [Stop]
    closes its channel and the send on it ends the program. *)
Theorem stop_races_response : run addr1 race (init t0 0) = Some Panic.
Proof. vm_compute. reflexivity. Qed.

(** Without the overlap the test is answered or cancelled. *)
Example quiet :
  (∃ w, run addr1 oneTest (init t0 0) = Some (Ret w) ∧ w_tests w !! 0%nat = Some (TDone (mkResult true 5 "gw.example" None))) ∧
  (∃ w, run addr1 [AStart; ABegin "gw.example"; AStore 0 (Some data1); AWrite 0 NoError; AStop; AStopStep; AStopStep; AStopStep; AStopStep; AReceive 0] (init t0 0) = Some (Ret w) ∧
     w_tests w !! 0%nat = Some (TDone (mkResult false 0 "gw.example" (Some ErrCancelled))) ∧ w_stop w = None).
Proof. vm_compute. split; eexists; by repeat split. Qed.


(** A peer at 10.0.0.2 answers after seven nanoseconds. *)
Lemma probe_roundtrip_witness :
  ∃ w1 w2, run addr1 [ABegin "gw.example"; AStore 0 (Some data1); AWrite 0 NoError] (with_t (Start t0).1 (init t0 0)) = Some (Ret w1) ∧
    run addr1 [ATick 7; ARespond data1; AMatch; ASend; AReceive 0] w1 = Some (Ret w2) ∧
    w_tests w2 !! 0%nat = Some (TDone (mkResult true 7 "gw.example" None)).
Proof.
  destruct (probe_roundtrip addr1 (with_t (Start t0).1 (init t0 0)) (set_callback true bind1) bind1 conn1 conn1 "gw.example" data1
    (mkAddrPort (Addr4 167772162) 51820) gw 7) as (w1 & reply & H1 & _ & _ & _ & w2 & H2 & H3);
    [reflexivity..|lia|vm_compute; reflexivity|reflexivity|].
  exists w1, w2. split; [exact H1|]. split; [exact H2|exact H3].
Defined.

Lemma endpoint_target_witness :
  ∃ ip, zoneless ip = true ∧ SplitHostPort (endpointHost [] "gw.example") = Some (ipString ip, "21820"%string).
Proof.
  apply (@endpoint_target UtilExamples.dns1 UtilExamples.dns1_laws [] "gw.example" "gw.example" "" "10.0.0.1");
    vm_compute; reflexivity.
Defined.

Lemma cache_window_witness :
  resolveEndpoint addr1 Second "gw.example" (resolveEndpoint addr1 0 "gw.example" t0).1 =
  ((resolveEndpoint addr1 0 "gw.example" t0).1, Some gw).
Proof.
  apply (cache_window addr1 t0 "gw.example" 0 Second (resolveEndpoint addr1 0 "gw.example" t0).1 gw); [vm_compute; reflexivity..].
Defined.

Lemma bind_test_sends_witness :
  TestConnectionWithBind addr1 (Some bind1) "gw.example" (Some (mkOptions 0 (-1))) (Some data1) (λ _, (NoError, 1)) =
  (mkResult false 0 "gw.example" None, 0%nat).
Proof.
  apply (bind_test_sends addr1 bind1 conn1 gw "gw.example" (mkOptions 0 (-1)) data1 (λ _, (NoError, 1)));
    [reflexivity|reflexivity|vm_compute; reflexivity|simpl; lia].
Defined.

End ProbeExamples.
