(* ===== verification/WgTester.v ===== *)
(** * The WireGuard test server ([wgtester/wgtester.go])

    The server answers 13-byte requests on the port after WireGuard's.  Its
    loop runs in a goroutine and reads the fields of the server without the
    lock that [Start] and [Stop] take, so the model interleaves the loop with
    the operations at every access: the check of the shutdown channel, the
    deadline, the read, and the test of the channel after an error. *)

From S2P Require Import Prelude Checksum Util.

Definition magicHeader : Z := 0xDEADBEEF.
Definition packetTypeRequest : Z := 1.
Definition packetTypeResponse : Z := 2.
Definition packetSize : nat := 13.

(** ** The answer to a packet *)

(** [data] is the part of the buffer that was read. *)
Definition respond (data : list Z) : option (list Z) :=
  if Nat.ltb (length data) packetSize then None
  else if negb (be_get data 0 4 =? magicHeader) then None
  else if negb (be_get data 4 1 =? packetTypeRequest) then None
  else Some (be_bytes 4 magicHeader ++ [packetTypeResponse] ++ take 8 (drop 5 data)).

(** ** State *)

(** A connection of the host or of the netstack, by number; the channels are
    numbered too. *)
Record Server : Type := mkServer {
  ws_conn : option nat;
  ws_udpConn : option nat;
  ws_netstackConn : option nat;
  ws_serverPort : Z;
  ws_shutdownCh : nat;
  ws_isRunning : bool;
  ws_useNetstack : bool;
  ws_tnet : bool }.

Definition NewServer (serverPort : Z) (ch : nat) : Server :=
  mkServer None None None (wrap16 (serverPort + 1)) ch false false false.

Definition NewServerWithNetstack (serverPort : Z) (tnet : bool) (ch : nat) : Server :=
  mkServer None None None (wrap16 (serverPort + 1)) ch false true tnet.

(** Where a [handleConnections] goroutine is: at the check of the channel;
    before the deadline; before the read; in a read of a connection; at the
    check after an error ([eof] tells which); with an answer to send. *)
Inductive loopPC : Type :=
  | LTop | LDeadline | LRead | LReading (c : nat) | LError (eof : bool) | LReply (data : list Z) (dst : Z) | LEnded.

(** [RestartWithNetstack] after its [Stop]: configured; connections cleared;
    new channel. *)
Inductive restartPC : Type := RConfigure (tnet : bool) | RClear | RChannel | RStart.

Record world : Type := mkWorld {
  w_s : Server;
  w_closedCh : gset nat;
  w_closedConn : gset nat;
  w_loops : gmap nat loopPC;
  w_restart : option restartPC;
  w_next : nat;
  w_sent : list (nat * list Z * Z) }.

Definition init (s : Server) : world := mkWorld s ∅ ∅ ∅ None (S (ws_shutdownCh s)) [].

Definition with_s (s : Server) (w : world) : world :=
  mkWorld s (w_closedCh w) (w_closedConn w) (w_loops w) (w_restart w) (w_next w) (w_sent w).
Definition with_loop (g : nat) (pc : loopPC) (w : world) : world :=
  mkWorld (w_s w) (w_closedCh w) (w_closedConn w) (<[g := pc]> (w_loops w)) (w_restart w) (w_next w) (w_sent w).
Definition with_restart (r : option restartPC) (w : world) : world :=
  mkWorld (w_s w) (w_closedCh w) (w_closedConn w) (w_loops w) r (w_next w) (w_sent w).
Definition send (c : nat) (data : list Z) (dst : Z) (w : world) : world :=
  mkWorld (w_s w) (w_closedCh w) (w_closedConn w) (w_loops w) (w_restart w) (w_next w) (w_sent w ++ [(c, data, dst)]).

(** ** Operations *)

(** [listens] tells whether the socket could be made; [false] is an error. *)
Definition Start (listens : bool) (w : world) : world * bool :=
  let s := w_s w in
  if ws_isRunning s then (w, true)
  else if negb listens then (w, false)
  else
    let c := w_next w in
    let ns := ws_useNetstack s && ws_tnet s in
    let s' := mkServer (Some c) (if ns then ws_udpConn s else Some c) (if ns then Some c else ws_netstackConn s)
                (ws_serverPort s) (ws_shutdownCh s) true (ws_useNetstack s) (ws_tnet s) in
    (mkWorld s' (w_closedCh w) (w_closedConn w) (<[S c := LTop]> (w_loops w)) (w_restart w) (S (S c)) (w_sent w), true).

(** Closing a closed channel panics. *)
Definition Stop (w : world) : go world :=
  let s := w_s w in
  if negb (ws_isRunning s) then Ret w
  else if bool_decide (ws_shutdownCh s ∈ w_closedCh w) then Panic
  else
    let s' := mkServer (ws_conn s) (ws_udpConn s) (ws_netstackConn s) (ws_serverPort s) (ws_shutdownCh s) false (ws_useNetstack s) (ws_tnet s) in
    Ret (mkWorld s' ({[ws_shutdownCh s]} ∪ w_closedCh w)
           (match ws_conn s with Some c => {[c]} | None => ∅ end ∪ w_closedConn w) (w_loops w) (w_restart w) (w_next w) (w_sent w)).

Definition restartBegin (tnet : bool) (w : world) : go world := w' ← Stop w; Ret (with_restart (Some (RConfigure tnet)) w').

Definition restartStep (r : restartPC) (listens : bool) (w : world) : world :=
  let s := w_s w in
  match r with
  | RConfigure tnet =>
      with_restart (Some RClear)
        (with_s (mkServer (ws_conn s) (ws_udpConn s) (ws_netstackConn s) (ws_serverPort s) (ws_shutdownCh s) (ws_isRunning s) true tnet) w)
  | RClear =>
      with_restart (Some RChannel)
        (with_s (mkServer None None None (ws_serverPort s) (ws_shutdownCh s) (ws_isRunning s) (ws_useNetstack s) (ws_tnet s)) w)
  | RChannel =>
      with_restart (Some RStart)
        (mkWorld (mkServer (ws_conn s) (ws_udpConn s) (ws_netstackConn s) (ws_serverPort s) (w_next w) (ws_isRunning s) (ws_useNetstack s) (ws_tnet s))
           (w_closedCh w) (w_closedConn w) (w_loops w) (w_restart w) (S (w_next w)) (w_sent w))
  | RStart => with_restart None (Start listens w).1
  end.

(** ** The loop *)

(** What a read may return. *)
Inductive readResult : Type := RPacket (data : list Z) (from : Z) | RTimeout | RError (eof : bool).

(** The connection the loop uses: the netstack's must be there, a missing host
    socket only gives an error. *)
Definition loopConn (s : Server) : go (option nat) :=
  if ws_useNetstack s then c ← or_panic (ws_netstackConn s); Ret (Some c) else Ret (ws_udpConn s).

(** One step; [r] is what the read returns when the loop is in one.  A read of
    a closed connection only fails. *)
Definition loopStep (g : nat) (pc : loopPC) (r : readResult) (w : world) : option (go world) :=
  let s := w_s w in
  match pc with
  | LTop => Some (Ret (with_loop g (if bool_decide (ws_shutdownCh s ∈ w_closedCh w) then LEnded else LDeadline) w))
  | LDeadline =>
      Some (c ← or_panic (ws_conn s); Ret (with_loop g (if bool_decide (c ∈ w_closedConn w) then LTop else LRead) w))
  | LRead => Some (c ← loopConn s; Ret (with_loop g (match c with Some c => LReading c | None => LError false end) w))
  | LReading c =>
      match r with
      | RPacket data from =>
          if bool_decide (c ∈ w_closedConn w) then None
          else Some (Ret (with_loop g (match respond data with Some d => LReply d from | None => LTop end) w))
      | RTimeout => if bool_decide (c ∈ w_closedConn w) then None else Some (Ret (with_loop g LTop w))
      | RError eof => Some (Ret (with_loop g (LError eof) w))
      end
  | LError eof =>
      Some (Ret (with_loop g (if bool_decide (ws_shutdownCh s ∈ w_closedCh w) then LEnded else if eof then LEnded else LTop) w))
  | LReply d from =>
      Some (c ← loopConn s; Ret (with_loop g LTop (match c with Some c => send c d from w | None => w end)))
  | LEnded => None
  end.

(** ** Interleaving *)

Inductive action : Type :=
  | AStart (listens : bool) | AStop | ARestart (tnet : bool) | ARestartStep (listens : bool) | ALoop (g : nat) (r : readResult).

Definition perform (a : action) (w : world) : option (go world) :=
  match a with
  | AStart l => Some (Ret (Start l w).1)
  | AStop => Some (Stop w)
  | ARestart t => match w_restart w with None => Some (restartBegin t w) | Some _ => None end
  | ARestartStep l => match w_restart w with Some r => Some (Ret (restartStep r l w)) | None => None end
  | ALoop g r => match w_loops w !! g with Some pc => loopStep g pc r w | None => None end
  end.

Fixpoint run (l : list action) (w : world) : option (go world) :=
  match l with
  | [] => Some (Ret w)
  | a :: l' => match perform a w with Some (Ret w') => run l' w' | r => r end
  end.

(** ** The answer *)

(** A request of any length from thirteen bytes on is answered
    with the same header, the response type and the eight bytes of its
    timestamp; what is answered was such a request, and an answer is never
    answered itself. *)
Theorem echo_answer (data : list Z) :
  (∀ ts rest, data = be_bytes 4 magicHeader ++ [packetTypeRequest] ++ ts ++ rest → length ts = 8%nat →
     respond data = Some (be_bytes 4 magicHeader ++ [packetTypeResponse] ++ ts)) ∧
  (∀ r, respond data = Some r →
     length r = packetSize ∧ be_get data 0 4 = magicHeader ∧ be_get data 4 1 = packetTypeRequest ∧
     take 8 (drop 5 r) = take 8 (drop 5 data) ∧ respond r = None).
Proof.
  split.
  - intros ts rest -> Hl. unfold respond. rewrite !length_app, Hl. change (length (be_bytes 4 magicHeader)) with 4%nat.
    change (Nat.ltb (4 + (length [packetTypeRequest] + (8 + length rest))) packetSize) with false.
    change (be_bytes 4 magicHeader) with [222; 173; 190; 239]. cbn [app].
    change (be_get (222 :: 173 :: 190 :: 239 :: packetTypeRequest :: ts ++ rest) 0 4) with magicHeader.
    change (be_get (222 :: 173 :: 190 :: 239 :: packetTypeRequest :: ts ++ rest) 4 1) with packetTypeRequest.
    rewrite !Z.eqb_refl. cbn [negb drop]. rewrite drop_0, take_app_le by lia. by rewrite take_ge by lia.
  - intros r. unfold respond at 1. destruct (Nat.ltb_spec (length data) packetSize) as [|Hl]; [done|]. unfold packetSize in Hl.
    destruct (be_get data 0 4 =? magicHeader) eqn:E1; [|done]. destruct (be_get data 4 1 =? packetTypeRequest) eqn:E2; [|done].
    intros [= <-]. apply Z.eqb_eq in E1, E2. change (be_bytes 4 magicHeader) with [222; 173; 190; 239]. split_and!; [|done|done| |].
    + cbn [app length]. rewrite length_take, length_drop. unfold packetSize. lia.
    + cbn [app drop]. by rewrite drop_0, take_take.
    + unfold respond. cbn [app]. destruct (Nat.ltb _ _); [done|]. destruct (negb (be_get _ 0 4 =? magicHeader)); [done|].
      reflexivity.
Qed.

(** ** One start, one stop *)

Definition isLoop (a : action) : Prop := match a with ALoop _ _ => True | _ => False end.

(** A server as it is made, with its netstack if it is to use one. *)
Definition fresh (s : Server) : Prop :=
  ws_conn s = None ∧ ws_udpConn s = None ∧ ws_netstackConn s = None ∧ ws_isRunning s = false ∧ ws_useNetstack s = ws_tnet s.

(** The server has one connection, in use by its one goroutine. *)
Record started (s0 : Server) (stopped : bool) (w : world) (pc : loopPC) : Prop := mkStarted {
  st_conn : ws_conn (w_s w) = Some (S (ws_shutdownCh s0));
  st_loopConn : loopConn (w_s w) = Ret (Some (S (ws_shutdownCh s0)));
  st_ch : ws_shutdownCh (w_s w) = ws_shutdownCh s0;
  st_running : ws_isRunning (w_s w) = negb stopped;
  st_closedCh : w_closedCh w = if stopped then {[ws_shutdownCh s0]} else ∅;
  st_closedConn : w_closedConn w = if stopped then {[S (ws_shutdownCh s0)]} else ∅;
  st_loops : w_loops w = {[S (S (ws_shutdownCh s0)) := pc]};
  st_reading c : pc = LReading c → c = S (ws_shutdownCh s0) }.

(** How many steps a goroutine can still take once the server is stopped. *)
Definition stepsLeft (pc : loopPC) : nat :=
  match pc with LEnded => 0 | LTop | LError _ => 1 | LReading _ | LDeadline | LReply _ _ => 2 | LRead => 3 end.

Lemma started_start s : fresh s → started s false (Start true (init s)).1 LTop.
Proof.
  intros (H1 & H2 & H3 & H4 & H5). unfold Start. simpl. rewrite H4. simpl. split; simpl; try done.
  unfold loopConn. simpl. rewrite H5. by destruct (ws_tnet s).
Qed.

Lemma started_stop s w pc : started s false w pc → ∃ w', Stop w = Ret w' ∧ started s true w' pc.
Proof.
  intros []. unfold Stop. rewrite st_running0, st_closedCh0, st_ch0. simpl. rewrite bool_decide_false by set_solver.
  eexists. split; [done|]. split; simpl; try done; [set_solver|rewrite st_conn0, st_closedConn0; set_solver].
Qed.

(** A step of the goroutine keeps the shape, and uses up one of the steps that
    are left after the server stopped. *)
Lemma started_step s b w pc g r o :
  started s b w pc → perform (ALoop g r) w = Some o →
  ∃ w' pc', o = Ret w' ∧ started s b w' pc' ∧ (b = true → (stepsLeft pc' < stepsLeft pc)%nat).
Proof.
  intros Hw. pose proof Hw as []. simpl. rewrite st_loops0.
  destruct (decide (g = S (S (ws_shutdownCh s)))) as [->|]; [|by rewrite lookup_singleton_ne by done]. rewrite lookup_singleton_eq.
  assert (∀ pc', (∀ c, pc' = LReading c → c = S (ws_shutdownCh s)) → ∀ v, w_s v = w_s w → w_closedCh v = w_closedCh w →
    w_closedConn v = w_closedConn w → w_loops v = w_loops w → started s b (with_loop (S (S (ws_shutdownCh s))) pc' v) pc') as Hk.
  { intros pc' Hc v E1 E2 E3 E4. split; simpl; rewrite ?E1, ?E2, ?E3, ?E4; try done. rewrite st_loops0. apply insert_singleton_eq. }
  destruct pc as [| | |c|eof|d from|]; simpl; rewrite ?st_conn0, ?st_loopConn0; simpl; intros E.
  - injection E as <-. rewrite st_ch0, st_closedCh0. eexists _, _. split; [done|]. split; [apply Hk; try done; by case_bool_decide|].
    intros ->. rewrite bool_decide_true by set_solver. simpl. lia.
  - injection E as <-. rewrite st_closedConn0. eexists _, _. split; [done|]. split; [apply Hk; try done; by case_bool_decide|].
    intros ->. rewrite bool_decide_true by set_solver. simpl. lia.
  - injection E as <-. eexists _, _. split; [done|]. split; [apply Hk; try done; by intros ? [= <-]|]. intros _. simpl. lia.
  - specialize (st_reading0 c eq_refl) as ->. rewrite st_closedConn0 in E. destruct r as [data from| |eof].
    + case_bool_decide as Hin; [done|]. injection E as <-. eexists _, _. split; [done|].
      split; [apply Hk; try done; by destruct (respond data)|]. intros ->. set_solver.
    + case_bool_decide as Hin; [done|]. injection E as <-. eexists _, _. split; [done|]. split; [by apply Hk|]. intros ->. set_solver.
    + injection E as <-. eexists _, _. split; [done|]. split; [by apply Hk|]. intros _. simpl. lia.
  - injection E as <-. rewrite st_ch0, st_closedCh0. eexists _, _. split; [done|].
    split; [apply Hk; try done; by repeat case_match|]. intros ->. rewrite bool_decide_true by set_solver. simpl. lia.
  - injection E as <-. eexists _, _. split; [done|]. split; [by apply Hk|]. intros _. simpl. lia.
  - done.
Qed.

Lemma started_run s b l w pc :
  Forall isLoop l → started s b w pc →
  match run l w with
  | Some (Ret w') => ∃ pc', started s b w' pc' ∧ (b = true → (length l + stepsLeft pc' <= stepsLeft pc)%nat)
  | Some Panic => False
  | None => True
  end.
Proof.
  intros Hl. revert w pc. induction Hl as [|a l Ha Hl IH]; intros w pc Hw; [exists pc; split; [done|simpl; lia]|].
  destruct a as [| | | |g r]; try done. cbn [run]. destruct (perform (ALoop g r) w) as [o|] eqn:E; [|done].
  destruct (started_step _ _ _ _ _ _ _ Hw E) as (w1 & pc1 & -> & Hw1 & Hm). specialize (IH w1 pc1 Hw1).
  destruct (run l w1) as [[w'|]|]; [|done|done]. destruct IH as (pc' & ? & IH).
  exists pc'. split; [done|]. intros Hb. simpl. specialize (Hm Hb). specialize (IH Hb). lia.
Qed.

Lemma run_app l1 l2 w : run (l1 ++ l2) w = match run l1 w with Some (Ret w') => run l2 w' | r => r end.
Proof. revert w. induction l1 as [|a l1 IH]; intros w; simpl; [done|]. by destruct (perform a w) as [[w'|]|]. Qed.

(** A server that is started once and stopped once, however
    its goroutine runs in between and after, does not panic; after the stop the
    goroutine takes at most three more steps, and until it has ended it can
    always take one. *)
Theorem tester_stop_ends (s : Server) (l1 l2 : list action) :
  fresh s → Forall isLoop l1 → Forall isLoop l2 →
  let o := run (AStart true :: l1 ++ AStop :: l2) (init s) in
  o ≠ Some Panic ∧
  ∀ w, o = Some (Ret w) →
    (length l2 <= 3)%nat ∧
    ∃ g pc, w_loops w = {[g := pc]} ∧ (pc = LEnded ∨ is_Some (perform (ALoop g (RError false)) w)).
Proof.
  intros Hf H1 H2. cbn [run perform]. rewrite run_app.
  pose proof (started_run s false l1 _ LTop H1 (started_start s Hf)) as Hr1.
  destruct (run l1 _) as [[w1|]|]; [|done|done]. destruct Hr1 as (pc1 & Hw1 & _). cbn [run perform].
  destruct (started_stop _ _ _ Hw1) as (w2 & -> & Hw2).
  pose proof (started_run s true l2 w2 pc1 H2 Hw2) as Hr2. destruct (run l2 w2) as [[w3|]|]; [|done|done].
  split; [done|]. intros w [= <-]. destruct Hr2 as (pc3 & [] & Hle). specialize (Hle eq_refl).
  split; [destruct pc1; simpl in Hle; lia|]. eexists _, pc3. split; [done|]. cbn [perform]. rewrite st_loops0, lookup_singleton_eq.
  destruct pc3; [right; by eexists..|by left].
Qed.

(** The port that is found for WireGuard leaves the next one
    for the test server; only a configured port 65535 would wrap to zero. *)
Theorem tester_port (rnd : nat → nat) (canListen : Z → bool) (p : Z) (ch : nat) :
  (FindAvailableUDPPort rnd canListen 49152 65535 = Some p → ws_serverPort (NewServer p ch) = p + 1 ∧ p + 1 <= 65535) ∧
  ws_serverPort (NewServer 65535 ch) = 0.
Proof.
  split; [|done]. unfold FindAvailableUDPPort. intros [Hin%list_elem_of_In _]%find_some.
  rewrite portCandidates_elem in Hin by lia. simpl. unfold wrap16. rewrite Z.mod_small by lia. lia.
Qed.

Module WgTesterExamples.

Definition host1 : Server := NewServer 51820 0.
Definition ns1 : Server := NewServerWithNetstack 51820 true 0.
Definition request1 : list Z := [222; 173; 190; 239; 1; 0; 0; 0; 0; 0; 0; 0; 7].

Example served :
  (λ o, match o with Some (Ret w) => w_sent w | _ => [] end)
    (run [AStart true; ALoop 2 RTimeout; ALoop 2 RTimeout; ALoop 2 RTimeout; ALoop 2 (RPacket request1 9); ALoop 2 RTimeout] (init host1)) =
  [(1%nat, [222; 173; 190; 239; 2; 0; 0; 0; 0; 0; 0; 0; 7], 9)].
Proof. vm_compute. reflexivity. Qed.

(** A restart with the goroutine before its deadline: the
    connection it is about to use has been cleared. *)
Theorem restart_panics : run [AStart true; ALoop 2 RTimeout; ARestart true; ARestartStep true; ARestartStep true; ALoop 2 RTimeout] (init host1) = Some Panic.
Proof. vm_compute. reflexivity. Qed.

(** A restart while the goroutine reads: it looks at the new
    channel when its read fails, and both goroutines go on. *)
Theorem restart_keeps_loop :
  ∃ w, run [AStart true; ALoop 2 RTimeout; ALoop 2 RTimeout; ALoop 2 RTimeout; ARestart true;
            ARestartStep true; ARestartStep true; ARestartStep true; ARestartStep true; ALoop 2 (RError false)] (init host1) = Some (Ret w) ∧
    ∃ w', run [ALoop 2 RTimeout; ALoop 2 RTimeout; ALoop 2 RTimeout; ALoop 2 RTimeout] w = Some (Ret w') ∧
      w_loops w' !! 2%nat = Some (LReading 4) ∧ w_loops w' !! 5%nat = Some LTop.
Proof. eexists. split; [vm_compute; reflexivity|]. eexists. split; [vm_compute; reflexivity|]. vm_compute. by split. Qed.

(** Started again after a stop, the server has no goroutine
    that answers, and the next stop panics. *)
Theorem second_start_dead :
  run [AStart true; AStop; ALoop 2 RTimeout; AStart true; ALoop 4 RTimeout; AStop] (init host1) = Some Panic ∧
  ∃ w, run [AStart true; AStop; ALoop 2 RTimeout; AStart true; ALoop 4 RTimeout] (init host1) = Some (Ret w) ∧
    ws_isRunning (w_s w) = true ∧ w_loops w = {[2%nat := LEnded; 4%nat := LEnded]}.
Proof. split; [vm_compute; reflexivity|]. eexists. split; [vm_compute; reflexivity|]. vm_compute. by split. Qed.

Lemma tester_stop_ends_witness :
  ∃ w, run [AStart true; ALoop 2 RTimeout; AStop; ALoop 2 RTimeout; ALoop 2 RTimeout] (init ns1) = Some (Ret w) ∧ (2 <= 3)%nat.
Proof.
  eexists. split; [vm_compute; reflexivity|].
  eapply (tester_stop_ends ns1 [ALoop 2 RTimeout] [ALoop 2 RTimeout; ALoop 2 RTimeout]);
    [by repeat split|by repeat constructor..|vm_compute; reflexivity].
Defined.

End WgTesterExamples.
