(* ===== verification/WebSocket.v ===== *)
(** * The websocket client ([websocket/client.go])

    The life cycle of the connection to the server: the goroutine that
    connects with retries, the read pump that notices a dead connection and
    triggers the reconnect, the ping monitor of each connection, [Close], and
    the senders that run beside them.  Every goroutine is a small automaton
    and the client's fields are shared, so that the steps of different
    goroutines interleave as they do in the program.  What the network does
    (a dial that fails or succeeds, a read or write error, a message) chooses
    the step.

    The second part is [SendMessageInterval], the classification of errors and
    the handling of one message. *)

From S2P Require Import Prelude NetipText Keys.
From Stdlib Require Import Ascii.

(** ** Goroutines and fields *)

Inductive wsgor : Type :=
  | WTop                 (* connectWithRetry, before it looks at done *)
  | WDial                (* establishConnection *)
  | WSleep               (* waiting reconnectInterval *)
  | WCallback            (* establishConnection, running onConnect *)
  | WPump (k : nat)      (* the read pump, with its connClosed channel *)
  | WDeferred            (* the pump's deferred function, the connection closed *)
  | WDrop                (* reconnect, past the look at done *)
  | WReconnect           (* reconnect, the connection dropped *)
  | WPing (k : nat)      (* the ping monitor of that channel *)
  | WPingSend (k : nat)  (* sendPing, past its first check *)
  | WPingFail (k : nat)  (* sendPing, its write failed, the lock released *)
  | WSend                (* SendMessage, past its check *)
  | WClose.              (* Close, past its look at the connection *)

Record client : Type := mkClient {
  c_conn : option nat;          (* c.conn *)
  c_connected : bool;
  c_done : bool;                (* the done channel is closed *)
  c_failures : Z;               (* consecutiveFailures, int32 *)
  c_version : Z;                (* configVersion *)
  c_open : gset nat;            (* connections that are open *)
  c_closed : gset nat;          (* connClosed channels that are closed *)
  c_next : nat;
  c_gs : gmap nat wsgor;
}.

Definition set_gs (gs : gmap nat wsgor) (w : client) : client :=
  mkClient (c_conn w) (c_connected w) (c_done w) (c_failures w) (c_version w) (c_open w) (c_closed w) (c_next w) gs.
Definition set_failures (n : Z) (w : client) : client :=
  mkClient (c_conn w) (c_connected w) (c_done w) n (c_version w) (c_open w) (c_closed w) (c_next w) (c_gs w).
Definition set_version (v : Z) (w : client) : client :=
  mkClient (c_conn w) (c_connected w) (c_done w) (c_failures w) v (c_open w) (c_closed w) (c_next w) (c_gs w).

(** [c.conn.Close()] *)
Definition closeConn (w : client) : client :=
  mkClient (c_conn w) (c_connected w) (c_done w) (c_failures w) (c_version w)
    (match c_conn w with Some c => c_open w ∖ {[c]} | None => c_open w end) (c_closed w) (c_next w) (c_gs w).

Definition goto (g : nat) (s : wsgor) (w : client) : client := set_gs (<[g := s]> (c_gs w)) w.
Definition ends (g : nat) (w : client) : client := set_gs (delete g (c_gs w)) w.
Definition spawn (s : wsgor) (w : client) : client :=
  mkClient (c_conn w) (c_connected w) (c_done w) (c_failures w) (c_version w) (c_open w) (c_closed w)
    (S (c_next w)) (<[c_next w := s]> (c_gs w)).

(** ** Operations *)

(** The part of [establishConnection] after a successful dial. *)
Definition established (g : nat) (w : client) : client :=
  let c := c_next w in
  let k := S c in
  let w := mkClient (Some c) true (c_done w) (c_failures w) (c_version w) (c_open w ∪ {[c]}) (c_closed w)
             (S k) (c_gs w) in
  spawn (WPump k) (spawn (WPing k) (goto g WCallback w)).

(** The deferred function of the read pump, up to its look at [done]. *)
Definition pumpEnds (g k : nat) (w : client) : client :=
  let w := closeConn w in
  goto g WDeferred
    (mkClient (c_conn w) (c_connected w) (c_done w) (c_failures w) (c_version w) (c_open w)
       (c_closed w ∪ {[k]}) (c_next w) (c_gs w)).

(** [reconnect], up to its look at [done]. *)
Definition dropConn (g : nat) (w : client) : client :=
  let w := closeConn w in
  goto g WReconnect
    (mkClient None false (c_done w) (c_failures w) (c_version w) (c_open w) (c_closed w) (c_next w) (c_gs w)).

(** [Close] up to its look at the connection. *)
Definition Close (w : client) : client :=
  if c_done w then w
  else
    let w := mkClient (c_conn w) false true (c_failures w) (c_version w) (c_open w) (c_closed w) (c_next w) (c_gs w) in
    if bool_decide (c_conn w = None) then w else spawn WClose w.

Inductive wsact : Type :=
  | XTop (g : nat) | XDialFail (g : nat) | XWake (g : nat) | XDialOK (g : nat) | XCallback (g : nat)
  | XRead (g : nat) (version : Z)   (* a message that decodes *)
  | XReadEnd (g : nat)              (* a read error, or done *)
  | XDeferred (g : nat) | XDrop (g : nat) | XReconnect (g : nat)
  | XPingCheck (g : nat) | XPingWrite (g : nat) (ok : bool) | XPingFail (g : nat) | XPingEnd (g : nat)
  | XSend                           (* SendMessage is called *)
  | XSendWrite (g : nat)
  | XClose                          (* Close is called *)
  | XCloseConn (g : nat).

(** [None]: the step is not possible; [Panic]: a nil connection is used. *)
Definition wstep (a : wsact) (w : client) : option (go client) :=
  match a with
  | XTop g =>
      match c_gs w !! g with
      | Some WTop => Some (Ret (if c_done w then ends g w else goto g WDial w))
      | _ => None
      end
  | XDialFail g =>
      match c_gs w !! g with
      | Some WDial => Some (Ret (goto g WSleep (set_failures (swrap32 (c_failures w + 1)) w)))
      | _ => None
      end
  | XWake g => match c_gs w !! g with Some WSleep => Some (Ret (goto g WTop w)) | _ => None end
  | XDialOK g => match c_gs w !! g with Some WDial => Some (Ret (established g w)) | _ => None end
  | XCallback g =>
      match c_gs w !! g with Some WCallback => Some (Ret (ends g (set_failures 0 w))) | _ => None end
  | XRead g version =>
      match c_gs w !! g with
      | Some (WPump _) =>
          if c_done w then None
          else match c_conn w with
               | None => Some Panic
               | Some c => if bool_decide (c ∈ c_open w) then Some (Ret (set_version version w)) else None
               end
      | _ => None
      end
  | XReadEnd g =>
      match c_gs w !! g with
      | Some (WPump k) =>
          if negb (c_done w) && bool_decide (c_conn w = None) then Some Panic else Some (Ret (pumpEnds g k w))
      | _ => None
      end
  | XDeferred g =>
      match c_gs w !! g with
      | Some WDeferred => Some (Ret (if c_done w then ends g w else goto g WDrop w))
      | _ => None
      end
  | XDrop g => match c_gs w !! g with Some WDrop => Some (Ret (dropConn g w)) | _ => None end
  | XReconnect g =>
      match c_gs w !! g with
      | Some WReconnect => Some (Ret (if c_done w then ends g w else spawn WTop (ends g w)))
      | _ => None
      end
  | XPingCheck g =>
      match c_gs w !! g with
      | Some (WPing k) => Some (Ret (if bool_decide (c_conn w = None) then w else goto g (WPingSend k) w))
      | _ => None
      end
  | XPingWrite g ok =>
      match c_gs w !! g with
      | Some (WPingSend k) =>
          Some (Ret (goto g (if bool_decide (c_conn w = None) || ok then WPing k else WPingFail k) w))
      | _ => None
      end
  | XPingFail g =>
      match c_gs w !! g with
      | Some (WPingFail k) => Some (Ret (goto g (WPing k) (if c_done w then w else closeConn w)))
      | _ => None
      end
  | XPingEnd g =>
      match c_gs w !! g with
      | Some (WPing k) => if bool_decide (k ∈ c_closed w) || c_done w then Some (Ret (ends g w)) else None
      | _ => None
      end
  | XSend => Some (Ret (if bool_decide (c_conn w = None) then w else spawn WSend w))
  | XSendWrite g =>
      match c_gs w !! g with
      | Some WSend => Some (if bool_decide (c_conn w = None) then Panic else Ret (ends g w))
      | _ => None
      end
  | XClose => Some (Ret (Close w))
  | XCloseConn g =>
      match c_gs w !! g with
      | Some WClose => Some (if bool_decide (c_conn w = None) then Panic else Ret (ends g (closeConn w)))
      | _ => None
      end
  end.

(** A run, [None] when a step is not possible; a panic ends it. *)
Fixpoint wrun (w : client) (l : list wsact) : option (go client) :=
  match l with
  | [] => Some (Ret w)
  | a :: l' => match wstep a w with
               | Some (Ret w') => wrun w' l'
               | r => r
               end
  end.

(** A new client after [Connect]. *)
Definition connecting : client := mkClient None false false 0 0 ∅ ∅ 1 {[0%nat := WTop]}.

(** ** Invariant *)

Definition driver (s : wsgor) : bool :=
  match s with WTop | WDial | WSleep | WPump _ | WDeferred | WDrop | WReconnect => true | _ => false end.
Definition is_ping (s : wsgor) : option nat :=
  match s with WPing k | WPingSend k | WPingFail k => Some k | _ => None end.

Record client_ok (w : client) : Prop := {
  ok_one : ∀ g1 g2 s1 s2, c_gs w !! g1 = Some s1 → c_gs w !! g2 = Some s2 →
    driver s1 = true → driver s2 = true → g1 = g2;
  ok_open : ∀ c, c ∈ c_open w → c_conn w = Some c ∧ ∃ g k, c_gs w !! g = Some (WPump k);
  ok_pump : ∀ g k, c_gs w !! g = Some (WPump k) → c_conn w ≠ None ∧ k ∉ c_closed w;
  ok_ping : ∀ g s k, c_gs w !! g = Some s → is_ping s = Some k →
    k ∈ c_closed w ∨ ∃ g', c_gs w !! g' = Some (WPump k);
  ok_ping_one : ∀ g1 g2 s1 s2 k, c_gs w !! g1 = Some s1 → c_gs w !! g2 = Some s2 →
    is_ping s1 = Some k → is_ping s2 = Some k → g1 = g2;
  ok_fresh : (∀ g s, c_gs w !! g = Some s → (g < c_next w)%nat ∧
               (∀ k, s = WPump k ∨ is_ping s = Some k → (k < c_next w)%nat)) ∧
             (∀ k, k ∈ c_closed w → (k < c_next w)%nat) }.

(** ** The invariant is preserved *)

Lemma client_ok_fields w w' :
  client_ok w → c_conn w' = c_conn w → c_open w' = c_open w → c_closed w' = c_closed w →
  c_next w' = c_next w → c_gs w' = c_gs w → client_ok w'.
Proof. intros [] E1 E2 E3 E4 E5. constructor; rewrite ?E1, ?E2, ?E3, ?E4, ?E5; assumption. Qed.

Lemma ok_close w : client_ok w → client_ok (closeConn w).
Proof.
  intros [H1 H2 H3 H4 H5 H6]. constructor; simpl; try assumption.
  intros c Hc. apply H2. destruct (c_conn w); set_solver.
Qed.

(** A goroutine that is not a pump moves on. *)
Lemma ok_goto w g s s' :
  client_ok w → c_gs w !! g = Some s → (∀ k, s ≠ WPump k) → (∀ k, s' ≠ WPump k) →
  is_ping s' = is_ping s → (driver s' = true → driver s = true) → client_ok (goto g s' w).
Proof.
  intros [H1 H2 H3 H4 H5 [H6 H7]] Hg Hs Hs' Hp Hd.
  assert (∀ h x, <[g := s']> (c_gs w) !! h = Some x →
    ∃ y, c_gs w !! h = Some y ∧ is_ping x = is_ping y ∧ (driver x = true → driver y = true)) as Hback.
  { intros h x [[<- <-]|[_ Hx]]%lookup_insert_Some; eauto. }
  assert (∀ h k, <[g := s']> (c_gs w) !! h = Some (WPump k) ↔ c_gs w !! h = Some (WPump k)) as Hpump.
  { intros h k. rewrite lookup_insert_Some. split; [intros [[_ Hc]|[_ ?]]; [by apply Hs' in Hc|done]|].
    intros Hh. destruct (decide (g = h)) as [<-|]; [|auto]. rewrite Hg in Hh. simplify_eq. by edestruct Hs. }
  constructor; simpl.
  - intros g1 g2 s1 s2 (y1 & ? & _ & ?)%Hback (y2 & ? & _ & ?)%Hback ??. eauto.
  - intros c Hc. destruct (H2 c Hc) as (? & h & k & Hk). split; [done|]. exists h, k. by apply Hpump.
  - intros h k Hk%Hpump. eauto.
  - intros h x k (y & Hy & Ep & _)%Hback Hk. rewrite Ep in Hk. destruct (H4 _ _ _ Hy Hk) as [?|(g' & Hg')]; [by left|].
    right. exists g'. by apply Hpump.
  - intros g1 g2 s1 s2 k (y1 & ? & E1 & ?)%Hback (y2 & ? & E2 & ?)%Hback ??. rewrite E1, E2 in *. eauto.
  - split; [|done]. intros h x Hx. pose proof (Hback h x Hx) as (y & Hy & Ep & _). destruct (H6 _ _ Hy) as [? Hk].
    split; [done|]. intros k [->|Hpk]; [|apply Hk; right; by rewrite <- Ep].
    apply Hpump in Hx. destruct (H6 _ _ Hx) as [_ Hk']. auto.
Qed.

Lemma ok_ends w g s :
  client_ok w → c_gs w !! g = Some s → (∀ k, s ≠ WPump k) → client_ok (ends g w).
Proof.
  intros [H1 H2 H3 H4 H5 [H6 H7]] Hg Hs.
  assert (∀ h k, c_gs w !! h = Some (WPump k) → delete g (c_gs w) !! h = Some (WPump k)) as Hpump.
  { intros h k Hh. rewrite lookup_delete_ne; [done|]. intros ->. rewrite Hg in Hh. simplify_eq. by edestruct Hs. }
  constructor; simpl; setoid_rewrite lookup_delete_Some.
  - naive_solver.
  - intros c Hc. destruct (H2 c Hc) as (? & h & k & Hk). split; [done|]. exists h, k. by apply lookup_delete_Some, Hpump.
  - naive_solver.
  - intros h x k [_ Hx] Hk. destruct (H4 _ _ _ Hx Hk) as [?|(g' & Hg')]; [by left|]. right. exists g'.
    by apply lookup_delete_Some, Hpump.
  - naive_solver.
  - naive_solver.
Qed.

Lemma fresh_key w : client_ok w → c_gs w !! c_next w = None.
Proof.
  intros [_ _ _ _ _ [H6 _]]. destruct (c_gs w !! c_next w) eqn:E; [|done]. destruct (H6 _ _ E). lia.
Qed.

(** A new goroutine that is neither a pump nor a ping monitor; a driver only
    if there is none. *)
Lemma ok_spawn w s :
  client_ok w → (∀ k, s ≠ WPump k) → is_ping s = None →
  (driver s = true → ∀ g x, c_gs w !! g = Some x → driver x = false) → client_ok (spawn s w).
Proof.
  intros Hok Hs Hp Hd. pose proof (fresh_key w Hok) as Hf. destruct Hok as [H1 H2 H3 H4 H5 [H6 H7]].
  assert (∀ h k, c_gs w !! h = Some (WPump k) → <[c_next w := s]> (c_gs w) !! h = Some (WPump k)) as Hpump.
  { intros h k Hh. rewrite lookup_insert_ne; [done|]. congruence. }
  constructor; simpl.
  - intros g1 g2 s1 s2 [[<- <-]|[? ?]]%lookup_insert_Some [[<- <-]|[? ?]]%lookup_insert_Some D1 D2; [done| | |by eapply H1].
    + by erewrite Hd in D2.
    + by erewrite Hd in D1.
  - intros c Hc. destruct (H2 c Hc) as (? & h & k & Hk). split; [done|]. exists h, k. auto.
  - intros g k [[_ Hk]|[_ Hk]]%lookup_insert_Some; [by edestruct Hs|eauto].
  - intros g x k [[_ <-]|[_ Hx]]%lookup_insert_Some Hk; [congruence|].
    destruct (H4 _ _ _ Hx Hk) as [?|(g' & Hg')]; [by left|right; eauto].
  - intros g1 g2 s1 s2 k [[_ <-]|[_ Hx]]%lookup_insert_Some [[_ <-]|[_ Hy]]%lookup_insert_Some K1 K2;
      [congruence..|eauto].
  - split; [|intros k Hk; apply H7 in Hk; lia].
    intros g x [[<- <-]|[_ Hx]]%lookup_insert_Some.
    + split; [lia|]. intros k [->|?]; [by edestruct Hs|congruence].
    + destruct (H6 _ _ Hx) as [? Hk]. split; [lia|]. intros k Hk'. specialize (Hk k Hk'). lia.
Qed.

(** No driver is left beside the one that moves. *)
Lemma other_driver w g s h x :
  client_ok w → c_gs w !! g = Some s → driver s = true → h ≠ g → c_gs w !! h = Some x → driver x = false.
Proof.
  intros Hok Hg Hd Hne Hh. destruct (driver x) eqn:E; [|done]. destruct Hne. by eapply (ok_one w Hok).
Qed.

Lemma ok_established w g : client_ok w → c_gs w !! g = Some WDial → client_ok (established g w).
Proof.
  intros Hok Hg. pose proof (other_driver w g WDial) as Hod. pose proof Hok as [H1 H2 H3 H4 H5 [H6 H7]].
  assert (c_open w = ∅) as Hopen.
  { apply set_eq. intros c. split; [|set_solver]. intros Hc. destruct (H2 c Hc) as (_ & h & k & Hk).
    assert (h = g) as -> by (by eapply H1). congruence. }
  set (c := c_next w). set (k := S c).
  assert (∀ h x, c_gs (established g w) !! h = Some x →
    (h = S (S k) ∧ x = WPump k) ∨ (h = S k ∧ x = WPing k) ∨ (h = g ∧ x = WCallback) ∨ (h ≠ g ∧ c_gs w !! h = Some x)) as Hall.
  { intros h x Hx. unfold established, spawn, goto in Hx. simpl in Hx.
    apply lookup_insert_Some in Hx as [[<- <-]|[_ Hx]]; [by left|].
    apply lookup_insert_Some in Hx as [[<- <-]|[_ Hx]]; [by right; left|].
    apply lookup_insert_Some in Hx as [[<- <-]|[Hne Hx]]; [by right; right; left|]. right. right. right. done. }
  assert (∀ h k', c_gs w !! h = Some (WPump k') → False) as Hnopump.
  { intros h k' Hh. assert (h = g) as -> by (by eapply H1). congruence. }
  assert (c_gs (established g w) !! S (S k) = Some (WPump k)) as Hpump by apply lookup_insert_eq.
  assert (∀ h x, c_gs w !! h = Some x → (h < c)%nat) as Hlt by (intros h x Hx; by destruct (H6 _ _ Hx)).
  constructor.
  - intros g1 g2 s1 s2 A1 A2 D1 D2. destruct (Hall _ _ A1) as [[-> ->]|[[-> ->]|[[-> ->]|[N1 B1]]]]; try done;
      destruct (Hall _ _ A2) as [[-> ->]|[[-> ->]|[[-> ->]|[N2 B2]]]]; try done.
    + rewrite (Hod g2 s2) in D2; done.
    + rewrite (Hod g1 s1) in D1; done.
    + rewrite (Hod g1 s1) in D1; done.
  - intros x Hx. simpl in Hx. rewrite Hopen in Hx. assert (x = c) as -> by set_solver. split; [done|]. by eexists _, _.
  - intros h k' Hk. destruct (Hall _ _ Hk) as [[-> [= ->]]|[[_ ?]|[[_ ?]|[_ B]]]]; try done; [|by apply Hnopump in B].
    split; [done|]. simpl. intros Hin%H7. unfold k, c in Hin. lia.
  - intros h x k' Hx Hk. destruct (Hall _ _ Hx) as [[-> ->]|[[-> ->]|[[-> ->]|[_ B]]]]; try done.
    + injection Hk as <-. right. by eexists.
    + destruct (H4 _ _ _ B Hk) as [?|(g' & Hg')]; [by left|by apply Hnopump in Hg'].
  - intros g1 g2 s1 s2 k' A1 A2 K1 K2. destruct (Hall _ _ A1) as [[-> ->]|[[-> ->]|[[-> ->]|[N1 B1]]]]; try done;
      destruct (Hall _ _ A2) as [[-> ->]|[[-> ->]|[[-> ->]|[N2 B2]]]]; try done.
    + injection K1 as <-. destruct (H6 _ _ B2) as [_ Hk]. specialize (Hk k (or_intror K2)). unfold k, c in Hk. lia.
    + injection K2 as <-. destruct (H6 _ _ B1) as [_ Hk]. specialize (Hk k (or_intror K1)). unfold k, c in Hk. lia.
    + by eapply H5.
  - split; simpl.
    + intros h x Hx. destruct (Hall _ _ Hx) as [[-> ->]|[[-> ->]|[[-> ->]|[_ B]]]].
      * split; [unfold k, c; lia|]. intros k' [[= <-]|?]; [unfold k, c; lia|done].
      * split; [unfold k, c; lia|]. intros k' [?|[= <-]]; [done|unfold k, c; lia].
      * split; [apply Hlt in Hg; unfold k, c in *; lia|]. intros k' [?|?]; done.
      * destruct (H6 _ _ B) as [? Hk]. split; [unfold k, c; lia|]. intros k' Hk'. specialize (Hk k' Hk'). unfold k, c. lia.
    + intros k' Hk'%H7. unfold k, c. lia.
Qed.

Lemma ok_pumpEnds w g k : client_ok w → c_gs w !! g = Some (WPump k) → client_ok (pumpEnds g k w).
Proof.
  intros Hok Hg. pose proof Hok as [H1 H2 H3 H4 H5 [H6 H7]].
  assert (∀ h k', c_gs w !! h = Some (WPump k') → h = g ∧ k' = k) as Huniq.
  { intros h k' Hh. assert (h = g) as -> by (by eapply H1). split; [done|congruence]. }
  assert (∀ h x, <[g := WDeferred]> (c_gs w) !! h = Some x → (h = g ∧ x = WDeferred) ∨ (h ≠ g ∧ c_gs w !! h = Some x)) as Hall.
  { intros h x [[<- <-]|[? ?]]%lookup_insert_Some; auto. }
  constructor; unfold pumpEnds, goto; simpl.
  - intros g1 g2 s1 s2 A1 A2 D1 D2. destruct (Hall _ _ A1) as [[-> ->]|[N1 B1]], (Hall _ _ A2) as [[-> ->]|[N2 B2]]; try done;
      [symmetry|..]; by eapply H1.
  - intros c Hc. destruct (c_conn w) as [c0|] eqn:Ec.
    + assert (c ∈ c_open w ∧ c ≠ c0) as [Hin Hne] by set_solver. destruct (H2 c Hin) as [[= ->] _]. done.
    + by destruct (H2 c Hc).
  - intros h k' Hk. destruct (Hall _ _ Hk) as [[_ ?]|[N B]]; [done|]. destruct N. by apply (Huniq _ _ B).
  - intros h x k' Hx Hk. destruct (Hall _ _ Hx) as [[_ ->]|[_ B]]; [done|].
    destruct (H4 _ _ _ B Hk) as [?|(g' & Hg')]; [set_solver|]. destruct (Huniq _ _ Hg') as [_ ->]. set_solver.
  - intros g1 g2 s1 s2 k' A1 A2 K1 K2. destruct (Hall _ _ A1) as [[-> ->]|[N1 B1]], (Hall _ _ A2) as [[-> ->]|[N2 B2]]; try done.
    by eapply H5.
  - split.
    + intros h x Hx. destruct (Hall _ _ Hx) as [[-> ->]|[_ B]]; [|by apply H6].
      split; [by destruct (H6 _ _ Hg)|]. intros k' [?|?]; done.
    + intros k' [Hk'| ->%elem_of_singleton]%elem_of_union; [auto|]. destruct (H6 _ _ Hg) as [_ Hk]. auto.
Qed.

Lemma ok_dropConn w g : client_ok w → c_gs w !! g = Some WDrop → client_ok (dropConn g w).
Proof.
  intros Hok Hg. pose proof (ok_goto _ g WDrop WReconnect Hok Hg) as Hgo.
  destruct Hgo as [H1 H2 H3 H4 H5 H6]; try done.
  assert (∀ h k, <[g := WReconnect]> (c_gs w) !! h = Some (WPump k) → False) as Hno.
  { intros h k [[_ ?]|[Hne Hh]]%lookup_insert_Some; [done|]. apply Hne. by eapply (ok_one w Hok). }
  constructor; unfold dropConn, goto; simpl; try assumption.
  - intros c Hc. assert (c ∈ c_open w) as Hin by (destruct (c_conn w); set_solver).
    destruct (H2 c Hin) as (_ & h & k & Hk). by apply Hno in Hk.
  - intros h k Hk. by apply Hno in Hk.
Qed.

(** Every step keeps the invariant and none of the pump's steps panics. *)
Lemma step_ok w a w' : client_ok w → wstep a w = Some (Ret w') → client_ok w'.
Proof.
  intros Hok Hs. assert (∀ n, client_ok (set_failures n w)) as Hf by (intros n; by apply (client_ok_fields w)).
  assert (∀ n, client_ok (set_version n w)) as Hv by (intros n; by apply (client_ok_fields w)).
  destruct a as [g|g|g|g|g|g v|g|g|g|g|g|g ok|g|g| |g| |g]; simpl in Hs; try (destruct (c_gs w !! g) as [s|] eqn:Eg; [|done]; destruct s; try done).
  - destruct (c_done w); simplify_eq; [by eapply ok_ends|by eapply ok_goto].
  - simplify_eq. by eapply (ok_goto _ g WDial).
  - simplify_eq. by eapply ok_goto.
  - simplify_eq. by apply ok_established.
  - simplify_eq. by eapply (ok_ends _ g WCallback).
  - destruct (c_done w); [done|]. destruct (c_conn w); [|done]. case_bool_decide; [|done]. by simplify_eq.
  - destruct (negb _ && _); [done|]. simplify_eq. by apply ok_pumpEnds.
  - destruct (c_done w); simplify_eq; [by eapply ok_ends|by eapply ok_goto].
  - simplify_eq. by apply ok_dropConn.
  - destruct (c_done w); simplify_eq; [by eapply ok_ends|]. apply ok_spawn; [by eapply ok_ends|done..|].
    intros _ h x. simpl. intros [Hne Hx]%lookup_delete_Some. by eapply (other_driver w g WReconnect).
  - case_bool_decide; simplify_eq; [done|]. by eapply ok_goto.
  - simplify_eq. destruct (_ || _); by eapply (ok_goto w g (WPingSend k)).
  - simplify_eq. eapply (ok_goto _ g (WPingFail k)); [destruct (c_done w); [done|by apply ok_close]|by destruct (c_done w)|done..].
  - destruct (_ || _); simplify_eq. by eapply ok_ends.
  - case_bool_decide; simplify_eq; [done|]. by apply ok_spawn.
  - case_bool_decide; simplify_eq. by eapply ok_ends.
  - simplify_eq. unfold Close. destruct (c_done w); [done|]. simpl. case_bool_decide; [by apply (client_ok_fields w)|].
    apply ok_spawn; [by apply (client_ok_fields w)|done..].
  - case_bool_decide; simplify_eq. by eapply (ok_ends (closeConn w)); [apply ok_close|..].
Qed.

Lemma connecting_ok : client_ok connecting.
Proof.
  constructor; simpl; try set_solver.
  - intros g1 g2 s1 s2 [<- _]%lookup_singleton_Some [<- _]%lookup_singleton_Some. done.
  - intros g k [_ ?]%lookup_singleton_Some. done.
  - intros g s k [_ <-]%lookup_singleton_Some. done.
  - intros g1 g2 s1 s2 k [<- _]%lookup_singleton_Some [<- _]%lookup_singleton_Some. done.
  - split; [|set_solver]. intros g s [<- <-]%lookup_singleton_Some. split; [lia|]. intros k [?|?]; done.
Qed.

Lemma run_ok l w w' : client_ok w → wrun w l = Some (Ret w') → client_ok w'.
Proof.
  revert w. induction l as [|a l IH]; intros w Hok; simpl; [by intros [= <-]|].
  destruct (wstep a w) as [[w1|]|] eqn:E; [|done..]. eauto using step_ok.
Qed.

(** ** After [Close] *)

(** The steps a goroutine may still take once [done] is closed. *)
Definition weight (s : wsgor) : Z :=
  match s with WDial => 5 | WSleep | WPump _ | WDrop => 2 | _ => 1 end.
Definition remaining (w : client) : Z := zsum (λ kv, weight kv.2) (map_to_list (c_gs w)).

Lemma weight_pos s : 1 <= weight s.
Proof. destruct s; simpl; lia. Qed.

Lemma total_insert_new (m : gmap nat wsgor) g s :
  m !! g = None →
  zsum (λ kv, weight kv.2) (map_to_list (<[g := s]> m)) = weight s + zsum (λ kv, weight kv.2) (map_to_list m).
Proof. intros Hg. rewrite map_to_list_insert by done. by autorewrite with newt. Qed.

Lemma total_delete (m : gmap nat wsgor) g s :
  m !! g = Some s →
  zsum (λ kv, weight kv.2) (map_to_list (delete g m)) = zsum (λ kv, weight kv.2) (map_to_list m) - weight s.
Proof. intros Hg. rewrite <- (map_to_list_delete m g s Hg). autorewrite with newt. simpl. lia. Qed.

Lemma total_insert (m : gmap nat wsgor) g s s' :
  m !! g = Some s →
  zsum (λ kv, weight kv.2) (map_to_list (<[g := s']> m)) = zsum (λ kv, weight kv.2) (map_to_list m) - weight s + weight s'.
Proof.
  intros Hg. rewrite <- insert_delete_eq, total_insert_new by apply lookup_delete_eq.
  rewrite (total_delete m g s Hg). lia.
Qed.

(** Calls of [SendMessage] and the ping monitor's tries are not counted: they
    may go on until the monitor sees [done]. *)
Definition is_send (a : wsact) : bool := match a with XSend | XSendWrite _ => true | _ => false end.
Definition counts (a : wsact) : bool :=
  match a with XPingCheck _ | XPingWrite _ _ | XPingFail _ | XClose => false | _ => true end.

Lemma remaining_established g w :
  client_ok w → c_gs w !! g = Some WDial → remaining (established g w) = remaining w - 1.
Proof.
  intros Hok Hg. assert (∀ h, (c_next w <= h)%nat → c_gs w !! h = None) as Hf.
  { intros h Hh. destruct (c_gs w !! h) eqn:E; [|done]. destruct Hok as [_ _ _ _ _ [H6 _]]. destruct (H6 _ _ E). lia. }
  assert (g < c_next w)%nat as Hlt by (destruct Hok as [_ _ _ _ _ [H6 _]]; by destruct (H6 _ _ Hg)).
  unfold remaining, established, spawn, goto, set_gs. simpl.
  rewrite total_insert_new by (rewrite !lookup_insert_ne by lia; apply Hf; lia).
  rewrite total_insert_new by (rewrite !lookup_insert_ne by lia; apply Hf; lia).
  rewrite (total_insert _ _ _ _ Hg). simpl. lia.
Qed.

Lemma step_after_close w a w' :
  client_ok w → c_done w = true → is_send a = false → wstep a w = Some (Ret w') →
  c_done w' = true ∧ remaining w' + (if counts a then 1 else 0) <= remaining w.
Proof.
  intros Hok Hd Hns Hs. unfold remaining.
  destruct a as [g|g|g|g|g|g v|g|g|g|g|g|g ok|g|g| |g| |g]; try done; simpl in Hs;
    try (destruct (c_gs w !! g) as [s|] eqn:Eg; [|done]; destruct s; try done); rewrite ?Hd in Hs; simpl in Hs;
    try (injection Hs as <-); simpl;
    try (rewrite (total_delete _ _ _ Eg); simpl; (split; [done|lia]));
    try (rewrite (total_insert _ _ _ _ Eg); simpl; (split; [done|lia])).
  - split; [done|]. pose proof (remaining_established g w Hok Eg) as Hr. unfold remaining in Hr. simpl in Hr.
    simpl. lia.
  - done.
  - case_bool_decide; simpl; (split; [done|]); [lia|]. rewrite (total_insert _ _ _ _ Eg). simpl. lia.
  - rewrite (total_insert _ _ _ _ Eg). split; [done|]. destruct (_ || _); simpl; lia.
  - rewrite orb_true_r in Hs. injection Hs as <-. simpl. rewrite (total_delete _ _ _ Eg). simpl. split; [done|lia].
  - unfold Close. rewrite Hd. split; [done|lia].
  - case_bool_decide; [done|]. injection Hs as <-. simpl. rewrite (total_delete _ _ _ Eg). simpl. split; [done|lia].
Qed.

(** ** Properties of the life cycle *)

(** C17: reconnecting is single-threaded.  After one Connect, in every
    interleaving of the goroutines, sends and Close: at most one goroutine is
    connecting, reading or reconnecting; a connection that is open is the
    client's current one and has its read pump; the ping monitors that have
    not been told to stop are at most one, that of the live pump, so
    reconnects leak none; and the read pump never uses a nil connection. *)
Theorem single_reconnect l w :
  wrun connecting l = Some (Ret w) →
  (∀ g1 g2 s1 s2, c_gs w !! g1 = Some s1 → c_gs w !! g2 = Some s2 → driver s1 = true → driver s2 = true → g1 = g2) ∧
  (∀ c, c ∈ c_open w → c_conn w = Some c ∧ ∃ g k, c_gs w !! g = Some (WPump k)) ∧
  (∀ g1 g2 s1 s2 k1 k2, c_gs w !! g1 = Some s1 → c_gs w !! g2 = Some s2 →
     is_ping s1 = Some k1 → is_ping s2 = Some k2 → k1 ∉ c_closed w → k2 ∉ c_closed w →
     g1 = g2 ∧ ∃ g, c_gs w !! g = Some (WPump k1)) ∧
  (∀ g v, wstep (XRead g v) w ≠ Some Panic ∧ wstep (XReadEnd g) w ≠ Some Panic).
Proof.
  intros Hrun. pose proof (run_ok l connecting w connecting_ok Hrun) as [H1 H2 H3 H4 H5 H6]. split_and!; [done|done|..].
  - intros g1 g2 s1 s2 k1 k2 A1 A2 P1 P2 N1 N2. destruct (H4 _ _ _ A1 P1) as [?|(p1 & Hp1)]; [done|].
    destruct (H4 _ _ _ A2 P2) as [?|(p2 & Hp2)]; [done|]. assert (p1 = p2) as <- by (by eapply H1).
    assert (k1 = k2) as <- by congruence. split; [by eapply H5|by eexists].
  - intros g v. simpl. destruct (c_gs w !! g) as [s|] eqn:Eg; [|done]. destruct s; try done.
    destruct (H3 _ _ Eg) as [Hc _]. destruct (c_conn w); [|done]. split; [destruct (c_done w); [done|by case_bool_decide]|].
    rewrite bool_decide_false by done. by rewrite andb_false_r.
Qed.

(** C18: closing the client terminates.  Once done is closed the goroutines
    take boundedly many more steps (pings apart), however they interleave,
    none of them starts another connection attempt, and when the last one
    that connects or reads has returned no connection is left open, also when
    a dial was in flight during Close. *)
Theorem close_terminates l w l' w' :
  wrun connecting l = Some (Ret w) → c_done w = true →
  Forall (λ a, is_send a = false) l' → wrun w l' = Some (Ret w') →
  Z.of_nat (length (filter (λ a, counts a = true) l')) + remaining w' <= remaining w ∧ c_done w' = true ∧
  ((∀ g s, c_gs w' !! g = Some s → driver s = false) → c_open w' = ∅).
Proof.
  intros Hrun Hd Hns Hrun'. pose proof (run_ok l connecting w connecting_ok Hrun) as Hok. clear Hrun.
  assert (client_ok w') as Hok' by (by eapply run_ok).
  assert (Z.of_nat (length (filter (λ a, counts a = true) l')) + remaining w' <= remaining w ∧ c_done w' = true) as [Hle Hd'].
  { clear Hok'. revert w Hok Hd Hrun'. induction Hns as [|a l' Ha _ IH]; intros w Hok Hd; simpl.
    - intros [= <-]. split; [lia|done].
    - destruct (wstep a w) as [[w1|]|] eqn:E; [|done..]. intros Hrun.
      destruct (step_after_close w a w1 Hok Hd Ha E) as [Hd1 Hle1].
      destruct (IH w1 (step_ok _ _ _ Hok E) Hd1 Hrun) as [Hle2 Hd2]. split; [|done].
      rewrite filter_cons. destruct (counts a); simpl in *; lia. }
  split_and!; [done..|]. intros Hnd. apply set_eq. intros c. split; [|set_solver]. intros Hc.
  destruct (ok_open w' Hok' c Hc) as (_ & g & k & Hg). by apply Hnd in Hg.
Qed.

(** A nil connection is used in two places only.  SendMessage looks at the
    connection before it takes the write lock, and so does Close before it
    sends its close frame; a reconnect in between clears it: there are runs in
    which each of them panics.  No other step does: no run without the second
    half of a send or of Close panics. *)
Theorem nil_connection_panics :
  wrun connecting [XTop 0; XDialOK 0; XSend; XReadEnd 4; XDeferred 4; XDrop 4; XSendWrite 5] = Some Panic ∧
  wrun connecting [XTop 0; XDialOK 0; XReadEnd 4; XDeferred 4; XClose; XDrop 4; XCloseConn 5] = Some Panic ∧
  ∀ l, Forall (λ a, match a with XSendWrite _ | XCloseConn _ => False | _ => True end) l → wrun connecting l ≠ Some Panic.
Proof.
  split; [by vm_compute|]. split; [by vm_compute|]. assert (∀ l w, client_ok w →
    Forall (λ a, match a with XSendWrite _ | XCloseConn _ => False | _ => True end) l → wrun w l ≠ Some Panic) as Hgen.
  { induction l as [|a l IH]; intros w Hok Hl; [done|]. apply Forall_cons in Hl as [Ha Hl]. simpl.
    destruct (wstep a w) as [[w1|]|] eqn:E; [eauto using step_ok| |done]. exfalso.
    destruct a as [g|g|g|g|g|g v|g|g|g|g|g|g ok|g|g| |g| |g]; try done; simpl in E;
      try (destruct (c_gs w !! g) as [s|] eqn:Eg; [|done]; destruct s; try done);
      try (by destruct (c_done w)); try (by case_bool_decide).
    - destruct (ok_pump w Hok _ _ Eg) as [Hc _]. destruct (c_done w); [done|]. destruct (c_conn w); [|done]. by case_bool_decide.
    - destruct (ok_pump w Hok _ _ Eg) as [Hc _]. rewrite (bool_decide_false (c_conn w = None)) in E by done.
      by rewrite andb_false_r in E.
    - by destruct (_ || _). }
  intros l. apply Hgen, connecting_ok.
Qed.

(** ** [SendMessageInterval] *)

Definition maxAttempts : nat := 16.
#[local] Arguments Nat.leb : simpl never.

Inductive ivEnd : Type := TimedOut | Stopped.

(** [iv_sent] counts every message the connection took. *)
Record ivState : Type := mkIv { iv_count : nat; iv_sent : nat; iv_end : option ivEnd }.

(** What the select receives: a tick, with whether the client is connected and
    whether the send returns no error; or the closed stop channel. *)
Inductive ivEvent : Type := IvTick (connected ok : bool) | IvStop.

Definition ivSend (connected ok : bool) (st : ivState) : ivState :=
  mkIv (if ok && connected then S (iv_count st) else iv_count st)
       (if ok then S (iv_sent st) else iv_sent st) (iv_end st).

Definition ivStart (connected ok : bool) : ivState := ivSend connected ok (mkIv 0 0 None).

Definition ivStep (st : ivState) (e : ivEvent) : ivState :=
  match iv_end st with
  | Some _ => st
  | None =>
      match e with
      | IvStop => mkIv (iv_count st) (iv_sent st) (Some Stopped)
      | IvTick connected ok =>
          if Nat.leb maxAttempts (iv_count st) then mkIv (iv_count st) (iv_sent st) (Some TimedOut)
          else ivSend connected ok st
      end
  end.

Definition SendMessageInterval (connected ok : bool) (evs : list ivEvent) : ivState :=
  foldl ivStep (ivStart connected ok) evs.

(** The function it returns: a second call closes a closed channel. *)
Definition stopInterval (alreadyStopped : bool) : go bool := if alreadyStopped then Panic else Ret true.

(** A tick that counts as an attempt. *)
Definition delivered (e : ivEvent) : bool := match e with IvTick true true => true | _ => false end.

Lemma iv_count_spec evs st :
  (iv_count st <= maxAttempts)%nat →
  let st' := foldl ivStep st evs in
  (iv_count st' <= maxAttempts)%nat ∧ (iv_count st <= iv_count st')%nat ∧
  (iv_end st' = None → (iv_count st' = iv_count st + length (filter (λ e, delivered e = true) evs))%nat ∧ iv_end st = None).
Proof.
  revert st. induction evs as [|e evs IH]; intros st Hle; cbn zeta; [simpl; naive_solver lia|].
  assert (iv_count (ivStep st e) <= maxAttempts ∧ iv_count st <= iv_count (ivStep st e))%nat as [Hle' Hmono].
  { unfold ivStep, ivSend. destruct (iv_end st); [lia|]. destruct e as [[] []|]; simpl; [..|lia];
      destruct (Nat.leb_spec maxAttempts (iv_count st)); simpl; lia. }
  destruct (IH _ Hle') as (H1 & H2 & H3). simpl. split_and!; [done|lia|]. intros Hend. destruct (H3 Hend) as [H4 H5].
  revert H4. generalize (iv_count (foldl ivStep (ivStep st e) evs)). intros n H4. clear IH H1 H2 H3 Hend Hle' Hmono.
  unfold ivStep, ivSend in H4, H5. destruct (iv_end st) eqn:Est; [congruence|]. split; [|done].
  rewrite filter_cons. destruct e as [[] []|]; simpl in *; try done;
    destruct (Nat.leb_spec maxAttempts (iv_count st)); simpl in *; try done; lia.
Qed.

(** SendMessageInterval ends by itself, but only against a live server.
    Whatever happens, at most sixteen messages are counted as attempts; once
    more than that many ticks delivered a message while connected, the loop
    has ended; a stop signal ends it at once and nothing is sent afterwards;
    and while no send succeeds on a live connection and nobody stops it, it
    goes on for any number of ticks. *)
Theorem interval_send_ends connected ok evs :
  let st := SendMessageInterval connected ok evs in
  (iv_count st <= maxAttempts)%nat ∧
  ((maxAttempts < length (filter (λ e, delivered e = true) evs))%nat → iv_end st ≠ None) ∧
  (∀ evs', iv_end st ≠ None → SendMessageInterval connected ok (evs ++ evs') = st) ∧
  (iv_end (ivStep st IvStop) ≠ None ∧ iv_sent (ivStep st IvStop) = iv_sent st) ∧
  (connected && ok = false → Forall (λ e, delivered e = false ∧ e ≠ IvStop) evs → iv_end st = None).
Proof.
  cbn zeta. unfold SendMessageInterval.
  assert (iv_count (ivStart connected ok) <= maxAttempts)%nat as Hst by (destruct connected, ok; simpl; unfold maxAttempts; lia).
  destruct (iv_count_spec evs _ Hst) as (H1 & H2 & H3). split_and!.
  - done.
  - intros Hlt Hnone. destruct (H3 Hnone) as [H4 _]. lia.
  - intros evs' Hend. rewrite foldl_app. induction evs' as [|e evs' IH]; [done|]. simpl.
    unfold ivStep at 2. destruct (iv_end (foldl ivStep (ivStart connected ok) evs)); [exact IH|done].
  - unfold ivStep at 1. by destruct (iv_end _) eqn:E; simpl; rewrite ?E.
  - unfold ivStep at 1. by destruct (iv_end _).
  - intros Hco Hall. destruct (decide (iv_end (foldl ivStep (ivStart connected ok) evs) = None)) as [|Hn]; [done|].
    exfalso. apply Hn. clear Hn H1 H2 H3.
    assert (∀ st, iv_count st = 0%nat → iv_end st = None → iv_end (foldl ivStep st evs) = None) as Hgen.
    { induction Hall as [|e l [Hd Hs] _ IH]; intros st Hc He; [done|]. simpl.
      assert (iv_count (ivStep st e) = 0%nat ∧ iv_end (ivStep st e) = None) as [??]; [|by apply IH].
      unfold ivStep. rewrite He. destruct e as [[] []|]; try done; rewrite Hc; done. }
    apply Hgen; by destruct connected, ok.
Qed.

(** ** Examples *)

Module WebSocketExamples.

(** Connect, a failed dial, a retry that succeeds, a ping, the connection dies
    and is replaced. *)
Definition life : list wsact :=
  [XTop 0; XDialFail 0; XWake 0; XTop 0; XDialOK 0; XCallback 0; XPingCheck 3; XPingWrite 3 false;
   XReadEnd 4; XDeferred 4; XDrop 4; XReconnect 4; XTop 5; XDialOK 5].

Definition second : client :=
  mkClient (Some 6%nat) true false 0 0 {[6%nat]} {[2%nat]} 10
    (<[3%nat := WPingFail 2]> (<[5%nat := WCallback]> (<[8%nat := WPing 7]> {[9%nat := WPump 7]}))).

Lemma single_reconnect_witness :
  wrun connecting life = Some (Ret second) ∧
  (∀ g1 g2 s1 s2, c_gs second !! g1 = Some s1 → c_gs second !! g2 = Some s2 →
     driver s1 = true → driver s2 = true → g1 = g2).
Proof.
  assert (wrun connecting life = Some (Ret second)) as Hrun by (vm_compute; reflexivity).
  split; [exact Hrun|]. exact (proj1 (single_reconnect life second Hrun)).
Defined.

(** The failed ping of the old connection closes the new one: it looks at the
    current connection when it gets the lock again. *)
Example stale_ping_closes_new :
  match wrun second [XPingFail 3] with
  | Some (Ret w) => c_conn w = Some 6%nat ∧ c_open w = ∅
  | _ => False
  end.
Proof. vm_compute. auto. Qed.

(** [Close] while a dial is in flight: the connection it makes is closed. *)
Definition dialing : client := mkClient None false true 0 0 ∅ ∅ 1 {[0%nat := WDial]}.
Definition drain : list wsact := [XDialOK 0; XCallback 0; XPingEnd 3; XReadEnd 4; XDeferred 4].
Definition drained : client := mkClient (Some 1%nat) true true 0 0 ∅ {[2%nat]} 5 ∅.

Lemma close_terminates_witness :
  wrun connecting [XTop 0; XClose] = Some (Ret dialing) ∧ wrun dialing drain = Some (Ret drained) ∧
  Z.of_nat (length (filter (λ a, counts a = true) drain)) + remaining drained <= remaining dialing ∧
  c_open drained = ∅.
Proof.
  assert (wrun connecting [XTop 0; XClose] = Some (Ret dialing)) as H1 by (vm_compute; reflexivity).
  assert (wrun dialing drain = Some (Ret drained)) as H2 by (vm_compute; reflexivity).
  assert (Forall (λ a, is_send a = false) drain) as H3 by (unfold drain; repeat constructor).
  split_and!; [exact H1|exact H2|..]; apply (close_terminates _ _ _ _ H1 eq_refl H3 H2).
  intros g s Hg. discriminate Hg.
Defined.

End WebSocketExamples.
