(* ===== verification/WsConfig.v ===== *)
(** * The websocket client's configuration and credentials
      ([websocket/config.go], [websocket/types.go] and the set-up part of
      [websocket/client.go])

    Construction of the client, the configuration file, the exchange of a
    provisioning key for credentials, the choice of TLS material, the token
    request and the classification of connection errors.  The file system and
    HTTP are outcomes; a JSON object is the map from its keys to its values,
    [decode] being the JSON decoder of the standard library applied to the
    text of a file. *)

From S2P Require Import Prelude NetipText Keys ExitNode.
From Stdlib Require Import Ascii.

(** ** Texts *)

(** [strings.Contains] *)
Fixpoint contains (sub s : list ascii) : bool :=
  bool_decide (is_Some (trimPrefix sub s)) || match s with [] => false | _ :: s' => contains sub s' end.

(** [strings.ToLower] on the ASCII letters. *)
Definition lowerChar (c : ascii) : ascii :=
  if (65 <=? code c) && (code c <=? 90) then ch (code c + 32) else c.
Definition ToLower (s : string) : list ascii := map lowerChar (str s).

(** [os.Getenv("X")] where unset reads as the empty string. *)
Definition Env : Type := string → string.

(** [filepath.Join] of elements that hold no [.] or [..] and no doubled slash:
    empty elements are skipped. *)
Definition filepathJoin (elems : list string) : string :=
  match filter (λ e, e ≠ ""%string) elems with
  | [] => ""
  | e :: es => foldl (λ acc x, acc +:+ "/" +:+ x) e es
  end%string.

(** [interpolateString]: a token is [{{], one or more characters other than a
    closing brace, and [}}]. *)
Definition closeBrace : ascii := "}"%char.

Fixpoint spanNot (c : ascii) (s : list ascii) : list ascii * list ascii :=
  match s with
  | [] => ([], [])
  | x :: s' => if Ascii.eqb x c then ([], s) else let '(a, b) := spanNot c s' in (x :: a, b)
  end.

Definition matchToken (s : list ascii) : option (list ascii * list ascii) :=
  r ← trimPrefix (str "{{") s;
  let '(inner, rest) := spanNot closeBrace r in
  if Nat.eqb (length inner) 0 then None
  else rest' ← trimPrefix (str "}}") rest; Some (inner, rest').

(** Each iteration consumes a character at least: the length is enough fuel. *)
Fixpoint interpolate (env : Env) (fuel : nat) (s : list ascii) : list ascii :=
  match fuel, s with
  | O, _ => s
  | _, [] => []
  | S fuel', c :: s' =>
      match matchToken s with
      | Some (inner, rest) =>
          (match trimPrefix (str "env.") (TrimSpace inner) with
           | Some varName => str (env (unstr varName))
           | None => str "{{" ++ inner ++ str "}}"
           end) ++ interpolate env fuel' rest
      | None => c :: interpolate env fuel' s'
      end
  end.

Definition interpolateString (env : Env) (s : string) : string :=
  unstr (interpolate env (length (str s)) (str s)).

Example interpolate_examples :
  let env := λ v, if bool_decide (v = "HOST"%string) then "h1"%string else ""%string in
  interpolateString env "site-{{env.HOST}}" = "site-h1"%string ∧
  interpolateString env "{{ env.HOST }}{{x}}{{env.NONE}}" = "h1{{x}}"%string ∧
  interpolateString env "{{}}{{{env.HOST}}" = "{{}}{{{env.HOST}}"%string.
Proof. vm_compute. auto. Qed.

(** ** Data *)

Record Config : Type := mkConfig {
  cfg_ID : string;
  cfg_Secret : string;
  cfg_Endpoint : string;
  cfg_TlsClientCert : string;
  cfg_ProvisioningKey : string;
  cfg_Name : string;
  cfg_Blocked : bool;
}.

Record TLSConfig : Type := mkTLS {
  tls_ClientCertFile : string;
  tls_ClientKeyFile : string;
  tls_CAFiles : list string;
  tls_PKCS12File : string;
}.

(** The values of a JSON object; numbers other than integers, other arrays and
    nested objects are kept as their text. *)
Inductive json : Type :=
  | JNull | JBool (b : bool) | JInt (z : Z) | JStr (s : string) | JStrs (l : list string) | JOther (raw : string).
#[global] Instance json_eq_dec : EqDecision json.
Proof. solve_decision. Defined.

(** The client's configuration part. *)
Record wsClient : Type := mkWsClient {
  wc_config : Config;
  wc_baseURL : string;
  wc_configFile : string;
  wc_tls : TLSConfig;
  wc_pongWait : Z;
  wc_needsSave : bool;
  wc_justProvisioned : bool;
  wc_serverVersion : string;
}.

Definition set_cfg (c : Config) (w : wsClient) : wsClient :=
  mkWsClient c (wc_baseURL w) (wc_configFile w) (wc_tls w) (wc_pongWait w) (wc_needsSave w) (wc_justProvisioned w) (wc_serverVersion w).
Definition set_save (b : bool) (w : wsClient) : wsClient :=
  mkWsClient (wc_config w) (wc_baseURL w) (wc_configFile w) (wc_tls w) (wc_pongWait w) b (wc_justProvisioned w) (wc_serverVersion w).
Definition set_provisioned (b : bool) (w : wsClient) : wsClient :=
  mkWsClient (wc_config w) (wc_baseURL w) (wc_configFile w) (wc_tls w) (wc_pongWait w) (wc_needsSave w) b (wc_serverVersion w).
Definition set_serverVersion (v : string) (w : wsClient) : wsClient :=
  mkWsClient (wc_config w) (wc_baseURL w) (wc_configFile w) (wc_tls w) (wc_pongWait w) (wc_needsSave w) (wc_justProvisioned w) v.

(** What reading the configuration file gives. *)
Inductive fileRead : Type := FileMissing | FileError | FileData (data : list ascii).

(** ** Construction *)

(** [getConfigPath] on Linux; the directory is created as a side effect. *)
Definition getConfigPath (env : Env) (clientType overridePath : string) : string :=
  if negb (bool_decide (overridePath = "")) then overridePath
  else if negb (bool_decide (env "CONFIG_FILE"%string = "")) then env "CONFIG_FILE"%string
  else filepathJoin [env "HOME"%string; ".config"; clientType +:+ "-client"; "config.json"].

Inductive ClientOption : Type :=
  | WithBaseURL (url : string) | WithConfigFile (path : string) | WithTLSConfig (c : TLSConfig).

Definition applyOption (w : wsClient) (o : ClientOption) : wsClient :=
  match o with
  | WithBaseURL url =>
      mkWsClient (wc_config w) url (wc_configFile w) (wc_tls w) (wc_pongWait w) (wc_needsSave w) (wc_justProvisioned w) (wc_serverVersion w)
  | WithConfigFile path =>
      mkWsClient (wc_config w) (wc_baseURL w) path (wc_tls w) (wc_pongWait w) (wc_needsSave w) (wc_justProvisioned w) (wc_serverVersion w)
  | WithTLSConfig c =>
      let cfg := wc_config w in
      let cfg := if bool_decide (tls_PKCS12File c = "") then cfg
                 else mkConfig (cfg_ID cfg) (cfg_Secret cfg) (cfg_Endpoint cfg) (tls_PKCS12File c)
                        (cfg_ProvisioningKey cfg) (cfg_Name cfg) (cfg_Blocked cfg) in
      mkWsClient cfg (wc_baseURL w) (wc_configFile w) c (wc_pongWait w) (wc_needsSave w) (wc_justProvisioned w) (wc_serverVersion w)
  end.

(** The read deadline window. *)
Definition pongWaitOf (pingInterval : Z) : Z :=
  let pongWait := swrap64 (pingInterval * 2) in
  if pongWait <? 20 * Second then 20 * Second else pongWait.

(** [loadConfig]; [None] is its error. *)
Definition loadConfig (file : fileRead) (w : wsClient) : option wsClient :=
  match file with
  | FileMissing => Some (set_save true w)
  | FileError => None
  | FileData data => Some (if Nat.eqb (length (TrimSpace data)) 0 then set_save true w else w)
  end.

Definition NewClient (ID secret endpoint : string) (pingInterval : Z) (opts : list (option ClientOption)) (file : fileRead)
    : option wsClient :=
  let client := mkWsClient (mkConfig ID secret endpoint "" "" "" false) endpoint "" (mkTLS "" "" [] "")
                  (pongWaitOf pingInterval) false false "" in
  loadConfig file (foldl (λ w opt, match opt with Some o => applyOption w o | None => w end) client opts).

(** ** Saving *)

Section save.
Context (decode : list ascii → option (gmap string json)).

Definition setOrDelete (key value : string) (m : gmap string json) : gmap string json :=
  if bool_decide (value = "") then delete key m else <[key := JStr value]> m.

(** The object written over the existing one. *)
Definition mergeConfig (c : Config) (existing : gmap string json) : gmap string json :=
  let m := <["endpoint"%string := JStr (cfg_Endpoint c)]> (<["secret"%string := JStr (cfg_Secret c)]>
             (<["id"%string := JStr (cfg_ID c)]> existing)) in
  setOrDelete "name" (cfg_Name c) (setOrDelete "provisioningKey" (cfg_ProvisioningKey c)
    (setOrDelete "tlsClientCert" (cfg_TlsClientCert c) m)).

(** The object an existing file holds; what is not an object is dropped. *)
Definition existingObject (file : fileRead) : gmap string json :=
  match file with
  | FileData data => if Nat.ltb 0 (length (TrimSpace data)) then default ∅ (decode data) else ∅
  | _ => ∅
  end.

(** [saveConfig]: the object written, if any, and the client; [writes] says
    whether the file can be written, [false] in the result is the error. *)
Definition saveConfig (file : fileRead) (writes : bool) (w : wsClient) : option (gmap string json) * wsClient * bool :=
  if negb (wc_needsSave w) then (None, w, true)
  else
    let object := mergeConfig (wc_config w) (existingObject file) in
    if writes then (Some object, set_save false w, true) else (None, w, false).

(** ** Provisioning *)

(** The response of the registration endpoint. *)
Inductive provResponse : Type :=
  | ProvError                                     (* no request, or no answer *)
  | ProvAnswer (status : Z) (body : option (bool * string * string)).   (* success, newtId, secret *)

Definition provisionIfNeeded (resp : provResponse) (file : fileRead) (writes : bool) (w : wsClient)
    : option (gmap string json) * wsClient * bool :=
  let c := wc_config w in
  if bool_decide (cfg_ProvisioningKey c = "") then (None, w, true)
  else if negb (bool_decide (cfg_ID c = "")) && negb (bool_decide (cfg_Secret c = "")) then (None, w, true)
  else
    match resp with
    | ProvError => (None, w, false)
    | ProvAnswer status body =>
        if (status <? 200) || (300 <=? status) then (None, w, false)
        else match body with
             | None => (None, w, false)
             | Some (success, newtID, secret) =>
                 if negb success then (None, w, false)
                 else if bool_decide (newtID = "") || bool_decide (secret = "") then (None, w, false)
                 else
                   let c' := mkConfig newtID secret (cfg_Endpoint c) (cfg_TlsClientCert c) "" "" (cfg_Blocked c) in
                   let w' := set_provisioned true (set_save true (set_cfg c' w)) in
                   let '(out, w'', _) := saveConfig file writes w' in
                   (out, w'', true)
             end
    end.

Definition WasJustProvisioned (w : wsClient) : wsClient * bool := (set_provisioned false w, wc_justProvisioned w).

End save.

(** ** TLS material *)

Inductive caFile : Type := CaUnreadable | CaUnparsable | CaOK.

Inductive tlsMaterial : Type :=
  | TlsDefault                                        (* a nil configuration *)
  | TlsPair (cert key : string) (cas : list string)   (* client certificate, root CAs if any *)
  | TlsPKCS12 (file : string).

Section tls.
Context (loadPair : string → string → bool) (ca : string → caFile) (loadPKCS12 : string → bool).

(** [setupTLS]; [None] is its error. *)
Definition setupTLS (w : wsClient) : option tlsMaterial :=
  let t := wc_tls w in
  if negb (bool_decide (tls_ClientCertFile t = "")) && negb (bool_decide (tls_ClientKeyFile t = "")) then
    if negb (loadPair (tls_ClientCertFile t) (tls_ClientKeyFile t)) then None
    else if forallb (λ f, match ca f with CaOK => true | _ => false end) (tls_CAFiles t)
    then Some (TlsPair (tls_ClientCertFile t) (tls_ClientKeyFile t) (tls_CAFiles t))
    else None
  else if negb (bool_decide (tls_PKCS12File t = "")) then
    if loadPKCS12 (tls_PKCS12File t) then Some (TlsPKCS12 (tls_PKCS12File t)) else None
  else if negb (bool_decide (cfg_TlsClientCert (wc_config w) = "")) then
    if loadPKCS12 (cfg_TlsClientCert (wc_config w)) then Some (TlsPKCS12 (cfg_TlsClientCert (wc_config w))) else None
  else Some TlsDefault.

(** When the requests set TLS up at all. *)
Definition tlsConfigured (t : TLSConfig) : bool :=
  negb (bool_decide (tls_ClientCertFile t = "")) || negb (bool_decide (tls_ClientKeyFile t = ""))
  || Nat.ltb 0 (length (tls_CAFiles t)) || negb (bool_decide (tls_PKCS12File t = "")).

(** The material of a request and whether verification is skipped. *)
Definition requestTLS (env : Env) (w : wsClient) : option (tlsMaterial * bool) :=
  m ← (if tlsConfigured (wc_tls w) then setupTLS w else Some TlsDefault);
  Some (m, bool_decide (env "SKIP_TLS_VERIFY"%string = "true")).

(** ** The token *)

Inductive tokenResponse : Type :=
  | TokError
  | TokAnswer (status : Z) (body : option (bool * string * string)).    (* success, token, serverVersion *)

Definition getToken (env : Env) (resp : tokenResponse) (w : wsClient) : wsClient * option string :=
  match requestTLS env w with
  | None => (w, None)
  | Some _ =>
      match resp with
      | TokError => (w, None)
      | TokAnswer status body =>
          if negb (status =? 200) then (w, None)
          else match body with
               | Some (true, token, version) =>
                   if bool_decide (token = "") then (w, None) else (set_serverVersion version w, Some token)
               | _ => (w, None)
               end
      end
  end.

End tls.

(** The endpoint of the token request ([TrimRight] of the base URL). *)
Definition tokenURL (baseURL clientType : string) : string :=
  unstr (TrimRight c_slash (str baseURL) ++ str ("/api/v1/auth/" +:+ clientType +:+ "/get-token")).

(** ** Classification of errors *)

Definition classifyConnError (err : option string) : string :=
  match err with
  | None => ""
  | Some text =>
      let msg := ToLower text in
      if contains (str "tls") msg || contains (str "certificate") msg then "tls_handshake"
      else if contains (str "timeout") msg || contains (str "i/o timeout") msg || contains (str "deadline exceeded") msg
      then "dial_timeout"
      else if contains (str "unauthorized") msg || contains (str "forbidden") msg then "auth_failed"
      else "io_error"
  end.

(** A read error: its text, the close code of a close frame, and whether it is
    a network timeout. *)
Record wsErr : Type := mkWsErr { we_text : string; we_close : option Z; we_timeout : bool }.

Definition CloseNormalClosure : Z := 1000.
Definition CloseGoingAway : Z := 1001.
Definition CloseAbnormalClosure : Z := 1006.

Definition IsCloseError (e : wsErr) (codes : list Z) : bool :=
  match we_close e with Some c => bool_decide (c ∈ codes) | None => false end.
Definition IsUnexpectedCloseError (e : wsErr) (codes : list Z) : bool :=
  match we_close e with Some c => negb (bool_decide (c ∈ codes)) | None => false end.

Definition classifyWSDisconnect (err : option wsErr) : string * string :=
  match err with
  | None => ("success", "normal")%string
  | Some e =>
      if IsCloseError e [CloseNormalClosure] then ("success", "normal")%string
      else if we_timeout e then ("error", "timeout")%string
      else if IsUnexpectedCloseError e [CloseGoingAway; CloseAbnormalClosure] then ("error", "unexpected_close")%string
      else
        let msg := ToLower (we_text e) in
        if contains (str "eof") msg then ("error", "eof")%string
        else if contains (str "reset") msg then ("error", "connection_reset")%string
        else ("error", "read_error")%string
  end.

(** ** Lemmas *)

Lemma setOrDelete_other k k' v m : k ≠ k' → setOrDelete k v m !! k' = m !! k'.
Proof. intros. unfold setOrDelete. case_bool_decide; by simplify_map_eq. Qed.

Lemma setOrDelete_key k v m : setOrDelete k v m !! k = if bool_decide (v = "") then None else Some (JStr v).
Proof. unfold setOrDelete. case_bool_decide; by simplify_map_eq. Qed.

(** The keys the client owns in the file. *)
Definition credentialKeys : list string := ["id"; "secret"; "endpoint"; "tlsClientCert"; "provisioningKey"; "name"]%string.

Lemma mergeConfig_other c m k : k ∉ credentialKeys → mergeConfig c m !! k = m !! k.
Proof.
  unfold credentialKeys. rewrite !not_elem_of_cons. intros (?&?&?&?&?&?&_).
  unfold mergeConfig. rewrite !setOrDelete_other by done. by simplify_map_eq.
Qed.

Definition optional (v : string) : option json := if bool_decide (v = "") then None else Some (JStr v).

Lemma mergeConfig_own c m :
  mergeConfig c m !! "id"%string = Some (JStr (cfg_ID c)) ∧ mergeConfig c m !! "secret"%string = Some (JStr (cfg_Secret c)) ∧
  mergeConfig c m !! "endpoint"%string = Some (JStr (cfg_Endpoint c)) ∧
  mergeConfig c m !! "tlsClientCert"%string = optional (cfg_TlsClientCert c) ∧
  mergeConfig c m !! "provisioningKey"%string = optional (cfg_ProvisioningKey c) ∧
  mergeConfig c m !! "name"%string = optional (cfg_Name c).
Proof.
  unfold mergeConfig. split_and!; repeat (rewrite setOrDelete_other by done); try (by simplify_map_eq);
    by rewrite setOrDelete_key.
Qed.

(** ** Properties *)


(** Options leave the identity alone, and so does the file. *)
Definition untouched (ID secret endpoint : string) (pongWait : Z) (w : wsClient) : Prop :=
  cfg_Blocked (wc_config w) = false ∧ cfg_ID (wc_config w) = ID ∧ cfg_Secret (wc_config w) = secret ∧
  cfg_Endpoint (wc_config w) = endpoint ∧ cfg_ProvisioningKey (wc_config w) = "" ∧ wc_pongWait w = pongWait.

Lemma options_untouched ID secret endpoint pw opts w :
  untouched ID secret endpoint pw w →
  untouched ID secret endpoint pw (foldl (λ w opt, match opt with Some o => applyOption w o | None => w end) w opts).
Proof.
  revert w. induction opts as [|[o|] l IH]; intros w H; [done| |by apply IH]. apply IH. destruct H as (?&?&?&?&?&?).
  destruct o; simpl; try (destruct (bool_decide _)); by split_and!.
Qed.

Lemma new_client_untouched ID secret endpoint pingInterval opts file w :
  NewClient ID secret endpoint pingInterval opts file = Some w → untouched ID secret endpoint (pongWaitOf pingInterval) w.
Proof.
  unfold NewClient. intros Hl. pose proof (options_untouched ID secret endpoint (pongWaitOf pingInterval) opts
    (mkWsClient (mkConfig ID secret endpoint "" "" "" false) endpoint "" (mkTLS "" "" [] "") (pongWaitOf pingInterval) false false "")
    ltac:(by split_and!)) as H.
  unfold loadConfig in Hl. destruct file as [| |data]; [|done|destruct (Nat.eqb _ _)]; by injection Hl as <-.
Qed.

Lemma new_client_config ID secret endpoint pingInterval opts data :
  ∃ w, NewClient ID secret endpoint pingInterval opts (FileData data) = Some w ∧
    cfg_ID (wc_config w) = ID ∧ cfg_Secret (wc_config w) = secret.
Proof.
  destruct (NewClient ID secret endpoint pingInterval opts (FileData data)) as [w|] eqn:E; [|done].
  exists w. destruct (new_client_untouched _ _ _ _ _ _ _ E) as (?&?&?&_). done.
Qed.

(** A new client starts unblocked and with the credentials it was given.
    Whatever the file holds, [NewClient] reads none of it: identity, secret and
    endpoint are the arguments, and the blocked flag, which the program reads
    back at start to keep a paused site paused, is always false. *)
Theorem new_client_ignores_file ID secret endpoint pingInterval opts file w :
  NewClient ID secret endpoint pingInterval opts file = Some w →
  cfg_Blocked (wc_config w) = false ∧ cfg_ID (wc_config w) = ID ∧ cfg_Secret (wc_config w) = secret ∧
  cfg_Endpoint (wc_config w) = endpoint ∧ cfg_ProvisioningKey (wc_config w) = "" ∧
  (0 <= pingInterval < 2 ^ 62 → pingInterval < wc_pongWait w).
Proof.
  intros (?&?&?&?&?&Hw)%new_client_untouched. split_and!; [done..|]. intros Hi. rewrite Hw. unfold pongWaitOf, Second.
  rewrite swrap64_id by lia. destruct (Z.ltb_spec (pingInterval * 2) (20 * 1000000000)); lia.
Qed.

(** ** Examples *)

Module WsConfigExamples.

Lemma new_client_ignores_file_witness :
  ∃ w, NewClient "id" "s" "https://e" (30 * Second) [None; Some (WithConfigFile "/c.json")] (FileData (str "{}")) = Some w ∧
  cfg_Blocked (wc_config w) = false ∧ wc_pongWait w = 60 * Second.
Proof.
  eexists. split; [reflexivity|]. split; [|reflexivity].
  apply (new_client_ignores_file "id" "s" "https://e" (30 * Second)
           [None; Some (WithConfigFile "/c.json")] (FileData (str "{}"))). reflexivity.
Defined.

End WsConfigExamples.
