(* ===== verification/Calendar.v ===== *)
(** * Calendar dates of the [time] package

    Days counted from 1 January 1970 as year, month and day and back, with the
    proof that a date names one day (checked on every day of an era of 400
    years), and the texts of dates and times that the program writes. *)

From S2P Require Import Prelude NetipText.
From Stdlib Require Import Ascii.

(** ** Dates *)

(** A day counted from 1 January 1970 as year, month and day, and back; March
    begins the year inside an era of 400 years. *)
Record civil : Type := mkCivil { c_year : Z; c_month : Z; c_day : Z }.

Definition eraDays : Z := 146097.

(** Year of the era and day of the year, of a day of the era. *)
Definition eraYear (doe : Z) : Z := (doe - doe / 1460 + doe / 36524 - doe / 146096) / 365.
Definition yearStart (yoe : Z) : Z := 365 * yoe + yoe / 4 - yoe / 100.

Definition civilFromDays (z : Z) : civil :=
  let z := z + 719468 in
  let era := z / eraDays in
  let doe := z mod eraDays in
  let yoe := eraYear doe in
  let doy := doe - yearStart yoe in
  let mp := (5 * doy + 2) / 153 in
  let m := if mp <? 10 then mp + 3 else mp - 9 in
  mkCivil (yoe + era * 400 + (if m <=? 2 then 1 else 0)) m (doy - (153 * mp + 2) / 5 + 1).

Definition daysFromCivil (c : civil) : Z :=
  let y := if c_month c <=? 2 then c_year c - 1 else c_year c in
  let yoe := y mod 400 in
  let mp := if 2 <? c_month c then c_month c - 3 else c_month c + 9 in
  (y / 400) * eraDays + (yearStart yoe + ((153 * mp + 2) / 5 + c_day c - 1)) - 719468.

(** Every day of an era, by computation. *)
Definition eraDayOk (doe : Z) : bool :=
  let yoe := eraYear doe in
  let doy := doe - yearStart yoe in
  let mp := (5 * doy + 2) / 153 in
  let d := doy - (153 * mp + 2) / 5 + 1 in
  (0 <=? yoe) && (yoe <? 400) && (0 <=? mp) && (mp <? 12) && (1 <=? d) && (d <=? 31).

Fixpoint allBelow (n : nat) (z : Z) (f : Z → bool) : bool :=
  match n with
  | O => true
  | S n' => f z && allBelow n' (z + 1) f
  end.

Lemma allBelow_spec n z f x : allBelow n z f = true → z <= x < z + Z.of_nat n → f x = true.
Proof.
  revert z. induction n as [|n IH]; intros z Ha Hx; [lia|]. simpl in Ha. apply andb_prop in Ha as [Hz Ha].
  destruct (decide (x = z)) as [->|]; [done|]. apply (IH (z + 1)); [done|lia].
Qed.

Lemma era_checked : allBelow (Z.to_nat eraDays) 0 eraDayOk = true.
Proof. vm_compute. reflexivity. Qed.

Lemma eraDay_ok doe : 0 <= doe < eraDays → eraDayOk doe = true.
Proof. intros Hd. apply (allBelow_spec _ _ _ _ era_checked). rewrite Z2Nat.id; unfold eraDays in *; lia. Qed.

Lemma civil_range z : let c := civilFromDays z in 1 <= c_month c <= 12 ∧ 1 <= c_day c <= 31.
Proof.
  simpl. pose proof (eraDay_ok ((z + 719468) mod eraDays) (Z.mod_pos_bound _ eraDays eq_refl)) as He.
  unfold civilFromDays. cbn zeta. unfold eraDayOk in He. cbn zeta in He.
  set (doe := (z + 719468) mod eraDays) in *. set (doy := doe - yearStart (eraYear doe)) in *.
  set (mp := (5 * doy + 2) / 153) in *. rewrite !andb_true_iff, !Z.leb_le, !Z.ltb_lt in He. cbn [c_month c_day].
  destruct (Z.ltb_spec mp 10); lia.
Qed.

(** A date names one day. *)
Lemma days_roundtrip z : daysFromCivil (civilFromDays z) = z.
Proof.
  pose proof (eraDay_ok ((z + 719468) mod eraDays) (Z.mod_pos_bound _ eraDays eq_refl)) as He.
  unfold daysFromCivil, civilFromDays. cbn zeta. unfold eraDayOk in He. cbn zeta in He. cbn [c_year c_month c_day].
  pose proof (Z.div_mod (z + 719468) eraDays ltac:(done)) as Hz.
  set (doe := (z + 719468) mod eraDays) in *. set (era := (z + 719468) / eraDays) in *.
  set (yoe := eraYear doe) in *. set (doy := doe - yearStart yoe) in *.
  set (mp := (5 * doy + 2) / 153) in *. rewrite !andb_true_iff, !Z.leb_le, !Z.ltb_lt in He.
  assert (∀ y, y = yoe + era * 400 → y mod 400 = yoe ∧ y / 400 = era) as Hy.
  { intros y ->. rewrite Z.mod_add, Z.div_add, Z.mod_small, Z.div_small by lia. lia. }
  destruct (Z.ltb_spec mp 10) as [Hm|Hm].
  - rewrite (proj2 (Z.leb_gt (mp + 3) 2)), (proj2 (Z.ltb_lt 2 (mp + 3))) by lia.
    destruct (Hy (yoe + era * 400 + 0) ltac:(lia)) as [-> ->]. replace (mp + 3 - 3) with mp by lia. lia.
  - rewrite (proj2 (Z.leb_le (mp - 9) 2)), (proj2 (Z.ltb_ge 2 (mp - 9))) by lia.
    destruct (Hy (yoe + era * 400 + 1 - 1) ltac:(lia)) as [-> ->]. replace (mp - 9 + 9) with mp by lia. lia.
Qed.

(** ** Texts *)

Definition digit (x : Z) : ascii := ch (48 + x mod 10).

(** [t.Format("2006-01-02")], for a year of four digits. *)
Definition formatDate (c : civil) : list ascii :=
  [digit (c_year c / 1000); digit (c_year c / 100); digit (c_year c / 10); digit (c_year c); "-"%char;
   digit (c_month c / 10); digit (c_month c); "-"%char; digit (c_day c / 10); digit (c_day c)].

Lemma digit_inj x y : digit x = digit y → x mod 10 = y mod 10.
Proof.
  intros E. apply (f_equal code) in E. unfold digit in E. pose proof (Z.mod_pos_bound x 10 ltac:(lia)).
  pose proof (Z.mod_pos_bound y 10 ltac:(lia)). rewrite !code_ch in E by lia. lia.
Qed.

Lemma formatDate_inj c c' :
  0 <= c_year c < 10000 → 0 <= c_year c' < 10000 → 0 <= c_month c < 100 → 0 <= c_month c' < 100 →
  0 <= c_day c < 100 → 0 <= c_day c' < 100 → formatDate c = formatDate c' → c = c'.
Proof.
  destruct c as [y m d], c' as [y' m' d']. simpl. intros Hy Hy' Hm Hm' Hd Hd'. unfold formatDate. cbn [c_year c_month c_day].
  intros [= E1%digit_inj E2%digit_inj E3%digit_inj E4%digit_inj E5%digit_inj E6%digit_inj E7%digit_inj E8%digit_inj].
  f_equal; Z.div_mod_to_equations; lia.
Qed.
