(* ===== verification/Logger.v ===== *)
(** * The logger ([logger/logger.go], [logger/writer.go], [logger/level.go])

    One logger per process, made by the first call that needs it; messages
    below its level are dropped and the others written as one line with level
    and time.  The standard writer's output is a list of lines; a custom writer
    is opaque. *)

From S2P Require Import Prelude NetipText Keys Util Calendar.
From Stdlib Require Import Ascii.

(** ** Levels and lines *)

Definition levelRank (l : LogLevel) : Z := match l with DEBUG => 0 | INFO => 1 | WARN => 2 | ERROR => 3 | FATAL => 4 end.

Definition levelString (l : LogLevel) : string :=
  match l with DEBUG => "DEBUG" | INFO => "INFO" | WARN => "WARN" | ERROR => "ERROR" | FATAL => "FATAL" end.

(** [timestamp.In(zone).Format("2006/01/02 15:04:05")]; [t] is the local time
    in seconds. *)
Definition formatTime (t : Z) : list ascii :=
  let c := civilFromDays (t / 86400) in
  let s := t mod 86400 in
  [digit (c_year c / 1000); digit (c_year c / 100); digit (c_year c / 10); digit (c_year c); "/"%char;
   digit (c_month c / 10); digit (c_month c); "/"%char; digit (c_day c / 10); digit (c_day c); " "%char;
   digit (s / 3600 / 10); digit (s / 3600); ":"%char; digit (s mod 3600 / 60 / 10); digit (s mod 3600 / 60); ":"%char;
   digit (s mod 60 / 10); digit (s mod 60)].

Definition c_nl : ascii := ch 10.

(** [StandardWriter.Write] *)
Definition logLineText (level : LogLevel) (t : Z) (message : list ascii) : list ascii :=
  str (levelString level) ++ str ": " ++ formatTime t ++ str " " ++ message ++ [c_nl].

(** ** The logger *)

(** Where a standard writer writes to: the file of that name, or nowhere that
    concerns us for a custom writer. *)
Inductive writer : Type := Standard (zone : Z) (output : string) | Custom.

Record Logger : Type := mkLogger { lg_writer : writer; lg_level : LogLevel }.

(** [NewStandardWriter]: the offset of [LOGGER_TIMEZONE] when it is a known
    zone, and the local one otherwise. *)
Definition NewStandardWriter (loadLocation : string → option Z) (localZone : Z) (tz : string) : writer :=
  Standard (if bool_decide (tz = "") then localZone else default localZone (loadLocation tz)) "stdout".

Definition NewLogger (w : writer) : Logger := mkLogger w DEBUG.
Definition NewLoggerWithWriter (w : writer) : Logger := mkLogger w DEBUG.

(** The package: the [sync.Once] and the default logger, and what has been
    written to each output. *)
Record logPkg : Type := mkLogPkg { lp_once : bool; lp_default : option Logger; lp_out : gmap string (list (list ascii)) }.

Section Package.
(** The writer a logger is made with when none is given. *)
Context (std : writer).

Definition LoggerInit (logger : option Logger) (p : logPkg) : logPkg * option Logger :=
  let p := if lp_once p then p else mkLogPkg true (Some (default (NewLogger std) logger)) (lp_out p) in
  (p, lp_default p).

Definition GetLogger (p : logPkg) : logPkg * option Logger :=
  match lp_default p with
  | Some l => (p, Some l)
  | None => LoggerInit None p
  end.

(** Appends a line to an output. *)
Definition writeLine (w : writer) (level : LogLevel) (now : Z) (message : list ascii) (p : logPkg) : logPkg :=
  match w with
  | Standard zone output =>
      mkLogPkg (lp_once p) (lp_default p)
        (<[output := default [] (lp_out p !! output) ++ [logLineText level (now + zone) message]]> (lp_out p))
  | Custom => p
  end.

(** [Logger.log], after [fmt.Sprintf]. *)
Definition log (l : Logger) (level : LogLevel) (now : Z) (message : list ascii) (p : logPkg) : logPkg :=
  if levelRank level <? levelRank (lg_level l) then p else writeLine (lg_writer l) level now message p.

(** A message of the package's functions; [Fatal] then ends the process. *)
Definition logGlobal (level : LogLevel) (now : Z) (message : list ascii) (p : logPkg) : logPkg * bool :=
  let '(p, l) := GetLogger p in
  (match l with Some l => log l level now message p | None => p end, bool_decide (level = FATAL)).

Definition onDefault (f : Logger → Logger) (p : logPkg) : logPkg :=
  let '(p, l) := GetLogger p in mkLogPkg (lp_once p) (f <$> l) (lp_out p).

Definition SetLevel (level : LogLevel) (p : logPkg) : logPkg := onDefault (λ l, mkLogger (lg_writer l) level) p.

(** Only a standard writer has an output to set. *)
Definition SetOutput (output : string) (p : logPkg) : logPkg :=
  onDefault (λ l, mkLogger match lg_writer l with Standard z _ => Standard z output | Custom => Custom end (lg_level l)) p.

End Package.

(** [strings.Contains] *)
Fixpoint contains (sub s : list ascii) : bool :=
  match trimPrefix sub s with
  | Some _ => true
  | None => match s with [] => false | _ :: s' => contains sub s' end
  end.

(** [GetWireGuardLogger]: the level and the format a WireGuard message is
    logged with, if it is. *)
Definition wireGuardMessage (prepend : list ascii) (verbose : bool) (format : list ascii) : option (LogLevel * list ascii) :=
  if verbose then
    if contains (str "Sending keepalive packet") format then None else Some (DEBUG, prepend ++ format)
  else Some (ERROR, prepend ++ format).

(** ** What is written *)

Lemma formatTime_days t t' :
  0 <= c_year (civilFromDays (t / 86400)) < 10000 → 0 <= c_year (civilFromDays (t' / 86400)) < 10000 →
  formatTime t = formatTime t' → t / 86400 = t' / 86400.
Proof.
  intros Hy Hy' E. rewrite <-(days_roundtrip (t / 86400)), <-(days_roundtrip (t' / 86400)). f_equal.
  pose proof (civil_range (t / 86400)) as [Hm Hd]. pose proof (civil_range (t' / 86400)) as [Hm' Hd'].
  apply formatDate_inj; try done; try lia. unfold formatTime in E. cbn zeta in E. unfold formatDate. injection E. congruence.
Qed.

Lemma formatTime_inj t t' :
  0 <= c_year (civilFromDays (t / 86400)) < 10000 → 0 <= c_year (civilFromDays (t' / 86400)) < 10000 →
  formatTime t = formatTime t' → t = t'.
Proof.
  intros Hy Hy' E. pose proof (formatTime_days t t' Hy Hy' E) as Ed. unfold formatTime in E. cbn zeta in E.
  pose proof (Z.mod_pos_bound t 86400 ltac:(lia)). pose proof (Z.mod_pos_bound t' 86400 ltac:(lia)).
  rewrite (Z.div_mod t 86400), (Z.div_mod t' 86400), Ed by lia. f_equal.
  set (s := t mod 86400) in *. set (s' := t' mod 86400) in *. clearbody s s'. clear Ed Hy Hy'.
  injection E. intros F1%digit_inj F2%digit_inj F3%digit_inj F4%digit_inj F5%digit_inj F6%digit_inj _ _ _ _ _ _ _ _.
  clear E. Z.div_mod_to_equations. lia.
Qed.

(** A line tells level, time and message apart: two lines
    are equal only when all three are, for years of four digits. *)
Theorem log_line_unique l l' t t' m m' :
  0 <= c_year (civilFromDays (t / 86400)) < 10000 → 0 <= c_year (civilFromDays (t' / 86400)) < 10000 →
  logLineText l t m = logLineText l' t' m' → l = l' ∧ t = t' ∧ m = m'.
Proof.
  intros Hy Hy' E. assert (l = l') as <-.
  { unfold logLineText in E. destruct l, l'; try done; cbn [levelString] in E; cbv [str] in E;
      cbn [String.list_ascii_of_string app] in E; discriminate E. }
  unfold logLineText in E. apply app_inv_head, app_inv_head in E. apply app_inj_1 in E as [Et E]; [|done].
  apply app_inv_head, app_inv_tail in E. apply formatTime_inj in Et; done.
Qed.

Definition message : Type := LogLevel * Z * list ascii.

Definition logAll (std : writer) (l : list message) (p : logPkg) : logPkg :=
  foldl (λ p m, (logGlobal std m.1.1 m.1.2 m.2 p).1) p l.

Definition shown (level : LogLevel) (m : message) : Prop := levelRank level <= levelRank m.1.1.

#[global] Instance shown_dec level m : Decision (shown level m).
Proof. unfold shown. apply _. Defined.

(** The output of a standard writer receives, in order, one
    line for each message that is not below the level, and no other output
    changes. *)
Theorem log_threshold (std : writer) (p : logPkg) (zone : Z) (output : string) (level : LogLevel) (l : list message) :
  lp_default p = Some (mkLogger (Standard zone output) level) →
  let p' := logAll std l p in
  default [] (lp_out p' !! output) =
    default [] (lp_out p !! output) ++ ((λ m, logLineText m.1.1 (m.1.2 + zone) m.2) <$> filter (shown level) l) ∧
  (∀ o, o ≠ output → lp_out p' !! o = lp_out p !! o) ∧ lp_default p' = lp_default p.
Proof.
  revert p. induction l as [|[[lv now] msg] l IH]; intros p Hp; cbn zeta.
  - by rewrite filter_nil, app_nil_r.
  - unfold logAll. cbn [foldl fst snd]. fold (logAll std l (logGlobal std lv now msg p).1).
    unfold logGlobal, GetLogger. rewrite Hp. unfold log. cbn [fst snd lg_level lg_writer].
    rewrite filter_cons. destruct (Z.ltb_spec (levelRank lv) (levelRank level)) as [Hlt|Hge].
    + rewrite decide_False by (unfold shown; simpl; lia). destruct (IH p Hp) as (H1 & H2 & H3). cbn zeta in *. split_and!; [done|done|congruence].
    + rewrite decide_True by (unfold shown; simpl; lia). destruct (IH (writeLine (Standard zone output) lv now msg p) Hp) as (H1 & H2 & H3).
      cbn zeta in *. split_and!.
      * rewrite H1. simpl. rewrite lookup_insert_eq. simpl. by rewrite <-app_assoc.
      * intros o Ho. rewrite H2 by done. simpl. by rewrite lookup_insert_ne by congruence.
      * rewrite H3. exact Hp.
Qed.

(** The first logger stays the default one. *)
Lemma init_once std l l' p p1 r1 :
  LoggerInit std l p = (p1, r1) → lp_once p = false →
  LoggerInit std l' p1 = (p1, r1) ∧ GetLogger std p1 = (p1, r1) ∧ is_Some r1.
Proof.
  unfold LoggerInit. intros E Hp. rewrite Hp in E. injection E as <- <-. simpl. split_and!; [done|done|by eexists].
Qed.

Module LoggerExamples.

Lemma line_example : unstr (logLineText WARN 1709210096 (str "up")) = (("WARN: 2024/02/29 12:34:56 up")%string +:+ unstr [c_nl])%string.
Proof. vm_compute. reflexivity. Qed.

Lemma log_line_unique_witness : ∀ m, logLineText INFO 5 (str "a") = logLineText INFO 5 m → str "a" = m.
Proof.
  intros m E. destruct (log_line_unique INFO INFO 5 5 (str "a") m) as (_ & _ & H);
    [vm_compute; split; [discriminate|reflexivity]|vm_compute; split; [discriminate|reflexivity]|exact E|exact H].
Defined.

Definition pkg1 : logPkg := (LoggerInit Custom (Some (mkLogger (Standard 0 "stdout") WARN)) (mkLogPkg false None ∅)).1.

Lemma log_threshold_witness :
  default [] (lp_out (logAll Custom [(DEBUG, 1, str "a"); (ERROR, 2, str "b")] pkg1) !! "stdout"%string) =
  [logLineText ERROR 2 (str "b")].
Proof.
  destruct (log_threshold Custom pkg1 0 "stdout" WARN [(DEBUG, 1, str "a"); (ERROR, 2, str "b")] eq_refl) as [H _].
  rewrite H. vm_compute. reflexivity.
Defined.

End LoggerExamples.
