(* ===== verification/Settings.v ===== *)
(** * Program settings ([config.go], and [Init] of [newt/newt.go])

    The settings of the program are layered: built-in defaults, the
    configuration file, the environment and the command line.  [settings] is
    the table of them, one row per setting with its flag, its key in the file,
    its environment variable and its default; [fileLayer], [envLayer] and
    [cliLayer] are the three layers of [loadNewtConfig], and the flag parser
    and the number, boolean and duration parsers are those of the standard
    library.  The file system is an outcome and the environment a function. *)

From S2P Require Import Prelude Netip NetipText HostPort Keys ExitNode WsConfig.
From Stdlib Require Import Ascii.

(** ** Parsers of the standard library *)

(** [strconv.ParseBool] *)
Definition ParseBool (s : string) : option bool :=
  if bool_decide (s ∈ ["1"; "t"; "T"; "true"; "TRUE"; "True"]%string) then Some true
  else if bool_decide (s ∈ ["0"; "f"; "F"; "false"; "FALSE"; "False"]%string) then Some false
  else None.

(** [leadingInt]: the digits at the head; [None] is the overflow. *)
Fixpoint leadingInt (s : list ascii) (x : Z) : option (Z * list ascii) :=
  match s with
  | c :: s' =>
      if isDigit c then
        if 2 ^ 63 / 10 <? x then None
        else let x' := x * 10 + (code c - 48) in if 2 ^ 63 <? x' then None else leadingInt s' x'
      else Some (x, s)
  | [] => Some (x, [])
  end.

(** [leadingFraction]: value, scale and rest; digits past the overflow are
    ignored. *)
Fixpoint leadingFraction (s : list ascii) (x scale : Z) (overflow : bool) : Z * Z * list ascii :=
  match s with
  | c :: s' =>
      if isDigit c then
        if overflow || ((2 ^ 63 - 1) / 10 <? x) then leadingFraction s' x scale true
        else let y := x * 10 + (code c - 48) in
             if 2 ^ 63 <? y then leadingFraction s' x scale true else leadingFraction s' y (scale * 10) false
      else (x, scale, s)
  | [] => (x, scale, [])
  end.

Fixpoint spanUnit (s : list ascii) : list ascii * list ascii :=
  match s with
  | c :: s' => if isDigit c || Ascii.eqb c c_dot then ([], s) else let '(a, b) := spanUnit s' in (c :: a, b)
  | [] => ([], [])
  end.

Definition unitOf (u : list ascii) : option Z :=
  let u := unstr u in
  if bool_decide (u = "ns"%string) then Some 1
  else if bool_decide (u = "us"%string)
          || bool_decide (u = unstr [ch 194; ch 181; "s"%char]) || bool_decide (u = unstr [ch 206; ch 188; "s"%char])
  then Some 1000
  else if bool_decide (u = "ms"%string) then Some 1000000
  else if bool_decide (u = "s"%string) then Some Second
  else if bool_decide (u = "m"%string) then Some Minute
  else if bool_decide (u = "h"%string) then Some (60 * Minute)
  else None.

(** The loop of [time.ParseDuration]; each iteration consumes a character, and
    the fraction is exact where [unit / scale] is an integer. *)
Fixpoint durationLoop (fuel : nat) (s : list ascii) (d : Z) : option Z :=
  match s, fuel with
  | [], _ => Some d
  | _, O => None
  | c :: _, S fuel' =>
      if negb (Ascii.eqb c c_dot || isDigit c) then None
      else
        '(v, s1) ← leadingInt s 0;
        let pre := negb (Nat.eqb (length s) (length s1)) in
        let '(f, scale, s2, post) :=
          match s1 with
          | "."%char :: r => let '(f, scale, s2) := leadingFraction r 0 1 false in
                             (f, scale, s2, negb (Nat.eqb (length r) (length s2)))
          | _ => (0, 1, s1, false)
          end in
        if negb pre && negb post then None
        else
          let '(u, s3) := spanUnit s2 in
          if Nat.eqb (length u) 0 then None
          else
            unit ← unitOf u;
            if 2 ^ 63 / unit <? v then None
            else
              let v := v * unit in
              let v := if 0 <? f then v + f * unit / scale else v in
              if 2 ^ 63 <? v then None
              else let d := d + v in if 2 ^ 63 <? d then None else durationLoop fuel' s3 d
  end.

Definition ParseDuration (s : string) : option Z :=
  let '(neg, r) := match str s with
                   | "-"%char :: r => (true, r)
                   | "+"%char :: r => (false, r)
                   | r => (false, r)
                   end in
  if bool_decide (r = str "0") then Some 0
  else if Nat.eqb (length r) 0 then None
  else d ← durationLoop (length r) r 0;
       if neg : bool then Some (- d) else if 2 ^ 63 - 1 <? d then None else Some d.

Example parser_examples :
  ParseDuration "15s" = Some (15 * Second) ∧ ParseDuration "1h2m3.5s" = Some 3723500000000 ∧
  ParseDuration "-1.5m" = Some (-90 * Second) ∧ ParseDuration "15" = None ∧ ParseDuration "" = None ∧
  ParseDuration ".s" = None ∧ ParseDuration "9223372036854775808ns" = None ∧
  Atoi "-12" = Some (-12) ∧ Atoi "9223372036854775808" = None ∧ Atoi "+" = None ∧ ParseBool "yes" = None.
Proof. vm_compute. auto 20. Qed.

(** [parseDurationEnvOrFlag] *)
Definition parseDurationEnvOrFlag (s : string) (defaultVal : Z) : Z :=
  if bool_decide (s = "") then defaultVal
  else match ParseDuration s with
       | Some d => if d <=? 0 then defaultVal else d
       | None => defaultVal
       end.

(** ** The table *)

Inductive configSource : Type := sourceDefault | sourceFile | sourceEnv | sourceCLI.
#[global] Instance configSource_eq_dec : EqDecision configSource.
Proof. solve_decision. Defined.

Inductive value : Type := VStr (s : string) | VBool (b : bool).
#[global] Instance value_eq_dec : EqDecision value.
Proof. solve_decision. Defined.

(** The type of the field in [fileSettings] and what becomes of it. *)
Inductive fileRule : Type := FileStr | FileBool | FileItoa | FileFormatBool.
#[global] Instance fileRule_eq_dec : EqDecision fileRule.
Proof. solve_decision. Defined.
(** [applyEnvStr], [applyEnvBool], and the two settings with a rule of their own. *)
Inductive envRule : Type :=
  | NoEnv | EnvStr (name : string) | EnvBool (name : string) | EnvParseBool (name : string) | EnvMetrics (name : string).

(** [st_marked]: the flag is reported by [markCLI]. *)
Record setting : Type := mkSetting {
  st_key : string; st_json : string; st_default : value; st_file : fileRule; st_env : envRule; st_marked : bool }.

Definition settings : list setting := [
  mkSetting "endpoint" "endpoint" (VStr "") FileStr (EnvStr "PANGOLIN_ENDPOINT") true;
  mkSetting "id" "id" (VStr "") FileStr (EnvStr "NEWT_ID") true;
  mkSetting "secret" "secret" (VStr "") FileStr (EnvStr "NEWT_SECRET") true;
  mkSetting "provisioning-key" "provisioningKey" (VStr "") FileStr (EnvStr "NEWT_PROVISIONING_KEY") true;
  mkSetting "name" "name" (VStr "") FileStr (EnvStr "NEWT_NAME") true;
  mkSetting "dns" "dns" (VStr "9.9.9.9") FileStr (EnvStr "DNS") true;
  mkSetting "log-level" "logLevel" (VStr "INFO") FileStr (EnvStr "LOG_LEVEL") true;
  mkSetting "updown" "updownScript" (VStr "") FileStr (EnvStr "UPDOWN_SCRIPT") true;
  mkSetting "interface" "interface" (VStr "newt") FileStr (EnvStr "INTERFACE") true;
  mkSetting "mtu" "mtu" (VStr "1280") FileItoa (EnvStr "MTU") true;
  mkSetting "port" "port" (VStr "") FileItoa (EnvStr "PORT") true;
  mkSetting "native" "native" (VBool false) FileBool (EnvBool "USE_NATIVE_INTERFACE") true;
  mkSetting "native-main" "nativeMain" (VBool false) FileBool (EnvBool "USE_NATIVE_MAIN_INTERFACE") true;
  mkSetting "interface-main" "interfaceMain" (VStr "newt") FileStr (EnvStr "INTERFACE_MAIN") true;
  mkSetting "no-cloud" "noCloud" (VBool false) FileBool (EnvBool "NO_CLOUD") true;
  mkSetting "prefer-endpoint" "preferEndpoint" (VStr "") FileStr NoEnv false;
  mkSetting "ping-interval" "pingInterval" (VStr "15s") FileStr (EnvStr "PING_INTERVAL") true;
  mkSetting "ping-timeout" "pingTimeout" (VStr "7s") FileStr (EnvStr "PING_TIMEOUT") true;
  mkSetting "udp-proxy-idle-timeout" "udpProxyIdleTimeout" (VStr "90s") FileStr (EnvStr "NEWT_UDP_PROXY_IDLE_TIMEOUT") true;
  mkSetting "disable-clients" "disableClients" (VBool false) FileBool (EnvBool "DISABLE_CLIENTS") true;
  mkSetting "disable-ssh" "disableSsh" (VBool false) FileBool (EnvBool "DISABLE_SSH") true;
  mkSetting "enforce-hc-cert" "enforceHcCert" (VBool false) FileBool (EnvBool "ENFORCE_HC_CERT") true;
  mkSetting "health-file" "healthFile" (VStr "") FileStr (EnvStr "HEALTH_FILE") true;
  mkSetting "blueprint-file" "blueprintFile" (VStr "") FileStr (EnvStr "BLUEPRINT_FILE") true;
  mkSetting "provisioning-blueprint-file" "provisioningBlueprintFile" (VStr "") FileStr (EnvStr "PROVISIONING_BLUEPRINT_FILE") true;
  mkSetting "docker-socket" "dockerSocket" (VStr "") FileStr (EnvStr "DOCKER_SOCKET") true;
  mkSetting "docker-enforce-network-validation" "dockerEnforceNetworkValidation" (VStr "false") FileFormatBool
    (EnvStr "DOCKER_ENFORCE_NETWORK_VALIDATION") true;
  mkSetting "ad-pre-shared-key" "adPreSharedKey" (VStr "") FileStr (EnvStr "AD_KEY") true;
  mkSetting "ad-principals-file" "adPrincipalsFile" (VStr "/var/run/auth-daemon/principals") FileStr (EnvStr "AD_PRINCIPALS_FILE") true;
  mkSetting "ad-ca-cert-path" "adCaCertPath" (VStr "/etc/ssh/ca.pem") FileStr (EnvStr "AD_CA_CERT_PATH") true;
  mkSetting "ad-generate-random-password" "adGenerateRandomPassword" (VBool false) FileBool (EnvParseBool "AD_GENERATE_RANDOM_PASSWORD") true;
  mkSetting "tls-client-cert-file" "tlsClientCertFile" (VStr "") FileStr (EnvStr "TLS_CLIENT_CERT") true;
  mkSetting "tls-client-key" "tlsClientKey" (VStr "") FileStr (EnvStr "TLS_CLIENT_KEY") true;
  mkSetting "tls-client-cert" "tlsClientCert" (VStr "") FileStr (EnvStr "TLS_CLIENT_CERT_PKCS12") true;
  mkSetting "metrics" "metrics" (VBool false) FileBool (EnvMetrics "NEWT_METRICS_PROMETHEUS_ENABLED") true;
  mkSetting "otlp" "otlp" (VBool false) FileBool (EnvBool "NEWT_METRICS_OTLP_ENABLED") true;
  mkSetting "metrics-admin-addr" "metricsAdminAddr" (VStr "127.0.0.1:2112") FileStr (EnvStr "NEWT_ADMIN_ADDR") true;
  mkSetting "region" "region" (VStr "") FileStr (EnvStr "NEWT_REGION") true;
  mkSetting "metrics-async-bytes" "metricsAsyncBytes" (VBool false) FileBool (EnvBool "NEWT_METRICS_ASYNC_BYTES") true;
  mkSetting "pprof" "pprof" (VBool false) FileBool (EnvBool "NEWT_PPROF_ENABLED") true ]%string.

(** ** The file *)

(** A field: outer [None] is a value of the wrong type, inner [None] a nil
    pointer. *)
Definition fileValue (r : fileRule) (j : option json) : option (option value) :=
  match j with
  | None | Some JNull => Some None
  | Some j =>
      match r, j with
      | FileStr, JStr s => Some (Some (VStr s))
      | FileBool, JBool b => Some (Some (VBool b))
      | FileItoa, JInt z => if (- 2 ^ 63 <=? z) && (z <? 2 ^ 63) then Some (Some (VStr (itoa z))) else None
      | FileFormatBool, JBool b => Some (Some (VStr (if b then "true" else "false")%string))
      | _, _ => None
      end
  end.

Definition fileCAs (j : option json) : option (list string) :=
  match j with None | Some JNull => Some [] | Some (JStrs l) => Some l | _ => None end.

(** An object that decodes into [fileSettings]; keys are spelled as its tags. *)
Definition wellTyped (obj : gmap string json) : bool :=
  forallb (λ s, bool_decide (is_Some (fileValue (st_file s) (obj !! st_json s)))) settings
  && bool_decide (is_Some (fileCAs (obj !! "tlsClientCa"%string))).

(** [loadFileSettings]: outer [None] is the error, inner [None] no settings. *)
Definition loadFileSettings (decode : list ascii → option (gmap string json)) (file : fileRead)
    : option (option (gmap string json)) :=
  match file with
  | FileMissing => Some None
  | FileError => None
  | FileData data =>
      if Nat.eqb (length (TrimSpace data)) 0 then Some None
      else obj ← decode data; if wellTyped obj then Some (Some obj) else None
  end.

(** ** The layers *)

Record resolved : Type := mkResolved {
  rs_vals : gmap string value;
  rs_sources : gmap string configSource;
  rs_cas : list string;
}.

Definition defaults : resolved :=
  mkResolved (list_to_map (map (λ s, (st_key s, st_default s)) settings)) ∅ [].

(** [applyStr] and [applyBool] *)
Definition apply (key : string) (v : option value) (src : configSource) (r : resolved) : resolved :=
  match v with
  | Some v => mkResolved (<[key := v]> (rs_vals r)) (<[key := src]> (rs_sources r)) (rs_cas r)
  | None => r
  end.

Definition appendCAs (l : list string) (src : configSource) (r : resolved) : resolved :=
  match l with
  | [] => r
  | _ => mkResolved (rs_vals r) (<["tls-client-ca"%string := src]> (rs_sources r)) (rs_cas r ++ l)
  end.

Definition fileLayer (obj : option (gmap string json)) (r : resolved) : resolved :=
  match obj with
  | None => r
  | Some obj =>
      appendCAs (default [] (fileCAs (obj !! "tlsClientCa"%string))) sourceFile
        (foldl (λ r s, apply (st_key s) (default None (fileValue (st_file s) (obj !! st_json s))) sourceFile r) r settings)
  end.

Definition nonEmpty {A} (v : string) (x : A) : option A := if bool_decide (v = "") then None else Some x.

Definition envValue (env : Env) (rule : envRule) : option value :=
  match rule with
  | NoEnv => None
  | EnvStr n => nonEmpty (env n) (VStr (env n))
  | EnvBool n => nonEmpty (env n) (VBool (bool_decide (env n = "true"%string)))
  | EnvParseBool n => VBool <$> ParseBool (env n)
  | EnvMetrics n => nonEmpty (env n) (VBool (default true (ParseBool (env n))))
  end.

Definition envCAs (env : Env) : list string :=
  let v := env "TLS_CLIENT_CAS"%string in
  if bool_decide (v = "") then [] else map (λ ca, unstr (TrimSpace ca)) (splitOn ","%char (str v)).

Definition strOf (r : resolved) (key : string) : string :=
  match rs_vals r !! key with Some (VStr s) => s | _ => "" end.
Definition boolOf (r : resolved) (key : string) : bool :=
  match rs_vals r !! key with Some (VBool b) => b | _ => false end.

(** The certificate file doubles as the PKCS12 path when nothing else is set. *)
Definition legacyPKCS12 (r : resolved) : resolved :=
  if bool_decide (strOf r "tls-client-cert" = "") && bool_decide (strOf r "tls-client-key" = "")
     && Nat.eqb (length (rs_cas r)) 0 && negb (bool_decide (strOf r "tls-client-cert-file" = ""))
  then mkResolved (<["tls-client-cert"%string := VStr (strOf r "tls-client-cert-file")]> (rs_vals r))
         (match rs_sources r !! "tls-client-cert-file"%string with
          | Some src => <["tls-client-cert"%string := src]> (rs_sources r)
          | None => delete "tls-client-cert"%string (rs_sources r)
          end) (rs_cas r)
  else r.

Definition envLayer (env : Env) (r : resolved) : resolved :=
  legacyPKCS12 (appendCAs (envCAs env) sourceEnv
    (foldl (λ r s, apply (st_key s) (envValue env (st_env s)) sourceEnv r) r settings)).

(** ** The command line *)

Definition settingOf (name : string) : option setting := list_find (λ s, st_key s = name) settings ≫= λ p, Some p.2.

(** The registered flags; [true] for those that need no value. *)
Definition flagIsBool (name : string) : option bool :=
  match settingOf name with
  | Some s => Some (match st_default s with VBool _ => true | VStr _ => false end)
  | None =>
      if bool_decide (name ∈ ["config-file"; "tls-client-ca"]%string) then Some false
      else if bool_decide (name ∈ ["auth-daemon"; "version"; "show-config"]%string) then Some true
      else None
  end.

(** What one argument says to the [flag] package. *)
Inductive arg : Type := ArgStop | ArgBad | ArgFlag (name : string) (v : option string).

Definition lexFlag (name : list ascii) : arg :=
  match name with
  | [] => ArgBad
  | c :: rest =>
      if Ascii.eqb c "-"%char || Ascii.eqb c "="%char then ArgBad
      else match cut "="%char rest with
           | (n, v) => ArgFlag (unstr (c :: n)) (unstr <$> v)
           end
  end.

Definition lexArg (a : string) : arg :=
  match str a with
  | "-"%char :: "-"%char :: [] => ArgStop
  | "-"%char :: "-"%char :: name => lexFlag name
  | "-"%char :: c :: name => lexFlag (c :: name)
  | _ => ArgStop
  end.

(** [flag.Parse]: the assignments in order; [None] where the program exits
    with the usage text. *)
Fixpoint parseFlags (args : list string) : option (list (string * value)) :=
  match args with
  | [] => Some []
  | a :: rest =>
      match lexArg a with
      | ArgStop => Some []
      | ArgBad => None
      | ArgFlag name v =>
          isBool ← flagIsBool name;
          if isBool : bool then
            b ← match v with Some t => ParseBool t | None => Some true end;
            l ← parseFlags rest; Some ((name, VBool b) :: l)
          else
            match v, rest with
            | Some t, _ => l ← parseFlags rest; Some ((name, VStr t) :: l)
            | None, t :: rest' => l ← parseFlags rest'; Some ((name, VStr t) :: l)
            | None, [] => None
            end
      end
  end.

(** The last assignment of a flag. *)
Definition flagValue (key : string) (l : list (string * value)) : option value :=
  foldl (λ acc p, if bool_decide (p.1 = key) then Some p.2 else acc) None l.
Definition flagSet (key : string) (l : list (string * value)) : bool :=
  match flagValue key l with Some (VBool b) => b | _ => false end.
Definition flagCAs (l : list (string * value)) : list string :=
  omap (λ p, if bool_decide (p.1 = "tls-client-ca"%string) then match p.2 with VStr s => Some s | _ => None end else None) l.

(** The flags' variables after parsing, then the sources that changed. *)
Definition cliLayer (l : list (string * value)) (r : resolved) : resolved :=
  let vals := foldl (λ m p, if bool_decide (is_Some (settingOf p.1)) then <[p.1 := p.2]> m else m) (rs_vals r) l in
  let r1 := appendCAs (flagCAs l) sourceCLI (mkResolved vals (rs_sources r) (rs_cas r)) in
  mkResolved (rs_vals r1)
    (foldl (λ m s, if st_marked s && negb (bool_decide (rs_vals r1 !! st_key s = rs_vals r !! st_key s))
                   then <[st_key s := sourceCLI]> m else m) (rs_sources r1) settings)
    (rs_cas r1).

(** [resolveConfigFilePath] on Linux *)
Fixpoint scanConfigFile (args : list string) : option string :=
  match args with
  | [] => None
  | a :: rest =>
      match bool_decide (a = "--config-file"%string) || bool_decide (a = "-config-file"%string), rest with
      | true, v :: _ => Some v
      | _, _ =>
          match trimPrefix (str "--config-file=") (str a) with
          | Some v => Some (unstr v)
          | None =>
              match trimPrefix (str "-config-file=") (str a) with
              | Some v => Some (unstr v)
              | None => scanConfigFile rest
              end
          end
      end
  end.

Definition resolveConfigFilePath (env : Env) (args : list string) : string :=
  match scanConfigFile args with
  | Some v => v
  | None =>
      if negb (bool_decide (env "CONFIG_FILE"%string = "")) then env "CONFIG_FILE"%string
      else filepathJoin [env "HOME"; ".config"; "newt-client"; "config.json"]%string
  end.

(** ** [loadNewtConfig] *)

Record Loaded : Type := mkLoaded {
  ld_r : resolved;
  ld_ConfigFile : string;
  ld_Port : Z;
  ld_MTU : Z;
  ld_DockerEnforce : bool;
  ld_PingInterval : Z;
  ld_PingTimeout : Z;
  ld_UDPProxyIdleTimeout : Z;
}.

Inductive outcome : Type := Exits | Fatal | Loads (c : Loaded).

(** [uint16(portInt)] of a parsed port. *)
Definition portOf (s : string) : Z :=
  if bool_decide (s = "") then 0 else match Atoi s with Some n => wrap16 n | None => 0 end.

Definition finish (r : resolved) (configFile : string) : outcome :=
  let mtu := strOf r "mtu" in
  match Atoi (if bool_decide (mtu = "") then "1280" else mtu) with
  | None => Fatal
  | Some mtuInt =>
      Loads (mkLoaded r configFile (portOf (strOf r "port")) mtuInt
        (default false (ParseBool (strOf r "docker-enforce-network-validation")))
        (parseDurationEnvOrFlag (strOf r "ping-interval") (15 * Second))
        (parseDurationEnvOrFlag (strOf r "ping-timeout") (7 * Second))
        (parseDurationEnvOrFlag (strOf r "udp-proxy-idle-timeout") (90 * Second)))
  end.

(** [fs] is the file system: what reading a path gives. *)
Definition loadNewtConfig (decode : list ascii → option (gmap string json)) (fs : string → fileRead) (env : Env)
    (args : list string) : outcome :=
  let configPath := resolveConfigFilePath env args in
  match loadFileSettings decode (fs configPath) with
  | None => Fatal
  | Some obj =>
      let r := envLayer env (fileLayer obj defaults) in
      match parseFlags args with
      | None => Exits
      | Some l =>
          let r := cliLayer l r in
          let configFile := match flagValue "config-file" l with Some (VStr p) => p | _ => configPath end in
          let r := if bool_decide (configFile = configPath) then r
                   else mkResolved (rs_vals r) (<["config-file"%string := sourceCLI]> (rs_sources r)) (rs_cas r) in
          if flagSet "version" l || flagSet "show-config" l then Exits else finish r configFile
      end
  end.

(** The source [--show-config] prints. *)
Definition getSource (r : resolved) (key : string) : configSource := default sourceDefault (rs_sources r !! key).

(** The value it prints for a setting that may be secret. *)
Definition maskValue (key value : string) : string :=
  let v := str value in
  if bool_decide (key = "secret"%string) && negb (bool_decide (value = "")) then
    if Nat.ltb 8 (length v) then unstr (take 4 v ++ str "****" ++ drop (length v - 4) v) else "****"
  else if bool_decide (value = "") then "(not set)" else value.

(** ** TLS *)

(** [validateTLSConfig]; [exists_] says which files exist. *)
Definition validateTLSConfig (exists_ : string → bool) (r : resolved) : bool :=
  let cert := strOf r "tls-client-cert-file" in
  let key := strOf r "tls-client-key" in
  let pkcs12 := strOf r "tls-client-cert" in
  let unset s := bool_decide (s = ""%string) in
  if negb (unset pkcs12) && (negb (unset cert) || negb (unset key) || Nat.ltb 0 (length (rs_cas r))) then false
  else if (negb (unset cert) && unset key) || (unset cert && negb (unset key)) then false
  else if negb (unset cert) && negb (exists_ cert) then false
  else if negb (unset key) && negb (exists_ key) then false
  else if negb (forallb exists_ (rs_cas r)) then false
  else if negb (unset pkcs12) && negb (exists_ pkcs12) then false
  else true.

(** The client option [Init] builds. *)
Definition tlsOption (r : resolved) : option ClientOption :=
  if negb (bool_decide (strOf r "tls-client-cert-file" = "")) && negb (bool_decide (strOf r "tls-client-key" = "")) then
    Some (WithTLSConfig (mkTLS (strOf r "tls-client-cert-file") (strOf r "tls-client-key") (rs_cas r) ""))
  else if negb (bool_decide (strOf r "tls-client-cert" = "")) then
    Some (WithTLSConfig (mkTLS "" "" [] (strOf r "tls-client-cert")))
  else None.

Definition withProvisioning (key name : string) (w : wsClient) : wsClient :=
  let c := wc_config w in
  set_cfg (mkConfig (cfg_ID c) (cfg_Secret c) (cfg_Endpoint c) (cfg_TlsClientCert c) key name (cfg_Blocked c)) w.

(** [Init]: the websocket client it makes and the object written to the
    configuration file, if any. *)
Definition Init (decode : list ascii → option (gmap string json)) (fs : string → fileRead) (writes : bool) (env : Env)
    (resp : provResponse) (c : Loaded) : option (wsClient * option (gmap string json)) :=
  let r := ld_r c in
  let file := fs (getConfigPath env "newt" (ld_ConfigFile c)) in
  w ← NewClient (strOf r "id") (strOf r "secret") (strOf r "endpoint") (30 * Second)
        [tlsOption r; Some (WithConfigFile (ld_ConfigFile c))] file;
  let '(out, w', ok) := provisionIfNeeded decode resp file writes
                          (withProvisioning (strOf r "provisioning-key") (strOf r "name") w) in
  if ok : bool then Some (w', out) else None.

(** ** Lemmas: one layer *)

(** A decidable fact about the table. *)
Ltac by_table := apply (bool_decide_unpack _); vm_compute; exact I.

Lemma settings_nodup : NoDup (map st_key settings).
Proof. by_table. Qed.

Lemma settingOf_key s : s ∈ settings → settingOf (st_key s) = Some s.
Proof.
  intros Hs. unfold settingOf. destruct (list_find (λ s', st_key s' = st_key s) settings) as [[i s']|] eqn:E; simpl.
  - apply list_find_Some in E as (Hi & Hk & _). f_equal. apply list_elem_of_lookup in Hs as [j Hj].
    assert (i = j) as <-; [|congruence]. eapply (NoDup_lookup (map st_key settings) i j (st_key s)); [apply settings_nodup|..];
      rewrite list_lookup_fmap; [by rewrite Hi, <- Hk|by rewrite Hj].
  - by apply list_find_None, Forall_forall with (x := s) in E.
Qed.

(** A layer that applies a value per setting. *)
Lemma apply_layer_other (f : setting → option value) src l r k :
  k ∉ map st_key l →
  let r' := foldl (λ r s, apply (st_key s) (f s) src r) r l in
  rs_vals r' !! k = rs_vals r !! k ∧ rs_sources r' !! k = rs_sources r !! k.
Proof.
  revert r. induction l as [|s l IH]; intros r Hk; [done|]. simpl in *. apply not_elem_of_cons in Hk as [Hne Hk].
  destruct (IH (apply (st_key s) (f s) src r) Hk) as [-> ->]. unfold apply. destruct (f s); simpl; by simplify_map_eq.
Qed.

Lemma apply_layer (f : setting → option value) src l r s :
  NoDup (map st_key l) → s ∈ l →
  let r' := foldl (λ r s, apply (st_key s) (f s) src r) r l in
  rs_vals r' !! st_key s = (match f s with Some v => Some v | None => rs_vals r !! st_key s end) ∧
  rs_sources r' !! st_key s = (match f s with Some _ => Some src | None => rs_sources r !! st_key s end).
Proof.
  revert r. induction l as [|s' l IH]; intros r Hnd Hs; simpl in *; [by apply not_elem_of_nil in Hs|].
  apply NoDup_cons in Hnd as [Hn Hnd]. apply elem_of_cons in Hs as [->|Hs].
  - destruct (apply_layer_other f src l (apply (st_key s') (f s') src r) (st_key s') Hn) as [-> ->].
    unfold apply. destruct (f s'); simpl; by simplify_map_eq.
  - destruct (IH (apply (st_key s') (f s') src r) Hnd Hs) as [-> ->].
    assert (st_key s ≠ st_key s') as Hne by (intros E; apply Hn; rewrite <- E; by apply list_elem_of_fmap_2).
    unfold apply. destruct (f s'); simpl; by simplify_map_eq.
Qed.

Lemma appendCAs_vals l src r : rs_vals (appendCAs l src r) = rs_vals r.
Proof. by destruct l. Qed.
Lemma appendCAs_sources l src r k : k ≠ "tls-client-ca"%string → rs_sources (appendCAs l src r) !! k = rs_sources r !! k.
Proof. intros. destruct l; [done|]. simpl. by simplify_map_eq. Qed.
Lemma settings_not_ca s : s ∈ settings → st_key s ≠ "tls-client-ca"%string ∧ st_key s ≠ "config-file"%string.
Proof.
  intros Hs. assert (Forall (λ s, st_key s ≠ "tls-client-ca"%string ∧ st_key s ≠ "config-file"%string) settings) as H.
  { by_table. }
  by apply (proj1 (Forall_forall _ _) H).
Qed.

Definition fileV (obj : option (gmap string json)) (s : setting) : option value :=
  obj ≫= λ o, default None (fileValue (st_file s) (o !! st_json s)).

Lemma fileLayer_spec obj r s :
  s ∈ settings →
  rs_vals (fileLayer obj r) !! st_key s = (match fileV obj s with Some v => Some v | None => rs_vals r !! st_key s end) ∧
  rs_sources (fileLayer obj r) !! st_key s = (match fileV obj s with Some _ => Some sourceFile | None => rs_sources r !! st_key s end).
Proof.
  intros Hs. destruct obj as [o|]; simpl; [|done]. rewrite appendCAs_vals, appendCAs_sources by (by apply settings_not_ca).
  exact (apply_layer (λ s, default None (fileValue (st_file s) (o !! st_json s))) sourceFile settings r s settings_nodup Hs).
Qed.

Lemma legacy_other r k :
  k ≠ "tls-client-cert"%string →
  rs_vals (legacyPKCS12 r) !! k = rs_vals r !! k ∧ rs_sources (legacyPKCS12 r) !! k = rs_sources r !! k.
Proof.
  intros Hk. unfold legacyPKCS12. destruct (_ && _); [|done]. simpl. split; [by simplify_map_eq|].
  destruct (rs_sources r !! "tls-client-cert-file"%string); by simplify_map_eq.
Qed.

Lemma envLayer_spec env r s :
  s ∈ settings → st_key s ≠ "tls-client-cert"%string →
  rs_vals (envLayer env r) !! st_key s =
    (match envValue env (st_env s) with Some v => Some v | None => rs_vals r !! st_key s end) ∧
  rs_sources (envLayer env r) !! st_key s =
    (match envValue env (st_env s) with Some _ => Some sourceEnv | None => rs_sources r !! st_key s end).
Proof.
  intros Hs Hk. unfold envLayer. destruct (legacy_other (appendCAs (envCAs env) sourceEnv
    (foldl (λ r s, apply (st_key s) (envValue env (st_env s)) sourceEnv r) r settings)) _ Hk) as [-> ->].
  rewrite appendCAs_vals, appendCAs_sources by (by apply settings_not_ca).
  exact (apply_layer (λ s, envValue env (st_env s)) sourceEnv settings r s settings_nodup Hs).
Qed.

Lemma defaults_spec s : s ∈ settings → rs_vals defaults !! st_key s = Some (st_default s) ∧ rs_sources defaults !! st_key s = None.
Proof.
  intros Hs. split; [|done]. apply elem_of_list_to_map_1.
  - pose proof settings_nodup as H. by rewrite <- list_fmap_compose.
  - apply list_elem_of_fmap. by exists s.
Qed.

Lemma flag_vals (l : list (string * value)) (m : gmap string value) k :
  is_Some (settingOf k) →
  foldl (λ m p, if bool_decide (is_Some (settingOf p.1)) then <[p.1 := p.2]> m else m) m l !! k =
  (match flagValue k l with Some v => Some v | None => m !! k end).
Proof.
  intros Hk. unfold flagValue. assert (∀ (l : list (string * value)) (m : gmap string value) (acc : option value), m !! k = acc ∨ acc = None →
    foldl (λ m p, if bool_decide (is_Some (settingOf p.1)) then <[p.1 := p.2]> m else m) m l !! k =
    match foldl (λ acc p, if bool_decide (p.1 = k) then Some p.2 else acc) acc l with Some v => Some v | None => m !! k end) as Hgen.
  { clear l m. induction l as [|[k' v] l IH]; intros m acc Hacc; simpl; [destruct Hacc as [<-| ->]; by destruct (m !! k)|].
    destruct (decide (k' = k)) as [->|Hne].
    - rewrite (bool_decide_true (k = k)), (bool_decide_true (is_Some _)) by done.
      rewrite (IH _ (Some v)) by (left; by simplify_map_eq).
      destruct (foldl _ (Some v) l) eqn:E; [done|]. exfalso. clear -E. revert E. generalize v as v0.
      induction l as [|[k' v'] l IH]; intros v0; [done|]. simpl. case_bool_decide; apply IH.
    - rewrite (bool_decide_false (k' = k)) by done.
      rewrite (IH _ acc) by (case_bool_decide; simplify_map_eq; done).
      destruct (foldl _ acc l); [done|]. case_bool_decide; by simplify_map_eq. }
  apply Hgen. by right.
Qed.

Lemma mark_fold (p : setting → bool) l (m : gmap string configSource) s :
  NoDup (map st_key l) → s ∈ l →
  foldl (λ m s, if p s then <[st_key s := sourceCLI]> m else m) m l !! st_key s =
  if p s then Some sourceCLI else m !! st_key s.
Proof.
  revert m. assert (∀ l (m : gmap string configSource) k, k ∉ map st_key l →
    foldl (λ m s, if p s then <[st_key s := sourceCLI]> m else m) m l !! k = m !! k) as Hother.
  { clear. induction l as [|s l IH]; intros m k Hk; [done|]. simpl in *. apply not_elem_of_cons in Hk as [Hne Hk].
    rewrite IH by done. destruct (p s); by simplify_map_eq. }
  induction l as [|s' l IH]; intros m Hnd Hs; simpl in *; [by apply not_elem_of_nil in Hs|].
  apply NoDup_cons in Hnd as [Hn Hnd]. apply elem_of_cons in Hs as [->|Hs].
  - rewrite Hother by done. destruct (p s'); by simplify_map_eq.
  - rewrite IH by done. assert (st_key s ≠ st_key s') by (intros E; apply Hn; rewrite <- E; by apply list_elem_of_fmap_2).
    destruct (p s), (p s'); by simplify_map_eq.
Qed.

Lemma cliLayer_spec l r s :
  s ∈ settings →
  rs_vals (cliLayer l r) !! st_key s = (match flagValue (st_key s) l with Some v => Some v | None => rs_vals r !! st_key s end) ∧
  rs_sources (cliLayer l r) !! st_key s =
    (if st_marked s && negb (bool_decide (rs_vals (cliLayer l r) !! st_key s = rs_vals r !! st_key s))
     then Some sourceCLI else rs_sources r !! st_key s).
Proof.
  intros Hs. unfold cliLayer. cbn [rs_vals rs_sources]. rewrite appendCAs_vals. cbn [rs_vals].
  split; [apply flag_vals; by rewrite settingOf_key|].
  rewrite (mark_fold (λ s, st_marked s && _)) by (done || apply settings_nodup).
  by rewrite appendCAs_sources by (by apply settings_not_ca).
Qed.

(** ** Lemmas: the whole load *)

(** The rows of the credentials. *)
Definition idRow : setting := mkSetting "id" "id" (VStr "") FileStr (EnvStr "NEWT_ID") true.
Definition secretRow : setting := mkSetting "secret" "secret" (VStr "") FileStr (EnvStr "NEWT_SECRET") true.
Lemma credential_rows : idRow ∈ settings ∧ secretRow ∈ settings.
Proof. split; [right; left|right; right; left]. Qed.

#[local] Opaque settings.

Lemma loads_inv decode fs env args c :
  loadNewtConfig decode fs env args = Loads c →
  ∃ obj l, loadFileSettings decode (fs (resolveConfigFilePath env args)) = Some obj ∧ parseFlags args = Some l ∧
    rs_vals (ld_r c) = rs_vals (cliLayer l (envLayer env (fileLayer obj defaults))) ∧
    rs_cas (ld_r c) = rs_cas (cliLayer l (envLayer env (fileLayer obj defaults))) ∧
    (∀ k, k ≠ "config-file"%string →
       rs_sources (ld_r c) !! k = rs_sources (cliLayer l (envLayer env (fileLayer obj defaults))) !! k) ∧
    finish (ld_r c) (ld_ConfigFile c) = Loads c ∧
    ld_ConfigFile c = (match flagValue "config-file" l with Some (VStr p) => p | _ => resolveConfigFilePath env args end).
Proof.
  unfold loadNewtConfig. destruct (loadFileSettings _ _) as [obj|]; [|done]. destruct (parseFlags args) as [l|]; [|done].
  intros Hf. exists obj, l. revert Hf. generalize (cliLayer l (envLayer env (fileLayer obj defaults))). intros r.
  generalize (match flagValue "config-file" l with Some (VStr p) => p | _ => resolveConfigFilePath env args end). intros cf.
  destruct (_ || _); [done|]. intros Hf.
  assert (∀ r', finish r' cf = Loads c → ld_r c = r' ∧ ld_ConfigFile c = cf) as Hfin.
  { intros r'. unfold finish. destruct (Atoi _); [|done]. intros [= <-]. done. }
  destruct (Hfin _ Hf) as [Hr Hcf]. rewrite Hcf. split; [done|]. split; [done|]. rewrite <- Hr in Hf. split_and!; [..|done|done]; rewrite Hr.
  - by destruct (bool_decide _).
  - by destruct (bool_decide _).
  - intros k Hk. destruct (bool_decide _); [done|]. cbn [rs_sources]. by rewrite lookup_insert_ne.
Qed.

Definition sameKind (v w : value) : bool :=
  match v, w with VStr _, VStr _ | VBool _, VBool _ => true | _, _ => false end.

(** The rules of a row fit the type of its variable. *)
Definition rowTyped (s : setting) : bool :=
  sameKind (st_default s) (match st_file s with FileBool => VBool true | _ => VStr "" end)
  && match st_env s with NoEnv => true | EnvStr _ => sameKind (st_default s) (VStr "") | _ => sameKind (st_default s) (VBool true) end.

Lemma rows_typed s : s ∈ settings → rowTyped s = true.
Proof.
  intros Hs. assert (Forall (λ s, rowTyped s = true) settings) as H by (by_table).
  by apply (proj1 (Forall_forall _ _) H).
Qed.

Lemma parseFlags_typed args l s :
  s ∈ settings → parseFlags args = Some l → Forall (λ p, p.1 = st_key s → sameKind (st_default s) p.2 = true) l.
Proof.
  intros Hs. revert l. induction args as [args IH] using (induction_ltof1 _ length). intros l. destruct args as [|a rest]; simpl; [by intros [= <-]|].
  destruct (lexArg a) as [| |name v]; [by intros [= <-]|done|].
  destruct (flagIsBool name) as [b|] eqn:Eb; simpl; [|done].
  assert (name = st_key s → b = match st_default s with VBool _ => true | VStr _ => false end) as Hb.
  { intros ->. unfold flagIsBool in Eb. rewrite settingOf_key in Eb by done. congruence. }
  destruct b.
  - destruct (match v with Some t => ParseBool t | None => Some true end); simpl; [|done].
    destruct (parseFlags rest) as [l'|] eqn:El; simpl; [|done]. intros [= <-].
    constructor; [simpl; intros Hn; specialize (Hb Hn); by destruct (st_default s)|]. apply (IH rest); [unfold ltof; simpl; lia|done].
  - destruct v as [t|]; [|destruct rest as [|t rest']; [done|]].
    + destruct (parseFlags rest) as [l'|] eqn:El; simpl; [|done]. intros [= <-].
      constructor; [simpl; intros Hn; specialize (Hb Hn); by destruct (st_default s)|]. apply (IH rest); [unfold ltof; simpl; lia|done].
    + destruct (parseFlags rest') as [l'|] eqn:El; simpl; [|done]. intros [= <-].
      constructor; [simpl; intros Hn; specialize (Hb Hn); by destruct (st_default s)|]. apply (IH rest'); [unfold ltof; simpl; lia|done].
Qed.

Lemma flagValue_elem k l v : flagValue k l = Some v → (k, v) ∈ l.
Proof.
  unfold flagValue. assert (∀ l acc, foldl (λ acc p, if bool_decide (p.1 = k) then Some p.2 else acc) acc l = Some v →
    acc = Some v ∨ (k, v) ∈ l) as Hgen.
  { clear l. induction l as [|[k' v'] l IH]; intros acc; [by left|]. simpl. intros H. apply IH in H as [H|H]; [|right; by right].
    case_bool_decide as E; simpl in *; [|by left]. simplify_eq. right. by left. }
  intros H. apply Hgen in H as [?|?]; done.
Qed.

(** The value of a setting below the flags. *)
Definition belowCLI (env : Env) (obj : option (gmap string json)) (s : setting) : value :=
  match envValue env (st_env s), fileV obj s with Some v, _ => v | None, Some v => v | None, None => st_default s end.

Lemma envValue_typed env d rule v :
  envValue env rule = Some v →
  match rule with NoEnv => true | EnvStr _ => sameKind d (VStr "") | _ => sameKind d (VBool true) end = true → sameKind d v = true.
Proof.
  destruct rule as [|n|n|n|n]; simpl; unfold nonEmpty; [done|destruct (bool_decide _); [done|]..| |]; try (by intros [= <-]; destruct d).
  - destruct (ParseBool (env n)); [|done]. simpl. intros [= <-]. by destruct d.
  - destruct (bool_decide _); [done|]. intros [= <-]. by destruct d.
Qed.

Lemma fileValue_typed d r j v :
  fileValue r j = Some (Some v) → sameKind d (match r with FileBool => VBool true | _ => VStr "" end) = true → sameKind d v = true.
Proof.
  destruct j as [[| | z | | |]|], r; simpl; try done; try (intros [= <-]; by destruct d).
  destruct ((_ <=? z) && _); [|done]. intros [= <-]. by destruct d.
Qed.

(** Every setting has a value of the type of its variable. *)
Definition all_typed (r : resolved) : Prop :=
  ∀ s, s ∈ settings → ∃ v, rs_vals r !! st_key s = Some v ∧ sameKind (st_default s) v = true.

Lemma defaults_typed : all_typed defaults.
Proof. intros s Hs. exists (st_default s). split; [by apply defaults_spec|by destruct (st_default s)]. Qed.

Lemma file_typed obj r : all_typed r → all_typed (fileLayer obj r).
Proof.
  intros Hr s Hs. rewrite (proj1 (fileLayer_spec obj r s Hs)). destruct (fileV obj s) as [v|] eqn:Ef; [|by apply Hr].
  exists v. split; [done|]. unfold fileV in Ef. destruct obj as [o|]; simpl in Ef; [|done].
  destruct (fileValue (st_file s) (o !! st_json s)) as [[w|]|] eqn:E; simpl in Ef; simplify_eq.
  eapply fileValue_typed; [exact E|]. by apply rows_typed, andb_true_iff in Hs as [? _].
Qed.

Lemma legacy_typed r : all_typed r → all_typed (legacyPKCS12 r).
Proof.
  intros Hr s Hs. destruct (decide (st_key s = "tls-client-cert"%string)) as [E|Hne].
  - unfold legacyPKCS12. destruct (_ && _); [|by apply Hr]. cbn [rs_vals]. rewrite E, lookup_insert_eq. eexists. split; [done|].
    pose proof (settingOf_key s Hs) as Hk. rewrite E in Hk. vm_compute in Hk. by injection Hk as <-.
  - rewrite (proj1 (legacy_other r _ Hne)). by apply Hr.
Qed.

Lemma env_typed env r : all_typed r → all_typed (envLayer env r).
Proof.
  intros Hr. apply legacy_typed. intros s Hs. rewrite appendCAs_vals.
  rewrite (proj1 (apply_layer (λ s, envValue env (st_env s)) sourceEnv settings r s settings_nodup Hs)).
  destruct (envValue env (st_env s)) as [v|] eqn:E; [|by apply Hr]. exists v. split; [done|].
  eapply envValue_typed; [exact E|]. by apply rows_typed, andb_true_iff in Hs as [_ ?].
Qed.

Lemma cli_typed args l r : parseFlags args = Some l → all_typed r → all_typed (cliLayer l r).
Proof.
  intros Hl Hr s Hs. rewrite (proj1 (cliLayer_spec l r s Hs)). destruct (flagValue (st_key s) l) as [v|] eqn:Ef; [|by apply Hr].
  exists v. split; [done|]. apply flagValue_elem in Ef. pose proof (parseFlags_typed args l s Hs Hl) as Ht.
  by apply (proj1 (Forall_forall _ _) Ht _ Ef).
Qed.

Lemma bool_decide_Some_eq (v w : value) : bool_decide (Some v = Some w) = bool_decide (v = w).
Proof. apply bool_decide_ext. naive_solver. Qed.

(** The value of a setting below the flags and with them. *)
Lemma layers_value env obj l s :
  s ∈ settings → st_key s ≠ "tls-client-cert"%string →
  rs_vals (envLayer env (fileLayer obj defaults)) !! st_key s = Some (belowCLI env obj s) ∧
  rs_vals (cliLayer l (envLayer env (fileLayer obj defaults))) !! st_key s
    = Some (default (belowCLI env obj s) (flagValue (st_key s) l)).
Proof.
  intros Hs Hk. destruct (cliLayer_spec l (envLayer env (fileLayer obj defaults)) s Hs) as [H1 _].
  destruct (envLayer_spec env (fileLayer obj defaults) s Hs Hk) as [E1 _].
  destruct (fileLayer_spec obj defaults s Hs) as [F1 _]. destruct (defaults_spec s Hs) as [D1 _].
  assert (rs_vals (envLayer env (fileLayer obj defaults)) !! st_key s = Some (belowCLI env obj s)) as Hb.
  { rewrite E1, F1, D1. unfold belowCLI. destruct (envValue env (st_env s)), (fileV obj s); reflexivity. }
  split; [exact Hb|]. rewrite H1, Hb. destruct (flagValue (st_key s) l); reflexivity.
Qed.

(** ** Properties *)

(** Every setting resolves with priority flag, environment, file, default.
    When loading succeeds, the value of a setting is that of the last flag
    that names it, or else the environment's, or else the file's, or else the
    built-in default.  The source that
    --show-config prints is the layer the value came from, except that a flag
    that repeats the value below it is not seen, and that for the setting not
    marked (prefer-endpoint) the flag is never seen.  (The PKCS12 path has a
    fallback of its own.) *)
Theorem settings_precedence decode fs env args c :
  loadNewtConfig decode fs env args = Loads c →
  ∃ obj l, loadFileSettings decode (fs (resolveConfigFilePath env args)) = Some obj ∧ parseFlags args = Some l ∧
  ∀ s, s ∈ settings → st_key s ≠ "tls-client-cert"%string →
  let v := default (belowCLI env obj s) (flagValue (st_key s) l) in
  rs_vals (ld_r c) !! st_key s = Some v ∧
  getSource (ld_r c) (st_key s) =
    (if st_marked s && negb (bool_decide (v = belowCLI env obj s)) then sourceCLI
     else match envValue env (st_env s), fileV obj s with
          | Some _, _ => sourceEnv | None, Some _ => sourceFile | None, None => sourceDefault end).
Proof.
  intros (obj & l & Hobj & Hl & Hv & _ & Hsrc & _)%loads_inv. exists obj, l. split; [done|]. split; [done|].
  intros s Hs Hk. cbn zeta. unfold getSource. rewrite Hv, Hsrc by (by apply settings_not_ca).
  destruct (layers_value env obj l s Hs Hk) as [Hb Ht].
  destruct (cliLayer_spec l (envLayer env (fileLayer obj defaults)) s Hs) as [_ H2].
  destruct (envLayer_spec env (fileLayer obj defaults) s Hs Hk) as [_ E2].
  destruct (fileLayer_spec obj defaults s Hs) as [_ F2]. destruct (defaults_spec s Hs) as [_ D2].
  split.
  - exact Ht.
  - rewrite H2, Ht, Hb. rewrite E2, F2, D2.
    rewrite bool_decide_Some_eq. clear H2.
    destruct (st_marked s && _); [reflexivity|]. destruct (envValue env (st_env s)), (fileV obj s); reflexivity.
Qed.


(** ** The TLS settings *)

(** What [validateTLSConfig] accepts, and what becomes of it.  A
    configuration that passes has a certificate with its key, or a PKCS12
    file, or neither, never a mix, and every file it names exists; the client
    then uses exactly that material, but certificate authorities given alone
    pass and are dropped.  A certificate path alone (the legacy form that the
    load copies to the PKCS12 path) never passes, also when the flags supply
    the key. *)
Theorem tls_validation exists_ r :
  (validateTLSConfig exists_ r = true →
     (strOf r "tls-client-cert-file" = "" ↔ strOf r "tls-client-key" = "") ∧
     (strOf r "tls-client-cert" ≠ "" → strOf r "tls-client-cert-file" = "" ∧ rs_cas r = []) ∧
     Forall (λ f, exists_ f = true) (rs_cas r) ∧
     (∀ k, k ∈ ["tls-client-cert-file"; "tls-client-key"; "tls-client-cert"]%string → strOf r k ≠ "" → exists_ (strOf r k) = true) ∧
     tlsOption r =
       (if bool_decide (strOf r "tls-client-cert-file" ≠ "") then
          Some (WithTLSConfig (mkTLS (strOf r "tls-client-cert-file") (strOf r "tls-client-key") (rs_cas r) ""))
        else if bool_decide (strOf r "tls-client-cert" ≠ "") then Some (WithTLSConfig (mkTLS "" "" [] (strOf r "tls-client-cert")))
        else None)) ∧
  (strOf r "tls-client-cert-file" ≠ "" → strOf r "tls-client-key" = "" → strOf r "tls-client-cert" = "" → rs_cas r = [] →
     ∀ l, flagValue "tls-client-cert" l = None → flagValue "tls-client-cert-file" l = None →
     validateTLSConfig exists_ (cliLayer l (legacyPKCS12 r)) = false).
Proof.
  split.
  - unfold validateTLSConfig, tlsOption.
    destruct (decide (strOf r "tls-client-cert" = "")) as [H1|H1], (decide (strOf r "tls-client-cert-file" = "")) as [H2|H2],
      (decide (strOf r "tls-client-key" = "")) as [H3|H3];
      rewrite ?(bool_decide_true _ H1), ?(bool_decide_true _ H2), ?(bool_decide_true _ H3),
        ?(bool_decide_false _ H1), ?(bool_decide_false _ H2), ?(bool_decide_false _ H3); simpl; try done.
    + destruct (forallb exists_ (rs_cas r)) eqn:Ef; [|done]. intros _.
      split_and!; [naive_solver|naive_solver| | |by rewrite !bool_decide_false by naive_solver].
      * apply Forall_forall. intros x Hx. apply forallb_forall with (x := x) in Ef; [done|by apply list_elem_of_In].
      * intros k Hk. set_unfold. naive_solver.
    + destruct (exists_ (strOf r "tls-client-cert-file")) eqn:E1; [|done]. destruct (exists_ (strOf r "tls-client-key")) eqn:E2; [|done].
      simpl. destruct (forallb exists_ (rs_cas r)) eqn:Ef; [|done]. intros _.
      split_and!; [naive_solver|naive_solver| | |done].
      * apply Forall_forall. intros x Hx. apply forallb_forall with (x := x) in Ef; [done|by apply list_elem_of_In].
      * intros k Hk. set_unfold. naive_solver.
    + destruct (rs_cas r) eqn:Er; simpl; [|done]. destruct (exists_ (strOf r "tls-client-cert")) eqn:E1; [|done]. intros _.
      split_and!; [naive_solver|naive_solver|done| |by rewrite bool_decide_false by naive_solver].
      intros k Hk. set_unfold. naive_solver.
  - intros Hc Hk Hp Hcas l F1 F2.
    assert (settingOf "tls-client-cert" <> None ∧ settingOf "tls-client-cert-file" <> None) as [S1 S2] by (split; vm_compute; discriminate).
    assert (∀ k, settingOf k <> None → flagValue k l = None → strOf (cliLayer l (legacyPKCS12 r)) k = strOf (legacyPKCS12 r) k) as Hs.
    { intros k Hset Hf. unfold strOf, cliLayer. cbn [rs_vals]. rewrite appendCAs_vals. cbn [rs_vals].
      rewrite flag_vals by (by apply not_eq_None_Some). by rewrite Hf. }
    assert (strOf (legacyPKCS12 r) "tls-client-cert" = strOf r "tls-client-cert-file" ∧
            strOf (legacyPKCS12 r) "tls-client-cert-file" = strOf r "tls-client-cert-file") as [L1 L2].
    { unfold legacyPKCS12. rewrite (bool_decide_true _ Hp), (bool_decide_true _ Hk), Hcas, (bool_decide_false _ Hc). simpl.
      unfold strOf. simpl. by simplify_map_eq. }
    unfold validateTLSConfig. rewrite (Hs _ S1 F1), (Hs _ S2 F2), L1, L2.
    rewrite (bool_decide_false _ Hc). done.
Qed.

(** ** Starting again after provisioning *)

(** A client that wrote its file while provisioning. *)
Lemma provision_saved decode resp file writes w obj w' :
  provisionIfNeeded decode resp file writes w = (Some obj, w', true) →
  cfg_ID (wc_config w') ≠ "" ∧ cfg_Secret (wc_config w') ≠ "" ∧ obj = mergeConfig (wc_config w') (existingObject decode file).
Proof.
  unfold provisionIfNeeded. destruct (bool_decide _); [done|]. destruct (negb _ && negb _); [done|].
  destruct resp as [|status body]; [done|]. destruct (_ || _); [done|]. destruct body as [[[[|] id] secret]|]; [|done..].
  simpl. destruct (bool_decide (id = "") || _) eqn:E; [done|].
  apply orb_false_iff in E as [Hid%bool_decide_eq_false Hs%bool_decide_eq_false].
  unfold saveConfig. simpl. destruct writes; [|done]. intros [= <- <-]. done.
Qed.

(** With both credentials present nothing is requested. *)
Lemma provision_skipped decode resp file writes w :
  cfg_ID (wc_config w) ≠ "" → cfg_Secret (wc_config w) ≠ "" → provisionIfNeeded decode resp file writes w = (None, w, true).
Proof.
  intros H1 H2. unfold provisionIfNeeded. destruct (bool_decide (cfg_ProvisioningKey _ = "")); [done|].
  by rewrite (bool_decide_false _ H1), (bool_decide_false _ H2).
Qed.

Lemma wellTyped_merge c obj : wellTyped obj = true → wellTyped (mergeConfig c obj) = true.
Proof.
  destruct (mergeConfig_own c obj) as (H1 & H2 & H3 & H4 & H5 & H6). unfold wellTyped. rewrite !andb_true_iff. intros [Ht Hca]. split.
  - apply forallb_forall. intros s Hs. rewrite forallb_forall in Ht. specialize (Ht s Hs).
    assert (Forall (λ s, st_json s ∈ credentialKeys → st_file s = FileStr) settings) as Hrows
      by (by_table).
    apply bool_decide_eq_true. apply bool_decide_eq_true in Ht. destruct (decide (st_json s ∈ credentialKeys)) as [Hk|Hk].
    + rewrite (proj1 (Forall_forall _ _) Hrows s) by (done || by apply list_elem_of_In).
      assert (∀ v, is_Some (fileValue FileStr (optional v))) as Hopt by (intros v; unfold optional; destruct (bool_decide (v = "")); simpl; eexists; reflexivity).
      unfold credentialKeys in Hk. repeat (apply elem_of_cons in Hk as [Hk|Hk]; [rewrite Hk; (rewrite H1 || rewrite H2 || rewrite H3
        || rewrite H4 || rewrite H5 || rewrite H6); (apply Hopt || (simpl; eexists; reflexivity))|]). by apply not_elem_of_nil in Hk.
    + rewrite mergeConfig_other by done. exact Ht.
  - rewrite mergeConfig_other; [done|]. by_table.
Qed.

(** What a start reads is what the credential save merges into. *)
Lemma existing_wellTyped decode file o : loadFileSettings decode file = Some o → wellTyped (existingObject decode file) = true.
Proof.
  assert (wellTyped ∅ = true) as He by (vm_compute; reflexivity).
  unfold loadFileSettings, existingObject. destruct file as [| |data]; [done|done|].
  destruct (Nat.eqb_spec (length (TrimSpace data)) 0) as [->|Hn]; [done|].
  destruct (Nat.ltb_spec 0 (length (TrimSpace data))); [|done].
  destruct (decode data) as [m|]; simpl; [|done]. by destruct (wellTyped m).
Qed.

Lemma credential_value env obj l s name v :
  s ∈ settings → st_key s ≠ "tls-client-cert"%string → st_env s = EnvStr name → st_file s = FileStr →
  env name = "" → flagValue (st_key s) l = None → obj !! st_json s = Some (JStr v) →
  rs_vals (cliLayer l (envLayer env (fileLayer (Some obj) defaults))) !! st_key s = Some (VStr v).
Proof.
  intros Hs Hk He Hf Hn Hl Hv. destruct (layers_value env (Some obj) l s Hs Hk) as [_ ->]. rewrite Hl.
  unfold belowCLI. rewrite He. simpl. unfold nonEmpty. rewrite (bool_decide_true _ Hn). simpl. by rewrite Hf, Hv.
Qed.

(** Credentials survive a restart.  When a start exchanged its
    provisioning key and wrote the configuration file, the file it wrote loads
    at the next start (its other settings untouched and still well typed); and
    unless that start overrides them by flag or environment, its client holds
    the same identity and secret and asks the server for nothing, whatever
    provisioning key is still configured. *)
Theorem credentials_survive_restart decode fs1 env1 args1 c1 resp1 w1 obj text fs2 env2 args2 p :
  loadNewtConfig decode fs1 env1 args1 = Loads c1 → resolveConfigFilePath env1 args1 = p →
  getConfigPath env1 "newt" (ld_ConfigFile c1) = p →
  Init decode fs1 true env1 resp1 c1 = Some (w1, Some obj) →
  decode text = Some obj → TrimSpace text ≠ [] →
  fs2 p = FileData text → resolveConfigFilePath env2 args2 = p →
  (∀ l, parseFlags args2 = Some l → flagValue "id" l = None ∧ flagValue "secret" l = None) →
  env2 "NEWT_ID"%string = "" → env2 "NEWT_SECRET"%string = "" →
  loadFileSettings decode (fs2 p) = Some (Some obj) ∧
  (∀ k, k ∉ credentialKeys → obj !! k = existingObject decode (fs1 p) !! k) ∧
  ∀ c2 resp2 writes2, loadNewtConfig decode fs2 env2 args2 = Loads c2 →
    getConfigPath env2 "newt" (ld_ConfigFile c2) = p →
    ∃ w2, Init decode fs2 writes2 env2 resp2 c2 = Some (w2, None) ∧ cfg_ID (wc_config w2) = cfg_ID (wc_config w1) ∧
      cfg_Secret (wc_config w2) = cfg_Secret (wc_config w1).
Proof.
  intros Hload1 Hp1 Hcp1 Hinit1 Hdec Htext Hfs2 Hp2 Hflags Hid Hsec.
  unfold Init in Hinit1. rewrite Hcp1 in Hinit1. destruct (NewClient _ _ _ _ _ _) as [w0|]; [|done]. simpl in Hinit1.
  destruct (provisionIfNeeded _ _ _ _ _) as [[out w'] [|]] eqn:Eprov; [|done]. injection Hinit1 as -> ->.
  destruct (provision_saved _ _ _ _ _ _ _ Eprov) as (Hid1 & Hsec1 & ->).
  destruct (loads_inv _ _ _ _ _ Hload1) as (o1 & l1 & Ho1 & _). rewrite Hp1 in Ho1.
  assert (loadFileSettings decode (fs2 p) = Some (Some (mergeConfig (wc_config w1) (existingObject decode (fs1 p))))) as Hl2.
  { rewrite Hfs2. simpl. destruct (TrimSpace text) eqn:Et; [done|]. cbn [length Nat.eqb]. rewrite Hdec. cbn [mbind option_bind].
    by rewrite (wellTyped_merge _ _ (existing_wellTyped _ _ _ Ho1)). }
  split; [exact Hl2|]. split; [intros k Hk; by apply mergeConfig_other|]. intros c2 resp2 writes2 Hload2 Hcp2.
  destruct (loads_inv _ _ _ _ _ Hload2) as (o2 & l2 & Ho2 & Hpf2 & Hv2 & _). rewrite Hp2, Hl2 in Ho2. injection Ho2 as <-.
  destruct (Hflags l2 Hpf2) as [F1 F2]. destruct credential_rows as [R1 R2].
  destruct (mergeConfig_own (wc_config w1) (existingObject decode (fs1 p))) as (M1 & M2 & _).
  assert (strOf (ld_r c2) "id" = cfg_ID (wc_config w1)) as Eid.
  { unfold strOf. rewrite Hv2. erewrite (credential_value env2 _ l2 idRow) by (reflexivity || eassumption || discriminate). reflexivity. }
  assert (strOf (ld_r c2) "secret" = cfg_Secret (wc_config w1)) as Esec.
  { unfold strOf. rewrite Hv2. erewrite (credential_value env2 _ l2 secretRow) by (reflexivity || eassumption || discriminate). reflexivity. }
  unfold Init. rewrite Hcp2, Hfs2, Eid, Esec.
  destruct (new_client_config (cfg_ID (wc_config w1)) (cfg_Secret (wc_config w1)) (strOf (ld_r c2) "endpoint") (30 * Second)
    [tlsOption (ld_r c2); Some (WithConfigFile (ld_ConfigFile c2))] text) as (w2 & -> & Ei & Es). simpl.
  rewrite provision_skipped by (simpl; congruence). eexists. split; [reflexivity|]. done.
Qed.

(** ** Examples *)

Module SettingsExamples.

#[local] Transparent settings.

Definition settingsObject : gmap string json :=
  <["endpoint"%string := JStr "https://p.example"]> (<["mtu"%string := JInt 1400]> (<["dns"%string := JStr "1.1.1.1"]> ∅)).
Definition settingsText : list ascii := str "settings".
Definition savedText : list ascii := str "saved".
Definition saved : gmap string json :=
  <["id"%string := JStr "n1"]> (<["secret"%string := JStr "s1"]> settingsObject).
Definition decode (t : list ascii) : option (gmap string json) :=
  if bool_decide (t = settingsText) then Some settingsObject else if bool_decide (t = savedText) then Some saved else None.
Definition home (v : string) : string :=
  if bool_decide (v = "HOME"%string) then "/root" else if bool_decide (v = "NEWT_PROVISIONING_KEY"%string) then "k" else
  if bool_decide (v = "DNS"%string) then "8.8.8.8" else "".
Definition path : string := "/root/.config/newt-client/config.json".
Definition fs1 (p : string) : fileRead := if bool_decide (p = path) then FileData settingsText else FileMissing.
Definition fs2 (p : string) : fileRead := if bool_decide (p = path) then FileData savedText else FileMissing.
Definition args : list string := ["--mtu"; "1500"; "-native"; "--prefer-endpoint=e2"; "--port=70000"]%string.

Definition loaded (fs : string → fileRead) (args : list string) : Loaded :=
  match loadNewtConfig decode fs home args with Loads c => c | _ => mkLoaded defaults "" 0 0 false 0 0 0 end.

Lemma loaded_ok fs a :
  (match loadNewtConfig decode fs home a with Loads _ => true | _ => false end) = true →
  loadNewtConfig decode fs home a = Loads (loaded fs a).
Proof. unfold loaded. by destruct (loadNewtConfig decode fs home a). Qed.

(** The layers on a concrete start; the port is truncated to 16 bits, and the
    flag of the preferred endpoint is not reported as such. *)
Example layers_example :
  let c := loaded fs1 args in
  strOf (ld_r c) "endpoint" = "https://p.example"%string ∧ ld_MTU c = 1500 ∧ strOf (ld_r c) "dns" = "8.8.8.8"%string ∧
  boolOf (ld_r c) "native" = true ∧ strOf (ld_r c) "prefer-endpoint" = "e2"%string ∧ ld_Port c = 4464 ∧
  ld_PingInterval c = 15 * Second ∧ getSource (ld_r c) "dns" = sourceEnv ∧ getSource (ld_r c) "mtu" = sourceCLI ∧
  getSource (ld_r c) "endpoint" = sourceFile ∧ getSource (ld_r c) "prefer-endpoint" = sourceDefault.
Proof. vm_compute. auto 20. Qed.

(** Given twice, the file the settings are read from is not the one the
    credentials are kept in. *)
Example config_file_twice :
  let a := ["--config-file"; "a.json"; "--config-file"; "b.json"]%string in
  resolveConfigFilePath home a = "a.json"%string ∧ ld_ConfigFile (loaded fs1 a) = "b.json"%string.
Proof. vm_compute. auto. Qed.

Lemma settings_precedence_witness :
  loadNewtConfig decode fs1 home args = Loads (loaded fs1 args) ∧
  ∃ obj l, loadFileSettings decode (fs1 (resolveConfigFilePath home args)) = Some obj ∧ parseFlags args = Some l.
Proof.
  assert (loadNewtConfig decode fs1 home args = Loads (loaded fs1 args)) as H by (apply loaded_ok; vm_compute; reflexivity).
  split; [exact H|]. destruct (settings_precedence decode fs1 home args _ H) as (obj & l & H1 & H2 & _).
  exists obj, l. split; assumption.
Defined.


Definition answer : provResponse := ProvAnswer 201 (Some (true, "n1", "s1"))%string.
Definition client1 : option (wsClient * option (gmap string json)) := Init decode fs1 true home answer (loaded fs1 []).

Lemma credentials_survive_restart_witness :
  ∃ w1, client1 = Some (w1, Some saved) ∧ cfg_ID (wc_config w1) = "n1"%string ∧
  ∀ resp2 writes2, ∃ w2, Init decode fs2 writes2 home resp2 (loaded fs2 []) = Some (w2, None) ∧
    cfg_ID (wc_config w2) = cfg_ID (wc_config w1).
Proof.
  assert (loadNewtConfig decode fs1 home [] = Loads (loaded fs1 [])) as H1 by (apply loaded_ok; vm_compute; reflexivity).
  assert (loadNewtConfig decode fs2 home [] = Loads (loaded fs2 [])) as H2 by (apply loaded_ok; vm_compute; reflexivity).
  assert (∃ w1, client1 = Some (w1, Some saved) ∧ cfg_ID (wc_config w1) = "n1"%string) as (w1 & Hw1 & Hid)
    by (eexists; split; vm_compute; reflexivity).
  exists w1. split; [exact Hw1|]. split; [exact Hid|]. intros resp2 writes2.
  assert (resolveConfigFilePath home [] = path) as Hp by (vm_compute; reflexivity).
  assert (getConfigPath home "newt" (ld_ConfigFile (loaded fs1 [])) = path) as Hc1 by (vm_compute; reflexivity).
  assert (getConfigPath home "newt" (ld_ConfigFile (loaded fs2 [])) = path) as Hc2 by (vm_compute; reflexivity).
  assert (decode savedText = Some saved) as Hd by (vm_compute; reflexivity).
  assert (TrimSpace savedText ≠ []) as Ht by (vm_compute; discriminate).
  assert (fs2 path = FileData savedText) as Hf by (vm_compute; reflexivity).
  assert (∀ l, parseFlags [] = Some l → flagValue "id" l = None ∧ flagValue "secret" l = None) as Hl
    by (intros l [= <-]; split; reflexivity).
  assert (home "NEWT_ID"%string = "" ∧ home "NEWT_SECRET"%string = "") as [He1 He2] by (split; vm_compute; reflexivity).
  destruct (credentials_survive_restart decode fs1 home [] (loaded fs1 []) answer w1 saved savedText fs2 home [] path
    H1 Hp Hc1 Hw1 Hd Ht Hf Hp Hl He1 He2) as (_ & _ & H).
  destruct (H (loaded fs2 []) resp2 writes2 H2 Hc2) as (w2 & Hi & Hi2 & _). exists w2. split; assumption.
Defined.

End SettingsExamples.
