(* ===== verification/Telemetry.v ===== *)
(** * Telemetry ([internal/telemetry], [internal/state/telemetry_view.go])

    Metrics: the configuration from the environment, the start and the end of
    the exporters, the instruments and the labels they are emitted with, and
    the gauges observed from the state of the process.  OpenTelemetry's SDK is
    represented by what the code asks of it: whether an instrument could be
    made, whether an exporter could be started, and a sum per instrument and
    set of labels that the views let through. *)

From S2P Require Import Prelude NetipText HostPort Keys Util Settings ProxyManager.
From Stdlib Require Import Ascii.

(** ** Configuration *)

(** [os.Getenv]: an unset variable is empty. *)
Notation environ := (string → string).

Definition getenv (env : environ) (k d : string) : string := if bool_decide (env k = "") then d else env k.

Definition getdur (env : environ) (k : string) (d : Z) : Z :=
  if bool_decide (env k = "") then d else default d (ParseDuration (env k)).

(** [strings.SplitN(s, "=", 2)]: [None] without the separator. *)
Fixpoint cutAt (c : ascii) (s : list ascii) : option (list ascii * list ascii) :=
  match s with
  | [] => None
  | x :: s' => if Ascii.eqb x c then Some ([], s') else '(k, v) ← cutAt c s'; Some (x :: k, v)
  end.

Definition c_eq : ascii := "="%char.
Definition c_comma : ascii := ","%char.

(** One pair of the list. *)
Definition parsePair (p : list ascii) : option (string * string) :=
  '(k, v) ← cutAt c_eq (TrimSpace p); Some (unstr (TrimSpace k), unstr (TrimSpace v)).

(** The body that [parseOTLPHeaders] and [parseResourceAttributes] share. *)
Definition parsePairs (h : string) : gmap string string :=
  if bool_decide (h = "") then ∅
  else foldl (λ m p, match parsePair p with Some (k, v) => <[k := v]> m | None => m end) ∅ (splitOn c_comma (str h)).

Definition parseOTLPHeaders (h : string) : gmap string string := parsePairs h.
Definition parseResourceAttributes (s : string) : gmap string string := parsePairs s.

Record Config : Type := mkConfig {
  ServiceName : string; ServiceVersion : string; SiteID : string; Region : string;
  PromEnabled : bool; OTLPEnabled : bool; OTLPEndpoint : string; OTLPInsecure : bool;
  MetricExportInterval : Z; AdminAddr : string; BuildVersion : string; BuildCommit : string }.

Definition orElse (a b : string) : string := if bool_decide (a = "") then b else a.

Definition FromEnv (env : environ) : Config :=
  let site := orElse (getenv env "NEWT_SITE_ID" "") (getenv env "NEWT_ID" "") in
  let region := env "NEWT_REGION"%string in
  let ra := env "OTEL_RESOURCE_ATTRIBUTES"%string in
  let '(site, region) :=
    if (bool_decide (site = "") || bool_decide (region = "")) && negb (bool_decide (ra = "")) then
      let m := parseResourceAttributes ra in
      (orElse site (default "" (m !! "site_id"%string)), orElse region (default "" (m !! "region"%string)))
    else (site, region) in
  mkConfig (getenv env "OTEL_SERVICE_NAME" "newt") (env "OTEL_SERVICE_VERSION"%string) site region
    (bool_decide (getenv env "NEWT_METRICS_PROMETHEUS_ENABLED" "true" = "true"))
    (bool_decide (getenv env "NEWT_METRICS_OTLP_ENABLED" "false" = "true"))
    (getenv env "OTEL_EXPORTER_OTLP_ENDPOINT" "localhost:4317")
    (bool_decide (getenv env "OTEL_EXPORTER_OTLP_INSECURE" "true" = "true"))
    (getdur env "OTEL_METRIC_EXPORT_INTERVAL" (15 * Second)) (getenv env "NEWT_ADMIN_ADDR" ":2112") "" "".

(** ** State of the package *)

Notation labels := (gmap string string).

(** An [atomic.Value] is [None] until it is stored.  [ts_instruments]: the
    instruments that are not nil; [ts_sums]: what the SDK has summed per
    stream; [ts_obsDone], [ts_proxyDone]: the two [sync.Once]. *)
Record telem : Type := mkTelem {
  ts_site : option string; ts_region : option string;
  ts_tunnelID : option bool; ts_siteLabels : option bool;
  ts_once : bool; ts_meter : bool; ts_instruments : list string;
  ts_version : string; ts_commit : string; ts_ws : Z;
  ts_obsDone : bool; ts_observing : bool; ts_proxyDone : bool; ts_proxyObserving : bool;
  ts_sums : gmap (string * labels) Z }.

Definition telem0 : telem := mkTelem None None None None false false [] "" "" 0 false false false false ∅.

Definition set_site (a b : option string) (t : telem) : telem :=
  mkTelem a b (ts_tunnelID t) (ts_siteLabels t) (ts_once t) (ts_meter t) (ts_instruments t) (ts_version t) (ts_commit t) (ts_ws t)
    (ts_obsDone t) (ts_observing t) (ts_proxyDone t) (ts_proxyObserving t) (ts_sums t).
Definition set_include (a b : option bool) (t : telem) : telem :=
  mkTelem (ts_site t) (ts_region t) a b (ts_once t) (ts_meter t) (ts_instruments t) (ts_version t) (ts_commit t) (ts_ws t)
    (ts_obsDone t) (ts_observing t) (ts_proxyDone t) (ts_proxyObserving t) (ts_sums t).
Definition set_instruments (o m : bool) (l : list string) (t : telem) : telem :=
  mkTelem (ts_site t) (ts_region t) (ts_tunnelID t) (ts_siteLabels t) o m l (ts_version t) (ts_commit t) (ts_ws t)
    (ts_obsDone t) (ts_observing t) (ts_proxyDone t) (ts_proxyObserving t) (ts_sums t).
Definition RegisterBuildInfo (version commit : string) (t : telem) : telem :=
  mkTelem (ts_site t) (ts_region t) (ts_tunnelID t) (ts_siteLabels t) (ts_once t) (ts_meter t) (ts_instruments t) version commit
    (ts_ws t) (ts_obsDone t) (ts_observing t) (ts_proxyDone t) (ts_proxyObserving t) (ts_sums t).
Definition SetWSConnectionState (connected : bool) (t : telem) : telem :=
  mkTelem (ts_site t) (ts_region t) (ts_tunnelID t) (ts_siteLabels t) (ts_once t) (ts_meter t) (ts_instruments t) (ts_version t)
    (ts_commit t) (if connected then 1 else 0) (ts_obsDone t) (ts_observing t) (ts_proxyDone t) (ts_proxyObserving t) (ts_sums t).
Definition set_obs (a b c d : bool) (t : telem) : telem :=
  mkTelem (ts_site t) (ts_region t) (ts_tunnelID t) (ts_siteLabels t) (ts_once t) (ts_meter t) (ts_instruments t) (ts_version t)
    (ts_commit t) (ts_ws t) a b c d (ts_sums t).
Definition set_sums (m : gmap (string * labels) Z) (t : telem) : telem :=
  mkTelem (ts_site t) (ts_region t) (ts_tunnelID t) (ts_siteLabels t) (ts_once t) (ts_meter t) (ts_instruments t) (ts_version t)
    (ts_commit t) (ts_ws t) (ts_obsDone t) (ts_observing t) (ts_proxyDone t) (ts_proxyObserving t) m.

Definition UpdateSiteInfo (siteID region : string) (t : telem) : telem :=
  set_site (if bool_decide (siteID = "") then ts_site t else Some siteID)
    (if bool_decide (region = "") then ts_region t else Some region) t.

Definition getSiteID (t : telem) : string := default "" (ts_site t).
Definition getRegion (t : telem) : string := default "" (ts_region t).

Definition kv (k v : string) : string * string := (k, v).

Definition siteAttrs (t : telem) : list (string * string) :=
  (if bool_decide (getSiteID t = "") then [] else [kv "site_id" (getSiteID t)]) ++
  (if bool_decide (getRegion t = "") then [] else [kv "region" (getRegion t)]).

Definition ShouldIncludeTunnelID (t : telem) : bool := default true (ts_tunnelID t).
Definition ShouldIncludeSiteLabels (t : telem) : bool := default false (ts_siteLabels t).

Definition SiteLabelKVs (t : telem) : list (string * string) := if ShouldIncludeSiteLabels t then siteAttrs t else [].

Definition attrsWithSite (t : telem) (extra : list (string * string)) : list (string * string) :=
  extra ++ (if ShouldIncludeSiteLabels t then siteAttrs t else []).

(** ** Starting and stopping the exporters *)

(** What is shut down: the meter provider, which exports what it still holds,
    the exporter of the traces, the tracer provider, the exporter of the
    metrics. *)
Inductive closable : Type := CMeterProvider | CTraceExporter | CTracerProvider | CMetricExporter.
Inductive reader : Type := RPrometheus | ROTLP (interval : Z).

#[global] Instance closable_eq_dec : EqDecision closable.
Proof. solve_decision. Defined.

Record Setup : Type := mkSetup { su_readers : list reader; su_prom : bool; su_tracing : bool; su_shutdowns : list (list closable) }.

(** The answers of the SDK: exporters that start, instruments that are made
    without an error, and that are not nil. *)
Record sdk : Type := mkSdk {
  sd_prometheus : bool; sd_otlp : bool; sd_trace : bool; sd_make : string → bool; sd_nonNil : string → bool;
  sd_callback : bool }.

Definition setupMetricExport (k : sdk) (cfg : Config) : option (list reader * bool * list (list closable)) :=
  if PromEnabled cfg && negb (sd_prometheus k) then None
  else
    let readers := if PromEnabled cfg then [RPrometheus] else [] in
    if OTLPEnabled cfg then
      if negb (sd_otlp k) then None
      else Some (readers ++ [ROTLP (MetricExportInterval cfg)], PromEnabled cfg, [[CMetricExporter]])
    else Some (readers, PromEnabled cfg, []).

(** [setupTracing]: no tracing when its exporter does not start. *)
Definition setupTracing (k : sdk) : option (list closable) := if sd_trace k then Some [CTraceExporter; CTracerProvider] else None.

Definition siteInstruments : list string :=
  ["newt_site_registrations_total"; "newt_site_online"; "newt_site_last_heartbeat_timestamp_seconds"].
Definition tunnelInstruments : list string :=
  ["newt_tunnel_sessions"; "newt_tunnel_bytes_total"; "newt_tunnel_latency_seconds"; "newt_tunnel_reconnects_total"].
Definition connInstruments : list string := ["newt_connection_attempts_total"; "newt_connection_errors_total"].
Definition configInstruments : list string :=
  ["newt_config_reloads_total"; "newt_config_apply_seconds"; "newt_cert_rotation_total"; "process_start_time_seconds"].
Definition wsProxyInstruments : list string :=
  ["newt_build_info"; "newt_websocket_connect_latency_seconds"; "newt_websocket_messages_total";
   "newt_websocket_disconnects_total"; "newt_websocket_keepalive_failures_total"; "newt_websocket_session_duration_seconds";
   "newt_websocket_connected"; "newt_websocket_reconnects_total"; "newt_proxy_active_connections"; "newt_proxy_buffer_bytes";
   "newt_proxy_async_backlog_bytes"; "newt_proxy_drops_total"; "newt_proxy_accept_total";
   "newt_proxy_connection_duration_seconds"; "newt_proxy_connections_total"].

(** A group that stops at its first error: the instruments that are not nil,
    and whether it went through. *)
Fixpoint registerStrict (k : sdk) (names : list string) : list string * bool :=
  match names with
  | [] => ([], true)
  | n :: rest =>
      let made := if sd_nonNil k n then [n] else [] in
      if negb (sd_make k n) then (made, false)
      else let '(l, ok) := registerStrict k rest in (made ++ l, ok)
  end.

(** A group whose errors are dropped. *)
Definition registerLenient (k : sdk) (names : list string) : list string := filter (λ n, sd_nonNil k n = true) names.

Definition registerSiteInstruments (k : sdk) := registerStrict k siteInstruments.
Definition registerTunnelInstruments (k : sdk) := registerStrict k tunnelInstruments.
Definition registerConnInstruments (k : sdk) := registerStrict k connInstruments.
Definition registerConfigInstruments (k : sdk) := registerLenient k configInstruments.
Definition registerBuildWSProxyInstruments (k : sdk) := registerLenient k wsProxyInstruments.

(** [registerInstruments]: once per process. *)
Definition registerInstruments (k : sdk) (t : telem) : telem * bool :=
  if ts_once t then (t, true)
  else
    let '(l1, ok1) := registerSiteInstruments k in
    if negb ok1 then (set_instruments true true l1 t, false) else
    let '(l2, ok2) := registerTunnelInstruments k in
    if negb ok2 then (set_instruments true true (l1 ++ l2) t, false) else
    let '(l3, ok3) := registerConnInstruments k in
    if negb ok3 then (set_instruments true true (l1 ++ l2 ++ l3) t, false) else
    (set_instruments true true (l1 ++ l2 ++ l3 ++ registerConfigInstruments k ++ registerBuildWSProxyInstruments k) t, true).

Definition Init (k : sdk) (env : environ) (cfg : Config) (t : telem) : telem * option Setup :=
  let t := set_include (Some (bool_decide (getenv env "NEWT_METRICS_INCLUDE_TUNNEL_ID" "true" = "true")))
             (Some (bool_decide (getenv env "NEWT_METRICS_INCLUDE_SITE_LABELS" "true" = "true"))) t in
  let t := UpdateSiteInfo (SiteID cfg) (Region cfg) t in
  match setupMetricExport k cfg with
  | None => (t, None)
  | Some (readers, prom, shutdowns) =>
      let tracing := if OTLPEnabled cfg then setupTracing k else None in
      let s := mkSetup readers prom (bool_decide (is_Some tracing))
                 ([[CMeterProvider]] ++ match tracing with Some l => [l] | None => [] end ++ shutdowns) in
      let '(t, ok) := registerInstruments k t in
      if negb ok then (t, None)
      else (if negb (bool_decide (BuildVersion cfg = "")) || negb (bool_decide (BuildCommit cfg = ""))
            then RegisterBuildInfo (BuildVersion cfg) (BuildCommit cfg) t else t, Some s)
  end.

(** [Setup.Shutdown]: every function runs, the last one first; [close] is the
    effect of closing one thing and whether it worked.  The result collects
    the errors. *)
Definition Shutdown {W : Type} (close : closable → W → W * bool) (s : Setup) (w : W) : W * bool :=
  foldl (λ '(w, ok) c, let '(w', ok') := close c w in (w', ok && ok')) (w, true) (mjoin (rev (su_shutdowns s))).

(** ** Emitting *)

(** The names that the view of [newt_*] lets through. *)
Definition allowedKeys : list string :=
  ["tunnel_id"; "transport"; "direction"; "protocol"; "result"; "reason"; "initiator"; "error_type"; "msg_type"; "phase";
   "version"; "commit"; "site_id"; "region"].

(** An attribute set: a later value of a key replaces an earlier one. *)
Definition attrSet (l : list (string * string)) : labels := foldl (λ m p, <[p.1 := p.2]> m) ∅ l.

(** The labels of a point in the stream of that view. *)
Definition streamLabels (name : string) (l : list (string * string)) : labels :=
  if startsWith "newt_" name then filter (λ p, p.1 ∈ allowedKeys) (attrSet l) else attrSet l.

(** A call on a nil instrument panics. *)
Definition emit (name : string) (n : Z) (l : list (string * string)) (t : telem) : go telem :=
  if bool_decide (name ∈ ts_instruments t) then
    let key := (name, streamLabels name l) in
    Ret (set_sums (<[key := default 0 (ts_sums t !! key) + n]> (ts_sums t)) t)
  else Panic.

Definition optAttr (k v : string) : list (string * string) := if bool_decide (v = "") then [] else [kv k v].
Definition tunnelAttr (t : telem) (tunnelID : string) : list (string * string) :=
  if ShouldIncludeTunnelID t then optAttr "tunnel_id" tunnelID else [].

(** The instrument a helper uses, the amount it adds (an observation of a
    histogram counts as one) and the attributes before the site's. *)
Inductive metricCall : Type :=
  | IncConfigReload (result : string) | IncSiteRegistration (result : string)
  | AddTunnelBytes (tunnelID direction : string) (n : Z)
  | ObserveWSConnectLatency (result errorType : string) | IncWSMessage (direction msgType : string)
  | IncWSDisconnect (reason result : string) | IncWSKeepaliveFailure (reason : string) | IncWSReconnect (reason : string)
  | ObserveWSSessionDuration (result : string)
  | IncProxyDrops (tunnelID protocol : string) | IncProxyAccept (tunnelID protocol result reason : string)
  | ObserveProxyConnectionDuration (tunnelID protocol result : string)
  | IncProxyConnectionEvent (tunnelID protocol event : string)
  | ObserveConfigApply (phase result : string) | IncCertRotation (result : string)
  | ObserveTunnelLatency (tunnelID transport : string) | IncReconnect (tunnelID initiator reason : string)
  | IncConnAttempt (transport result : string) | IncConnError (transport typ : string).

Definition callName (c : metricCall) : string :=
  match c with
  | IncConfigReload _ => "newt_config_reloads_total" | IncSiteRegistration _ => "newt_site_registrations_total"
  | AddTunnelBytes _ _ _ => "newt_tunnel_bytes_total"
  | ObserveWSConnectLatency _ _ => "newt_websocket_connect_latency_seconds" | IncWSMessage _ _ => "newt_websocket_messages_total"
  | IncWSDisconnect _ _ => "newt_websocket_disconnects_total" | IncWSKeepaliveFailure _ => "newt_websocket_keepalive_failures_total"
  | IncWSReconnect _ => "newt_websocket_reconnects_total"
  | ObserveWSSessionDuration _ => "newt_websocket_session_duration_seconds"
  | IncProxyDrops _ _ => "newt_proxy_drops_total" | IncProxyAccept _ _ _ _ => "newt_proxy_accept_total"
  | ObserveProxyConnectionDuration _ _ _ => "newt_proxy_connection_duration_seconds"
  | IncProxyConnectionEvent _ _ _ => "newt_proxy_connections_total"
  | ObserveConfigApply _ _ => "newt_config_apply_seconds" | IncCertRotation _ => "newt_cert_rotation_total"
  | ObserveTunnelLatency _ _ => "newt_tunnel_latency_seconds" | IncReconnect _ _ _ => "newt_tunnel_reconnects_total"
  | IncConnAttempt _ _ => "newt_connection_attempts_total" | IncConnError _ _ => "newt_connection_errors_total"
  end.

Definition callAmount (c : metricCall) : Z := match c with AddTunnelBytes _ _ n => n | _ => 1 end.

Definition callAttrs (t : telem) (c : metricCall) : list (string * string) :=
  match c with
  | IncConfigReload r | IncSiteRegistration r | ObserveWSSessionDuration r | IncCertRotation r => [kv "result" r]
  | AddTunnelBytes id d _ => kv "direction" d :: tunnelAttr t id
  | ObserveWSConnectLatency r e => [kv "transport" "websocket"; kv "result" r] ++ optAttr "error_type" e
  | IncWSMessage d m => [kv "direction" d; kv "msg_type" m]
  | IncWSDisconnect r s => [kv "reason" r; kv "result" s]
  | IncWSKeepaliveFailure r => [kv "reason" r]
  | IncWSReconnect r => [kv "reason" (orElse r "unknown")]
  | IncProxyDrops id p => kv "protocol" p :: tunnelAttr t id
  | IncProxyAccept id p r s => [kv "protocol" p; kv "result" r] ++ optAttr "reason" s ++ tunnelAttr t id
  | ObserveProxyConnectionDuration id p r => [kv "protocol" p; kv "result" r] ++ tunnelAttr t id
  | IncProxyConnectionEvent id p e => [kv "protocol" p; kv "event" (orElse e "unknown")] ++ tunnelAttr t id
  | ObserveConfigApply p r => [kv "phase" p; kv "result" r]
  | ObserveTunnelLatency id tr => kv "transport" tr :: tunnelAttr t id
  | IncReconnect id i r => [kv "initiator" i; kv "reason" r] ++ tunnelAttr t id
  | IncConnAttempt tr r => [kv "transport" tr; kv "result" r]
  | IncConnError tr e => [kv "transport" tr; kv "error_type" e]
  end.

Definition record (c : metricCall) (t : telem) : go telem := emit (callName c) (callAmount c) (attrsWithSite t (callAttrs t c)) t.

Fixpoint recordAll (l : list metricCall) (t : telem) : go telem :=
  match l with
  | [] => Ret t
  | c :: l' => t' ← record c t; recordAll l' t'
  end.

(** ** Observing the state *)

(** One observation: instrument, attributes, value.  The heartbeat is in
    seconds. *)
Definition observation : Type := string * list (string * string) * Z.

(** [StateView]; [v_byTunnel] is the method that not every view has. *)
Record StateView : Type := mkStateView {
  v_sites : list string; v_online : string → option bool; v_heartbeat : string → option Z;
  v_active : string → option Z; v_byTunnel : option sessionCounts }.

Definition observeSiteOnlineFor (v : StateView) (siteID : string) : list observation :=
  match v_online v siteID with
  | Some online => [("newt_site_online"%string, [kv "site_id" siteID], if (online : bool) then 1 else 0)]
  | None => []
  end.

Definition observeLastHeartbeatFor (v : StateView) (siteID : string) : list observation :=
  match v_heartbeat v siteID with
  | Some ts => [("newt_site_last_heartbeat_timestamp_seconds"%string, [kv "site_id" siteID], ts)]
  | None => []
  end.

Definition tunnelSessions (siteID : string) (e : string * Z) : observation :=
  ("newt_tunnel_sessions"%string, kv "site_id" siteID :: optAttr "tunnel_id" e.1, e.2).

(** [cur] is the registered view, which is asked when nothing is counted. *)
Definition observeSessionsFor (t : telem) (cur v : StateView) (siteID : string) : list observation :=
  match v_byTunnel v with
  | None => []
  | Some sessions =>
      if ShouldIncludeTunnelID t then tunnelSessions siteID <$> map_to_list sessions
      else
        let total := map_fold (λ _ n acc, swrap64 (acc + n)) 0 sessions in
        let total := if total =? 0 then default total (v_active cur siteID) else total in
        [("newt_tunnel_sessions"%string, [kv "site_id" siteID], total)]
  end.

(** The callback that [RegisterStateView] installs. *)
Definition observeAll (t : telem) (v : StateView) : list observation :=
  v_sites v ≫= λ site, observeSiteOnlineFor v site ++ observeLastHeartbeatFor v site ++ observeSessionsFor t v v site.

(** The callbacks of the build information and of the connection. *)
Definition buildInfoCallback (t : telem) : list observation :=
  if bool_decide (ts_version t = "") && bool_decide (ts_commit t = "") then []
  else [("newt_build_info"%string, attrsWithSite t (optAttr "version" (ts_version t) ++ optAttr "commit" (ts_commit t)), 1)].

Definition wsConnectedCallback (t : telem) : list observation :=
  [("newt_websocket_connected"%string, attrsWithSite t [], ts_ws t)].

(** Without a meter the call is one on a nil interface. *)
Definition SetObservableCallback (k : sdk) (t : telem) : go telem :=
  if ts_obsDone t then Ret t
  else if negb (ts_meter t) then Panic
  else Ret (set_obs true (sd_callback k) (ts_proxyDone t) (ts_proxyObserving t) t).

Definition SetProxyObservableCallback (k : sdk) (t : telem) : go telem :=
  if ts_proxyDone t then Ret t
  else if negb (ts_meter t) then Panic
  else Ret (set_obs (ts_obsDone t) (ts_observing t) true (sd_callback k) t).

(** [atomic.Value] does not store nil. *)
Definition RegisterStateView {V : Type} (k : sdk) (v : option V) (t : telem) : go (V * telem) :=
  match v with
  | None => Panic
  | Some v => t' ← SetObservableCallback k t; Ret (v, t')
  end.

(** [TelemetryView]. *)
Record TelemetryView : Type := mkView { tv_online : bool; tv_lastHB : Z; tv_sessions : sessionCounts }.

Definition SetOnline (b : bool) (v : TelemetryView) : TelemetryView := mkView b (tv_lastHB v) (tv_sessions v).
Definition TouchHeartbeat (now : Z) (v : TelemetryView) : TelemetryView := mkView (tv_online v) now (tv_sessions v).

Definition viewOf (v : TelemetryView) : StateView :=
  mkStateView ["self"%string] (λ _, Some (tv_online v)) (λ _, if tv_lastHB v =? 0 then None else Some (tv_lastHB v))
    (λ _, Some (ActiveSessions (tv_sessions v))) (Some (SessionsByTunnel (tv_sessions v))).

(** ** The global view

    [Global] loads the pointer and, when it is nil, stores a new view and
    registers it; goroutines that run it at the same time interleave at those
    two points. *)

Inductive globalAction : Type :=
  | GLoad (g : nat)                  (* goroutine [g] calls [Global] and loads *)
  | GStore (g : nat)                 (* it found nil: it stores its own view *)
  | GInc (g : nat) (tunnel : string) | GDec (g : nat) (tunnel : string).  (* sessions of its view *)

(** Views are numbered as they are made; [gv_mine] is what a goroutine got. *)
Record globalState : Type := mkGlobal {
  gv_ptr : option nat; gv_views : list TelemetryView; gv_mine : gmap nat (option nat) }.

Definition globalStep (a : globalAction) (s : globalState) : option globalState :=
  match a with
  | GLoad g => Some (mkGlobal (gv_ptr s) (gv_views s) (<[g := gv_ptr s]> (gv_mine s)))
  | GStore g =>
      match gv_mine s !! g with
      | Some None =>
          let n := length (gv_views s) in
          Some (mkGlobal (Some n) (gv_views s ++ [mkView false 0 ∅]) (<[g := Some n]> (gv_mine s)))
      | _ => None
      end
  | GInc g tunnel =>
      match gv_mine s !! g with
      | Some (Some n) =>
          Some (mkGlobal (gv_ptr s) (alter (λ v, mkView (tv_online v) (tv_lastHB v) (IncSessions tunnel (tv_sessions v))) n (gv_views s))
                  (gv_mine s))
      | _ => None
      end
  | GDec g tunnel =>
      match gv_mine s !! g with
      | Some (Some n) =>
          Some (mkGlobal (gv_ptr s) (alter (λ v, mkView (tv_online v) (tv_lastHB v) (DecSessions tunnel (tv_sessions v))) n (gv_views s))
                  (gv_mine s))
      | _ => None
      end
  end.

Fixpoint globalRun (l : list globalAction) (s : globalState) : option globalState :=
  match l with
  | [] => Some s
  | a :: l' => s' ← globalStep a s; globalRun l' s'
  end.

Definition global0 : globalState := mkGlobal None [] ∅.

(** The sessions that the registered view reports. *)
Definition reported (s : globalState) : Z :=
  match gv_ptr s with
  | Some n => default 0 (ActiveSessions ∘ tv_sessions <$> gv_views s !! n)
  | None => 0
  end.

(** ** Labels *)

Lemma attrSet_snoc l k v : attrSet (l ++ [(k, v)]) = <[k := v]> (attrSet l).
Proof. unfold attrSet. by rewrite foldl_app. Qed.

Lemma attrSet_dom l k : k ∈ dom (attrSet l) → k ∈ l.*1.
Proof.
  induction l as [|[k' v] l IH] using rev_ind; [done|]. rewrite attrSet_snoc, dom_insert, fmap_app. simpl. set_solver.
Qed.

Lemma attrSet_last l k v m : k ∉ m.*1 → attrSet (l ++ [(k, v)] ++ m) !! k = Some v.
Proof.
  induction m as [|[k' v'] m IH] using rev_ind; intros Hk.
  - rewrite app_nil_r, attrSet_snoc. apply lookup_insert_eq.
  - rewrite !app_assoc, attrSet_snoc, lookup_insert_ne by (rewrite fmap_app in Hk; set_solver).
    rewrite <-app_assoc. apply IH. rewrite fmap_app in Hk. set_solver.
Qed.

Lemma attrSet_absent l k : k ∉ l.*1 → attrSet l !! k = None.
Proof. intros Hk. apply not_elem_of_dom. intros H%attrSet_dom. done. Qed.

(** Every instrument of a helper is one of the [newt_*] view. *)
Lemma call_viewed c : startsWith "newt_" (callName c) = true.
Proof. by destruct c. Qed.

Lemma stream_lookup c l k :
  streamLabels (callName c) l !! k = if bool_decide (k ∈ allowedKeys) then attrSet l !! k else None.
Proof.
  unfold streamLabels. rewrite call_viewed. case_bool_decide as Hk.
  - destruct (attrSet l !! k) eqn:E; [by apply map_lookup_filter_Some|apply map_lookup_filter_None; by left].
  - apply map_lookup_filter_None. right. done.
Qed.

Definition isEvent (c : metricCall) : bool := match c with IncProxyConnectionEvent _ _ _ => true | _ => false end.

Lemma optAttr_keys k v : ∀ x, x ∈ (optAttr k v).*1 → x = k.
Proof. intros x. unfold optAttr. case_bool_decide; simpl; set_solver. Qed.

Lemma tunnelAttr_keys t id : ∀ x, x ∈ (tunnelAttr t id).*1 → x = "tunnel_id"%string.
Proof. intros x. unfold tunnelAttr. destruct (ShouldIncludeTunnelID t); [apply optAttr_keys|set_solver]. Qed.

(** The attributes of the helpers never name the site, and are let through but
    for the event of a connection. *)
Definition ownKeys : list string :=
  ["tunnel_id"; "transport"; "direction"; "protocol"; "result"; "reason"; "initiator"; "error_type"; "msg_type"; "phase"].

Lemma callAttrs_keys t c k : k ∈ (callAttrs t c).*1 → k ∈ ownKeys ∨ isEvent c = true ∧ k = "event"%string.
Proof.
  destruct c; simpl; rewrite ?fmap_app, ?elem_of_cons, ?elem_of_app; simpl; rewrite ?elem_of_cons, ?elem_of_nil;
    intros H; repeat match goal with H : _ ∨ _ |- _ => destruct H as [H|H] end; try done;
    try (apply optAttr_keys in H); try (apply tunnelAttr_keys in H); subst; try (right; split; reflexivity);
    left; apply (bool_decide_unpack _); exact I.
Qed.

Lemma siteAttrs_keys t k : k ∈ (siteAttrs t).*1 → k ∈ ["site_id"; "region"]%string.
Proof. unfold siteAttrs. repeat case_bool_decide; simpl; set_solver. Qed.

Lemma emitted_keys t c k :
  k ∈ (attrsWithSite t (callAttrs t c)).*1 → k ∈ ownKeys ++ ["site_id"; "region"]%string ∨ isEvent c = true ∧ k = "event"%string.
Proof.
  unfold attrsWithSite. rewrite fmap_app, elem_of_app. intros [H|H].
  - apply callAttrs_keys in H as [?|?]; [left; by apply elem_of_app; left|by right].
  - destruct (ShouldIncludeSiteLabels t); [|by apply elem_of_nil in H]. left. apply elem_of_app. right. by eapply siteAttrs_keys.
Qed.

Lemma ownKeys_allowed k : k ∈ ownKeys ++ ["site_id"; "region"]%string → k ∈ allowedKeys.
Proof.
  revert k. apply Forall_forall. apply (bool_decide_unpack _). vm_compute. exact I.
Qed.

Lemma own_not_site t c : ("site_id"%string ∉ (callAttrs t c).*1) ∧ ("region"%string ∉ (callAttrs t c).*1).
Proof. split; intros [H|[_ H]]%callAttrs_keys; try discriminate H; revert H; apply (bool_decide_unpack _); vm_compute; exact I. Qed.

Lemma attrs_site t c :
  attrSet (attrsWithSite t (callAttrs t c)) !! "site_id"%string =
    (if ShouldIncludeSiteLabels t && negb (bool_decide (getSiteID t = "")) then Some (getSiteID t) else None) ∧
  attrSet (attrsWithSite t (callAttrs t c)) !! "region"%string =
    (if ShouldIncludeSiteLabels t && negb (bool_decide (getRegion t = "")) then Some (getRegion t) else None).
Proof.
  destruct (own_not_site t c) as [H1 H2]. unfold attrsWithSite.
  destruct (ShouldIncludeSiteLabels t); simpl; [|rewrite app_nil_r; split; by apply attrSet_absent].
  unfold siteAttrs. destruct (bool_decide (getSiteID t = "")), (bool_decide (getRegion t = "")); simpl;
    rewrite ?app_nil_r; (split; [try (apply attrSet_absent; rewrite ?fmap_app; simpl; set_solver)|
                                 try (apply attrSet_absent; rewrite ?fmap_app; simpl; set_solver)]).
  - apply (attrSet_last _ _ _ []). set_solver.
  - apply (attrSet_last _ _ _ []). set_solver.
  - apply (attrSet_last _ "site_id" _ [kv "region" (getRegion t)]). simpl. set_solver.
  - change [kv "site_id" (getSiteID t); kv "region" (getRegion t)] with ([kv "site_id" (getSiteID t)] ++ [kv "region" (getRegion t)]).
    rewrite app_assoc. apply (attrSet_last _ "region" _ []). set_solver.
Qed.

(** Whatever is recorded, its stream has only the allowed
    labels; the site and the region exactly when they are known and asked for;
    no tunnel when tunnel ids are off; and nothing else is lost, except the
    event of a proxy connection. *)
Theorem label_policy (t : telem) (c : metricCall) :
  let l := streamLabels (callName c) (attrsWithSite t (callAttrs t c)) in
  (∀ k, k ∈ dom l → k ∈ allowedKeys) ∧
  l !! "site_id"%string = (if ShouldIncludeSiteLabels t && negb (bool_decide (getSiteID t = "")) then Some (getSiteID t) else None) ∧
  l !! "region"%string = (if ShouldIncludeSiteLabels t && negb (bool_decide (getRegion t = "")) then Some (getRegion t) else None) ∧
  (ShouldIncludeTunnelID t = false → l !! "tunnel_id"%string = None) ∧
  (isEvent c = false → l = attrSet (attrsWithSite t (callAttrs t c))).
Proof.
  cbn zeta. destruct (attrs_site t c) as [Hs Hr]. split_and!.
  - intros k [v Hv]%elem_of_dom. rewrite stream_lookup in Hv. by case_bool_decide.
  - by rewrite stream_lookup, bool_decide_true by (apply (bool_decide_unpack _); vm_compute; exact I).
  - by rewrite stream_lookup, bool_decide_true by (apply (bool_decide_unpack _); vm_compute; exact I).
  - intros Ht. rewrite stream_lookup, bool_decide_true by (apply (bool_decide_unpack _); vm_compute; exact I).
    apply attrSet_absent. unfold attrsWithSite. rewrite fmap_app, elem_of_app. intros [H|H].
    + revert H. destruct c; simpl; unfold tunnelAttr, optAttr; rewrite ?Ht; repeat case_bool_decide; simpl; set_solver.
    + destruct (ShouldIncludeSiteLabels t); [|by apply elem_of_nil in H]. apply siteAttrs_keys in H.
      revert H. apply (bool_decide_unpack _). vm_compute. exact I.
  - intros He. apply map_eq. intros k. rewrite stream_lookup.
    destruct (decide (k ∈ allowedKeys)) as [Hk|Hk]; [by rewrite bool_decide_true|rewrite bool_decide_false by done].
    symmetry. apply attrSet_absent. intros [H|[H _]]%emitted_keys; [by apply ownKeys_allowed in H|congruence].
Qed.

(** Openings and closings of proxy connections are counted
    in one stream: the label that tells them apart is not let through. *)
Theorem connection_events_merge (t : telem) (tunnelID protocol event event' : string) :
  let l e := streamLabels (callName (IncProxyConnectionEvent tunnelID protocol e))
               (attrsWithSite t (callAttrs t (IncProxyConnectionEvent tunnelID protocol e))) in
  l event = l event' ∧ l event !! "event"%string = None.
Proof.
  cbn zeta. split; [|by rewrite stream_lookup]. apply map_eq. intros k. rewrite !stream_lookup. case_bool_decide as Hk; [|done].
  assert (k ≠ "event"%string) as Hne by (intros ->; revert Hk; apply (bool_decide_unpack _); vm_compute; exact I).
  unfold attrSet, attrsWithSite. simpl. generalize (tunnelAttr t tunnelID ++ (if ShouldIncludeSiteLabels t then siteAttrs t else [])).
  intros l. induction l as [|[k' v] l IH] using rev_ind; simpl.
  - by rewrite !(lookup_insert_ne _ "event"%string) by congruence.
  - rewrite !foldl_app. simpl. destruct (decide (k' = k)) as [->|Hn]; [by rewrite !lookup_insert_eq|].
    by rewrite !lookup_insert_ne by congruence.
Qed.

(** ** Counting *)

(** What an instrument has summed over all its streams. *)
Definition totalOf (name : string) (m : gmap (string * labels) Z) : Z :=
  map_fold (λ k v acc, (if bool_decide (k.1 = name) then v else 0) + acc) 0 m.

Lemma totalOf_insert_fresh name m k v :
  m !! k = None → totalOf name (<[k := v]> m) = (if bool_decide (k.1 = name) then v else 0) + totalOf name m.
Proof. intros Hk. unfold totalOf. rewrite map_fold_insert_L; [done| |done]. intros. lia. Qed.

Lemma totalOf_add name m k n :
  totalOf name (<[k := default 0 (m !! k) + n]> m) = totalOf name m + (if bool_decide (k.1 = name) then n else 0).
Proof.
  destruct (m !! k) as [v|] eqn:Ek; simpl.
  - rewrite <-insert_delete_eq, totalOf_insert_fresh by apply lookup_delete_eq.
    rewrite <-(insert_delete_id m k v Ek) at 2. rewrite totalOf_insert_fresh by apply lookup_delete_eq. case_bool_decide; lia.
  - rewrite totalOf_insert_fresh by done. case_bool_decide; lia.
Qed.

Definition amounts (name : string) (l : list metricCall) : Z :=
  foldr (λ c acc, (if bool_decide (callName c = name) then callAmount c else 0) + acc) 0 l.

Lemma record_state c t t' :
  record c t = Ret t' →
  t' = set_sums (ts_sums t') t ∧
  ts_sums t' = <[(callName c, streamLabels (callName c) (attrsWithSite t (callAttrs t c))) :=
                   default 0 (ts_sums t !! (callName c, streamLabels (callName c) (attrsWithSite t (callAttrs t c)))) + callAmount c]>
                 (ts_sums t).
Proof. unfold record, emit. case_bool_decide; [|done]. by intros [= <-]. Qed.

(** Nothing recorded is lost: over any calls, what the
    streams of an instrument add up to grows by what the calls added, however
    their labels differ. *)
Theorem counts_conserved (l : list metricCall) (t t' : telem) (name : string) :
  recordAll l t = Ret t' → totalOf name (ts_sums t') = totalOf name (ts_sums t) + amounts name l.
Proof.
  revert t. induction l as [|c l IH]; intros t; simpl; [intros [= <-]; lia|].
  destruct (record c t) as [t1|] eqn:Ec; cbn [mbind go_bind]; [|done]. intros ->%IH. apply record_state in Ec as [_ ->].
  rewrite totalOf_add. cbn [fst]. lia.
Qed.

(** ** Starting *)

Lemma registerStrict_all k names l :
  (∀ n, sd_nonNil k n = true) → registerStrict k names = (l, true) → l = names.
Proof.
  intros Hn. revert l. induction names as [|n names IH]; intros l; simpl; [by intros [= <-]|]. rewrite Hn.
  destruct (sd_make k n); simpl; [|done]. destruct (registerStrict k names) as [l' ok]. intros [= <- ->]. by rewrite (IH l').
Qed.

Lemma registerLenient_all k names : (∀ n, sd_nonNil k n = true) → registerLenient k names = names.
Proof. intros Hn. apply list_filter_all. intros x _. apply Hn. Qed.

Definition allInstruments : list string :=
  siteInstruments ++ tunnelInstruments ++ connInstruments ++ configInstruments ++ wsProxyInstruments.

Lemma register_all k t t' :
  ts_once t = false → (∀ n, sd_nonNil k n = true) → registerInstruments k t = (t', true) →
  ts_instruments t' = allInstruments ∧ ts_meter t' = true ∧ ts_obsDone t' = ts_obsDone t.
Proof.
  intros Ho Hn. unfold registerInstruments. rewrite Ho. unfold registerSiteInstruments, registerTunnelInstruments, registerConnInstruments.
  destruct (registerStrict k siteInstruments) as [l1 [|]] eqn:E1; cbn [negb]; [|done].
  destruct (registerStrict k tunnelInstruments) as [l2 [|]] eqn:E2; cbn [negb]; [|done].
  destruct (registerStrict k connInstruments) as [l3 [|]] eqn:E3; cbn [negb]; [|done]. intros [= <-]. cbn [ts_instruments ts_meter ts_obsDone set_instruments].
  rewrite (registerStrict_all k _ _ Hn E1), (registerStrict_all k _ _ Hn E2), (registerStrict_all k _ _ Hn E3).
  unfold registerConfigInstruments, registerBuildWSProxyInstruments. by rewrite !registerLenient_all.
Qed.

Lemma call_registered c : callName c ∈ allInstruments.
Proof. apply (bool_decide_unpack _). destruct c; vm_compute; exact I. Qed.

Lemma recordAll_total l t : ts_instruments t = allInstruments → ∃ t', recordAll l t = Ret t'.
Proof.
  revert t. induction l as [|c l IH]; intros t Ht; simpl; [by eexists|].
  unfold record, emit. rewrite Ht, bool_decide_true by apply call_registered. cbn [mbind go_bind]. by apply IH.
Qed.

Lemma Init_instruments k env cfg t s :
  Init k env cfg telem0 = (t, Some s) → (∀ n, sd_nonNil k n = true) → ts_instruments t = allInstruments ∧ ts_meter t = true ∧ ts_obsDone t = false.
Proof.
  unfold Init. destruct (setupMetricExport k cfg) as [[[rs pr] sh]|]; [|done].
  match goal with |- context [registerInstruments k ?x] => destruct (registerInstruments k x) as [t1 ok] eqn:Er; set (t0 := x) in Er end.
  intros Hi Hn. destruct ok; [|done]. apply (register_all k t0 t1 eq_refl Hn) in Er as (H1 & H2 & H3).
  destruct (_ || _); injection Hi as <- _; done.
Qed.

(** After a start that succeeded every helper can be called
    and the gauges can be observed; after one whose exporters did not start,
    which the program only warns of, the first helper and the first use of
    the global view panic. *)
Theorem init_decides (k : sdk) (env : environ) (cfg : Config) :
  let '(t, s) := Init k env cfg telem0 in
  match s with
  | Some _ => (∀ n, sd_nonNil k n = true) →
      (∀ l, ∃ t', recordAll l t = Ret t') ∧ (∃ t', SetObservableCallback k t = Ret t')
  | None => setupMetricExport k cfg = None →
      (∀ c, record c t = Panic) ∧ SetObservableCallback k t = Panic
  end.
Proof.
  destruct (Init k env cfg telem0) as [t [s|]] eqn:Ei.
  - intros Hn. destruct (Init_instruments k env cfg t s Ei Hn) as (H1 & H2 & H3). split; [intros l; by apply recordAll_total|].
    unfold SetObservableCallback. rewrite H2, H3. by eexists.
  - intros Hs. unfold Init in Ei. rewrite Hs in Ei. injection Ei as <-. split; [|done].
    intros c. unfold record, emit. rewrite bool_decide_false; [done|]. intros H. by apply elem_of_nil in H.
Qed.

(** ** Stopping *)

(** What the SDK documents of its shutdowns: an exporter that is shut down
    takes nothing more, and stays so; a provider whose exporter is down fails
    and what it holds remains unsent. *)
Class OtlpClose (W : Type) : Type := {
  close : closable → W → W * bool;
  metricsDown : W → Prop;
  unsent : W → nat }.

Class OtlpCloseLaws (W : Type) `{OtlpClose W} : Prop := {
  close_exporter w : metricsDown (close CMetricExporter w).1 ∧ unsent (close CMetricExporter w).1 = unsent w;
  close_other c w : metricsDown w → metricsDown (close c w).1 ∧ unsent (close c w).1 = unsent w;
  close_provider w : metricsDown w → (0 < unsent w)%nat → (close CMeterProvider w).2 = false }.

Section Stopping.
Context {W : Type} `{OtlpCloseLaws W}.

Definition closeStep : W * bool → closable → W * bool := λ '(w, ok) c, let '(w', ok') := close c w in (w', ok && ok').

Lemma closeStep_down l w ok :
  metricsDown w →
  let r := foldl closeStep (w, ok) l in
  metricsDown r.1 ∧ unsent r.1 = unsent w ∧ ((0 < unsent w)%nat → CMeterProvider ∈ l ∨ ok = false → r.2 = false).
Proof.
  revert w ok. induction l as [|c l IH]; intros w ok Hw; simpl.
  - split_and!; try done. intros _ [Hn|Hn]; [by apply elem_of_nil in Hn|done].
  - destruct (close c w) as [w' ok'] eqn:Ec. destruct (close_other c w Hw) as [Hw' Hu']. rewrite Ec in Hw', Hu'. simpl in *.
    destruct (IH w' (ok && ok') Hw') as (H1 & H2 & H3). split_and!; [done|congruence|]. intros Hpos Hor. apply H3; [lia|].
    destruct Hor as [Hin|Hok]; [|right; by rewrite Hok]. apply elem_of_cons in Hin as [Hc|Hin]; [right; subst c|by left].
    pose proof (close_provider w Hw Hpos) as Hp. rewrite Ec in Hp. simpl in Hp. by rewrite Hp, andb_false_r.
Qed.

(** With the OTLP exporter the shutdown closes the exporter
    before the provider that flushes into it: what the provider still holds
    is not sent, and the shutdown reports an error. *)
Theorem shutdown_loses_metrics (k : sdk) (env : environ) (cfg : Config) (t : telem) (s : Setup) (w : W) :
  Init k env cfg telem0 = (t, Some s) → OTLPEnabled cfg = true →
  unsent (Shutdown close s w).1 = unsent w ∧ ((0 < unsent w)%nat → (Shutdown close s w).2 = false).
Proof.
  intros Hi Ho. assert (∃ rest, mjoin (rev (su_shutdowns s)) = CMetricExporter :: rest ∧ CMeterProvider ∈ rest) as (rest & Er & Hr).
  { unfold Init, setupMetricExport in Hi. rewrite Ho in Hi. destruct (PromEnabled cfg && negb (sd_prometheus k)); [done|].
    destruct (sd_otlp k); [|done]. cbn [negb] in Hi. destruct (registerInstruments k _) as [t1 [|]]; [|done].
    injection Hi as _ <-. unfold setupTracing. destruct (sd_trace k); simpl; eexists; (split; [done|set_solver]). }
  unfold Shutdown. rewrite Er. simpl. fold closeStep. destruct (close CMetricExporter w) as [w1 ok1] eqn:Ec.
  destruct (close_exporter w) as [Hd Hu]. rewrite Ec in Hd, Hu. simpl in *.
  destruct (closeStep_down rest w1 ok1 Hd) as (_ & H2 & H3). change (foldl _ (w1, ok1) rest) with (foldl closeStep (w1, ok1) rest).
  split; [congruence|]. intros Hp. apply H3; [lia|by left].
Qed.

End Stopping.

(** ** Sessions *)

Lemma SessionsByTunnel_positive (s : sessionCounts) : map_Forall (λ _ n, 0 < n) s → SessionsByTunnel s = s.
Proof. intros Hs. unfold SessionsByTunnel. apply map_filter_id. intros i x Hx. exact (Hs i x Hx). Qed.

(** The counts that the view keeps are positive: a count that falls to zero is
    deleted. *)
Lemma IncSessions_positive id (s : sessionCounts) :
  map_Forall (λ _ n, 0 < n) s → default 0 (s !! id) < 2 ^ 63 - 1 → map_Forall (λ _ n, 0 < n) (IncSessions id s).
Proof.
  intros Hs Hb. unfold IncSessions. apply map_Forall_insert_2; [|done].
  assert (0 <= default 0 (s !! id)) by (destruct (s !! id) eqn:E; simpl; [apply Hs in E; simpl in E; lia|lia]).
  rewrite swrap64_id; lia.
Qed.

Lemma DecSessions_positive id (s : sessionCounts) : map_Forall (λ _ n, 0 < n) s → map_Forall (λ _ n, 0 < n) (DecSessions id s).
Proof.
  intros Hs. unfold DecSessions. destruct (s !! id) as [c|]; [|done]. destruct (Z.leb_spec (swrap64 (c - 1)) 0).
  - by apply map_Forall_delete.
  - by apply map_Forall_insert_2.
Qed.

Definition sumObs (l : list observation) : Z := foldr (λ o acc, swrap64 (acc + o.2)) 0 l.

Lemma sumObs_sessions site (l : list (string * Z)) :
  sumObs (tunnelSessions site <$> l) = foldr (uncurry (λ (_ : string) n acc, swrap64 (acc + n))) 0 l.
Proof. induction l as [|[id n] l IH]; [done|]. rewrite fmap_cons. unfold sumObs in *. cbn [foldr]. by rewrite IH. Qed.

Lemma fold_wrapped (l : list (string * Z)) :
  let s := foldr (uncurry (λ (_ : string) n acc, swrap64 (acc + n))) 0 l in swrap64 s = s.
Proof.
  destruct l as [|[id n] l]; [done|]. cbn [foldr uncurry]. cbn zeta.
  match goal with |- swrap64 (swrap64 ?x) = _ => pose proof (swrap64_add_l x 0) as E end. by rewrite !Z.add_0_r in E.
Qed.

(** Whether tunnel ids are labels or not, the sessions that
    a collection reports for a view add up to the same number, the view's
    active sessions; with ids there is one point per tunnel. *)
Theorem sessions_consistent (t : telem) (v : TelemetryView) (site : string) :
  map_Forall (λ _ n, 0 < n) (tv_sessions v) →
  let obs := observeSessionsFor t (viewOf v) (viewOf v) site in
  sumObs obs = swrap64 (ActiveSessions (tv_sessions v)) ∧
  (ShouldIncludeTunnelID t = true → length obs = size (tv_sessions v)) ∧
  (ShouldIncludeTunnelID t = false → length obs = 1%nat).
Proof.
  intros Hs. unfold observeSessionsFor, viewOf. cbn [v_byTunnel v_active]. rewrite SessionsByTunnel_positive by done. unfold ActiveSessions.
  destruct (ShouldIncludeTunnelID t); simpl; (split; [|split; [|done]]); try done.
  - rewrite map_fold_foldr. by rewrite sumObs_sessions, fold_wrapped.
  - intros _. by rewrite length_fmap, length_map_to_list.
  - unfold sumObs. simpl. by destruct (_ =? 0).
Qed.

(** Two connections that are the first to ask for the global
    view can each make their own: the sessions counted in the one that is
    overwritten are never reported. *)
Theorem global_view_race :
  ∃ s, globalRun [GLoad 1; GLoad 2; GStore 1; GInc 1 "t"; GStore 2; GInc 2 "t"] global0 = Some s ∧
    length (gv_views s) = 2%nat ∧ reported s = 1.
Proof. eexists. split; [reflexivity|]. split; reflexivity. Qed.

(** Without that overlap there is one view, which reports both. *)
Lemma global_view_sequential :
  ∃ s, globalRun [GLoad 1; GStore 1; GInc 1 "t"; GLoad 2; GInc 2 "t"] global0 = Some s ∧
    length (gv_views s) = 1%nat ∧ reported s = 2.
Proof. eexists. split; [reflexivity|]. split; reflexivity. Qed.

(** ** The configuration *)

(** The text of a list of pairs. *)
Fixpoint printPairs (l : list (list ascii * list ascii)) : list ascii :=
  match l with
  | [] => []
  | [(k, v)] => k ++ c_eq :: v
  | (k, v) :: l' => (k ++ c_eq :: v) ++ c_comma :: printPairs l'
  end.

(** Keys and values of printable characters, without the separators. *)
Definition pairText (p : list ascii * list ascii) : Prop :=
  Forall (λ c, visible c = true ∧ c ≠ c_eq ∧ c ≠ c_comma) p.1 ∧ Forall (λ c, visible c = true ∧ c ≠ c_comma) p.2.

Lemma cutAt_app c k v : Forall (λ x, x ≠ c) k → cutAt c (k ++ c :: v) = Some (k, v).
Proof.
  induction 1 as [|x k Hx _ IH]; simpl; [by rewrite Ascii.eqb_refl|].
  rewrite (proj2 (Ascii.eqb_neq x c) Hx), IH. done.
Qed.

Lemma pair_visible p : pairText p → Forall (λ c, visible c = true) (p.1 ++ c_eq :: p.2).
Proof.
  intros [Hk Hv]. apply Forall_app. split; [by eapply Forall_impl; [exact Hk|naive_solver]|].
  constructor; [done|]. eapply Forall_impl; [exact Hv|naive_solver].
Qed.

Lemma pair_no_comma p : pairText p → Forall (λ x, Ascii.eqb x c_comma = false) (p.1 ++ c_eq :: p.2).
Proof.
  intros [Hk Hv]. apply Forall_app. split; [eapply Forall_impl; [exact Hk|]|constructor; [done|eapply Forall_impl; [exact Hv|]]];
    intros x Hx; apply Ascii.eqb_neq; naive_solver.
Qed.

Lemma parsePair_text p : pairText p → parsePair (p.1 ++ c_eq :: p.2) = Some (unstr p.1, unstr p.2).
Proof.
  intros Hp. unfold parsePair. rewrite TrimSpace_visible by by apply pair_visible. destruct Hp as [Hk Hv].
  rewrite cutAt_app by (eapply Forall_impl; [exact Hk|naive_solver]). simpl.
  rewrite !TrimSpace_visible; [done|eapply Forall_impl; [exact Hv|naive_solver]|eapply Forall_impl; [exact Hk|naive_solver]].
Qed.

Lemma split_pairs l : l ≠ [] → Forall pairText l → splitOn c_comma (printPairs l) = (λ p, p.1 ++ c_eq :: p.2) <$> l.
Proof.
  induction l as [|[k v] l IH]; intros Hne Hl; [done|]. apply Forall_cons in Hl as [Hp Hl].
  destruct l as [|q l]; [by apply splitOn_absent, (pair_no_comma (k, v))|].
  change (printPairs ((k, v) :: q :: l)) with ((k ++ c_eq :: v) ++ c_comma :: printPairs (q :: l)).
  rewrite splitOn_app by apply (pair_no_comma (k, v) Hp). rewrite IH by done. done.
Qed.

Lemma parse_fold l m :
  Forall pairText l →
  foldl (λ m p, match parsePair p with Some (k, v) => <[k := v]> m | None => m end) m ((λ p, p.1 ++ c_eq :: p.2) <$> l) =
  foldl (λ (m : gmap string string) p, <[unstr p.1 := unstr p.2]> m) m l.
Proof.
  revert m. induction l as [|p l IH]; intros m Hl; [done|]. apply Forall_cons in Hl as [Hp Hl]. rewrite fmap_cons. cbn [foldl].
  rewrite parsePair_text by done. by apply IH.
Qed.

(** A list of headers or resource attributes comes back from
    its text: every key has its last value. *)
Theorem pairs_roundtrip (l : list (list ascii * list ascii)) :
  Forall pairText l →
  parsePairs (unstr (printPairs l)) = foldl (λ m p, <[unstr p.1 := unstr p.2]> m) ∅ l.
Proof.
  intros Hl. destruct (decide (l = [])) as [->|Hne]; [done|]. unfold parsePairs. rewrite bool_decide_false.
  - rewrite str_unstr, split_pairs by done. by apply parse_fold.
  - intros E. apply (f_equal str) in E. rewrite str_unstr in E. destruct l as [|[k v] [|q l]]; [done|..]; simpl in E; by destruct k.
Qed.

Lemma getenv_empty env k : getenv env k "" = env k.
Proof. unfold getenv. by case_bool_decide. Qed.

Lemma orElse_assoc a b c : orElse a (orElse b c) = orElse (orElse a b) c.
Proof. unfold orElse. by destruct (bool_decide (a = "")) eqn:E; [|rewrite E]. Qed.

(** The site comes from its own variable, else the id, else the resource
    attributes. *)
Lemma FromEnv_site (env : environ) :
  SiteID (FromEnv env) =
  orElse (env "NEWT_SITE_ID"%string)
    (orElse (env "NEWT_ID"%string) (default "" (parseResourceAttributes (env "OTEL_RESOURCE_ATTRIBUTES"%string) !! "site_id"%string))).
Proof.
  rewrite orElse_assoc. unfold FromEnv. rewrite !getenv_empty. set (site := orElse (env "NEWT_SITE_ID"%string) (env "NEWT_ID"%string)).
  set (ra := env "OTEL_RESOURCE_ATTRIBUTES"%string). destruct (decide (ra = "")) as [->|Hra].
  - rewrite (bool_decide_true (""%string = "")), andb_false_r by done. simpl. unfold orElse. by case_bool_decide.
  - rewrite (bool_decide_false (ra = "")), andb_true_r by done. destruct (decide (site = "")) as [Es|Es].
    + rewrite Es. by rewrite (bool_decide_true (""%string = "")).
    + assert (∀ x, orElse site x = site) as Eo by (intros x; unfold orElse; by rewrite bool_decide_false).
      rewrite (bool_decide_false (site = "")), !Eo by done. by destruct (bool_decide (env "NEWT_REGION"%string = "")).
Qed.

(** ** Examples *)

Module TelemetryExamples.

Definition env0 : environ := λ _, ""%string.
Definition sdk1 : sdk := mkSdk true true true (λ _, true) (λ _, true) true.
Definition cfg1 : Config :=
  mkConfig "newt" "" "site" "eu" true true "localhost:4317" true (15 * Second) ":2112" "1.0" "".
Definition started : telem := (Init sdk1 env0 cfg1 telem0).1.
Definition setup1 : Setup := default (mkSetup [] false false []) (Init sdk1 env0 cfg1 telem0).2.

Lemma defaults : FromEnv env0 = mkConfig "newt" "" "" "" true false "localhost:4317" true (15 * Second) ":2112" "" "".
Proof. reflexivity. Qed.

Definition calls1 : list metricCall :=
  [IncProxyConnectionEvent "t" "tcp" "opened"; IncProxyConnectionEvent "t" "tcp" "closed"; IncProxyConnectionEvent "u" "tcp" "opened"].

Lemma calls1_ok : ∃ t, recordAll calls1 started = Ret t.
Proof. apply recordAll_total. vm_compute. reflexivity. Qed.

Lemma counts_conserved_witness :
  ∃ t, recordAll calls1 started = Ret t ∧ totalOf "newt_proxy_connections_total" (ts_sums t) = 3.
Proof.
  destruct calls1_ok as [t Ht]. exists t. split; [exact Ht|].
  pose proof (counts_conserved calls1 started t "newt_proxy_connections_total" Ht) as H. rewrite H. vm_compute. reflexivity.
Defined.

(** Metrics not yet sent, and whether the exporter is down. *)
Definition world1 : OtlpClose (nat * bool) := {|
  close c (w : nat * bool) := match c with
               | CMetricExporter => ((w.1, true), true)
               | CMeterProvider => if w.2 then (w, Nat.eqb w.1 0) else ((0%nat, true), true)
               | _ => (w, true)
               end;
  metricsDown (w : nat * bool) := w.2 = true;
  unsent (w : nat * bool) := w.1 |}.

Lemma world1_laws : @OtlpCloseLaws (nat * bool) world1.
Proof.
  split; simpl.
  - done.
  - intros [] [n b] H; simpl in *; subst; done.
  - intros [n b] H Hn; simpl in *; subst. simpl. apply Nat.eqb_neq. lia.
Qed.

Lemma shutdown_loses_metrics_witness : unsent (OtlpClose := world1) (Shutdown (close (OtlpClose := world1)) setup1 (5%nat, false)).1 = 5%nat.
Proof.
  pose proof (@shutdown_loses_metrics (nat * bool) world1 world1_laws sdk1 env0 cfg1 started setup1 (5%nat, false)) as H.
  apply H; vm_compute; reflexivity.
Defined.

Definition view1 : TelemetryView := mkView true 100 (<["a"%string := 2]> (<["b"%string := 3]> ∅)).

Lemma sessions_consistent_witness :
  sumObs (observeSessionsFor started (viewOf view1) (viewOf view1) "self") = 5.
Proof.
  destruct (sessions_consistent started view1 "self") as [H _]; [apply (bool_decide_unpack _); vm_compute; exact I|].
  rewrite H. vm_compute. reflexivity.
Defined.

Lemma pairs_roundtrip_witness :
  parsePairs "a=b,c=d=e" = <["c"%string := "d=e"%string]> (<["a"%string := "b"%string]> ∅).
Proof.
  apply (pairs_roundtrip [(str "a", str "b"); (str "c", str "d=e")]). repeat constructor; (vm_compute; done).
Defined.

(** Labels end at the first site label, and the event is not among them. *)
Lemma event_stream :
  streamLabels "newt_proxy_connections_total" (attrsWithSite started (callAttrs started (IncProxyConnectionEvent "t" "tcp" "opened"))) =
  <["protocol"%string := "tcp"%string]> (<["tunnel_id"%string := "t"%string]>
    (<["site_id"%string := "site"%string]> (<["region"%string := "eu"%string]> ∅))).
Proof. apply (bool_decide_unpack _). vm_compute. exact I. Qed.

End TelemetryExamples.
