(* ===== verification/WsDial.v ===== *)
(** * Establishing the websocket connection ([websocket/client.go])

    One attempt of [establishConnection], from provisioning to the connected
    client: the address it dials, the TLS settings of the dialer, the metrics
    it records, and the messages sent afterwards.  The attempts' order and the
    goroutines around them are in [WebSocket]. *)

From S2P Require Import Prelude NetipText HostPort Keys Util WsConfig Settings Telemetry.
From Stdlib Require Import Ascii.

(** ** The address *)

Definition upperHex (x : Z) : ascii := if x <? 10 then ch (48 + x) else ch (55 + x).

(** [url.QueryEscape] *)
Definition unreserved (c : ascii) : bool :=
  let n := code c in
  ((97 <=? n) && (n <=? 122)) || ((65 <=? n) && (n <=? 90)) || ((48 <=? n) && (n <=? 57)) ||
  (n =? 45) || (n =? 95) || (n =? 46) || (n =? 126).

Definition escapeChar (c : ascii) : list ascii :=
  if unreserved c then [c]
  else if code c =? 32 then ["+"%char]
  else ["%"%char; upperHex (code c / 16); upperHex (code c mod 16)].

Definition QueryEscape (s : list ascii) : list ascii := s ≫= escapeChar.

(** [Values.Encode] sorts the keys. *)
Definition wsQuery (token clientType : list ascii) : list ascii :=
  str "clientType=" ++ QueryEscape clientType ++ str "&token=" ++ QueryEscape token.

Definition wsProtocol (scheme : string) : string := if bool_decide (scheme = "http"%string) then "ws" else "wss".

Definition wsURL (scheme host token clientType : string) : string :=
  unstr (str (wsProtocol scheme) ++ str "://" ++ str host ++ str "/api/v1/ws?" ++ wsQuery (str token) (str clientType)).

(** ** One attempt *)

(** The answers that an attempt gets: to provisioning, to the token request
    (with the text of its error), the parts of the base URL, whether the
    websocket URL parses, and the dial, which gives an error's text when it
    fails; whether a callback for the connection is set, before which the
    configuration is saved. *)
Record attempt : Type := mkAttempt {
  at_prov : provResponse; at_file : fileRead; at_writes : bool;
  at_token : tokenResponse; at_tokenErr : string;
  at_base : option (string * string); at_urlOk : bool;
  at_dial : option string;
  at_onConnect : bool; at_saveFile : fileRead; at_saveWrites : bool }.

Inductive attemptResult : Type :=
  | AProvision | AToken | AURL | ATLS | ADial
  | AConnected (url : string) (tls : tlsMaterial) (skipVerify : bool).

(** The reason of a reconnect that a failed dial is counted under. *)
Definition dialReason (etype : string) : string :=
  if bool_decide (etype = "tls_handshake"%string) then "handshake_error"
  else if bool_decide (etype = "dial_timeout"%string) then "timeout" else "error".

Section Attempt.
Context (decode : list ascii → option (gmap string json)) (loadPair : string → string → bool) (ca : string → caFile)
  (loadPKCS12 : string → bool) (env : Env) (clientType : string).

(** The client after the attempt, its result, the token passed on, and the
    metrics recorded. *)
Definition establishConnection (a : attempt) (w : wsClient) : wsClient * attemptResult * option string * list metricCall :=
  let '(_, w, ok) := provisionIfNeeded decode (at_prov a) (at_file a) (at_writes a) w in
  if negb ok then (w, AProvision, None, [])
  else
    let '(w, tok) := getToken loadPair ca loadPKCS12 env (at_token a) w in
    match tok with
    | None => (w, AToken, None, [IncConnAttempt "websocket" "failure"; IncConnError "websocket" (classifyConnError (Some (at_tokenErr a)))])
    | Some token =>
        match at_base a with
        | None => (w, AURL, Some token, [])
        | Some (scheme, host) =>
            if negb (at_urlOk a) then (w, AURL, Some token, [])
            else match requestTLS loadPair ca loadPKCS12 env w with
            | None => (w, ATLS, Some token, [])
            | Some (tls, skip) =>
                match at_dial a with
                | Some err =>
                    let etype := classifyConnError (Some err) in
                    (w, ADial, Some token,
                     [IncConnAttempt "websocket" "failure"; IncConnError "websocket" etype; ObserveWSConnectLatency "failure" etype;
                      IncReconnect (cfg_ID (wc_config w)) "client" (dialReason etype); IncWSReconnect etype])
                | None =>
                    let w := if at_onConnect a then (saveConfig decode (at_saveFile a) (at_saveWrites a) w).1.2 else w in
                    (w, AConnected (wsURL scheme host token clientType) tls skip, Some token,
                     [IncConnAttempt "websocket" "success"; ObserveWSConnectLatency "success" ""])
                end
            end
        end
    end.

(** ** What an attempt counts *)

Definition isAttempt (c : metricCall) : bool := match c with IncConnAttempt _ _ => true | _ => false end.

Definition attempted (r : attemptResult) : bool := match r with AToken | ADial | AConnected _ _ _ => true | _ => false end.
Definition connected (r : attemptResult) : bool := match r with AConnected _ _ _ => true | _ => false end.

(** The values that the labels of an attempt can have. *)
Definition errorTypes : list string := ["tls_handshake"; "dial_timeout"; "auth_failed"; "io_error"].
Definition reconnectReasons : list string := ["handshake_error"; "timeout"; "error"].

Definition boundedCall (id : string) (c : metricCall) : Prop :=
  match c with
  | IncConnAttempt t r => t = "websocket"%string ∧ r ∈ ["success"; "failure"]%string
  | IncConnError t e => t = "websocket"%string ∧ e ∈ errorTypes
  | ObserveWSConnectLatency r e => r ∈ ["success"; "failure"]%string ∧ (e = ""%string ∨ e ∈ errorTypes)
  | IncReconnect i init r => i = id ∧ init = "client"%string ∧ r ∈ reconnectReasons
  | IncWSReconnect r => r ∈ errorTypes
  | _ => False
  end.

Lemma classify_bounded text : classifyConnError (Some text) ∈ errorTypes.
Proof.
  unfold classifyConnError. destruct (_ || _); [|destruct (_ || _); [|destruct (_ || _)]]; apply (bool_decide_unpack _); exact I.
Qed.

Lemma reason_bounded etype : dialReason etype ∈ reconnectReasons.
Proof. unfold dialReason. repeat case_bool_decide; apply (bool_decide_unpack _); exact I. Qed.

(** An attempt that got as far as asking for a token is
    counted once, as a success exactly when it connected; the labels of what
    it records come from fixed lists; attempts that fail in provisioning, on
    the address or on the TLS files record nothing. *)
Theorem attempt_metrics (a : attempt) (w w' : wsClient) (r : attemptResult) (tok : option string) (ms : list metricCall) :
  establishConnection a w = (w', r, tok, ms) →
  length (filter (λ c, isAttempt c = true) ms) = (if attempted r then 1%nat else 0%nat) ∧
  (IncConnAttempt "websocket" "success" ∈ ms ↔ connected r = true) ∧
  (attempted r = false → ms = []) ∧ Forall (boundedCall (cfg_ID (wc_config w'))) ms.
Proof.
  unfold establishConnection. destruct (provisionIfNeeded _ _ _ _ w) as [[o w1] ok]. destruct ok; simpl.
  2:{ intros [= <- <- <- <-]. split_and!; [done|set_solver|done|constructor]. }
  destruct (getToken _ _ _ _ _ w1) as [w2 [token|]].
  2:{ intros [= <- <- <- <-]. split_and!; [done|rewrite !elem_of_cons, elem_of_nil; naive_solver|done|].
      rewrite !Forall_cons, Forall_nil. simpl. split_and!; try done; [set_solver|apply classify_bounded]. }
  destruct (at_base a) as [[scheme host]|]; [|intros [= <- <- <- <-]; split_and!; [done|set_solver|done|constructor]].
  destruct (at_urlOk a); simpl; [|intros [= <- <- <- <-]; split_and!; [done|set_solver|done|constructor]].
  destruct (requestTLS _ _ _ _ w2) as [[tls skip]|]; [|intros [= <- <- <- <-]; split_and!; [done|set_solver|done|constructor]].
  destruct (at_dial a) as [err|]; intros [= <- <- <- <-].
  - split_and!; [done|rewrite !elem_of_cons, elem_of_nil; naive_solver|done|].
    pose proof (classify_bounded err). rewrite !Forall_cons, Forall_nil. simpl. split_and!; try done; try set_solver. apply reason_bounded.
  - split_and!; [done|rewrite !elem_of_cons, elem_of_nil; naive_solver|done|].
    rewrite !Forall_cons, Forall_nil. simpl. split_and!; try done; try set_solver.
Qed.

End Attempt.

(** ** The address carries the token *)

Definition hexUpperVal (c : ascii) : option Z :=
  let n := code c in
  if (48 <=? n) && (n <=? 57) then Some (n - 48) else if (65 <=? n) && (n <=? 70) then Some (n - 55) else None.

(** [url.QueryUnescape] *)
Fixpoint unescape (s : list ascii) : option (list ascii) :=
  match s with
  | [] => Some []
  | c :: rest =>
      if Ascii.eqb c "%"%char then
        match rest with
        | a :: b :: rest' =>
            x ← hexUpperVal a; y ← hexUpperVal b; t ← unescape rest'; Some (ch (16 * x + y) :: t)
        | _ => None
        end
      else if Ascii.eqb c "+"%char then t ← unescape rest; Some (ch 32 :: t)
      else t ← unescape rest; Some (c :: t)
  end.

Lemma hexUpper_val x : 0 <= x < 16 → hexUpperVal (upperHex x) = Some x.
Proof.
  intros Hx. unfold upperHex, hexUpperVal. destruct (Z.ltb_spec x 10); rewrite code_ch by lia.
  - rewrite (proj2 (Z.leb_le 48 (48 + x))), (proj2 (Z.leb_le (48 + x) 57)) by lia. simpl. f_equal. lia.
  - rewrite (proj2 (Z.leb_gt (55 + x) 57)), andb_false_r by lia.
    rewrite (proj2 (Z.leb_le 65 (55 + x))), (proj2 (Z.leb_le (55 + x) 70)) by lia. simpl. f_equal. lia.
Qed.

Lemma ch_code c : ch (code c) = c.
Proof. unfold ch, code. rewrite Nat2Z.id. apply ascii_nat_embedding. Qed.

Lemma code_range c : 0 <= code c < 256.
Proof. unfold code. pose proof (nat_ascii_bounded c). lia. Qed.

Lemma unreserved_plain c d : unreserved c = true → unreserved d = false → Ascii.eqb c d = false.
Proof. intros Hc Hd. apply Ascii.eqb_neq. intros ->. congruence. Qed.

Lemma unescape_escape c t : unescape (escapeChar c ++ t) = t' ← unescape t; Some (c :: t').
Proof.
  unfold escapeChar. destruct (unreserved c) eqn:Hu.
  - cbn [app unescape]. by rewrite !(unreserved_plain c) by done.
  - destruct (Z.eqb_spec (code c) 32) as [E|_]; cbn [app unescape].
    + by rewrite <-(ch_code c), E.
    + pose proof (code_range c). rewrite Ascii.eqb_refl, !hexUpper_val by (Z.div_mod_to_equations; lia).
      cbn [mbind option_bind]. rewrite <-Z.div_mod, ch_code by lia. done.
Qed.

Lemma unescape_QueryEscape s : unescape (QueryEscape s) = Some s.
Proof. unfold QueryEscape. induction s as [|c s IH]; [done|]. rewrite bind_cons, unescape_escape, IH. done. Qed.

Definition c_amp : ascii := "&"%char.

Lemma upperHex_not_amp x : 0 <= x < 16 → Ascii.eqb (upperHex x) c_amp = false.
Proof.
  intros Hx. apply Ascii.eqb_neq. intros E. pose proof (hexUpper_val x Hx) as H. rewrite E in H. done.
Qed.

Lemma escape_no_amp s : Forall (λ x, Ascii.eqb x c_amp = false) (QueryEscape s).
Proof.
  unfold QueryEscape. induction s as [|c s IH]; [constructor|]. rewrite bind_cons. apply Forall_app. split; [|done].
  unfold escapeChar. destruct (unreserved c) eqn:Hu.
  - apply Forall_singleton. by apply unreserved_plain.
  - destruct (code c =? 32); [by apply Forall_singleton|]. pose proof (code_range c).
    rewrite !Forall_cons, Forall_nil. split_and!; try done; apply upperHex_not_amp; Z.div_mod_to_equations; lia.
Qed.

(** Whatever bytes the token and the type of the client
    consist of, the query of the address has two fields that decode to them. *)
Theorem url_carries_token (token clientType : list ascii) :
  splitOn c_amp (wsQuery token clientType) = [str "clientType=" ++ QueryEscape clientType; str "token=" ++ QueryEscape token] ∧
  unescape (QueryEscape clientType) = Some clientType ∧ unescape (QueryEscape token) = Some token.
Proof.
  split; [|split; apply unescape_QueryEscape]. unfold wsQuery.
  change (str "&token=" ++ QueryEscape token) with (c_amp :: str "token=" ++ QueryEscape token). rewrite app_assoc, splitOn_app.
  - rewrite splitOn_absent; [done|]. apply Forall_app. split; [repeat constructor|apply escape_no_amp].
  - apply Forall_app. split; [repeat constructor|apply escape_no_amp].
Qed.

(** ** Messages *)

(** [SendMessage] and [SendMessageNoLog] on a connection that stays the same:
    the message written, if any, and the metrics. *)
Definition SendMessage {M} (conn deadlineOk writeOk : bool) (msg : M) : option M * bool * list metricCall :=
  if negb conn then (None, false, [])
  else if negb deadlineOk then (None, false, [])
  else if negb writeOk then (None, false, [])
  else (Some msg, true, [IncWSMessage "out" "text"]).

(** Handlers by message type; a later registration replaces an earlier one. *)
Definition RegisterHandler {H} (messageType : string) (h : H) (m : gmap string H) : gmap string H := <[messageType := h]> m.

Module WsDialExamples.

Definition client1 : wsClient :=
  mkWsClient (WsConfig.mkConfig "id" "s" "https://x" "" "" "" false) "https://x" "" (mkTLS "" "" [] "") (60 * Second) false false "".
Definition attempt1 : attempt :=
  mkAttempt ProvError FileMissing true (TokAnswer 200 (Some (true, "a b/=", "1.0")%string)) "" (Some ("https", "x")%string) true None
    true FileMissing true.
Definition env1 : Env := λ _, ""%string.
Definition result1 : wsClient * attemptResult * option string * list metricCall :=
  establishConnection (λ _, None) (λ _ _, true) (λ _, CaOK) (λ _, true) env1 "newt" attempt1 client1.

Lemma result1_url : result1.1.1.2 = AConnected "wss://x/api/v1/ws?clientType=newt&token=a+b%2F%3D" TlsDefault false.
Proof. vm_compute. reflexivity. Qed.

Lemma attempt_metrics_witness : IncConnAttempt "websocket" "success" ∈ result1.2.
Proof.
  destruct (attempt_metrics (λ _, None) (λ _ _, true) (λ _, CaOK) (λ _, true) env1 "newt" attempt1 client1
    result1.1.1.1 result1.1.1.2 result1.1.2 result1.2) as (_ & H & _); [vm_compute; reflexivity|].
  apply H. rewrite result1_url. reflexivity.
Defined.

End WsDialExamples.
