(* ===== verification/PingCheck.v ===== *)
(** * Watching the tunnel ([newt/ping.go])

    [reliablePing] tries a ping a few times; [pingWithRetry] tries once and
    then goes on in the background with a growing delay; [startPingCheck]
    pings on a ticker, adapts its timeout to the latencies it saw, and after
    four failures in a row asks the server for new exit nodes.  A ping is an
    outcome: [Some] latency or [None].  Durations are nanoseconds; a product
    with a float constant is the exact fraction truncated, which is what the
    float computation gives for the durations below 2^50 that occur here. *)

From S2P Require Import Prelude.

Definition Millisecond : Z := 1000000.

(** ** [reliablePing] *)

Section reliable.
(** The outcome of an attempt with its timeout, and [rand.Intn(100)]. *)
Context (fn : nat → Z → option Z) (jitter : nat → Z).

Definition attemptTimeout (base : Z) (attempt : nat) : Z :=
  base + (Z.of_nat attempt - 1) * 500 * Millisecond + jitter attempt * Millisecond.

(** The attempts from [attempt] on, [left] of them. *)
Fixpoint reliableFrom (base : Z) (attempt left : nat) : option Z :=
  match left with
  | O => None
  | S left' =>
      match fn attempt (attemptTimeout base attempt) with
      | Some latency => Some (Z.quot latency 1)
      | None => reliableFrom base (S attempt) left'
      end
  end.

Definition reliablePing (base : Z) (maxAttempts : nat) : option Z := reliableFrom base 1 maxAttempts.

(** The pause after a failed attempt that is not the last. *)
Definition attemptBackoff (attempt : nat) : Z := Z.of_nat attempt * 50 * Millisecond.

(** The longest a call can take when every attempt uses its whole timeout. *)
Fixpoint worstFrom (base : Z) (attempt left : nat) : Z :=
  match left with
  | O => 0
  | S O => attemptTimeout base attempt
  | S left' => attemptTimeout base attempt + attemptBackoff attempt + worstFrom base (S attempt) left'
  end.

Lemma reliable_fails base attempt left :
  reliableFrom base attempt left = None ↔
  ∀ a, (attempt <= a < attempt + left)%nat → fn a (attemptTimeout base a) = None.
Proof.
  revert attempt. induction left as [|left IH]; intros attempt; simpl; [split; [lia|done]|].
  destruct (fn attempt (attemptTimeout base attempt)) eqn:E.
  - split; [done|]. intros H. specialize (H attempt ltac:(lia)). congruence.
  - rewrite IH. split; intros H a Ha.
    + destruct (decide (a = attempt)) as [->|]; [done|apply H; lia].
    + apply H. lia.
Qed.
End reliable.

(** ** [pingWithRetry] *)

Definition initialRetryDelay : Z := 2 * Second.
Definition maxRetryDelay : Z := 60 * Second.

(** The delay after attempt [attempt] failed. *)
Definition retryDelayAfter (attempt : nat) (delay : Z) : Z :=
  if Nat.eqb (attempt mod 5) 0 && (delay <? maxRetryDelay) then Z.min maxRetryDelay (Z.quot (delay * 3) 2) else delay.

(** The background loop on the outcomes of its pings, from attempt 2: the
    delays it slept and whether it ended with a success. *)
Fixpoint retryLoop (attempt : nat) (delay : Z) (outcomes : list bool) : list Z * bool :=
  match outcomes with
  | [] => ([], false)
  | true :: _ => ([], true)
  | false :: rest =>
      let d := retryDelayAfter attempt delay in
      let '(ds, ok) := retryLoop (S attempt) d rest in (d :: ds, ok)
  end.

(** ** [startPingCheck] *)

Definition maxInterval : Z := 6 * Second.
Definition failureThreshold : Z := 4.

Record pcConfig : Type := mkPC { PingInterval : Z; PingTimeout : Z }.

(** [pc_ticker] is the period the ticker runs with. *)
Record pcState : Type := mkPCState {
  pc_currentInterval : Z;
  pc_ticker : Z;
  pc_consecutiveFailures : Z;
  pc_connectionLost : bool;
  pc_recentLatencies : list Z;
}.

Definition pcInit (c : pcConfig) : pcState := mkPCState (PingInterval c) (PingInterval c) 0 false [].

Definition shouldFireRecovery (consecutiveFailures threshold : Z) (connectionLost : bool) : bool :=
  (threshold <=? consecutiveFailures) && negb connectionLost.

Definition adaptiveTimeout (c : pcConfig) (st : pcState) : Z :=
  match pc_recentLatencies st with
  | [] => PingTimeout c
  | l =>
      let avg := Z.quot (zsum id l) (Z.of_nat (length l)) in
      Z.min (15 * Second) (Z.max (PingTimeout c) (avg * 3))
  end.

Definition maxAttemptsOf (st : pcState) : nat := if 4 <? pc_consecutiveFailures st then 4 else 2.

(** The last ten. *)
Definition pushLatency (x : Z) (l : list Z) : list Z :=
  let l' := l ++ [x] in if Nat.ltb 10 (length l') then drop 1 l' else l'.

(** What a tick does besides: start the recovery (drop the health file), or
    report the connection restored (write it). *)
Inductive pcEvent : Type := PcNone | PcRecover | PcRestored.

Definition growInterval (cur : Z) : Z := Z.min maxInterval (Z.quot (cur * 13) 10).
Definition shrinkInterval (c : pcConfig) (cur : Z) : Z := Z.max (PingInterval c) (Z.quot (cur * 9) 10).

(** One tick; [ping] is the outcome of [reliablePing] for a timeout and number
    of attempts. *)
Definition pcTick (c : pcConfig) (ping : Z → nat → option Z) (st : pcState) : pcState * pcEvent :=
  let timeout := adaptiveTimeout c st in
  match ping timeout (maxAttemptsOf st) with
  | None =>
      let failures := pc_consecutiveFailures st + 1 in
      let fire := shouldFireRecovery failures failureThreshold (pc_connectionLost st) in
      let cur := pc_currentInterval st in
      (mkPCState (if (failureThreshold <=? failures) && (cur <? maxInterval) then growInterval cur else cur)
         (pc_ticker st) failures (pc_connectionLost st || fire) (pushLatency timeout (pc_recentLatencies st)),
       if fire then PcRecover else PcNone)
  | Some latency =>
      let cur := pc_currentInterval st in
      let '(cur', ticker') := if PingInterval c <? cur then (shrinkInterval c cur, shrinkInterval c cur) else (cur, pc_ticker st) in
      (mkPCState cur' ticker' 0 false (pushLatency latency (pc_recentLatencies st)),
       if pc_connectionLost st then PcRestored else PcNone)
  end.

(** A history of outcomes, newest last, with the events of each tick. *)
Fixpoint pcRun (c : pcConfig) (st : pcState) (outs : list (option Z)) : pcState * list pcEvent :=
  match outs with
  | [] => (st, [])
  | o :: rest => let '(st', e) := pcTick c (λ _ _, o) st in
                 let '(st'', es) := pcRun c st' rest in (st'', e :: es)
  end.

(** ** Stopping the background loops *)

(** The two goroutines ping through [n.tnet], which [closeWgTunnel] sets to
    nil.  The check goroutine keeps its own stop channel; the retry goroutine
    reads the field [n.pingStopChan] at each iteration, and its other channel
    is closed by the next [handleConnect] only. *)
Record pingWorld : Type := mkPW {
  pw_tnet : bool;                 (* n.tnet is not nil *)
  pw_pingStopChan : option nat;   (* the field *)
  pw_closed : gset nat;           (* closed channels *)
  pw_retry : option nat;          (* the retry goroutine, with its stopChan, if it runs *)
}.

Definition closePing (w : pingWorld) : pingWorld :=
  mkPW (pw_tnet w) None (match pw_pingStopChan w with Some k => pw_closed w ∪ {[k]} | None => pw_closed w end) (pw_retry w).

(** The part of [closeWgTunnel] the pingers see. *)
Definition closeTunnelPing (w : pingWorld) : pingWorld :=
  let w := closePing w in mkPW false (pw_pingStopChan w) (pw_closed w) (pw_retry w).

(** The part of the next [handleConnect]. *)
Definition connectStops (w : pingWorld) (retryChan : option nat) : pingWorld :=
  mkPW (pw_tnet w) (pw_pingStopChan w) (match retryChan with Some k => pw_closed w ∪ {[k]} | None => pw_closed w end) (pw_retry w).

Definition isClosed (w : pingWorld) (k : option nat) : bool :=
  match k with Some k => bool_decide (k ∈ pw_closed w) | None => false end.

(** One iteration of the retry goroutine with the outcome of its ping. *)
Definition retryIter (ok : bool) (w : pingWorld) : go pingWorld :=
  match pw_retry w with
  | None => Ret w
  | Some k =>
      if isClosed w (Some k) || isClosed w (pw_pingStopChan w) then
        Ret (mkPW (pw_tnet w) (pw_pingStopChan w) (pw_closed w) None)
      else if negb (pw_tnet w) then Panic
      else Ret (if ok then mkPW (pw_tnet w) (pw_pingStopChan w) (pw_closed w) None else w)
  end.

(** ** Lemmas *)

Lemma pcRun_snoc c st outs o :
  pcRun c st (outs ++ [o]) =
  (let '(st', es) := pcRun c st outs in let '(st'', e) := pcTick c (λ _ _, o) st' in (st'', es ++ [e])).
Proof.
  revert st. induction outs as [|x outs IH]; intros st; simpl.
  - by destruct (pcTick c _ st).
  - destruct (pcTick c _ st) as [st' e]. rewrite IH. destruct (pcRun c st' outs) as [st1 es].
    by destruct (pcTick c (λ _ _, o) st1).
Qed.

(** The failures at the end of a history. *)
Fixpoint failuresFrom (n : nat) (outs : list (option Z)) : nat :=
  match outs with [] => n | None :: r => failuresFrom (S n) r | Some _ :: r => failuresFrom 0 r end.
Definition outage (outs : list (option Z)) : nat := failuresFrom 0 outs.

Lemma outage_snoc outs o : outage (outs ++ [o]) = match o with None => S (outage outs) | Some _ => 0%nat end.
Proof.
  unfold outage. assert (∀ n, failuresFrom n (outs ++ [o]) = match o with None => S (failuresFrom n outs) | Some _ => 0%nat end) as H;
    [|apply H]. induction outs as [|x outs IH]; intros n; simpl; [by destruct o|]. destruct x; apply IH.
Qed.

(** The event of the last tick of a history. *)
Definition expectedEvent (before : list (option Z)) (o : option Z) : pcEvent :=
  match o with
  | None => if Nat.eqb (outage before) 3 then PcRecover else PcNone
  | Some _ => if Nat.leb 4 (outage before) then PcRestored else PcNone
  end.

Lemma pc_state_spec c outs :
  let '(st, es) := pcRun c (pcInit c) outs in
  pc_consecutiveFailures st = Z.of_nat (outage outs) ∧ pc_connectionLost st = Nat.leb 4 (outage outs) ∧
  length es = length outs ∧ ∀ i o, outs !! i = Some o → es !! i = Some (expectedEvent (take i outs) o).
Proof.
  induction outs as [|o outs IH] using rev_ind; [simpl; split_and!; try done; intros i o; by rewrite lookup_nil|].
  rewrite pcRun_snoc. destruct (pcRun c (pcInit c) outs) as [st es]. destruct IH as (Hf & Hl & Hlen & He).
  assert (∀ st' e, pcTick c (λ _ _, o) st = (st', e) →
    pc_consecutiveFailures st' = Z.of_nat (outage (outs ++ [o])) ∧ pc_connectionLost st' = Nat.leb 4 (outage (outs ++ [o])) ∧
    e = expectedEvent outs o) as Htick.
  { intros st' e. rewrite outage_snoc. unfold pcTick, expectedEvent, shouldFireRecovery, failureThreshold. rewrite Hf, Hl.
    destruct o as [lat|].
    - destruct (PingInterval c <? _); intros [= <- <-]; simpl; by destruct (Nat.leb 4 (outage outs)).
    - intros [= <- <-]. cbn [pc_consecutiveFailures pc_connectionLost]. split; [lia|].
      destruct (Z.leb_spec 4 (Z.of_nat (outage outs) + 1)); destruct (outage outs) as [|[|[|[|k]]]]; simpl; try lia; done. }
  destruct (pcTick c (λ _ _, o) st) as [st' e]. destruct (Htick st' e eq_refl) as (H1 & H2 & ->).
  split_and!; [done|done|rewrite !length_app; simpl; lia|]. intros i o' Hi.
  destruct (decide (i < length outs)%nat) as [Hlt|Hge].
  - rewrite lookup_app_l in Hi by lia. rewrite lookup_app_l by lia. rewrite take_app_le by lia. by apply He.
  - rewrite lookup_app_r in Hi by lia. apply list_lookup_singleton_Some in Hi as [Hi ->].
    assert (i = length outs) as -> by lia. rewrite lookup_app_r, Hlen, Nat.sub_diag by lia.
    by rewrite take_app_length.
Qed.

(** ** Properties *)

(** The recovery runs once per outage.  Over any history of ping outcomes,
    the request for new exit nodes is made exactly on the ticks that end a run
    of four failures since the last success, never again while the outage
    lasts, and the restored event (which writes the health file back) comes
    exactly on the success that ends such an outage; between two recoveries
    there is always a success. *)
Theorem recovery_once c outs :
  let es := (pcRun c (pcInit c) outs).2 in
  length es = length outs ∧
  (∀ i, es !! i = Some PcRecover ↔ outs !! i = Some None ∧ outage (take i outs) = 3%nat) ∧
  (∀ i, es !! i = Some PcRestored ↔ (∃ l, outs !! i = Some (Some l)) ∧ (4 <= outage (take i outs))%nat) ∧
  (∀ i j, (i < j)%nat → es !! i = Some PcRecover → es !! j = Some PcRecover →
     ∃ k l, (i < k < j)%nat ∧ outs !! k = Some (Some l)).
Proof.
  pose proof (pc_state_spec c outs) as Hspec. destruct (pcRun c (pcInit c) outs) as [st es]. simpl.
  destruct Hspec as (_ & _ & Hlen & He).
  assert (∀ i, es !! i = Some PcRecover ↔ outs !! i = Some None ∧ outage (take i outs) = 3%nat) as Hrec.
  { intros i. destruct (outs !! i) as [o|] eqn:Eo.
    - rewrite (He i o Eo). unfold expectedEvent. destruct o.
      + split; [by destruct (Nat.leb 4 _)|by intros [? _]].
      + destruct (Nat.eqb_spec (outage (take i outs)) 3); naive_solver.
    - apply lookup_ge_None in Eo. rewrite (proj2 (lookup_ge_None es i)) by lia. naive_solver. }
  split_and!; [done|done|..].
  - intros i. destruct (outs !! i) as [o|] eqn:Eo.
    + rewrite (He i o Eo). unfold expectedEvent. destruct o.
      * destruct (Nat.leb_spec 4 (outage (take i outs))); naive_solver lia.
      * split; [by destruct (Nat.eqb _ 3)|by intros [[? [=]] _]].
    + apply lookup_ge_None in Eo. rewrite (proj2 (lookup_ge_None es i)) by lia. naive_solver.
  - intros i j Hij [Hi Oi]%Hrec [Hj Oj]%Hrec. clear He Hrec Hlen.
    assert (∀ m, (i < m <= j)%nat →
      (∃ k l, (i < k < m)%nat ∧ outs !! k = Some (Some l)) ∨ (4 + (m - S i) = outage (take m outs))%nat) as Hm.
    { intros m. induction m as [|m IH]; [lia|]. intros Hm. destruct (decide (m = i)) as [->|Hne].
      - right. rewrite (take_S_r _ _ _ Hi), outage_snoc, Oi. lia.
      - destruct IH as [(k & l & Hk & Hl)|IH]; [lia|left; exists k, l; split; [lia|done]|].
        destruct (outs !! m) as [[l|]|] eqn:E.
        + left. exists m, l. split; [lia|done].
        + right. rewrite (take_S_r _ _ _ E), outage_snoc, <- IH. lia.
        + apply lookup_ge_None in E. apply lookup_lt_Some in Hj. lia. }
    destruct (Hm j ltac:(lia)) as [?|?]; [done|lia].
Qed.

Lemma quot_scale a n d : 0 <= a → 0 < d → 0 <= n → Z.quot (a * n) d = a * n / d.
Proof. intros. apply Z.quot_div_nonneg; nia. Qed.

Lemma grow_bounds cur : 0 < cur < maxInterval → cur <= growInterval cur <= maxInterval.
Proof. unfold growInterval, maxInterval, Second. intros H. rewrite quot_scale by lia. pose proof (Z.div_le_lower_bound (cur * 13) 10 cur). lia. Qed.

Lemma shrink_bounds c cur :
  0 < PingInterval c < cur → PingInterval c <= shrinkInterval c cur < cur.
Proof.
  unfold shrinkInterval. intros H. rewrite quot_scale by lia.
  pose proof (Z.div_lt_upper_bound (cur * 9) 10 cur). lia.
Qed.

Definition interval_ok (c : pcConfig) (st : pcState) : Prop :=
  PingInterval c <= pc_currentInterval st <= Z.max (PingInterval c) maxInterval ∧
  PingInterval c <= pc_ticker st <= Z.max (PingInterval c) maxInterval ∧
  (pc_consecutiveFailures st = 0 → pc_ticker st = pc_currentInterval st) ∧
  (pc_currentInterval st = PingInterval c → pc_ticker st = PingInterval c) ∧ 0 <= pc_consecutiveFailures st.

Lemma tick_interval_ok c ping st : 0 < PingInterval c → interval_ok c st → interval_ok c (pcTick c ping st).1.
Proof.
  intros Hp (Hc & Ht & He & Hi & Hf). unfold pcTick, interval_ok. destruct (ping _ _) as [lat|].
  - pose proof (shrink_bounds c (pc_currentInterval st)). destruct (Z.ltb_spec (PingInterval c) (pc_currentInterval st)); simpl;
      split_and!; lia.
  - pose proof (grow_bounds (pc_currentInterval st)). cbn [fst pc_currentInterval pc_ticker pc_consecutiveFailures].
    destruct (Z.leb_spec failureThreshold (pc_consecutiveFailures st + 1)), (Z.ltb_spec (pc_currentInterval st) maxInterval); simpl;
      split_and!; lia.
Qed.

Lemma run_interval_ok c st outs : 0 < PingInterval c → interval_ok c st → interval_ok c (pcRun c st outs).1.
Proof.
  intros Hp. revert st. induction outs as [|o outs IH]; intros st Hok; [done|]. simpl.
  pose proof (tick_interval_ok c (λ _ _, o) st Hp Hok) as H. destruct (pcTick c _ st) as [st' e]. simpl in H.
  specialize (IH st' H). by destruct (pcRun c st' outs).
Qed.

Lemma init_interval_ok c : interval_ok c (pcInit c).
Proof. unfold interval_ok. simpl. split_and!; lia. Qed.

(** Successes bring the interval down to the configured one. *)
Lemma successes_settle c st lats :
  0 < PingInterval c → interval_ok c st → pc_currentInterval st - PingInterval c <= Z.of_nat (length lats) → lats ≠ [] →
  let st' := (pcRun c st (map Some lats)).1 in pc_currentInterval st' = PingInterval c ∧ pc_ticker st' = PingInterval c.
Proof.
  intros Hp. revert st. induction lats as [|l lats IH]; intros st Hok Hle Hne; [done|]. cbn zeta. simpl.
  pose proof (tick_interval_ok c (λ _ _, Some l) st Hp Hok) as Hok'.
  assert (pc_currentInterval (pcTick c (λ _ _, Some l) st).1 - PingInterval c <= Z.of_nat (length lats)) as Hle'.
  { destruct Hok as ([Hc _] & _). unfold pcTick. pose proof (shrink_bounds c (pc_currentInterval st)). simpl length in Hle.
    destruct (Z.ltb_spec (PingInterval c) (pc_currentInterval st)); simpl; lia. }
  destruct (pcTick c _ st) as [st1 e]. simpl in Hok', Hle'. destruct lats as [|l' lats].
  - simpl. destruct Hok' as ([Hc _] & _ & _ & Hi & _). simpl in Hle'. split; [lia|apply Hi; lia].
  - specialize (IH st1 Hok' Hle' ltac:(done)). by destruct (pcRun c st1 _).
Qed.

(** The period of the check.  The interval and the period the ticker runs
    with stay between the configured one and the larger of it and six
    seconds; a failure never changes the ticker's period, so the growing
    interval has no effect during the outage it is meant for; and enough
    successes in a row bring both back to the configured interval. *)
Theorem ping_period c outs :
  0 < PingInterval c →
  let st := (pcRun c (pcInit c) outs).1 in
  PingInterval c <= pc_currentInterval st <= Z.max (PingInterval c) maxInterval ∧
  PingInterval c <= pc_ticker st <= Z.max (PingInterval c) maxInterval ∧
  (∀ n, pc_ticker (pcRun c st (replicate n None)).1 = pc_ticker st) ∧
  (∀ lats, lats ≠ [] → maxInterval <= Z.of_nat (length lats) →
     let st' := (pcRun c st (map Some lats)).1 in
     pc_currentInterval st' = PingInterval c ∧ pc_ticker st' = PingInterval c).
Proof.
  intros Hp st. pose proof (run_interval_ok c _ outs Hp (init_interval_ok c)) as Hok. fold st in Hok.
  pose proof Hok as (Hc & Ht & _). split; [exact Hc|]. split; [exact Ht|]. split.
  - clearbody st. clear. intros n. revert st. induction n as [|n IH]; intros st; [done|]. simpl.
    specialize (IH (pcTick c (λ _ _, None) st).1). unfold pcTick in *. simpl in *.
    destruct (pcRun c _ (replicate n None)). exact IH.
  - intros lats Hne Hlen. apply successes_settle; [done..| |done]. lia.
Qed.

(** ** The background retry *)

Lemma retryDelay_bounds attempt delay :
  initialRetryDelay <= delay <= maxRetryDelay → delay <= retryDelayAfter attempt delay <= maxRetryDelay.
Proof.
  unfold retryDelayAfter, initialRetryDelay, maxRetryDelay, Second. intros H.
  destruct (_ && _); [|lia]. rewrite quot_scale by lia. pose proof (Z.div_le_lower_bound (delay * 3) 2 delay). lia.
Qed.

Lemma retryLoop_bounds attempt delay outs :
  initialRetryDelay <= delay <= maxRetryDelay →
  Forall (λ d, delay <= d <= maxRetryDelay) (retryLoop attempt delay outs).1 ∧
  ((retryLoop attempt delay outs).2 = true ↔ true ∈ outs).
Proof.
  revert attempt delay. induction outs as [|o outs IH]; intros attempt delay Hd; simpl.
  { split; [constructor|]. split; [done|]. by intros ?%not_elem_of_nil. }
  destruct o; simpl; [split; [constructor|split; [intros _; left|done]]|].
  pose proof (retryDelay_bounds attempt delay Hd) as Hb. destruct (IH (S attempt) (retryDelayAfter attempt delay) ltac:(lia)) as [H1 H2].
  destruct (retryLoop (S attempt) _ outs) as [ds ok]. simpl in *. split.
  - constructor; [done|]. eapply Forall_impl; [exact H1|]. simpl. intros; lia.
  - rewrite H2, elem_of_cons. naive_solver.
Qed.

(** Closing the tunnel does not stop the background ping.  While the first
    ping has not succeeded the retry goroutine runs; [closeWgTunnel] closes
    and clears the channel it would read and drops the netstack, so its next
    iteration pings through a nil netstack.  Only a [handleConnect] that
    closes the goroutine's own channel before that makes it return. *)
Theorem retry_outlives_tunnel w k ok :
  pw_retry w = Some k → k ∉ pw_closed w → pw_pingStopChan w ≠ Some k →
  retryIter ok (closeTunnelPing w) = Panic ∧
  retryIter ok (connectStops (closeTunnelPing w) (Some k)) = Ret (mkPW false None (pw_closed (closeTunnelPing w) ∪ {[k]}) None) ∧
  (pw_tnet w = true → isClosed w (pw_pingStopChan w) = false → retryIter false w = Ret w).
Proof.
  intros Hr Hk Hs. unfold retryIter, closeTunnelPing, connectStops, closePing, isClosed. simpl. rewrite Hr.
  assert (k ∉ match pw_pingStopChan w with Some k' => pw_closed w ∪ {[k']} | None => pw_closed w end) as Hn.
  { destruct (pw_pingStopChan w) as [j|]; [|done]. assert (j ≠ k) by congruence. set_solver. }
  rewrite (bool_decide_false _ Hn). simpl. split_and!; [done| |].
  - rewrite bool_decide_true by set_solver. done.
  - intros -> E. rewrite (bool_decide_false _ Hk), E. done.
Qed.

(** ** Examples *)

Module PingCheckExamples.

Definition cfg : pcConfig := mkPC (3 * Second) (2 * Second).

(** An outage with a three second interval: the ticker keeps its period while
    the server is away, and runs slower once it is back. *)
Example outage_example :
  let fails := replicate 8 None in
  pc_ticker (pcRun cfg (pcInit cfg) fails).1 = 3 * Second ∧
  pc_currentInterval (pcRun cfg (pcInit cfg) fails).1 = 6 * Second ∧
  pc_ticker (pcRun cfg (pcInit cfg) (fails ++ [Some 5])).1 = 5400 * Millisecond ∧
  (pcRun cfg (pcInit cfg) (fails ++ [Some 5])).2 =
    [PcNone; PcNone; PcNone; PcRecover; PcNone; PcNone; PcNone; PcNone; PcRestored].
Proof. vm_compute. auto. Qed.

(** A configured timeout above fifteen seconds holds for the first ping only. *)
Example timeout_capped :
  let c := mkPC (15 * Second) (20 * Second) in
  adaptiveTimeout c (pcInit c) = 20 * Second ∧ adaptiveTimeout c (pcTick c (λ _ _, Some 1) (pcInit c)).1 = 15 * Second.
Proof. vm_compute. auto. Qed.

(** Two attempts with the default timeout end before the next tick. *)
Example reliable_example :
  reliablePing (λ a _, if Nat.eqb a 2 then Some 7 else None) (λ _, 99) (7 * Second) 2 = Some 7 ∧
  worstFrom (λ _, 99) (7 * Second) 1 2 <= 15 * Second.
Proof. vm_compute. split; [reflexivity|discriminate]. Qed.

Lemma ping_period_witness :
  0 < PingInterval cfg ∧ PingInterval cfg <= pc_ticker (pcRun cfg (pcInit cfg) (replicate 8 None ++ [Some 5])).1.
Proof.
  assert (0 < PingInterval cfg) as H by (vm_compute; reflexivity). split; [exact H|].
  apply (ping_period cfg (replicate 8 None ++ [Some 5]) H).
Defined.

Definition retrying : pingWorld := mkPW true (Some 2%nat) ∅ (Some 1%nat).

Lemma retry_outlives_tunnel_witness :
  pw_retry retrying = Some 1%nat ∧ retryIter true (closeTunnelPing retrying) = Panic.
Proof.
  split; [reflexivity|]. apply (retry_outlives_tunnel retrying 1%nat true); [reflexivity| |discriminate].
  apply not_elem_of_empty.
Defined.

End PingCheckExamples.
