(* ===== verification/Sync.v ===== *)
(** * Synchronising the proxy targets with the server ([newt/data.go])

    A sync message carries the whole list of targets; [handleSync] compares it
    with the manager's and removes, replaces and adds what differs, through
    [updateTargets].  Go's map iteration order is the class [MapRange]. *)

From S2P Require Import Prelude Netip NetipText HostPort ProxyManager Targets Keys.
From Stdlib Require Import Ascii.

(** The set of desired targets, port to address; later entries win. *)
Definition desiredTargets (ts : list string) : gmap Z string :=
  foldl (λ m t,
    match splitOn c_colon (str t) with
    | [p; h; q] =>
        match sscanf_d p with
        | Some port => <[port := unstr h +:+ ":" +:+ unstr q]> m
        | None => m
        end
    | _ => m
    end) ∅ ts.

(** The text of a target that [updateTargets] is given. *)
Definition targetStr (port : Z) (target : string) : string := itoa port +:+ ":" +:+ target.

Definition protoTargets (pr : string) (p : ProxyManager) : targetMap :=
  if bool_decide (pr = "tcp") then tcpTargets p else udpTargets p.

Section sync.
Context `{MapRange} (script : option (string → string → string → option string)) (listenOK : listenFn) (ip pr : string).

Notation update := (updateTargets script listenOK).

(** Remove the targets that are not desired. *)
Definition removeStale (current desired : gmap Z string) (p : ProxyManager) : ProxyManager :=
  foldl (λ p e, if bool_decide (desired !! e.1 = None) then (update "remove" ip pr [targetStr e.1 e.2] p).1 else p)
    p (range_map current).

(** Add the missing ones; a changed one is removed first. *)
Definition addMissing (current desired : gmap Z string) (p : ProxyManager) : ProxyManager :=
  foldl (λ p e,
    let '(p', needsAdd) :=
      match current !! e.1 with
      | Some cur => if bool_decide (cur = e.2) then (p, false) else ((update "remove" ip pr [targetStr e.1 cur] p).1, true)
      | None => (p, true)
      end in
    if needsAdd : bool then (update "add" ip pr [targetStr e.1 e.2] p').1 else p')
    p (range_map desired).

(** One protocol's half of [handleSync]; [current] is the copy [GetTargets]
    made before anything changed. *)
Definition syncProto (current : targetMap) (desired : gmap Z string) (p : ProxyManager) : ProxyManager :=
  let cur := default ∅ (current !! ip) in
  addMissing cur desired (removeStale cur desired p).

End sync.

(** The target part of [handleSync]; [None]: no tunnel, the message is
    dropped. *)
Definition syncTargets `{MapRange} (script : option (string → string → string → option string)) (listenOK : listenFn)
    (tunnelIP : string) (tcp udp : list string) (p : ProxyManager) : option ProxyManager :=
  if bool_decide (tunnelIP = "") then None
  else
    let '(curT, curU) := pm_GetTargets p in
    Some (syncProto script listenOK tunnelIP "udp" curU (desiredTargets udp)
            (syncProto script listenOK tunnelIP "tcp" curT (desiredTargets tcp) p)).

(** ** Lemmas *)

(** A port and address that [updateTargets] reads back. *)
Definition canonical (port : Z) (target : string) : Prop := parseTargetString (targetStr port target) = Some (port, target).

Definition is_proto (pr : string) : Prop := pr = "tcp"%string ∨ pr = "udp"%string.
Definition other_proto (pr : string) : string := if bool_decide (pr = "tcp") then "udp" else "tcp".

Definition view (pr : string) (p : ProxyManager) (ip : string) (port : Z) : option string :=
  lookupTarget (protoTargets pr p) ip port.

Lemma proto_tcp p : protoTargets "tcp" p = tcpTargets p.
Proof. done. Qed.
Lemma proto_udp p : protoTargets "udp" p = udpTargets p.
Proof. done. Qed.

Lemma start_targets listenOK pr port target p pr' :
  protoTargets pr' (startTarget listenOK pr port target p).1 = protoTargets pr' p.
Proof. unfold startTarget. repeat (case_match; try done). Qed.

Lemma add_view listenOK pr ip port target p pr' ip' port' :
  is_proto pr → is_proto pr' →
  view pr' (pm_AddTarget listenOK pr ip port target p).1 ip' port' =
  if decide (pr' = pr ∧ ip' = ip ∧ port' = port) then Some target else view pr' p ip' port'.
Proof.
  intros Hp Hp'. unfold view, pm_AddTarget.
  assert (∀ p', protoTargets pr' (if running p' then startTarget listenOK pr port target p' else (p', PmOk)).1 = protoTargets pr' p') as Hs
    by (intros p'; destruct (running p'); [apply start_targets|done]).
  destruct Hp as [-> | ->].
  - rewrite (bool_decide_true (_ = _)) by done. rewrite Hs. destruct Hp' as [-> | ->]; unfold protoTargets.
    + rewrite (bool_decide_true (_ = _)) by done. simpl tcpTargets. rewrite lookup_addEntry. repeat case_decide; naive_solver.
    + rewrite (bool_decide_false (_ = _)) by done. simpl udpTargets. case_decide; naive_solver.
  - rewrite (bool_decide_false (_ = "tcp"%string)), (bool_decide_true (_ = _)) by done. rewrite Hs.
    destruct Hp' as [-> | ->]; unfold protoTargets.
    + rewrite (bool_decide_true (_ = _)) by done. simpl tcpTargets. case_decide; naive_solver.
    + rewrite (bool_decide_false (_ = _)) by done. simpl udpTargets. rewrite lookup_addEntry. repeat case_decide; naive_solver.
Qed.

Lemma remove_view pr ip port p pr' ip' port' :
  is_proto pr → is_proto pr' →
  view pr' (pm_RemoveTarget pr ip port p).1.1 ip' port' =
  if decide (pr' = pr ∧ ip' = ip ∧ port' = port) then None else view pr' p ip' port'.
Proof.
  intros Hp Hp'. unfold view, pm_RemoveTarget.
  assert (∀ m : targetMap, m !! ip = None → lookupTarget m ip port = None) as Hnone by (unfold lookupTarget; intros m ->; done).
  destruct Hp as [-> | ->].
  - rewrite (bool_decide_true (_ = _)) by done. destruct (tcpTargets p !! ip) as [ts|] eqn:E; [destruct (closeFirst port (listeners p))|];
      destruct Hp' as [-> | ->]; rewrite ?proto_tcp, ?proto_udp; simpl;
      try (rewrite (lookup_removeEntry _ _ _ ts) by done); repeat case_decide; naive_solver.
  - rewrite (bool_decide_false (_ = "tcp"%string)), (bool_decide_true (_ = _)) by done.
    destruct (udpTargets p !! ip) as [ts|] eqn:E; [destruct (closeFirst port (udpConns p))|];
      destruct Hp' as [-> | ->]; rewrite ?proto_tcp, ?proto_udp; simpl;
      try (rewrite (lookup_removeEntry _ _ _ ts) by done); repeat case_decide; naive_solver.
Qed.

Section sync_lemmas.
Context `{MapRange} (listenOK : listenFn) (ip pr : string) (Hpr : is_proto pr).

Notation update := (updateTargets None listenOK).

Lemma update_remove_view port t p pr' ip' port' :
  canonical port t → is_proto pr' →
  view pr' (update "remove" ip pr [targetStr port t] p).1 ip' port' =
  if decide (pr' = pr ∧ ip' = ip ∧ port' = port) then None else view pr' p ip' port'.
Proof.
  intros Hc Hp'. simpl. rewrite Hc. rewrite <- (remove_view pr ip port p pr' ip' port') by done.
  by destruct (pm_RemoveTarget pr ip port p) as [[p1 c] []].
Qed.

Lemma update_add_view port t p pr' ip' port' :
  canonical port t → is_proto pr' →
  view pr' (update "add" ip pr [targetStr port t] p).1 ip' port' =
  if decide (pr' = pr ∧ ip' = ip ∧ port' = port) then Some t else view pr' p ip' port'.
Proof.
  intros Hc Hp'. simpl. rewrite Hc. simpl.
  rewrite add_view, remove_view by done. repeat case_decide; naive_solver.
Qed.

Lemma removeStale_view (l : list (Z * string)) (desired : gmap Z string) p pr' ip' port' :
  Forall (λ e, canonical e.1 e.2) l → is_proto pr' →
  view pr' (foldl (λ p e, if bool_decide (desired !! e.1 = None) then (update "remove" ip pr [targetStr e.1 e.2] p).1 else p) p l) ip' port' =
  if decide (pr' = pr ∧ ip' = ip ∧ port' ∈ l.*1 ∧ desired !! port' = None) then None else view pr' p ip' port'.
Proof.
  intros Hl Hp'. revert p. induction Hl as [|[port t] l Hc _ IH]; intros p; cbn [foldl].
  { rewrite decide_False; [done|]. intros (_ & _ & ?%not_elem_of_nil & _). done. }
  rewrite IH. simpl in Hc. cbn [fst snd]. rewrite fmap_cons. cbn [fst].
  destruct (decide (desired !! port = None)) as [Hd|Hd].
  - rewrite (bool_decide_true _ Hd), update_remove_view by done. repeat case_decide; rewrite ?elem_of_cons in *; naive_solver.
  - rewrite (bool_decide_false _ Hd). repeat case_decide; rewrite ?elem_of_cons in *; naive_solver.
Qed.

(** One entry of [addMissing]. *)
Definition addEntryStep (current : gmap Z string) (p : ProxyManager) (e : Z * string) : ProxyManager :=
  let '(p', needsAdd) :=
    match current !! e.1 with
    | Some cur => if bool_decide (cur = e.2) then (p, false) else ((update "remove" ip pr [targetStr e.1 cur] p).1, true)
    | None => (p, true)
    end in
  if needsAdd : bool then (update "add" ip pr [targetStr e.1 e.2] p').1 else p'.

Lemma addEntryStep_view current p port t pr' ip' port' :
  (∀ q u, current !! q = Some u → canonical q u) → canonical port t → is_proto pr' →
  (current !! port = Some t → view pr p ip port = Some t) →
  view pr' (addEntryStep current p (port, t)) ip' port' =
  if decide (pr' = pr ∧ ip' = ip ∧ port' = port) then Some t else view pr' p ip' port'.
Proof.
  intros Hcur Hc Hp' Hv. unfold addEntryStep. cbn [fst snd]. destruct (current !! port) as [cur|] eqn:E.
  - destruct (decide (cur = t)) as [->|Hne].
    + rewrite bool_decide_true by done. case_decide as D; [|done]. destruct D as (-> & -> & ->). by apply Hv.
    + rewrite bool_decide_false by done. rewrite update_add_view, update_remove_view by eauto. repeat case_decide; naive_solver.
  - by apply update_add_view.
Qed.

Lemma addMissing_view current (l : list (Z * string)) p pr' ip' port' :
  (∀ q u, current !! q = Some u → canonical q u) → Forall (λ e, canonical e.1 e.2) l → NoDup l.*1 → is_proto pr' →
  (∀ q t, (q, t) ∈ l → current !! q = Some t → view pr p ip q = Some t) →
  view pr' (foldl (addEntryStep current) p l) ip' port' =
  match (list_to_map l : gmap Z string) !! port' with
  | Some t => if decide (pr' = pr ∧ ip' = ip) then Some t else view pr' p ip' port'
  | None => view pr' p ip' port'
  end.
Proof.
  intros Hcur Hl Hnd Hp'. revert p. induction Hl as [|[port t] l Hc _ IH]; intros p Hv; [done|].
  simpl in Hnd, Hc. apply NoDup_cons in Hnd as [Hn Hnd]. cbn [foldl].
  assert (∀ pr' ip' port', is_proto pr' → view pr' (addEntryStep current p (port, t)) ip' port' =
    if decide (pr' = pr ∧ ip' = ip ∧ port' = port) then Some t else view pr' p ip' port') as Hstep.
  { intros. apply addEntryStep_view; [done..|]. apply Hv. left. }
  rewrite IH; [|done|].
  - rewrite Hstep by done. cbn [list_to_map foldr uncurry fst snd]. destruct (decide (port' = port)) as [->|Hne].
    + rewrite lookup_insert_eq, (not_elem_of_list_to_map_1 l port) by done. repeat case_decide; naive_solver.
    + rewrite lookup_insert_ne by done. destruct (list_to_map l !! port'); repeat case_decide; naive_solver.
  - intros q u Hq Hcu. rewrite Hstep by done. clear IH.
    destruct (decide (pr = pr ∧ ip = ip ∧ q = port)) as [(_ & _ & ->)|]; [|apply Hv; [by right|done]].
    destruct Hn. apply list_elem_of_fmap. by exists (port, u).
Qed.

Lemma range_to_map (m : gmap Z string) : (list_to_map (range_map m) : gmap Z string) = m.
Proof.
  rewrite (list_to_map_proper (range_map m) (map_to_list m)); [apply list_to_map_to_list|apply range_map_NoDup|apply range_map_perm].
Qed.

Lemma range_forall (P : Z → string → Prop) (m : gmap Z string) :
  (∀ q t, m !! q = Some t → P q t) → Forall (λ e, P e.1 e.2) (range_map m).
Proof. intros Hm. apply Forall_forall. intros [q t] Hq%range_map_elem. by apply Hm. Qed.

(** One protocol, [current] being what the manager holds. *)
Lemma syncProto_view (current : targetMap) desired p pr' ip' port' :
  (∀ q t, default ∅ (current !! ip) !! q = Some t → canonical q t) → (∀ q t, desired !! q = Some t → canonical q t) →
  (∀ q, view pr p ip q = default ∅ (current !! ip) !! q) → is_proto pr' →
  view pr' (syncProto None listenOK ip pr current desired p) ip' port' =
  if decide (pr' = pr ∧ ip' = ip) then desired !! port' else view pr' p ip' port'.
Proof.
  intros Hcur Hdes Hv Hp'. unfold syncProto. set (cur := default ∅ (current !! ip)) in *.
  set (p1 := removeStale None listenOK ip pr cur desired p).
  assert (∀ pr' ip' port', is_proto pr' → view pr' p1 ip' port' =
    if decide (pr' = pr ∧ ip' = ip ∧ port' ∈ (range_map cur).*1 ∧ desired !! port' = None) then None else view pr' p ip' port') as H1.
  { intros. unfold p1, removeStale. apply removeStale_view; [by apply (range_forall canonical)|done]. }
  unfold addMissing. change (foldl _ p1 (range_map desired)) with (foldl (addEntryStep cur) p1 (range_map desired)).
  rewrite addMissing_view; [|done|by apply (range_forall canonical)|apply range_map_NoDup|done|].
  - rewrite range_to_map, H1 by done. destruct (desired !! port') as [t|] eqn:Ed.
    + repeat case_decide; naive_solver.
    + destruct (decide (pr' = pr ∧ ip' = ip)) as [[-> ->]|Hne]; [|rewrite decide_False by naive_solver; done].
      rewrite Hv. case_decide as D; [done|]. destruct (cur !! port') as [t|] eqn:Ec; [|done]. destruct D.
      split_and!; try done. apply list_elem_of_fmap. exists (port', t). split; [done|]. by apply range_map_elem.
  - intros q t Hq%range_map_elem Hc. rewrite H1 by done. rewrite decide_False by (intros (_ & _ & _ & ?); congruence).
    by rewrite Hv.
Qed.

(** Nothing to do, nothing done. *)
Lemma syncProto_idle (current : targetMap) desired p :
  default ∅ (current !! ip) = desired → syncProto None listenOK ip pr current desired p = p.
Proof.
  intros Hd. unfold syncProto. rewrite Hd. unfold addMissing, removeStale.
  assert (∀ l p, (∀ q t, (q, t) ∈ l → desired !! q = Some t) →
    foldl (λ p e, if bool_decide (desired !! e.1 = None) then (update "remove" ip pr [targetStr e.1 e.2] p).1 else p) p l = p) as H1.
  { induction l as [|[q t] l IH]; intros p0 Hl; [done|]. simpl. rewrite bool_decide_false by (rewrite (Hl q t); [done|left]).
    apply IH. intros q' t' Hq. apply Hl. by right. }
  rewrite H1 by (intros q t Hq; by apply range_map_elem).
  change (foldl (addEntryStep desired) p (range_map desired) = p).
  assert (∀ l p, (∀ q t, (q, t) ∈ l → desired !! q = Some t) → foldl (addEntryStep desired) p l = p) as H2.
  { induction l as [|[q t] l IH]; intros p0 Hl; [done|]. simpl. unfold addEntryStep at 2. simpl.
    rewrite (Hl q t) by left. rewrite bool_decide_true by done. apply IH. intros q' t' Hq. apply Hl. by right. }
  apply H2. intros q t Hq. by apply range_map_elem.
Qed.

End sync_lemmas.

Lemma view_current pr p ip q : is_proto pr → view pr p ip q = default ∅ (protoTargets pr p !! ip) !! q.
Proof. intros _. unfold view, lookupTarget. by destruct (protoTargets pr p !! ip). Qed.

Lemma syncTargets_spec `{MapRange} listenOK ip tcp udp p :
  ip ≠ "" →
  (∀ pr q t, is_proto pr → view pr p ip q = Some t → canonical q t) →
  (∀ q t, desiredTargets tcp !! q = Some t ∨ desiredTargets udp !! q = Some t → canonical q t) →
  ∃ p', syncTargets None listenOK ip tcp udp p = Some p' ∧
  (∀ q, view "tcp" p' ip q = desiredTargets tcp !! q) ∧ (∀ q, view "udp" p' ip q = desiredTargets udp !! q) ∧
  (∀ pr ip' q, is_proto pr → ip' ≠ ip → view pr p' ip' q = view pr p ip' q).
Proof.
  intros Hip Hcan Hdes. unfold syncTargets, pm_GetTargets. rewrite bool_decide_false by done. eexists. split; [done|].
  assert (is_proto "tcp" ∧ is_proto "udp") as [It Iu] by (split; [by left|by right]).
  set (p1 := syncProto None listenOK ip "tcp" (tcpTargets p) (desiredTargets tcp) p).
  assert (∀ pr' ip' port', is_proto pr' → view pr' p1 ip' port' =
    if decide (pr' = "tcp"%string ∧ ip' = ip) then desiredTargets tcp !! port' else view pr' p ip' port') as H1.
  { intros. apply syncProto_view; [done| |by eauto| |done].
    - intros q t Hq. apply (Hcan "tcp"%string); [done|]. by rewrite view_current, proto_tcp.
    - intros q. by rewrite view_current, proto_tcp. }
  assert (∀ pr' ip' port', is_proto pr' →
    view pr' (syncProto None listenOK ip "udp" (udpTargets p) (desiredTargets udp) p1) ip' port' =
    if decide (pr' = "udp"%string ∧ ip' = ip) then desiredTargets udp !! port' else view pr' p1 ip' port') as H2.
  { intros. apply syncProto_view; [done| |by eauto| |done].
    - intros q t Hq. apply (Hcan "udp"%string); [done|]. by rewrite view_current, proto_udp.
    - intros q. rewrite H1 by done. rewrite decide_False by naive_solver. by rewrite view_current, proto_udp. }
  split_and!.
  - intros q. rewrite H2, H1 by done. by rewrite decide_False, decide_True by naive_solver.
  - intros q. rewrite H2 by done. by rewrite decide_True by naive_solver.
  - intros pr ip' q Hp Hne. rewrite H2, H1 by done. by rewrite !decide_False by naive_solver.
Qed.

(** ** Properties *)

(** A sync makes the targets exactly the ones the server sent.  Without an
    updown script, and for targets written the way both sides write IPv4 and
    host name targets, after the sync every port of the tunnel address has
    the address the message asks for, in both protocols, ports it does not
    name have none, and other addresses are untouched, whatever the order Go
    iterates the maps in. *)
Theorem targets_sync_exact `{MapRange} listenOK ip tcp udp p :
  ip ≠ "" →
  (∀ pr q t, is_proto pr → view pr p ip q = Some t → canonical q t) →
  (∀ q t, desiredTargets tcp !! q = Some t ∨ desiredTargets udp !! q = Some t → canonical q t) →
  ∃ p', syncTargets None listenOK ip tcp udp p = Some p' ∧
  (∀ q, view "tcp" p' ip q = desiredTargets tcp !! q) ∧ (∀ q, view "udp" p' ip q = desiredTargets udp !! q) ∧
  (∀ pr ip' q, is_proto pr → ip' ≠ ip → view pr p' ip' q = view pr p ip' q).
Proof. apply syncTargets_spec. Qed.

(** A sync that changes nothing touches nothing.  When the manager already
    holds the targets of the message, no listener is closed or reopened and
    the state is the same, so repeated syncs keep connections alive; a sync
    without a tunnel is dropped. *)
Theorem targets_sync_idle `{MapRange} listenOK ip tcp udp p :
  (default ∅ (tcpTargets p !! ip) = desiredTargets tcp → default ∅ (udpTargets p !! ip) = desiredTargets udp → ip ≠ "" →
     syncTargets None listenOK ip tcp udp p = Some p) ∧
  syncTargets None listenOK "" tcp udp p = None.
Proof.
  split; [|done]. intros Ht Hu Hip. unfold syncTargets, pm_GetTargets. rewrite bool_decide_false by done. f_equal.
  rewrite (syncProto_idle listenOK ip "tcp") by done. by apply syncProto_idle.
Qed.

(** ** Examples *)

Module SyncExamples.

#[local] Existing Instance canonical_range.

Definition p0 : ProxyManager :=
  (updateTargets None (λ _ _, true) "add" "100.1.1.2" "tcp" ["80:10.0.0.1:8080"; "81:10.0.0.2:8081"] NewProxyManager).1.

Lemma targets_sync_exact_witness :
  ∃ p', syncTargets None (λ _ _, true) "100.1.1.2" ["80:10.0.0.9:8080"; "90:app:1"] ["53:dns:53"] p0 = Some p' ∧
  view "tcp" p' "100.1.1.2" 81 = None ∧ view "tcp" p' "100.1.1.2" 80 = Some "10.0.0.9:8080"%string.
Proof.
  destruct (targets_sync_exact (λ _ _, true) "100.1.1.2" ["80:10.0.0.9:8080"; "90:app:1"]%string ["53:dns:53"]%string p0)
    as (p' & Hp & Ht & _).
  - discriminate.
  - intros pr q t [-> | ->] Hv; [|discriminate Hv].
    assert (Forall (λ e, parseTargetString (targetStr e.1 e.2) = Some e) (map_to_list (default ∅ (tcpTargets p0 !! "100.1.1.2"%string)))) as Hall
      by (repeat (constructor; [vm_compute; reflexivity|]); constructor).
    rewrite view_current, proto_tcp in Hv by (left; reflexivity).
    apply (proj1 (Forall_forall _ _) Hall (q, t)). by apply elem_of_map_to_list.
  - assert (∀ l, Forall (λ e, parseTargetString (targetStr e.1 e.2) = Some e) (map_to_list (desiredTargets l)) →
      ∀ q t, desiredTargets l !! q = Some t → canonical q t) as Hl.
    { intros l Hall q t Hq. apply (proj1 (Forall_forall _ _) Hall (q, t)). by apply elem_of_map_to_list. }
    intros q t [Hq|Hq]; eapply (Hl _); [| exact Hq| |exact Hq];
      (repeat (constructor; [vm_compute; reflexivity|]); constructor).
  - exists p'. split; [exact Hp|]. rewrite !Ht. split; vm_compute; reflexivity.
Defined.

(** A target the server sends for an IPv6 host is accepted when it is added
    and removed by the next sync that still asks for it. *)
Example ipv6_removed :
  let t := ["443:[fd00::5]:8443"]%string in
  let p := (updateTargets None (λ _ _, true) "add" "100.1.1.2" "tcp" t NewProxyManager).1 in
  view "tcp" p "100.1.1.2" 443 = Some "[fd00::5]:8443"%string ∧
  (λ p', view "tcp" p' "100.1.1.2" 443) <$> syncTargets None (λ _ _, true) "100.1.1.2" t [] p = Some None.
Proof. vm_compute. auto. Qed.

(** With a script that rewrites addresses every sync closes and reopens the
    listener of an unchanged target. *)
Example script_churn :
  let script := Some (λ _ _ _ : string, Some "127.0.0.1:9"%string) in
  let t := ["80:10.0.0.1:8080"]%string in
  let p := (Start (λ _ _, true) (updateTargets script (λ _ _, true) "add" "100.1.1.2" "tcp" t NewProxyManager).1).1 in
  ml_id <$> listeners p = [0%nat] ∧
  (λ p', ml_id <$> listeners p') <$> syncTargets script (λ _ _, true) "100.1.1.2" t [] p = Some [1%nat].
Proof. vm_compute. auto. Qed.

End SyncExamples.
