(* ===== verification/Gateway.v ===== *)
(** * The browser gateway ([browsergateway/])

    The gateway serves RDP, SSH and VNC sessions to browsers over websockets.
    It keeps the list of destinations the server registered, each with its own
    token, and every handler consults it before it dials.  Modelled are that
    list, the handlers up to the dial, the choice of SSH credentials, and the
    framing of the two RDP handshakes ([detectRDCleanPathLength],
    [readCleanPath], [readX224]).  The websocket upgrade, the SSH library's
    parsers and the ASN.1 decoding are arguments; bytes are integers and Go's
    map iteration order is the class [MapRange]. *)

From S2P Require Import Prelude Netip NetipText HostPort.
From Stdlib Require Import Ascii.

(** ** The registered destinations *)

Record GwTarget : Type := mkGwTarget {
  gt_ID : Z; gt_Type : string; gt_Destination : string; gt_DestinationPort : Z; gt_AuthToken : string }.

#[global] Instance GwTarget_eq_dec : EqDecision GwTarget.
Proof. solve_decision. Defined.

Definition Gateway : Type := gmap Z GwTarget.

Definition NewGateway : Gateway := ∅.
Definition gw_AddTarget (t : GwTarget) (g : Gateway) : Gateway := <[gt_ID t := t]> g.
Definition gw_SetTargets (ts : list GwTarget) : Gateway := foldl (λ g t, gw_AddTarget t g) ∅ ts.
Definition gw_RemoveTarget (id : Z) (g : Gateway) : Gateway := delete id g.

Definition destMatches (ty host : string) (port : Z) (t : GwTarget) : bool :=
  bool_decide (gt_Type t = ty) && bool_decide (gt_Destination t = host) && (gt_DestinationPort t =? port).

(** The loop of [isAllowed]: the first destination found decides. *)
Fixpoint allowedIn (ty host : string) (port : Z) (token : string) (ts : list GwTarget) : bool :=
  match ts with
  | [] => false
  | t :: ts' => if destMatches ty host port t then bool_decide (token = gt_AuthToken t) else allowedIn ty host port token ts'
  end.

Section handlers.
Context `{MapRange} (g : Gateway).

Definition isAllowed (ty host : string) (port : Z) (token : string) : bool :=
  allowedIn ty host port token (range_map g).*2.

Definition isTokenValid (ty token : string) : bool :=
  existsb (λ t, bool_decide (gt_Type t = ty) && bool_decide (token = gt_AuthToken t)) (range_map g).*2.

(** ** The handlers *)

(** What a handler does with a request: answer with a status, drop the
    websocket, dial an address, or open a local session. *)
Inductive gwAction : Type :=
  | GwStatus (code : Z) | GwDrop | GwDial (addr : string) | GwProbe (addr : string) | GwNative (username : string).

(** The fields of the RDCleanPath request that are used. *)
Record rdpRequest : Type := mkRdp {
  rr_Destination : string; rr_ProxyAuth : string; rr_PreconnectionBlob : list Z; rr_X224 : list Z }.

Definition rdpTarget (dest : string) : string :=
  match SplitHostPort dest with Some _ => dest | None => JoinHostPort dest "3389" end.

(** [serveSession] up to the dial. *)
Definition serveSession (pdu : rdpRequest) : gwAction :=
  if bool_decide (rr_Destination pdu = "") then GwDrop
  else if bool_decide (rr_X224 pdu = []) then GwDrop
  else
    let target := rdpTarget (rr_Destination pdu) in
    let '(rdpHost, rdpPortStr) := default (""%string, ""%string) (SplitHostPort target) in
    if isAllowed "rdp" rdpHost (AtoiValue rdpPortStr) (rr_ProxyAuth pdu) then GwDial target else GwDrop.

(** What is written to the RDP server before its answer is read. *)
Definition rdpPreamble (pdu : rdpRequest) : list Z := rr_PreconnectionBlob pdu ++ rr_X224 pdu.

(** The query parameters; an absent one is empty. *)
Record gwQuery : Type := mkQuery {
  q_host : string; q_port : string; q_username : string; q_authToken : string; q_mode : string; q_checkOnly : string }.

Definition orDefault (s d : string) : string := if bool_decide (s = "") then d else s.

Definition handleVNC (q : gwQuery) (upgrades : bool) : gwAction :=
  if bool_decide (q_host q = "") then GwStatus 400
  else
    let port := orDefault (q_port q) "5900" in
    if negb (isAllowed "vnc" (q_host q) (AtoiValue port) (q_authToken q)) then GwStatus 403
    else
      let target := JoinHostPort (q_host q) port in
      if bool_decide (q_checkOnly q = "1"%string) then GwProbe target
      else if upgrades then GwDial target else GwDrop.

(** The credentials of the browser's first message, in order of preference. *)
Inductive authMethod : Type := KeyAuth (key : string) | CertAuth (key cert : string) | PasswordAuth (password : string).

Record sshAuthMsg : Type := mkSshAuth { sa_Password : string; sa_PrivateKey : string; sa_Certificate : string }.

(** The SSH library: whether a private key parses, what a public key parses
    to ([Some true]: a certificate), and whether the two fit. *)
Record sshParsers : Type := mkParsers {
  ParsePrivateKey : string → bool; ParseAuthorizedKey : string → option bool; NewCertSigner : string → string → bool }.

Definition keyMethods (lib : sshParsers) (m : sshAuthMsg) : option (list authMethod) :=
  if bool_decide (sa_PrivateKey m = "") then Some []
  else if negb (ParsePrivateKey lib (sa_PrivateKey m)) then None
  else if bool_decide (sa_Certificate m = "") then Some [KeyAuth (sa_PrivateKey m)]
  else match ParseAuthorizedKey lib (sa_Certificate m) with
       | Some true => if NewCertSigner lib (sa_Certificate m) (sa_PrivateKey m)
                      then Some [CertAuth (sa_PrivateKey m) (sa_Certificate m)] else None
       | _ => None
       end.

(** [None]: an error is sent and the session ends without a dial. *)
Definition authMethods (lib : sshParsers) (m : sshAuthMsg) : option (list authMethod) :=
  ms ← keyMethods lib m;
  let ms := if bool_decide (sa_Password m = "") then ms else ms ++ [PasswordAuth (sa_Password m)] in
  if bool_decide (ms = []) then None else Some ms.

(** [HandleSSH]; [auth] is the first message, [None] when it cannot be read,
    does not decode or is not an authentication. *)
Definition HandleSSH (lib : sshParsers) (q : gwQuery) (upgrades : bool) (auth : option sshAuthMsg) : gwAction :=
  if bool_decide (q_mode q = "proxy"%string) then
    if bool_decide (q_host q = "") || bool_decide (q_username q = "") then GwStatus 400
    else
      let port := orDefault (q_port q) "22" in
      if negb (isAllowed "ssh" (q_host q) (AtoiValue port) (q_authToken q)) then GwStatus 403
      else if negb upgrades then GwDrop
      else match auth ≫= authMethods lib with
           | Some _ => GwDial (JoinHostPort (q_host q) port)
           | None => GwDrop
           end
  else if negb (isTokenValid "ssh" (q_authToken q)) then GwStatus 401
  else if bool_decide (q_username q = "") then GwStatus 400
  else if upgrades then GwNative (q_username q) else GwDrop.

End handlers.

(** ** Framing *)

(** The bytes of the long form of a DER length. *)
Definition beValue (bs : list Z) : Z := foldl (λ total b, Z.lor (Z.shiftl total 8) b) 0 bs.

(** [-1]: more bytes are needed; [-2]: not an RDCleanPath PDU. *)
Definition detectRDCleanPathLength (buf : list Z) : Z :=
  match buf with
  | b0 :: l :: rest =>
      if negb (b0 =? 48) then -2
      else if l <? 128 then 2 + l
      else
        let n := Z.land l 127 in
        if (n =? 0) || (4 <? n) then -2
        else if Z.of_nat (length rest) <? n then -1
        else 2 + n + beValue (take (Z.to_nat n) rest)
  | _ => -1
  end.

Inductive cpResult : Type := CpPdu (pdu : list Z) | CpInvalid | CpReadError | CpWaiting.

(** [readCleanPath] on what the reads return, each with whether it also
    reports an error; [CpWaiting] when they run out. *)
Fixpoint readFrom (buf : list Z) (reads : list (list Z * bool)) : cpResult :=
  let total := detectRDCleanPathLength buf in
  if total =? -2 then CpInvalid
  else if (0 <? total) && (total <=? Z.of_nat (length buf)) then CpPdu (take (Z.to_nat total) buf)
  else match reads with
       | [] => CpWaiting
       | (data, err) :: reads' => if err : bool then CpReadError else readFrom (buf ++ data) reads'
       end.

Definition readCleanPath (reads : list (list Z * bool)) : cpResult := readFrom [] reads.

(** [readX224]: the PDU and the rest of the stream; [None] on an error, also
    when the stream ends early. *)
Definition readX224 (s : list Z) : option (list Z * list Z) :=
  match s with
  | h0 :: _ :: h2 :: h3 :: _ =>
      if negb (h0 =? 3) then None
      else
        let total := Z.lor (Z.shiftl h2 8) h3 in
        if (total <? 4) || (4096 <? total) then None
        else if Z.of_nat (length s) <? total then None
        else Some (take (Z.to_nat total) s, drop (Z.to_nat total) s)
  | _ => None
  end.

(** ** Lemmas: destinations *)

Definition registered (g : Gateway) (t : GwTarget) : Prop := ∃ id, g !! id = Some t.

Lemma elem_of_targets `{MapRange} g t : t ∈ (range_map g).*2 ↔ registered g t.
Proof.
  rewrite list_elem_of_fmap. split.
  - intros ([k t'] & -> & Hin%range_map_elem). by exists k.
  - intros [k Hk]. exists (k, t). split; [done|]. by apply range_map_elem.
Qed.

Lemma destMatches_true ty host port t :
  destMatches ty host port t = true ↔ gt_Type t = ty ∧ gt_Destination t = host ∧ gt_DestinationPort t = port.
Proof. unfold destMatches. rewrite !andb_true_iff, !bool_decide_eq_true, Z.eqb_eq. tauto. Qed.

Lemma allowedIn_sound ty host port token ts :
  allowedIn ty host port token ts = true → ∃ t, t ∈ ts ∧ destMatches ty host port t = true ∧ token = gt_AuthToken t.
Proof.
  induction ts as [|t ts IH]; [done|]. simpl. destruct (destMatches ty host port t) eqn:E.
  - intros Ht%bool_decide_eq_true. exists t. split_and!; [left|done|done].
  - intros (t' & Hin & ?)%IH. exists t'. split; [by right|done].
Qed.

Lemma allowedIn_complete ty host port token ts t :
  t ∈ ts → destMatches ty host port t = true → token = gt_AuthToken t →
  (∀ t', t' ∈ ts → destMatches ty host port t' = true → gt_AuthToken t' = gt_AuthToken t) →
  allowedIn ty host port token ts = true.
Proof.
  intros Hin Hm -> Huniq. induction ts as [|t' ts IH]; [by apply not_elem_of_nil in Hin|]. simpl.
  destruct (destMatches ty host port t') eqn:E.
  - apply bool_decide_eq_true. symmetry. apply Huniq; [left|done].
  - apply elem_of_cons in Hin as [->|Hin]; [congruence|]. apply IH; [done|]. intros x Hx. apply Huniq. by right.
Qed.

(** A destination that is registered with a token. *)
Definition admits (g : Gateway) (ty host : string) (port : Z) (token : string) : Prop :=
  ∃ t, registered g t ∧ gt_Type t = ty ∧ gt_Destination t = host ∧ gt_DestinationPort t = port ∧ gt_AuthToken t = token.

Lemma isAllowed_sound `{MapRange} g ty host port token : isAllowed g ty host port token = true → admits g ty host port token.
Proof.
  intros (t & Ht%elem_of_targets & (?&?&?)%destMatches_true & ->)%allowedIn_sound. by exists t.
Qed.

(** No destination is registered under two tokens. *)
Definition one_token (g : Gateway) : Prop :=
  ∀ t1 t2, registered g t1 → registered g t2 → gt_Type t1 = gt_Type t2 → gt_Destination t1 = gt_Destination t2 →
    gt_DestinationPort t1 = gt_DestinationPort t2 → gt_AuthToken t1 = gt_AuthToken t2.

Lemma isAllowed_complete `{MapRange} g ty host port token :
  one_token g → admits g ty host port token → isAllowed g ty host port token = true.
Proof.
  intros Hone (t & Hreg & <- & <- & <- & <-). eapply allowedIn_complete; [by apply elem_of_targets| |done|].
  - by apply destMatches_true.
  - intros t' Ht'%elem_of_targets (?&?&?)%destMatches_true. by apply Hone.
Qed.

(** ** Lemmas: framing *)

Lemma detect_app buf x : detectRDCleanPathLength buf ≠ -1 → detectRDCleanPathLength (buf ++ x) = detectRDCleanPathLength buf.
Proof.
  destruct buf as [|b0 [|l rest]]; [done..|]. simpl. destruct (negb _); [done|]. destruct (l <? 128); [done|].
  destruct (_ || _) eqn:En; [done|]. destruct (Z.ltb_spec (Z.of_nat (length rest)) (Z.land l 127)) as [?|Hlen]; [done|]. intros _.
  apply orb_false_iff in En as [Hn _]. rewrite length_app. destruct (Z.ltb_spec (Z.of_nat (length rest + length x)) (Z.land l 127)); [lia|].
  rewrite take_app_le; [done|]. pose proof (Z.land_nonneg l 127) as [_ Hl]. lia.
Qed.

(** A buffer that is one whole PDU. *)
Definition framed (p : list Z) : Prop := detectRDCleanPathLength p = Z.of_nat (length p).

Lemma framed_nonempty p : framed p → 0 < Z.of_nat (length p).
Proof. unfold framed. destruct p; [done|]. simpl length. lia. Qed.

(** Of the beginning of a PDU the code says that it is incomplete, or its
    right length. *)
Lemma detect_prefix buf x p :
  framed p → buf ++ x = p →
  detectRDCleanPathLength buf = -1 ∨ detectRDCleanPathLength buf = Z.of_nat (length p).
Proof.
  intros Hp <-. destruct (decide (detectRDCleanPathLength buf = -1)) as [?|Hne]; [by left|right].
  rewrite <- Hp. symmetry. by apply detect_app.
Qed.

Lemma readFrom_ok p rest buf reads :
  framed p → Forall (λ r, r.2 = false) reads → buf ++ concat reads.*1 = p ++ rest → (buf `prefix_of` p ∨ p `prefix_of` buf) →
  readFrom buf reads = CpPdu p.
Proof.
  intros Hp. pose proof (framed_nonempty p Hp) as Hpos. revert buf. induction reads as [|[data err] reads IH]; intros buf Hreads Heq Hpre.
  - simpl in Heq. rewrite app_nil_r in Heq. subst buf. simpl. rewrite (detect_app p rest) by (rewrite Hp; lia).
    rewrite Hp. destruct (Z.eqb_spec (Z.of_nat (length p)) (-2)); [lia|]. rewrite length_app.
    destruct (Z.ltb_spec 0 (Z.of_nat (length p))); [|lia]. destruct (Z.leb_spec (Z.of_nat (length p)) (Z.of_nat (length p + length rest))); [|lia].
    simpl. by rewrite Nat2Z.id, take_app_length.
  - apply Forall_cons in Hreads as [He Hreads]. simpl in He. subst err. cbn [readFrom]. cbn [fmap list_fmap fst] in Heq.
    destruct (decide (length p <= length buf)%nat) as [Hle|Hlt].
    + assert (∃ k, buf = p ++ k) as [k ->].
      { destruct Hpre as [[k Hk]|[k Hk]]; [|by exists k]. exists []. rewrite app_nil_r. subst p. rewrite length_app in Hle.
        destruct k; [by rewrite app_nil_r|simpl in Hle; lia]. }
      rewrite (detect_app p k), Hp by (rewrite Hp; lia). destruct (Z.eqb_spec (Z.of_nat (length p)) (-2)); [lia|]. rewrite length_app.
      destruct (Z.ltb_spec 0 (Z.of_nat (length p))); [|lia].
      destruct (Z.leb_spec (Z.of_nat (length p)) (Z.of_nat (length p + length k))); [|lia]. simpl. by rewrite Nat2Z.id, take_app_length.
    + assert (∃ x, p = buf ++ x) as [x Hx] by (destruct Hpre as [[x ->]|[x ->]]; [by exists x|rewrite length_app in Hlt; lia]).
      assert (detectRDCleanPathLength buf = -1 ∨ detectRDCleanPathLength buf = Z.of_nat (length p)) as Hd by (by eapply detect_prefix).
      destruct (Z.eqb_spec (detectRDCleanPathLength buf) (-2)); [lia|].
      destruct ((0 <? _) && _) eqn:E; [apply andb_true_iff in E as [?%Z.ltb_lt ?%Z.leb_le]; lia|].
      apply IH; [done| |].
      * rewrite <- app_assoc. exact Heq.
      * rewrite Hx in Heq. rewrite <- app_assoc in Heq. apply app_inv_head in Heq. cbn [concat] in Heq. rewrite Hx.
        destruct (decide (length data <= length x)%nat).
        -- left. apply prefix_app. assert (x = take (length x) (data ++ concat reads.*1)) as -> by (rewrite Heq; by rewrite take_app_length).
           rewrite take_app_ge by done. by eexists.
        -- right. apply prefix_app. assert (data = take (length data) (x ++ rest)) as -> by (rewrite <- Heq; by rewrite take_app_length).
           rewrite take_app_ge by lia. by eexists.
Qed.

(** ** Properties *)

(** C32: the gateway dials only what the server registered.  When the RDP, SSH
    or VNC handler dials or probes an address, a registered destination of
    that kind has that host, the port the request's number is read as, and
    the token the request brought; a local SSH session needs the token of a
    registered SSH destination.  When no destination is registered under two
    tokens the check is exact. *)
Theorem gateway_admission `{MapRange} g :
  (∀ pdu addr, serveSession g pdu = GwDial addr →
     ∃ h p, default (""%string, ""%string) (SplitHostPort addr) = (h, p) ∧ admits g "rdp" h (AtoiValue p) (rr_ProxyAuth pdu)) ∧
  (∀ q up addr, handleVNC g q up = GwDial addr ∨ handleVNC g q up = GwProbe addr →
     ∃ p, addr = JoinHostPort (q_host q) p ∧ admits g "vnc" (q_host q) (AtoiValue p) (q_authToken q)) ∧
  (∀ lib q up auth addr, HandleSSH g lib q up auth = GwDial addr →
     ∃ p, addr = JoinHostPort (q_host q) p ∧ admits g "ssh" (q_host q) (AtoiValue p) (q_authToken q)) ∧
  (∀ lib q up auth user, HandleSSH g lib q up auth = GwNative user →
     ∃ t, registered g t ∧ gt_Type t = "ssh"%string ∧ gt_AuthToken t = q_authToken q) ∧
  (one_token g → ∀ ty host port token, isAllowed g ty host port token = true ↔ admits g ty host port token).
Proof.
  split_and!.
  - intros pdu addr. unfold serveSession. destruct (bool_decide _); [done|]. destruct (bool_decide _); [done|].
    destruct (default _ _) as [h p] eqn:E. destruct (isAllowed _ _ _ _ _) eqn:Ea; [|done]. intros [= <-].
    exists h, p. split; [done|]. by apply isAllowed_sound.
  - intros q up addr. unfold handleVNC. destruct (bool_decide _); [naive_solver|].
    destruct (isAllowed _ _ _ _ _) eqn:Ea; cbn [negb]; [|naive_solver]. intros Hd. exists (orDefault (q_port q) "5900").
    split; [|by apply isAllowed_sound]. destruct (bool_decide _), up; naive_solver.
  - intros lib q up auth addr. unfold HandleSSH. destruct (bool_decide (q_mode q = _)).
    + destruct (_ || _); [done|]. destruct (isAllowed _ _ _ _ _) eqn:Ea; cbn [negb]; [|done]. destruct up; cbn [negb]; [|done].
      destruct (auth ≫= _); [|done]. intros [= <-]. eexists. split; [done|]. by apply isAllowed_sound.
    + destruct (negb _); [done|]. destruct (bool_decide _); [done|]. by destruct up.
  - intros lib q up auth user. unfold HandleSSH. destruct (bool_decide (q_mode q = _)).
    + destruct (_ || _); [done|]. destruct (negb (isAllowed _ _ _ _ _)); [done|]. destruct up; [|done]. simpl. by destruct (auth ≫= _).
    + destruct (isTokenValid _ _ _) eqn:Ev; cbn [negb]; [|done]. intros _. unfold isTokenValid in Ev.
      apply existsb_exists in Ev as (t & Hin%list_elem_of_In%elem_of_targets & [H1%bool_decide_eq_true H2%bool_decide_eq_true]%andb_true_iff).
      by exists t.
  - intros Hone ty host port token. split; [apply isAllowed_sound|by apply isAllowed_complete].
Qed.

(** The RDP handshake does not depend on how the stream is cut.  However
    the bytes of the browser arrive, once they contain a whole RDCleanPath PDU
    it is the PDU that is decoded, nothing more and nothing less; and of the
    server's answer exactly one TPKT frame is taken, of at most 4096 bytes,
    the rest staying in the stream. *)
Theorem rdp_framing :
  (∀ p rest reads, framed p → Forall (λ r, r.2 = false) reads → concat reads.*1 = p ++ rest →
     readCleanPath reads = CpPdu p) ∧
  (∀ s pdu rest, readX224 s = Some (pdu, rest) →
     s = pdu ++ rest ∧ 4 <= Z.of_nat (length pdu) <= 4096 ∧ readX224 pdu = Some (pdu, [])).
Proof.
  split.
  - intros p rest reads Hp Hreads Heq. unfold readCleanPath. eapply readFrom_ok; [done..|]. left. apply prefix_nil.
  - intros s pdu rest. unfold readX224 at 1. destruct s as [|h0 [|h1 [|h2 [|h3 s]]]]; try done.
    destruct (negb (h0 =? 3)) eqn:E0; [done|]. set (total := Z.lor (Z.shiftl h2 8) h3).
    destruct (_ || _) eqn:Et; [done|]. apply orb_false_iff in Et as [E1%Z.ltb_ge E2%Z.ltb_ge].
    destruct (Z.ltb_spec (Z.of_nat (length (h0 :: h1 :: h2 :: h3 :: s))) total) as [|Hlen]; [done|]. intros [= <- <-].
    set (l := h0 :: h1 :: h2 :: h3 :: s) in *. assert (length (take (Z.to_nat total) l) = Z.to_nat total) as El by (rewrite length_take; lia).
    split; [by rewrite take_drop|]. split; [lia|].
    destruct (Z.to_nat total) as [|[|[|[|k]]]] eqn:Ek; try lia. unfold l, readX224. cbn [take]. rewrite E0. fold total.
    destruct (Z.ltb_spec total 4); [lia|]. destruct (Z.ltb_spec 4096 total); [lia|]. cbn [orb].
    change (h0 :: h1 :: h2 :: h3 :: take k s) with (take (S (S (S (S k)))) l). rewrite El.
    destruct (Z.ltb_spec (Z.of_nat (S (S (S (S k))))) total); [lia|]. rewrite Ek, take_take, Nat.min_id.
    f_equal. f_equal. apply drop_ge. lia.
Qed.

(** ** Examples *)

Module GatewayExamples.

(** The same map, walked backwards. *)
Definition reverse_range : MapRange.
Proof. refine {| range_map := λ K _ _ V m, rev (map_to_list m) |}. intros. symmetry. apply Permutation_rev. Defined.

Definition rdp (id : Z) (token : string) : GwTarget := mkGwTarget id "rdp" "10.0.0.5" 3389 token.

(** When one destination is registered under two tokens, which of them is
    accepted depends on the order Go happens to walk the map in. *)
Example two_tokens :
  let g := gw_SetTargets [rdp 1 "a"; rdp 2 "b"] in
  @isAllowed canonical_range g "rdp" "10.0.0.5" 3389 "a" ≠ @isAllowed reverse_range g "rdp" "10.0.0.5" 3389 "a".
Proof. vm_compute. discriminate. Qed.

(** An IPv6 destination in brackets without a port is taken apart to nothing. *)
Example bracketed_ipv6 : rdpTarget "[fd00::1]" = "[[fd00::1]]:3389"%string ∧ SplitHostPort (rdpTarget "[fd00::1]") = None.
Proof. vm_compute. auto. Qed.

(** A port that is no number is read as zero. *)
Example port_zero :
  let g := gw_SetTargets [mkGwTarget 1 "vnc" "h" 0 "t"] in
  @handleVNC canonical_range g (mkQuery "h" "http" "" "t" "" "") true = GwDial "h:http".
Proof. vm_compute. reflexivity. Qed.

Example frames :
  detectRDCleanPathLength [48; 3; 1; 2; 3] = 5 ∧ detectRDCleanPathLength [48; 130; 1; 0] = 260 ∧
  detectRDCleanPathLength [48; 130; 1] = -1 ∧ detectRDCleanPathLength [49; 3] = -2 ∧ detectRDCleanPathLength [48; 128] = -2 ∧
  readCleanPath [([48], false); ([3; 1; 2], false); ([3; 9; 9], false)] = CpPdu [48; 3; 1; 2; 3] ∧
  readX224 [3; 0; 0; 6; 7; 8; 9] = Some ([3; 0; 0; 6; 7; 8], [9]).
Proof. vm_compute. auto 10. Qed.

End GatewayExamples.
