(* ===== verification/Newt.v ===== *)
(** * The site connector's core ([newt/handlers.go], [newt/connect.go],
      [newt/data.go], [newt/tunnel.go], [newt/clients.go], [newt/newt.go])

    [Newt] holds the components together and the server's messages drive it:
    which tunnel is up, which request is being repeated, which answers are
    still expected (the chain ids), the subnets of remote exit nodes with the
    WireGuard peer's allowed addresses and the routes that follow them, and
    the parts that live with the tunnel or beside it: the proxy manager, the
    health monitor, the browser gateway and the client WireGuard service.
    Each handler is one function on the state; the random chain id it
    generates and what the network and the operating system answer are
    arguments.

    The proxy manager, the monitor and the gateway are those of
    [ProxyManager.v], [HealthCheck.v] and [Gateway.v]; the client service is
    seen through the calls made on it, in order (its own operations are in
    [Clients.v], [HolePunch.v] and [SharedBind.v]), and the goroutines that
    ping are in [PingCheck.v].  The WireGuard device is seen through its
    configuration protocol: [allowed_ip] lines add to the peer's list,
    [replace_allowed_ips] empties it first, and the lines up to the first one
    that is not accepted take effect. *)

From S2P Require Import Prelude Netip NetipText HostPort Keys Util ProxyManager Targets Sync Gateway Clients HealthCheck WsConfig.
From Stdlib Require Import Ascii.

(** ** State *)

(** [WgData], the fields the handlers use. *)
Record WgData : Type := mkWg {
  wg_Endpoint : string; wg_RelayPort : Z; wg_PublicKey : string; wg_ServerIP : string; wg_TunnelIP : string;
  wg_TCP : list string; wg_UDP : list string; wg_HealthCheckTargets : list HealthCheck.Config;
  wg_BrowserGatewayTargets : list GwTarget; wg_RemoteExitNodeSubnets : list string }.

Definition noWgData : WgData := mkWg "" 0 "" "" "" [] [] [] [] [].

(** A message as it decodes: an absent field leaves the old value. *)
Record WgMessage : Type := mkWgMsg {
  wm_Endpoint : option string; wm_RelayPort : option Z; wm_PublicKey : option string; wm_ServerIP : option string;
  wm_TunnelIP : option string; wm_TCP : option (list string); wm_UDP : option (list string);
  wm_HealthCheckTargets : option (list HealthCheck.Config); wm_BrowserGatewayTargets : option (list GwTarget);
  wm_RemoteExitNodeSubnets : option (list string) }.

Definition unmarshalWg (m : WgMessage) (d : WgData) : WgData :=
  mkWg (default (wg_Endpoint d) (wm_Endpoint m)) (default (wg_RelayPort d) (wm_RelayPort m))
       (default (wg_PublicKey d) (wm_PublicKey m)) (default (wg_ServerIP d) (wm_ServerIP m))
       (default (wg_TunnelIP d) (wm_TunnelIP m)) (default (wg_TCP d) (wm_TCP m)) (default (wg_UDP d) (wm_UDP m))
       (default (wg_HealthCheckTargets d) (wm_HealthCheckTargets m))
       (default (wg_BrowserGatewayTargets d) (wm_BrowserGatewayTargets m))
       (default (wg_RemoteExitNodeSubnets d) (wm_RemoteExitNodeSubnets m)).

Record SyncData : Type := mkSyncData {
  sd_TCP : list string; sd_UDP : list string; sd_HealthCheckTargets : list HealthCheck.Config;
  sd_RemoteExitNodeSubnets : list string; sd_Peers : list Peer; sd_ClientTargets : list Clients.Target;
  sd_Certs : list CertData; sd_BrowserGatewayTargets : list GwTarget }.

Record wgDevice : Type := mkDev { dv_id : nat; dv_allowed : list string }.

(** A repeated request ([SendMessageInterval]). *)
Record request : Type := mkRequest { rq_topic : string; rq_chain : string }.

(** The calls on the client WireGuard service. *)
Inductive svcCall : Type :=
  | SvcSetOthertnet (tnet : bool)
  | SvcStartHolepunch (publicKey endpoint : string) (relayPort : Z)
  | SvcStartDirectUDPRelay (tunnelIP : string)
  | SvcLoadRemoteConfig
  | SvcSetBlocked (v : bool)
  | SvcSetCerts (cs : list CertData)
  | SvcSync (peers : list Peer) (ts : list Clients.Target)
  | SvcClose.

(** The components. *)
Record parts : Type := mkParts {
  p_pinging : bool;                 (* pingStopChan is not nil *)
  p_pm : option ProxyManager;       (* pm and currentPM *)
  p_leaked : list mlistener;        (* open listeners of managers that were dropped *)
  p_health : Monitor;
  p_hcEvents : list hcEvent;        (* what the monitor set off *)
  p_gateway : option Gateway;       (* browserGateway with its listener *)
  p_service : bool;                 (* wgService is not nil *)
  p_ready : bool;
  p_calls : list svcCall }.

Definition set_pinging (b : bool) (p : parts) : parts :=
  mkParts b (p_pm p) (p_leaked p) (p_health p) (p_hcEvents p) (p_gateway p) (p_service p) (p_ready p) (p_calls p).
Definition set_pm (pm : option ProxyManager) (leaked : list mlistener) (p : parts) : parts :=
  mkParts (p_pinging p) pm leaked (p_health p) (p_hcEvents p) (p_gateway p) (p_service p) (p_ready p) (p_calls p).
Definition set_gateway (g : option Gateway) (p : parts) : parts :=
  mkParts (p_pinging p) (p_pm p) (p_leaked p) (p_health p) (p_hcEvents p) g (p_service p) (p_ready p) (p_calls p).
Definition onHealth (op : Monitor → Monitor * list hcEvent) (p : parts) : parts :=
  let '(m, evs) := op (p_health p) in
  mkParts (p_pinging p) (p_pm p) (p_leaked p) m (p_hcEvents p ++ evs) (p_gateway p) (p_service p) (p_ready p) (p_calls p).
Definition set_service (b : bool) (cs : list svcCall) (p : parts) : parts :=
  mkParts (p_pinging p) (p_pm p) (p_leaked p) (p_health p) (p_hcEvents p) (p_gateway p) b (p_ready p) cs.

(** [if n.wgService != nil { n.wgService.F(...) }] *)
Definition svc (c : svcCall) (p : parts) : parts :=
  if p_service p then set_service true (p_calls p ++ [c]) p else p.

Record Newt : Type := mkNewt {
  n_connected : bool;
  n_stopFunc : option nat;              (* the request it stops *)
  n_requests : gmap nat request;        (* every request started *)
  n_stopped : gset nat;                 (* those whose channel is closed *)
  n_pendingRegister : string;
  n_pendingPing : string;
  n_wgData : WgData;
  n_parts : parts;
  n_dev : option wgDevice;
  n_tnet : bool;
  n_active : list string;               (* activeRemoteSubnets *)
  n_routes : gset string;               (* routes through the native interface *)
  n_open : gset nat;                    (* devices created and not closed *)
  n_next : nat;
  n_blocked : bool;                     (* connectionBlocked *)
}.

Definition set_request (stop : option nat) (rs : gmap nat request) (st : gset nat) (nx : nat) (n : Newt) : Newt :=
  mkNewt (n_connected n) stop rs st (n_pendingRegister n) (n_pendingPing n) (n_wgData n) (n_parts n) (n_dev n) (n_tnet n)
    (n_active n) (n_routes n) (n_open n) nx (n_blocked n).
Definition set_pending (reg ping : string) (n : Newt) : Newt :=
  mkNewt (n_connected n) (n_stopFunc n) (n_requests n) (n_stopped n) reg ping (n_wgData n) (n_parts n) (n_dev n) (n_tnet n)
    (n_active n) (n_routes n) (n_open n) (n_next n) (n_blocked n).
Definition set_connected (b : bool) (n : Newt) : Newt :=
  mkNewt b (n_stopFunc n) (n_requests n) (n_stopped n) (n_pendingRegister n) (n_pendingPing n) (n_wgData n) (n_parts n) (n_dev n)
    (n_tnet n) (n_active n) (n_routes n) (n_open n) (n_next n) (n_blocked n).
Definition set_wgData (d : WgData) (n : Newt) : Newt :=
  mkNewt (n_connected n) (n_stopFunc n) (n_requests n) (n_stopped n) (n_pendingRegister n) (n_pendingPing n) d (n_parts n) (n_dev n)
    (n_tnet n) (n_active n) (n_routes n) (n_open n) (n_next n) (n_blocked n).
Definition on_parts (f : parts → parts) (n : Newt) : Newt :=
  mkNewt (n_connected n) (n_stopFunc n) (n_requests n) (n_stopped n) (n_pendingRegister n) (n_pendingPing n) (n_wgData n)
    (f (n_parts n)) (n_dev n) (n_tnet n) (n_active n) (n_routes n) (n_open n) (n_next n) (n_blocked n).
Definition set_tunnel (dev : option wgDevice) (tnet : bool) (active : list string) (routes : gset string)
    (opn : gset nat) (nx : nat) (n : Newt) : Newt :=
  mkNewt (n_connected n) (n_stopFunc n) (n_requests n) (n_stopped n) (n_pendingRegister n) (n_pendingPing n) (n_wgData n)
    (n_parts n) dev tnet active routes opn nx (n_blocked n).
Definition set_nblocked (b : bool) (n : Newt) : Newt :=
  mkNewt (n_connected n) (n_stopFunc n) (n_requests n) (n_stopped n) (n_pendingRegister n) (n_pendingPing n) (n_wgData n)
    (n_parts n) (n_dev n) (n_tnet n) (n_active n) (n_routes n) (n_open n) (n_next n) b.

(** After [Init] and [Start], before the first connection; [clients]: client
    tunnels are not disabled. *)
Definition started (clients enforceCert : bool) : Newt :=
  mkNewt false None ∅ ∅ "" "" noWgData
    (mkParts false None [] (NewMonitor true enforceCert) [] None clients clients []) None false [] ∅ ∅ 0 false.

Definition dev_allow (accepts : string → bool) (l : list string) (d : wgDevice) : wgDevice :=
  let fix go l := match l with [] => [] | x :: l' => if accepts x then x :: go l' else [] end in
  mkDev (dv_id d) (dv_allowed d ++ go l).
Definition dev_clear (d : wgDevice) : wgDevice := mkDev (dv_id d) [].

(** ** Requests *)

(** [if n.stopFunc != nil { n.stopFunc(); n.stopFunc = nil }]; stopping a
    request twice closes a closed channel. *)
Definition callStop (n : Newt) : go Newt :=
  match n_stopFunc n with
  | None => Ret n
  | Some i => if bool_decide (i ∈ n_stopped n) then Panic
              else Ret (set_request None (n_requests n) (n_stopped n ∪ {[i]}) (n_next n) n)
  end.

(** [n.stopFunc = n.client.SendMessageInterval(...)] *)
Definition startRequest (topic chain : string) (n : Newt) : Newt :=
  set_request (Some (n_next n)) (<[n_next n := mkRequest topic chain]> (n_requests n)) (n_stopped n) (S (n_next n)) n.

Definition topicPing : string := "newt/ping/request".
Definition topicWGRegister : string := "newt/wg/register".

(** The program's settings the handlers read, and which configuration lines
    the WireGuard device accepts. *)
Record site : Type := mkSite {
  e_native : bool;                  (* UseNativeMainInterface *)
  e_DNS : string;
  e_asyncBytes : bool;
  e_udpIdle : Z;
  e_script : option (string → string → string → option string);
  e_accepts : string → bool }.

Section core.
Context `{MapRange} (e : site).

Notation native := (e_native e).
Notation accepts := (e_accepts e).

(** ** The tunnel *)

Definition serverRoute (n : Newt) : string := wg_ServerIP (n_wgData n) +:+ "/32".

(** The components' share of [closeWgTunnel]; [pm.Stop] closes the listeners
    of a manager that runs, those of another stay open. *)
Definition closeParts (p : parts) : parts :=
  let leaked := match p_pm p with
                | Some pm => let pm' := (pm_Stop pm).1 in p_leaked p ++ listeners pm' ++ udpConns pm'
                | None => p_leaked p
                end in
  set_pm None leaked (set_gateway None (set_pinging false p)).

Definition closeWgTunnel (n : Newt) : Newt :=
  let routes := if native
                then n_routes n ∖ (list_to_set (n_active n) ∪
                       (if bool_decide (wg_ServerIP (n_wgData n) = "") then ∅ else {[serverRoute n]}))
                else n_routes n in
  set_tunnel None false (if native then [] else n_active n) routes
    (match n_dev n with Some d => n_open n ∖ {[dv_id d]} | None => n_open n end) (n_next n) (on_parts closeParts n).

Definition closeClients (p : parts) : parts :=
  if p_service p then set_service false (p_calls p ++ [SvcClose]) p else p.

(** What the environment answers to a connect message. *)
Record connectWorld : Type := mkCW {
  cw_message : option WgMessage;    (* the data decodes *)
  cw_tun : bool;                    (* the native interface can be created *)
  cw_lookup : string → option (list Addr);  (* the system's resolver *)
  cw_listen : listenFn;             (* which proxy listeners can be opened *)
  cw_gateway : bool;                (* the gateway's listener can be opened *)
}.

(** Adding the subnets one by one, as [subnets/add] and the connection do. *)
Definition allowEach (l : list string) (d : wgDevice) : wgDevice := foldl (λ d s, dev_allow accepts [s] d) d l.

(** The hole punching starts towards the endpoint without its port. *)
Definition clientsHandleNewtConnection (publicKey endpoint : string) (relayPort : Z) (p : parts) : parts :=
  if negb (p_ready p) then p
  else match rcut c_colon (str endpoint) with
       | None => p
       | Some (host, _) => svc (SvcStartHolepunch publicKey (unstr host) relayPort) p
       end.

Definition clientsStartDirectRelay (tunnelIP : string) (p : parts) : parts :=
  if p_ready p then svc (SvcStartDirectUDPRelay tunnelIP) p else p.

Definition clientsOnConnect (p : parts) : parts := if p_ready p then svc SvcLoadRemoteConfig p else p.

(** [None]: the gateway cannot be started. *)
Definition startBrowserGateway (tnet listens : bool) (p : parts) : option parts :=
  match p_gateway p with
  | Some _ => Some p
  | None => if negb tnet && negb native then None
            else if listens then Some (set_gateway (Some NewGateway) p) else None
  end.

(** The new proxy manager, before its targets. *)
Definition newManager (wg : WgData) (blocked : bool) : go ProxyManager :=
  let pm := if native then NewProxyManagerNative (wg_TunnelIP wg) else NewProxyManager in
  pm ← SetTunnelID (wg_PublicKey wg) (SetUDPIdleTimeout (e_udpIdle e) (SetAsyncBytes (e_asyncBytes e) pm));
  Ret (pm_SetBlocked blocked pm).

(** The end of [handleConnect]: the components of the new tunnel. *)
Definition connectParts (w : connectWorld) (wg : WgData) (tnet : bool) (pm : ProxyManager) (p : parts) : parts :=
  let add pr ts pm := (updateTargets (e_script e) (cw_listen w) "add" (wg_TunnelIP wg) pr ts pm).1 in
  let pm := add "udp"%string (wg_UDP wg) (add "tcp"%string (wg_TCP wg) pm) in
  let p := if native then p else clientsStartDirectRelay (wg_TunnelIP wg) p in
  let p := onHealth (AddTargets (wg_HealthCheckTargets wg)) p in
  let p := set_pm (Some (Start (cw_listen w) pm).1) (p_leaked p) (set_pinging true p) in
  match wg_BrowserGatewayTargets wg with
  | [] => p
  | ts => match startBrowserGateway tnet (cw_gateway w) (set_gateway None p) with
          | Some p => set_gateway (Some (gw_SetTargets ts)) p
          | None => set_gateway None p
          end
  end.

(** [handleConnect] once the endpoint is resolved. *)
Definition finishTunnel (w : connectWorld) (endpoint : string) (d : wgDevice) (n : Newt) : go Newt :=
  let wg := n_wgData n in
  let relayPort := if wg_RelayPort wg =? 0 then 21820 else wg_RelayPort wg in
  let n := on_parts (clientsHandleNewtConnection (wg_PublicKey wg) endpoint relayPort) n in
  _ ← FixKey (wg_PublicKey wg);
  let d := dev_allow accepts [serverRoute n] d in
  let subnets := wg_RemoteExitNodeSubnets wg in
  let d := allowEach subnets d in
  let routes := if native then n_routes n ∪ {[serverRoute n]} ∪ list_to_set subnets else n_routes n in
  pm ← newManager wg (n_blocked n);
  Ret (on_parts (connectParts w wg (n_tnet n) pm)
         (set_connected true (set_tunnel (Some d) (n_tnet n) subnets routes (n_open n) (n_next n) n))).

(** [handleConnect] from the decoding of the data on; the netstack's creation
    succeeds, but its arguments must parse ([MustParseAddr]). *)
Definition setUpTunnel (w : connectWorld) (n : Newt) : go Newt :=
  match cw_message w with
  | None => Ret n
  | Some m =>
      let n := set_wgData (unmarshalWg m (n_wgData n)) n in
      if native && negb (cw_tun w) then Ret n
      else if negb native && (bool_decide (ParseAddr (wg_TunnelIP (n_wgData n)) = None) || bool_decide (ParseAddr (e_DNS e) = None))
      then Panic
      else
        let d := mkDev (n_next n) [] in
        let n := set_tunnel (Some d) (negb native) (n_active n) (n_routes n) (n_open n ∪ {[dv_id d]}) (S (n_next n))
                   (on_parts (svc (SvcSetOthertnet (negb native))) n) in
        match SplitHostPort (wg_Endpoint (n_wgData n)), resolveWith (cw_lookup w) (wg_Endpoint (n_wgData n)) with
        | Some _, Some endpoint => finishTunnel w endpoint d n
        | _, _ => Ret n
        end
  end.

Definition closeConnected (n : Newt) : Newt := if n_connected n then set_connected false (closeWgTunnel n) else n.

Definition handleConnect (chainId : string) (w : connectWorld) (n : Newt) : go Newt :=
  if negb (bool_decide (chainId = "")) && negb (bool_decide (chainId = n_pendingRegister n)) then Ret n
  else
    let n := if bool_decide (chainId = "") then n else set_pending "" (n_pendingPing n) n in
    n ← callStop n;
    setUpTunnel w (closeConnected n).

(** ** Other handlers *)

Definition handleReconnect (newId : string) (n : Newt) : go Newt :=
  n ← callStop (set_connected false (closeWgTunnel n));
  Ret (startRequest topicPing newId (set_pending (n_pendingRegister n) newId n)).

Definition handleTerminate (n : Newt) : go Newt :=
  n ← callStop (on_parts closeClients (closeWgTunnel n)); Ret (set_connected false n).

(** What a restart message and [Close] leave behind. *)
Definition shutDown (n : Newt) : Newt :=
  on_parts (λ p, onHealth (λ m, (Stop m, [])) (closeClients p)) (closeWgTunnel n).

(** [nodes]: the number of exit nodes, [None] when the data does not decode. *)
Definition handleExitNodes (chainId : string) (nodes : option nat) (newId : string) (n : Newt) : go Newt :=
  n ← callStop n;
  match nodes with
  | None => Ret n
  | Some k =>
      if negb (bool_decide (chainId = "")) && negb (bool_decide (chainId = n_pendingPing n)) then Ret n
      else
        let n := if bool_decide (chainId = "") then n else set_pending (n_pendingRegister n) "" n in
        if Nat.eqb k 0 then Ret n
        else Ret (startRequest topicWGRegister newId (set_pending newId (n_pendingPing n) n))
  end.

(** The callback when the websocket connects; [version]: the server told its
    version. *)
Definition onConnect (newId : string) (version : bool) (n : Newt) : go Newt :=
  if n_connected n then Ret n
  else
    n ← callStop n;
    let n := startRequest topicPing newId (set_pending (n_pendingRegister n) newId n) in
    Ret (if version then on_parts clientsOnConnect n else n).

(** The recovery the ping check starts: the request that is being repeated is
    not stopped. *)
Definition recover (newId : string) (n : Newt) : go Newt :=
  Ret (startRequest topicPing newId (set_pending (n_pendingRegister n) newId n)).

Definition subnetsAdd (subnets : list string) (n : Newt) : go Newt :=
  match subnets, n_dev n with
  | [], _ | _, None => Ret n
  | _, Some d =>
      _ ← FixKey (wg_PublicKey (n_wgData n));
      Ret (set_tunnel (Some (allowEach subnets d)) (n_tnet n) (n_active n ++ subnets)
             (if native then n_routes n ∪ list_to_set subnets else n_routes n) (n_open n) (n_next n) n)
  end.

(** The peer's whole list, sent as one configuration. *)
Definition replaceAllowed (subnets : list string) (n : Newt) : go (option wgDevice) :=
  match n_dev n with
  | Some d =>
      if bool_decide (wg_PublicKey (n_wgData n) = "") then Ret (Some d)
      else _ ← FixKey (wg_PublicKey (n_wgData n)); Ret (Some (dev_allow accepts (serverRoute n :: subnets) (dev_clear d)))
  | None => Ret None
  end.

Definition updateRemoteExitNodeSubnets (subnets : list string) (n : Newt) : go Newt :=
  let stale := filter (λ s, s ∉ subnets) (n_active n) in
  let missing := filter (λ s, s ∉ n_active n) subnets in
  d ← replaceAllowed subnets n;
  Ret (set_tunnel d (n_tnet n) subnets
         (if native then (n_routes n ∖ list_to_set stale) ∪ list_to_set missing else n_routes n) (n_open n) (n_next n) n).

Definition subnetsUpdate (subnets : list string) (n : Newt) : go Newt :=
  match n_dev n with None => Ret n | Some _ => updateRemoteExitNodeSubnets subnets n end.

Definition subnetsRemove (subnets : list string) (n : Newt) : go Newt :=
  match subnets with
  | [] => Ret n
  | _ =>
      let remaining := filter (λ s, s ∉ subnets) (n_active n) in
      d ← replaceAllowed remaining n;
      Ret (set_tunnel d (n_tnet n) remaining
             (if native then n_routes n ∖ list_to_set subnets else n_routes n) (n_open n) (n_next n) n)
  end.

(** [newt/tcp/add] and its three siblings; [None]: the data does not parse. *)
Definition handleTargets (add tcp : bool) (data : option (list string)) (listenOK : listenFn) (n : Newt) : Newt :=
  match p_pm (n_parts n), data with
  | Some pm, Some ts =>
      if bool_decide (wg_TunnelIP (n_wgData n) = "") then n
      else
        let pm' := (updateTargets (e_script e) listenOK (if add then "add" else "remove")%string (wg_TunnelIP (n_wgData n))
                      (if tcp then "tcp" else "udp")%string ts pm).1 in
        on_parts (λ p, set_pm (Some pm') (p_leaked p) p) n
  | _, _ => n
  end.

Definition syncBrowserGatewayTargets (tnet listens : bool) (ts : list GwTarget) (p : parts) : parts :=
  match ts with
  | [] => match p_gateway p with Some _ => set_gateway (Some (gw_SetTargets [])) p | None => p end
  | _ => match startBrowserGateway tnet listens p with
         | None => p
         | Some p' => set_gateway (Some (gw_SetTargets ts)) p'
         end
  end.

(** The rest of [handleSync] once the proxy targets are done. *)
Definition syncRest (listens : bool) (d : SyncData) (n : Newt) : go Newt :=
  n ← subnetsUpdate (sd_RemoteExitNodeSubnets d) n;
  let n := on_parts (λ p, svc (SvcSync (sd_Peers d) (sd_ClientTargets d)) (svc (SvcSetCerts (sd_Certs d)) p)) n in
  let n := on_parts (syncBrowserGatewayTargets (n_tnet n) listens (sd_BrowserGatewayTargets d)) n in
  Ret (on_parts (onHealth (SyncTargets (sd_HealthCheckTargets d))) n).

Definition handleSync (data : option SyncData) (listenOK : listenFn) (listens : bool) (n : Newt) : go Newt :=
  match p_pm (n_parts n), data with
  | Some pm, Some d =>
      match Sync.syncTargets (e_script e) listenOK (wg_TunnelIP (n_wgData n)) (sd_TCP d) (sd_UDP d) pm with
      | None => Ret n
      | Some pm' => syncRest listens d (on_parts (λ p, set_pm (Some pm') (p_leaked p) p) n)
      end
  | _, _ => Ret n
  end.

Definition gatewayAdd (ts : list GwTarget) (listens : bool) (n : Newt) : Newt :=
  match ts with
  | [] => n
  | _ => match startBrowserGateway (n_tnet n) listens (n_parts n) with
         | None => n
         | Some p => on_parts (λ _, set_gateway ((λ g, foldl (λ g t, gw_AddTarget t g) g ts) <$> p_gateway p) p) n
         end
  end.

Definition gatewayRemove (ids : list Z) (n : Newt) : Newt :=
  on_parts (λ p, set_gateway ((λ g, foldl (λ g id, gw_RemoveTarget id g) g ids) <$> p_gateway p) p) n.

(** ** Runs *)

Inductive message : Type :=
  | MConnect (chainId : string) (w : connectWorld)
  | MReconnect (newId : string)
  | MTerminate
  | MExitNodes (chainId : string) (nodes : option nat) (newId : string)
  | MOnConnect (newId : string) (version : bool)
  | MRecover (newId : string)
  | MSubnetsAdd (l : list string) | MSubnetsUpdate (l : list string) | MSubnetsRemove (l : list string)
  | MTargets (add tcp : bool) (data : option (list string)) (listenOK : listenFn)
  | MSync (data : option SyncData) (listenOK : listenFn) (listens : bool)
  | MHealthAdd (cs : list HealthCheck.Config) | MHealthRemove (ids : list Z) | MHealthEnable (id : Z) | MHealthDisable (id : Z)
  | MGatewayAdd (ts : list GwTarget) (listens : bool) | MGatewayRemove (ids : list Z).

Definition handle (m : message) (n : Newt) : go Newt :=
  match m with
  | MConnect c w => handleConnect c w n
  | MReconnect i => handleReconnect i n
  | MTerminate => handleTerminate n
  | MExitNodes c k i => handleExitNodes c k i n
  | MOnConnect i v => onConnect i v n
  | MRecover i => recover i n
  | MSubnetsAdd l => subnetsAdd l n
  | MSubnetsUpdate l => subnetsUpdate l n
  | MSubnetsRemove l => subnetsRemove l n
  | MTargets add tcp ts l => Ret (handleTargets add tcp ts l n)
  | MSync d l g => handleSync d l g n
  | MHealthAdd cs => Ret (on_parts (onHealth (AddTargets cs)) n)
  | MHealthRemove ids => Ret (on_parts (onHealth (λ m, (RemoveTargets ids m).1)) n)
  | MHealthEnable id => Ret (on_parts (onHealth (λ m, (EnableTarget id m).1)) n)
  | MHealthDisable id => Ret (on_parts (onHealth (λ m, (DisableTarget id m).1)) n)
  | MGatewayAdd ts l => Ret (gatewayAdd ts l n)
  | MGatewayRemove ids => Ret (gatewayRemove ids n)
  end.

Fixpoint handleAll (ms : list message) (n : Newt) : go Newt :=
  match ms with [] => Ret n | m :: ms' => n ← handle m n; handleAll ms' n end.

(** ** Reloading *)

(** The credentials and the blocked flag as the file's JSON gives them. *)
Record fileConfig : Type := mkFC { fc_Endpoint : string; fc_ID : string; fc_Secret : string; fc_Blocked : bool }.

Definition applyBlocked (v : bool) (n : Newt) : Newt :=
  on_parts (λ p, svc (SvcSetBlocked v) (set_pm (pm_SetBlocked v <$> p_pm p) (p_leaked p) p)) (set_nblocked v n).

(** SIGHUP: the state and whether the program restarts; [None] when the file
    cannot be read or parsed.  [hasRestart]: a restart function is configured,
    which does not return on success. *)
Definition reload (hasRestart : bool) (file : option fileConfig) (cur : WsConfig.Config) (n : Newt) : Newt * bool :=
  match file with
  | None => (n, false)
  | Some f =>
      let changed := negb (bool_decide (fc_Endpoint f = cfg_Endpoint cur)) || negb (bool_decide (fc_ID f = cfg_ID cur))
                     || negb (bool_decide (fc_Secret f = cfg_Secret cur)) in
      if changed && hasRestart then (shutDown n, true)
      else
        let n := if changed then shutDown n else n in
        ((if bool_decide (fc_Blocked f = n_blocked n) then n else applyBlocked (fc_Blocked f) n), false)
  end.

End core.

(** ** Lemmas: requests *)

Lemma go_bind_Ret {A B} (m : go A) (f : A → go B) b : (m ≫= f) = Ret b → ∃ a, m = Ret a ∧ f a = Ret b.
Proof. destruct m; [eauto|done]. Qed.

Record req_ok (n : Newt) : Prop := {
  rq_stop : ∀ i, n_stopFunc n = Some i → (i < n_next n)%nat ∧ i ∉ n_stopped n;
  rq_stopped : ∀ i, i ∈ n_stopped n → (i < n_next n)%nat;
  rq_started : ∀ i r, n_requests n !! i = Some r → (i < n_next n)%nat }.

(** A request that is still repeated. *)
Definition alive (n : Newt) (i : nat) : Prop := is_Some (n_requests n !! i) ∧ i ∉ n_stopped n.
Definition single (n : Newt) : Prop := ∀ i, alive n i → n_stopFunc n = Some i.

(** The request part of the state. *)
Definition same_requests (n n' : Newt) : Prop :=
  n_stopFunc n' = n_stopFunc n ∧ n_requests n' = n_requests n ∧ n_stopped n' = n_stopped n ∧ (n_next n <= n_next n')%nat.

Lemma same_requests_ok n n' : same_requests n n' → (req_ok n → req_ok n') ∧ (single n → single n').
Proof.
  intros (E1 & E2 & E3 & E4). split.
  - intros [H1 H2 H3]. constructor; rewrite ?E1, ?E2, ?E3; intros; [destruct (H1 i)|specialize (H2 i)|specialize (H3 i r)]; try done; naive_solver lia.
  - unfold single, alive. by rewrite E1, E2, E3.
Qed.

Lemma callStop_ok n :
  req_ok n → ∃ n', callStop n = Ret n' ∧ req_ok n' ∧ n_stopFunc n' = None ∧ (single n → ∀ i, ¬ alive n' i) ∧
    n' = set_request None (n_requests n) (n_stopped n') (n_next n) n.
Proof.
  intros [H1 H2 H3]. unfold callStop. destruct (n_stopFunc n) as [i|] eqn:E.
  - destruct (H1 i eq_refl) as [Hlt Hi]. rewrite bool_decide_false by done. eexists. split; [done|]. simpl. split_and!; try done.
    + constructor; simpl; [done| |done]. set_solver.
    + intros Hs j [Hj Hn]. simpl in *. assert (n_stopFunc n = Some j) by (apply Hs; split; [done|set_solver]). set_solver.
  - exists n. split_and!; try done.
    + constructor; [by rewrite E|done|done].
    + intros Hs j Hj. apply Hs in Hj. congruence.
    + destruct n; simpl in *; by subst.
Qed.

Lemma startRequest_ok topic chain n :
  req_ok n → req_ok (startRequest topic chain n) ∧ ((∀ i, ¬ alive n i) → single (startRequest topic chain n)).
Proof.
  intros [H1 H2 H3]. split.
  - constructor; simpl.
    + intros i [= <-]. split; [lia|]. intros Hi%H2. lia.
    + intros i Hi%H2. lia.
    + intros i r [[<- _]|[_ Hr]]%lookup_insert_Some; [lia|]. apply H3 in Hr. lia.
  - intros Hno i [[r Hr] Hn]. simpl in *. apply lookup_insert_Some in Hr as [[<- _]|[_ Hr]]; [done|].
    destruct (Hno i). split; [by eexists|done].
Qed.

Lemma same_refl n n' : n_stopFunc n' = n_stopFunc n → n_requests n' = n_requests n → n_stopped n' = n_stopped n →
  n_next n' = n_next n → same_requests n n'.
Proof. intros. unfold same_requests. split_and!; try done. lia. Qed.

(** The keys and addresses a message carries can be read. *)
Definition readable (e : site) (m : message) : Prop :=
  match m with
  | MConnect _ w => ∀ msg, cw_message w = Some msg →
      (∃ k, wm_PublicKey msg = Some k ∧ FixKey k ≠ Panic) ∧
      (e_native e = false → ParseAddr (e_DNS e) ≠ None ∧ ∃ ip, wm_TunnelIP msg = Some ip ∧ ParseAddr ip ≠ None)
  | _ => True
  end.

Definition key_ok (n : Newt) : Prop := FixKey (wg_PublicKey (n_wgData n)) ≠ Panic.

Definition is_recover (m : message) : bool := match m with MRecover _ => true | _ => false end.

(** Stop whatever is repeated, then perhaps start another request, with any
    change to the rest of the state in between. *)
Lemma stop_then n (f : Newt → Newt) :
  req_ok n → (∀ m, same_requests m (f m)) →
  ∃ n', (callStop n ≫= λ m, Ret (f m)) = Ret n' ∧ req_ok n' ∧ (single n → single n' ∧ ∀ i, ¬ alive n' i).
Proof.
  intros Hok Hf. destruct (callStop_ok n Hok) as (m & -> & Hm & Hs & Hno & _). exists (f m). split; [done|].
  destruct (Hf m) as (E1 & E2 & E3 & E4) eqn:E. clear E. destruct (same_requests_ok m (f m) (Hf m)) as [H1 H2].
  split; [auto|]. intros Hsi. assert (∀ i, ¬ alive (f m) i) as Hna by (unfold alive; rewrite E2, E3; apply (Hno Hsi)).
  split; [|done]. intros i Hi. by apply Hna in Hi.
Qed.

Lemma request_after n topic chain (f : Newt → Newt) :
  req_ok n → (∀ m, same_requests m (f m)) →
  ∃ n', (callStop n ≫= λ m, Ret (startRequest topic chain (f m))) = Ret n' ∧ req_ok n' ∧ (single n → single n').
Proof.
  intros Hok Hf. destruct (stop_then n f Hok Hf) as (m & Hm & Hmok & Hs).
  destruct (callStop n) as [n1|]; [|done]. simpl in *. injection Hm as <-.
  destruct (startRequest_ok topic chain (f n1) Hmok) as [H1 H2]. eexists. split; [done|]. split; [done|].
  intros Hsi. apply H2. by apply Hs.
Qed.

Lemma closed_same e n : same_requests n (closeWgTunnel e n).
Proof. by apply same_refl. Qed.

Lemma same_trans n1 n2 n3 : same_requests n1 n2 → same_requests n2 n3 → same_requests n1 n3.
Proof. intros (?&?&?&?) (?&?&?&?). unfold same_requests. split_and!; try congruence. lia. Qed.

Lemma replaceAllowed_ok e l n : key_ok n → ∃ d, replaceAllowed e l n = Ret d.
Proof.
  unfold replaceAllowed, key_ok. intros Hk. destruct (n_dev n); [|by eexists]. destruct (bool_decide _); [by eexists|].
  destruct (FixKey _); [by eexists|done].
Qed.

Lemma closeConnected_same e n : same_requests n (closeConnected e n) ∧ n_wgData (closeConnected e n) = n_wgData n.
Proof. unfold closeConnected. destruct (n_connected n); split; (done || by apply same_refl). Qed.

(** ** Lemmas: the components *)

Lemma on_parts_id n : on_parts id n = n.
Proof. by destruct n. Qed.

(** A handler that touches the components only. *)
Definition parts_only (n n' : Newt) : Prop := ∃ f, n' = on_parts f n.

Lemma parts_only_refl n : parts_only n n.
Proof. exists id. by rewrite on_parts_id. Qed.

Lemma parts_only_trans n1 n2 n3 : parts_only n1 n2 → parts_only n2 n3 → parts_only n1 n3.
Proof. intros [f ->] [g ->]. by exists (g ∘ f). Qed.

Lemma handleTargets_parts e add tcp ts l n : parts_only n (handleTargets e add tcp ts l n).
Proof.
  unfold handleTargets. destruct (p_pm (n_parts n)); [|apply parts_only_refl]. destruct ts; [|apply parts_only_refl].
  destruct (bool_decide _); [apply parts_only_refl|by eexists].
Qed.

Lemma gatewayAdd_parts e ts l n : parts_only n (gatewayAdd e ts l n).
Proof. unfold gatewayAdd. destruct ts; [apply parts_only_refl|]. destruct (startBrowserGateway _ _ _ _); [by eexists|apply parts_only_refl]. Qed.

Lemma newManager_ok e wg v :
  ∃ pm, newManager e wg v = Ret pm ∧ currentTunnelID pm = wg_PublicKey wg ∧ blocked pm = v ∧ tcpTargets pm = ∅ ∧ udpTargets pm = ∅ ∧
    running pm = false ∧ listeners pm = [] ∧ udpConns pm = [].
Proof. unfold newManager. destruct (e_native e); eexists; by split_and!. Qed.

Lemma finishTunnel_safe `{MapRange} e w ep d n :
  key_ok n → ∃ n', finishTunnel e w ep d n = Ret n' ∧ same_requests n n' ∧ key_ok n'.
Proof.
  unfold key_ok, finishTunnel. intros Hk. destruct (FixKey (wg_PublicKey (n_wgData n))) as [x|] eqn:Ek; [|done]. cbn [mbind go_bind].
  destruct (newManager_ok e (n_wgData n) (n_blocked n)) as (pm & E & _). simpl n_blocked. rewrite E. cbn [mbind go_bind].
  eexists. split; [done|]. split; [by apply same_refl|]. simpl. by rewrite Ek.
Qed.

Lemma setUpTunnel_safe `{MapRange} e c w n :
  readable e (MConnect c w) → key_ok n →
  ∃ n', setUpTunnel e w n = Ret n' ∧ same_requests n n' ∧ key_ok n'.
Proof.
  intros Hread Hkey. unfold setUpTunnel. destruct (cw_message w) as [msg|] eqn:Em; [|exists n; split_and!; (done || by apply same_refl)].
  destruct (Hread msg Em) as [(k & Ek & Hk) Haddr].
  set (n2 := set_wgData (unmarshalWg msg (n_wgData n)) n).
  assert (same_requests n n2) as Hs2 by (by apply same_refl).
  assert (key_ok n2) as Hk2 by (unfold key_ok, n2; simpl; by rewrite Ek).
  destruct (e_native e && negb (cw_tun w)); [by exists n2|].
  assert (negb (e_native e) && (bool_decide (ParseAddr (wg_TunnelIP (n_wgData n2)) = None) || bool_decide (ParseAddr (e_DNS e) = None)) = false) as ->.
  { destruct (e_native e); [done|]. destruct (Haddr eq_refl) as (Hd & ip & Hip & Hp). simpl. rewrite Hip. simpl.
    by rewrite !bool_decide_false by done. }
  set (n3 := set_tunnel _ _ _ _ _ _ (on_parts _ n2)).
  assert (same_requests n n3) as Hs3 by (unfold same_requests; split_and!; try done; simpl; lia).
  destruct (SplitHostPort _); [|by exists n3]. destruct (resolveWith _ _) as [ep|]; [|by exists n3].
  destruct (finishTunnel_safe e w ep (mkDev (n_next n2) []) n3 Hk2) as (n' & E & Hs' & Hk'). exists n'. split; [exact E|].
  split; [|done]. by eapply same_trans.
Qed.

(** From a state whose requests are in order, a handler returns and keeps them
    so. *)
Definition safe_to (rec : bool) (n : Newt) (r : go Newt) : Prop :=
  ∃ n', r = Ret n' ∧ req_ok n' ∧ key_ok n' ∧ (rec = false → single n → single n').

(** A change outside the requests. *)
Definition quiet (f : Newt → Newt) : Prop := ∀ x, same_requests x (f x) ∧ n_wgData (f x) = n_wgData x.
Ltac by_same := first [done | by apply same_refl | (intros ?; split; first [done | by apply same_refl])].

Section safe.
Context (rec : bool) (n : Newt) (Hok : req_ok n).

Lemma safe_same n1 : same_requests n n1 → key_ok n1 → safe_to rec n (Ret n1).
Proof. intros Hs Hk. destruct (same_requests_ok n n1 Hs). exists n1. split_and!; auto. Qed.

Lemma safe_stop n1 f :
  same_requests n n1 → key_ok n1 → quiet f → safe_to rec n (callStop n1 ≫= λ x, Ret (f x)).
Proof.
  intros Hs Hk Hf. destruct (same_requests_ok n n1 Hs) as [Ho Hsi].
  destruct (stop_then n1 f (Ho Hok) (λ x, proj1 (Hf x))) as (n' & E & Hok' & Hsi').
  destruct (callStop_ok n1 (Ho Hok)) as (x & Ex & _ & _ & _ & Hx). rewrite Ex in E |- *. simpl in *. injection E as <-.
  exists (f x). split_and!; [done|done| |intros _ ?; by apply Hsi'; auto].
  unfold key_ok in *. rewrite (proj2 (Hf x)), Hx. done.
Qed.

Lemma safe_request n1 topic chain f :
  same_requests n n1 → key_ok n1 → quiet f → safe_to rec n (callStop n1 ≫= λ x, Ret (startRequest topic chain (f x))).
Proof.
  intros Hs Hk Hf. destruct (same_requests_ok n n1 Hs) as [Ho Hsi].
  destruct (request_after n1 topic chain f (Ho Hok) (λ x, proj1 (Hf x))) as (n' & E & Hok' & Hsi').
  destruct (callStop_ok n1 (Ho Hok)) as (x & Ex & _ & _ & _ & Hx). rewrite Ex in E |- *. simpl in *. injection E as <-.
  eexists. split_and!; [done|done| |intros _ ?; by apply Hsi'; auto].
  unfold key_ok in *. simpl. rewrite (proj2 (Hf x)), Hx. done.
Qed.
Lemma safe_then f r : quiet f → safe_to rec n r → safe_to rec n (x ← r; Ret (f x)).
Proof.
  intros Hf (x & -> & Hokx & Hk & Hs). destruct (Hf x) as [Hsame Hw]. destruct (same_requests_ok x (f x) Hsame) as [H1 H2].
  exists (f x). split_and!; [done|auto| |auto]. unfold key_ok in *. by rewrite Hw.
Qed.
End safe.

Lemma handleConnect_safe `{MapRange} e c w n :
  readable e (MConnect c w) → req_ok n → key_ok n → safe_to false n (handleConnect e c w n).
Proof.
  intros Hread Hok Hkey. unfold handleConnect. destruct (_ && _); [by apply safe_same; by_same|].
  set (n0 := if bool_decide (c = "") then n else _).
  assert (same_requests n n0 ∧ key_ok n0) as [Hs0 Hk0] by (unfold n0; destruct (bool_decide _); split; by_same).
  destruct (safe_stop false n Hok n0 (closeConnected e) Hs0 Hk0 (closeConnected_same e)) as (n1 & E1 & Hok1 & Hk1 & Hsi1).
  destruct (callStop n0) as [x|]; [|done]. simpl in *. injection E1 as <-.
  destruct (setUpTunnel_safe e c w _ Hread Hk1) as (n' & -> & Hs' & Hk').
  destruct (same_requests_ok _ _ Hs'). exists n'. split_and!; auto.
Qed.

Lemma handleExitNodes_safe c nodes newId n : req_ok n → key_ok n → safe_to false n (handleExitNodes c nodes newId n).
Proof.
  intros Hok Hkey. unfold handleExitNodes. destruct nodes as [k|]; [|by apply (safe_stop false n Hok n id); by_same].
  destruct (callStop_ok n Hok) as (x & Ex & Hokx & Hsx & Hnox & Hx). rewrite Ex. cbn [mbind go_bind].
  assert (key_ok x) as Hkx by (unfold key_ok in *; by rewrite Hx).
  assert (single n → single x) as Hsx' by (intros Hsi i Hi; by apply Hnox in Hi).
  destruct (_ && _); [exists x; split_and!; auto|].
  set (y := if bool_decide (c = "") then x else _).
  assert (same_requests x y ∧ key_ok y) as [Hsy Hky] by (unfold y; destruct (bool_decide _); split; by_same).
  destruct (same_requests_ok x y Hsy) as [Hoy Hsiy]. destruct (Nat.eqb k 0); [exists y; split_and!; auto|].
  set (z := set_pending newId (n_pendingPing y) y).
  assert (req_ok z) as Hz by (destruct (same_requests_ok y z ltac:(by_same)); auto).
  destruct (startRequest_ok topicWGRegister newId z Hz) as [H1 H2]. eexists. split_and!; [done|done|done|].
  intros _ Hsi. apply H2. intros i Hi. apply (Hnox Hsi i). destruct Hsy as (_ & E2 & E3 & _). unfold alive, z in *. simpl in Hi.
  by rewrite E2, E3 in Hi.
Qed.

Lemma subnetsUpdate_safe e l n : req_ok n → key_ok n → ∃ n', subnetsUpdate e l n = Ret n' ∧ same_requests n n' ∧ n_wgData n' = n_wgData n.
Proof.
  intros Hok Hkey. unfold subnetsUpdate, updateRemoteExitNodeSubnets. destruct (n_dev n) as [d|]; [|exists n; split_and!; by_same].
  destruct (replaceAllowed_ok e l n Hkey) as [d' ->]. eexists. split_and!; by_same.
Qed.

Lemma handleSync_safe `{MapRange} e d lf g n : req_ok n → key_ok n → safe_to false n (handleSync e d lf g n).
Proof.
  intros Hok Hkey. unfold handleSync. destruct (p_pm (n_parts n)); [|by apply safe_same; by_same].
  destruct d as [d|]; [|by apply safe_same; by_same]. destruct (Sync.syncTargets _ _ _ _ _ _) as [pm|]; [|by apply safe_same; by_same].
  unfold syncRest. set (n1 := on_parts _ n). assert (same_requests n n1) as H1 by (by apply same_refl).
  destruct (same_requests_ok n n1 H1) as [Hok1 _]. destruct (subnetsUpdate_safe e (sd_RemoteExitNodeSubnets d) n1 (Hok1 Hok) Hkey) as (n2 & -> & H2 & Ew).
  cbn [mbind go_bind]. apply (safe_same false n Hok); [|unfold key_ok in *; simpl; by rewrite Ew].
  eapply same_trans; [exact H1|]. eapply same_trans; [exact H2|]. by apply same_refl.
Qed.

Lemma handle_safe `{MapRange} e m n :
  readable e m → req_ok n → key_ok n → safe_to (is_recover m) n (handle e m n).
Proof.
  intros Hread Hok Hkey. destruct m as [c w|newId| |c nodes newId|newId v|newId|l|l|l|add tcp ts lf|d lf g|cs|ids|i|i|ts g|ids]; cbn [handle is_recover].
  - by apply handleConnect_safe.
  - apply (safe_request false n Hok (set_connected false (closeWgTunnel e n)) topicPing newId
      (λ x, set_pending (n_pendingRegister x) newId x)); by_same.
  - apply (safe_stop false n Hok (on_parts closeClients (closeWgTunnel e n)) (set_connected false)); by_same.
  - by apply handleExitNodes_safe.
  - unfold onConnect. destruct (n_connected n); [by apply safe_same; by_same|].
    destruct v; [|apply (safe_request false n Hok n topicPing newId (λ x, set_pending (n_pendingRegister x) newId x)); by_same].
    assert (quiet (on_parts clientsOnConnect)) as Hq by by_same.
    pose proof (safe_then false n _ _ Hq (safe_request false n Hok n topicPing newId (λ x, set_pending (n_pendingRegister x) newId x)
      ltac:(by_same) Hkey ltac:(by_same))) as Hs.
    destruct (callStop n); exact Hs.
  - unfold recover. set (z := set_pending _ _ n). assert (req_ok z) as Hz by (destruct (same_requests_ok n z ltac:(by_same)); auto).
    destruct (startRequest_ok topicPing newId z Hz) as [H1 _]. eexists. split_and!; [done|done|done|done].
  - unfold subnetsAdd. destruct l as [|s l]; [by apply safe_same; by_same|].
    destruct (n_dev n) as [d|]; [|by apply safe_same; by_same]. pose proof Hkey as Hk. unfold key_ok in Hk.
    destruct (FixKey _); [|done]. by apply safe_same; by_same.
  - unfold subnetsUpdate, updateRemoteExitNodeSubnets. destruct (n_dev n) as [d|]; [|by apply safe_same; by_same].
    destruct (replaceAllowed_ok e l n Hkey) as [d' ->]. by apply safe_same; by_same.
  - unfold subnetsRemove. destruct l as [|s l]; [by apply safe_same; by_same|].
    destruct (replaceAllowed_ok e (filter (λ x, x ∉ s :: l) (n_active n)) n Hkey) as [d' ->]. by apply safe_same; by_same.
  - destruct (handleTargets_parts e add tcp ts lf n) as [f ->]. apply safe_same; by_same.
  - by apply handleSync_safe.
  - apply safe_same; by_same.
  - apply safe_same; by_same.
  - apply safe_same; by_same.
  - apply safe_same; by_same.
  - destruct (gatewayAdd_parts e ts g n) as [f ->]. apply safe_same; by_same.
  - apply safe_same; by_same.
Qed.

Lemma callStop_pending n x : callStop n = Ret x → n_pendingRegister x = n_pendingRegister n.
Proof. unfold callStop. destruct (n_stopFunc n); [destruct (bool_decide _); [done|]|]; by intros [= <-]. Qed.
Lemma callStop_ping n x : callStop n = Ret x → n_pendingPing x = n_pendingPing n.
Proof. unfold callStop. destruct (n_stopFunc n); [destruct (bool_decide _); [done|]|]; by intros [= <-]. Qed.

Lemma setUp_pending `{MapRange} e w n n' :
  setUpTunnel e w n = Ret n' → n_pendingRegister n' = n_pendingRegister n.
Proof.
  unfold setUpTunnel. destruct (cw_message w); [|by intros [= <-]]. destruct (_ && _); [by intros [= <-]|].
  destruct (_ && _); [done|]. destruct (SplitHostPort _); [|by intros [= <-]]. destruct (resolveWith _ _); [|by intros [= <-]].
  unfold finishTunnel. intros (k & _ & (pm & _ & [= <-])%go_bind_Ret)%go_bind_Ret. done.
Qed.

(** ** Lemmas: subnets *)

Lemma dev_allow_all accepts l d : Forall (λ s, accepts s = true) l → dv_allowed (dev_allow accepts l d) = dv_allowed d ++ l.
Proof. intros Hl. unfold dev_allow. simpl. f_equal. induction Hl as [|s l Hs _ IH]; [done|]. by rewrite Hs, IH. Qed.

Lemma allowEach_all e l d :
  Forall (λ s, e_accepts e s = true) l → dv_allowed (allowEach e l d) = dv_allowed d ++ l ∧ dv_id (allowEach e l d) = dv_id d.
Proof.
  intros Hl. revert d. induction Hl as [|s l Hs _ IH]; intros d; [by rewrite app_nil_r|]. unfold allowEach in *. cbn [foldl].
  destruct (IH (dev_allow (e_accepts e) [s] d)) as [-> ->]. rewrite dev_allow_all by (by repeat constructor). by rewrite <- app_assoc.
Qed.

Section subnets.
(** [server]: the routes to servers, which are not remote subnets. *)
Context `{MapRange} (e : site) (server : string → Prop).

Notation native := (e_native e).
Notation accepts := (e_accepts e).

Definition subnets_ok (l : list string) : Prop := Forall (λ s, ¬ server s ∧ accepts s = true) l.

Lemma subnets_accepted l : subnets_ok l → Forall (λ s, accepts s = true) l.
Proof. intros Hl. eapply Forall_impl; [exact Hl|]. by intros s []. Qed.

(** A message whose connection can be set up and whose subnets the device
    accepts. *)
Definition healthy (m : message) : Prop :=
  match m with
  | MConnect _ w => ∀ msg, cw_message w = Some msg → cw_tun w = true ∧
      (∃ ep, wm_Endpoint msg = Some ep ∧ is_Some (SplitHostPort ep) ∧ is_Some (resolveWith (cw_lookup w) ep)) ∧
      ∃ ip key l, wm_ServerIP msg = Some ip ∧ ip ≠ "" ∧ server (ip +:+ "/32") ∧ accepts (ip +:+ "/32") = true ∧
        wm_PublicKey msg = Some key ∧ key ≠ "" ∧ wm_RemoteExitNodeSubnets msg = Some l ∧ subnets_ok l
  | MSubnetsAdd l | MSubnetsUpdate l | MSubnetsRemove l => subnets_ok l
  | MSync (Some d) _ _ => subnets_ok (sd_RemoteExitNodeSubnets d)
  | _ => True
  end.

(** What the operating system and WireGuard are told, against the state. *)
Record subnets_match (n : Newt) (d : wgDevice) : Prop := {
  sm_server : wg_ServerIP (n_wgData n) ≠ "" ∧ wg_PublicKey (n_wgData n) ≠ "" ∧ server (serverRoute n) ∧ accepts (serverRoute n) = true;
  sm_active : subnets_ok (n_active n);
  sm_open : n_open n = {[dv_id d]};
  sm_allowed : ∀ s, s ∈ dv_allowed d ↔ s = serverRoute n ∨ s ∈ n_active n;
  sm_routes : ∀ r, r ∈ n_routes n ↔ native = true ∧ (r = serverRoute n ∨ r ∈ n_active n) }.

Definition tunnel_ok (n : Newt) : Prop :=
  if n_connected n then ∃ d, n_dev n = Some d ∧ subnets_match n d
  else n_dev n = None ∧ n_open n = ∅ ∧ n_routes n = ∅.

(** The fields the invariant reads. *)
Lemma tunnel_ok_fields n n' :
  n_connected n' = n_connected n → n_dev n' = n_dev n → n_open n' = n_open n → n_routes n' = n_routes n →
  n_wgData n' = n_wgData n → n_active n' = n_active n → tunnel_ok n → tunnel_ok n'.
Proof.
  intros E1 E2 E3 E4 E5 E6. unfold tunnel_ok. rewrite E1, E2. destruct (n_connected n); [|by rewrite E3, E4].
  intros (d & Hd & [H1 H2 H3 H4 H5]). exists d. split; [done|].
  constructor; unfold serverRoute in *; rewrite ?E3, ?E4, ?E5, ?E6; done.
Qed.

Lemma callStop_tunnel n n' : callStop n = Ret n' → tunnel_ok n → tunnel_ok n'.
Proof.
  unfold callStop. destruct (n_stopFunc n); [|by intros [= <-]]. destruct (bool_decide _); [done|]. intros [= <-].
  by apply tunnel_ok_fields.
Qed.

Lemma close_tunnel n : tunnel_ok n → tunnel_ok (set_connected false (closeWgTunnel e n)).
Proof.
  unfold tunnel_ok. simpl. destruct (n_connected n).
  - intros (d & Hd & [H1 H2 H3 H4 H5]). rewrite Hd, H3. split; [done|]. split; [set_solver|].
    apply set_eq. intros r. split; [|set_solver]. destruct H1 as (Hip & _). rewrite (bool_decide_false _ Hip).
    destruct native eqn:En; [|by intros [? _]%H5]. rewrite elem_of_difference, elem_of_union, elem_of_list_to_set, elem_of_singleton.
    intros [[_ Hr]%H5 Hn]. set_solver.
  - intros (Hd & Ho & Hr). rewrite Hd, Hr, Ho. split; [done|]. split; [done|]. destruct native; [set_solver|done].
Qed.

Lemma setUp_tunnel c w n n' :
  healthy (MConnect c w) → n_connected n = false → tunnel_ok n → setUpTunnel e w n = Ret n' → tunnel_ok n'.
Proof.
  unfold setUpTunnel. intros Hh Hc Hn. pose proof Hn as Hn0. unfold tunnel_ok in Hn. rewrite Hc in Hn. destruct Hn as (Hd & Ho & Hr).
  destruct (cw_message w) as [msg|] eqn:Em; [|intros [= <-]; done].
  destruct (Hh msg Em) as (-> & (end_ & Ee & [hp Ehp] & [ep Eep]) & ip & key & l & E1 & Hip & Hs & Ha & E2 & Hk & E3 & Hl).
  rewrite andb_false_r. destruct (negb native && _); [done|]. 
  match goal with |- context [SplitHostPort ?x] => change x with (default (wg_Endpoint (n_wgData n)) (wm_Endpoint msg)) end.
  rewrite Ee. change (default _ (Some end_)) with end_. rewrite Ehp, Eep.
  unfold finishTunnel, serverRoute. simpl. rewrite E1, E2, E3. simpl.
  intros (k & _ & (pm & _ & [= <-])%go_bind_Ret)%go_bind_Ret. unfold tunnel_ok. simpl. eexists. split; [done|].
  destruct (allowEach_all e l (dev_allow accepts [ip +:+ "/32"] (mkDev (n_next n) [])) (subnets_accepted l Hl)) as [Hal Hid].
  constructor; unfold serverRoute; simpl; rewrite ?E1, ?E2, ?E3; simpl; rewrite ?Hal, ?Hid, ?Ho, ?Hr, ?Ha; simpl; try done.
  - set_solver.
  - intros s. rewrite Ha. cbn [app]. by rewrite elem_of_cons.
  - intros r. destruct native; set_solver.
Qed.

Lemma replace_match l n d d' :
  n_dev n = Some d → wg_PublicKey (n_wgData n) ≠ "" → accepts (serverRoute n) = true → subnets_ok l →
  replaceAllowed e l n = Ret d' →
  ∃ d1, d' = Some d1 ∧ dv_id d1 = dv_id d ∧ (∀ s, s ∈ dv_allowed d1 ↔ s = serverRoute n ∨ s ∈ l).
Proof.
  unfold replaceAllowed. intros -> Hk Ha Hl. rewrite bool_decide_false by done. destruct (FixKey _); [|done]. cbn [mbind go_bind].
  intros [= <-]. eexists. split; [done|]. split; [done|]. intros s. rewrite dev_allow_all by (constructor; [done|by apply subnets_accepted]).
  simpl. by rewrite elem_of_cons.
Qed.

Lemma add_tunnel l n n' : subnets_ok l → tunnel_ok n → subnetsAdd e l n = Ret n' → tunnel_ok n'.
Proof.
  intros Hl Hn. unfold subnetsAdd. destruct l as [|s l]; [by intros [= <-]|]. set (l1 := s :: l) in *. clearbody l1.
  unfold tunnel_ok in *. destruct (n_connected n) eqn:Ec.
  - destruct Hn as (d & Hd & [H1 H2 H3 H4 H5]). rewrite Hd. intros (k & _ & [= <-])%go_bind_Ret. simpl. rewrite Ec.
    eexists. split; [done|]. destruct (allowEach_all e l1 d (subnets_accepted l1 Hl)) as [Hal Hid].
    constructor; simpl; [done|by apply Forall_app|by rewrite Hid|..].
    + intros x. rewrite Hal, !elem_of_app, H4. tauto.
    + intros r. unfold serverRoute in *. simpl. destruct native; [|naive_solver].
      rewrite elem_of_union, elem_of_list_to_set, elem_of_app, H5. tauto.
  - destruct Hn as (Hd & Ho & Hr). rewrite Hd. intros [= <-]. by rewrite Ec.
Qed.

Lemma update_tunnel l n n' : subnets_ok l → tunnel_ok n → subnetsUpdate e l n = Ret n' → tunnel_ok n'.
Proof.
  intros Hl Hn. unfold subnetsUpdate, updateRemoteExitNodeSubnets, tunnel_ok in *. destruct (n_connected n) eqn:Ec.
  - destruct Hn as (d & Hd & [H1 H2 H3 H4 H5]). rewrite Hd. intros (d' & Hrep & [= <-])%go_bind_Ret. simpl. rewrite Ec.
    destruct H1 as (Hip & Hk & Hs & Ha). destruct (replace_match l n d d' Hd Hk Ha Hl Hrep) as (d1 & -> & Hid & Hal).
    exists d1. split; [done|]. constructor; simpl; [done|done|by rewrite Hid|done|].
    intros r. unfold serverRoute in *. simpl. destruct native; [|naive_solver].
    assert (¬ server r ∨ r ∉ l) as Hrl.
    { destruct (decide (r ∈ l)) as [Hin|]; [|by right]. left. by apply (proj1 (Forall_forall _ _) Hl r Hin). }
    assert (server r → r ∉ n_active n) as Hra by (intros Hsr Hin; by apply (proj1 (Forall_forall _ _) H2 r Hin)).
    rewrite elem_of_union, elem_of_difference, !elem_of_list_to_set, !list_elem_of_filter, H5.
    destruct (decide (r ∈ l)), (decide (r ∈ n_active n)); naive_solver.
  - destruct Hn as (Hd & Ho & Hr). rewrite Hd. intros [= <-]. by rewrite Ec.
Qed.

Lemma remove_tunnel l n n' : subnets_ok l → tunnel_ok n → subnetsRemove e l n = Ret n' → tunnel_ok n'.
Proof.
  intros Hl Hn. unfold subnetsRemove. destruct l as [|s l]; [by intros [= <-]|]. set (l1 := s :: l) in *. clearbody l1.
  intros (d' & Hrep & [= <-])%go_bind_Ret. unfold tunnel_ok in *. simpl. destruct (n_connected n) eqn:Ec.
  - destruct Hn as (d & Hd & [H1 H2 H3 H4 H5]). destruct H1 as (Hip & Hk & Hs & Ha).
    assert (subnets_ok (filter (λ x, x ∉ l1) (n_active n))) as Hrem.
    { apply Forall_forall. intros x [_ Hx]%list_elem_of_filter. by apply (proj1 (Forall_forall _ _) H2). }
    destruct (replace_match _ n d d' Hd Hk Ha Hrem Hrep) as (d1 & -> & Hid & Hal).
    exists d1. split; [done|]. constructor; simpl; [done|done|by rewrite Hid|done|].
    intros r. unfold serverRoute in *. simpl. destruct native; [|naive_solver].
    assert (server r → r ∉ l1) as Hrl by (intros Hsr Hin; by apply (proj1 (Forall_forall _ _) Hl r Hin)).
    rewrite elem_of_difference, elem_of_list_to_set, list_elem_of_filter, H5. naive_solver.
  - destruct Hn as (Hd & Ho & Hr). unfold replaceAllowed in Hrep. rewrite Hd in Hrep. injection Hrep as <-.
    split; [done|]. split; [done|]. rewrite Hr. destruct native; [set_solver|done].
Qed.

Lemma parts_tunnel n n' : parts_only n n' → tunnel_ok n → tunnel_ok n'.
Proof. intros [f ->]. by apply tunnel_ok_fields. Qed.

Lemma sync_tunnel d lf g n n' : healthy (MSync d lf g) → tunnel_ok n → handleSync e d lf g n = Ret n' → tunnel_ok n'.
Proof.
  intros Hh Hn. unfold handleSync. destruct (p_pm (n_parts n)); [|by intros [= <-]]. destruct d as [d|]; [|by intros [= <-]].
  destruct (Sync.syncTargets _ _ _ _ _ _) as [pm|]; [|by intros [= <-]]. unfold syncRest. intros (x & Hx & [= <-])%go_bind_Ret.
  apply (tunnel_ok_fields x); [done..|]. eapply update_tunnel; [exact Hh| |exact Hx]. by apply (tunnel_ok_fields n).
Qed.

Lemma handle_tunnel m n n' : healthy m → tunnel_ok n → handle e m n = Ret n' → tunnel_ok n'.
Proof.
  intros Hh Hn. destruct m as [c w|newId| |c nodes newId|newId v|newId|l|l|l|add tcp ts lf|d lf g|cs|ids|i|i|ts g|ids]; cbn [handle].
  - unfold handleConnect. destruct (_ && _); [by intros [= <-]|]. intros (x & Hx & Hset)%go_bind_Ret.
    assert (tunnel_ok x) as Htx by (eapply callStop_tunnel; [exact Hx|]; destruct (bool_decide _); [done|by apply (tunnel_ok_fields n)]).
    apply (setUp_tunnel c w (closeConnected e x)); [exact Hh| |unfold closeConnected; destruct (n_connected x) eqn:E; [by apply close_tunnel|exact Htx]|exact Hset].
    unfold closeConnected. destruct (n_connected x) eqn:E; done.
  - intros (x & Hx & [= <-])%go_bind_Ret. eapply (tunnel_ok_fields x); [done..|]. eapply callStop_tunnel; [exact Hx|]. by apply close_tunnel.
  - intros (x & Hx & [= <-])%go_bind_Ret. apply close_tunnel in Hn. set (y := set_connected false (closeWgTunnel e n)) in *.
    assert (tunnel_ok (on_parts closeClients y)) as Hy by (by apply (tunnel_ok_fields y)).
    assert (callStop (on_parts closeClients y) = Ret (set_connected false x)) as Hx'.
    { unfold callStop in *. simpl in *. destruct (n_stopFunc n); [|by injection Hx as <-]. destruct (bool_decide _); [done|]. by injection Hx as <-. }
    by eapply callStop_tunnel.
  - intros (x & Hx & H')%go_bind_Ret. apply callStop_tunnel in Hx; [|done]. revert H'.
    destruct nodes as [k|]; [|by intros [= <-]]. destruct (_ && _); [by intros [= <-]|].
    destruct (bool_decide (c = "")), (Nat.eqb k 0); intros [= <-]; by apply (tunnel_ok_fields x).
  - unfold onConnect. destruct (n_connected n); [by intros [= <-]|]. intros (x & Hx & [= <-])%go_bind_Ret.
    assert (tunnel_ok x) by (by eapply callStop_tunnel). destruct v; by eapply (tunnel_ok_fields x).
  - intros [= <-]. by apply (tunnel_ok_fields n).
  - by apply add_tunnel.
  - by apply update_tunnel.
  - by apply remove_tunnel.
  - intros [= <-]. by apply (parts_tunnel n); [apply handleTargets_parts|].
  - by apply sync_tunnel.
  - intros [= <-]. by apply (parts_tunnel n); [eexists|].
  - intros [= <-]. by apply (parts_tunnel n); [eexists|].
  - intros [= <-]. by apply (parts_tunnel n); [eexists|].
  - intros [= <-]. by apply (parts_tunnel n); [eexists|].
  - intros [= <-]. by apply (parts_tunnel n); [apply gatewayAdd_parts|].
  - intros [= <-]. by apply (parts_tunnel n); [eexists|].
Qed.

Lemma run_tunnel ms n n' : Forall healthy ms → tunnel_ok n → handleAll e ms n = Ret n' → tunnel_ok n'.
Proof.
  intros Hms. revert n. induction Hms as [|m ms Hm _ IH]; intros n Hn; simpl; [by intros [= <-]|].
  intros (x & Hx & Hrun)%go_bind_Ret. eapply IH; [|exact Hrun]. by eapply handle_tunnel.
Qed.

End subnets.

(** ** Lemmas: the components follow the tunnel *)

Section components.
Context `{MapRange} (e : site).

(** A manager that belongs to the tunnel: its id, its blocking, and targets on
    the tunnel's address only, as [updateTargets] writes them unless a script
    rewrote them. *)
Record pm_ok (wg : WgData) (v : bool) (pm : ProxyManager) : Prop := {
  pmo_id : currentTunnelID pm = wg_PublicKey wg;
  pmo_blocked : blocked pm = v;
  pmo_entries : ∀ pr ip q t, is_proto pr → view pr pm ip q = Some t →
    ip = wg_TunnelIP wg ∧ (e_script e = None → Sync.canonical q t) }.

Lemma parsed_canonical s p t : parseTargetString s = Some (p, t) → Sync.canonical p t.
Proof.
  intros ([p' t'] & Hp & [= <- <-])%bind_Some. destruct (parseTarget_sound _ _ _ Hp) as (Hr & h & q & -> & Hsp & Hh & Hq).
  destruct (split_parts _ _ _ Hsp) as [Hb Hpl]. unfold Sync.canonical, targetStr, parseTargetString.
  rewrite !str_app, str_unstr. change (str ":") with [c_colon]. cbn [app]. by rewrite parseTarget_ok.
Qed.

Lemma remove_keeps pr ip port pm :
  currentTunnelID (pm_RemoveTarget pr ip port pm).1.1 = currentTunnelID pm ∧ blocked (pm_RemoveTarget pr ip port pm).1.1 = blocked pm.
Proof. unfold pm_RemoveTarget. repeat (case_match; try done). Qed.

Lemma startTarget_keeps listenOK pr port t pm :
  currentTunnelID (startTarget listenOK pr port t pm).1 = currentTunnelID pm ∧ blocked (startTarget listenOK pr port t pm).1 = blocked pm.
Proof. unfold startTarget. repeat (case_match; try done). Qed.

Lemma add_keeps listenOK pr ip port t pm :
  currentTunnelID (pm_AddTarget listenOK pr ip port t pm).1 = currentTunnelID pm ∧
  blocked (pm_AddTarget listenOK pr ip port t pm).1 = blocked pm.
Proof.
  unfold pm_AddTarget. destruct (bool_decide _); [|destruct (bool_decide _); [|done]];
    (destruct (running _); [split; (etrans; [apply startTarget_keeps|done])|done]).
Qed.

Lemma pm_ok_remove wg v pr port pm : is_proto pr → pm_ok wg v pm → pm_ok wg v (pm_RemoveTarget pr (wg_TunnelIP wg) port pm).1.1.
Proof.
  intros Hp [H1 H2 H3]. destruct (remove_keeps pr (wg_TunnelIP wg) port pm) as [E1 E2]. constructor; [by rewrite ?E1, ?E2..|].
  intros pr' ip q t Hp'. rewrite remove_view by done. case_decide; [done|]. by apply H3.
Qed.

Lemma pm_ok_add wg v listenOK pr port t pm :
  is_proto pr → (e_script e = None → Sync.canonical port t) → pm_ok wg v pm →
  pm_ok wg v (pm_AddTarget listenOK pr (wg_TunnelIP wg) port t pm).1.
Proof.
  intros Hp Ht [H1 H2 H3]. destruct (add_keeps listenOK pr (wg_TunnelIP wg) port t pm) as [E1 E2]. constructor; [by rewrite ?E1, ?E2..|].
  intros pr' ip q t' Hp'. rewrite add_view by done. case_decide as D; [|by apply H3]. destruct D as (_ & -> & ->). by intros [= <-].
Qed.

Lemma pm_ok_update wg v listenOK action pr ts pm :
  is_proto pr → pm_ok wg v pm → pm_ok wg v (updateTargets (e_script e) listenOK action (wg_TunnelIP wg) pr ts pm).1.
Proof.
  intros Hp. revert pm. induction ts as [|t ts IH]; intros pm Hpm; [done|]. simpl.
  destruct (parseTargetString t) as [[port target]|] eqn:Et; [|by apply IH]. destruct (bool_decide (action = "add"%string)).
  - apply IH, pm_ok_add; [done| |by apply pm_ok_remove]. intros Hs. unfold processTarget. rewrite Hs. by eapply parsed_canonical.
  - destruct (bool_decide _); [|by apply IH]. pose proof (pm_ok_remove wg v pr port pm Hp Hpm) as Hr.
    destruct (pm_RemoveTarget pr (wg_TunnelIP wg) port pm) as [[p1 c] []]; [by apply IH|done..].
Qed.

Lemma pm_ok_sync wg v listenOK tcp udp pm pm' :
  pm_ok wg v pm → Sync.syncTargets (e_script e) listenOK (wg_TunnelIP wg) tcp udp pm = Some pm' → pm_ok wg v pm'.
Proof.
  assert (∀ pr cur des p, is_proto pr → pm_ok wg v p → pm_ok wg v (syncProto (e_script e) listenOK (wg_TunnelIP wg) pr cur des p)) as Hproto.
  { intros pr cur des p Hp Hok. unfold syncProto, Sync.addMissing, Sync.removeStale.
    assert (∀ l p, pm_ok wg v p → pm_ok wg v (foldl (λ p e0, if bool_decide (des !! e0.1 = None)
      then (updateTargets (e_script e) listenOK "remove" (wg_TunnelIP wg) pr [targetStr e0.1 e0.2] p).1 else p) p l)) as Hrm.
    { induction l as [|x l IH]; intros p0 H0; [done|]. cbn [foldl]. apply IH. destruct (bool_decide _); [by apply pm_ok_update|done]. }
    match goal with |- pm_ok _ _ (foldl ?f _ _) => assert (∀ l p, pm_ok wg v p → pm_ok wg v (foldl f p l)) as Hadd; [|apply Hadd; by apply Hrm] end.
    induction l as [|x l IH]; intros p0 H0; [done|]. cbn [foldl]. apply IH.
    destruct (_ !! x.1) as [c|]; [destruct (bool_decide _)|]; [done|by repeat apply pm_ok_update|by apply pm_ok_update]. }
  intros Hok. unfold Sync.syncTargets. destruct (bool_decide _); [done|]. unfold pm_GetTargets. intros [= <-].
  apply Hproto; [by right|]. apply Hproto; [by left|done].
Qed.

Lemma startAll_same listenOK pr ts pm :
  let pm' := (startAll listenOK pr ts pm).1 in
  currentTunnelID pm' = currentTunnelID pm ∧ blocked pm' = blocked pm ∧ ∀ pr', protoTargets pr' pm' = protoTargets pr' pm.
Proof.
  revert pm. induction ts as [|[port t] ts IH]; intros pm; [done|]. simpl.
  pose proof (startTarget_keeps listenOK pr port t pm) as [E1 E2]. pose proof (start_targets listenOK pr port t pm) as E3.
  destruct (startTarget listenOK pr port t pm) as [p1 []]; simpl in *; try done.
  destruct (IH p1) as (-> & -> & E4). split_and!; [done..|]. intros pr'. by rewrite E4.
Qed.

Lemma pm_ok_start wg v listenOK pm : pm_ok wg v pm → pm_ok wg v (Start listenOK pm).1.
Proof.
  intros [H1 H2 H3].
  assert (∀ p', currentTunnelID p' = currentTunnelID pm → blocked p' = blocked pm →
    (∀ pr', protoTargets pr' p' = protoTargets pr' pm) → pm_ok wg v p') as Hsame.
  { intros p' E1 E2 E3. constructor; [by rewrite E1|by rewrite E2|]. unfold view. intros pr ip q t. rewrite E3. apply H3. }
  unfold Start. destruct (running pm); [by apply Hsame|].
  destruct (startAll_same listenOK "tcp" (rangeTargets (tcpTargets pm)) pm) as (E1 & E2 & E3).
  destruct (startAll listenOK "tcp" _ pm) as [p1 []]; simpl in *; try by apply Hsame.
  destruct (startAll_same listenOK "udp" (rangeTargets (udpTargets p1)) p1) as (F1 & F2 & F3).
  destruct (startAll listenOK "udp" _ p1) as [p2 r2]. simpl in *.
  assert (∀ pr', protoTargets pr' p2 = protoTargets pr' pm) as E by (intros pr'; by rewrite F3).
  destruct r2; simpl; (apply Hsame; simpl; [by rewrite F1|by rewrite F2|exact E]).
Qed.

Lemma newManager_pm_ok wg v pm : newManager e wg v = Ret pm → pm_ok wg v pm.
Proof.
  destruct (newManager_ok e wg v) as (pm' & -> & E1 & E2 & E3 & E4 & _). intros [= <-]. constructor; [done..|].
  intros pr ip q t Hp. unfold view, protoTargets, lookupTarget. destruct Hp as [-> | ->]; simpl; by rewrite ?E3, ?E4, lookup_empty.
Qed.

Record parts_ok (n : Newt) : Prop := {
  po_pm : is_Some (p_pm (n_parts n)) ↔ n_connected n = true;
  po_pm_ok : ∀ pm, p_pm (n_parts n) = Some pm → pm_ok (n_wgData n) (n_blocked n) pm;
  po_dev : n_connected n = true → is_Some (n_dev n);
  po_pinging : p_pinging (n_parts n) = n_connected n;
  po_gateway : e_native e = false → is_Some (p_gateway (n_parts n)) → n_tnet n = true;
  po_health : monitor_wf (p_health (n_parts n)) }.

Lemma parts_ok_fields n n' :
  n_connected n' = n_connected n → n_parts n' = n_parts n → n_wgData n' = n_wgData n → n_blocked n' = n_blocked n →
  n_tnet n' = n_tnet n → (is_Some (n_dev n) → is_Some (n_dev n')) → parts_ok n → parts_ok n'.
Proof. intros E1 E2 E3 E4 E5 E6 []. constructor; rewrite ?E1, ?E2, ?E3, ?E4, ?E5; auto. Qed.

Lemma callStop_parts n n' : callStop n = Ret n' → parts_ok n → parts_ok n'.
Proof.
  unfold callStop. destruct (n_stopFunc n); [|by intros [= <-]]. destruct (bool_decide _); [done|]. intros [= <-].
  by apply parts_ok_fields.
Qed.

(** What the invariant reads of the components; calls on the client service
    change none of it. *)
Definition core_parts (p : parts) := (p_pinging p, p_pm p, p_gateway p, p_health p).

Lemma parts_ok_core f n : core_parts (f (n_parts n)) = core_parts (n_parts n) → parts_ok n → parts_ok (on_parts f n).
Proof. intros [= E1 E2 E3 E4] []. constructor; simpl; rewrite ?E1, ?E2, ?E3, ?E4; done. Qed.

Lemma svc_core c p : core_parts (svc c p) = core_parts p.
Proof. unfold svc. by destruct (p_service p). Qed.
Lemma closeClients_core p : core_parts (closeClients p) = core_parts p.
Proof. unfold closeClients. by destruct (p_service p). Qed.
Lemma holepunch_core k ep r p : core_parts (clientsHandleNewtConnection k ep r p) = core_parts p.
Proof. unfold clientsHandleNewtConnection. destruct (negb _); [done|]. destruct (rcut _ _) as [[]|]; [apply svc_core|done]. Qed.
Lemma relay_core ip p : core_parts (clientsStartDirectRelay ip p) = core_parts p.
Proof. unfold clientsStartDirectRelay. destruct (p_ready p); [apply svc_core|done]. Qed.
Lemma onConnect_core p : core_parts (clientsOnConnect p) = core_parts p.
Proof. unfold clientsOnConnect. destruct (p_ready p); [apply svc_core|done]. Qed.

Lemma onHealth_eq op p :
  onHealth op p = mkParts (p_pinging p) (p_pm p) (p_leaked p) (op (p_health p)).1 (p_hcEvents p ++ (op (p_health p)).2)
                    (p_gateway p) (p_service p) (p_ready p) (p_calls p).
Proof. unfold onHealth. by destruct (op (p_health p)). Qed.

Lemma parts_ok_health op n :
  (∀ m, monitor_wf m → monitor_wf (op m).1) → parts_ok n → parts_ok (on_parts (onHealth op) n).
Proof.
  intros Hop [H1 H2 H3 H4 H5 H6]. apply Hop in H6. unfold on_parts. rewrite onHealth_eq. by constructor.
Qed.

Lemma close_parts n : monitor_wf (p_health (n_parts n)) → parts_ok (set_connected false (closeWgTunnel e n)).
Proof. intros Hm. constructor; simpl; [by rewrite <- not_eq_None_Some|done..]. Qed.

Lemma gateway_parts n g :
  (e_native e = false → is_Some g → n_tnet n = true) → parts_ok n → parts_ok (on_parts (set_gateway g) n).
Proof. intros Hg []. constructor; simpl; done. Qed.

(** Starting the gateway, if it can be. *)
Lemma startGateway_eq tnet l p p' :
  startBrowserGateway e tnet l p = Some p' →
  p' = set_gateway (p_gateway p') p ∧ (is_Some (p_gateway p) ∨ tnet = true ∨ e_native e = true) ∧ is_Some (p_gateway p').
Proof.
  unfold startBrowserGateway. destruct (p_gateway p) eqn:E; [intros [= <-]; rewrite E; split_and!; [by destruct p; simpl in *; subst|by left|done]|].
  destruct tnet, (e_native e); simpl; try done; destruct l; try done; intros [= <-]; simpl; split_and!; auto; by eexists.
Qed.

Lemma connectParts_ok w wg v tnet pm p :
  monitor_wf (p_health p) → pm_ok wg v pm →
  let p' := connectParts e w wg tnet pm p in
  (∃ pm', p_pm p' = Some pm' ∧ pm_ok wg v pm') ∧ p_pinging p' = true ∧ monitor_wf (p_health p').
Proof.
  intros Hm Hpm. cbn zeta. unfold connectParts. set (p1 := if e_native e then p else _).
  assert (core_parts p1 = core_parts p) as Hp1 by (unfold p1; destruct (e_native e); [done|apply relay_core]).
  injection Hp1 as _ _ _ Eh. set (pm1 := (updateTargets _ _ _ _ _ _ _).1).
  assert (pm_ok wg v (Start (cw_listen w) pm1).1) as Hpm1.
  { apply pm_ok_start. unfold pm1. apply pm_ok_update; [by right|]. apply pm_ok_update; [by left|done]. }
  rewrite onHealth_eq. set (h := (AddTargets (wg_HealthCheckTargets wg) (p_health p1))).
  assert (monitor_wf h.1) as Hh by (unfold h; rewrite Eh; apply (runOp_ok (OAddAll (wg_HealthCheckTargets wg)) _ Hm)).
  destruct (wg_BrowserGatewayTargets wg) as [|t ts]; simpl; [split_and!; [by eexists|done..]|].
  match goal with |- context [startBrowserGateway e tnet ?l ?p0] => destruct (startBrowserGateway e tnet l p0) as [p2|] eqn:E end; simpl.
  - apply startGateway_eq in E as (-> & _). simpl in *. split_and!; [by eexists|done..].
  - split_and!; [by eexists|done..].
Qed.

Lemma finish_parts w ep d n n' :
  monitor_wf (p_health (n_parts n)) → (e_native e = false → n_tnet n = true) → finishTunnel e w ep d n = Ret n' → parts_ok n'.
Proof.
  intros Hm Ht. unfold finishTunnel. intros (k & _ & (pm & Epm & [= <-])%go_bind_Ret)%go_bind_Ret. apply newManager_pm_ok in Epm.
  pose proof (holepunch_core (wg_PublicKey (n_wgData n)) ep (if wg_RelayPort (n_wgData n) =? 0 then 21820 else wg_RelayPort (n_wgData n)) (n_parts n)) as Ep.
  set (q := clientsHandleNewtConnection _ _ _ (n_parts n)) in *. injection Ep as _ _ _ Eh.
  destruct (connectParts_ok w (n_wgData n) (n_blocked n) (n_tnet n) pm q) as ((pm' & Ep' & Hpm') & Hp2 & Hm2); [by rewrite Eh|done|].
  constructor; cbn; fold q; [by rewrite Ep'|by rewrite Ep'; intros ? [= <-]|by eexists|done|by intros ?%Ht|done].
Qed.

Lemma setUp_parts w n n' : parts_ok n → n_connected n = false → setUpTunnel e w n = Ret n' → parts_ok n'.
Proof.
  intros Hok Hc. unfold setUpTunnel. destruct (cw_message w) as [m|]; [|by intros [= <-]].
  assert (p_pm (n_parts n) = None) as Hpm.
  { destruct (p_pm (n_parts n)) eqn:E; [|done]. assert (n_connected n = true); [apply (po_pm n Hok); rewrite E; by eexists|congruence]. }
  assert (p_pinging (n_parts n) = false) as Hping by (by rewrite (po_pinging n Hok)).
  pose proof (po_health n Hok) as Hh. pose proof (po_gateway n Hok) as Hg.
  assert (∀ x, n_connected x = false → core_parts (n_parts x) = core_parts (n_parts n) →
    (e_native e = false → n_tnet n = true → n_tnet x = true) → parts_ok x) as Hidle.
  { intros x Hx [= E1 E2 E3 E4] Ht. constructor; rewrite ?Hx, ?E1, ?E2, ?E3, ?E4, ?Hpm, ?Hping; try done; auto. }
  set (n2 := set_wgData _ n). destruct (_ && _); [intros [= <-]; by apply Hidle|]. destruct (_ && _); [done|].
  set (n3 := set_tunnel _ _ _ _ _ _ (on_parts _ n2)).
  assert (core_parts (n_parts n3) = core_parts (n_parts n)) as E3 by (unfold n3; simpl; apply svc_core).
  assert (e_native e = false → n_tnet n3 = true) as Ht3 by (intros Hn; simpl; by rewrite Hn).
  destruct (SplitHostPort _); [|intros [= <-]; apply Hidle; auto]. destruct (resolveWith _ _) as [ep|]; [|intros [= <-]; apply Hidle; auto].
  apply finish_parts; [|done]. injection E3 as _ _ _ Eh. simpl. congruence.
Qed.

Lemma subnets_parts n n' : (∃ d act rts, n' = set_tunnel d (n_tnet n) act rts (n_open n) (n_next n) n ∧ (is_Some (n_dev n) → is_Some d)) →
  parts_ok n → parts_ok n'.
Proof. intros (d & act & rts & -> & Hd). by apply parts_ok_fields. Qed.

Lemma replaceAllowed_dev l n d : replaceAllowed e l n = Ret d → is_Some (n_dev n) → is_Some d.
Proof.
  unfold replaceAllowed. destruct (n_dev n); [|by intros _ []]. destruct (bool_decide _); [intros [= <-]; by eexists|].
  intros (k & _ & [= <-])%go_bind_Ret _. by eexists.
Qed.

Lemma update_parts l n n' : parts_ok n → subnetsUpdate e l n = Ret n' → parts_ok n'.
Proof.
  intros Hok. unfold subnetsUpdate, updateRemoteExitNodeSubnets. destruct (n_dev n) as [d|] eqn:Ed; [|by intros [= <-]].
  intros (d' & Hr & [= <-])%go_bind_Ret. eapply subnets_parts; [|done]. eexists _, _, _. split; [done|]. by eapply replaceAllowed_dev.
Qed.

Lemma add_parts l n n' : parts_ok n → subnetsAdd e l n = Ret n' → parts_ok n'.
Proof.
  intros Hok. unfold subnetsAdd. destruct l; [by intros [= <-]|]. destruct (n_dev n) as [d|] eqn:Ed; [|by intros [= <-]].
  intros (k & _ & [= <-])%go_bind_Ret. eapply subnets_parts; [|done]. eexists _, _, _. split; [done|]. by eexists.
Qed.

Lemma remove_parts l n n' : parts_ok n → subnetsRemove e l n = Ret n' → parts_ok n'.
Proof.
  intros Hok. unfold subnetsRemove. destruct l; [by intros [= <-]|].
  intros (d' & Hr & [= <-])%go_bind_Ret. eapply subnets_parts; [|done]. eexists _, _, _. split; [done|]. by eapply replaceAllowed_dev.
Qed.

(** Replacing the manager by one that belongs to the same tunnel. *)
Lemma manager_parts pm pm' n :
  p_pm (n_parts n) = Some pm → (pm_ok (n_wgData n) (n_blocked n) pm → pm_ok (n_wgData n) (n_blocked n) pm') → parts_ok n →
  parts_ok (on_parts (λ p, set_pm (Some pm') (p_leaked p) p) n).
Proof.
  intros Hpm Hok [H1 H2 H3 H4 H5 H6]. constructor; simpl; try done; [|intros ? [= <-]; auto].
  rewrite <- H1, Hpm. done.
Qed.

Lemma targets_parts add tcp ts lf n : parts_ok n → parts_ok (handleTargets e add tcp ts lf n).
Proof.
  intros Hok. unfold handleTargets. destruct (p_pm (n_parts n)) as [pm|] eqn:Epm; [|done]. destruct ts; [|done].
  destruct (bool_decide _); [done|]. eapply manager_parts; [done| |done]. apply pm_ok_update. destruct tcp; [by left|by right].
Qed.

Lemma syncGateway_parts l ts n : parts_ok n → parts_ok (on_parts (syncBrowserGatewayTargets e (n_tnet n) l ts) n).
Proof.
  intros Hok. unfold syncBrowserGatewayTargets, on_parts. destruct ts as [|t ts].
  - destruct (p_gateway (n_parts n)) eqn:E; [|by destruct n]. apply (gateway_parts n); [|done]. intros Hn _. apply (po_gateway n Hok Hn). by rewrite E.
  - destruct (startBrowserGateway _ _ _ _) as [p|] eqn:E; [|by destruct n]. apply startGateway_eq in E as (-> & Hor & _).
    apply (gateway_parts n); [|done]. intros Hn _. destruct Hor as [?|[?|?]]; [by apply (po_gateway n Hok)|done|congruence].
Qed.

Lemma gatewayAdd_ok ts l n : parts_ok n → parts_ok (gatewayAdd e ts l n).
Proof.
  intros Hok. unfold gatewayAdd, on_parts. destruct ts as [|t ts]; [done|].
  destruct (startBrowserGateway _ _ _ _) as [p|] eqn:E; [|done]. apply startGateway_eq in E as (-> & Hor & _).
  apply (gateway_parts n); [|done]. intros Hn _. destruct Hor as [?|[?|?]]; [by apply (po_gateway n Hok)|done|congruence].
Qed.

Lemma sync_parts d lf g n n' : parts_ok n → handleSync e d lf g n = Ret n' → parts_ok n'.
Proof.
  intros Hok. unfold handleSync. destruct (p_pm (n_parts n)) as [pm|] eqn:Epm; [|by intros [= <-]]. destruct d as [d|]; [|by intros [= <-]].
  destruct (Sync.syncTargets _ _ _ _ _ _) as [pm'|] eqn:Es; [|by intros [= <-]]. unfold syncRest.
  intros (x & Hx & [= <-])%go_bind_Ret. apply parts_ok_health; [intros m Hm; apply (runOp_ok (OSync (sd_HealthCheckTargets d)) m Hm)|].
  apply (syncGateway_parts g _ (on_parts _ x)). apply parts_ok_core; [by rewrite !svc_core|]. eapply update_parts; [|exact Hx].
  eapply manager_parts; [exact Epm| |done]. intros Hpm. by eapply pm_ok_sync.
Qed.

Lemma close_idle n : parts_ok n → let x := closeConnected e n in
  parts_ok x ∧ n_connected x = false.
Proof.
  intros Hok. unfold closeConnected. destruct (n_connected n) eqn:E; [|done]. split; [|done]. apply close_parts, (po_health n Hok).
Qed.

Lemma handle_parts m n n' : parts_ok n → handle e m n = Ret n' → parts_ok n'.
Proof.
  intros Hn. destruct m as [c w|newId| |c nodes newId|newId v|newId|l|l|l|add tcp ts lf|d lf g|cs|ids|i|i|ts g|ids]; cbn [handle].
  - unfold handleConnect. destruct (_ && _); [by intros [= <-]|]. intros (x & Hx & Hset)%go_bind_Ret.
    assert (parts_ok x) as Htx by (eapply callStop_parts; [exact Hx|]; destruct (bool_decide _); [done|by apply (parts_ok_fields n)]).
    destruct (close_idle x Htx) as [Hok Hc]. by eapply setUp_parts.
  - intros (x & Hx & [= <-])%go_bind_Ret. eapply (parts_ok_fields x); [done..|]. eapply callStop_parts; [exact Hx|].
    apply close_parts, (po_health n Hn).
  - intros (x & Hx & [= <-])%go_bind_Ret. set (y := on_parts closeClients (set_connected false (closeWgTunnel e n))).
    assert (parts_ok y) as Hy by (apply parts_ok_core; [apply closeClients_core|]; apply close_parts, (po_health n Hn)).
    assert (callStop y = Ret (set_connected false x)) as Hx'.
    { unfold callStop in *. simpl in *. destruct (n_stopFunc n); [|by injection Hx as <-]. destruct (bool_decide _); [done|]. by injection Hx as <-. }
    by eapply callStop_parts.
  - intros (x & Hx & H')%go_bind_Ret. apply callStop_parts in Hx; [|done]. revert H'.
    destruct nodes as [k|]; [|by intros [= <-]]. destruct (_ && _); [by intros [= <-]|].
    destruct (bool_decide (c = "")), (Nat.eqb k 0); intros [= <-]; by apply (parts_ok_fields x).
  - unfold onConnect. destruct (n_connected n); [by intros [= <-]|]. intros (x & Hx & [= <-])%go_bind_Ret.
    assert (parts_ok x) by (by eapply callStop_parts). set (y := startRequest _ _ _).
    assert (parts_ok y) by (by eapply (parts_ok_fields x)). destruct v; [|done]. apply parts_ok_core; [apply onConnect_core|done].
  - intros [= <-]. by apply (parts_ok_fields n).
  - by apply add_parts.
  - by apply update_parts.
  - by apply remove_parts.
  - intros [= <-]. by apply targets_parts.
  - by apply sync_parts.
  - intros [= <-]. apply parts_ok_health; [|done]. intros m Hm. apply (runOp_ok (OAddAll cs) m Hm).
  - intros [= <-]. apply parts_ok_health; [|done]. intros m Hm. apply (runOp_ok (ORemoveAll ids) m Hm).
  - intros [= <-]. apply parts_ok_health; [|done]. intros m Hm. apply (runOp_ok (OEnable i) m Hm).
  - intros [= <-]. apply parts_ok_health; [|done]. intros m Hm. apply (runOp_ok (ODisable i) m Hm).
  - intros [= <-]. by apply gatewayAdd_ok.
  - intros [= <-]. apply (gateway_parts n); [|done]. intros Hnat Hs. apply (po_gateway n Hn Hnat). by destruct (p_gateway (n_parts n)); [|destruct Hs].
Qed.

Lemma run_parts ms n n' : parts_ok n → handleAll e ms n = Ret n' → parts_ok n'.
Proof.
  revert n. induction ms as [|m ms IH]; intros n Hn; simpl; [by intros [= <-]|].
  intros (x & Hx & Hrun)%go_bind_Ret. eapply IH; [|exact Hrun]. by eapply handle_parts.
Qed.

Lemma started_parts c x : parts_ok (started c x).
Proof. constructor; simpl; done. Qed.

(** The gateway's list after a sync. *)
Lemma syncGateway_list tnet l ts p :
  let p' := syncBrowserGatewayTargets e tnet l ts p in
  (is_Some (p_gateway p') → p_gateway p' = Some (gw_SetTargets ts)) ∧
  p_health p' = p_health p ∧ p_calls p' = p_calls p ∧ p_pm p' = p_pm p.
Proof.
  cbn zeta. unfold syncBrowserGatewayTargets. destruct ts as [|t ts].
  - destruct (p_gateway p) eqn:E; [done|]. split_and!; [rewrite E; by intros [? [=]]|done..].
  - destruct (startBrowserGateway e tnet l p) as [p1|] eqn:E.
    + by apply startGateway_eq in E as (-> & _).
    + split_and!; [|done..]. unfold startBrowserGateway in E. destruct (p_gateway p); [done|by intros [? [=]]].
Qed.

Lemma svc_calls c p : p_calls (svc c p) = p_calls p ++ (if p_service p then [c] else []) ∧ p_service (svc c p) = p_service p.
Proof. unfold svc. destruct (p_service p) eqn:E; simpl; [done|]. by rewrite app_nil_r. Qed.

Lemma subnetsUpdate_effect l n n' :
  is_Some (n_dev n) → subnetsUpdate e l n = Ret n' → n_active n' = l ∧ n_parts n' = n_parts n.
Proof.
  unfold subnetsUpdate, updateRemoteExitNodeSubnets. intros [d ->]. by intros (d' & _ & [= <-])%go_bind_Ret.
Qed.

Lemma sync_effect n d listenOK listens :
  parts_ok n → req_ok n → key_ok n → e_script e = None → wg_TunnelIP (n_wgData n) ≠ "" →
  (∀ q t, desiredTargets (sd_TCP d) !! q = Some t ∨ desiredTargets (sd_UDP d) !! q = Some t → Sync.canonical q t) →
  (n_connected n = false → handleSync e (Some d) listenOK listens n = Ret n) ∧
  (n_connected n = true → ∃ n' pm', handleSync e (Some d) listenOK listens n = Ret n' ∧ p_pm (n_parts n') = Some pm' ∧
     (∀ q, view "tcp" pm' (wg_TunnelIP (n_wgData n)) q = desiredTargets (sd_TCP d) !! q) ∧
     (∀ q, view "udp" pm' (wg_TunnelIP (n_wgData n)) q = desiredTargets (sd_UDP d) !! q) ∧
     n_active n' = sd_RemoteExitNodeSubnets d ∧
     (∀ id, is_Some (targets (p_health (n_parts n')) !! id) ↔ is_Some (lastConfig (sd_HealthCheckTargets d) id)) ∧
     (is_Some (p_gateway (n_parts n')) → p_gateway (n_parts n') = Some (gw_SetTargets (sd_BrowserGatewayTargets d))) ∧
     p_calls (n_parts n') = p_calls (n_parts n) ++
       (if p_service (n_parts n) then [SvcSetCerts (sd_Certs d); SvcSync (sd_Peers d) (sd_ClientTargets d)] else [])).
Proof.
  intros Hok Hreq Hkey Hscript Hip Hdes. destruct Hok as [H1 H2 H3 _ _ H6]. unfold handleSync. split.
  { intros Hc. destruct (p_pm (n_parts n)); [|done]. assert (n_connected n = true) by (apply H1; by eexists). congruence. }
  intros Hc. destruct (proj2 H1 Hc) as [pm Epm]. rewrite Epm. destruct (H2 pm Epm) as [_ _ Hent].
  destruct (syncTargets_spec listenOK (wg_TunnelIP (n_wgData n)) (sd_TCP d) (sd_UDP d) pm Hip) as (pm' & Es & Htcp & Hudp & _);
    [intros pr q t Hp Hv; by apply (Hent pr _ q t Hp Hv)|done|]. rewrite Hscript, Es. unfold syncRest.
  set (n1 := on_parts _ n). assert (req_ok n1) as Hreq1 by (destruct (same_requests_ok n n1 ltac:(by apply same_refl)); auto).
  destruct (subnetsUpdate_safe e (sd_RemoteExitNodeSubnets d) n1 Hreq1 Hkey) as (n2 & E2 & _). rewrite E2. cbn [mbind go_bind].
  destruct (subnetsUpdate_effect _ n1 n2 (H3 Hc) E2) as [Eact Eparts].
  set (q := λ p, svc (SvcSync _ _) _). destruct (syncGateway_list (n_tnet (on_parts q n2)) listens (sd_BrowserGatewayTargets d) (q (n_parts n2))) as (G1 & G2 & G3 & G4).
  eexists _, pm'. split; [done|]. cbn -[q syncBrowserGatewayTargets SyncTargets onHealth]. rewrite onHealth_eq.
  cbn -[q syncBrowserGatewayTargets SyncTargets]. simpl n_tnet in *. rewrite G2, G3, G4.
  assert (core_parts (q (n_parts n2)) = core_parts (n_parts n1)) as Ecore by (unfold q; rewrite !svc_core, Eparts; done).
  injection Ecore as _ Eq1 _ Eq2. rewrite Eq1, Eq2. split_and!; [done|done|done|done| |done|].
  - intros id. apply (SyncTargets_spec (sd_HealthCheckTargets d) (p_health (n_parts n)) H6).
  - unfold q. destruct (svc_calls (SvcSetCerts (sd_Certs d)) (n_parts n2)) as [C1 C2].
    destruct (svc_calls (SvcSync (sd_Peers d) (sd_ClientTargets d)) (svc (SvcSetCerts (sd_Certs d)) (n_parts n2))) as [C3 _].
    rewrite C3, C1, C2, Eparts, <- app_assoc. simpl. by destruct (p_service (n_parts n)).
Qed.

End components.

Lemma run_safe `{MapRange} e ms n :
  Forall (readable e) ms → req_ok n → key_ok n → safe_to (existsb is_recover ms) n (handleAll e ms n).
Proof.
  intros Hms. revert n. induction Hms as [|m ms Hm _ IH]; intros n Hok Hk; simpl; [by apply safe_same; by_same|].
  destruct (handle_safe e m n Hm Hok Hk) as (n1 & -> & Hok1 & Hk1 & Hs1). cbn [mbind go_bind].
  destruct (IH n1 Hok1 Hk1) as (n' & Hn' & Hok' & Hk' & Hs'). exists n'. split_and!; [done..|].
  intros [Hr Hrs]%orb_false_iff Hsi. auto.
Qed.

Lemma started_ok c x : req_ok (started c x) ∧ key_ok (started c x) ∧ single (started c x).
Proof.
  split_and!; [constructor; simpl; set_solver|by vm_compute|]. intros i [[r Hr] _]. simpl in Hr. by rewrite lookup_empty in Hr.
Qed.

(** ** Properties *)


(** Remote subnets stay in step.  Over any run in which connections can be
    set up and WireGuard accepts the subnets: while connected, the addresses
    allowed for the server's peer are exactly the server's address and the
    active remote subnets, and with a native interface so are the routes; one
    device is open.  While not connected there are no routes and no device is
    left open. *)
Theorem subnets_in_step `{MapRange} e (server : string → Prop) clients enforce ms n :
  Forall (healthy e server) ms → handleAll e ms (started clients enforce) = Ret n →
  if n_connected n then
    ∃ d, n_dev n = Some d ∧ n_open n = {[dv_id d]} ∧
      (∀ s, s ∈ dv_allowed d ↔ s = serverRoute n ∨ s ∈ n_active n) ∧
      (∀ r, r ∈ n_routes n ↔ e_native e = true ∧ (r = serverRoute n ∨ r ∈ n_active n))
  else n_dev n = None ∧ n_open n = ∅ ∧ n_routes n = ∅.
Proof.
  intros Hms Hrun. assert (tunnel_ok e server (started clients enforce)) as H0 by done.
  pose proof (run_tunnel e server ms _ n Hms H0 Hrun) as Ht. unfold tunnel_ok in Ht.
  destruct (n_connected n); [|done]. destruct Ht as (d & Hd & [_ _ H3 H4 H5]). by exists d.
Qed.

(** Answers are taken once.  A connect message for another registration
    than the pending one changes nothing; one that is taken clears the pending
    id, so the same answer a second time changes nothing; and an exit node
    list for another request than the pending one starts no registration, but
    the request being repeated has been stopped by then. *)
Theorem chain_ids `{MapRange} e chainId w n :
  chainId ≠ "" →
  (chainId ≠ n_pendingRegister n → handleConnect e chainId w n = Ret n) ∧
  (∀ n' w', handleConnect e chainId w n = Ret n' → handleConnect e chainId w' n' = Ret n') ∧
  (∀ nodes newId, chainId ≠ n_pendingPing n → handleExitNodes chainId nodes newId n = callStop n).
Proof.
  intros Hc. assert (bool_decide (chainId = "") = false) as Eb by (by apply bool_decide_eq_false).
  assert (∀ n w, chainId ≠ n_pendingRegister n → handleConnect e chainId w n = Ret n) as Hstale.
  { intros m w0 Hp. unfold handleConnect. by rewrite Eb, (bool_decide_false _ Hp). }
  split_and!; [apply Hstale| |].
  - intros n' w' Hn'. apply Hstale. destruct (decide (chainId = n_pendingRegister n)) as [Hp|Hp].
    + unfold handleConnect in Hn'. rewrite Eb, (bool_decide_true _ Hp) in Hn'. cbn [negb andb] in Hn'.
      apply go_bind_Ret in Hn' as (x & Hx & Hset). apply setUp_pending in Hset. rewrite Hset.
      unfold closeConnected. assert (n_pendingRegister x = "") as Hxp by (apply callStop_pending in Hx; by rewrite Hx).
      destruct (n_connected x); simpl; by rewrite Hxp.
    + rewrite Hstale in Hn' by done. by injection Hn' as <-.
  - intros nodes newId Hp. unfold handleExitNodes. destruct (callStop n) as [x|] eqn:Ex; [|done]. cbn [mbind go_bind].
    destruct nodes as [k|]; [|done]. apply callStop_ping in Ex. rewrite Eb, Ex, (bool_decide_false _ Hp). done.
Qed.

(** The components follow the tunnel.  After any messages: there is a proxy
    manager, a device and a running ping check exactly while the site is
    connected; the manager is labelled with the tunnel's key, blocks when the
    site does, and its targets are on the tunnel's address only, written so
    that a later removal finds them unless a script rewrote them; without a
    native interface a browser gateway needs a netstack; and the health monitor
    is well formed. *)
Theorem components_follow_tunnel `{MapRange} e clients enforce ms n :
  handleAll e ms (started clients enforce) = Ret n →
  (is_Some (p_pm (n_parts n)) ↔ n_connected n = true) ∧ (n_connected n = true → is_Some (n_dev n)) ∧
  p_pinging (n_parts n) = n_connected n ∧
  (∀ pm, p_pm (n_parts n) = Some pm →
     currentTunnelID pm = wg_PublicKey (n_wgData n) ∧ blocked pm = n_blocked n ∧
     ∀ pr ip q t, is_proto pr → view pr pm ip q = Some t →
       ip = wg_TunnelIP (n_wgData n) ∧ (e_script e = None → parseTargetString (targetStr q t) = Some (q, t))) ∧
  (e_native e = false → is_Some (p_gateway (n_parts n)) → n_tnet n = true) ∧ monitor_wf (p_health (n_parts n)).
Proof.
  intros Hrun. destruct (run_parts e ms _ n (started_parts e clients enforce) Hrun) as [H1 H2 H3 H4 H5 H6].
  split_and!; [done..| |done|done]. intros pm Hpm. by destruct (H2 pm Hpm).
Qed.


(** ** Examples *)

Module NewtExamples.

#[local] Existing Instance canonical_range.

Definition all (_ : string) : bool := true.
Definition site1 (native : bool) : site := mkSite native "9.9.9.9" false 0 None all.
Definition is_server (s : string) : Prop := s = "100.89.0.1/32"%string.
Definition key : string := "AAEC/wA=".
Definition msg (l : list string) : WgMessage :=
  mkWgMsg (Some "gw.example:51820") None (Some key) (Some "100.89.0.1") (Some "100.89.0.2")
    (Some ["80:10.0.0.1:8080"]) None None (Some [mkGwTarget 1 "ssh" "10.0.0.2" 22 "t"]) (Some l).
Definition world (l : list string) : connectWorld := mkCW (Some (msg l)) true (λ _, Some [Addr4 3325256711]) (λ _ _, true) true.

Definition session : list message :=
  [MOnConnect "p1" true; MExitNodes "p1" (Some 2%nat) "r1"; MConnect "r1" (world ["10.1.0.0/16"]);
   MSubnetsAdd ["10.2.0.0/16"]; MConnect "r1" (world []); MSubnetsRemove ["10.1.0.0/16"];
   MTargets true false (Some ["53:10.0.0.3:53"]) (λ _ _, true)]%string.

Definition start : Newt := started true false.
Definition final : Newt := match handleAll (site1 true) session start with Ret n => n | Panic => start end.

(** The calls on the client service, in order. *)
Example session_calls :
  p_calls (n_parts final) =
    [SvcLoadRemoteConfig; SvcSetOthertnet false; SvcStartHolepunch key "198.51.100.7" 21820] ∧
  (λ pm, (view "tcp" pm "100.89.0.2" 80, view "udp" pm "100.89.0.2" 53, length (listeners pm))) <$> p_pm (n_parts final) =
    Some (Some "10.0.0.1:8080", Some "10.0.0.3:53", 1%nat)%string.
Proof. vm_compute. auto. Qed.

Lemma other_subnets b l : forallb (λ s, negb (bool_decide (s = "100.89.0.1/32"%string))) l = true → subnets_ok (site1 b) is_server l.
Proof.
  rewrite forallb_forall. intros Hl. apply Forall_forall. intros s Hs%list_elem_of_In. specialize (Hl s Hs).
  apply negb_true_iff, bool_decide_eq_false in Hl. by split.
Qed.

Lemma world_healthy b c l : subnets_ok (site1 b) is_server l → healthy (site1 b) is_server (MConnect c (world l)).
Proof.
  intros Hl m [= <-]. split; [done|]. split; [eexists; split; [done|split; by eexists]|].
  eexists _, _, l. by split_and!.
Qed.

Lemma session_healthy : Forall (healthy (site1 true) is_server) session.
Proof. repeat (apply Forall_cons_2; [first [done | by apply world_healthy, other_subnets | by apply other_subnets]|]). constructor. Qed.

Lemma subnets_in_step_witness :
  n_connected final = true ∧ ∃ d, n_dev final = Some d ∧
    (∀ s, s ∈ dv_allowed d ↔ s = serverRoute final ∨ s ∈ n_active final).
Proof.
  assert (n_connected final = true) as Hc by (vm_compute; reflexivity). split; [exact Hc|].
  assert (handleAll (site1 true) session start = Ret final) as Hrun by (vm_compute; reflexivity).
  pose proof (subnets_in_step (site1 true) is_server true false session final session_healthy Hrun) as H. rewrite Hc in H.
  destruct H as (d & Hd & _ & Ha & _). exists d. split; [exact Hd|exact Ha].
Defined.


Lemma chain_ids_witness : handleConnect (site1 true) "old" (world []) final = Ret final.
Proof.
  assert ("old"%string ≠ n_pendingRegister final) as H by (vm_compute; discriminate).
  exact (proj1 (chain_ids (site1 true) "old" (world []) final ltac:(discriminate)) H).
Defined.

Lemma session_readable : Forall (readable (site1 true)) session.
Proof.
  repeat (apply Forall_cons_2; [first [exact I | intros m [= <-]; split; [|discriminate]; eexists; split; [reflexivity|discriminate]]|]).
  constructor.
Qed.

Lemma components_follow_tunnel_witness :
  is_Some (p_pm (n_parts final)) ∧ p_pinging (n_parts final) = true ∧ monitor_wf (p_health (n_parts final)).
Proof.
  assert (handleAll (site1 true) session start = Ret final) as Hrun by (vm_compute; reflexivity).
  destruct (components_follow_tunnel (site1 true) true false session final Hrun) as (Hpm & _ & Hping & _ & _ & Hh).
  split; [|split; [|exact Hh]]; [apply Hpm|rewrite Hping]; vm_compute; reflexivity.
Defined.

(** Another port, another subnet, a health check and another gateway target. *)
Definition desired : SyncData :=
  mkSyncData ["81:10.0.0.1:8080"]%string [] [] ["10.3.0.0/16"]%string [] [] [] [mkGwTarget 2 "vnc" "10.0.0.4" 5900 "u"].


(** With a native interface the gateway is started without a tunnel, on every
    address of the host. *)
Example gateway_without_tunnel :
  match handleAll (site1 true) [MGatewayAdd [mkGwTarget 1 "ssh" "10.0.0.2" 22 "t"] true] start with
  | Ret n => n_connected n = false ∧ wg_TunnelIP (n_wgData n) = ""%string ∧ is_Some (p_gateway (n_parts n))
  | Panic => False
  end.
Proof. vm_compute. split; [done|]. split; [done|]. by eexists. Qed.

(** A recovery while a registration is pending leaves that one repeated. *)
Example recovery_leaks :
  match handleAll (site1 true) [MOnConnect "p1" false; MExitNodes "p1" (Some 2%nat) "r1"; MRecover "p2"]%string start with
  | Ret n => n_stopFunc n = Some 2%nat ∧ bool_decide (1%nat ∈ n_stopped n) = false ∧
             (rq_topic <$> n_requests n !! 1%nat) = Some topicWGRegister
  | Panic => False
  end.
Proof. vm_compute. auto. Qed.

(** A connection whose endpoint does not resolve leaves its device open, also
    after the next one succeeds. *)
Example device_leaks :
  match handleAll (site1 true)
          [MConnect "" (mkCW (Some (msg [])) true (λ _, None) (λ _ _, true) true); MConnect "" (world [])]%string start with
  | Ret n => n_connected n = true ∧ size (n_open n) = 2%nat
  | Panic => False
  end.
Proof. vm_compute. auto. Qed.

(** A connect message without a usable tunnel address ends the program. *)
Example bad_address_panics :
  handleConnect (site1 false) ""
    (mkCW (Some (mkWgMsg (Some "h:1") None (Some key) (Some "100.89.0.1") None None None None None None)) true (λ _, None) (λ _ _, true) true)
    start = Panic.
Proof. vm_compute. reflexivity. Qed.

(** Fields absent from a connect message keep the previous connection's. *)
Example stale_fields :
  match handleAll (site1 true)
          [MConnect "" (world ["10.1.0.0/16"]);
           MConnect "" (mkCW (Some (mkWgMsg (Some "h:1") None (Some key) (Some "100.89.0.1") (Some "100.89.0.2") None None None None None))
                          true (λ _, Some [Addr4 3325256711]) (λ _ _, true) true)]%string start with
  | Ret n => n_active n = ["10.1.0.0/16"]%string ∧
             (λ pm, view "tcp" pm "100.89.0.2" 80) <$> p_pm (n_parts n) = Some (Some "10.0.0.1:8080"%string)
  | Panic => False
  end.
Proof. vm_compute. auto. Qed.

(** A manager whose start failed half way keeps the listeners it had opened
    when the tunnel is closed. *)
Example listeners_leak :
  match handleAll (site1 true)
          [MConnect "" (mkCW (Some (mkWgMsg (Some "h:1") None (Some key) (Some "100.89.0.1") (Some "100.89.0.2")
                                      (Some ["80:10.0.0.1:8080"]) (Some ["53:10.0.0.3:53"]) None None None))
                          true (λ _, Some [Addr4 3325256711]) (λ pr _, match pr with TCP => true | UDP => false end) true); MReconnect "p"]%string start with
  | Ret n => ml_port <$> p_leaked (n_parts n) = [80]
  | Panic => False
  end.
Proof. vm_compute. reflexivity. Qed.

End NewtExamples.
