(* ===== verification/Icmp.v ===== *)
(** * Proxied pings ([netstack2/handlers.go], the ICMP handler)

    An echo request that arrives through the tunnel and matches a rule is sent
    on with a socket of the host (or the ping command), and a reply is built
    and queued for the tunnel.  The header accessors of gvisor and what the
    sockets deliver are parameters. *)

From S2P Require Import Prelude Netip NetipText Checksum Bart SubnetLookup Packet ProxyHandler.

Definition ICMPv4MinimumSize : nat := 8.
Definition ICMPv4Echo : Z := 8.
Definition ICMPv4EchoReply : Z := 0.

(** [header.ICMPv4] and [header.IPv4.Encode] with the fields the code sets. *)
Class IcmpHeaders : Type := {
  icmp_Type : list Z → Z;
  icmp_Code : list Z → Z;
  icmp_Ident : list Z → Z;
  icmp_Sequence : list Z → Z;
  icmp_SetType : list Z → Z → list Z;
  icmp_SetCode : list Z → Z → list Z;
  icmp_SetIdent : list Z → Z → list Z;
  icmp_SetSequence : list Z → Z → list Z;
  icmp_SetChecksum : list Z → Z → list Z;
  (** total length, TTL, protocol, source, destination *)
  ip_Encode : Z → Z → Z → Z → Z → list Z;
}.

Class IcmpLaws `{!IcmpHeaders} : Prop := {
  icmp_type_spec b : (8 <= length b)%nat → icmp_Type b = be_get b 0 1;
  icmp_code_spec b : (8 <= length b)%nat → icmp_Code b = be_get b 1 1;
  icmp_ident_spec b : (8 <= length b)%nat → icmp_Ident b = be_get b 4 2;
  icmp_seq_spec b : (8 <= length b)%nat → icmp_Sequence b = be_get b 6 2;
  icmp_set_type_spec b v : (8 <= length b)%nat → icmp_SetType b v = be_put b 0 1 v;
  icmp_set_code_spec b v : (8 <= length b)%nat → icmp_SetCode b v = be_put b 1 1 v;
  icmp_set_ident_spec b v : (8 <= length b)%nat → icmp_SetIdent b v = be_put b 4 2 v;
  icmp_set_seq_spec b v : (8 <= length b)%nat → icmp_SetSequence b v = be_put b 6 2 v;
  icmp_set_sum_spec b v : (8 <= length b)%nat → icmp_SetChecksum b v = be_put b 2 2 v;
  ip_encode_spec total ttl proto src dst :
    ip_Encode total ttl proto src dst =
    [69; 0] ++ be_bytes 2 total ++ [0; 0; 0; 0] ++ be_bytes 1 ttl ++ be_bytes 1 proto ++ [0; 0] ++ be_bytes 4 src ++ be_bytes 4 dst;
}.

#[global] Instance rfc_icmp : IcmpHeaders := {
  icmp_Type b := be_get b 0 1;
  icmp_Code b := be_get b 1 1;
  icmp_Ident b := be_get b 4 2;
  icmp_Sequence b := be_get b 6 2;
  icmp_SetType b v := be_put b 0 1 v;
  icmp_SetCode b v := be_put b 1 1 v;
  icmp_SetIdent b v := be_put b 4 2 v;
  icmp_SetSequence b v := be_put b 6 2 v;
  icmp_SetChecksum b v := be_put b 2 2 v;
  ip_Encode total ttl proto src dst :=
    [69; 0] ++ be_bytes 2 total ++ [0; 0; 0; 0] ++ be_bytes 1 ttl ++ be_bytes 1 proto ++ [0; 0] ++ be_bytes 4 src ++ be_bytes 4 dst;
}.

#[global] Instance rfc_icmp_laws : IcmpLaws.
Proof. split; intros; reflexivity. Qed.

(** ** Sockets *)

(** What a read gives: bytes that do not parse, or a message with its type and,
    for an echo body, identifier and sequence number. *)
Inductive received : Type := RUnparsable | RMessage (ty : Z) (echo : option (Z * Z)).

(** The reply check of the receive loop. *)
Definition acceptsReply (ident seq : Z) (ignoreIdent : bool) (r : received) : bool :=
  match r with
  | RUnparsable => false
  | RMessage ty echo =>
      if negb (ty =? ICMPv4EchoReply) then false
      else match echo with
           | None => false
           | Some (id, sq) => if negb (sq =? seq) then false else ignoreIdent || (id =? ident)
           end
  end.

(** The loop until the deadline, which the end of the list is. *)
Fixpoint awaitReply (ident seq : Z) (ignoreIdent : bool) (rs : list received) : bool :=
  match rs with
  | [] => false
  | r :: rs' => if acceptsReply ident seq ignoreIdent r then true else awaitReply ident seq ignoreIdent rs'
  end.

(** A socket: whether it opens, whether the message is built, the address
    resolved and the write accepted, and what arrives before the deadline. *)
Record sockWorld : Type := mkSock { sk_open : bool; sk_sends : bool; sk_replies : list received }.

Definition sendAndReceiveICMP (ident seq : Z) (ignoreIdent : bool) (w : sockWorld) : bool :=
  sk_sends w && awaitReply ident seq ignoreIdent (sk_replies w).

Definition tryRawICMP (ident seq : Z) (ignoreIdent : bool) (w : sockWorld) : bool :=
  sk_open w && sendAndReceiveICMP ident seq ignoreIdent w.
Definition tryUnprivilegedICMP (ident seq : Z) (w : sockWorld) : bool :=
  sk_open w && sendAndReceiveICMP ident seq true w.

(** The raw socket, the unprivileged one, the ping command. *)
Record pingMeans : Type := mkMeans { pm_raw : sockWorld; pm_udp : sockWorld; pm_command : bool }.

Definition tryICMPMethods (ident seq : Z) (w : pingMeans) : option string :=
  if tryRawICMP ident seq false (pm_raw w) then Some "raw ICMP"%string
  else if tryUnprivilegedICMP ident seq (pm_udp w) then Some "unprivileged ICMP"%string
  else if pm_command w then Some "ping command"%string
  else None.

Section icmp.
Context {Table : Type → Type} `{!BartTable Table, !Headers, !IcmpHeaders}.

(** ** Handling a request *)

(** The arguments of the goroutine that proxies the ping. *)
Record pingReq : Type := mkPing {
  pg_srcIP : string; pg_dstIP : string; pg_actualDstIP : string; pg_ident : Z; pg_seq : Z; pg_payload : list Z }.

(** [handleICMPPacket]: [None] is the result false.  Addresses are the four
    bytes gvisor reports. *)
Definition handleICMPPacket (lookupIP : string → option (list Addr)) (p : option (ProxyHandler Table)) (remote local : Z)
    (icmpData payload : list Z) : option pingReq :=
  if Nat.ltb (length icmpData) ICMPv4MinimumSize then None
  else if negb (icmp_Type icmpData =? ICMPv4Echo) then None
  else
    let srcIP := tcpip_String remote in
    let dstIP := tcpip_String local in
    srcAddr ← ParseAddr srcIP;
    dstAddr ← ParseAddr dstIP;
    ph ← p;
    rule ← Match (ph_lookup ph) srcAddr dstAddr 0 ICMPv4ProtocolNumber;
    let actualDstIP :=
      if negb (bool_decide (RewriteTo rule = "")) then
        match resolveRewriteAddress lookupIP (RewriteTo rule) with
        | Some a => AddrString a
        | None => dstIP
        end
      else dstIP in
    Some (mkPing srcIP dstIP actualDstIP (icmp_Ident icmpData) (icmp_Sequence icmpData) payload).

(** ** The reply *)

(** The ICMP part: header and payload; the header is a view of it. *)
Definition replyData (ident seq : Z) (payload : list Z) : list Z :=
  let hdr := icmp_SetSequence (icmp_SetIdent (icmp_SetCode (icmp_SetType (replicate ICMPv4MinimumSize 0) ICMPv4EchoReply) 0) ident) seq in
  let data := icmp_SetChecksum (hdr ++ payload) 0 in
  icmp_SetChecksum data (not16 (Checksum data 0)).

Definition replyHeader (total src dst : Z) : list Z :=
  let ip := ip_Encode (wrap16 total) 64 ICMPv4ProtocolNumber src dst in
  ip_SetChecksum ip (not16 (ip_CalculateChecksum ip)).

(** [injectICMPReply] up to the queue: [Ret None] when an address does not
    parse; [As4] panics for an address that is not IPv4. *)
Definition injectICMPReply (dstIP srcIP : string) (ident seq : Z) (payload : list Z) : go (option (list Z)) :=
  match ParseAddr srcIP with
  | None => Ret None
  | Some srcAddr =>
      match ParseAddr dstIP with
      | None => Ret None
      | Some dstAddr =>
          src ← or_panic (As4 srcAddr);
          dst ← or_panic (As4 dstAddr);
          let totalLen := Z.of_nat (IPv4MinimumSize + ICMPv4MinimumSize + length payload) in
          Ret (Some (replyHeader totalLen src dst ++ replyData ident seq payload))
      end
  end.

(** [proxyPing], with the queue. *)
Definition proxyPing (r : pingReq) (w : pingMeans) (p : ProxyHandler Table)
    : go (ProxyHandler Table * bool) :=
  match tryICMPMethods (pg_ident r) (pg_seq r) w with
  | None => Ret (p, false)
  | Some _ =>
      pkt ← injectICMPReply (pg_srcIP r) (pg_dstIP r) (pg_ident r) (pg_seq r) (pg_payload r);
      match pkt with None => Ret (p, false) | Some pkt => QueueICMPReply p pkt end
  end.

End icmp.

(** ** Lemmas *)

Section lemmas.
Context `{HeaderLaws, IcmpLaws}.

Lemma replyHeader_spec total src dst :
  0 <= total < 65536 → src fits 32 → dst fits 32 →
  let h := replyHeader total src dst in
  length h = 20%nat ∧ bytes_ok h ∧ ihl_bytes h = 20%nat ∧ rfc1071 h 0 = 65535 ∧
  be_get h 2 2 = total ∧ be_get h 9 1 = 1 ∧ be_get h 12 4 = src ∧ be_get h 16 4 = dst.
Proof.
  intros Ht Hs Hd. cbn zeta. unfold replyHeader. rewrite ip_encode_spec.
  unfold wrap16. rewrite (Z.mod_small total) by lia.
  set (b := [69; 0] ++ _).
  assert (length b = 20%nat) as Hl by (unfold b; rewrite !length_app, !length_be_bytes; done).
  assert (bytes_ok b) as Hb.
  { assert (byte_range 69 ∧ byte_range 0) as [B69 B0] by (unfold byte_range; lia).
    unfold b, bytes_ok. rewrite !Forall_app. split_and!; try apply be_bytes_ok; repeat (constructor; [done|]); constructor. }
  assert (ihl_bytes b = 20%nat) as Hi by done.
  assert (∀ off n v pre post, b = pre ++ be_bytes n v ++ post → length pre = off → 0 <= v < 256 ^ Z.of_nat n → be_get b off n = v) as Hget.
  { intros off n v pre post Eb Hpre Hv. unfold be_get. rewrite Eb, drop_app_length' by done.
    rewrite take_app_length' by (symmetry; apply length_be_bytes). rewrite be_value_bytes. by apply Z.mod_small. }
  rewrite ip_set_sum_spec by lia. rewrite ip_calc_spec by lia. rewrite Hi, (take_ge b) by lia.
  split_and!.
  - by rewrite length_be_put.
  - by apply be_put_ok.
  - unfold ihl_bytes. by rewrite be_get_put_ne by lia.
  - apply (checksum_fill b 5); [done|lia|lia|]. apply (Hget 10%nat 2%nat 0 ([69; 0] ++ be_bytes 2 total ++ [0; 0; 0; 0] ++ be_bytes 1 64 ++ be_bytes 1 1)
      (be_bytes 4 src ++ be_bytes 4 dst)); [done|by rewrite !length_app, !length_be_bytes|lia].
  - rewrite be_get_put_ne by lia. by apply (Hget 2%nat 2%nat total [69; 0] _ eq_refl).
  - rewrite be_get_put_ne by lia. apply (Hget 9%nat 1%nat 1 ([69; 0] ++ be_bytes 2 total ++ [0; 0; 0; 0] ++ be_bytes 1 64)
      ([0; 0] ++ be_bytes 4 src ++ be_bytes 4 dst)); [by rewrite <- !app_assoc|by rewrite !length_app, !length_be_bytes|lia].
  - rewrite be_get_put_ne by lia. apply (Hget 12%nat 4%nat src ([69; 0] ++ be_bytes 2 total ++ [0; 0; 0; 0] ++ be_bytes 1 64 ++ be_bytes 1 1 ++ [0; 0])
      (be_bytes 4 dst)); [by rewrite <- !app_assoc|by rewrite !length_app, !length_be_bytes|done].
  - rewrite be_get_put_ne by lia. apply (Hget 16%nat 4%nat dst ([69; 0] ++ be_bytes 2 total ++ [0; 0; 0; 0] ++ be_bytes 1 64 ++ be_bytes 1 1 ++ [0; 0] ++ be_bytes 4 src)
      []); [by rewrite app_nil_r, <- !app_assoc|by rewrite !length_app, !length_be_bytes|done].
Qed.

Lemma replyData_spec ident seq payload :
  ident fits 16 → seq fits 16 → bytes_ok payload →
  let d := replyData ident seq payload in
  length d = (8 + length payload)%nat ∧ bytes_ok d ∧ rfc1071 d 0 = 65535 ∧
  be_get d 0 1 = ICMPv4EchoReply ∧ be_get d 1 1 = 0 ∧ be_get d 4 2 = ident ∧ be_get d 6 2 = seq ∧ drop 8 d = payload.
Proof.
  intros Hid Hseq Hp. cbn zeta. unfold replyData.
  rewrite icmp_set_type_spec by (rewrite length_replicate; done).
  rewrite icmp_set_code_spec by (rewrite length_be_put, length_replicate; done).
  rewrite icmp_set_ident_spec by (rewrite !length_be_put, length_replicate; done).
  rewrite icmp_set_seq_spec by (rewrite !length_be_put, length_replicate; done).
  set (hdr := be_put _ 6 2 seq).
  assert (length hdr = 8%nat) as Hl by (unfold hdr; rewrite !length_be_put; done).
  assert (bytes_ok (hdr ++ payload)) as Hb.
  { apply Forall_app. split; [|done]. unfold hdr. repeat apply be_put_ok. apply Forall_replicate. unfold byte_range. lia. }
  assert (length (hdr ++ payload) = (8 + length payload)%nat) as Hla by (rewrite length_app, Hl; done).
  assert (∀ off n, (off + n <= 8)%nat → be_get (hdr ++ payload) off n = be_get hdr off n) as Hget.
  { intros off n Hn. apply be_get_ext. intros i Hi. rewrite lookup_app_l by lia. done. }
  rewrite (icmp_set_sum_spec (hdr ++ payload)) by lia. rewrite checksum_spec. rewrite icmp_set_sum_spec by (rewrite length_be_put; lia).
  set (d0 := be_put (hdr ++ payload) 2 2 0).
  split_and!.
  - by rewrite !length_be_put.
  - by repeat apply be_put_ok.
  - apply (checksum_fill d0 1); [by apply be_put_ok|lia|unfold d0; rewrite length_be_put; lia|].
    apply be_get_put; simpl; lia.
  - unfold d0. rewrite !be_get_put_ne, Hget by lia. unfold hdr. rewrite !be_get_put_ne by lia. unfold ICMPv4EchoReply. apply be_get_put; simpl; lia.
  - unfold d0. rewrite !be_get_put_ne, Hget by lia. unfold hdr. rewrite !be_get_put_ne by lia.
    apply be_get_put; [rewrite length_be_put; simpl; lia|lia].
  - unfold d0. rewrite !be_get_put_ne, Hget by lia. unfold hdr. rewrite be_get_put_ne by lia.
    apply be_get_put; [rewrite !length_be_put; simpl; lia|change (256 ^ Z.of_nat 2) with 65536; lia].
  - unfold d0. rewrite !be_get_put_ne, Hget by lia. unfold hdr.
    apply be_get_put; [rewrite !length_be_put; simpl; lia|change (256 ^ Z.of_nat 2) with 65536; lia].
  - apply list_eq. intros i. rewrite lookup_drop. unfold d0. rewrite !be_put_lookup_ne by lia.
    rewrite lookup_app_r, Hl by lia. f_equal. lia.
Qed.

(** The reply packet: an IPv4 packet from [src] to [dst] with an echo reply. *)
Definition echo_reply (src dst ident seq : Z) (payload b : list Z) : Prop :=
  ipv4_wf b ∧ ihl_bytes b = 20%nat ∧ ip_sum_ok b ∧ be_get b 2 2 = Z.of_nat (length b) ∧ be_get b 9 1 = ICMPv4ProtocolNumber ∧
  be_get b 12 4 = src ∧ be_get b 16 4 = dst ∧ rfc1071 (drop 20 b) 0 = 65535 ∧ be_get (drop 20 b) 0 1 = ICMPv4EchoReply ∧
  be_get (drop 20 b) 1 1 = 0 ∧ be_get (drop 20 b) 4 2 = ident ∧ be_get (drop 20 b) 6 2 = seq ∧ drop 28 b = payload.

Lemma injected_reply src dst ident seq payload :
  src fits 32 → dst fits 32 → ident fits 16 → seq fits 16 → bytes_ok payload → Z.of_nat (length payload) <= 65507 →
  ∃ b, injectICMPReply (AddrString (Addr4 dst)) (AddrString (Addr4 src)) ident seq payload = Ret (Some b) ∧
    echo_reply src dst ident seq payload b.
Proof.
  intros Hs Hd Hi Hq Hp Hlen. unfold injectICMPReply. rewrite !ParseAddr_String4 by done. simpl.
  eexists. split; [reflexivity|].
  destruct (replyHeader_spec (Z.of_nat (IPv4MinimumSize + ICMPv4MinimumSize + length payload)) src dst)
    as (A1 & A2 & A3 & A4 & A5 & A6 & A7 & A8); [unfold IPv4MinimumSize, ICMPv4MinimumSize; lia|done|done|].
  destruct (replyData_spec ident seq payload Hi Hq Hp) as (D1 & D2 & D3 & D4 & D5 & D6 & D7 & D8).
  set (h := replyHeader _ src dst) in *. set (d := replyData ident seq payload) in *. clearbody h d.
  assert (∀ off n, (off + n <= 20)%nat → be_get (h ++ d) off n = be_get h off n) as Hget.
  { intros off n Hn. apply be_get_ext. intros i Hi'. rewrite lookup_app_l by lia. done. }
  assert (ihl_bytes (h ++ d) = 20%nat) as Hihl by (rewrite <- A3; apply ihl_ext; rewrite lookup_app_l by lia; done).
  assert (drop 20 (h ++ d) = d) as Hdrop by (by apply drop_app_length').
  assert (length (h ++ d) = (28 + length payload)%nat) as Hall by (rewrite length_app; lia).
  unfold echo_reply. rewrite Hihl, Hdrop, !Hget by lia. split_and!; try done.
  - split; [by apply Forall_app|]. rewrite Hihl. lia.
  - unfold ip_sum_ok. rewrite Hihl, take_app_length' by done. done.
  - rewrite A5, Hall. f_equal.
  - change 28%nat with (20 + 8)%nat. by rewrite <- drop_drop, Hdrop.
Qed.

End lemmas.

(** ** Properties *)

(** C36: a proxied ping gets a correct answer, and only a permitted one does.
    When the handler takes an ICMP packet it is an echo request and the rule
    table has a rule for its addresses; if any method reaches the (possibly
    rewritten) destination, the packet queued for the tunnel is an IPv4 packet
    from the address the client pinged back to the client, with valid header
    and ICMP checksums, carrying an echo reply with the request's identifier,
    sequence number and payload; if none does, nothing is queued. *)
Theorem ping_proxied {Table : Type → Type} `{!BartTable Table} `{HeaderLaws, IcmpLaws}
    lookupIP (p : ProxyHandler Table) remote local icmpData payload w r :
  remote fits 32 → local fits 32 → bytes_ok icmpData → bytes_ok payload → Z.of_nat (length payload) <= 65507 →
  ph_enabled p = true → icmpClosed p = false →
  handleICMPPacket lookupIP (Some p) remote local icmpData payload = Some r →
  be_get icmpData 0 1 = ICMPv4Echo ∧ is_Some (Match (ph_lookup p) (Addr4 remote) (Addr4 local) 0 ICMPv4ProtocolNumber) ∧
  match tryICMPMethods (pg_ident r) (pg_seq r) w with
  | None => proxyPing r w p = Ret (p, false)
  | Some _ => ∃ b, echo_reply local remote (be_get icmpData 4 2) (be_get icmpData 6 2) payload b ∧
                proxyPing r w p = QueueICMPReply p b
  end.
Proof.
  intros Hr Hl Hb Hp Hlen He Hcl. unfold handleICMPPacket. destruct (Nat.ltb_spec (length icmpData) ICMPv4MinimumSize) as [|H8]; [done|].
  unfold ICMPv4MinimumSize in H8. rewrite icmp_type_spec, icmp_ident_spec, icmp_seq_spec by done.
  destruct (Z.eqb_spec (be_get icmpData 0 1) ICMPv4Echo) as [Ht|]; [|done]. cbn [negb].
  rewrite !tcpip_string_spec, !ParseAddr_String4 by done. cbn [mbind option_bind].
  destruct (Match _ _ _ _ _) as [rule|] eqn:Em; [|done]. cbn [mbind option_bind].
  set (actual := if negb _ then _ else _). intros [= <-]. split; [done|]. split; [done|]. cbn [pg_ident pg_seq].
  unfold proxyPing. cbn [pg_ident pg_seq pg_srcIP pg_dstIP pg_payload].
  destruct (tryICMPMethods _ _ w); [|done].
  destruct (injected_reply local remote (be_get icmpData 4 2) (be_get icmpData 6 2) payload) as (b & -> & Hrep);
    [done|done|by apply (be_get_range icmpData 4 2)|by apply (be_get_range icmpData 6 2)|done|done|].
  by exists b.
Qed.

(** ** Examples *)

Module IcmpExamples.
Import ProxyExamples.

Definition remote : Z := 167772165.  (* 10.0.0.5 *)
Definition local : Z := 169082882.   (* 10.20.0.2 *)
Definition request : list Z := [8; 0; 0; 0; 18; 52; 0; 7].
Definition payload : list Z := [112; 105; 110; 103; 33].

(** Answers that are not ours, then ours. *)
Definition means : pingMeans :=
  mkMeans (mkSock true true [RUnparsable; RMessage 8 (Some (4660, 7)); RMessage 0 (Some (4660, 8)); RMessage 0 (Some (1, 7));
                             RMessage 0 None; RMessage 0 (Some (4660, 7))])
    (mkSock false false []) false.

Definition taken : pingReq := mkPing "10.0.0.5" "10.20.0.2" "192.168.1.1" 4660 7 payload.

Lemma ping_proxied_witness :
  handleICMPPacket no_dns (Some ph0) remote local request payload = Some taken ∧
  ∃ b, echo_reply local remote 4660 7 payload b ∧ proxyPing taken means ph0 = QueueICMPReply ph0 b.
Proof.
  assert (handleICMPPacket no_dns (Some ph0) remote local request payload = Some taken) as Hh by (vm_compute; reflexivity).
  split; [exact Hh|].
  assert (bytes_ok request ∧ bytes_ok payload) as [Hb Hp]
    by (split; repeat (constructor; [unfold byte_range; lia|]); constructor).
  pose proof (ping_proxied no_dns ph0 remote local request payload means taken ltac:(unfold remote; lia) ltac:(unfold local; lia)
    Hb Hp ltac:(vm_compute; discriminate) eq_refl eq_refl Hh) as (_ & _ & H).
  exact H.
Defined.

(** The receive loop looks at identifier and sequence number only: an answer
    that another host gave to a ping with the same numbers is taken, here for
    a destination that never answers. *)
Example foreign_reply_taken :
  tryICMPMethods 4660 7 (mkMeans (mkSock true true [RMessage 0 (Some (4660, 7))]) (mkSock false false []) false) = Some "raw ICMP"%string.
Proof. reflexivity. Qed.

End IcmpExamples.
