(* ===== verification/AuthDaemon.v ===== *)
(** * The authentication daemon ([authdaemon/], [newt/authdaemon.go])

    For each SSH connection the server announces, the daemon keeps the host
    ready: the certificate authority's key in a file for sshd, the account with
    its groups, home directory and sudo rights, and the file of principals that
    [newt principals] prints for sshd.  All of it runs as root, so what the
    files hold afterwards is what users may do.

    The host is its file system, the owners given to new paths and the commands
    that were run, in order; which operations of the system succeed is an
    argument, as are the account database, the skeleton directory and JSON.  A
    failed write leaves the file as it was. *)

From S2P Require Import Prelude NetipText HostPort Keys ExitNode.
From Stdlib Require Import Ascii.

(** ** [strings] and [path/filepath] *)

Definition trim (s : string) : string := unstr (TrimSpace (str s)).

Definition newline : ascii := ch 10.
Definition nl : string := unstr [newline].

Fixpoint joinWith (sep : list ascii) (l : list (list ascii)) : list ascii :=
  match l with
  | [] => []
  | [x] => x
  | x :: l' => x ++ sep ++ joinWith sep l'
  end.

(** [strings.Join] *)
Definition Join (l : list string) (sep : string) : string := unstr (joinWith (str sep) (str <$> l)).

Definition dot : list ascii := str ".".
Definition dotdot : list ascii := str "..".

(** The components of a path with [.], [..] and empty ones resolved; [stack]
    holds those before, the last one first. *)
Fixpoint cleanComps (rooted : bool) (stack comps : list (list ascii)) : list (list ascii) :=
  match comps with
  | [] => rev stack
  | c :: comps' =>
      if bool_decide (c = []) || bool_decide (c = dot) then cleanComps rooted stack comps'
      else if bool_decide (c = dotdot) then
        match stack with
        | [] => cleanComps rooted (if rooted then [] else [dotdot]) comps'
        | top :: rest => cleanComps rooted (if bool_decide (top = dotdot) then c :: stack else rest) comps'
        end
      else cleanComps rooted (c :: stack) comps'
  end.

Definition Clean (path : list ascii) : list ascii :=
  let rooted := match path with c :: _ => Ascii.eqb c c_slash | [] => false end in
  let body := joinWith [c_slash] (cleanComps rooted [] (splitOn c_slash path)) in
  if rooted then c_slash :: body else if bool_decide (body = []) then dot else body.

Definition pathJoin (a b : string) : string :=
  unstr (match filter (λ x, x ≠ []) [str a; str b] with [] => [] | l => Clean (joinWith [c_slash] l) end).

Definition Dir (path : string) : string :=
  unstr (Clean (match rcut c_slash (str path) with Some (d, _) => d ++ [c_slash] | None => [] end)).

Example path_examples :
  pathJoin "/etc/sudoers.d" "90-pangolin-alice" = "/etc/sudoers.d/90-pangolin-alice"%string ∧
  pathJoin "/etc/sudoers.d" "90-pangolin-../../x" = "/etc/sudoers.d/x"%string ∧
  pathJoin "/home/alice/" ".ssh" = "/home/alice/.ssh"%string ∧ pathJoin "" "a/../../b" = "../b"%string ∧
  Dir "/etc/ssh/ca.pem" = "/etc/ssh"%string ∧ Dir "ca.pem" = "."%string ∧ Dir "/a" = "/"%string ∧
  Join ["a"; "b"] "," = "a,b"%string ∧ trim "  x " = "x"%string.
Proof. vm_compute. auto 20. Qed.

(** ** The host *)

Inductive node : Type := NFile (data : string) | NDir.

Inductive command : Type :=
  | Useradd (homedir : bool) (username : string)
  | Usermod (groups username : string)
  | Chpasswd (username : string)
  | Visudo (content : string).

Inductive op : Type :=
  | ORead (p : string) | OMkdir (p : string) | OWrite (p : string) | ORename (p q : string)
  | ORemove (p : string) | OChown (p : string) | ORun (c : command).

#[global] Instance command_eq_dec : EqDecision command.
Proof. solve_decision. Defined.
#[global] Instance op_eq_dec : EqDecision op.
Proof. solve_decision. Defined.
#[global] Instance node_eq_dec : EqDecision node.
Proof. solve_decision. Defined.

Record host : Type := mkHost {
  h_fs : gmap string node;
  h_owner : gmap string (Z * Z);
  h_log : list command }.

Record account : Type := mkAccount { ac_Username : string; ac_HomeDir : string; ac_Uid : string; ac_Gid : string }.

Inductive lookupResult : Type := Found (a : account) | UnknownUser | LookupError.

(** A directory tree; [None] when a file or directory cannot be read. *)
Inductive skelEntry : Type :=
  | SkelFile (name : string) (data : option string)
  | SkelDir (name : string) (entries : option (list skelEntry)).

(** What the operating system answers: the success of an operation, the
    account database after the commands run so far, and [/etc/skel]. *)
Record machine : Type := mkMachine {
  m_io : op → bool;
  m_lookup : list command → string → lookupResult;
  m_skel : option (list skelEntry) }.

(** [json.Unmarshal] into a map of string lists: whether it reports an error,
    and the map it leaves ([None]: nil); and [json.Marshal]. *)
Class PrincipalsJson : Type := {
  pj_parse : string → bool * option (gmap string (list string));
  pj_encode : gmap string (list string) → string }.

Definition plainText (s : string) : Prop := Forall (λ c, code c < 128) (str s).

(** What is written is read back, for texts JSON does not alter. *)
Class PrincipalsJsonLaws `{PrincipalsJson} : Prop :=
  pj_roundtrip m : (∀ u l, m !! u = Some l → plainText u ∧ Forall plainText l) → pj_parse (pj_encode m) = (true, Some m).

Section daemon.
Context (w : machine).

Definition set_fs (f : gmap string node → gmap string node) (h : host) : host := mkHost (f (h_fs h)) (h_owner h) (h_log h).

Inductive readResult : Type := RData (d : string) | RNotExist | RFail.

Definition ReadFile (p : string) (h : host) : readResult :=
  if m_io w (ORead p)
  then match h_fs h !! p with Some (NFile d) => RData d | Some NDir => RFail | None => RNotExist end
  else RFail.

Definition WriteFile (p data : string) (h : host) : host * bool :=
  if m_io w (OWrite p) && negb (bool_decide (h_fs h !! p = Some NDir)) then (set_fs <[p := NFile data]> h, true) else (h, false).

(** Of the directories above only whether the operation succeeds matters. *)
Definition MkdirAll (p : string) (h : host) : host * bool :=
  match h_fs h !! p with
  | Some NDir => (h, true)
  | Some (NFile _) => (h, false)
  | None => if m_io w (OMkdir p) then (set_fs <[p := NDir]> h, true) else (h, false)
  end.

Definition Remove (p : string) (h : host) : host := if m_io w (ORemove p) then set_fs (delete p) h else h.

Definition Rename (p q : string) (h : host) : host * bool :=
  match h_fs h !! p with
  | Some n => if m_io w (ORename p q) && negb (bool_decide (h_fs h !! q = Some NDir)) then (set_fs (λ fs, <[q := n]> (delete p fs)) h, true) else (h, false)
  | None => (h, false)
  end.

Definition Chown (p : string) (uid gid : Z) (h : host) : host :=
  if m_io w (OChown p) then mkHost (h_fs h) (<[p := (uid, gid)]> (h_owner h)) (h_log h) else h.

Definition runCommand (c : command) (h : host) : host * bool :=
  (mkHost (h_fs h) (h_owner h) (h_log h ++ [c]), m_io w (ORun c)).

(** ** Certificate authority and principals *)

Definition withNewline (s : string) : string :=
  let s := trim s in if negb (bool_decide (s = "")) && negb (HasSuffix (str s) [newline]) then s +:+ nl else s.

(** The result is false on an error. *)
Definition writeCACertIfNotExists (path contents : string) (force : bool) (h : host) : host * bool :=
  let contents := withNewline contents in
  let write := let '(h, ok) := MkdirAll (Dir path) h in if ok then WriteFile path contents h else (h, false) in
  match ReadFile path h with
  | RData existing =>
      if bool_decide (withNewline existing = contents) then (h, true) else if negb force then (h, true) else write
  | RFail => (h, false)
  | RNotExist => write
  end.

Context `{PrincipalsJson}.

Definition addDistinct (l : list string) (p : string) : list string :=
  if bool_decide (p = "") || bool_decide (p ∈ l) then l else l ++ [p].

(** A store into a nil map panics. *)
Definition writePrincipals (path username niceId : string) (h : host) : go (host * bool) :=
  let username := trim username in
  if bool_decide (path = "") || bool_decide (username = "") then Ret (h, true)
  else
    let data := match ReadFile path h with RData raw => (pj_parse raw).2 | _ => Some ∅ end in
    let list := foldl addDistinct (default [] (data ≫= λ m, m !! username)) [username; trim niceId] in
    match data with
    | None => Panic
    | Some m =>
        let body := pj_encode (<[username := list]> m) in
        let '(h, ok) := MkdirAll (Dir path) h in
        Ret (if ok then WriteFile path body h else (h, false))
    end.

(** [newt principals]; [None] is an error. *)
Definition GetPrincipals (path user : string) (h : host) : option (list string) :=
  if bool_decide (path = "") then None
  else match ReadFile path h with
       | RNotExist => Some []
       | RFail => None
       | RData data =>
           let '(ok, m) := pj_parse data in
           if ok then Some (default [] (m ≫= λ m, m !! user)) else None
       end.

(** ** Accounts *)

Record ConnectionMetadata : Type := mkMeta {
  md_SudoMode : string; md_SudoCommands : list string; md_Homedir : bool; md_Groups : list string }.

Definition fileLines (data : string) : list string := unstr <$> splitOn newline (str data).

Definition sudoGroup (h : host) : string :=
  match ReadFile "/etc/group" h with
  | RData data =>
      let has p := existsb (λ l, HasPrefix (str l) (str p)) (fileLines data) in
      if has "wheel:"%string then "wheel" else if has "sudo:"%string then "sudo" else "sudo"
  | _ => "sudo"
  end%string.

Definition desiredGroups (meta : ConnectionMetadata) (h : host) : list string :=
  let out := foldl addDistinct [] (trim <$> md_Groups meta) in
  if bool_decide (md_SudoMode meta = "full"%string)
  then (if bool_decide (sudoGroup h ∈ out) then out else out ++ [sudoGroup h])
  else out.

Definition setUserGroups (username : string) (groups : list string) (h : host) : host :=
  (runCommand (Usermod (Join groups ",") username) h).1.

Fixpoint copySkel (dst : string) (uid gid : Z) (e : skelEntry) (h : host) : host :=
  match e with
  | SkelFile name data =>
      let p := pathJoin dst name in
      match h_fs h !! p, data with
      | None, Some d => let '(h, ok) := WriteFile p d h in if ok then Chown p uid gid h else h
      | _, _ => h
      end
  | SkelDir name entries =>
      let p := pathJoin dst name in
      let copyAll h := match entries with Some es => foldl (λ h e, copySkel p uid gid e h) h es | None => h end in
      match h_fs h !! p with
      | Some NDir => copyAll h
      | _ => let '(h, ok) := MkdirAll p h in if ok then copyAll (Chown p uid gid h) else h
      end
  end.

Definition copySkelInto (dst : string) (uid gid : Z) (h : host) : host :=
  match m_skel w with Some es => foldl (λ h e, copySkel dst uid gid e h) h es | None => h end.

Definition sudoersPath (username : string) : string := pathJoin "/etc/sudoers.d" ("90-pangolin-" +:+ username).

(** Both [os.Remove] calls of the temporary file. *)
Definition writeSudoersFile (username content : string) (h : host) : host * bool :=
  let sudoersFile := sudoersPath username in
  let tmpFile := sudoersFile +:+ ".tmp" in
  let '(h, ok) := WriteFile tmpFile content h in
  if negb ok then (h, false)
  else
    let '(h, ok) := runCommand (Visudo content) h in
    if negb ok then (Remove tmpFile h, false)
    else
      let '(h, ok) := Rename tmpFile sudoersFile h in
      if negb ok then (Remove tmpFile h, false) else (h, true).

Definition fullSudo (username : string) : string :=
  "# Created by Pangolin auth-daemon" +:+ nl +:+ username +:+ " ALL=(ALL) NOPASSWD:ALL" +:+ nl.

Definition configurePasswordlessSudo (username : string) (h : host) : host * bool :=
  writeSudoersFile username (fullSudo username) h.

Definition sudoCommandLines (username : string) (commands : list string) : list string :=
  omap (λ c, let c := trim c in
             if bool_decide (c = "") then None else Some (username +:+ " ALL=(ALL) NOPASSWD: " +:+ c +:+ nl)) commands.

Definition configureSudoCommands (username : string) (commands : list string) (h : host) : host * bool :=
  let lines := sudoCommandLines username commands in
  if Nat.eqb (length lines) 0 then (h, false)
  else writeSudoersFile username (foldl String.app ("# Created by Pangolin auth-daemon (restricted commands)" +:+ nl) lines) h.

Definition removeSudoers (username : string) (h : host) : host := Remove (sudoersPath username) h.

(** The switch on the sudo mode; [drop]: no commands means no file. *)
Definition applySudo (drop : bool) (username : string) (meta : ConnectionMetadata) (h : host) : host :=
  if bool_decide (md_SudoMode meta = "full"%string) then (configurePasswordlessSudo username h).1
  else if bool_decide (md_SudoMode meta = "commands"%string) then
    if Nat.ltb 0 (length (md_SudoCommands meta)) then (configureSudoCommands username (md_SudoCommands meta) h).1
    else if drop then removeSudoers username h else h
  else removeSudoers username h.

Definition createUser (username : string) (meta : ConnectionMetadata) (generateRandomPassword : bool) (h : host) : host * bool :=
  let '(h, ok) := runCommand (Useradd (md_Homedir meta) username) h in
  if negb ok then (h, false)
  else
    let h := if generateRandomPassword then (runCommand (Chpasswd username) h).1 else h in
    let h := if md_Homedir meta
             then match m_lookup w (h_log h) username with
                  | Found u => if bool_decide (ac_HomeDir u = "") then h
                               else copySkelInto (ac_HomeDir u) (AtoiValue (ac_Uid u)) (AtoiValue (ac_Gid u)) h
                  | _ => h
                  end
             else h in
    let h := setUserGroups username (desiredGroups meta h) h in
    (applySudo false username meta h, true).

Definition reconcileHome (u : account) (h : host) : host :=
  let uid := AtoiValue (ac_Uid u) in
  let gid := AtoiValue (ac_Gid u) in
  match h_fs h !! ac_HomeDir u with
  | Some NDir => copySkelInto (ac_HomeDir u) uid gid h
  | _ => let '(h, ok) := MkdirAll (ac_HomeDir u) h in
         if ok then copySkelInto (ac_HomeDir u) uid gid (Chown (ac_HomeDir u) uid gid h) else h
  end.

Definition reconcileUser (u : account) (meta : ConnectionMetadata) (h : host) : host :=
  let h := setUserGroups (ac_Username u) (desiredGroups meta h) h in
  let h := applySudo true (ac_Username u) meta h in
  if md_Homedir meta && negb (bool_decide (ac_HomeDir u = "")) then reconcileHome u h else h.

Definition ensureUser (username : string) (meta : ConnectionMetadata) (generateRandomPassword : bool) (h : host) : host * bool :=
  if bool_decide (username = "") then (h, true)
  else match m_lookup w (h_log h) username with
       | LookupError => (h, false)
       | UnknownUser => createUser username meta generateRandomPassword h
       | Found u => (reconcileUser u meta h, true)
       end.

(** ** The server *)

Record DaemonConfig : Type := mkDaemon {
  ad_DisableHTTPS : bool; ad_Port : Z; ad_PresharedKey : string; ad_CACertPath : string; ad_Force : bool;
  ad_PrincipalsFilePath : string; ad_GenerateRandomPassword : bool }.

Record ConnectionRequest : Type := mkConnection {
  cr_CaCert : string; cr_NiceId : string; cr_Username : string; cr_Metadata : ConnectionMetadata }.

(** [NewServer] on Linux: whether the configuration is accepted. *)
Definition NewServer (cfg : DaemonConfig) : option DaemonConfig :=
  if negb (ad_DisableHTTPS cfg) && ((ad_Port cfg <=? 0) || bool_decide (ad_PresharedKey cfg = "")) then None
  else if bool_decide (ad_CACertPath cfg = "") then None
  else if bool_decide (ad_PrincipalsFilePath cfg = "") then None
  else Some cfg.

Definition ProcessConnection (cfg : DaemonConfig) (req : ConnectionRequest) (h : host) : go host :=
  let h := if bool_decide (ad_CACertPath cfg = "") then h
           else (writeCACertIfNotExists (ad_CACertPath cfg) (cr_CaCert req) (ad_Force cfg) h).1 in
  let h := (ensureUser (cr_Username req) (cr_Metadata req) (ad_GenerateRandomPassword cfg) h).1 in
  if bool_decide (ad_PrincipalsFilePath cfg = "") || bool_decide (cr_NiceId req = "") then Ret h
  else r ← writePrincipals (ad_PrincipalsFilePath cfg) (cr_Username req) (cr_NiceId req) h; Ret r.1.

Definition cleanupPrincipalsFile (cfg : DaemonConfig) (h : host) : host :=
  if bool_decide (ad_PrincipalsFilePath cfg = "") then h else Remove (ad_PrincipalsFilePath cfg) h.

(** The configuration [startAuthDaemon] builds. *)
Definition embeddedConfig (principalsFile caCertPath : string) (generateRandomPassword : bool) : DaemonConfig :=
  let d s dflt := if bool_decide (s = ""%string) then dflt else s in
  mkDaemon true 0 "this-key-is-not-used" (d caCertPath "/etc/ssh/ca.pem"%string) true
    (d principalsFile "/var/run/auth-daemon/principals"%string) generateRandomPassword.

Definition bearerKey (authorization : string) : string :=
  match trimPrefix (str "Bearer ") (str authorization) with Some k => trim (unstr k) | None => "" end.

(** [authMiddleware] *)
Definition authorized (presharedKey authorization xPresharedKey : string) : bool :=
  let key := bearerKey authorization in
  let key := if bool_decide (key = "") then trim xPresharedKey else key in
  negb (bool_decide (key = "")) && bool_decide (key = presharedKey).

Record httpRequest : Type := mkHttp {
  hr_Method : string; hr_Path : string; hr_Authorization : string; hr_XPresharedKey : string;
  hr_Body : option ConnectionRequest }.

(** The handler of the server, for a clean path: the status and the host afterwards. *)
Definition serveHTTP (cfg : DaemonConfig) (r : httpRequest) (h : host) : go (Z * host) :=
  if negb (authorized (ad_PresharedKey cfg) (hr_Authorization r) (hr_XPresharedKey r)) then Ret (401, h)
  else if bool_decide (hr_Path r = "/health"%string) then
    Ret (if bool_decide (hr_Method r = "GET"%string) then 200 else 405, h)
  else if bool_decide (hr_Path r = "/connection"%string) then
    if negb (bool_decide (hr_Method r = "POST"%string)) then Ret (405, h)
    else match hr_Body r with
         | None => Ret (400, h)
         | Some req => h' ← ProcessConnection cfg req h; Ret (200, h')
         end
  else Ret (404, h).

End daemon.

(** ** Lemmas: the file system *)

(** What a copy of the skeleton may create below [dst]. *)
Fixpoint skelNodes (dst : string) (e : skelEntry) : list (string * node) :=
  match e with
  | SkelFile name data => match data with Some d => [(pathJoin dst name, NFile d)] | None => [] end
  | SkelDir name entries =>
      (pathJoin dst name, NDir) ::
      match entries with Some es => flat_map (skelNodes (pathJoin dst name)) es | None => [] end
  end.

(** The tree can be induced on with a hypothesis for every entry. *)
Section skel_ind.
Context (P : skelEntry → Prop).
Context (Hfile : ∀ name data, P (SkelFile name data)).
Context (Hdir : ∀ name es, Forall P (default [] es) → P (SkelDir name es)).

Fixpoint skelEntry_rect' (e : skelEntry) : P e :=
  match e with
  | SkelFile name data => Hfile name data
  | SkelDir name es =>
      Hdir name es
        (match es return Forall P (default [] es) with
         | None => Forall_nil_2 P
         | Some l => (fix go l := match l return Forall P l with
                                  | [] => Forall_nil_2 P
                                  | e :: l' => Forall_cons_2 P e l' (skelEntry_rect' e) (go l')
                                  end) l
         end)
  end.
End skel_ind.

(** [h'] is [h] with some of the nodes [ns] added where there was nothing, all
    given to one owner when that succeeds; no command is run. *)
Record grows (w : machine) (uid gid : Z) (ns : list (string * node)) (h h' : host) : Prop := {
  gr_keeps : h_fs h ⊆ h_fs h';
  gr_new : ∀ p n, h_fs h' !! p = Some n → h_fs h !! p = Some n ∨ (h_fs h !! p = None ∧ (p, n) ∈ ns);
  gr_owned : (∀ o, m_io w o = true) → ∀ p, h_fs h !! p = None → is_Some (h_fs h' !! p) → h_owner h' !! p = Some (uid, gid);
  gr_owner : ∀ p, is_Some (h_fs h !! p) → h_owner h' !! p = h_owner h !! p;
  gr_log : h_log h' = h_log h }.

Lemma grows_refl w uid gid ns h : grows w uid gid ns h h.
Proof. split; [done|by left| |done|done]. intros _ p Hp [x Hx]. congruence. Qed.

Lemma grows_mono w uid gid ns ns' h h' : ns ⊆ ns' → grows w uid gid ns h h' → grows w uid gid ns' h h'.
Proof. intros Hs [Hk Hn Ho Hw Hl]. split; [done| |done..]. intros p n [|[? ?]]%Hn; auto. Qed.

Lemma grows_trans w uid gid ns h1 h2 h3 : grows w uid gid ns h1 h2 → grows w uid gid ns h2 h3 → grows w uid gid ns h1 h3.
Proof.
  intros [K1 N1 O1 W1 L1] [K2 N2 O2 W2 L2]. split; [by etrans| | | |congruence].
  - intros p n [?|[E ?]]%N2; [by apply N1|]. right. split; [|done].
    destruct (h_fs h1 !! p) eqn:E1; [|done]. eapply lookup_weaken in E1; [|exact K1]. congruence.
  - intros Hio p Hp Hs. destruct (h_fs h2 !! p) eqn:E2; [|by apply O2]. rewrite W2 by (by rewrite E2). apply O1; [done..|by rewrite E2].
  - intros p [n Hp]. rewrite W2; [by apply W1|]. exists n. by eapply lookup_weaken.
Qed.

Lemma grows_foldl w uid gid {A} (f : host → A → host) ns l h :
  (∀ x h, x ∈ l → grows w uid gid ns h (f h x)) → grows w uid gid ns h (foldl f h l).
Proof.
  revert h. induction l as [|x l IH]; intros h Hf; [apply grows_refl|]. simpl. eapply grows_trans; [apply Hf; left|].
  apply IH. intros y h' Hy. apply Hf. by right.
Qed.

(** Adding a node where there was none, and giving it to its owner. *)
Lemma grows_add w uid gid ns p n h :
  h_fs h !! p = None → (p, n) ∈ ns → grows w uid gid ns h (Chown w p uid gid (set_fs <[p := n]> h)).
Proof.
  intros Hp Hin. assert (h_fs (Chown w p uid gid (set_fs <[p := n]> h)) = <[p := n]> (h_fs h)) as Ef
    by (unfold Chown; by destruct (m_io w _)). split; rewrite ?Ef.
  - by apply insert_subseteq.
  - intros q x. destruct (decide (q = p)) as [->|]; [rewrite lookup_insert_eq; intros [= <-]; auto|].
    rewrite lookup_insert_ne by done. auto.
  - intros Hio q Hq. destruct (decide (q = p)) as [->|]; [|rewrite lookup_insert_ne by done; intros [? ?]; congruence].
    intros _. unfold Chown. rewrite Hio. simpl. by rewrite lookup_insert_eq.
  - intros q [x Hq]. unfold Chown. destruct (m_io w _); [|done]. simpl. rewrite lookup_insert_ne; congruence.
  - unfold Chown. by destruct (m_io w _).
Qed.

Lemma copySkel_grows w dst uid gid e : ∀ h, grows w uid gid (skelNodes dst e) h (copySkel w dst uid gid e h).
Proof.
  revert dst. induction e as [name data|name es IH] using skelEntry_rect'; intros dst h; cbn [copySkel skelNodes].
  - destruct (h_fs h !! pathJoin dst name) eqn:E; [apply grows_refl|]. destruct data as [d|]; [|apply grows_refl].
    unfold WriteFile. destruct (m_io w _ && _); simpl; [|apply grows_refl]. apply grows_add; [done|left].
  - set (p := pathJoin dst name). set (ns := _ :: _).
    assert (∀ h, grows w uid gid ns h match es with Some es => foldl (λ h e, copySkel w p uid gid e h) h es | None => h end) as Hall.
    { intros h0. destruct es as [es|]; [|apply grows_refl]. apply grows_foldl. intros e h1 He.
      simpl in IH. rewrite Forall_forall in IH. eapply grows_mono; [|by apply IH].
      intros x Hx. right. apply list_elem_of_In, in_flat_map. exists e. split; by apply list_elem_of_In. }
    unfold MkdirAll. destruct (h_fs h !! p) as [[d|]|] eqn:E; [apply grows_refl|apply Hall|].
    destruct (m_io w _); [|apply grows_refl]. eapply grows_trans; [|apply Hall]. apply grows_add; [done|left].
Qed.

Definition skelPaths (w : machine) (dst : string) : list (string * node) :=
  match m_skel w with Some es => flat_map (skelNodes dst) es | None => [] end.

Lemma copySkelInto_grows w dst uid gid h : grows w uid gid (skelPaths w dst) h (copySkelInto w dst uid gid h).
Proof.
  unfold copySkelInto, skelPaths. destruct (m_skel w) as [es|]; [|apply grows_refl].
  apply grows_foldl. intros e h' He. eapply grows_mono; [|apply copySkel_grows].
  intros x Hx. apply list_elem_of_In, in_flat_map. exists e. split; by apply list_elem_of_In.
Qed.

(** Changes of the file system within a set of paths. *)
Definition only (ps : list string) (h h' : host) : Prop := ∀ p, p ∉ ps → h_fs h' !! p = h_fs h !! p.

Lemma only_trans ps h1 h2 h3 : only ps h1 h2 → only ps h2 h3 → only ps h1 h3.
Proof. intros H1 H2 p Hp. by rewrite H2, H1. Qed.

Lemma only_mono ps ps' h h' : ps ⊆ ps' → only ps h h' → only ps' h h'.
Proof. intros Hs Ho p Hp. apply Ho. set_solver. Qed.

Lemma MkdirAll_only w p h : only [p] h (MkdirAll w p h).1.
Proof.
  intros q Hq. unfold MkdirAll. destruct (h_fs h !! p) as [[|]|]; [done..|]. destruct (m_io w _); [|done]. simpl.
  rewrite lookup_insert_ne; [done|set_solver].
Qed.

Lemma WriteFile_only w p d h : only [p] h (WriteFile w p d h).1.
Proof.
  intros q Hq. unfold WriteFile. destruct (_ && _); [|done]. simpl. rewrite lookup_insert_ne; [done|set_solver].
Qed.

Lemma Remove_only w p h : only [p] h (Remove w p h).
Proof. intros q Hq. unfold Remove. destruct (m_io w _); [|done]. simpl. rewrite lookup_delete_ne; [done|set_solver]. Qed.

Lemma Rename_only w p q h : only [p; q] h (Rename w p q h).1.
Proof.
  intros x Hx. unfold Rename. destruct (h_fs h !! p); [|done]. destruct (_ && _); [|done]. simpl.
  rewrite lookup_insert_ne, lookup_delete_ne; [done|set_solver..].
Qed.

Lemma mkdir_write_only w path d h :
  only [path; Dir path] h (let '(h, ok) := MkdirAll w (Dir path) h in if ok then WriteFile w path d h else (h, false)).1.
Proof.
  destruct (MkdirAll w (Dir path) h) as [h1 ok] eqn:E. assert (only [path; Dir path] h h1) as H1.
  { replace h1 with (MkdirAll w (Dir path) h).1 by by rewrite E. eapply only_mono; [|apply MkdirAll_only]. set_solver. }
  destruct ok; [|done]. eapply only_trans; [exact H1|]. eapply only_mono; [|apply WriteFile_only]. set_solver.
Qed.

Lemma writeCACert_only w path contents force h : only [path; Dir path] h (writeCACertIfNotExists w path contents force h).1.
Proof.
  unfold writeCACertIfNotExists. destruct (ReadFile w path h); [|apply mkdir_write_only|done].
  case_bool_decide; [done|]. destruct force; [apply mkdir_write_only|done].
Qed.

Lemma writePrincipals_only w `{PrincipalsJson} path u n h r :
  writePrincipals w path u n h = Ret r → only [path; Dir path] h r.1.
Proof.
  unfold writePrincipals. destruct (_ || _); [by intros [= <-]|]. destruct (match ReadFile w path h with RData _ => _ | _ => _ end); [|done].
  match goal with |- context [pj_encode ?x] => pose proof (mkdir_write_only w path (pj_encode x) h) as Ho end.
  destruct (MkdirAll w (Dir path) h) as [h1 ok]. intros [= <-]. exact Ho.
Qed.

(** ** Lemmas: sudoers *)

Definition tmpPath (username : string) : string := sudoersPath username +:+ ".tmp".

Lemma writeSudoers_only w u c h : only [sudoersPath u; tmpPath u] h (writeSudoersFile w u c h).1.
Proof.
  unfold writeSudoersFile. fold (tmpPath u). destruct (WriteFile w (tmpPath u) c h) as [h1 ok] eqn:E1.
  assert (only [sudoersPath u; tmpPath u] h h1) as H1.
  { replace h1 with (WriteFile w (tmpPath u) c h).1 by by rewrite E1. eapply only_mono; [|apply WriteFile_only]. set_solver. }
  destruct ok; [|done]. simpl. set (h2 := mkHost (h_fs h1) _ _). assert (only [sudoersPath u; tmpPath u] h h2) as H2 by exact H1.
  assert (∀ h3, only [sudoersPath u; tmpPath u] h h3 → only [sudoersPath u; tmpPath u] h (Remove w (tmpPath u) h3)) as Hrm.
  { intros h3 H3. eapply only_trans; [exact H3|]. eapply only_mono; [|apply Remove_only]. set_solver. }
  destruct (m_io w _); [|by apply Hrm]. simpl. destruct (Rename w (tmpPath u) (sudoersPath u) h2) as [h3 ok'] eqn:E3.
  assert (only [sudoersPath u; tmpPath u] h h3) as H3.
  { eapply only_trans; [exact H2|]. replace h3 with (Rename w (tmpPath u) (sudoersPath u) h2).1 by by rewrite E3.
    eapply only_mono; [|apply Rename_only]. set_solver. }
  destruct ok'; [done|by apply Hrm].
Qed.

Lemma applySudo_only w drop u meta h : only [sudoersPath u; tmpPath u] h (applySudo w drop u meta h).
Proof.
  assert (only [sudoersPath u; tmpPath u] h (removeSudoers w u h)) as Hrm
    by (eapply only_mono; [|apply Remove_only]; set_solver).
  unfold applySudo. repeat case_bool_decide; [apply writeSudoers_only| |done].
  destruct (0 <? _)%nat; [|by destruct drop]. unfold configureSudoCommands. destruct (_ =? 0)%nat; [done|apply writeSudoers_only].
Qed.

Lemma tmp_ne u : tmpPath u ≠ sudoersPath u.
Proof.
  unfold tmpPath. intros E%(f_equal (λ s, length (str s))). rewrite str_app, length_app in E. change (length (str ".tmp")) with 4%nat in E. lia.
Qed.

(** Neither of the two paths of a user is a directory. *)
Definition sudoersFree (u : string) (h : host) : Prop :=
  h_fs h !! sudoersPath u ≠ Some NDir ∧ h_fs h !! tmpPath u ≠ Some NDir.

Lemma writeSudoers_ok w u c h :
  (∀ o, m_io w o = true) → sudoersFree u h → h_fs (writeSudoersFile w u c h).1 !! sudoersPath u = Some (NFile c).
Proof.
  intros Hio [Hs Ht]. unfold writeSudoersFile. fold (tmpPath u). unfold WriteFile, runCommand, Rename.
  rewrite Hio, bool_decide_false by done. cbn. rewrite Hio. cbn. rewrite lookup_insert_eq, Hio.
  rewrite bool_decide_false; [cbn; by rewrite lookup_insert_eq|].
  rewrite lookup_insert_ne by apply tmp_ne. done.
Qed.

(** ** Lemmas: lines *)

Definition oneLine (s : string) : Prop := Forall (λ c, Ascii.eqb c newline = false) (str s).

Lemma fileLines_cons l s : oneLine l → fileLines (l +:+ nl +:+ s) = l :: fileLines s.
Proof.
  intros Hl. unfold fileLines. rewrite !str_app. unfold nl. rewrite str_unstr. cbn [app].
  rewrite splitOn_app by done. rewrite fmap_cons, unstr_str. done.
Qed.

Lemma fileLines_nil : fileLines "" = [""%string].
Proof. done. Qed.

Definition linesText (ls : list string) : string := foldr (λ l acc, l +:+ nl +:+ acc) ""%string ls.

Lemma fileLines_linesText ls : Forall oneLine ls → fileLines (linesText ls) = ls ++ [""%string].
Proof. induction 1 as [|l ls Hl _ IH]; [done|]. simpl linesText. rewrite fileLines_cons by done. rewrite IH. done. Qed.

Lemma string_app_assoc (a b c : string) : (a +:+ b) +:+ c = a +:+ b +:+ c.
Proof. induction a as [|x a IH]; [done|]. exact (f_equal (String x) IH). Qed.

Lemma string_app_nil (a : string) : a +:+ "" = a.
Proof. induction a as [|x a IH]; [done|]. exact (f_equal (String x) IH). Qed.

Lemma foldl_lines acc ls : foldl String.app acc ((λ l, l +:+ nl) <$> ls) = acc +:+ linesText ls.
Proof.
  revert acc. induction ls as [|l ls IH]; intros acc; simpl; [by rewrite string_app_nil|].
  rewrite IH. by rewrite !string_app_assoc.
Qed.

Definition nonblank (cs : list string) : list string := filter (λ c, c ≠ ""%string) (trim <$> cs).

Definition grantLine (u c : string) : string := u +:+ " ALL=(ALL) NOPASSWD: " +:+ c.

Lemma sudoCommandLines_eq u cs : sudoCommandLines u cs = (λ l, l +:+ nl) <$> (grantLine u <$> nonblank cs).
Proof.
  induction cs as [|c cs IH]; [done|]. unfold sudoCommandLines, nonblank in *. rewrite fmap_cons. cbn [omap list_omap].
  destruct (decide (trim c = "")) as [E|E].
  - rewrite bool_decide_true, filter_cons_False by (by auto). exact IH.
  - rewrite bool_decide_false, filter_cons_True by done. cbv beta iota zeta. rewrite !fmap_cons.
    f_equal; [unfold grantLine; by rewrite !string_app_assoc|exact IH].
Qed.

(** The lines of a sudoers file that grant something. *)
Definition grants (n : option node) : list string :=
  match n with
  | Some (NFile d) => filter (λ l, l ≠ ""%string ∧ head (str l) ≠ Some "#"%char) (fileLines d)
  | _ => []
  end.

(** A line that sudo reads as a grant to [u]. *)
Definition userName (u : string) : Prop := u ≠ ""%string ∧ head (str u) ≠ Some "#"%char ∧ oneLine u.

Lemma oneLine_app a b : oneLine a → oneLine b → oneLine (a +:+ b).
Proof. intros. unfold oneLine. rewrite str_app. by apply Forall_app. Qed.

Lemma grants_text comment ls :
  oneLine comment → head (str comment) = Some "#"%char → Forall oneLine ls →
  Forall (λ l, l ≠ ""%string ∧ head (str l) ≠ Some "#"%char) ls →
  grants (Some (NFile (comment +:+ nl +:+ linesText ls))) = ls.
Proof.
  intros Hc Hh Hls Hg. unfold grants. rewrite fileLines_cons, fileLines_linesText by done.
  rewrite filter_cons_False by naive_solver. rewrite filter_app. rewrite list_filter_all by (intros x Hx; by_forall Hg).
  rewrite filter_cons_False by naive_solver. by rewrite filter_nil, app_nil_r.
Qed.

Lemma grant_app u s : userName u → (u +:+ s) ≠ ""%string ∧ head (str (u +:+ s)) ≠ Some "#"%char.
Proof. intros (Hu & Hh & _). by destruct u. Qed.

(** The grants a request asks for; blank commands and, for a new account, no
    commands leave the old file. *)
Definition sudoGrants (drop : bool) (u : string) (meta : ConnectionMetadata) (old : list string) : list string :=
  if bool_decide (md_SudoMode meta = "full"%string) then [u +:+ " ALL=(ALL) NOPASSWD:ALL"]
  else if bool_decide (md_SudoMode meta = "commands"%string) then
    match nonblank (md_SudoCommands meta) with
    | [] => if drop && bool_decide (md_SudoCommands meta = []) then [] else old
    | cs => grantLine u <$> cs
    end
  else [].

Lemma removeSudoers_ok w u h : (∀ o, m_io w o = true) → h_fs (removeSudoers w u h) !! sudoersPath u = None.
Proof. intros Hio. unfold removeSudoers, Remove. rewrite Hio. simpl. apply lookup_delete_eq. Qed.

Lemma full_text u : fullSudo u = "# Created by Pangolin auth-daemon" +:+ nl +:+ linesText [u +:+ " ALL=(ALL) NOPASSWD:ALL"].
Proof. unfold fullSudo, linesText. simpl foldr. by rewrite string_app_nil, !string_app_assoc. Qed.

Ltac one_line := repeat first [apply oneLine_app; [done|] | apply oneLine_app]; unfold oneLine; vm_compute; repeat constructor.

Lemma applySudo_grants w drop u meta h :
  (∀ o, m_io w o = true) → sudoersFree u h → userName u → Forall (λ c, oneLine (trim c)) (md_SudoCommands meta) →
  grants (h_fs (applySudo w drop u meta h) !! sudoersPath u) = sudoGrants drop u meta (grants (h_fs h !! sudoersPath u)).
Proof.
  intros Hio Hf Hu Hc. unfold applySudo, sudoGrants. case_bool_decide as Em; [|case_bool_decide as Em'].
  - unfold configurePasswordlessSudo. rewrite writeSudoers_ok, full_text by done.
    destruct Hu as (Hu & Hh & Ho). apply grants_text; [by one_line|done| |].
    + constructor; [by one_line|constructor].
    + constructor; [by apply grant_app|constructor].
  - destruct (md_SudoCommands meta) as [|c cs] eqn:Ec; [simpl; destruct drop; [by rewrite removeSudoers_ok|done]|].
    rewrite <- Ec in *. replace (0 <? length (md_SudoCommands meta))%nat with true by (by rewrite Ec).
    rewrite (bool_decide_false (md_SudoCommands meta = [])) by (by rewrite Ec). rewrite andb_false_r.
    unfold configureSudoCommands. rewrite sudoCommandLines_eq, foldl_lines, !length_fmap.
    destruct (nonblank (md_SudoCommands meta)) as [|x xs] eqn:En; [done|].
    replace (length (x :: xs) =? 0)%nat with false by done. rewrite writeSudoers_ok by done. rewrite string_app_assoc.
    assert (Forall oneLine (x :: xs)) as Hx.
    { rewrite <- En. apply Forall_forall. intros y [_ (z & -> & Hz)%list_elem_of_fmap]%list_elem_of_filter. by_forall Hc. }
    apply grants_text; [by one_line|done|..].
    + apply Forall_fmap. eapply Forall_impl; [exact Hx|]. intros y Hy. simpl. unfold grantLine.
      destruct Hu as (_ & _ & Ho). apply oneLine_app; [done|]. apply oneLine_app; [|done]. by one_line.
    + apply Forall_fmap, Forall_forall. intros y _. by apply grant_app.
  - by rewrite removeSudoers_ok.
Qed.

Definition is_visudo (c : command) : Prop := match c with Visudo _ => True | _ => False end.

Lemma applySudo_log w drop u meta h : ∃ l, h_log (applySudo w drop u meta h) = h_log h ++ l ∧ Forall is_visudo l.
Proof.
  assert (∀ p h, h_log (Remove w p h) = h_log h) as Hrm by (intros; unfold Remove; by destruct (m_io w _)).
  assert (∀ c, ∃ l, h_log (writeSudoersFile w u c h).1 = h_log h ++ l ∧ Forall is_visudo l) as Hw.
  { intros c. unfold writeSudoersFile, WriteFile. destruct (_ && _); [|exists []; by rewrite app_nil_r]. cbn.
    exists [Visudo c]. split; [|by repeat constructor]. destruct (m_io w _); [|simpl; by rewrite Hrm]. cbn. unfold Rename.
    simpl. rewrite lookup_insert_eq. destruct (_ && _); simpl; [done|by rewrite Hrm]. }
  unfold applySudo. repeat case_bool_decide; [apply Hw| |exists []; unfold removeSudoers; by rewrite Hrm, app_nil_r].
  destruct (0 <? _)%nat; [unfold configureSudoCommands; destruct (_ =? 0)%nat; [exists []; by rewrite app_nil_r|apply Hw]|].
  exists []. rewrite app_nil_r. destruct drop; [unfold removeSudoers; by rewrite Hrm|done].
Qed.

(** ** Lemmas: groups and principals *)

Lemma addDistinct_spec xs l :
  NoDup l → NoDup (foldl addDistinct l xs) ∧ ∀ x, x ∈ foldl addDistinct l xs ↔ x ∈ l ∨ (x ∈ xs ∧ x ≠ ""%string).
Proof.
  revert l. induction xs as [|y xs IH]; intros l Hl; simpl; [set_solver|].
  assert (NoDup (addDistinct l y) ∧ ∀ x, x ∈ addDistinct l y ↔ x ∈ l ∨ (x = y ∧ x ≠ ""%string)) as [Hd Hi].
  { unfold addDistinct. case_bool_decide; simpl; [set_solver|]. case_bool_decide; [set_solver|]. split; [|set_solver].
    apply NoDup_app. split_and!; [done|set_solver|apply NoDup_singleton]. }
  destruct (IH _ Hd) as [Hn Hx]. split; [done|]. intros x. rewrite Hx, Hi. set_solver.
Qed.

Lemma desiredGroups_spec w meta h :
  NoDup (desiredGroups w meta h) ∧
  ∀ g, g ∈ desiredGroups w meta h ↔
    (g ≠ ""%string ∧ g ∈ trim <$> md_Groups meta) ∨ (md_SudoMode meta = "full"%string ∧ g = sudoGroup w h).
Proof.
  unfold desiredGroups. destruct (addDistinct_spec (trim <$> md_Groups meta) [] (NoDup_nil_2)) as [Hn Hi].
  case_bool_decide as Em; [case_bool_decide as Es|].
  - split; [done|]. intros g. rewrite Hi. split; [set_solver|]. intros [?|[_ ->]]; [set_solver|]. by apply Hi.
  - split; [apply NoDup_app; split_and!; [done|set_solver|apply NoDup_singleton]|]. intros g. rewrite elem_of_app, Hi. set_solver.
  - split; [done|]. intros g. rewrite Hi. set_solver.
Qed.

(** ** Lemmas: home directories *)

Lemma reconcileHome_frame w u h p :
  p ≠ ac_HomeDir u → (∀ n, (p, n) ∉ skelPaths w (ac_HomeDir u)) → h_fs (reconcileHome w u h) !! p = h_fs h !! p.
Proof.
  intros Hp Hs.
  assert (∀ uid gid h, h_fs (copySkelInto w (ac_HomeDir u) uid gid h) !! p = h_fs h !! p) as Hc.
  { intros uid gid h0. destruct (copySkelInto_grows w (ac_HomeDir u) uid gid h0) as [Hk Hn _ _ _].
    destruct (h_fs (copySkelInto _ _ _ _ _) !! p) as [n|] eqn:E.
    - by destruct (Hn p n E) as [->|[_ []%Hs]].
    - destruct (h_fs h0 !! p) eqn:E0; [|done]. eapply lookup_weaken in E0; [|exact Hk]. congruence. }
  assert (∀ uid gid h, h_fs (Chown w (ac_HomeDir u) uid gid h) = h_fs h) as Ho by (intros; unfold Chown; by destruct (m_io w _)).
  unfold reconcileHome, MkdirAll. destruct (h_fs h !! ac_HomeDir u) as [[|]|]; [done|apply Hc|].
  destruct (m_io w _); [|done]. rewrite Hc, Ho. simpl. by rewrite lookup_insert_ne.
Qed.

Lemma reconcileHome_log w u h : h_log (reconcileHome w u h) = h_log h.
Proof.
  unfold reconcileHome, MkdirAll. destruct (h_fs h !! ac_HomeDir u) as [[|]|]; [done|by rewrite (gr_log _ _ _ _ _ _ (copySkelInto_grows _ _ _ _ _))|].
  destruct (m_io w _); [|done]. rewrite (gr_log _ _ _ _ _ _ (copySkelInto_grows _ _ _ _ _)). unfold Chown. by destruct (m_io w _).
Qed.

(** The paths of the four parts do not meet. *)
Definition separate (w : machine) (cfg : DaemonConfig) (u home : string) : Prop :=
  let sudo := [sudoersPath u; tmpPath u] in
  let ca := [ad_CACertPath cfg; Dir (ad_CACertPath cfg)] in
  let prin := [ad_PrincipalsFilePath cfg; Dir (ad_PrincipalsFilePath cfg)] in
  (∀ x, x ∈ sudo → (x ∉ home :: ca ++ prin) ∧ ∀ n, (x, n) ∉ skelPaths w home) ∧
  (ad_PrincipalsFilePath cfg ∉ home :: sudo ++ ca) ∧ ∀ n, (ad_PrincipalsFilePath cfg, n) ∉ skelPaths w home.

Lemma reconcileUser_frame w u meta h p :
  p ∉ [sudoersPath (ac_Username u); tmpPath (ac_Username u); ac_HomeDir u] → (∀ n, (p, n) ∉ skelPaths w (ac_HomeDir u)) →
  h_fs (reconcileUser w u meta h) !! p = h_fs h !! p.
Proof.
  intros Hp Hs. unfold reconcileUser. set (h1 := setUserGroups w _ _ h).
  assert (h_fs (applySudo w true (ac_Username u) meta h1) !! p = h_fs h !! p) as E.
  { rewrite (applySudo_only w true (ac_Username u) meta h1) by set_solver. done. }
  destruct (_ && _); [|done]. rewrite reconcileHome_frame by set_solver. done.
Qed.

Lemma writePrincipals_total w `{PrincipalsJson} path u n h :
  (∀ d, h_fs h !! path = Some (NFile d) → (pj_parse d).2 ≠ None) → ∃ r, writePrincipals w path u n h = Ret r.
Proof.
  intros Hd. unfold writePrincipals, ReadFile. destruct (_ || _); [by eexists|].
  destruct (m_io w _); [|destruct (MkdirAll w _ h); by eexists].
  destruct (h_fs h !! path) as [[d|]|]; [|destruct (MkdirAll w _ h); by eexists..].
  destruct (pj_parse d).2 eqn:E; [|by destruct (Hd d)]. destruct (MkdirAll w _ h). by eexists.
Qed.

Lemma writeCACert_log w path c force h : h_log (writeCACertIfNotExists w path c force h).1 = h_log h.
Proof. unfold writeCACertIfNotExists, WriteFile, MkdirAll. by repeat (case_match; simplify_eq/=). Qed.

Lemma writePrincipals_log w `{PrincipalsJson} path u n h r : writePrincipals w path u n h = Ret r → h_log r.1 = h_log h.
Proof. unfold writePrincipals, WriteFile, MkdirAll. by repeat (case_match; simplify_eq/=); intros; simplify_eq/=. Qed.

Lemma reconcileUser_rights w acc meta h :
  let u := ac_Username acc in
  (∀ o, m_io w o = true) → userName u → Forall (λ c, oneLine (trim c)) (md_SudoCommands meta) → sudoersFree u h →
  sudoersPath u ≠ ac_HomeDir acc → (∀ n, (sudoersPath u, n) ∉ skelPaths w (ac_HomeDir acc)) →
  grants (h_fs (reconcileUser w acc meta h) !! sudoersPath u) = sudoGrants true u meta (grants (h_fs h !! sudoersPath u)) ∧
  ∃ checks, h_log (reconcileUser w acc meta h) = h_log h ++ Usermod (Join (desiredGroups w meta h) ",") u :: checks ∧
    Forall is_visudo checks.
Proof.
  intros u Hio Hu Hc Hf Hh Hs. unfold reconcileUser. fold u. set (h1 := setUserGroups w u _ h). split.
  - pose proof (applySudo_grants w true u meta h1 Hio Hf Hu Hc) as Hg. destruct (_ && _); [|exact Hg].
    by rewrite reconcileHome_frame.
  - destruct (applySudo_log w true u meta h1) as (l & El & Hv). exists l. split; [|done].
    destruct (_ && _); [rewrite reconcileHome_log|]; rewrite El; cbn; by rewrite <- app_assoc.
Qed.

(** The last part of [ProcessConnection]. *)
Lemma principals_stage w `{PrincipalsJson} path u n h :
  (∀ d, h_fs h !! path = Some (NFile d) → (pj_parse d).2 ≠ None) →
  ∃ h', (if bool_decide (path = "") || bool_decide (n = "") then Ret h else r ← writePrincipals w path u n h; Ret r.1) = Ret h' ∧
    only [path; Dir path] h h' ∧ h_log h' = h_log h.
Proof.
  intros Hd. destruct (_ || _); [by exists h|]. destruct (writePrincipals_total w path u n h Hd) as [r Er]. exists r.1.
  rewrite Er. split_and!; [done|by eapply writePrincipals_only|by eapply writePrincipals_log].
Qed.

Lemma sudoGroup_cases w h : sudoGroup w h ∈ ["wheel"; "sudo"]%string.
Proof. unfold sudoGroup. repeat case_match; set_solver. Qed.

(** ** Lemmas: the principals file *)

Definition plainMap (m : gmap string (list string)) : Prop := ∀ u l, m !! u = Some l → plainText u ∧ Forall plainText l.

(** The file at [path] stands for the map [m] and can be written. *)
Record holdsMap `{PrincipalsJson} (path : string) (m : gmap string (list string)) (h : host) : Prop := {
  hm_plain : plainMap m;
  hm_file : h_fs h !! path = Some (NFile (pj_encode m)) ∨ (h_fs h !! path = None ∧ m = ∅);
  hm_apart : Dir path ≠ path;
  hm_dir : ∀ d, h_fs h !! Dir path ≠ Some (NFile d) }.

Lemma holdsMap_read w `{PrincipalsJsonLaws} path m h :
  (∀ o, m_io w o = true) → path ≠ ""%string → holdsMap path m h →
  match ReadFile w path h with RData raw => (pj_parse raw).2 | _ => Some ∅ end = Some m ∧
  ∀ u, GetPrincipals w path u h = Some (default [] (m !! u)).
Proof.
  intros Hio Hp [Hpl Hf _ _]. unfold GetPrincipals, ReadFile. rewrite Hio, bool_decide_false by done.
  destruct Hf as [->|[-> ->]]; [by rewrite pj_roundtrip by done|done].
Qed.

Lemma writePrincipals_step w `{PrincipalsJsonLaws} path u n m h :
  (∀ o, m_io w o = true) → path ≠ ""%string → plainText (trim u) → plainText (trim n) → trim u ≠ ""%string → holdsMap path m h →
  ∃ h', writePrincipals w path u n h = Ret (h', true) ∧
    holdsMap path (<[trim u := foldl addDistinct (default [] (m !! trim u)) [trim u; trim n]]> m) h'.
Proof.
  intros Hio Hp Hu Hn Hne Hm. destruct (holdsMap_read w path m h Hio Hp Hm) as [Er _]. destruct Hm as [Hpl Hf Ha Hd].
  unfold writePrincipals. rewrite !bool_decide_false by done. cbn [orb]. rewrite Er. cbn [mbind option_bind].
  set (ps := foldl addDistinct _ _). set (m' := <[_ := ps]> m).
  assert (plainMap m') as Hpl'.
  { intros x l. subst m'. destruct (decide (x = trim u)) as [->|]; [|rewrite lookup_insert_ne by done; apply Hpl].
    rewrite lookup_insert_eq. intros [= <-]. split; [done|]. assert (Forall plainText (default [] (m !! trim u))) as Hl.
    { destruct (m !! trim u) as [l|] eqn:El; [by apply (Hpl _ _ El)|constructor]. }
    assert (∀ l p, Forall plainText l → plainText p → Forall plainText (addDistinct l p)) as Hadd.
    { intros l p ??. unfold addDistinct. destruct (_ || _); [done|]. apply Forall_app. auto. }
    subst ps. simpl. by auto. }
  assert (∃ h1, MkdirAll w (Dir path) h = (h1, true) ∧ h_fs h1 !! path = h_fs h !! path ∧ h_fs h1 !! Dir path = Some NDir)
    as (h1 & -> & E1 & E2).
  { unfold MkdirAll. destruct (h_fs h !! Dir path) as [[d|]|] eqn:E; [by destruct (Hd d)|by exists h|]. rewrite Hio.
    eexists. split; [done|]. simpl. by rewrite lookup_insert_ne, lookup_insert_eq. }
  unfold WriteFile. rewrite Hio, bool_decide_false by (rewrite E1; naive_solver). eexists. split; [done|].
  split; simpl; [done|left; by rewrite lookup_insert_eq|done|]. rewrite lookup_insert_ne by done. by rewrite E2.
Qed.

(** The announcements of a session. *)
Fixpoint announce w `{PrincipalsJson} (path : string) (l : list (string * string)) (h : host) : go host :=
  match l with
  | [] => Ret h
  | (u, n) :: l' => r ← writePrincipals w path u n h; announce w path l' r.1
  end.

(** [p] was announced for the user [u]. *)
Definition announced (l : list (string * string)) (u p : string) : Prop :=
  u ≠ ""%string ∧ p ≠ ""%string ∧ ∃ u' n, (u', n) ∈ l ∧ trim u' = u ∧ (p = u ∨ p = trim n).

Definition lists (m : gmap string (list string)) (l : list (string * string)) : Prop :=
  ∀ u, NoDup (default [] (m !! u)) ∧ ∀ p, p ∈ default [] (m !! u) ↔ announced l u p.

Lemma announced_app l u n x p :
  announced (l ++ [(u, n)]) x p ↔
  announced l x p ∨ (x ≠ ""%string ∧ p ≠ ""%string ∧ trim u = x ∧ (p = x ∨ p = trim n)).
Proof.
  unfold announced. split.
  - intros (Hx & Hp & u' & n' & [Hin|[= -> ->]%list_elem_of_singleton]%elem_of_app & ?); [left|right]; naive_solver.
  - intros [(Hx & Hp & u' & n' & Hin & ?)|(Hx & Hp & ?)].
    + split_and!; [done..|]. exists u', n'. split; [|done]. apply elem_of_app. by left.
    + split_and!; [done..|]. exists u, n. split; [|done]. apply elem_of_app. right. by apply list_elem_of_singleton.
Qed.

Lemma lists_add m l u n :
  lists m l → trim u ≠ ""%string →
  lists (<[trim u := foldl addDistinct (default [] (m !! trim u)) [trim u; trim n]]> m) (l ++ [(u, n)]).
Proof.
  intros Hm Hu x. destruct (decide (x = trim u)) as [->|Hx].
  - rewrite lookup_insert_eq. destruct (Hm (trim u)) as [Hn Hi].
    destruct (addDistinct_spec [trim u; trim n] _ Hn) as [Hn' Hi']. split; [done|]. intros p.
    rewrite announced_app. cbn [default from_option]. rewrite Hi', Hi, !elem_of_cons, elem_of_nil. naive_solver.
  - rewrite lookup_insert_ne by done. destruct (Hm x) as [Hn Hi]. split; [done|]. intros p. rewrite Hi, announced_app. naive_solver.
Qed.

Lemma lists_skip m l u n : lists m l → trim u = ""%string → lists m (l ++ [(u, n)]).
Proof. intros Hm Hu x. destruct (Hm x) as [Hn Hi]. split; [done|]. intros p. rewrite Hi, announced_app. naive_solver congruence. Qed.

Lemma announce_ok w `{PrincipalsJsonLaws} path l : ∀ done m h,
  (∀ o, m_io w o = true) → path ≠ ""%string → Forall (λ '(u, n), plainText (trim u) ∧ plainText (trim n)) l →
  holdsMap path m h → lists m done →
  ∃ h' m', announce w path l h = Ret h' ∧ holdsMap path m' h' ∧ lists m' (done ++ l).
Proof.
  induction l as [|[u n] l IH]; intros done m h Hio Hp Hl Hm Hd; simpl.
  - exists h, m. by rewrite app_nil_r.
  - apply Forall_cons in Hl as [[Hu Hn] Hl]. rewrite (app_assoc done [(u, n)] l : done ++ (u, n) :: l = _).
    destruct (decide (trim u = "")) as [E|E].
    + unfold writePrincipals. rewrite E, (bool_decide_true (""%string = "")), orb_true_r by done. cbn. apply (IH _ m); [done..|].
      by apply lists_skip.
    + destruct (writePrincipals_step w path u n m h) as (h1 & -> & Hm1); [done..|]. cbn. eapply IH; [done..|].
      by apply lists_add.
Qed.

(** ** Properties *)


(** Rights that should go can stay.  In mode commands, a list of blank
    commands leaves the old sudoers file, also one that grants everything;
    when the check of the new file fails, in either mode, the old file stays;
    and a new account without commands keeps a file left behind by an earlier
    account of its name. *)
Theorem rights_not_revoked w drop u meta h :
  (md_SudoMode meta = "commands"%string → md_SudoCommands meta ≠ [] → nonblank (md_SudoCommands meta) = [] →
     applySudo w drop u meta h = h) ∧
  ((∀ c, m_io w (ORun (Visudo c)) = false) → md_SudoMode meta ∈ ["full"; "commands"]%string → md_SudoCommands meta ≠ [] →
     h_fs (applySudo w drop u meta h) !! sudoersPath u = h_fs h !! sudoersPath u) ∧
  (md_SudoMode meta = "commands"%string → md_SudoCommands meta = [] → applySudo w false u meta h = h).
Proof.
  split_and!.
  - intros Em Hc Hn. unfold applySudo. rewrite bool_decide_false by (by rewrite Em). rewrite bool_decide_true by done.
    destruct (0 <? _)%nat eqn:E; [|by destruct (md_SudoCommands meta)]. unfold configureSudoCommands. by rewrite sudoCommandLines_eq, Hn.
  - intros Hv Hm Hc. assert (∀ c, h_fs (writeSudoersFile w u c h).1 !! sudoersPath u = h_fs h !! sudoersPath u) as Hw.
    { intros c. unfold writeSudoersFile, WriteFile. destruct (_ && _); [|done]. cbn. rewrite Hv. cbn. unfold Remove.
      pose proof (tmp_ne u). destruct (m_io w _); simpl; [rewrite lookup_delete_ne by done|]; by rewrite lookup_insert_ne. }
    unfold applySudo. case_bool_decide; [apply Hw|]. rewrite bool_decide_true by set_solver.
    destruct (0 <? _)%nat eqn:E; [|by destruct (md_SudoCommands meta)]. unfold configureSudoCommands. destruct (_ =? 0)%nat; [done|apply Hw].
  - intros Em Hc. unfold applySudo. rewrite Hc, bool_decide_false by (by rewrite Em). by rewrite bool_decide_true.
Qed.

(** Copying the skeleton into a home directory never touches what is there:
    every path keeps its content, what is new is a file or directory of the
    skeleton, and when the host's operations succeed all of it belongs to the
    user. *)
Theorem skel_preserves w dst uid gid h :
  let h' := copySkelInto w dst uid gid h in
  (∀ p n, h_fs h !! p = Some n → h_fs h' !! p = Some n) ∧
  (∀ p n, h_fs h !! p = None → h_fs h' !! p = Some n → (p, n) ∈ skelPaths w dst) ∧
  ((∀ o, m_io w o = true) → ∀ p, h_fs h !! p = None → is_Some (h_fs h' !! p) → h_owner h' !! p = Some (uid, gid)).
Proof.
  intros h'. destruct (copySkelInto_grows w dst uid gid h) as [Hk Hn Ho _ _]. split_and!; [|naive_solver congruence|done].
  intros p n Hp. by eapply lookup_weaken.
Qed.

(** Only a holder of the preshared key changes the host over HTTPS, and only by
    posting a connection. *)
Theorem daemon_gate w `{PrincipalsJson} cfg r h st h' :
  serveHTTP w cfg r h = Ret (st, h') → h' ≠ h →
  st = 200 ∧ hr_Method r = "POST"%string ∧ hr_Path r = "/connection"%string ∧ ad_PresharedKey cfg ≠ ""%string ∧
  (bearerKey (hr_Authorization r) = ad_PresharedKey cfg ∨ trim (hr_XPresharedKey r) = ad_PresharedKey cfg).
Proof.
  unfold serveHTTP. destruct (authorized _ _ _) eqn:Ea; simpl; [|by intros [= <- <-]]. case_bool_decide; [by intros [= <- <-]|].
  case_bool_decide; [|by intros [= <- <-]]. case_bool_decide; simpl; [|by intros [= <- <-]].
  destruct (hr_Body r); [|by intros [= <- <-]]. destruct (ProcessConnection w cfg c h); [|done]. intros [= <- <-] _.
  unfold authorized in Ea. apply andb_true_iff in Ea as [Hne Heq]. apply bool_decide_eq_true in Heq.
  apply negb_true_iff, bool_decide_eq_false in Hne. split_and!; [done..|congruence|].
  revert Heq. case_bool_decide; auto.
Qed.

(** What sshd is told about a user's principals is what was announced.  From a
    host without the file, when the host's operations succeed, after any
    announcements [newt principals] prints for a user exactly its own name and
    the ids announced for it, each once, and nothing for others. *)
Theorem principals_roundtrip w `{PrincipalsJsonLaws} path l h :
  (∀ o, m_io w o = true) → path ≠ ""%string → Dir path ≠ path → h_fs h !! path = None →
  (∀ d, h_fs h !! Dir path ≠ Some (NFile d)) → Forall (λ '(u, n), plainText (trim u) ∧ plainText (trim n)) l →
  ∃ h', announce w path l h = Ret h' ∧
  ∀ u, ∃ ps, GetPrincipals w path u h' = Some ps ∧ NoDup ps ∧ ∀ p, p ∈ ps ↔ announced l u p.
Proof.
  intros Hio Hp Hdir Hf Hd Hl. destruct (announce_ok w path l [] ∅ h) as (h' & m & Ha & Hm & Hli); [done..| | |].
  - split; [by intros u ps|by right|done|done].
  - intros u. rewrite lookup_empty. split; [constructor|]. intros p. split; [by intros ?%elem_of_nil|by intros (_ & _ & ? & ? & ?%elem_of_nil & _)].
  - exists h'. split; [done|]. intros u. exists (default [] (m !! u)). destruct (Hli u) as [Hn Hi].
    split_and!; [by apply holdsMap_read|done|exact Hi].
Qed.

(** ** Examples *)

Module DaemonExamples.

(** A codec for the map: the bits of its number. *)
Fixpoint bits (p : positive) : string :=
  match p with xH => "" | xO q => String "0" (bits q) | xI q => String "1" (bits q) end.
Fixpoint unbits (s : string) : positive :=
  match s with
  | EmptyString => xH
  | String c s' => if Ascii.eqb c "0" then xO (unbits s') else xI (unbits s')
  end.

Lemma unbits_bits p : unbits (bits p) = p.
Proof. induction p; simpl; congruence. Qed.

#[export] Instance bit_json : PrincipalsJson :=
  {| pj_parse s := (true, decode (unbits s)); pj_encode m := bits (encode m) |}.

#[export] Instance bit_json_laws : PrincipalsJsonLaws.
Proof. intros m _. simpl. by rewrite unbits_bits, decode_encode. Qed.

Definition alice : account := mkAccount "alice" "/home/alice" "1000" "1000".

Definition m0 : machine :=
  mkMachine (λ _, true) (λ _ u, if bool_decide (u = "alice"%string) then Found alice else UnknownUser)
    (Some [SkelFile ".bashrc" (Some "alias ll='ls -l'"%string)]).

Definition cfg0 : DaemonConfig := embeddedConfig "" "" false.
Definition groupFile : string := "root:x:0:" +:+ nl +:+ "sudo:x:27:" +:+ nl.

Definition h0 : host :=
  mkHost {[ "/etc/group"%string := NFile groupFile; "/home/alice"%string := NDir; "/home/alice/.profile"%string := NFile "mine" ]} ∅ [].

Definition fullMeta : ConnectionMetadata := mkMeta "full" [] true ["dev"; " dev "; ""]%string.
Definition req0 : ConnectionRequest := mkConnection "ssh-ed25519 CA" "usr-1" "alice" fullMeta.

(** The host after the connection: sudo rights, the skeleton's file with its
    owner, the untouched one, the authority and the principals. *)
Example connection_run :
  match ProcessConnection m0 cfg0 req0 h0 with
  | Ret h =>
      grants (h_fs h !! sudoersPath "alice") = ["alice ALL=(ALL) NOPASSWD:ALL"%string] ∧
      h_fs h !! "/home/alice/.profile"%string = Some (NFile "mine") ∧
      h_owner h !! "/home/alice/.bashrc"%string = Some (1000, 1000) ∧
      h_fs h !! "/etc/ssh/ca.pem"%string = Some (NFile ("ssh-ed25519 CA" +:+ nl)) ∧
      GetPrincipals m0 "/var/run/auth-daemon/principals" "alice" h = Some ["alice"; "usr-1"]%string ∧
      h_log h = [Usermod "dev,sudo" "alice"; Visudo (fullSudo "alice")]
  | Panic => False
  end.
Proof. vm_compute. auto 10. Qed.

(** A command with a line break grants a second line. *)
Example injected_line :
  grants (Some (NFile (foldl String.app ("#" +:+ nl) (sudoCommandLines "bob" ["/bin/ls" +:+ nl +:+ "bob ALL=(ALL) NOPASSWD:ALL"]))))
  = ["bob ALL=(ALL) NOPASSWD: /bin/ls"; "bob ALL=(ALL) NOPASSWD:ALL"]%string.
Proof. by vm_compute. Qed.

(** A concrete path is not in a concrete list. *)
Ltac not_in :=
  let H := fresh in
  intros H; repeat (apply elem_of_cons in H as [H|H]; [vm_compute in H; discriminate H|]); by apply elem_of_nil in H.

Lemma h0_separate : separate m0 cfg0 "alice" "/home/alice".
Proof.
  split; [|split; [not_in|]].
  - intros x Hx. apply elem_of_cons in Hx as [->|Hx%list_elem_of_singleton]; [|subst x]; (split; [not_in|]); intros n; not_in.
  - intros n. not_in.
Qed.


Lemma principals_roundtrip_witness :
  ∃ h', announce m0 "/p/f" [("alice", "u1"); (" alice ", "u2"); ("bob", "")]%string h0 = Ret h' ∧
  GetPrincipals m0 "/p/f" "alice" h' = Some ["alice"; "u1"; "u2"]%string.
Proof.
  destruct (principals_roundtrip m0 "/p/f" [("alice", "u1"); (" alice ", "u2"); ("bob", "")]%string h0) as (h' & Hr & _).
  - done.
  - done.
  - by vm_compute.
  - by vm_compute.
  - intros d Hd. by vm_compute in Hd.
  - repeat constructor.
  - exists h'. split; [exact Hr|]. vm_compute in Hr. injection Hr as <-. by vm_compute.
Defined.

End DaemonExamples.
