(* ===== verification/NativeSSH.v ===== *)
(** * Native SSH ([nativessh/], [browsergateway/ssh_native.go])

    newt can log users in to the host itself, over its own SSH server and over
    the browser gateway.  Three things open an account: a key in the user's
    [authorized_keys], a certificate of the authority the server announced for
    one of the principals announced for that user, and the account's password.
    The session then runs as that user.

    The SSH library is a class ([golang.org/x/crypto/ssh]: parsing, the
    fingerprint and the certificate checker), the host's accounts and files
    and the password hashes are arguments. *)

From S2P Require Import Prelude NetipText HostPort Keys ExitNode Gateway AuthDaemon.
From Stdlib Require Import Ascii.

(** ** The library and the host *)

Class SshLib : Type := {
  PublicKey : Type;
  fingerprintSHA256 : PublicKey → string;
  parseAuthorizedKey : string → option PublicKey;
  (* the public key of a private key *)
  parsePrivateKey : string → option PublicKey;
  (* the key a certificate certifies, when it is one *)
  certKey : PublicKey → option PublicKey;
  (* CertChecker.Authenticate for the authorities accepted, a principal and a key *)
  certAuthenticate : (PublicKey → bool) → string → PublicKey → bool }.

(** What the documentation of [CertChecker] says: only a user certificate is
    accepted, its signer must be an authority, and it must be valid for the
    principal. *)
Class SshLaws `{SshLib} : Type := {
  certSigner : PublicKey → PublicKey;
  certValidFor : PublicKey → string → Prop;
  certAuthenticate_spec auth p k :
    certAuthenticate auth p k = true ↔ is_Some (certKey k) ∧ auth (certSigner k) = true ∧ certValidFor k p }.

Record sshHost : Type := mkSshHost {
  sh_lookup : string → option account;
  sh_groupIds : string → option (list string);
  sh_lines : string → option (list string);           (* the lines of a file *)
  sh_exists : string → bool;                           (* os.Stat *)
  sh_lookPath : string → option string;                (* exec.LookPath *)
  sh_yescrypt : string → string → option string;       (* yescrypt.Hash *)
  sh_crypt : string → string → option bool }.          (* the other schemes: decode and match *)

Section native.
Context `{SshLib} (w : sshHost).

(** ** Credentials *)

Record CredentialStore : Type := mkStore {
  cs_caKey : option PublicKey;
  cs_principals : gmap string (gset string) }.

Definition NewCredentialStore : CredentialStore := mkStore None ∅.

(** False on an error. *)
Definition SetCAKey (data : string) (s : CredentialStore) : CredentialStore * bool :=
  match parseAuthorizedKey data with
  | Some k => (mkStore (Some k) (cs_principals s), true)
  | None => (s, false)
  end.

Definition AddPrincipals (username niceId : string) (s : CredentialStore) : CredentialStore :=
  let username := trim username in
  let niceId := trim niceId in
  if bool_decide (username = "") then s
  else
    let old := default ∅ (cs_principals s !! username) in
    let new := old ∪ {[username]} ∪ (if bool_decide (niceId = "") then ∅ else {[niceId]}) in
    mkStore (cs_caKey s) (<[username := new]> (cs_principals s)).

Definition getCreds (username : string) (s : CredentialStore) : option PublicKey * gset string :=
  (cs_caKey s, default ∅ (cs_principals s !! username)).

(** ** Keys and certificates *)

Definition CheckAuthorizedKeys (username : string) (key : PublicKey) : bool :=
  match sh_lookup w username with
  | None => false
  | Some u =>
      match sh_lines w (pathJoin (pathJoin (ac_HomeDir u) ".ssh") "authorized_keys") with
      | None => false
      | Some ls =>
          existsb (λ l, let line := trim l in
                        if bool_decide (line = "") || HasPrefix (str line) (str "#") then false
                        else match parseAuthorizedKey line with
                             | None => false
                             | Some parsed => bool_decide (fingerprintSHA256 parsed = fingerprintSHA256 key)
                             end) ls
      end
  end.

(** The certificate part of both logins. *)
Definition certAccepted (store : option CredentialStore) (username : string) (key : PublicKey) : bool :=
  match store with
  | None => false
  | Some s =>
      match getCreds username s with
      | (Some caKey, userPrincipals) =>
          if bool_decide (userPrincipals = ∅) then false
          else existsb (λ p, certAuthenticate (λ a, bool_decide (fingerprintSHA256 a = fingerprintSHA256 caKey)) p key)
                 (elements userPrincipals)
      | (None, _) => false
      end
  end.

Definition publicKeyCallback (store : option CredentialStore) (user : string) (key : PublicKey) : bool :=
  if CheckAuthorizedKeys user key then true else certAccepted store user key.

(** ** Passwords *)

(** [strings.SplitN] on a colon. *)
Fixpoint splitN (n : nat) (s : list ascii) : list (list ascii) :=
  match n with
  | O => []
  | S O => [s]
  | S n' => match cut c_colon s with
            | (a, Some b) => a :: splitN n' b
            | (a, None) => [a]
            end
  end.

(** [None] is an error. *)
Definition readShadowHash (username : string) : option string :=
  ls ← sh_lines w "/etc/shadow";
  let fix go ls :=
    match ls with
    | [] => None
    | l :: ls' =>
        match splitN 3 (str l) with
        | name :: h :: _ =>
            if negb (bool_decide (unstr name = username)) then go ls'
            else if bool_decide (h = []) || bool_decide (h = str "*") || HasPrefix h (str "!") || bool_decide (h = str "x") then None
            else Some (unstr h)
        | _ => go ls'
        end
    end in
  go ls.

Definition VerifySystemPassword (username password : string) : bool :=
  match readShadowHash username with
  | None => false
  | Some hash =>
      if HasPrefix (str hash) (str "$y$")
      then match sh_yescrypt w password hash with Some computed => bool_decide (computed = hash) | None => false end
      else match sh_crypt w hash password with Some m => m | None => false end
  end.

(** ** The browser's login *)

Definition SystemUserExists (username : string) : bool := bool_decide (is_Some (sh_lookup w username)).

Definition passwordAccepted (username password : string) : bool :=
  negb (bool_decide (password = "")) && VerifySystemPassword username password.

Definition AuthenticateWithCertificate (store : option CredentialStore) (username password privateKeyPEM certificate : string) : bool :=
  if negb (SystemUserExists username) then false
  else
    let signer := if bool_decide (privateKeyPEM = "") then None else parsePrivateKey privateKeyPEM in
    if match signer with Some k => CheckAuthorizedKeys username k | None => false end then true
    else
      let certOK :=
        match signer with
        | Some k =>
            if bool_decide (certificate = "") then false
            else match parseAuthorizedKey certificate with
                 | Some pub => match certKey pub with
                               | Some ck => bool_decide (fingerprintSHA256 ck = fingerprintSHA256 k) && certAccepted store username pub
                               | None => false
                               end
                 | None => false
                 end
        | None => false
        end in
      if certOK then true else passwordAccepted username password.

(** ** Sessions *)

Record credential : Type := mkCred { cred_uid : Z; cred_gid : Z; cred_groups : list Z }.

(** [strconv.ParseUint(s, 10, 32)] *)
Definition ParseUint32 (s : string) : option Z :=
  if bool_decide (s = "") then None
  else n ← digits_value (str s) 0; if n <? 2 ^ 32 then Some n else None.

Definition credentialOf (username : string) (u : account) : option credential :=
  uid ← ParseUint32 (ac_Uid u);
  gid ← ParseUint32 (ac_Gid u);
  Some (mkCred uid gid (omap ParseUint32 (default [] (sh_groupIds w username)))).

Record process : Type := mkProcess {
  pr_argv : list string; pr_env : list string; pr_dir : string; pr_cred : credential }.

Definition pathVar : string := "PATH=/usr/local/sbin:/usr/local/bin:/usr/sbin:/usr/bin:/sbin:/bin".

Definition workDir (u : account) : string := if sh_exists w (ac_HomeDir u) then ac_HomeDir u else "/".

(** The process [runExecAs] starts; [None]: exit status 1 is sent. *)
Definition runExecAs (username cmd : string) : option process :=
  u ← sh_lookup w username;
  c ← credentialOf username u;
  Some (mkProcess ["/bin/sh"; "-c"; cmd]%string
          ["HOME=" +:+ ac_HomeDir u; "USER=" +:+ username; "LOGNAME=" +:+ username; pathVar]
          (workDir u) c).

Definition findShell : string :=
  default "/bin/sh"%string (for_return (sh_lookPath w) ["zsh"; "bash"; "fish"; "ksh"; "sh"]%string).

Definition passwdShell (username : string) : string :=
  match sh_lines w "/etc/passwd" with
  | None => ""
  | Some ls =>
      default ""%string
        (for_return (λ l, if bool_decide (l = ""%string) || HasPrefix (str l) (str "#") then None
                          else match splitN 7 (str l) with
                               | [name; _; _; _; _; _; shell] => if bool_decide (unstr name = username) then Some (unstr shell) else None
                               | _ => None
                               end) ls)
  end.

Definition userShell (u : account) : string :=
  let shell := passwdShell (ac_Username u) in
  if negb (bool_decide (shell = "")) && bool_decide (is_Some (sh_lookPath w shell)) then shell else findShell.

(** [None] is an error; [starts]: the terminal can be opened. *)
Definition NewPTYSessionAs (username : string) (starts : bool) : option process :=
  u ← sh_lookup w username;
  c ← credentialOf username u;
  let shell := userShell u in
  if starts
  then Some (mkProcess [shell; "--login"%string]
               ["TERM=xterm-256color"%string; "HOME=" +:+ ac_HomeDir u; "USER=" +:+ username; "LOGNAME=" +:+ username;
                "SHELL=" +:+ shell; pathVar]
               (workDir u) c)
  else None.

(** A window size as it is decoded, cut to 16 bits. *)
Definition windowSize (decoded : option (Z * Z)) : Z * Z :=
  match decoded with Some (cols, rows) => (wrap16 cols, wrap16 rows) | None => (80, 24) end.

Inductive sessionReq : Type :=
  | PtyReq (size : option (Z * Z)) (starts : bool)
  | ShellReq
  | ExecReq (cmd : option string)
  | WindowChange (size : option (Z * Z))
  | OtherReq.

Inductive sessionEvent : Type :=
  | OpenPTY (p : process) | Resize (cols rows : Z) | Bridge (* shell connected; closes the terminal when it ends *)
  | RunExec (p : option process) | ClosePTY | Reply (ok : bool).

(** [handleSession] on the requests of a channel: what happens, in order.  An
    exec request leaves the rest to the goroutine that runs the command. *)
Fixpoint handleSession (username : string) (open started : bool) (reqs : list (sessionReq * bool)) : list sessionEvent :=
  match reqs with
  | [] => if open && negb started then [ClosePTY] else []
  | (req, wantReply) :: rest =>
      let reply ok := if wantReply : bool then [Reply ok] else [] in
      match req with
      | PtyReq size starts =>
          let resized := [Resize (windowSize size).1 (windowSize size).2] ++ reply true in
          if open then resized ++ handleSession username open started rest
          else match NewPTYSessionAs username starts with
               | None => reply false
               | Some p => OpenPTY p :: resized ++ handleSession username true started rest
               end
      | ShellReq =>
          if started || negb open then reply true ++ handleSession username open started rest
          else reply true ++ Bridge :: handleSession username open true rest
      | ExecReq cmd => reply true ++ [RunExec (runExecAs username (default ""%string cmd))]
      | WindowChange size =>
          (if open then [Resize (windowSize size).1 (windowSize size).2] else []) ++ reply true ++ handleSession username open started rest
      | OtherReq => reply false ++ handleSession username open started rest
      end
  end.

(** [serveNativeSSHSession] up to the shell; [auth] as in [HandleSSH]. *)
Definition serveNativeSSHSession (store : option CredentialStore) (username : string) (auth : option sshAuthMsg) (starts : bool)
    : option process :=
  m ← auth;
  if AuthenticateWithCertificate store username (sa_Password m) (sa_PrivateKey m) (sa_Certificate m)
  then NewPTYSessionAs username starts else None.

(** The browser's request as a whole. *)
Definition browserShell `{MapRange} (g : Gateway) (lib : sshParsers) (store : option CredentialStore)
    (q : gwQuery) (upgrades : bool) (auth : option sshAuthMsg) (starts : bool) : option process :=
  match HandleSSH g lib q upgrades auth with
  | GwNative username => serveNativeSSHSession store username auth starts
  | _ => None
  end.

End native.

(** ** Lemmas: what opens an account *)

Section laws.
Context `{SshLaws} (w : sshHost).

(** A line of the user's [authorized_keys] with the key's fingerprint. *)
Definition listedKey (u : string) (k : PublicKey) : Prop :=
  ∃ acc ls l parsed, sh_lookup w u = Some acc ∧
    sh_lines w (pathJoin (pathJoin (ac_HomeDir acc) ".ssh") "authorized_keys") = Some ls ∧ l ∈ ls ∧
    trim l ≠ ""%string ∧ HasPrefix (str (trim l)) (str "#") = false ∧
    parseAuthorizedKey (trim l) = Some parsed ∧ fingerprintSHA256 parsed = fingerprintSHA256 k.

(** A certificate of the announced authority, valid for a principal announced
    for the user. *)
Definition certified (store : option CredentialStore) (u : string) (k : PublicKey) : Prop :=
  ∃ s ca ps p, store = Some s ∧ cs_caKey s = Some ca ∧ cs_principals s !! u = Some ps ∧ p ∈ ps ∧
    is_Some (certKey k) ∧ fingerprintSHA256 (certSigner k) = fingerprintSHA256 ca ∧ certValidFor k p.

Lemma CheckAuthorizedKeys_spec u k : CheckAuthorizedKeys w u k = true ↔ listedKey u k.
Proof.
  unfold CheckAuthorizedKeys, listedKey. destruct (sh_lookup w u) as [acc|] eqn:Eu; [|naive_solver].
  destruct (sh_lines w _) as [ls|] eqn:El; [|naive_solver]. rewrite existsb_elem. split.
  - intros (l & Hin & Hl). revert Hl. destruct (_ || _) eqn:Eb; [done|].
    apply orb_false_iff in Eb as [Eb Ec]. apply bool_decide_eq_false in Eb.
    destruct (parseAuthorizedKey (trim l)) as [parsed|] eqn:Ep; [|done]. intros Hf%bool_decide_eq_true.
    exists acc, ls, l, parsed. done.
  - intros (acc' & ls' & l & parsed & [= <-] & Hls & Hin & Hne & Hc & Hp & Hf). rewrite El in Hls. injection Hls as <-.
    exists l. split; [done|]. rewrite bool_decide_false by done. rewrite Hc, Hp. simpl. by apply bool_decide_eq_true.
Qed.

Lemma certAccepted_spec store u k : certAccepted store u k = true ↔ certified store u k.
Proof.
  unfold certAccepted, certified, getCreds. destruct store as [s|]; [|naive_solver].
  destruct (cs_caKey s) as [ca|] eqn:Ec; [|naive_solver]. split.
  - case_bool_decide as Ee; [done|]. intros (p & Hp%elem_of_elements & Ha)%existsb_elem.
    apply certAuthenticate_spec in Ha as (Hk & Hf%bool_decide_eq_true & Hv).
    destruct (cs_principals s !! u) as [ps|] eqn:Eps; [|done]. exists s, ca, ps, p. done.
  - intros (s' & ca' & ps & p & [= <-] & Hca & Hps & Hp & Hk & Hf & Hv). assert (ca' = ca) as -> by congruence. rewrite Hps. simpl.
    rewrite bool_decide_false by set_solver. apply existsb_elem. exists p. split; [by apply elem_of_elements|].
    apply certAuthenticate_spec. split_and!; [done|by apply bool_decide_eq_true|done].
Qed.

Lemma publicKeyCallback_spec store u k : publicKeyCallback w store u k = true ↔ listedKey u k ∨ certified store u k.
Proof.
  unfold publicKeyCallback. rewrite <- CheckAuthorizedKeys_spec, <- certAccepted_spec. destruct (CheckAuthorizedKeys w u k); naive_solver.
Qed.

(** ** Properties *)

(** Both logins accept the same credentials.  The SSH server takes a key that
    the user's authorized_keys lists or a certificate of the announced
    authority for one of the user's announced principals.  The browser's login
    succeeds exactly for an existing account with a private key the server
    would take, a private key with a certificate for it the server would take,
    or the account's password; an empty password never does. *)
Theorem logins_agree store u password pem cert :
  (∀ k, publicKeyCallback w store u k = true ↔ listedKey u k ∨ certified store u k) ∧
  (AuthenticateWithCertificate w store u password pem cert = true ↔
   is_Some (sh_lookup w u) ∧
   ((password ≠ ""%string ∧ VerifySystemPassword w u password = true) ∨
    ∃ k, pem ≠ ""%string ∧ parsePrivateKey pem = Some k ∧
      (listedKey u k ∨
       ∃ c ck, cert ≠ ""%string ∧ parseAuthorizedKey cert = Some c ∧ certKey c = Some ck ∧
         fingerprintSHA256 ck = fingerprintSHA256 k ∧ certified store u c))).
Proof.
  split; [intros; apply publicKeyCallback_spec|]. unfold AuthenticateWithCertificate, SystemUserExists, passwordAccepted.
  case_bool_decide as Eu; simpl; [|naive_solver].
  assert (negb (bool_decide (password = "")) && VerifySystemPassword w u password = true ↔
          password ≠ ""%string ∧ VerifySystemPassword w u password = true) as Hpw.
  { rewrite andb_true_iff, negb_true_iff, bool_decide_eq_false. done. }
  destruct (decide (pem = ""%string)) as [->|Hpem]; [rewrite bool_decide_true by done; rewrite Hpw; naive_solver|].
  rewrite bool_decide_false by done. destruct (parsePrivateKey pem) as [k|] eqn:Ek; [|rewrite Hpw; naive_solver].
  destruct (CheckAuthorizedKeys w u k) eqn:Ea; [apply CheckAuthorizedKeys_spec in Ea; naive_solver|].
  assert (¬ listedKey u k) as Hna by (rewrite <- CheckAuthorizedKeys_spec; congruence).
  destruct (decide (cert = ""%string)) as [->|Hc]; [rewrite bool_decide_true by done; rewrite Hpw; naive_solver|].
  rewrite bool_decide_false by done. destruct (parseAuthorizedKey cert) as [c|] eqn:Ep; [|rewrite Hpw; naive_solver].
  destruct (certKey c) as [ck|] eqn:Eck; [|rewrite Hpw; naive_solver].
  destruct (_ && certAccepted store u c) eqn:Eb.
  - apply andb_true_iff in Eb as [Hf%bool_decide_eq_true Hcert%certAccepted_spec]. naive_solver.
  - rewrite Hpw. apply andb_false_iff in Eb. split; [naive_solver|]. intros [_ [?|(k' & _ & [= <-] & [?|(c' & ck' & _ & [= <-] & Hck & Hf & Hcert)])]]; [done..|].
    rewrite Eck in Hck. injection Hck as <-. destruct Eb as [Eb%bool_decide_eq_false|Eb]; [done|]. apply certAccepted_spec in Hcert. congruence.
Qed.

(** ** Sessions *)

(** A process that runs as the account of [u] and with nothing else. *)
Definition runsAs (u : string) (p : process) : Prop :=
  ∃ acc, sh_lookup w u = Some acc ∧
    ParseUint32 (ac_Uid acc) = Some (cred_uid (pr_cred p)) ∧ ParseUint32 (ac_Gid acc) = Some (cred_gid (pr_cred p)) ∧
    (∀ g, g ∈ cred_groups (pr_cred p) ↔ ∃ s, s ∈ default [] (sh_groupIds w u) ∧ ParseUint32 s = Some g) ∧
    pr_env p ⊆ ["TERM=xterm-256color"%string; "HOME=" +:+ ac_HomeDir acc; "USER=" +:+ u; "LOGNAME=" +:+ u;
                "SHELL=" +:+ userShell w acc; pathVar] ∧
    (pr_dir p = ac_HomeDir acc ∨ pr_dir p = "/"%string).

Lemma credentialOf_inv u acc c :
  credentialOf w u acc = Some c →
  ParseUint32 (ac_Uid acc) = Some (cred_uid c) ∧ ParseUint32 (ac_Gid acc) = Some (cred_gid c) ∧
  ∀ g, g ∈ cred_groups c ↔ ∃ s, s ∈ default [] (sh_groupIds w u) ∧ ParseUint32 s = Some g.
Proof.
  unfold credentialOf. destruct (ParseUint32 (ac_Uid acc)) as [uid|]; [|done]. destruct (ParseUint32 (ac_Gid acc)) as [gid|]; [|done].
  intros [= <-]. simpl. split_and!; [done..|]. intros g. apply list_elem_of_omap.
Qed.

Lemma workDir_cases acc : workDir w acc = ac_HomeDir acc ∨ workDir w acc = "/"%string.
Proof. unfold workDir. destruct (sh_exists w _); auto. Qed.

Lemma exec_runsAs u cmd p : runExecAs w u cmd = Some p → runsAs u p.
Proof.
  unfold runExecAs. destruct (sh_lookup w u) as [acc|] eqn:Eu; [|done]. simpl.
  destruct (credentialOf w u acc) as [c|] eqn:Ec; [|done]. intros [= <-]. apply credentialOf_inv in Ec as (?&?&?).
  exists acc. simpl. split_and!; [done..| |apply workDir_cases]. intros x. rewrite !elem_of_cons. tauto.
Qed.

Lemma pty_runsAs u starts p : NewPTYSessionAs w u starts = Some p → runsAs u p.
Proof.
  unfold NewPTYSessionAs. destruct (sh_lookup w u) as [acc|] eqn:Eu; [|done]. simpl.
  destruct (credentialOf w u acc) as [c|] eqn:Ec; [|done]. simpl. destruct starts; [|done]. intros [= <-].
  apply credentialOf_inv in Ec as (?&?&?). exists acc. simpl. split_and!; [done..|apply workDir_cases].
Qed.

Definition isOpen (e : sessionEvent) : bool := match e with OpenPTY _ => true | _ => false end.
Definition isBridge (e : sessionEvent) : bool := match e with Bridge => true | _ => false end.
Definition isClose (e : sessionEvent) : bool := match e with ClosePTY => true | _ => false end.
Definition count (f : sessionEvent → bool) (l : list sessionEvent) : Z := zsum (λ e, if f e then 1 else 0) l.
Definition isExec (r : sessionReq * bool) : bool := match r.1 with ExecReq _ => true | _ => false end.

(** The balance of terminals in the events that follow: what is open at the
    start or opened later is bridged or closed, unless a command takes the
    channel over ([exec]). *)
Definition balanced (open started exec : bool) (evs : list sessionEvent) : Prop :=
  let owned := if open && negb started then 1 else 0 in
  count isOpen evs <= (if open then 0 else 1) ∧
  count isBridge evs + count isClose evs <= owned + count isOpen evs ∧
  (exec = false → count isBridge evs + count isClose evs = owned + count isOpen evs).

(** Events that concern no terminal's life. *)
Definition quietEvent (e : sessionEvent) : bool := negb (isOpen e || isBridge e || isClose e).

Lemma count_quiet l : forallb quietEvent l = true → count isOpen l = 0 ∧ count isBridge l = 0 ∧ count isClose l = 0.
Proof.
  induction l as [|e l IH]; [done|]. simpl. intros [He Hl]%andb_true_iff. specialize (IH Hl). unfold count, zsum in *. simpl.
  destruct e; simpl in *; try done; lia.
Qed.

Lemma balanced_quiet open started exec l evs :
  forallb quietEvent l = true → balanced open started exec evs → balanced open started exec (l ++ evs).
Proof. intros (H1 & H2 & H3)%count_quiet (?&?&Hx). unfold balanced, count in *. rewrite !zsum_app. split_and!; [lia..|]. intros E. specialize (Hx E). lia. Qed.

Lemma session_balance u reqs : ∀ open started,
  (started = true → open = true) →
  balanced open started (existsb isExec reqs) (handleSession w u open started reqs).
Proof.
  induction reqs as [|[req wr] reqs IH]; intros open started Hs.
  { destruct open, started; unfold balanced, count; simpl; split_and!; try lia; by specialize (Hs eq_refl). }
  destruct req as [size starts| |cmd|size|]; cbn [handleSession existsb isExec fst orb].
  - destruct open; [apply (balanced_quiet _ _ _ _ _); [by destruct wr|by apply IH]|].
    destruct started; [by specialize (Hs eq_refl)|]. destruct (NewPTYSessionAs w u starts) as [p|].
    + assert (balanced true false (existsb isExec reqs) (([Resize (windowSize size).1 (windowSize size).2] ++
        (if wr then [Reply true] else [])) ++ handleSession w u true false reqs)) as (B1 & B2 & B3)
        by (apply balanced_quiet; [by destruct wr|by apply IH]).
      unfold balanced, count in *. cbn [andb negb zsum foldr isOpen isBridge isClose] in *. unfold zsum in *.
      split_and!; [lia..|]. intros Hx. specialize (B3 Hx). lia.
    + unfold balanced, count. destruct wr; simpl; lia.
  - destruct (started || negb open) eqn:Eb; [apply balanced_quiet; [by destruct wr|by apply IH]|].
    apply orb_false_iff in Eb as [-> Ho%negb_false_iff]. subst open. apply balanced_quiet; [by destruct wr|].
    destruct (IH true true) as (B1 & B2 & B3); [done|]. unfold balanced, count in *.
    cbn [andb negb zsum foldr isOpen isBridge isClose] in *. unfold zsum in *. split_and!; [lia..|]. intros Hx. specialize (B3 Hx). lia.
  - apply balanced_quiet; [by destruct wr|]. unfold balanced, count. simpl. destruct open, started; simpl; split_and!; lia || done.
  - rewrite app_assoc. apply balanced_quiet; [by destruct open, wr|by apply IH].
  - apply balanced_quiet; [by destruct wr|by apply IH].
Qed.

Lemma session_processes u p reqs : ∀ open started,
  let evs := handleSession w u open started reqs in OpenPTY p ∈ evs ∨ RunExec (Some p) ∈ evs → runsAs u p.
Proof.
  induction reqs as [|[req wr] reqs IH]; intros open started; simpl.
  - destruct (_ && _); set_solver.
  - assert (∀ ok, (OpenPTY p ∉ (if wr then [Reply ok] else [])) ∧ RunExec (Some p) ∉ (if wr then [Reply ok] else [])) as Hr
      by (intros; destruct wr; set_solver).
    destruct req as [size starts| |cmd'|size|].
    + destruct open; [rewrite !elem_of_cons, !elem_of_app; specialize (Hr true); specialize (IH true started); naive_solver|].
      destruct (NewPTYSessionAs w u starts) as [p'|] eqn:Ep; [|specialize (Hr false); naive_solver].
      rewrite !elem_of_cons, !elem_of_app. specialize (Hr true). specialize (IH true started). apply pty_runsAs in Ep. naive_solver.
    + destruct (_ || _); rewrite !elem_of_app, ?elem_of_cons; specialize (Hr true);
        [specialize (IH open started)|specialize (IH open true)]; naive_solver.
    + rewrite !elem_of_app, !list_elem_of_singleton. specialize (Hr true). intros [[?|?]|[?|[= Hp]]]; [naive_solver..|].
      symmetry in Hp. by eapply exec_runsAs.
    + rewrite !elem_of_app. specialize (Hr true). specialize (IH open started). destruct open; set_solver.
    + rewrite !elem_of_app. specialize (Hr false). specialize (IH open started). naive_solver.
Qed.

(** C12: a session runs as the user who logged in, and cleans up unless a command is
    executed.  Whatever the client requests, every process started has the
    account's ids and groups and its environment; at most one terminal is
    opened, and without an exec request it is bridged or closed.  A terminal
    requested before an exec request (as [ssh -t host command] does) stays
    open with its shell: nothing closes it. *)
Theorem session_as_user u reqs p cmd :
  let evs := handleSession w u false false reqs in
  (OpenPTY p ∈ evs ∨ RunExec (Some p) ∈ evs → runsAs u p) ∧
  count isOpen evs <= 1 ∧
  (existsb isExec reqs = false → count isBridge evs + count isClose evs = count isOpen evs) ∧
  (NewPTYSessionAs w u true = Some p →
   handleSession w u false false [(PtyReq (Some (80, 24)) true, true); (ExecReq cmd, true)] =
   [OpenPTY p; Resize 80 24; Reply true; Reply true; RunExec (runExecAs w u (default ""%string cmd))]).
Proof.
  cbn zeta. destruct (session_balance u reqs false false) as (B1 & B2 & B3); [done|]. split_and!; [|done|done|].
  - apply session_processes.
  - intros Hp. simpl. by rewrite Hp.
Qed.


End laws.

(** ** Examples *)

Module SshExamples.

Inductive exampleKey : Type := Plain (s : string) | Cert (key signer : string) (principals : list string).

#[export] Instance ssh_lib : SshLib := {|
  PublicKey := exampleKey;
  fingerprintSHA256 k := match k with Plain s => s | Cert key _ _ => "cert " +:+ key end;
  parseAuthorizedKey s :=
    if bool_decide (s = "") then None
    else if bool_decide (s = "cert"%string) then Some (Cert "k1" "ca" ["alice"; "usr-1"]%string) else Some (Plain s);
  parsePrivateKey s := if bool_decide (s = "") then None else Some (Plain s);
  certKey k := match k with Cert key _ _ => Some (Plain key) | Plain _ => None end;
  certAuthenticate auth p k := match k with Cert _ signer ps => auth (Plain signer) && bool_decide (p ∈ ps) | Plain _ => false end |}.

#[export] Instance ssh_laws : SshLaws.
Proof.
  refine {| certSigner (k : PublicKey) := match k with Cert _ signer _ => Plain signer | Plain s => Plain s end;
            certValidFor (k : PublicKey) p := match k with Cert _ _ ps => p ∈ ps | Plain _ => False end |}.
  intros auth p [s|key signer ps]; simpl.
  - split; [done|by intros [[? ?] _]].
  - rewrite andb_true_iff, bool_decide_eq_true. naive_solver.
Defined.

Definition home : sshHost := mkSshHost
  (λ u, if bool_decide (u = "alice"%string) then Some DaemonExamples.alice else None)
  (λ _, Some ["1000"; "27"; "x"]%string)
  (λ f, if bool_decide (f = "/home/alice/.ssh/authorized_keys"%string) then Some ["# keys"; " k2 "]%string
        else if bool_decide (f = "/etc/shadow"%string) then Some ["root:!:1:"; "alice:$6$h:1:"]%string else None)
  (λ _, true) (λ s, if bool_decide (s = "bash"%string) then Some "/bin/bash"%string else None)
  (λ _ _, None) (λ h p, Some (bool_decide (h = "$6$h"%string) && bool_decide (p = "secret"%string))).

Definition store1 : CredentialStore := AddPrincipals "alice" "usr-1" (SetCAKey "ca" NewCredentialStore).1.

(** Each of the three ways in, and none for another. *)
Example logins :
  AuthenticateWithCertificate home None "alice" "" "k2" "" = true ∧
  AuthenticateWithCertificate home (Some store1) "alice" "" "k1" "cert" = true ∧
  AuthenticateWithCertificate home (Some store1) "alice" "" "k3" "cert" = false ∧
  AuthenticateWithCertificate home None "alice" "secret" "" "" = true ∧
  AuthenticateWithCertificate home None "alice" "" "" "" = false ∧
  AuthenticateWithCertificate home None "root" "" "k2" "" = false ∧
  publicKeyCallback home (Some store1) "alice" (Cert "k1" "ca" ["usr-1"%string]) = true ∧
  publicKeyCallback home (Some store1) "alice" (Cert "k1" "other" ["usr-1"%string]) = false.
Proof. vm_compute. auto 10. Qed.

Definition shell1 : process :=
  mkProcess ["/bin/bash"; "--login"]%string
    ["TERM=xterm-256color"; "HOME=/home/alice"; "USER=alice"; "LOGNAME=alice"; "SHELL=/bin/bash"; pathVar]%string
    "/home/alice" (mkCred 1000 1000 [1000; 27]).

Lemma session_as_user_witness :
  runsAs home "alice" shell1 ∧
  handleSession home "alice" false false [(PtyReq (Some (80, 24)) true, true); (ExecReq None, true)] =
  [OpenPTY shell1; Resize 80 24; Reply true; Reply true; RunExec (runExecAs home "alice" "")].
Proof.
  destruct (session_as_user home "alice" [(PtyReq None true, false)] shell1 None) as (H1 & _ & _ & H4). split.
  - apply H1. left. by vm_compute; left.
  - apply H4. by vm_compute.
Defined.

Definition gw : Gateway := {[ 1 := mkGwTarget 1 "ssh" "" 0 "tok" ]}.
Definition query : gwQuery := mkQuery "" "" "alice" "tok" "native" "".
Definition parsers : sshParsers := mkParsers (λ _, true) (λ _, None) (λ _ _, false).

#[local] Existing Instance canonical_range.


End SshExamples.
