(* ===== verification/Pam.v ===== *)
(** * Announced SSH connections ([newt/pam/connection] of [newt/handlers.go])

    When the server has issued an SSH certificate for a user it announces the
    connection.  Depending on the mode the handler has the embedded daemon
    prepare this host (site), asks a daemon elsewhere to (remote), or prepares
    the account and registers authority and principals with the native SSH
    server (native), and completes the round trip.  The file composes
    [AuthDaemon.v] and [NativeSSH.v]. *)

From S2P Require Import Prelude NetipText HostPort Keys ExitNode Gateway AuthDaemon NativeSSH.
From Stdlib Require Import Ascii.

Record SSHCertData : Type := mkCertData {
  sc_MessageId : Z; sc_AgentPort : Z; sc_AgentHost : string; sc_ExternalAuthDaemon : bool; sc_AuthDaemonMode : string;
  sc_CACert : string; sc_Username : string; sc_NiceID : string; sc_Metadata : ConnectionMetadata }.

(** What contacting a remote daemon gives. *)
Inductive daemonAnswer : Type := DaemonError (text : string) | DaemonStatus (code : Z).

(** The request sent to it. *)
Definition remoteRequest (key : string) (d : SSHCertData) : httpRequest :=
  mkHttp "POST" "/connection" ("Bearer " +:+ key) ""
    (Some (mkConnection (sc_CACert d) (sc_NiceID d) (sc_Username d) (sc_Metadata d))).

Definition agentURL (d : SSHCertData) : string :=
  "https://" +:+ sc_AgentHost d +:+ ":" +:+ itoa (sc_AgentPort d) +:+ "/connection".

Definition pamMode (d : SSHCertData) : string :=
  (if negb (bool_decide (sc_AuthDaemonMode d = "")) then sc_AuthDaemonMode d
   else if sc_ExternalAuthDaemon d then "remote" else "site")%string.

Section pam.
Context `{SshLib} `{PrincipalsJson} (w : machine) (daemonKey : string).

(** The daemon and the credential store, when they are running, and the host. *)
Record pamState : Type := mkPam {
  ps_daemon : option DaemonConfig; ps_store : option CredentialStore; ps_host : host }.

(** A [ws/round-trip/complete] message: its id and error. *)
Notation reply := (Z * option string)%type.

Definition pamConnection (contact : string → httpRequest → daemonAnswer) (d : SSHCertData) (st : pamState)
    : go (pamState * list reply) :=
  let id := sc_MessageId d in
  let fail text : go (pamState * list reply) := Ret (st, [(id, Some text)]) in
  let mode := pamMode d in
  if bool_decide (mode = "site"%string) then
    match ps_daemon st with
    | Some cfg =>
        h ← ProcessConnection w cfg (mkConnection (sc_CACert d) (sc_NiceID d) (sc_Username d) (sc_Metadata d)) (ps_host st);
        Ret (mkPam (ps_daemon st) (ps_store st) h, [(id, None); (id, None)])
    | None => fail "auth daemon server not initialized (enable by running Newt site connector as root)"%string
    end
  else if bool_decide (mode = "remote"%string) then
    if bool_decide (daemonKey = "") then fail "auth daemon key not configured"%string
    else match contact (agentURL d) (remoteRequest daemonKey d) with
         | DaemonError text => fail text
         | DaemonStatus code =>
             if code =? 200 then Ret (st, [(id, None)]) else fail ("auth daemon returned status " +:+ itoa code)
         end
  else if bool_decide (mode = "native"%string) then
    match ps_daemon st, ps_store st with
    | Some cfg, Some s =>
        h ← ProcessConnection w cfg (mkConnection "" "" (sc_Username d) (sc_Metadata d)) (ps_host st);
        Ret (mkPam (ps_daemon st) (Some (AddPrincipals (sc_Username d) (sc_NiceID d) (SetCAKey (sc_CACert d) s).1)) h, [(id, None)])
    | _, _ => fail "auth daemon server or SSH credential store not initialized"%string
    end
  else fail ("unknown auth daemon mode: " +:+ sc_AuthDaemonMode d).

(** The messages of a session. *)
Fixpoint pamAll (contact : string → httpRequest → daemonAnswer) (ds : list SSHCertData) (st : pamState) : go pamState :=
  match ds with
  | [] => Ret st
  | d :: ds' => r ← pamConnection contact d st; pamAll contact ds' r.1
  end.

(** ** Lemmas *)

Definition isNative (d : SSHCertData) : bool := bool_decide (pamMode d = "native"%string).

(** The authority in force: that of the last native message whose key can be
    read. *)
Definition lastCA (ds : list SSHCertData) : option PublicKey :=
  foldl (λ ca d, if isNative d then match parseAuthorizedKey (sc_CACert d) with Some k => Some k | None => ca end else ca) None ds.

(** [p] was announced for [u] in a native message. *)
Definition announcedNative (ds : list SSHCertData) (u p : string) : Prop :=
  u ≠ ""%string ∧ ∃ d, d ∈ ds ∧ isNative d = true ∧ trim (sc_Username d) = u ∧ (p = u ∨ (p = trim (sc_NiceID d) ∧ p ≠ ""%string)).

(** The store is what the messages so far make it. *)
Definition storeOf (ds : list SSHCertData) (s : CredentialStore) : Prop :=
  cs_caKey s = lastCA ds ∧ ∀ u p, p ∈ default ∅ (cs_principals s !! u) ↔ announcedNative ds u p.

Lemma announcedNative_app ds d u p :
  announcedNative (ds ++ [d]) u p ↔
  announcedNative ds u p ∨
  (u ≠ ""%string ∧ isNative d = true ∧ trim (sc_Username d) = u ∧ (p = u ∨ (p = trim (sc_NiceID d) ∧ p ≠ ""%string))).
Proof.
  unfold announcedNative. split.
  - intros (Hu & d' & [Hd| ->%list_elem_of_singleton]%elem_of_app & ?); [left|right]; naive_solver.
  - intros [(Hu & d' & Hd & ?)|(Hu & ?)]; split; try done.
    + exists d'. split; [|done]. apply elem_of_app. by left.
    + exists d. split; [|done]. apply elem_of_app. right. by apply list_elem_of_singleton.
Qed.

Lemma lastCA_app ds d :
  lastCA (ds ++ [d]) =
  if isNative d then match parseAuthorizedKey (sc_CACert d) with Some k => Some k | None => lastCA ds end else lastCA ds.
Proof. unfold lastCA. by rewrite foldl_app. Qed.

Lemma storeOf_native ds d s :
  storeOf ds s → isNative d = true →
  storeOf (ds ++ [d]) (AddPrincipals (sc_Username d) (sc_NiceID d) (SetCAKey (sc_CACert d) s).1).
Proof.
  intros [Hca Hp] Hn. split.
  - rewrite lastCA_app, Hn. unfold AddPrincipals, SetCAKey. case_bool_decide; by destruct (parseAuthorizedKey (sc_CACert d)).
  - assert (cs_principals (SetCAKey (sc_CACert d) s).1 = cs_principals s) as Es
      by (unfold SetCAKey; by destruct (parseAuthorizedKey _)).
    intros u p. rewrite announcedNative_app, <- Hp. unfold AddPrincipals. rewrite Es. case_bool_decide as Eu; [rewrite Es; naive_solver congruence|].
    simpl. destruct (decide (u = trim (sc_Username d))) as [->|Hne].
    + rewrite lookup_insert_eq. simpl. rewrite !elem_of_union, elem_of_singleton.
      case_bool_decide as En; [rewrite elem_of_empty; naive_solver congruence|rewrite elem_of_singleton; naive_solver congruence].
    + rewrite lookup_insert_ne by done. naive_solver.
Qed.

Lemma storeOf_other ds d s : storeOf ds s → isNative d = false → storeOf (ds ++ [d]) s.
Proof.
  intros [Hca Hp] Hn. split; [by rewrite lastCA_app, Hn|]. intros u p. rewrite announcedNative_app, Hn, Hp. naive_solver.
Qed.

(** The host's file of principals is never the JSON null, so no message panics. *)
Definition mapFile (d : DaemonConfig) (h : host) : Prop :=
  ∀ raw, h_fs h !! ad_PrincipalsFilePath d = Some (NFile raw) → (pj_parse raw).2 ≠ None.

Lemma pam_step contact d st st' r ds s :
  pamConnection contact d st = Ret (st', r) → is_Some (ps_daemon st) → ps_store st = Some s → storeOf ds s →
  is_Some (ps_daemon st') ∧ ∃ s', ps_store st' = Some s' ∧ storeOf (ds ++ [d]) s'.
Proof.
  intros Hr [cfg Hd] Hs Hst. unfold pamConnection in Hr. rewrite Hd, Hs in Hr.
  destruct (decide (pamMode d = "site"%string)) as [E1|E1].
  { assert (isNative d = false) by (unfold isNative; by rewrite E1). rewrite bool_decide_true in Hr by done.
    destruct (ProcessConnection _ _ _ _); [|done]. go_simpl. split; [by eexists|]. exists s. split; [done|by apply storeOf_other]. }
  rewrite bool_decide_false in Hr by done. destruct (decide (pamMode d = "remote"%string)) as [E2|E2].
  { assert (isNative d = false) by (unfold isNative; by rewrite E2). rewrite bool_decide_true in Hr by done.
    assert (st' = st) as ->; [|split; [by eexists|exists s; split; [done|by apply storeOf_other]]].
    revert Hr. repeat case_match; by intros [= ->]. }
  rewrite bool_decide_false in Hr by done. destruct (decide (pamMode d = "native"%string)) as [E3|E3].
  { assert (isNative d = true) by (by apply bool_decide_eq_true). rewrite bool_decide_true in Hr by done.
    destruct (ProcessConnection _ _ _ _); [|done]. go_simpl. split; [by eexists|]. eexists. split; [done|by apply storeOf_native]. }
  rewrite bool_decide_false in Hr by done. injection Hr as <- <-. split; [by eexists|]. exists s.
  split; [done|]. apply storeOf_other; [done|]. by apply bool_decide_eq_false.
Qed.

Lemma pam_run contact ds : ∀ st st' before s,
  pamAll contact ds st = Ret st' → is_Some (ps_daemon st) → ps_store st = Some s → storeOf before s →
  ∃ s', ps_store st' = Some s' ∧ storeOf (before ++ ds) s'.
Proof.
  induction ds as [|d ds IH]; intros st st' before s Hr Hd Hs Hst; simpl in Hr.
  { injection Hr as <-. exists s. by rewrite app_nil_r. }
  destruct (pamConnection contact d st) as [[st1 r]|] eqn:E; [|done]. cbn in Hr.
  destruct (pam_step _ _ _ _ _ _ _ E Hd Hs Hst) as [Hd1 (s1 & Hs1 & Hst1)].
  destruct (IH st1 st' (before ++ [d]) s1) as (s' & ? & Hs'); [done..|]. exists s'. by rewrite <- app_assoc in Hs'.
Qed.
End pam.

Section properties.
Context `{SshLaws} `{PrincipalsJson} (w : machine) (daemonKey : string) (contact : string → httpRequest → daemonAnswer).

(** A request without an id writes no principals, so it cannot meet a nil map. *)
Lemma process_without_id cfg ca u meta h : ∃ h', ProcessConnection w cfg (mkConnection ca "" u meta) h = Ret h'.
Proof. unfold ProcessConnection. simpl. rewrite orb_true_r. by eexists. Qed.

Lemma pam_returns ds : ∀ st, Forall (λ d, pamMode d ≠ "site"%string) ds → ∃ st', pamAll w daemonKey contact ds st = Ret st'.
Proof.
  induction ds as [|d ds IH]; intros st Hds; [by eexists|]. apply Forall_cons in Hds as [Hd Hds]. simpl.
  assert (∃ r, pamConnection w daemonKey contact d st = Ret r) as [r ->]; [|by apply IH].
  unfold pamConnection. rewrite bool_decide_false by done. case_bool_decide; [repeat case_match; by eexists|].
  case_bool_decide; [|by eexists]. destruct (ps_daemon st) as [cfg|]; [|by eexists]. destruct (ps_store st) as [s|]; [|by eexists].
  destruct (process_without_id cfg "" (sc_Username d) (sc_Metadata d) (ps_host st)) as [h' ->]. by eexists.
Qed.

(** ** Properties *)


(** A native connection empties the certificate authority's file.  The embedded
    daemon overwrites that file whenever the text differs, and the handler
    passes it an empty text in native mode: when the host's operations succeed
    and the account's own paths lie elsewhere, the authority that a site
    connection wrote for sshd is gone. *)
Theorem native_empties_ca principals ca pass d s acc h old :
  let cfg := embeddedConfig principals ca pass in
  let path := ad_CACertPath cfg in
  (∀ o, m_io w o = true) → pamMode d = "native"%string → m_lookup w (h_log h) (sc_Username d) = Found acc →
  h_fs h !! path = Some (NFile old) → trim old ≠ ""%string → Dir path ≠ path → (∀ x, h_fs h !! Dir path ≠ Some (NFile x)) →
  path ∉ [sudoersPath (ac_Username acc); tmpPath (ac_Username acc); ac_HomeDir acc] → (∀ n, (path, n) ∉ skelPaths w (ac_HomeDir acc)) →
  ∃ st', pamConnection w daemonKey contact d (mkPam (Some cfg) (Some s) h) = Ret (st', [(sc_MessageId d, None)]) ∧
    h_fs (ps_host st') !! path = Some (NFile "").
Proof.
  intros cfg path. assert (path ≠ ""%string ∧ ad_Force cfg = true) as [Hpe Hforce]
    by (unfold path, cfg, embeddedConfig; simpl; by case_bool_decide).
  subst path. clearbody cfg. set (path := ad_CACertPath cfg) in *. intros Hio Em Hl Hold Hne Hdir Hdirf Hp Hs. unfold pamConnection. simpl ps_daemon. simpl ps_store. rewrite Em.
  rewrite !bool_decide_false by done. rewrite bool_decide_true by done. unfold ProcessConnection. simpl cr_NiceId.
  rewrite (bool_decide_true (""%string = "")), orb_true_r by done. cbn [mbind go_bind]. eexists. split; [done|]. cbn [ps_host cr_Username cr_Metadata cr_CaCert].
  fold path. rewrite bool_decide_false by done. set (h1 := (writeCACertIfNotExists w path "" (ad_Force cfg) h).1).
  assert (h_fs h1 !! path = Some (NFile "") ∧ h_log h1 = h_log h) as [F1 L1].
  { split; [|apply writeCACert_log]. subst h1. unfold writeCACertIfNotExists, ReadFile. rewrite Hio, Hold.
    change (withNewline "") with ""%string. rewrite bool_decide_false.
    2:{ unfold withNewline. rewrite bool_decide_false by done. simpl. destruct (HasSuffix _ _); [done|]. destruct (trim old); [done|discriminate]. }
    rewrite Hforce. cbn [negb]. unfold MkdirAll, WriteFile.
    destruct (h_fs h !! Dir path) as [[x|]|] eqn:Ed; [by destruct (Hdirf x)| |]; rewrite ?Hio.
    - rewrite bool_decide_false by (by rewrite Hold). simpl. by rewrite lookup_insert_eq.
    - simpl h_fs. rewrite lookup_insert_ne, Hold by done. rewrite bool_decide_false by done. simpl. by rewrite lookup_insert_eq. }
  unfold ensureUser. rewrite L1, Hl. case_bool_decide; [done|]. cbn [fst]. by rewrite reconcileUser_frame.
Qed.

(** A remote daemon that holds the same key carries the announcement out: the
    request the handler sends is authorised and processed there. *)
Theorem remote_key_accepted cfg d h :
  daemonKey ≠ ""%string → trim daemonKey = daemonKey → ad_PresharedKey cfg = daemonKey →
  serveHTTP w cfg (remoteRequest daemonKey d) h =
  (h' ← ProcessConnection w cfg (mkConnection (sc_CACert d) (sc_NiceID d) (sc_Username d) (sc_Metadata d)) h; Ret (200, h')).
Proof.
  intros Hne Ht Hk. unfold serveHTTP, authorized, remoteRequest, bearerKey. simpl hr_Authorization. rewrite str_app.
  rewrite (proj2 (trimPrefix_Some _ _ (str daemonKey)) eq_refl), unstr_str, Ht, Hk.
  rewrite (bool_decide_false (daemonKey = "")) by done. cbv beta iota zeta.
  rewrite (bool_decide_false (daemonKey = "")) by done. rewrite (bool_decide_true (daemonKey = daemonKey)) by done. done.
Qed.

(** Every announcement that is processed is answered under its own id; on
    this host's success in site mode it is answered twice. *)
Theorem pam_answers d st st' l :
  pamConnection w daemonKey contact d st = Ret (st', l) →
  Forall (λ r, r.1 = sc_MessageId d) l ∧ l ≠ [] ∧
  (length l = 2%nat ↔ is_Some (ps_daemon st) ∧ pamMode d = "site"%string).
Proof.
  unfold pamConnection. intros Hr. destruct (decide (pamMode d = "site"%string)) as [E|E].
  { rewrite (bool_decide_true _ E) in Hr. destruct (ps_daemon st).
    - destruct (ProcessConnection _ _ _ _); [|done]. go_simpl. split_and!; [by repeat constructor|done|]. split; [by eauto|done].
    - injection Hr as <- <-. split_and!; [by repeat constructor|done|]. split; [done|by intros [[? ?] _]]. }
  rewrite (bool_decide_false _ E) in Hr. assert (∃ r, l = [r] ∧ r.1 = sc_MessageId d) as (r & -> & Hid).
  { revert Hr. repeat case_match; intros Hr; try (injection Hr as <- <-; by eexists).
    destruct (ProcessConnection _ _ _ _); [|done]. go_simpl. by eexists. }
  split_and!; [by repeat constructor|done|]. split; [done|by intros [_ ?]].
Qed.
End properties.

(** ** Examples *)

Module PamExamples.
Import DaemonExamples SshExamples.

Definition announcement (mode : string) : SSHCertData :=
  mkCertData 7 22 "host" false mode "ca" " alice " "usr-1" (mkMeta "none" [] false []).

Definition refused (_ : string) (_ : httpRequest) : daemonAnswer := DaemonError "refused".

Definition started : pamState := mkPam (Some cfg0) (Some NewCredentialStore) h0.

(** After a native message the announced certificate logs the account in; a
    remote one does nothing here. *)
Example native_login :
  match pamAll m0 "key" refused [announcement "native"; announcement "remote"] started with
  | Ret st => AuthenticateWithCertificate home (ps_store st) "alice" "" "k1" "cert" = true
  | Panic => False
  end.
Proof. by vm_compute. Qed.


(** The site connection's authority file, and what a native one makes of it. *)
Definition native_named : SSHCertData := mkCertData 8 22 "host" false "native" "ca" "alice" "usr-1" (mkMeta "none" [] false []).

Definition withCA : host := mkHost (<["/etc/ssh/ca.pem"%string := NFile ("ssh-ed25519 CA" +:+ nl)]> (h_fs h0)) ∅ [].

Lemma native_empties_ca_witness :
  ∃ st', pamConnection m0 "key" refused native_named (mkPam (Some cfg0) (Some NewCredentialStore) withCA) = Ret (st', [(8, None)]) ∧
    h_fs (ps_host st') !! "/etc/ssh/ca.pem"%string = Some (NFile "").
Proof.
  apply (native_empties_ca m0 "key" refused "" "" false native_named NewCredentialStore alice withCA ("ssh-ed25519 CA" +:+ nl)).
  - done.
  - done.
  - done.
  - by vm_compute.
  - by vm_compute.
  - by vm_compute.
  - intros x Hx. by vm_compute in Hx.
  - not_in.
  - intros n. not_in.
Defined.

Lemma remote_key_accepted_witness :
  serveHTTP m0 (mkDaemon false 22123 "key" "/etc/ssh/ca.pem" true "/p" false) (remoteRequest "key" (announcement "remote")) h0 =
  (h' ← ProcessConnection m0 (mkDaemon false 22123 "key" "/etc/ssh/ca.pem" true "/p" false)
          (mkConnection "ca" "usr-1" " alice " (mkMeta "none" [] false [])) h0; Ret (200, h')).
Proof. apply (remote_key_accepted m0 "key"); by vm_compute. Defined.

End PamExamples.
