(* ===== verification/Update.v ===== *)
(** * Updates ([updates/updates.go], [updates/selfupdate.go])

    At start newt compares its version with the latest one and prints a banner;
    every six hours it asks the server for a newer binary, downloads it next to
    the running one, checks its digest, and replaces and re-executes itself.
    The network, the digest and the outcome of each file operation are
    parameters; the files of the binary's directory are state. *)

From S2P Require Import Prelude NetipText HostPort Keys Resolver.
From Stdlib Require Import Ascii.

(** ** Versions *)

Record Version : Type := mkVersion { Major : Z; Minor : Z; Patch : Z }.

Definition parseVersion (versionStr : string) : option Version :=
  let s := default (str versionStr) (trimPrefix (str "v") (str versionStr)) in
  match dotParts s with
  | [a; b; c] =>
      major ← Atoi (unstr a); minor ← Atoi (unstr b); patch ← Atoi (unstr c);
      Some (mkVersion major minor patch)
  | _ => None
  end.

(** Whether [v2] is newer than [v1]. *)
Definition isNewer (v1 v2 : Version) : bool :=
  if Major v1 <? Major v2 then true
  else if Major v2 <? Major v1 then false
  else if Minor v1 <? Minor v2 then true
  else if Minor v2 <? Minor v1 then false
  else Patch v1 <? Patch v2.

Definition versionString (v : Version) : string := itoa (Major v) +:+ "." +:+ itoa (Minor v) +:+ "." +:+ itoa (Patch v).

(** ** The banner; a column is a character *)

Definition spaces (n : nat) : list ascii := replicate n " "%char.

Definition padRight (s : list ascii) (width : nat) : list ascii :=
  if Nat.ltb width (length s) then take width s else s ++ spaces (width - length s).

Definition centerText (s : list ascii) (w : nat) : list ascii :=
  if Nat.leb w (length s) then take w s
  else let padding := ((w - length s) / 2)%nat in spaces padding ++ s ++ spaces (w - length s - padding).

Definition contentWidth : nat := 70.

(** The lines that are not borders, between their border signs. *)
Definition bannerLines (currentVersion latestVersion releaseURL : list ascii) : list (list ascii) :=
  [centerText (str "UPDATE AVAILABLE") contentWidth;
   spaces contentWidth;
   str "  Current Version: " ++ padRight currentVersion (contentWidth - 19);
   str "  Latest Version:  " ++ padRight latestVersion (contentWidth - 19);
   spaces contentWidth;
   str "  A newer version is available! Please update to get the" ++ padRight [] (contentWidth - 56);
   str "  latest features, bug fixes, and security improvements." ++ padRight [] (contentWidth - 56);
   spaces contentWidth;
   str "  Update: " ++ padRight releaseURL (contentWidth - 10);
   spaces contentWidth].

(** What the versions API says of a component: latest version, release notes. *)
Record VersionsAPIEntry : Type := mkEntry { LatestVersion : string; ReleaseNotes : string }.

Inductive checkResult : Type := CheckError | NoUpdate | Banner (lines : list (list ascii)).

Definition defaultNotes : string := "curl -fsSL https://static.pangolin.net/get-newt.sh | bash".

(** [resp]: the status and the decoded entries, [None] when the request or the
    decoding failed. *)
Definition CheckForUpdate (repo currentVersion : string) (resp : option (Z * option (gmap string VersionsAPIEntry))) : checkResult :=
  if bool_decide (currentVersion = "version_replaceme") then NoUpdate
  else match resp with
  | None => CheckError
  | Some (status, body) =>
      if negb (status =? 200) then CheckError
      else match body with
      | None => CheckError
      | Some data =>
          match data !! repo with
          | None => CheckError
          | Some entry =>
              match parseVersion currentVersion, parseVersion (LatestVersion entry) with
              | Some cur, Some latest =>
                  if isNewer cur latest
                  then Banner (bannerLines (str (versionString cur)) (str (versionString latest))
                         (str (if bool_decide (ReleaseNotes entry = "") then defaultNotes else ReleaseNotes entry)))
                  else NoUpdate
              | _, _ => CheckError
              end
          end
      end
  end.

(** ** Replacing the binary *)

(** [strings.EqualFold] with a text of hexadecimal digits. *)
Definition lowerHex (c : ascii) : ascii := if (65 <=? code c) && (code c <=? 90) then ch (code c + 32) else c.
Definition equalFold (a b : string) : bool := bool_decide (lowerHex <$> str a = lowerHex <$> str b).

Record versionResponse : Type := mkVersionResponse {
  vr_LatestVersion : string; vr_CurrentIsLatest : bool; vr_DownloadUrl : string; vr_Sha256 : string; vr_Success : bool }.

(** The limits of a download: the client's, which includes reading the body,
    and the request's. *)
Definition clientTimeout : Z := 30 * Second.
Definition downloadTimeout : Z := 5 * Minute.

(** What the world answers. *)
Record updateWorld : Type := mkWorld {
  uw_container : bool;                                      (* NEWT_SYSTEM_SUBSTRATE=CONTAINER *)
  uw_executable : option string;                            (* path after resolving links *)
  uw_version : option (Z * option versionResponse);         (* status and body of the version request *)
  uw_writable : bool;                                       (* the first temporary file *)
  uw_download : option (Z * list Z);                        (* status and body *)
  uw_duration : Z;                                          (* until the body is read *)
  uw_temp : option string;                                  (* the second temporary file *)
  uw_copy : bool; uw_close : bool; uw_reopen : bool; uw_chmod : bool; uw_rename : bool; uw_exec : bool }.

(** Files of the directory: content and mode. *)
Notation files := (gmap string (list Z * Z)).

Inductive updateResult : Type := UpdateError | NothingToDo | Reexec.

Section SelfUpdate.
Context (sha256hex : list Z → string).

(** The download and what follows, with the cleanup that is deferred once the
    temporary file has a name; a nil file has none and panics. *)
Definition install (exe : string) (v : versionResponse) (w : updateWorld) (fs : files) : go (files * updateResult) :=
  match uw_download w with
  | None => Ret (fs, UpdateError)
  | Some (status, body) =>
      if negb (status =? 200) then Ret (fs, UpdateError)
      else match uw_temp w with
      | None => Panic
      | Some tmp =>
          let created := <[tmp := ([], 384)]> fs in
          if negb (uw_copy w) || (Z.min clientTimeout downloadTimeout <? uw_duration w) then Ret (delete tmp created, UpdateError)
          else
            let written := <[tmp := (body, 384)]> fs in
            if negb (uw_close w) then Ret (delete tmp written, UpdateError)
            else if negb (bool_decide (vr_Sha256 v = "")) && negb (uw_reopen w && equalFold (sha256hex body) (vr_Sha256 v))
            then Ret (delete tmp written, UpdateError)
            else if negb (uw_chmod w) then Ret (delete tmp written, UpdateError)
            else
              let executable := <[tmp := (body, 493)]> fs in
              if negb (uw_rename w) then Ret (delete tmp executable, UpdateError)
              else
                let replaced := <[exe := (body, 493)]> (delete tmp executable) in
                Ret (replaced, if uw_exec w then Reexec else UpdateError)
      end
  end.

Definition CheckAndSelfUpdate (currentVersion : string) (w : updateWorld) (fs : files) : go (files * updateResult) :=
  if uw_container w then Ret (fs, UpdateError)
  else if bool_decide (currentVersion = "version_replaceme") then Ret (fs, UpdateError)
  else match uw_executable w with
  | None => Ret (fs, UpdateError)
  | Some exe =>
      match uw_version w with
      | None => Ret (fs, UpdateError)
      | Some (status, body) =>
          if (status =? 204) || (status =? 404) then Ret (fs, NothingToDo)
          else if negb (status =? 200) then Ret (fs, UpdateError)
          else match body with
          | None => Ret (fs, UpdateError)
          | Some v =>
              if negb (vr_Success v) then Ret (fs, UpdateError)
              else if vr_CurrentIsLatest v then Ret (fs, NothingToDo)
              else if negb (uw_writable w) then Ret (fs, UpdateError)
              else install exe v w fs
          end
      end
  end.

(** ** Properties *)

Lemma install_safe exe v w fs fs' r :
  (∀ tmp, uw_temp w = Some tmp → fs !! tmp = None ∧ tmp ≠ exe) → install exe v w fs = Ret (fs', r) →
  (fs' = fs ∧ r = UpdateError) ∨
  ∃ body, uw_download w = Some (200, body) ∧ fs' = <[exe := (body, 493)]> fs ∧ r ≠ NothingToDo ∧
    (vr_Sha256 v ≠ ""%string → equalFold (sha256hex body) (vr_Sha256 v) = true) ∧ uw_duration w <= clientTimeout.
Proof.
  intros Ht. unfold install. destruct (uw_download w) as [[status body]|]; [|intros [= <- <-]; by left].
  destruct (Z.eqb_spec status 200) as [->|]; [|intros [= <- <-]; by left]. simpl.
  destruct (uw_temp w) as [tmp|]; [|done]. destruct (Ht tmp eq_refl) as [Hf Hne].
  assert (∀ x, delete tmp (<[tmp := x]> fs) = fs) as Hd by (intros x; by rewrite delete_insert_id).
  destruct (negb (uw_copy w) || _) eqn:Ec; [intros [= <- <-]; left; by rewrite Hd|].
  destruct (negb (uw_close w)); [intros [= <- <-]; left; by rewrite Hd|].
  destruct (negb (bool_decide (vr_Sha256 v = "")) && _) eqn:Es; [intros [= <- <-]; left; by rewrite Hd|].
  destruct (negb (uw_chmod w)); [intros [= <- <-]; left; by rewrite Hd|].
  destruct (negb (uw_rename w)); [intros [= <- <-]; left; by rewrite Hd|].
  intros [= <- <-]. right. exists body. rewrite Hd. split; [done|]. split; [done|]. split; [by destruct (uw_exec w)|].
  apply orb_false_iff in Ec as [_ Ec]. split; [|apply Z.ltb_ge in Ec; unfold clientTimeout, downloadTimeout, Minute, Second in *; lia].
  intros Hs. rewrite bool_decide_false in Es by done. simpl in Es. apply negb_false_iff, andb_true_iff in Es as [_ ?]. done.
Qed.


(** When a download starts and the temporary file for it
    cannot be made, the program panics instead of reporting an error. *)
Theorem update_panics (currentVersion : string) (w : updateWorld) (fs : files) (exe : string) (v : versionResponse) (body : list Z) :
  uw_container w = false → currentVersion ≠ "version_replaceme"%string → uw_executable w = Some exe →
  uw_version w = Some (200, Some v) → vr_Success v = true → vr_CurrentIsLatest v = false → uw_writable w = true →
  uw_download w = Some (200, body) → uw_temp w = None →
  CheckAndSelfUpdate currentVersion w fs = Panic.
Proof.
  intros Hc Hv He Hr Hs Hl Hw Hd Ht. unfold CheckAndSelfUpdate, install. rewrite Hc, He, Hr, bool_decide_false by done. simpl.
  rewrite Hs, Hl, Hw, Hd, Ht. done.
Qed.

End SelfUpdate.

(** ** Version texts *)

Lemma dotParts_plain s : has c_dot s = false → dotParts s = [s].
Proof.
  induction s as [|c s IH]; [done|]. rewrite has_cons. intros [H1 H2]%orb_false_iff. simpl.
  destruct (Ascii.eqb c c_dot) eqn:E; [apply Ascii.eqb_eq in E; subst c; by rewrite Ascii.eqb_refl in H1|]. by rewrite (IH H2).
Qed.

Lemma dotParts_dot s t : has c_dot s = false → dotParts (s ++ c_dot :: t) = s :: dotParts t.
Proof.
  induction s as [|c s IH]; [done|]. rewrite has_cons. intros [H1 H2]%orb_false_iff. simpl.
  destruct (Ascii.eqb c c_dot) eqn:E; [apply Ascii.eqb_eq in E; subst c; by rewrite Ascii.eqb_refl in H1|]. by rewrite (IH H2).
Qed.

Lemma itoa_nodot n : 0 <= n → has c_dot (str (itoa n)) = false.
Proof. intros Hn. apply takeDigits_has; [done|by apply takeDigits_itoa]. Qed.

(** The text of a number starts with a digit. *)
Lemma itoa_digit n : 0 <= n → ∃ c r, str (itoa n) = c :: r ∧ isDigit c = true.
Proof.
  intros Hn. pose proof (takeDigits_itoa n Hn) as Ht. pose proof (itoa_nonempty n Hn) as Hne.
  destruct (str (itoa n)) as [|c r]; [done|]. exists c, r. split; [done|]. simpl in Ht. by destruct (isDigit c).
Qed.

Lemma Atoi_itoa n : 0 <= n < 2 ^ 63 → Atoi (itoa n) = Some n.
Proof.
  intros Hn. unfold Atoi, atoiSyntax. destruct (itoa_digit n) as (c & r & E & Hc); [lia|]. rewrite E.
  destruct (digit_scan c Hc) as (_ & H1 & H2).
  assert ((match c :: r with "-"%char :: r => (true, r) | "+"%char :: r => (false, r) | r => (false, r) end) = (false, c :: r)) as ->.
  { destruct (Ascii.eqb_spec c "-"%char) as [->|H1']; [done|]. destruct (Ascii.eqb_spec c "+"%char) as [->|H2']; [done|].
    destruct c as [[] [] [] [] [] [] [] []]; try done. }
  cbn [length Nat.eqb]. rewrite <- E, (digits_value_itoa n) by lia. cbn [mbind option_bind].
  replace (- 2 ^ 63 <=? n) with true by (symmetry; apply Z.leb_le; lia).
  replace (n <? 2 ^ 63) with true by (symmetry; apply Z.ltb_lt; lia). done.
Qed.

(** A version text that is written and read again is the
    same version, with or without the v in front. *)
Theorem version_roundtrip (v : Version) (prefixed : bool) :
  0 <= Major v < 2 ^ 63 → 0 <= Minor v < 2 ^ 63 → 0 <= Patch v < 2 ^ 63 →
  parseVersion ((if prefixed then "v" else "") +:+ versionString v) = Some v.
Proof.
  intros H1 H2 H3. unfold parseVersion.
  assert (default (str ((if prefixed then "v" else "") +:+ versionString v)) (trimPrefix (str "v") (str ((if prefixed then "v" else "") +:+ versionString v)))
          = str (versionString v)) as ->.
  { destruct prefixed; [done|]. change ("" +:+ versionString v) with (versionString v). unfold versionString.
    destruct (itoa_digit (Major v)) as (c & r & E & Hc); [lia|]. rewrite str_app, E.
    destruct (trimPrefix (str "v") _) as [t|] eqn:Et; [|done]. apply trimPrefix_Some in Et. injection Et as -> _. done. }
  unfold versionString. rewrite !str_app. change (str ".") with [c_dot]. cbn [app].
  rewrite !dotParts_dot by (apply itoa_nodot; lia). rewrite dotParts_plain by (apply itoa_nodot; lia). rewrite !unstr_str.
  rewrite (Atoi_itoa (Major v)), (Atoi_itoa (Minor v)), (Atoi_itoa (Patch v)) by lia. by destruct v.
Qed.

(** Being newer is a strict order by major, minor and patch
    number in which any two different versions compare. *)
Theorem newer_is_order (a b c : Version) :
  isNewer a a = false ∧ (isNewer a b = true → isNewer b c = true → isNewer a c = true) ∧
  (isNewer a b = true ∨ isNewer b a = true ∨ a = b) ∧
  (isNewer a b = true ↔ Major a < Major b ∨ Major a = Major b ∧ (Minor a < Minor b ∨ Minor a = Minor b ∧ Patch a < Patch b)).
Proof.
  assert (∀ x y, isNewer x y = true ↔ Major x < Major y ∨ Major x = Major y ∧ (Minor x < Minor y ∨ Minor x = Minor y ∧ Patch x < Patch y)) as Hlex.
  { intros x y. unfold isNewer. destruct (Z.ltb_spec (Major x) (Major y)), (Z.ltb_spec (Major y) (Major x)),
      (Z.ltb_spec (Minor x) (Minor y)), (Z.ltb_spec (Minor y) (Minor x)), (Z.ltb_spec (Patch x) (Patch y)); split; intros; try done; lia. }
  split; [apply not_true_is_false; rewrite Hlex; lia|]. split; [rewrite !Hlex; lia|]. split; [|apply Hlex].
  rewrite !Hlex. destruct a as [a1 a2 a3], b as [b1 b2 b3]. simpl.
  destruct (Z.lt_trichotomy a1 b1) as [?|[->|?]]; [lia| |lia]. destruct (Z.lt_trichotomy a2 b2) as [?|[->|?]]; [lia| |lia].
  destruct (Z.lt_trichotomy a3 b3) as [?|[->|?]]; [lia| |lia]. auto.
Qed.

Lemma length_padRight s w : length (padRight s w) = w.
Proof.
  unfold padRight. destruct (Nat.ltb_spec w (length s)); [rewrite length_take; lia|].
  unfold spaces. rewrite length_app, length_replicate. lia.
Qed.

Lemma length_centerText s w : length (centerText s w) = w.
Proof.
  unfold centerText, spaces. destruct (Nat.leb_spec w (length s)); [rewrite length_take; lia|].
  rewrite !length_app, !length_replicate. pose proof (Nat.Div0.div_le_upper_bound (w - length s) 2 (w - length s) ltac:(lia)). lia.
Qed.

(** Every line of the banner fills its box: seventy columns,
    whatever the texts. *)
Theorem banner_width (cur latest url : list ascii) : Forall (λ l, length l = contentWidth) (bannerLines cur latest url).
Proof.
  unfold bannerLines. repeat constructor; rewrite ?length_app, ?length_padRight, ?length_centerText; reflexivity.
Qed.

Module UpdateExamples.

Definition hash (b : list Z) : string := if bool_decide (b = [1;2;3]) then "abc123" else "000000".
Definition newer : versionResponse := mkVersionResponse "1.3.0" false "https://example/newt" "ABC123" true.
Definition world (body : list Z) (temp : option string) : updateWorld :=
  mkWorld false (Some "/usr/bin/newt"%string) (Some (200, Some newer)) true (Some (200, body)) (20 * Second) temp true true true true true true.
Definition disk : files := {[ "/usr/bin/newt"%string := ([9], 493); "/usr/bin/ls"%string := ([7], 493) ]}.

Example replaced : CheckAndSelfUpdate hash "1.2.0" (world [1;2;3] (Some "/usr/bin/.newt-update-1"%string)) disk =
  Ret (<["/usr/bin/newt"%string := ([1;2;3], 493)]> disk, Reexec).
Proof. vm_compute. reflexivity. Qed.


Lemma update_panics_witness : CheckAndSelfUpdate hash "1.2.0" (world [1;2;3] None) disk = Panic.
Proof. by apply (update_panics hash "1.2.0" (world [1;2;3] None) disk "/usr/bin/newt" newer [1;2;3]). Defined.

Lemma version_roundtrip_witness : parseVersion "v1.20.3" = Some (mkVersion 1 20 3).
Proof. apply (version_roundtrip (mkVersion 1 20 3) true); simpl; lia. Defined.

Example odd_versions : parseVersion "1.2" = None ∧ parseVersion "1.2.3-rc1" = None ∧ parseVersion "vv1.2.3" = None ∧
  parseVersion "+1.2.-3" = Some (mkVersion 1 2 (-3)).
Proof. vm_compute. repeat split. Qed.

End UpdateExamples.
