(* ===== verification/Docker.v ===== *)
(** * Docker discovery ([docker/docker.go])

    newt lists the containers of the host it runs on, for the server to offer
    as targets, and watches Docker's events to send the list again.  The Docker
    client is a parameter: what it returns for the container newt runs in, for
    a filtered list, and for the inspection of each container. *)

From S2P Require Import Prelude Netip NetipText HostPort Keys Util.
From Stdlib Require Import Ascii.

(** ** Addresses of the API *)

Record dockerHost : Type := mkDockerHost { dk_protocol : string; dk_address : string }.

#[global] Instance dockerHost_eq_dec : EqDecision dockerHost.
Proof. solve_decision. Defined.

Definition HasPrefix (p s : string) : bool := match trimPrefix (str p) (str s) with Some _ => true | None => false end.

(** [strings.Contains(s, "://")] *)
Fixpoint containsChars (p s : list ascii) : bool :=
  match trimPrefix p s with
  | Some _ => true
  | None => match s with [] => false | _ :: r => containsChars p r end
  end.

Definition parseDockerHost (raw : string) : dockerHost :=
  if HasPrefix "unix://" raw then mkDockerHost "unix" (TrimPrefix "unix://" raw)
  else if HasPrefix "ssh://" raw then mkDockerHost "ssh" (TrimPrefix "ssh://" raw)
  else if HasPrefix "tcp://" raw || HasPrefix "http://" raw || HasPrefix "https://" raw
  then mkDockerHost "tcp" (TrimPrefix "https://" (TrimPrefix "http://" (TrimPrefix "tcp://" raw)))
  else mkDockerHost "unix" raw.

(** The default, and a scheme when there is none. *)
Definition normalizeSocket (socketPath : string) : string :=
  let s := if bool_decide (socketPath = "") then "unix:///var/run/docker.sock" else socketPath in
  if containsChars (str "://") (str s) then s else "unix://" +:+ s.

(** [dial] is [net.DialTimeout]. *)
Definition CheckSocket (dial : string → string → bool) (socketPath : string) : bool :=
  let host := parseDockerHost (normalizeSocket socketPath) in dial (dk_protocol host) (dk_address host).

(** ** Containers *)

Record Port : Type := mkPort { po_PrivatePort : Z; po_PublicPort : Z; po_Type : string; po_IP : string }.

Record Network : Type := mkNetwork {
  nw_NetworkID : string; nw_EndpointID : string; nw_Gateway : string; nw_IPAddress : string; nw_IPPrefixLen : Z;
  nw_IPv6Gateway : string; nw_GlobalIPv6Address : string; nw_GlobalIPv6PrefixLen : Z; nw_MacAddress : string;
  nw_Aliases : list string; nw_DNSNames : list string }.

Record Container : Type := mkContainer {
  ct_ID : string; ct_Name : string; ct_Image : string; ct_State : string; ct_Status : string; ct_Ports : list Port;
  ct_Labels : gmap string string; ct_Created : Z; ct_Networks : gmap string Network; ct_Hostname : string }.

(** As the Docker API has them (the MAC address in its text form). *)
Record apiPort : Type := mkApiPort { ap_Private : Z; ap_Public : Z; ap_Type : string; ap_IP : Addr }.
Record apiEndpoint : Type := mkApiEndpoint {
  ae_NetworkID : string; ae_EndpointID : string; ae_Gateway : Addr; ae_IPAddress : Addr; ae_IPPrefixLen : Z;
  ae_IPv6Gateway : Addr; ae_GlobalIPv6Address : Addr; ae_GlobalIPv6PrefixLen : Z; ae_MacAddress : string;
  ae_Aliases : list string; ae_DNSNames : list string }.
Record apiContainer : Type := mkApiContainer {
  ac_ID : string; ac_Names : list string; ac_Image : string; ac_State : string; ac_Status : string; ac_Ports : list apiPort;
  ac_Labels : gmap string string; ac_Created : Z; ac_Networks : option (gmap string apiEndpoint) }.

(** The client: newt's own container with the names of its networks, the list
    under a filter of network names, and the hostname of a container. *)
Class DockerClient : Type := {
  newClient : string → bool;
  hostContainer : option (string * gset string);
  containerList : gset string → option (list apiContainer);
  inspectHostname : string → option string }.

Definition addrToString (a : Addr) : string := if IsValid a then AddrString a else "".

Definition convertPort (p : apiPort) : Port :=
  mkPort (ap_Private p) (ap_Public p) (ap_Type p) (addrToString (ap_IP p)).

Definition convertNetwork (useIPs : bool) (e : apiEndpoint) : Network :=
  mkNetwork (ae_NetworkID e) (ae_EndpointID e) (addrToString (ae_Gateway e))
    (if useIPs then addrToString (ae_IPAddress e) else "") (ae_IPPrefixLen e)
    (addrToString (ae_IPv6Gateway e)) (addrToString (ae_GlobalIPv6Address e)) (ae_GlobalIPv6PrefixLen e) (ae_MacAddress e)
    (ae_Aliases e) (ae_DNSNames e).

Section List.
Context `{DockerClient}.

(** One turn of the loop: [c.ID[:12]] panics on a shorter id. *)
Definition convertContainer (useIPs : bool) (hostId : string) (c : apiContainer) : go (option Container) :=
  if Nat.ltb (length (str (ac_ID c))) 12 then Panic
  else
    let hostname := default "" (inspectHostname (ac_ID c)) in
    if negb (bool_decide (hostId = "")) && bool_decide (ac_ID c = hostId) then Ret None
    else Ret (Some (mkContainer (unstr (take 12 (str (ac_ID c))))
                (match ac_Names c with n :: _ => TrimPrefix "/" n | [] => "" end)
                (ac_Image c) (ac_State c) (ac_Status c) (convertPort <$> ac_Ports c) (ac_Labels c) (ac_Created c)
                (match ac_Networks c with Some m => convertNetwork useIPs <$> m | None => ∅ end) hostname)).

Fixpoint convertAll (useIPs : bool) (hostId : string) (l : list apiContainer) : go (list Container) :=
  match l with
  | [] => Ret []
  | c :: l' => o ← convertContainer useIPs hostId c; r ← convertAll useIPs hostId l'; Ret (option_list o ++ r)
  end.

(** Whether addresses are used: every network of newt's container is the
    bridge. *)
Definition usesAddresses : bool :=
  match hostContainer with Some (_, nets) => bool_decide (nets ⊆ {["bridge"%string]}) | None => true end.

(** [None]: an error. *)
Definition ListContainers (socketPath : string) (enforceNetworkValidation : bool) : go (option (list Container)) :=
  if negb (newClient (normalizeSocket socketPath)) then Ret None
  else
    match hostContainer with
    | None => if enforceNetworkValidation then Ret None
              else match containerList ∅ with None => Ret None | Some l => r ← convertAll true "" l; Ret (Some r) end
    | Some (hostId, nets) =>
        match containerList (if enforceNetworkValidation then nets else ∅) with
        | None => Ret None
        | Some l => r ← convertAll usesAddresses hostId l; Ret (Some r)
        end
    end.

Definition portMatches (targetPort : Z) (p : Port) : bool := (po_PublicPort p =? targetPort) || (po_PrivatePort p =? targetPort).

(** The loops over containers, networks and ports; the order of the networks
    does not matter. *)
Definition targetMatches (targetAddress : string) (targetPort : Z) (c : Container) : bool :=
  existsb (λ '(_, n),
    match ParseIP targetAddress with
    | None => bool_decide (ct_Name c = targetAddress) && existsb (portMatches targetPort) (ct_Ports c)
    | Some _ => bool_decide (nw_IPAddress n = targetAddress) && existsb (portMatches targetPort) (ct_Ports c)
    end) (map_to_list (ct_Networks c)).

Definition IsWithinHostNetwork (socketPath targetAddress : string) (targetPort : Z) : go (option bool) :=
  r ← ListContainers socketPath true;
  Ret (match r with
       | None => None
       | Some l => if existsb (targetMatches targetAddress targetPort) l then Some true else None
       end).

End List.

(** ** Event monitoring *)

Record EventMonitor : Type := mkEventMonitor {
  em_live : bool;                          (* the context is not cancelled *)
  em_socketPath : string;
  em_enforceNetworkValidation : bool }.

(** The filter of the event stream. *)
Definition eventFilters : list (string * string) := [("type", "container"); ("event", "start"); ("event", "stop")]%string.

(** What the loop of [Start] receives: an event with the id of its container,
    an error other than cancellation or the end of the stream, the end of the
    context; [DErr e live] also tells whether the context still runs after the
    pause of five seconds. *)
Inductive dockerInput : Type :=
  | DEvent (actorID : string)
  | DErr (isError live : bool)
  | DDone.

(** What it does: start handling an event, open the stream again, end. *)
Inductive dockerAction : Type := HandleEvent (actorID : string) | Reconnect | CloseClient.

(** The log line takes the first twelve characters of the id. *)
Fixpoint monitorLoop (l : list dockerInput) : go (list dockerAction) :=
  match l with
  | [] => Ret []
  | DEvent i :: r =>
      if Nat.ltb (length (str i)) 12 then Panic else acts ← monitorLoop r; Ret (HandleEvent i :: acts)
  | DErr isError live :: _ => Ret ((if isError && live then [Reconnect] else []) ++ [CloseClient])
  | DDone :: _ => Ret [CloseClient]
  end.

Section Monitor.
Context `{DockerClient}.

(** [None]: the client cannot be made.  The path is kept with its scheme. *)
Definition NewEventMonitor (socketPath : string) (enforceNetworkValidation : bool) : option EventMonitor :=
  let s := normalizeSocket socketPath in
  if newClient s then Some (mkEventMonitor true s enforceNetworkValidation) else None.

(** The argument of the callback, when there is a call. *)
Definition handleEvent (em : EventMonitor) : go (option (list Container)) :=
  ListContainers (em_socketPath em) (em_enforceNetworkValidation em).

Definition Stop (em : EventMonitor) : EventMonitor :=
  mkEventMonitor false (em_socketPath em) (em_enforceNetworkValidation em).

End Monitor.

(** ** Properties *)

Definition sentEvents (l : list dockerInput) : list string := omap (λ a, match a with DEvent i => Some i | _ => None end) l.

(** The monitor does not survive an error of the event
    stream: it opens the stream again, then closes its client and ends, and no
    event after the error is handled. *)
Theorem monitor_stops_at_error (live : bool) (before after : list dockerInput) :
  Forall (λ i, match i with DEvent a => (12 ≤ length (str a))%nat | _ => False end) before →
  monitorLoop (before ++ DErr true live :: after) =
    Ret ((HandleEvent <$> sentEvents before) ++ (if live then [Reconnect] else []) ++ [CloseClient]).
Proof.
  induction 1 as [|i l Hi Hl IH]; [by destruct live|]. destruct i as [a| |]; [|done..]. simpl.
  rewrite (proj2 (Nat.ltb_ge _ _)) by done. by rewrite IH.
Qed.

Lemma containsChars_app p a s : containsChars p (a ++ p ++ s) = true.
Proof.
  induction a as [|c a IH]; simpl.
  - destruct (p ++ s) eqn:E; cbn [containsChars]; by rewrite (proj2 (trimPrefix_Some p _ s)) by done.
  - rewrite IH. by destruct (trimPrefix p (c :: a ++ p ++ s)).
Qed.

(** A path with its scheme is left as it is. *)
Lemma normalizeSocket_idem s : normalizeSocket (normalizeSocket s) = normalizeSocket s.
Proof.
  assert (∀ x, containsChars (str "://") (str x) = true → normalizeSocket x = x) as H.
  { intros x Hx. unfold normalizeSocket. case_bool_decide as E; [by subst x|]. by rewrite Hx. }
  apply H. unfold normalizeSocket. set (x := if bool_decide _ then _ else _).
  destruct (containsChars (str "://") (str x)) eqn:E; [done|]. rewrite str_app.
  change (str "unix://") with (str "unix" ++ str "://"). rewrite <- app_assoc. apply containsChars_app.
Qed.
Section Facts.
Context `{DockerClient}.

(** What an event leads to is the list a direct call gives
    for the path the monitor was made with. *)
Theorem monitor_lists_same (socketPath : string) (enforce : bool) (em : EventMonitor) :
  NewEventMonitor socketPath enforce = Some em → handleEvent em = ListContainers socketPath enforce.
Proof.
  unfold NewEventMonitor. destruct (newClient _) eqn:E; [|done]. intros [= <-].
  unfold handleEvent, ListContainers. simpl. by rewrite normalizeSocket_idem.
Qed.

Lemma convertAll_elem useIPs hostId l r c :
  convertAll useIPs hostId l = Ret r → c ∈ r →
  ∃ a, a ∈ l ∧ convertContainer useIPs hostId a = Ret (Some c).
Proof.
  revert r. induction l as [|a l IH]; intros r; simpl; [intros [= <-] Hc; by apply elem_of_nil in Hc|].
  destruct (convertContainer useIPs hostId a) as [o|] eqn:Ea; [|done]. simpl.
  destruct (convertAll useIPs hostId l) as [r'|]; [|done]. simpl. intros [= <-] [Hc|Hc]%elem_of_app.
  - destruct o as [c'|]; simpl in Hc; [|by apply elem_of_nil in Hc]. apply list_elem_of_singleton in Hc as ->. exists a. split; [left|done].
  - destruct (IH r' eq_refl Hc) as (a' & ? & ?). exists a'. split; [by right|done].
Qed.

(** Newt's own container is not in the list. *)
Lemma converted_id useIPs hostId a c :
  convertContainer useIPs hostId a = Ret (Some c) → hostId ≠ ""%string → ac_ID a ≠ hostId.
Proof.
  unfold convertContainer. destruct (Nat.ltb _ _); [done|]. intros E Hh Ei.
  rewrite (bool_decide_false (hostId = "")), (bool_decide_true (ac_ID a = hostId)) in E by done. done.
Qed.

Lemma converted_networks useIPs hostId a c n w :
  convertContainer useIPs hostId a = Ret (Some c) → ct_Networks c !! n = Some w → useIPs = false → nw_IPAddress w = ""%string.
Proof.
  unfold convertContainer. destruct (Nat.ltb _ _); [done|]. destruct (_ && _); [done|]. intros [= <-] Hn ->. simpl in Hn.
  destruct (ac_Networks a) as [m|]; simpl in Hn; [|done].
  rewrite lookup_fmap in Hn. destruct (m !! n); [|done]. by injection Hn as <-.
Qed.

(** When newt's own container is on a network other than
    the bridge, no target that is given by IP address is ever found within the
    host's container networks: the list it is looked up in then has no
    addresses. *)
Theorem address_targets_refused (socketPath targetAddress : string) (targetPort : Z) (hostId : string) (nets : gset string) :
  hostContainer = Some (hostId, nets) → nets ⊈ {["bridge"%string]} → is_Some (ParseIP targetAddress) →
  IsWithinHostNetwork socketPath targetAddress targetPort ≠ Ret (Some true).
Proof.
  intros Hh Hn [ip Hip]. unfold IsWithinHostNetwork, ListContainers, usesAddresses. rewrite Hh, bool_decide_false by done.
  destruct (negb (newClient (normalizeSocket socketPath))); [done|]. destruct (containerList nets) as [l|]; [|done].
  destruct (convertAll false hostId l) as [r|] eqn:Er; [|done]. simpl.
  destruct (existsb (targetMatches targetAddress targetPort) r) eqn:E; [|done]. exfalso.
  apply existsb_elem in E as (c & Hc & Ht).
  destruct (convertAll_elem _ _ _ _ _ Er Hc) as (a & _ & Ea). unfold targetMatches in Ht. rewrite Hip in Ht.
  apply existsb_elem in Ht as ([n w] & Hw & Ht). apply elem_of_map_to_list in Hw.
  apply andb_true_iff in Ht as [Ht _]. apply bool_decide_eq_true in Ht.
  rewrite (converted_networks _ _ _ _ _ _ Ea Hw eq_refl) in Ht. subst targetAddress. done.
Qed.

(** The containers that are listed are containers of the
    client's list, restricted to newt's networks when that is enforced, and
    never newt's own. *)
Theorem listed_containers (socketPath : string) (enforce : bool) (hostId : string) (nets : gset string) (r : list Container) :
  hostContainer = Some (hostId, nets) → hostId ≠ ""%string → ListContainers socketPath enforce = Ret (Some r) →
  ∃ l, containerList (if enforce then nets else ∅) = Some l ∧
    ∀ c, c ∈ r → ∃ a, a ∈ l ∧ ac_ID a ≠ hostId ∧ ct_ID c = unstr (take 12 (str (ac_ID a))) ∧ ct_Ports c = convertPort <$> ac_Ports a.
Proof.
  intros Hh Hne. unfold ListContainers. rewrite Hh. destruct (negb _); [done|].
  destruct (containerList (if enforce then nets else ∅)) as [l|]; [|done].
  destruct (convertAll usesAddresses hostId l) as [r'|] eqn:Er; [|done]. intros [= <-]. exists l. split; [done|].
  intros c Hc. destruct (convertAll_elem _ _ _ _ _ Er Hc) as (a & Ha & Ea). exists a. split; [done|].
  split; [by eapply converted_id|]. unfold convertContainer in Ea. destruct (Nat.ltb _ _); [done|]. destruct (_ && _); [done|].
  by injection Ea as <-.
Qed.

End Facts.

(** With [net.Dial]'s networks, an ssh address is never
    reachable. *)
Theorem ssh_unreachable (dial : string → string → bool) (rest : string) :
  (∀ n a, n ∉ ["tcp"; "tcp4"; "tcp6"; "udp"; "udp4"; "udp6"; "ip"; "ip4"; "ip6"; "unix"; "unixgram"; "unixpacket"]%string → dial n a = false) →
  CheckSocket dial ("ssh://" +:+ rest) = false.
Proof.
  intros Hd. unfold CheckSocket.
  assert (normalizeSocket ("ssh://" +:+ rest) = "ssh://" +:+ rest) as -> by reflexivity.
  assert (parseDockerHost ("ssh://" +:+ rest) = mkDockerHost "ssh" (TrimPrefix "ssh://" ("ssh://" +:+ rest))) as -> by reflexivity.
  apply Hd. apply (bool_decide_unpack _). vm_compute. reflexivity.
Qed.

Module DockerExamples.

Example hosts :
  parseDockerHost <$> ["unix:///run/d.sock"; "tcp://10.0.0.1:2375"; "https://h:2376"; "ssh://me@h"; "/run/d.sock"]%string =
  [mkDockerHost "unix" "/run/d.sock"; mkDockerHost "tcp" "10.0.0.1:2375"; mkDockerHost "tcp" "h:2376"; mkDockerHost "ssh" "me@h";
   mkDockerHost "unix" "/run/d.sock"].
Proof. vm_compute. reflexivity. Qed.

(** Newt on its own network with a web server at 172.18.0.3. *)
Definition endpoint : apiEndpoint :=
  mkApiEndpoint "n1" "e1" (Addr4 2886860801) (Addr4 2886860803) 16 AddrInvalid AddrInvalid 0 "02:42:ac:12:00:03"
    ["web"%string] ["web"%string].
Definition webc : apiContainer :=
  mkApiContainer "0123456789abcdef" ["/web"%string] "nginx" "running" "Up" [mkApiPort 80 8080 "tcp" (Addr4 0)] ∅ 0
    (Some {[ "apps"%string := endpoint ]}).
Definition newtc : apiContainer := mkApiContainer "fedcba9876543210" ["/newt"%string] "newt" "running" "Up" [] ∅ 0 None.
Definition client1 (net : string) : DockerClient := {|
  newClient := λ _, true; hostContainer := Some ("fedcba9876543210"%string, {[ net ]});
  containerList := λ _, Some [webc; newtc]; inspectHostname := λ _, None |}.

(** The name is found, the address only from the bridge network. *)
Example within :
  @IsWithinHostNetwork (client1 "apps") "" "web" 80 = Ret (Some true) ∧
  @IsWithinHostNetwork (client1 "apps") "" "172.18.0.3" 80 = Ret None ∧
  @IsWithinHostNetwork (client1 "bridge") "" "172.18.0.3" 8080 = Ret (Some true) ∧
  @IsWithinHostNetwork (client1 "apps") "" "web" 81 = Ret None.
Proof. vm_compute. repeat split. Qed.

Lemma address_targets_refused_witness : @IsWithinHostNetwork (client1 "apps") "" "172.18.0.3" 80 ≠ Ret (Some true).
Proof.
  apply (@address_targets_refused (client1 "apps") "" "172.18.0.3" 80 "fedcba9876543210" {[ "apps"%string ]}); [done| |by eexists].
  apply (bool_decide_unpack _). vm_compute. reflexivity.
Defined.

Lemma listed_containers_witness :
  match @ListContainers (client1 "apps") "" true with
  | Ret (Some r) => ct_ID <$> r = ["0123456789ab"%string] ∧ ∀ c, c ∈ r → ∃ a, a ∈ [webc; newtc] ∧ ac_ID a ≠ "fedcba9876543210"%string
  | _ => False
  end.
Proof.
  destruct (@ListContainers (client1 "apps") "" true) as [[r|]|] eqn:E; [|by vm_compute in E..].
  destruct (@listed_containers (client1 "apps") "" true "fedcba9876543210" {[ "apps"%string ]} r) as (l & El & Hl); [done|done|exact E|].
  injection El as <-. split; [vm_compute in E; by injection E as <-|].
  intros c Hc. destruct (Hl c Hc) as (a & Ha & Hn & _). by exists a.
Defined.

Lemma monitor_stops_at_error_witness :
  monitorLoop [DEvent "0123456789abcdef"; DErr true true; DEvent "fedcba9876543210"] =
    Ret [HandleEvent "0123456789abcdef"; Reconnect; CloseClient].
Proof.
  apply (monitor_stops_at_error true [DEvent "0123456789abcdef"] [DEvent "fedcba9876543210"]).
  repeat constructor.
Defined.

Lemma monitor_lists_same_witness : ∃ em, @handleEvent (client1 "apps") em = @ListContainers (client1 "apps") "/run/d.sock" true.
Proof.
  exists (mkEventMonitor true "unix:///run/d.sock" true).
  apply (@monitor_lists_same (client1 "apps") "/run/d.sock" true). vm_compute. reflexivity.
Defined.

Lemma ssh_unreachable_witness : CheckSocket (λ n _, bool_decide (n = "tcp"%string)) "ssh://me@host" = false.
Proof.
  apply (ssh_unreachable (λ n _, bool_decide (n = "tcp"%string)) "me@host"). intros n a Hn. apply bool_decide_false. set_solver.
Defined.

End DockerExamples.
