(* ===== verification/Requests.v ===== *)
(** * Requests of the server ([newt/handlers.go])

    The handlers of [registerHandlers] that answer with what other components
    know (the Docker socket, the containers, the state of the health checks)
    and the one that restarts newt.  A message that is sent is a value; what
    it is encoded as is left to the websocket client. *)

From S2P Require Import Prelude HealthCheck Docker.

(** ** Messages *)

(** An entry of a status report; the time of the last check is sent as text. *)
Record healthEntry : Type := mkHealthEntry {
  he_status : string; he_lastCheck : Z; he_checkCount : Z; he_lastError : string; he_config : Config }.

Inductive answer : Type :=
  | SocketStatus (available : bool) (socketPath : string)       (* newt/socket/status *)
  | SocketContainers (containers : list Container)              (* newt/socket/containers *)
  | HealthStatus (targets : gmap Z healthEntry).                (* newt/healthcheck/status *)

(** ** Docker *)

Section docker.
Context `{DockerClient} (dial : string → string → bool).

(** [newt/socket/check] *)
Definition handleSocketCheck (socket : string) : list answer :=
  if bool_decide (socket = "") then [SocketStatus false socket] else [SocketStatus (CheckSocket dial socket) socket].

(** [newt/socket/fetch] *)
Definition handleSocketFetch (socket : string) (enforceNetworkValidation : bool) : go (list answer) :=
  if bool_decide (socket = "") then Ret []
  else
    containers ← ListContainers socket enforceNetworkValidation;
    Ret (match containers with None => [] | Some l => [SocketContainers l] end).

End docker.

(** ** Health checks *)

Definition healthEntryOf (t : Target) : healthEntry :=
  mkHealthEntry (HealthString (t_Status t)) (t_LastCheck t) (t_CheckCount t) (t_LastError t) (t_Config t).

Definition GetTargets (m : Monitor) : gmap Z Target := getAllTargets m.

(** [newt/healthcheck/status/request] *)
Definition handleStatusRequest (m : Monitor) : list answer := [HealthStatus (healthEntryOf <$> GetTargets m)].

(** The callback that [Newt.Start] gives the monitor. *)
Definition healthCallback (targets : gmap Z Target) : list answer := [HealthStatus (healthEntryOf <$> targets)].

(** What the monitor's events send. *)
Definition eventAnswers (ev : hcEvent) : list answer :=
  match ev with EvCallback targets => healthCallback targets | _ => [] end.

(** ** Restart *)

(** [OnRestart]: none, or whether it succeeds. *)
Inductive restartEnd : Type := KeepsRunning | Restarted | ExitOne.

Inductive restartStep : Type := RTunnel | RClients | RHealth | RWebsocket | ROnRestart.

#[global] Instance restartStep_eq_dec : EqDecision restartStep.
Proof. solve_decision. Defined.

(** [newt/wg/restart] *)
Definition handleRestart (hasMonitor : bool) (onRestart : option bool) : list restartStep * restartEnd :=
  let closed := [RTunnel; RClients] ++ (if hasMonitor then [RHealth] else []) ++ [RWebsocket] in
  match onRestart with
  | None => (closed, KeepsRunning)
  | Some ok => (closed ++ [ROnRestart], if ok then Restarted else ExitOne)
  end.

(** ** Correctness *)

(** A status report has exactly the targets the monitor has, each with its
    current state; and it is what the monitor's own notification of the same
    moment sends. *)
Theorem status_complete (m : Monitor) (Hwf : monitor_wf m) :
  ∃ report, handleStatusRequest m = [HealthStatus report] ∧
    dom report = dom (targets m) ∧
    (∀ id e, report !! id = Some e ↔ ∃ l t, targets m !! id = Some l ∧ store m !! l = Some t ∧ e = healthEntryOf t) ∧
    (∀ id e, report !! id = Some e → cfg_ID (he_config e) = id) ∧
    handleStatusRequest m = eventAnswers (EvCallback (getAllTargets m)).
Proof.
  eexists. split; [reflexivity|].
  assert (∀ id, (healthEntryOf <$> GetTargets m) !! id = healthEntryOf <$> (targets m !! id ≫= λ l, store m !! l)) as E.
  { intros id. unfold GetTargets, getAllTargets. by rewrite lookup_fmap, lookup_omap. }
  split_and!; [| | |done].
  - apply set_eq. intros id. rewrite !elem_of_dom, E. split; [intros [e He]; destruct (targets m !! id); [by eexists|done]|].
    intros [l Hl]. destruct (wf_target m Hwf id l Hl) as (t & Ht & _). rewrite Hl. simpl. rewrite Ht. by eexists.
  - intros id e. rewrite E. rewrite fmap_Some. setoid_rewrite bind_Some. naive_solver.
  - intros id e. rewrite E, fmap_Some. setoid_rewrite bind_Some. intros (t & (l & Hl & Ht) & ->).
    destruct (wf_target m Hwf id l Hl) as (t' & Ht' & Hid). simplify_eq. done.
Qed.

(** Without a configured socket Docker is reported as not available and no
    list is sent; with one, the report is the outcome of the dial to it, and
    the list is sent exactly when it could be read. *)
Theorem docker_answers `{DockerClient} (dial : string → string → bool) (socket : string) (enforce : bool) :
  (handleSocketCheck dial socket = [SocketStatus (negb (bool_decide (socket = "")) && CheckSocket dial socket) socket]) ∧
  (∀ r, handleSocketFetch socket enforce = Ret r →
     r = [] ∨ ∃ l, r = [SocketContainers l] ∧ socket ≠ ""%string ∧ ListContainers socket enforce = Ret (Some l)).
Proof.
  unfold handleSocketCheck, handleSocketFetch. split; [by case_bool_decide|]. case_bool_decide; [intros r [= <-]; by left|].
  intros r. destruct (ListContainers socket enforce) as [[l|]|]; simpl; intros [= <-]; eauto.
Qed.

(** The restart hook runs last, after the tunnel, the clients, the monitor and
    the websocket were closed; without a hook everything is closed and the
    process goes on. *)
Theorem restart_closes_first (hasMonitor : bool) (onRestart : option bool) :
  let '(steps, result) := handleRestart hasMonitor onRestart in
  NoDup steps ∧ (RTunnel ∈ steps) ∧ (RClients ∈ steps) ∧ (RWebsocket ∈ steps) ∧ (hasMonitor = true ↔ RHealth ∈ steps) ∧
  (∀ i j, steps !! i = Some ROnRestart → (i < j)%nat → steps !! j = None) ∧ (onRestart = None ↔ result = KeepsRunning).
Proof.
  destruct hasMonitor, onRestart as [[]|]; simpl; split_and!; try (apply (bool_decide_unpack _); vm_compute; exact I); try done;
    intros [|[|[|[|[|i]]]]] [|[|[|[|[|j]]]]] ?; simpl in *; try done; lia.
Qed.

Module RequestsExamples.

Definition monitor1 : Monitor := (AddTarget (HealthCheckExamples.cfg 7 true) (NewMonitor true false)).1.

Lemma status_complete_witness : ∃ report, handleStatusRequest monitor1 = [HealthStatus report] ∧ dom report = {[7]}.
Proof.
  destruct (status_complete monitor1 (wf_add _ _ (wf_NewMonitor true false))) as (r & Hr & Hd & _). exists r. split; [exact Hr|].
  rewrite Hd. apply (bool_decide_unpack _). vm_compute. exact I.
Defined.

End RequestsExamples.
