(* ===== verification/Blueprint.v ===== *)
(** * Blueprints ([newt/blueprint.go])

    A blueprint file is read, its [{{env.VAR}}] tokens are replaced, it is
    converted from YAML to JSON and sent; a watcher sends it again half a
    second after the last of a burst of changes.  YAML, JSON, the file system
    and the environment are arguments; the watcher is a timed state machine. *)

From S2P Require Import Prelude NetipText Keys Util WsConfig.
From Stdlib Require Import Ascii.

(** ** Interpolation *)

Definition c_lb : ascii := "{"%char.
Definition c_rb : ascii := "}"%char.

(** The longest prefix without a closing brace, and the rest. *)
Fixpoint spanBrace (s : list ascii) : list ascii * list ascii :=
  match s with
  | [] => ([], [])
  | x :: s' => if Ascii.eqb x c_rb then ([], s) else let '(a, b) := spanBrace s' in (x :: a, b)
  end.

(** A match of [\{\{([^}]+)\}\}] at the beginning: the group and the rest. *)
Definition braceToken (s : list ascii) : option (list ascii * list ascii) :=
  match s with
  | a :: b :: s' =>
      if Ascii.eqb a c_lb && Ascii.eqb b c_lb then
        match spanBrace s' with
        | (x :: inner, y :: z :: rest) => if Ascii.eqb y c_rb && Ascii.eqb z c_rb then Some (x :: inner, rest) else None
        | _ => None
        end
      else None
  | _ => None
  end.

(** The replacement of one match. *)
Definition replaceToken (getenv : string → string) (group : list ascii) : list ascii :=
  match trimPrefix (str "env.") (TrimSpace group) with
  | Some varName => str (getenv (unstr varName))
  | None => [c_lb; c_lb] ++ group ++ [c_rb; c_rb]
  end.

(** [ReplaceAllFunc], leftmost matches first; each step consumes a character,
    so the length of the text is enough fuel. *)
Fixpoint replaceAll (getenv : string → string) (fuel : nat) (s : list ascii) : list ascii :=
  match fuel, s with
  | S fuel', x :: s' =>
      match braceToken s with
      | Some (group, rest) => replaceToken getenv group ++ replaceAll getenv fuel' rest
      | None => x :: replaceAll getenv fuel' s'
      end
  | _, _ => s
  end.

Definition interpolateBlueprint (getenv : string → string) (data : list ascii) : list ascii := replaceAll getenv (length data) data.

(** ** Sending *)

(** What a blueprint is sent with.  [toJSON] is [yaml.Unmarshal] followed by
    [json.Marshal]; [send] is whether [SendMessage] succeeds.  The result is
    the blueprint sent, if any, and whether an error is returned. *)
Definition sendBlueprint (readFile : string → option (list ascii)) (getenv : string → string)
    (toJSON : list ascii → option string) (send : bool) (file : string) : option string * bool :=
  if bool_decide (file = "") then (None, true)
  else match readFile file with
  | None => (None, true)
  | Some data =>
      match toJSON (interpolateBlueprint getenv data) with
      | None => (None, true)
      | Some json => if bool_decide (json = "") then (None, true) else (Some json, send)
      end
  end.

(** ** Watching *)

Definition debounce : Z := 500 * 1000000.

(** What an event says; [added] is whether watching the file again works. *)
Inductive fsEvent : Type := EvWrite | EvCreate | EvRemove (added : bool) | EvRename (added : bool) | EvChmod | EvError.

(** [bw_timer]: when the pending timer fires; [bw_sent]: when it has fired;
    [bw_watching]: the file is watched, without which no event of it comes. *)
Record blueprintWatch : Type := mkBw { bw_timer : option Z; bw_sent : list Z; bw_watching : bool; bw_done : bool }.

Definition watchInit : blueprintWatch := mkBw None [] true false.

(** The timer fires when its time has come. *)
Definition advance (now : Z) (w : blueprintWatch) : blueprintWatch :=
  match bw_timer w with
  | Some d => if d <=? now then mkBw None (bw_sent w ++ [d]) (bw_watching w) (bw_done w) else w
  | None => w
  end.

Definition scheduleSend (now : Z) (w : blueprintWatch) : blueprintWatch :=
  mkBw (Some (now + debounce)) (bw_sent w) (bw_watching w) (bw_done w).

Definition set_watching (b : bool) (w : blueprintWatch) : blueprintWatch := mkBw (bw_timer w) (bw_sent w) b (bw_done w).

Definition onEvent (now : Z) (e : fsEvent) (w : blueprintWatch) : blueprintWatch :=
  let w := advance now w in
  if bw_done w || negb (bw_watching w) then w
  else match e with
  | EvWrite | EvCreate => scheduleSend now w
  | EvRemove added | EvRename added => scheduleSend now (set_watching added w)
  | EvChmod | EvError => w
  end.

(** The context is done. *)
Definition watchCancel (now : Z) (w : blueprintWatch) : blueprintWatch :=
  let w := advance now w in mkBw None (bw_sent w) (bw_watching w) true.

Definition watchBlueprintFile (evs : list (Z * fsEvent)) : blueprintWatch := foldl (λ w e, onEvent e.1 e.2 w) watchInit evs.

(** ** Templates *)

(** A text made of literals and tokens. *)
Inductive segment : Type := Lit (t : list ascii) | Var (name : list ascii).

Definition printSegment (s : segment) : list ascii :=
  match s with Lit t => t | Var n => [c_lb; c_lb] ++ str "env." ++ n ++ [c_rb; c_rb] end.
Definition valueOf (getenv : string → string) (s : segment) : list ascii :=
  match s with Lit t => t | Var n => str (getenv (unstr n)) end.

Definition segment_ok (s : segment) : Prop :=
  match s with
  | Lit t => Forall (λ c, c ≠ c_lb) t
  | Var n => Forall (λ c, visible c = true ∧ c ≠ c_rb) n
  end.

Lemma spanBrace_app inner rest : Forall (λ c, c ≠ c_rb) inner → spanBrace (inner ++ c_rb :: rest) = (inner, c_rb :: rest).
Proof.
  induction 1 as [|x inner Hx _ IH]; [done|]. cbn [spanBrace app]. by rewrite (proj2 (Ascii.eqb_neq x c_rb) Hx), IH.
Qed.

Lemma braceToken_lit x s : x ≠ c_lb → braceToken (x :: s) = None.
Proof. intros Hx. destruct s as [|y s]; [done|]. unfold braceToken. by rewrite (proj2 (Ascii.eqb_neq x c_lb) Hx). Qed.

Lemma braceToken_var n rest :
  Forall (λ c, visible c = true ∧ c ≠ c_rb) n → braceToken (printSegment (Var n) ++ rest) = Some (str "env." ++ n, rest).
Proof.
  intros Hn. unfold printSegment. rewrite <-!app_assoc.
  change ([c_lb; c_lb] ++ str "env." ++ n ++ [c_rb; c_rb] ++ rest) with (c_lb :: c_lb :: (str "env." ++ n) ++ c_rb :: c_rb :: rest).
  unfold braceToken. rewrite !Ascii.eqb_refl. cbn [andb]. rewrite spanBrace_app.
  - by rewrite !Ascii.eqb_refl.
  - apply Forall_app. split; [repeat constructor; discriminate|]. eapply Forall_impl; [exact Hn|naive_solver].
Qed.

Lemma replace_var getenv n : Forall (λ c, visible c = true ∧ c ≠ c_rb) n → replaceToken getenv (str "env." ++ n) = str (getenv (unstr n)).
Proof.
  intros Hn. unfold replaceToken. rewrite TrimSpace_visible.
  - by rewrite (proj2 (trimPrefix_Some (str "env.") (str "env." ++ n) n) eq_refl).
  - apply Forall_app. split; [repeat constructor|]. eapply Forall_impl; [exact Hn|naive_solver].
Qed.

Lemma replaceAll_lit getenv t rest fuel :
  Forall (λ c, c ≠ c_lb) t → (length t <= fuel)%nat →
  replaceAll getenv fuel (t ++ rest) = t ++ replaceAll getenv (fuel - length t) rest.
Proof.
  intros Ht. revert fuel. induction Ht as [|x t Hx _ IH]; intros fuel Hf; simpl; [by rewrite Nat.sub_0_r|].
  destruct fuel as [|fuel]; simpl in Hf; [lia|]. cbn [replaceAll app]. rewrite braceToken_lit by done. by rewrite IH by lia.
Qed.

Lemma replaceAll_segments getenv l fuel :
  Forall segment_ok l → (length (l ≫= printSegment) <= fuel)%nat →
  replaceAll getenv fuel (l ≫= printSegment) = l ≫= valueOf getenv.
Proof.
  revert fuel. induction l as [|s l IH]; intros fuel Hl Hf; [by destruct fuel|]. apply Forall_cons in Hl as [Hs Hl].
  rewrite bind_cons in *. rewrite length_app in Hf. destruct s as [t|n].
  - cbn [printSegment] in *. rewrite replaceAll_lit; [|done|lia]. rewrite IH; [done|done|lia].
  - assert (length (printSegment (Var n)) = (8 + length n)%nat) as En by (unfold printSegment; rewrite !length_app; simpl; lia).
    rewrite bind_cons. rewrite En in Hf. destruct fuel as [|fuel]; [lia|].
    pose proof (braceToken_var n (l ≫= printSegment) Hs) as Hm. cbn [replaceAll].
    destruct (printSegment (Var n) ++ (l ≫= printSegment)) as [|x r] eqn:Ep; [done|]. rewrite Hm, replace_var by done.
    rewrite IH; [done|done|lia].
Qed.

(** In a text of literals without an opening brace and
    [{{env.VAR}}] tokens, each token is replaced by its variable's value and
    nothing else changes; a value is not interpolated again. *)
Theorem interpolation_exact (getenv : string → string) (l : list segment) :
  Forall segment_ok l → interpolateBlueprint getenv (l ≫= printSegment) = l ≫= valueOf getenv.
Proof. intros Hl. by apply replaceAll_segments. Qed.

Lemma spanBrace_spanNot s : spanBrace s = spanNot closeBrace s.
Proof. induction s as [|x s IH]; [done|]. cbn [spanBrace spanNot]. by rewrite IH. Qed.

Lemma braceToken_matchToken s : braceToken s = matchToken s.
Proof.
  unfold matchToken. change (str "{{") with [c_lb; c_lb]. change (str "}}") with [c_rb; c_rb].
  destruct s as [|a [|b s]]; cbn [trimPrefix braceToken]; [done|by destruct (Ascii.eqb c_lb a)|].
  rewrite (Ascii.eqb_sym a), (Ascii.eqb_sym b). destruct (Ascii.eqb c_lb a); [|done]. destruct (Ascii.eqb c_lb b); [|done].
  cbn [andb mbind option_bind]. rewrite spanBrace_spanNot. destruct (spanNot closeBrace s) as [[|x inner] rest]; [done|].
  cbn [length Nat.eqb]. destruct rest as [|y [|z rest]]; cbn [trimPrefix]; [done|by destruct (Ascii.eqb c_rb y)|].
  rewrite (Ascii.eqb_sym y), (Ascii.eqb_sym z). destruct (Ascii.eqb c_rb y); [|done]. by destruct (Ascii.eqb c_rb z).
Qed.

(** The configuration of the client and the blueprint are
    interpolated alike, as the former says. *)
Theorem interpolations_agree (getenv : string → string) (s : string) :
  interpolateString getenv s = unstr (interpolateBlueprint getenv (str s)).
Proof.
  unfold interpolateString, interpolateBlueprint. f_equal. generalize (length (str s)). generalize (str s). intros l fuel. revert l.
  induction fuel as [|fuel IH]; intros l; [by destruct l|]. destruct l as [|x l]; [done|]. cbn [WsConfig.interpolate replaceAll].
  rewrite <-braceToken_matchToken. destruct (braceToken (x :: l)) as [[inner rest]|]; [|by rewrite IH].
  unfold replaceToken. by rewrite IH.
Qed.

(** ** One send per burst *)

(** The reference: the changes after which nothing changes for the debounce
    time, each sending that much later. *)
Fixpoint burstEnds (l : list Z) : list Z :=
  match l with
  | [] => []
  | t :: l' => match l' with
               | [] => [t + debounce]
               | t' :: _ => if t + debounce <=? t' then (t + debounce) :: burstEnds l' else burstEnds l'
               end
  end.

Lemma watch_bursts t l w :
  bw_done w = false → bw_watching w = true → bw_timer w = Some (t + debounce) →
  let w' := foldl (λ w e, onEvent e.1 e.2 w) w ((λ x, (x, EvWrite)) <$> l) in
  bw_sent w' ++ option_list (bw_timer w') = bw_sent w ++ burstEnds (t :: l).
Proof.
  revert t w. induction l as [|t' l IH]; intros t w Hd Hw Ht; [by simpl; rewrite Ht|].
  rewrite fmap_cons. cbn [foldl fst snd burstEnds].
  assert (onEvent t' EvWrite w =
    mkBw (Some (t' + debounce)) (if t + debounce <=? t' then bw_sent w ++ [t + debounce] else bw_sent w) true false) as ->.
  { unfold onEvent, advance. rewrite Ht. destruct (t + debounce <=? t'); simpl; rewrite ?Hd, ?Hw; simpl; unfold scheduleSend; simpl;
      by rewrite ?Hd, ?Hw. }
  cbn zeta. rewrite (IH t') by done. cbn [bw_sent]. destruct (t + debounce <=? t'); [by rewrite <-app_assoc|done].
Qed.

(** A series of changes is sent once per burst, half a second
    after its last change: exactly the sends that the reference gives, once
    the pending timer has fired. *)
Theorem debounce_exact (l : list Z) :
  let w := watchBlueprintFile ((λ x, (x, EvWrite)) <$> l) in
  bw_sent w ++ option_list (bw_timer w) = burstEnds l.
Proof.
  cbn zeta. destruct l as [|t l]; [done|]. unfold watchBlueprintFile. rewrite fmap_cons. cbn [foldl fst snd].
  by rewrite (watch_bursts t l).
Qed.

(** When the file is removed and cannot be watched again at
    once, one more send follows and then no change is ever noticed. *)
Theorem watch_lost (now : Z) (evs : list (Z * fsEvent)) :
  let w := watchBlueprintFile ((now, EvRemove false) :: evs) in
  bw_sent w ++ option_list (bw_timer w) = [now + debounce].
Proof.
  unfold watchBlueprintFile. cbn [foldl fst snd]. cbn zeta.
  set (w0 := onEvent now (EvRemove false) watchInit).
  assert (bw_watching w0 = false ∧ bw_sent w0 ++ option_list (bw_timer w0) = [now + debounce]) as H0 by done.
  clearbody w0. revert w0 H0. induction evs as [|e evs IH]; intros w0 [Hw Hs]; simpl; [done|]. apply IH.
  unfold onEvent. cbn zeta. assert (bw_watching (advance e.1 w0) = false) as Ha by (unfold advance; by repeat case_match).
  rewrite Ha, orb_true_r. split; [done|]. rewrite <-Hs. unfold advance. destruct (bw_timer w0) as [d|] eqn:Et; [|by rewrite Et].
  destruct (d <=? e.1); simpl; [by rewrite app_nil_r|by rewrite Et].
Qed.

(** A cancelled watcher sends nothing more. *)
Lemma watch_cancelled now w evs :
  let w' := foldl (λ w e, onEvent e.1 e.2 w) (watchCancel now w) evs in bw_sent w' = bw_sent (watchCancel now w).
Proof.
  cbn zeta. assert (bw_done (watchCancel now w) = true ∧ bw_timer (watchCancel now w) = None) as [Hd Ht] by done.
  generalize dependent (watchCancel now w). intros w1 Hd Ht. induction evs as [|e evs IH]; simpl; [done|].
  assert (onEvent e.1 e.2 w1 = w1) as ->; [|done]. unfold onEvent, advance. by rewrite Ht, Hd.
Qed.

Module BlueprintExamples.

Definition getenv1 : string → string := λ k, if bool_decide (k = "HOST"%string) then "{{env.HOST}}"%string else ""%string.

Lemma interpolation_exact_witness :
  unstr (interpolateBlueprint getenv1 (str "a: {{env.HOST}} {{env.X}}")) = "a: {{env.HOST}} "%string.
Proof.
  pose proof (interpolation_exact getenv1 [Lit (str "a: "); Var (str "HOST"); Lit (str " "); Var (str "X")]) as H.
  replace (str "a: {{env.HOST}} {{env.X}}") with ([Lit (str "a: "); Var (str "HOST"); Lit (str " "); Var (str "X")] ≫= printSegment)
    by (vm_compute; reflexivity).
  rewrite H; [vm_compute; reflexivity|]. repeat constructor; vm_compute; done.
Defined.

(** Spaces around the name are dropped, other tokens are kept. *)
Lemma other_tokens :
  unstr (interpolateBlueprint (λ _, "v"%string) (str "{{ env.A }}{{x}}{{}}{{{env.A}}")) = "v{{x}}{{}}{{{env.A}}"%string.
Proof. vm_compute. reflexivity. Qed.

End BlueprintExamples.
