(* ===== verification/WinService.v ===== *)
(** * The Windows service ([service_windows.go], [reexec_windows.go])

    Under Windows newt runs as a service: a command line that installs,
    starts, stops and removes it, the [Execute] method the service control
    manager calls, and the log files it writes.  [Execute], the goroutine that
    runs newt and newt itself are interleaved as actions on one state; the
    service manager, the file system and the clock answer through arguments. *)

From S2P Require Import Prelude NetipText HostPort Keys Util.
From Stdlib Require Import Ascii.

Definition serviceName : string := "NewtWireguardService".

(** ** Saved arguments *)

(** [encoding/json] on a slice of strings. *)
Class ArgsJson : Type := { marshalArgs : list string → string; unmarshalArgs : string → option (list string) }.
Class ArgsJsonLaws `{ArgsJson} : Prop := unmarshal_marshal l : unmarshalArgs (marshalArgs l) = Some l.

(** The outcome of the calls of [saveServiceArgs]. *)
Record saveCalls : Type := mkSaveCalls { sv_mkdir : bool; sv_write : bool }.

Section Args.
Context `{ArgsJson}.

(** The file after the call, and whether it succeeded. *)
Definition saveServiceArgs (c : saveCalls) (args : list string) (file : option string) : option string * bool :=
  if negb (sv_mkdir c) then (file, false)
  else if negb (sv_write c) then (file, false)
  else (Some (marshalArgs args), true).

(** [readable]: an existing file can be read.  [None] is an error. *)
Definition loadServiceArgs (readable : bool) (file : option string) : option (list string) :=
  match file with
  | None => Some []
  | Some data => if readable then unmarshalArgs data else None
  end.

(** The arguments [Execute] runs newt with. *)
Definition finalArgs (args : list string) (savedArgs : list string) : list string :=
  let direct :=
    match args with
    | [] => []
    | a0 :: rest => if bool_decide (a0 = serviceName) then rest else args
    end in
  match direct with
  | [] => savedArgs
  | _ => direct
  end.

(** [Execute] up to [s.args]. *)
Definition executeArgs (args : list string) (readable : bool) (file : option string) : list string :=
  finalArgs args (default [] (loadServiceArgs readable file)).

End Args.

(** ** [Execute] *)

Inductive svcState : Type :=
  Stopped | StartPending | StopPending | Running | ContinuePending | PausePending | Paused | OtherState (n : Z).

#[global] Instance svcState_eq_dec : EqDecision svcState.
Proof. solve_decision. Defined.

(** A control request; [Interrogate] carries the status to repeat. *)
Inductive svcCmd : Type := Interrogate (current : svcState) | StopCmd | Shutdown | OtherCmd (n : Z).

(** [runNewt]: not yet begun; waiting for the context or for newt; returned,
    with [newtDone] closed. *)
Inductive runPC : Type := RNew | RWait | RDone.

Inductive mainState : Type := MNotStarted | MRunning | MEnded.

(** [Execute]: in its [select]; waiting after a stop request; returned. *)
Inductive execPC : Type := XSelect | XStopping | XReturned (code : Z).

Record service : Type := mkService {
  x_stop : bool;              (* [s.stop != nil] *)
  x_cancelled : bool;         (* the context is cancelled *)
  x_run : runPC;
  x_main : mainState;
  x_exec : execPC;
  x_restartRequested : bool;
  x_changes : list svcState;  (* the states reported *)
  x_stopSeen : bool }.        (* a stop or shutdown request was taken *)

(** Where the loop of [Execute] begins. *)
Definition execStart : service := mkService false false RNew MNotStarted XSelect false [StartPending; Running] false.

(** The service manager knows the service: [activeService] is set. *)
Definition requestServiceRestart (s : service) : service * bool :=
  if negb (x_stop s) then (s, false)
  else (mkService (x_stop s) true (x_run s) (x_main s) (x_exec s) true (x_changes s) (x_stopSeen s), true).

(** [reexec] ([reexec_windows.go]): what becomes of the process. *)
Inductive reexecResult : Type := RxService (ok : bool) | RxFailed | RxReplaced.

Definition reexec_windows (isService exeOk startOk : bool) (s : service) : service * reexecResult :=
  if isService then let '(s', ok) := requestServiceRestart s in (s', RxService ok)
  else if negb exeOk then (s, RxFailed)
  else if negb startOk then (s, RxFailed)
  else (s, RxReplaced).

Definition report (st : svcState) (pc : execPC) (s : service) : service :=
  mkService (x_stop s) (x_cancelled s) (x_run s) (x_main s) pc (x_restartRequested s) (x_changes s ++ [st]) (x_stopSeen s).

(** One control request in the [select]. *)
Definition control (c : svcCmd) (s : service) : service :=
  match c with
  | Interrogate cur => report cur XSelect s
  | StopCmd | Shutdown =>
      mkService (x_stop s) (x_cancelled s || x_stop s) (x_run s) (x_main s) XStopping (x_restartRequested s)
        (x_changes s ++ [StopPending]) true
  | OtherCmd _ => s
  end.

Definition returned (code : Z) (s : service) : service :=
  mkService (x_stop s) (x_cancelled s) (x_run s) (x_main s) (XReturned code) (x_restartRequested s) (x_changes s) (x_stopSeen s).

Inductive action : Type :=
  | ARunNewt          (* [runNewt] makes its context and starts newt *)
  | AMainEnds         (* newt returns, or its panic is recovered *)
  | ARunDone          (* [runNewt] returns and [newtDone] is closed *)
  | ARestart          (* newt asks for a restart *)
  | AControl (c : svcCmd)
  | ANewtDone         (* the [select] receives from [newtDone] *)
  | AStopDone | AStopTimeout.

Definition perform (a : action) (s : service) : option service :=
  match a, x_exec s, x_run s, x_main s with
  | ARunNewt, _, RNew, _ =>
      Some (mkService true (x_cancelled s) RWait MRunning (x_exec s) (x_restartRequested s) (x_changes s) (x_stopSeen s))
  | AMainEnds, _, _, MRunning =>
      Some (mkService (x_stop s) (x_cancelled s) (x_run s) MEnded (x_exec s) (x_restartRequested s) (x_changes s) (x_stopSeen s))
  | ARunDone, _, RWait, m =>
      if x_cancelled s || match m with MEnded => true | _ => false end
      then Some (mkService (x_stop s) (x_cancelled s) RDone (x_main s) (x_exec s) (x_restartRequested s) (x_changes s) (x_stopSeen s))
      else None
  | ARestart, _, _, MRunning => Some (requestServiceRestart s).1
  | AControl c, XSelect, _, _ => Some (control c s)
  | ANewtDone, XSelect, RDone, _ =>
      let s := report StopPending XSelect s in
      Some (returned (if x_restartRequested s then 1 else 0) s)
  | AStopDone, XStopping, RDone, _ => Some (returned 0 s)
  | AStopTimeout, XStopping, _, _ => Some (returned 0 s)
  | _, _, _, _ => None
  end.

Fixpoint run (l : list action) (s : service) : option service :=
  match l with
  | [] => Some s
  | a :: l' => s' ← perform a s; run l' s'
  end.

Inductive reachable : service → Prop :=
  | reach_start : reachable execStart
  | reach_step a s s' : reachable s → perform a s = Some s' → reachable s'.

(** ** The life of the service *)

(** The states between the first two and the last are answers to
    interrogation. *)
Definition protocol (pc : execPC) (changes : list svcState) : Prop :=
  ∃ echoes, changes = [StartPending; Running] ++ echoes ++ match pc with XSelect => [] | _ => [StopPending] end.

Record service_ok (s : service) : Prop := mkServiceOk {
  so_new : x_run s = RNew → x_stop s = false ∧ x_main s = MNotStarted;
  so_cancel : x_cancelled s = true → x_restartRequested s = true ∨ x_stopSeen s = true;
  so_restart : x_restartRequested s = true → x_cancelled s = true;
  so_done : x_run s = RDone → x_cancelled s = true ∨ x_main s = MEnded;
  so_protocol : protocol (x_exec s) (x_changes s);
  so_exec : match x_exec s with
            | XSelect => x_stopSeen s = false
            | XStopping => x_stopSeen s = true
            | XReturned c =>
                if x_stopSeen s then c = 0
                else x_run s = RDone ∧ (if x_restartRequested s then c = 1 else c = 0 ∧ x_main s = MEnded)
            end }.

Lemma protocol_snoc changes st : protocol XSelect changes → protocol XSelect (changes ++ [st]).
Proof. intros [e ->]. exists (e ++ [st]). by rewrite !app_nil_r, app_assoc. Qed.

Lemma protocol_stop pc changes : pc ≠ XSelect → protocol XSelect changes → protocol pc (changes ++ [StopPending]).
Proof. intros Hpc [e ->]. exists e. rewrite app_nil_r, app_assoc. by destruct pc. Qed.

Lemma service_ok_step a s s' : service_ok s → perform a s = Some s' → service_ok s'.
Proof.
  intros [Hn Hc Hr Hd Hp He]. destruct s as [stop canc rn mn ex rs ch seen]. simpl in *.
  assert (∀ st, protocol XSelect ch → protocol XSelect (ch ++ [st])) as P1 by (intros; by apply protocol_snoc).
  assert (∀ pc, pc ≠ XSelect → protocol XSelect ch → protocol pc (ch ++ [StopPending])) as P2 by (intros; by apply protocol_stop).
  destruct a as [| | | |[cur| | |n]| | |], ex as [| |code], rn, mn; simpl; try done; unfold requestServiceRestart; simpl;
    destruct seen, rs, canc, stop; simpl in *; try done; try (by destruct (Hn eq_refl));
    try (by specialize (Hr eq_refl)); try (by destruct (Hc eq_refl)); intros [= <-]; split; simpl; auto; intuition congruence.
Qed.

Lemma service_reachable_ok s : reachable s → service_ok s.
Proof. induction 1 as [|a s s' _ IH Ha]; [|by eapply service_ok_step]. split; try done. by exists []. Qed.


(** A request for a restart while newt runs leads to exit code one, and the
    relaunch the service manager then makes runs newt with the same
    arguments. *)
Lemma restart_schedule s :
  x_exec s = XSelect → x_run s = RWait → x_main s = MRunning → x_stop s = true →
  ∃ s', run [ARestart; ARunDone; ANewtDone] s = Some s' ∧ x_exec s' = XReturned 1.
Proof.
  destruct s as [stop canc rn mn ex rs ch seen]. simpl. intros -> -> -> ->. cbn. eexists. by split.
Qed.

Section ArgsFacts.
Context `{ArgsJsonLaws}.

Lemma finalArgs_direct args saved : args ≠ [] → finalArgs (serviceName :: args) saved = args.
Proof. intros Ha. unfold finalArgs. rewrite bool_decide_true by done. by destruct args. Qed.

(** The arguments of the last start are the ones newt runs
    with, on that start and on every relaunch by the service manager, which
    passes the name alone; with no arguments the saved ones are replaced by
    none. *)
Theorem start_args_survive (args old : list string) :
  let file := (saveServiceArgs (mkSaveCalls true true) args (Some (marshalArgs old))).1 in
  executeArgs (serviceName :: args) true file = args ∧ executeArgs [serviceName] true file = args.
Proof.
  unfold saveServiceArgs, executeArgs. simpl. rewrite unmarshal_marshal. simpl. split.
  - destruct (decide (args = [])) as [->|Hn]; [done|by apply finalArgs_direct].
  - done.
Qed.

End ArgsFacts.

(** A stop request that comes before [runNewt] has made its
    context cancels nothing: the service returns after its timeout while newt
    starts and runs on; and a stop that is reported as graceful does not wait
    for newt either. *)
Theorem stop_leaves_newt :
  (∃ s, run [AControl StopCmd; ARunNewt; AStopTimeout] execStart = Some s ∧
     x_exec s = XReturned 0 ∧ x_main s = MRunning ∧ x_cancelled s = false) ∧
  (∃ s, run [ARunNewt; AControl StopCmd; ARunDone; AStopDone] execStart = Some s ∧
     x_exec s = XReturned 0 ∧ x_main s = MRunning).
Proof. split; eexists; by repeat split. Qed.

(** ** The command line *)

(** What the service manager keeps of the service; a service that exists can
    be opened. *)
Record scm : Type := mkScm {
  sc_service : option svcState;            (* [None]: not installed *)
  sc_eventlog : bool;
  sc_recovery : option (list Z);           (* delays of the restarts, in seconds *)
  sc_onNonCrash : bool;
  sc_argsFile : option string }.

(** The outcome of each call of the manager's interface. *)
Record winCalls : Type := mkCalls {
  wc_executable : bool; wc_connect : bool; wc_create : bool; wc_eventInstall : bool; wc_eventRemove : bool;
  wc_recovery : bool; wc_nonCrash : bool; wc_delete : bool; wc_start : bool; wc_control : option svcState;
  wc_query : bool; wc_save : saveCalls;
  wc_eventOpen : bool; wc_logDir : bool; wc_logOpen : nat → bool; wc_logSeek : bool;
  wc_polls : nat → option svcState;        (* the queries of a wait *)
  wc_clock : nat → Z }.                    (* the successive times; the first one sets the deadline *)

Definition set_service (st : option svcState) (m : scm) : scm :=
  mkScm st (sc_eventlog m) (sc_recovery m) (sc_onNonCrash m) (sc_argsFile m).
Definition set_eventlog (b : bool) (m : scm) : scm := mkScm (sc_service m) b (sc_recovery m) (sc_onNonCrash m) (sc_argsFile m).
Definition set_args (f : option string) (m : scm) : scm := mkScm (sc_service m) (sc_eventlog m) (sc_recovery m) (sc_onNonCrash m) f.

(** The recovery settings go with the service. *)
Definition set_deleted (m : scm) : scm := mkScm None (sc_eventlog m) None false (sc_argsFile m).

Definition recoveryDelays : list Z := [5; 5; 30].

(** [false] is an error. *)
Definition configureRecoveryActions (c : winCalls) (m : scm) : scm * bool :=
  if negb (wc_recovery c) then (m, false)
  else
    let m := mkScm (sc_service m) (sc_eventlog m) (Some recoveryDelays) (sc_onNonCrash m) (sc_argsFile m) in
    if negb (wc_nonCrash c) then (m, false)
    else (mkScm (sc_service m) (sc_eventlog m) (sc_recovery m) true (sc_argsFile m), true).

Definition ensureRecoveryActionsConfigured (c : winCalls) (m : scm) : scm :=
  if negb (wc_connect c) then m
  else match sc_service m with None => m | Some _ => (configureRecoveryActions c m).1 end.

(** [runService]: whether the service manager's loop is entered. *)
Definition runService (isDebug : bool) (c : winCalls) (m : scm) : scm * bool :=
  if negb isDebug && negb (wc_eventOpen c) then (m, false) else (ensureRecoveryActionsConfigured c m, true).

Definition installService (c : winCalls) (m : scm) : scm * bool :=
  if negb (wc_executable c) then (m, false)
  else if negb (wc_connect c) then (m, false)
  else match sc_service m with
  | Some _ => (m, false)
  | None =>
      if negb (wc_create c) then (m, false)
      else
        let m' := mkScm (Some Stopped) (sc_eventlog m) None false (sc_argsFile m) in
        if negb (wc_eventInstall c) then (if wc_delete c then set_deleted m' else m', false)
        else ((configureRecoveryActions c (set_eventlog true m')).1, true)
  end.

(** The wait for the service to stop: thirty seconds, a query every 300
    milliseconds.  [None] means that the fuel did not suffice. *)
Inductive waitResult : Type := WStopped | WTimeout | WError.

Fixpoint waitStopped (fuel : nat) (clock : nat → Z) (poll : nat → option svcState) (deadline : Z) (st : svcState) (i : nat)
    : option waitResult :=
  match fuel with
  | O => None
  | S fuel' =>
      if bool_decide (st = Stopped) then Some WStopped
      else if deadline <? clock i then Some WTimeout
      else match poll i with
           | None => Some WError
           | Some st' => waitStopped fuel' clock poll deadline st' (S i)
           end
  end.

Definition stopWait : Z := 30 * Second.
Definition pollEvery : Z := 300 * 1000000.

(** Enough for every wait: see [waitFor_total]. *)
Definition waitFuel : nat := 102.

Definition waitFor (c : winCalls) (st : svcState) : option waitResult :=
  waitStopped waitFuel (wc_clock c) (wc_polls c) (wc_clock c 0%nat + stopWait) st 1.

(** A wait that ended well leaves the service stopped. *)
Definition removeService (c : winCalls) (m : scm) : scm * bool :=
  if negb (wc_connect c) then (m, false)
  else match sc_service m with
  | None => (m, false)
  | Some st =>
      if negb (wc_query c) then (m, false)
      else
        let stopped :=
          if bool_decide (st = Stopped) then Some m
          else match wc_control c with
               | None => None
               | Some _ => match waitFor c st with Some WStopped => Some (set_service (Some Stopped) m) | _ => None end
               end in
        match stopped with
        | None => (m, false)
        | Some m =>
            if negb (wc_delete c) then (m, false)
            else
              let m := set_deleted m in
              if negb (wc_eventRemove c) then (m, false) else (set_eventlog false m, true)
        end
  end.

Section Commands.
Context `{ArgsJson}.

(** What [s.Start] passes on: [Execute] sees the name before them. *)
Definition startService (c : winCalls) (args : list string) (m : scm) : scm * bool :=
  let m := set_args (saveServiceArgs (wc_save c) args (sc_argsFile m)).1 m in
  if negb (wc_connect c) then (m, false)
  else match sc_service m with
  | None => (m, false)
  | Some _ => if wc_start c then (set_service (Some Running) m, true) else (m, false)
  end.

Definition stopService (c : winCalls) (m : scm) : scm * bool :=
  if negb (wc_connect c) then (m, false)
  else match sc_service m, wc_control c with
  | None, _ => (m, false)
  | Some _, None => (m, false)
  | Some _, Some st => match waitFor c st with
                       | Some WStopped => (set_service (Some Stopped) m, true)
                       | _ => (m, false)
                       end
  end.

(** [None] is an error. *)
Definition getServiceStatus (c : winCalls) (m : scm) : option string :=
  if negb (wc_connect c) then None
  else match sc_service m with
  | None => Some "Not Installed"%string
  | Some st =>
      if negb (wc_query c) then None
      else Some match st with
                | Stopped => "Stopped" | StartPending => "Starting" | StopPending => "Stopping" | Running => "Running"
                | ContinuePending => "Continue Pending" | PausePending => "Pause Pending" | Paused => "Paused"
                | OtherState _ => "Unknown"
                end%string
  end.

(** The attempts to open the log file. *)
Definition logOpened (c : winCalls) : bool := existsb (wc_logOpen c) (seq 0 30).

(** [watchLogFile], ended by a signal; what it prints meanwhile is in
    [WinLogs]. *)
Definition watchLogFile (c : winCalls) (end_ : bool) (m : scm) : scm * bool :=
  if negb (wc_logDir c) then (m, false)
  else if negb (logOpened c) then (m, false)
  else if negb (wc_logSeek c) then (m, false)
  else (if end_ then (stopService c m).1 else m, true).

Definition debugService (c : winCalls) (args : list string) (m : scm) : scm * bool :=
  let '(file, ok) := match args with
                     | [] => (sc_argsFile m, true)
                     | _ => saveServiceArgs (wc_save c) args (sc_argsFile m)
                     end in
  if negb ok then (set_args file m, false)
  else
    let '(m, ok) := startService c args (set_args file m) in
    if negb ok then (m, false) else watchLogFile c true m.

(** What a command line asks for: nothing of the service; an end with status
    zero or one. *)
Inductive cmdResult : Type := NotHandled | Handled (ok : bool).

Definition handleServiceCommand (c : winCalls) (args : list string) (m : scm) : scm * cmdResult :=
  let res (r : scm * bool) := (r.1, Handled r.2) in
  match args with
  | _ :: command :: rest =>
      if bool_decide (command = "install"%string) then res (installService c m)
      else if bool_decide (command = "remove"%string) || bool_decide (command = "uninstall"%string) then res (removeService c m)
      else if bool_decide (command = "start"%string) then res (startService c rest m)
      else if bool_decide (command = "stop"%string) then res (stopService c m)
      else if bool_decide (command = "status"%string) then (m, Handled (bool_decide (is_Some (getServiceStatus c m))))
      else if bool_decide (command = "debug"%string) then
        match getServiceStatus c m with
        | None => (m, Handled false)
        | Some st =>
            let '(m, ok) := if bool_decide (st = "Not Installed"%string) then installService c m else (m, true) in
            if ok then res (debugService c rest m) else (m, Handled false)
        end
      else if bool_decide (command = "logs"%string) then res (watchLogFile c false m)
      else if bool_decide (command ∈ ["config"; "service-help"]%string) then (m, Handled true)
      else (m, NotHandled)
  | _ => (m, NotHandled)
  end.

End Commands.

(** ** The commands are correct *)

(** Sleeping 300 milliseconds between two readings of the clock. *)
Definition sleeps (clock : nat → Z) : Prop := clock 0%nat <= clock 1%nat ∧ ∀ i, clock (S i) + pollEvery <= clock (S (S i)).

Lemma waitStopped_enough fuel clock poll deadline st i :
  (∀ j, (i <= j)%nat → clock j + pollEvery <= clock (S j)) →
  deadline < clock i + Z.of_nat (pred fuel) * pollEvery → (0 < fuel)%nat →
  is_Some (waitStopped fuel clock poll deadline st i).
Proof.
  revert st i. induction fuel as [|fuel IH]; intros st i Hc Hd Hf; [lia|]. simpl.
  case_bool_decide; [by eexists|]. destruct (Z.ltb_spec deadline (clock i)) as [|Hle]; [by eexists|].
  destruct (poll i) as [st'|]; [|by eexists]. specialize (Hc i (le_n i)) as Hi. apply IH.
  - intros j Hj. apply Hc. lia.
  - destruct fuel; simpl in *; lia.
  - destruct fuel; simpl in *; lia.
Qed.

(** The wait answers: the fuel is enough whatever the queries say. *)
Lemma waitFor_total (c : winCalls) (st : svcState) : sleeps (wc_clock c) → is_Some (waitFor c st).
Proof.
  intros [H0 Hs]. apply waitStopped_enough.
  - intros [|j] Hj; [lia|apply Hs].
  - unfold stopWait, pollEvery, Second, waitFuel in *. simpl. lia.
  - unfold waitFuel. lia.
Qed.

(** It answers [WStopped] only on a state that was seen. *)
Lemma waitStopped_seen fuel clock poll deadline st i :
  waitStopped fuel clock poll deadline st i = Some WStopped → st = Stopped ∨ ∃ j, (i <= j)%nat ∧ poll j = Some Stopped.
Proof.
  revert st i. induction fuel as [|fuel IH]; intros st i; simpl; [done|].
  case_bool_decide; [by left|]. destruct (deadline <? clock i); [done|].
  destruct (poll i) as [st'|] eqn:Hp; [|done]. intros [->|(j & Hj & E)]%IH; right; [by exists i|]. exists j. split; [lia|done].
Qed.

(** A service that is not installed has no settings. *)
Definition scm_ok (m : scm) : Prop := sc_service m = None → sc_recovery m = None ∧ sc_onNonCrash m = false.

Lemma scm_ok_delete m : sc_service m = None → scm_ok m → set_deleted m = m.
Proof. destruct m as [st ev rc nc f]. simpl. intros -> Hm. destruct (Hm eq_refl) as [Hr Hn]. simpl in *. by subst. Qed.

Lemma configureRecovery_frame c m :
  let m' := (configureRecoveryActions c m).1 in
  sc_service m' = sc_service m ∧ sc_eventlog m' = sc_eventlog m ∧ sc_argsFile m' = sc_argsFile m.
Proof. unfold configureRecoveryActions. by destruct (wc_recovery c), (wc_nonCrash c). Qed.

Lemma removeService_stopped c m :
  wc_connect c = true → wc_query c = true → wc_delete c = true → wc_eventRemove c = true → sc_service m = Some Stopped →
  removeService c m = (set_eventlog false (set_deleted m), true).
Proof. intros Hc Hq Hd He Hm. unfold removeService. by rewrite Hc, Hm, Hq, bool_decide_true, Hd, He by done. Qed.

(** An installation that reports an error leaves the service manager as it
    was (unless the clean-up deletion fails as well); one that succeeds leaves
    a stopped service with an event source, whatever becomes of the recovery
    settings; and removing it again restores the former state. *)
Theorem install_remove (c : winCalls) (m : scm) :
  scm_ok m → sc_eventlog m = false → wc_delete c = true →
  match installService c m with
  | (m', false) => m' = m
  | (m', true) =>
      sc_service m = None ∧ sc_service m' = Some Stopped ∧ sc_eventlog m' = true ∧ sc_argsFile m' = sc_argsFile m ∧
      ∀ c', wc_connect c' = true → wc_query c' = true → wc_delete c' = true → wc_eventRemove c' = true →
        removeService c' m' = (m, true)
  end.
Proof.
  intros Hm He Hd. unfold installService. rewrite Hd.
  destruct (wc_executable c); simpl; [|done]. destruct (wc_connect c); simpl; [|done].
  destruct (sc_service m) eqn:Hs; [done|]. destruct (wc_create c); simpl; [|done].
  destruct (wc_eventInstall c); simpl; [|exact (scm_ok_delete m Hs Hm)].
  match goal with |- context [configureRecoveryActions c ?x] => destruct (configureRecovery_frame c x) as (Es & Ee & Ea);
    generalize dependent (configureRecoveryActions c x).1 end.
  intros m' Es Ee Ea.
  simpl in *. split_and!; try done. intros c' H1 H2 H3 H4. rewrite removeService_stopped by done. f_equal.
  transitivity (set_deleted m); [|exact (scm_ok_delete m Hs Hm)].
  unfold set_deleted, set_eventlog. simpl. by rewrite He, Ea.
Qed.

(** An installation whose recovery settings failed is repaired by the next
    start: from then on the service manager relaunches newt after an exit with
    a code that is not zero. *)
Lemma runService_recovers c c' m m' :
  installService c m = (m', true) → wc_connect c' = true → wc_recovery c' = true → wc_nonCrash c' = true →
  let m2 := (runService true c' m').1 in
  sc_service m2 = Some Stopped ∧ sc_recovery m2 = Some recoveryDelays ∧ sc_onNonCrash m2 = true.
Proof.
  unfold installService. destruct (wc_executable c); simpl; [|done]. destruct (wc_connect c); simpl; [|done].
  destruct (sc_service m); [done|]. destruct (wc_create c); simpl; [|done]. destruct (wc_eventInstall c); simpl; [|done].
  match goal with |- context [configureRecoveryActions c ?x] => destruct (configureRecovery_frame c x) as (Es & _);
    generalize dependent (configureRecoveryActions c x).1 end.
  intros m1 Es [= <-] Hc Hr Hn. simpl in Es. unfold runService, ensureRecoveryActionsConfigured, configureRecoveryActions. simpl.
  by rewrite Hc, Es, Hr, Hn.
Qed.

(** Removing a running service stops it first: nothing is deleted before the
    manager has been seen to report it stopped. *)
Lemma remove_waits c m m' ok st :
  removeService c m = (m', ok) → sc_service m = Some st → sc_service m' = None →
  st = Stopped ∨ ∃ j, (1 <= j)%nat ∧ wc_polls c j = Some Stopped.
Proof.
  unfold removeService. intros Hr Hm Hm'. rewrite Hm in Hr.
  destruct (wc_connect c); simpl in Hr; [|congruence]. destruct (wc_query c); simpl in Hr; [|congruence].
  case_bool_decide as Hst; [by left|]. right. destruct (wc_control c); [|congruence].
  destruct (waitFor c st) as [[| |]|] eqn:Hw; try congruence. by apply waitStopped_seen in Hw as [?|?].
Qed.

(** ** Examples *)

Module WinServiceExamples.

Definition restarted : list action := [ARunNewt; AControl (Interrogate Running); ARestart; ARunDone; ANewtDone].

Lemma service_run_reachable l s s' : reachable s → run l s = Some s' → reachable s'.
Proof.
  revert s. induction l as [|a l IH]; intros s Hs; simpl; [by intros [= <-]|].
  destruct (perform a s) as [s1|] eqn:Ha; simpl; [|done]. apply IH. by eapply reach_step.
Qed.

Definition afterRestart : service := default execStart (run restarted execStart).


(** Five polls before the service stops. *)
Definition calls1 : winCalls :=
  mkCalls true true true true true false true true true (Some StopPending) true (mkSaveCalls true true) true true (λ i, (3 <? i)%nat) true
    (λ i, Some (if (i <? 5)%nat then StopPending else Stopped)) (λ i, Z.of_nat i * pollEvery).

Definition fresh : scm := mkScm None false None false None.

Lemma install_remove_witness :
  (installService calls1 fresh).2 = true ∧ removeService calls1 (installService calls1 fresh).1 = (fresh, true).
Proof.
  pose proof (install_remove calls1 fresh (λ _, conj eq_refl eq_refl) eq_refl eq_refl) as H.
  split; [reflexivity|]. vm_compute in H. destruct H as (_ & _ & _ & _ & H). vm_compute. apply (H calls1); reflexivity.
Defined.

Lemma stop_after_polls : (stopService calls1 (mkScm (Some Running) true None false None)).1 = mkScm (Some Stopped) true None false None.
Proof. reflexivity. Qed.

(** Arguments as one text, joined by lines. *)
Definition argsJson1 : ArgsJson := {|
  marshalArgs l := if bool_decide (l = []) then "null"%string else "[args]"%string;
  unmarshalArgs s := if bool_decide (s = "null"%string) then Some [] else Some ["--id"%string] |}.

(** A start without arguments erases the saved ones. *)
Lemma start_erases_args :
  let m := mkScm (Some Stopped) true None false (Some "[args]"%string) in
  loadServiceArgs (H := argsJson1) true (sc_argsFile m) = Some ["--id"%string] ∧
  loadServiceArgs (H := argsJson1) true (sc_argsFile (handleServiceCommand (H := argsJson1) calls1 ["newt"; "start"]%string m).1) = Some [].
Proof. split; reflexivity. Qed.

End WinServiceExamples.
