(* ===== verification/WinLogs.v ===== *)
(** * The log files of the Windows service ([service_windows.go])

    At each start the service renames a log of an earlier day to
    [newt-<date>.log], deletes the dated logs it has not written for thirty
    days and opens [newt.log].  The directory is a map from names to entries,
    an entry keeping its modification time and the times of the lines written
    into it. *)

From S2P Require Import Prelude NetipText Keys Util Calendar.
From Stdlib Require Import Ascii.

(** ** The log directory *)

(** [le_lines]: the times at which its lines were written. *)
Record logEntry : Type := mkEntry { le_dir : bool; le_mtime : Z; le_lines : list Z }.

Notation logDir := (gmap string logEntry).

Definition logName : string := "newt.log".

Section Zone.
(** The offset of the local time, in nanoseconds. *)
Context (zone : Z).

Definition dayOf (t : Z) : Z := (t + zone) / (86400 * Second).
Definition dateOf (t : Z) : civil := civilFromDays (dayOf t).
Definition Year (t : Z) : Z := c_year (dateOf t).
Definition YearDay (t : Z) : Z := dayOf t - daysFromCivil (mkCivil (Year t) 1 1) + 1.

Definition rotatedName (fileTime : Z) : string := unstr (str "newt-" ++ formatDate (dateOf fileTime) ++ str ".log").

(** The answers of the file system. *)
Record fsCalls : Type := mkFs {
  fs_mkdir : bool; fs_stat : bool; fs_rename : bool; fs_readDir : bool; fs_info : string → bool; fs_remove : string → bool;
  fs_open : bool }.

(** A file that the clean-up removes. *)
Definition outdated (f : fsCalls) (cutoff : Z) (name : string) (e : logEntry) : bool :=
  negb (le_dir e) && startsWith "newt-" name && endsWith ".log" name && fs_info f name && (le_mtime e <? cutoff) &&
  fs_remove f name.

Definition cleanupOldLogFiles (f : fsCalls) (now : Z) (daysToKeep : Z) (d : logDir) : logDir :=
  let cutoff := now - daysToKeep * (86400 * Second) in
  if negb (fs_readDir f) then d else filter (λ p, outdated f cutoff p.1 p.2 = false) d.

(** [false] is an error. *)
Definition rotateLogFile (f : fsCalls) (now : Z) (d : logDir) : logDir * bool :=
  match d !! logName with
  | None => (d, true)
  | Some info =>
      if negb (fs_stat f) then (d, false)
      else
        let fileTime := le_mtime info in
        if (Year now =? Year fileTime) && (YearDay now =? YearDay fileTime) then (d, true)
        else if negb (fs_rename f) then (d, false)
        else (cleanupOldLogFiles f now 30 (<[rotatedName fileTime := info]> (delete logName d)), true)
  end.

(** Whether the logger now writes to the file. *)
Definition setupWindowsEventLog (f : fsCalls) (now : Z) (d : logDir) : logDir * bool :=
  if negb (fs_mkdir f) then (d, false)
  else
    let d := (rotateLogFile f now d).1 in
    if negb (fs_open f) then (d, false)
    else match d !! logName with
         | Some _ => (d, true)
         | None => (<[logName := mkEntry false now []]> d, true)
         end.

(** A line logged at [t]. *)
Definition logLine (t : Z) (d : logDir) : logDir :=
  match d !! logName with
  | Some e => <[logName := mkEntry (le_dir e) t (t :: le_lines e)]> d
  | None => d
  end.

(** ** Nothing recent is lost *)

(** What happens to the directory: starts of the service, and lines while the
    file is open. *)
Inductive logEvent : Type := Boot (f : fsCalls) | Line.

Record logState : Type := mkLogState { ls_dir : logDir; ls_open : bool; ls_written : list Z }.

Definition logStep (s : logState) (ev : Z * logEvent) : logState :=
  match ev.2 with
  | Boot f => let '(d, ok) := setupWindowsEventLog f ev.1 (ls_dir s) in mkLogState d ok (ls_written s)
  | Line => if ls_open s then mkLogState (logLine ev.1 (ls_dir s)) true (ev.1 :: ls_written s) else s
  end.

Definition logRun (s : logState) (evs : list (Z * logEvent)) : logState := foldl logStep s evs.

Definition logInit : logState := mkLogState ∅ false [].

(** The clock does not go back, and its years have four digits. *)
Definition fourDigits (t : Z) : Prop := 0 <= Year t < 10000.
Definition ordered (evs : list (Z * logEvent)) : Prop := StronglySorted Z.le evs.*1 ∧ Forall fourDigits evs.*1.

(** A dated name names its day. *)
Lemma rotatedName_inj t t' : fourDigits t → fourDigits t' → rotatedName t = rotatedName t' → dayOf t = dayOf t'.
Proof.
  intros Ht Ht' E. apply (f_equal str) in E. unfold rotatedName in E. rewrite !str_unstr in E.
  apply app_inv_head, app_inv_tail in E. rewrite <-(days_roundtrip (dayOf t)), <-(days_roundtrip (dayOf t')). f_equal.
  pose proof (civil_range (dayOf t)) as [Hm Hd]. pose proof (civil_range (dayOf t')) as [Hm' Hd'].
  apply formatDate_inj; try done; lia.
Qed.

Lemma rotatedName_log t : rotatedName t ≠ logName.
Proof. intros E. apply (f_equal str) in E. unfold rotatedName in E. rewrite str_unstr in E. done. Qed.

(** The test of the rotation compares days. *)
Lemma sameDay t t' : (Year t =? Year t') && (YearDay t =? YearDay t') = true ↔ dayOf t = dayOf t'.
Proof.
  rewrite andb_true_iff, !Z.eqb_eq. unfold YearDay. split; [intros [E E']; rewrite E in E'; lia|].
  intros E. unfold Year, dateOf. rewrite E. lia.
Qed.

Lemma dayOf_mono t t' : t <= t' → dayOf t <= dayOf t'.
Proof. intros Ht. apply Z.div_le_mono; [done|lia]. Qed.

(** The day before which the dated logs lie. *)
Definition dayBound (d : logDir) (T : Z) : Z :=
  match d !! logName with Some c => dayOf (le_mtime c) | None => dayOf T end.

Definition entry_ok (bound T : Z) (n : string) (e : logEntry) : Prop :=
  Forall (λ t, t <= le_mtime e) (le_lines e) ∧ le_mtime e <= T ∧ fourDigits (le_mtime e) ∧
  (n = logName ∨ n = rotatedName (le_mtime e) ∧ dayOf (le_mtime e) < bound).

Definition dir_ok (T : Z) (d : logDir) : Prop := ∀ n e, d !! n = Some e → entry_ok (dayBound d T) T n e.

Definition retention : Z := 30 * (86400 * Second).

(** The lines of the last thirty days are in the directory. *)
Definition kept (w : list Z) (T : Z) (d : logDir) : Prop :=
  ∀ t, t ∈ w → T - retention <= t → ∃ n e, d !! n = Some e ∧ t ∈ le_lines e.

Lemma entry_ok_mono bound bound' T T' n e : bound <= bound' → T <= T' → entry_ok bound T n e → entry_ok bound' T' n e.
Proof. intros Hb HT (H1 & H2 & H3 & H4). split_and!; [done|lia|done|]. destruct H4 as [?|[? ?]]; [by left|right]. split; [done|lia]. Qed.

Lemma dir_ok_mono T T' d : T <= T' → dir_ok T d → dir_ok T' d.
Proof.
  intros HT Hd n e Hn. eapply entry_ok_mono; [|done|by apply Hd]. unfold dayBound.
  destruct (d !! logName); [done|by apply dayOf_mono].
Qed.

Lemma kept_mono w T T' d : T <= T' → kept w T d → kept w T' d.
Proof. intros HT Hk t Ht Hr. apply Hk; [done|lia]. Qed.

(** The clean-up removes dated logs and no recent line. *)
Lemma cleanup_lookup f now d n e :
  cleanupOldLogFiles f now 30 d !! n = Some e → d !! n = Some e.
Proof. unfold cleanupOldLogFiles. destruct (fs_readDir f); simpl; [|done]. by intros [? _]%map_lookup_filter_Some. Qed.

Lemma cleanup_keeps f now d n e :
  d !! n = Some e → n = logName ∨ now - retention <= le_mtime e → cleanupOldLogFiles f now 30 d !! n = Some e.
Proof.
  intros Hn Hor. unfold cleanupOldLogFiles. destruct (fs_readDir f); simpl; [|done]. apply map_lookup_filter_Some. split; [done|].
  unfold outdated. cbn [fst snd]. destruct Hor as [->|Hr].
  - replace (startsWith "newt-" logName) with false by (vm_compute; reflexivity). by rewrite andb_false_r.
  - fold retention. rewrite (proj2 (Z.ltb_ge (le_mtime e) (now - retention)) Hr). by rewrite andb_false_r.
Qed.

Lemma cleanup_ok f T d : dir_ok T d → dir_ok T (cleanupOldLogFiles f T 30 d).
Proof.
  intros Hd n e Hn%cleanup_lookup. specialize (Hd n e Hn). eapply entry_ok_mono; [|done|exact Hd]. unfold dayBound.
  destruct (d !! logName) as [c|] eqn:Hc.
  - by rewrite (cleanup_keeps f T d logName c Hc (or_introl eq_refl)).
  - destruct (cleanupOldLogFiles f T 30 d !! logName) eqn:E; [|done]. apply cleanup_lookup in E. congruence.
Qed.

Lemma cleanup_kept f T w d : dir_ok T d → kept w T d → kept w T (cleanupOldLogFiles f T 30 d).
Proof.
  intros Hd Hk t Ht Hr. destruct (Hk t Ht Hr) as (n & e & Hn & He). exists n, e. split; [|done].
  apply cleanup_keeps; [done|right]. destruct (Hd n e Hn) as (Hl & _). rewrite Forall_forall in Hl. specialize (Hl t He).
  simpl in Hl. lia.
Qed.

(** Renaming an earlier day's log overwrites nothing. *)
Lemma rename_fresh T d c : dir_ok T d → d !! logName = Some c → d !! rotatedName (le_mtime c) = None.
Proof.
  intros Hd Hc. destruct (d !! rotatedName (le_mtime c)) as [e|] eqn:He; [|done]. exfalso.
  destruct (Hd _ _ Hc) as (_ & _ & Hf & _). destruct (Hd _ _ He) as (_ & _ & Hf' & [E|[E Hlt]]).
  - by apply rotatedName_log in E.
  - apply rotatedName_inj in E; [|done|done]. unfold dayBound in Hlt. rewrite Hc in Hlt. lia.
Qed.

Definition renamed (c : logEntry) (d : logDir) : logDir := <[rotatedName (le_mtime c) := c]> (delete logName d).

Lemma renamed_log c d : renamed c d !! logName = None.
Proof. unfold renamed. rewrite lookup_insert_ne by apply rotatedName_log. apply lookup_delete_eq. Qed.

Lemma rename_ok T d c : dir_ok T d → d !! logName = Some c → dayOf (le_mtime c) < dayOf T → dir_ok T (renamed c d).
Proof.
  intros Hd Hc Hlt n e Hn. unfold dayBound. rewrite renamed_log. unfold renamed in Hn.
  apply lookup_insert_Some in Hn as [[<- <-]|[Hne [Hnl Hn]%lookup_delete_Some]].
  - destruct (Hd _ _ Hc) as (H1 & H2 & H3 & _). split_and!; try done. by right.
  - eapply entry_ok_mono; [|done|by apply Hd]. unfold dayBound. rewrite Hc. lia.
Qed.

Lemma rename_kept T w d c : dir_ok T d → d !! logName = Some c → kept w T d → kept w T (renamed c d).
Proof.
  intros Hd Hc Hk t Ht Hr. destruct (Hk t Ht Hr) as (n & e & Hn & He).
  pose proof (rename_fresh T d c Hd Hc) as Hfr. unfold renamed.
  destruct (decide (n = logName)) as [->|Hne].
  - exists (rotatedName (le_mtime c)), c. rewrite lookup_insert_eq. split; [done|]. congruence.
  - exists n, e. rewrite lookup_insert_ne by congruence. by rewrite lookup_delete_ne by congruence.
Qed.

Lemma rotate_ok f T w d :
  dir_ok T d → kept w T d →
  dir_ok T (rotateLogFile f T d).1 ∧ kept w T (rotateLogFile f T d).1.
Proof.
  intros Hd Hk. unfold rotateLogFile. destruct (d !! logName) as [c|] eqn:Hc; [|done]. destruct (fs_stat f); simpl; [|done].
  destruct (_ && _) eqn:Es; [done|]. destruct (fs_rename f); simpl; [|done]. fold (renamed c d).
  assert (dayOf (le_mtime c) < dayOf T) as Hlt.
  { destruct (Hd _ _ Hc) as (_ & Hle & _). apply dayOf_mono in Hle.
    destruct (decide (dayOf T = dayOf (le_mtime c))) as [E|]; [|lia]. apply sameDay in E. congruence. }
  split; [by apply cleanup_ok, rename_ok|]. apply cleanup_kept; [by apply rename_ok|by eapply rename_kept].
Qed.

Lemma create_ok T d : fourDigits T → d !! logName = None → dir_ok T d → dir_ok T (<[logName := mkEntry false T []]> d).
Proof.
  intros Hf Hn Hd n e He. unfold dayBound. rewrite lookup_insert_eq.
  apply lookup_insert_Some in He as [[<- <-]|[Hne He]].
  - split_and!; try done. by left.
  - specialize (Hd n e He). unfold dayBound in Hd. by rewrite Hn in Hd.
Qed.

Lemma boot_ok f T w d :
  fourDigits T → dir_ok T d → kept w T d →
  let r := setupWindowsEventLog f T d in
  dir_ok T r.1 ∧ kept w T r.1 ∧ (r.2 = true → is_Some (r.1 !! logName)).
Proof.
  intros Hf Hd Hk. unfold setupWindowsEventLog. destruct (fs_mkdir f); simpl; [|done].
  destruct (rotate_ok f T w d Hd Hk) as [Hd' Hk']. destruct (rotateLogFile f T d) as [d' ok]. simpl in *.
  destruct (fs_open f); simpl; [|done]. destruct (d' !! logName) as [c|] eqn:Hc; simpl; [by rewrite Hc|].
  split_and!; [by apply create_ok| |by rewrite lookup_insert_eq].
  intros t Ht Hr. destruct (Hk' t Ht Hr) as (n & e & Hn & He). exists n, e. rewrite lookup_insert_ne by congruence. done.
Qed.

Lemma line_ok T w d :
  fourDigits T → is_Some (d !! logName) → dir_ok T d → kept w T d → dir_ok T (logLine T d) ∧ kept (T :: w) T (logLine T d).
Proof.
  intros Hf [c Hc] Hd Hk. unfold logLine. rewrite Hc. destruct (Hd _ _ Hc) as (Hl & Hle & Hfc & _). split.
  - intros n e He. unfold dayBound. rewrite lookup_insert_eq. cbn [le_mtime].
    apply lookup_insert_Some in He as [[<- <-]|[Hne He]].
    + split_and!; cbn [le_mtime le_lines]; try done; [|by left]. constructor; [lia|].
      eapply Forall_impl; [exact Hl|]. simpl. lia.
    + apply (entry_ok_mono (dayBound d T) _ T T); [|done|by apply Hd]. unfold dayBound. rewrite Hc. by apply dayOf_mono.
  - intros t Ht Hr. apply elem_of_cons in Ht as [->|Ht].
    + eexists _, _. rewrite lookup_insert_eq. split; [done|]. cbn [le_lines]. left.
    + destruct (Hk t Ht Hr) as (n & e & Hn & He). destruct (decide (n = logName)) as [->|Hne].
      * eexists _, _. rewrite lookup_insert_eq. split; [done|]. cbn [le_lines]. right. congruence.
      * exists n, e. by rewrite lookup_insert_ne by congruence.
Qed.

Definition log_ok (T : Z) (s : logState) : Prop :=
  dir_ok T (ls_dir s) ∧ kept (ls_written s) T (ls_dir s) ∧ (ls_open s = true → is_Some (ls_dir s !! logName)).

Lemma logStep_ok T s ev : T <= ev.1 → fourDigits ev.1 → log_ok T s → log_ok ev.1 (logStep s ev).
Proof.
  destruct ev as [t ev]. simpl. intros Ht Hf (Hd & Hk & Ho).
  apply (dir_ok_mono T t) in Hd; [|done]. apply (kept_mono _ T t) in Hk; [|done]. unfold logStep. simpl. destruct ev as [f|].
  - pose proof (boot_ok f t _ _ Hf Hd Hk) as H. destruct (setupWindowsEventLog f t (ls_dir s)). exact H.
  - destruct (ls_open s) eqn:E; [|split_and!; try done; by rewrite E].
    destruct (line_ok t _ _ Hf (Ho eq_refl) Hd Hk). split_and!; try done. intros _. simpl.
    destruct (Ho eq_refl) as [c Hc]. unfold logLine. rewrite Hc. by rewrite lookup_insert_eq.
Qed.

Lemma last_cons_default {A} (l : list A) (x d : A) : List.last (x :: l) d = List.last l x.
Proof. revert x d. induction l as [|y l IH]; intros x d; [done|]. transitivity (List.last l y); [exact (IH y d)|symmetry; apply IH]. Qed.

Lemma logRun_ok T s evs :
  StronglySorted Z.le (T :: evs.*1) → Forall fourDigits evs.*1 → log_ok T s → log_ok (List.last evs.*1 T) (logRun s evs).
Proof.
  revert T s. induction evs as [|ev evs IH]; intros T s Hs Hf Hok; [done|]. rewrite fmap_cons in *.
  rewrite last_cons_default. apply StronglySorted_inv in Hs as [Hs Ha]. apply Forall_cons in Hf as [Hf1 Hf].
  apply Forall_cons in Ha as [Ha _]. exact (IH ev.1 (logStep s ev) Hs Hf (logStep_ok T s ev Ha Hf1 Hok)).
Qed.


End Zone.

(** ** Following the log *)

(** [watchLogFile] between two signals: the file, how far it was read and what
    was printed.  A tick reads at most a buffer; [ok] is false for an error
    other than the end of the file, after which the file is opened again. *)
Record watch : Type := mkWatch { wa_file : list ascii; wa_offset : nat; wa_printed : list ascii }.

Definition watchBuffer : nat := 4096.

(** [watchLogFile] starts at the end. *)
Definition watchStart (file : list ascii) : watch := mkWatch file (length file) [].

Definition appended (text : list ascii) (w : watch) : watch := mkWatch (wa_file w ++ text) (wa_offset w) (wa_printed w).

Definition watchTick (ok : bool) (w : watch) : watch :=
  if negb ok then mkWatch (wa_file w) 0 (wa_printed w)
  else
    let new := take watchBuffer (drop (wa_offset w) (wa_file w)) in
    mkWatch (wa_file w) (wa_offset w + length new) (wa_printed w ++ new).

Inductive watchEvent : Type := WAppend (text : list ascii) | WTick.

Definition watchStep (w : watch) (e : watchEvent) : watch :=
  match e with WAppend text => appended text w | WTick => watchTick true w end.

Definition watchRun (w : watch) (l : list watchEvent) : watch := foldl watchStep w l.

Definition watch_ok (from : nat) (w : watch) : Prop :=
  (wa_offset w <= length (wa_file w))%nat ∧ (from <= wa_offset w)%nat ∧
  wa_printed w = take (wa_offset w - from) (drop from (wa_file w)).

Lemma take_min {A} n (l : list A) : take n l = take (Nat.min n (length l)) l.
Proof. destruct (Nat.le_ge_cases n (length l)); [by rewrite Nat.min_l|rewrite Nat.min_r, !take_ge by lia; done]. Qed.

Lemma watch_append from text w : watch_ok from w → watch_ok from (appended text w).
Proof.
  intros (H1 & H2 & H3). unfold watch_ok, appended. simpl. rewrite length_app. split_and!; [lia|done|].
  rewrite drop_app_le, take_app_le by (rewrite ?length_drop; lia). done.
Qed.

Lemma watch_tick from w : watch_ok from w → watch_ok from (watchTick true w).
Proof.
  intros (H1 & H2 & H3). unfold watch_ok, watchTick. cbn [negb wa_file wa_offset wa_printed]. rewrite length_take, length_drop.
  split_and!; [lia|lia|]. rewrite H3. set (n := Nat.min watchBuffer (length (wa_file w) - wa_offset w)).
  replace (wa_offset w + n - from)%nat with ((wa_offset w - from) + n)%nat by lia. rewrite <-take_take_drop, drop_drop. f_equal.
  replace (from + (wa_offset w - from))%nat with (wa_offset w) by lia. unfold n.
  rewrite <-length_drop. apply take_min.
Qed.

Lemma watch_run from w l : watch_ok from w → watch_ok from (watchRun w l) ∧ ∃ added, wa_file (watchRun w l) = wa_file w ++ added.
Proof.
  revert w. induction l as [|e l IH]; intros w Hw; [split; [done|]; exists []; by rewrite app_nil_r|].
  change (watchRun w (e :: l)) with (watchRun (watchStep w e) l). destruct e as [text|].
  - destruct (IH _ (watch_append from text w Hw)) as [H1 [added H2]]. split; [done|]. exists (text ++ added). rewrite app_assoc. exact H2.
  - destruct (IH _ (watch_tick from w Hw)) as [H1 [added H2]]. split; [done|]. by exists added.
Qed.

Lemma watch_catches_up n w :
  (wa_offset w <= length (wa_file w))%nat →
  let w' := watchRun w (replicate n WTick) in
  wa_file w' = wa_file w ∧ wa_offset w' = Nat.min (length (wa_file w)) (wa_offset w + n * watchBuffer).
Proof.
  revert w. induction n as [|n IH]; intros w Hw; [simpl; split; [done|lia]|].
  change (watchRun w (replicate (S n) WTick)) with (watchRun (watchTick true w) (replicate n WTick)).
  assert (wa_offset (watchTick true w) = (wa_offset w + Nat.min watchBuffer (length (wa_file w) - wa_offset w))%nat) as Eo.
  { unfold watchTick. cbn [negb wa_offset]. by rewrite length_take, length_drop. }
  destruct (IH (watchTick true w)) as [H1 H2]; [rewrite Eo; change (wa_file (watchTick true w)) with (wa_file w); lia|]. split; [done|]. rewrite H2, Eo.
  change (wa_file (watchTick true w)) with (wa_file w). lia.
Qed.

(** However the log grows and the ticks fall, the watch has
    printed the text added since it began, in order and once, up to where it
    has read; and enough further ticks print the rest. *)
Theorem watch_prints_new (file : list ascii) (l : list watchEvent) :
  let w := watchRun (watchStart file) l in
  ∃ added, wa_file w = file ++ added ∧ wa_printed w = take (wa_offset w - length file) added ∧
    (∀ n, (length added <= wa_offset w - length file + n * watchBuffer)%nat →
       wa_printed (watchRun w (replicate n WTick)) = added).
Proof.
  cbn zeta. destruct (watch_run (length file) (watchStart file) l) as [Hok [added Ha]].
  { unfold watch_ok, watchStart. simpl. rewrite Nat.sub_diag. split_and!; [lia|lia|done]. }
  set (w := watchRun (watchStart file) l) in *. simpl in Ha. exists added. split; [done|]. pose proof Hok as (H1 & H2 & H3).
  rewrite Ha, drop_app_length in H3. split; [done|]. intros n Hn.
  destruct (watch_run (length file) w (replicate n WTick) Hok) as [(_ & _ & E3) _].
  destruct (watch_catches_up n w H1) as [F1 F2]. rewrite F1, F2, Ha, drop_app_length in E3. rewrite E3. apply take_ge.
  rewrite Ha in H1. rewrite length_app in *. lia.
Qed.

(** ** Examples *)

Module WinLogsExamples.

Definition allOk : fsCalls := mkFs true true true true (λ _, true) (λ _, true) true.

(** Noon of a day. *)
Definition noon (d : Z) : Z := (d * 86400 + 43200) * Second.

Definition evs1 : list (Z * logEvent) :=
  [(noon 19782, Boot allOk); (noon 19782 + 1, Line); (noon 19783, Boot allOk); (noon 19783 + 1, Line); (noon 19784, Boot allOk)].

Lemma evs1_names :
  dom (ls_dir (logRun 0 logInit evs1)) = list_to_set ["newt.log"; "newt-2024-02-29.log"; "newt-2024-03-01.log"]%string.
Proof. apply (bool_decide_unpack _). vm_compute. exact I. Qed.


(** The log of a service that is not restarted is never rotated, however many
    days it covers. *)
Lemma rotation_needs_start :
  dom (ls_dir (logRun 0 logInit [(noon 19782, Boot allOk); (noon 19782 + 1, Line); (noon 19900, Line)])) = {[logName]}.
Proof. apply (bool_decide_unpack _). vm_compute. exact I. Qed.

End WinLogsExamples.
