(* ===== verification/Main.v ===== *)
(** * The program's entry points ([main.go], [authdaemon.go], [newt/newt.go])

    The choice between the subcommands, the service and newt itself; the
    subcommand that lists principals; the order in which the program checks
    its configuration and starts its parts, and in which [Newt.Start] stops
    them; and the times of the update checks.  Each part appears as an event;
    what it does is in the files of the components. *)

From S2P Require Import Prelude.

(** ** Dispatch *)

Inductive mainOutcome : Type :=
  | MPrincipals (args : list string) | MUsage | MService (args : list string) | MServiceCommand | MNewt.

(** [handled] is the answer of [handleServiceCommand]. *)
Definition main (args : list string) (isService handled : bool) : mainOutcome :=
  let rest :=
    if isService then MService (drop 1 args) else if handled then MServiceCommand else MNewt in
  match args with
  | _ :: command :: more =>
      if bool_decide (command = "auth-daemon"%string) then
        match more with
        | sub :: opts => if bool_decide (sub = "principals"%string) then MPrincipals opts else MUsage
        | [] => MUsage
        end
      else rest
  | _ => rest
  end.

(** ** Principals *)

Definition defaultPrincipalsPath : string := "/var/run/auth-daemon/principals".

(** The options, or the status the program exits with. *)
Fixpoint principalsOptions (args : list string) (file user : string) : (string * string) + Z :=
  match args with
  | [] => inl (file, user)
  | flag :: rest =>
      if bool_decide (flag = "--principals-file"%string) then
        match rest with
        | v :: rest' => principalsOptions rest' v user
        | [] => inr 1
        end
      else if bool_decide (flag = "--username"%string) then
        match rest with
        | v :: rest' => principalsOptions rest' file v
        | [] => inr 1
        end
      else if bool_decide (flag = "--help"%string) || bool_decide (flag = "-h"%string) then inr 0
      else inr 1
  end.

(** What is printed and the exit status; [getPrincipals] is the daemon's. *)
Definition runPrincipalsCmd (getPrincipals : string → string → option (list string)) (args : list string) : list string * Z :=
  match principalsOptions args defaultPrincipalsPath "" with
  | inr code => ([], code)
  | inl (file, user) =>
      if bool_decide (user = "") then ([], 1)
      else match getPrincipals file user with
           | None => ([], 1)
           | Some [] => ([""%string], 0)
           | Some l => (l, 0)
           end
  end.

(** ** Starting the program *)

Inductive startEvent : Type :=
  | SFatal (why : string) | SInit | SCheckUpdate | STelemetry (ok : bool) | SAdminServer | SUpdateLoop | SNewt
  | STelemetryShutdown | SAdminShutdown.

#[global] Instance startEvent_eq_dec : EqDecision startEvent.
Proof. solve_decision. Defined.

(** The outcomes of the checks and the settings that matter. *)
Record startEnv : Type := mkStart {
  se_native : bool; se_permitted : bool; se_tlsOk : bool; se_initOk : bool; se_telemetryOk : bool; se_metrics : bool; se_pprof : bool }.

(** [runNewtMain]: everything that it starts, in order, and what its deferred
    calls do when newt has ended. *)
Definition runNewtMain (e : startEnv) : list startEvent :=
  if se_native e && negb (se_permitted e) then [SFatal "permissions"]
  else if negb (se_tlsOk e) then [SFatal "tls"]
  else if negb (se_initOk e) then [SFatal "init"]
  else
    let admin := se_telemetryOk e && (se_metrics e || se_pprof e) in
    [SInit; SCheckUpdate; STelemetry (se_telemetryOk e)] ++ (if admin then [SAdminServer] else []) ++ [SUpdateLoop; SNewt] ++
    (if admin then [STelemetryShutdown; SAdminShutdown] else []).

(** ** The life of newt *)

Inductive part : Type := PClients | PHealth | PWebsocket | PDocker | PBlueprint | PDevice | PProxyManager.

#[global] Instance part_eq_dec : EqDecision part.
Proof. solve_decision. Defined.

Inductive lifeEvent : Type := LFatal | LStarted (p : part) | LStopped (p : part) | LDisconnecting.

#[global] Instance lifeEvent_eq_dec : EqDecision lifeEvent.
Proof. solve_decision. Defined.

(** The configuration, whether the service of the clients could be set up and
    the Docker monitor made and started, which parts messages of the server
    set up, and whether a terminate message came after them. *)
Record newtEnv : Type := mkNewtEnv {
  ne_disableClients : bool; ne_clientsOk : bool; ne_docker : bool; ne_dockerMade : bool; ne_dockerStarted : bool; ne_blueprint : bool;
  ne_device : bool; ne_proxyManager : bool; ne_terminated : bool }.

Definition optPart (b : bool) (l : list lifeEvent) : list lifeEvent := if b then l else [].

(** [Newt.Start] up to the end of the context; [Connect] only starts a
    goroutine and never fails. *)
Definition newtStarts (e : newtEnv) : list lifeEvent :=
  optPart (negb (ne_disableClients e)) [LStarted PClients] ++ [LStarted PHealth; LStarted PWebsocket] ++
  optPart (ne_docker e && ne_dockerMade e && ne_dockerStarted e) [LStarted PDocker] ++ optPart (ne_blueprint e) [LStarted PBlueprint].

(** Set up while it runs, and taken down by the terminate message, which
    forgets what it closed. *)
Definition newtRuns (e : newtEnv) : list lifeEvent :=
  optPart (ne_device e) [LStarted PDevice] ++ optPart (ne_proxyManager e) [LStarted PProxyManager] ++
  optPart (ne_terminated e)
    (optPart (ne_proxyManager e) [LStopped PProxyManager] ++ optPart (ne_device e) [LStopped PDevice] ++
     optPart (negb (ne_disableClients e)) [LStopped PClients]).

(** And after it; the watcher of the blueprint ends with the context, and the
    deferred second [Close] of the websocket finds it closed. *)
Definition newtStops (e : newtEnv) : list lifeEvent :=
  let kept := negb (ne_terminated e) in
  optPart (ne_blueprint e) [LStopped PBlueprint] ++ optPart (negb (ne_disableClients e) && kept) [LStopped PClients] ++
  optPart (ne_docker e && ne_dockerMade e) [LStopped PDocker] ++ [LStopped PHealth] ++ optPart (ne_device e && kept) [LStopped PDevice] ++
  optPart (ne_proxyManager e && kept) [LStopped PProxyManager] ++ [LDisconnecting; LStopped PWebsocket].

Definition Start (e : newtEnv) : list lifeEvent :=
  if negb (ne_disableClients e) && negb (ne_clientsOk e) then [LFatal] else newtStarts e ++ newtRuns e ++ newtStops e.

(** ** Update checks *)

Definition firstUpdate : Z := 120 * Second.
Definition updateInterval : Z := 6 * 3600 * Second.

(** The first tick after [now] of the ticker whose next one is at [next]. *)
Definition nextTick (next now : Z) : Z := next + ((now - next) / updateInterval + 1) * updateInterval.

(** The times at which the ticks are acted on.  Each check has its duration,
    and what [select] takes when a tick and the end are both there; the
    ticker's channel keeps one tick that came during a check, not more. *)
Fixpoint updateChecks (checks : list (Z * bool)) (now next ended : Z) : list Z :=
  match checks with
  | [] => []
  | (d, tick) :: rest =>
      let start := Z.max now next in
      if (ended <? start) && negb (next <=? now) then []
      else if (ended <=? start) && negb tick then []
      else start :: updateChecks rest (start + d) (nextTick next start) ended
  end.

(** The first delay is slept through, whether or not the program is ending;
    the ticker is made after the first check, which takes [d]. *)
Definition updateTimes (d : Z) (checks : list (Z * bool)) (ended : Z) : list Z :=
  let made := firstUpdate + d in firstUpdate :: updateChecks checks made (made + updateInterval) ended.

(** ** Correctness *)

(** A list of options as arguments. *)
Inductive popt : Type := PFile (v : string) | PUser (v : string).

Definition optArgs (o : popt) : list string := match o with PFile v => ["--principals-file"%string; v] | PUser v => ["--username"%string; v] end.

Fixpoint lastFile (l : list popt) (d : string) : string :=
  match l with [] => d | PFile v :: l' => lastFile l' v | PUser _ :: l' => lastFile l' d end.
Fixpoint lastUser (l : list popt) (d : string) : string :=
  match l with [] => d | PUser v :: l' => lastUser l' v | PFile _ :: l' => lastUser l' d end.

Lemma options_spec l file user : principalsOptions (l ≫= optArgs) file user = inl (lastFile l file, lastUser l user).
Proof.
  revert file user. induction l as [|[v|v] l IH]; intros file user; [done|..]; rewrite bind_cons; cbn [optArgs app principalsOptions lastFile lastUser].
  - rewrite bool_decide_true by done. apply IH.
  - rewrite bool_decide_false by done. rewrite bool_decide_true by done. apply IH.
Qed.

(** With options in any order, the last value of each counts:
    the principals of that user in that file are printed, one per line and an
    empty line for none; without a user or when the file cannot be read the
    status is one and nothing is printed. *)
Theorem principals_listed (getPrincipals : string → string → option (list string)) (l : list popt) :
  let user := lastUser l "" in
  runPrincipalsCmd getPrincipals (l ≫= optArgs) =
  if bool_decide (user = "") then ([], 1)
  else match getPrincipals (lastFile l defaultPrincipalsPath) user with
       | None => ([], 1)
       | Some ps => (if bool_decide (ps = []) then [""%string] else ps, 0)
       end.
Proof.
  unfold runPrincipalsCmd. rewrite options_spec. cbn zeta. destruct (bool_decide (lastUser l "" = "")); [done|].
  by destruct (getPrincipals _ _) as [[|p ps]|].
Qed.

(** The program runs newt exactly when every check passed,
    and a check that fails leaves nothing started; the metrics server runs
    only over telemetry that was set up; and telemetry is shut down only when
    that server ran. *)
Theorem startup_guarded (e : startEnv) :
  let ok := negb (se_native e && negb (se_permitted e)) && se_tlsOk e && se_initOk e in
  (SNewt ∈ runNewtMain e ↔ ok = true) ∧ (ok = false → ∃ why, runNewtMain e = [SFatal why]) ∧
  (SAdminServer ∈ runNewtMain e → STelemetry true ∈ runNewtMain e) ∧
  (STelemetryShutdown ∈ runNewtMain e ↔ SAdminServer ∈ runNewtMain e).
Proof.
  destruct e as [nat perm tls init tel met ppr]. unfold runNewtMain. simpl.
  destruct (nat && negb perm), tls, init; simpl; split_and!; try done; try (by eexists);
    try (split; [|done]; rewrite ?list_elem_of_singleton; done);
    destruct tel; simpl; destruct (met || ppr); simpl; rewrite ?elem_of_cons, ?elem_of_nil; naive_solver.
Qed.

(** How often an event happens. *)
Definition times (ev : lifeEvent) (l : list lifeEvent) : nat := length (filter (λ x, x = ev) l).

(** Every part that newt started is stopped once when it ends, whether or not
    the server terminated the tunnel before (and a Docker monitor that was made
    but could not be started is stopped as well); then the server is told, and
    after that only the websocket is closed.  When the clients' service cannot
    be set up nothing is started. *)
Theorem parts_stopped (e : newtEnv) :
  (∀ p, times (LStarted p) (Start e) ≤ times (LStopped p) (Start e) ≤ 1)%nat ∧
  (∀ p, p ≠ PDocker → times (LStopped p) (Start e) = times (LStarted p) (Start e)) ∧
  (Start e = [LFatal] ∨ ∃ before, Start e = before ++ [LDisconnecting; LStopped PWebsocket] ∧ (LDisconnecting ∉ before)).
Proof.
  destruct e as [dc ok dk dm ds bp dv pm tm]. unfold Start. simpl.
  destruct (negb dc && negb ok) eqn:Hf; [split_and!; [by intros []; vm_compute; lia|by intros []|by left]|clear Hf]. split_and!.
  - intros p. destruct dc, dk, dm, ds, bp, dv, pm, tm, p; vm_compute; lia.
  - intros p Hp. destruct dc, dk, dm, ds, bp, dv, pm, tm, p; try done; vm_compute; lia.
  - right. set (l := newtStarts _ ++ _). exists (take (length l - 2) l). subst l.
    split; [by destruct dc, dk, dm, ds, bp, dv, pm, tm|].
    apply (bool_decide_unpack _). destruct dc, dk, dm, ds, bp, dv, pm, tm; vm_compute; exact I.
Qed.

Lemma nextTick_later next now : next <= now → next + updateInterval <= nextTick next now ∧ now < nextTick next now.
Proof.
  intros H. unfold nextTick. pose proof (Z.mul_succ_div_gt (now - next) updateInterval ltac:(done)) as Hd.
  pose proof (Z.div_pos (now - next) updateInterval ltac:(lia) ltac:(done)). split; unfold updateInterval, Second in *; nia.
Qed.

Lemma nextTick_exact t : nextTick t t = t + updateInterval.
Proof. unfold nextTick. rewrite Z.sub_diag, Z.div_0_l by done. lia. Qed.

Lemma updateChecks_late checks now next ended (k : nat) t :
  Forall (λ c, 0 <= c.1) checks → updateChecks checks now next ended !! k = Some t → next + Z.of_nat k * updateInterval <= t ∧ now <= t.
Proof.
  intros Hd. revert now next k. induction Hd as [|[d tick] rest Hd1 Hd IH]; intros now next k; [done|]. cbn [updateChecks].
  destruct (_ && _); [done|]. destruct (_ && _); [done|]. destruct k as [|k]; simpl; [intros [= <-]; lia|].
  intros [H1 H2]%IH. destruct (nextTick_later next (now `max` next)); [lia|]. simpl in *. lia.
Qed.

Lemma updateChecks_prompt checks now next ended (k : nat) t :
  Forall (λ c, 0 <= c.1 < updateInterval) checks → now < next → updateChecks checks now next ended !! k = Some t →
  t = next + Z.of_nat k * updateInterval ∧ t <= ended.
Proof.
  intros Hd. revert now next k. induction Hd as [|[d tick] rest Hd1 Hd IH]; intros now next k Hn; [done|]. cbn [updateChecks].
  rewrite Z.max_r, nextTick_exact by lia. destruct (Z.leb_spec next now); [lia|]. rewrite andb_true_r.
  destruct (Z.ltb_spec ended next); [done|]. destruct (_ && _); [done|]. destruct k as [|k]; simpl; [intros [= <-]; lia|].
  simpl in Hd1. intros [H1 H2]%IH; [|lia]. lia.
Qed.

(** Update checks are rare.  The first comes two minutes after the start, and
    the check after [k] others no earlier than [k] times six hours later,
    however long the checks take; when each takes less than six hours they
    are exactly six hours apart, counted from the end of the first, and none
    after the first comes once the program was told to end. *)
Theorem updates_spaced (d : Z) (checks : list (Z * bool)) (ended : Z) (Hd : 0 <= d) (Hc : Forall (λ c, 0 <= c.1) checks) :
  (∀ (k : nat) t, updateTimes d checks ended !! k = Some t → firstUpdate + Z.of_nat k * updateInterval <= t) ∧
  (Forall (λ c, c.1 < updateInterval) checks → ∀ (k : nat) t, updateTimes d checks ended !! S k = Some t →
   t = firstUpdate + d + Z.of_nat (S k) * updateInterval ∧ t <= ended).
Proof.
  split.
  - intros [|k] t; simpl; [intros [= <-]; lia|]. intros [H _]%updateChecks_late; [lia|done].
  - intros Hs k t. simpl. intros H. eapply updateChecks_prompt in H as [H1 H2]; [lia| |unfold updateInterval, Second; lia].
    rewrite Forall_forall in *. eauto.
Qed.

Module MainExamples.

Lemma dispatch :
  main ["newt"; "auth-daemon"; "principals"; "--username"; "bob"]%string false false = MPrincipals ["--username"; "bob"]%string ∧
  main ["newt"; "auth-daemon"]%string true false = MUsage ∧ main ["newt"; "--id"; "x"]%string false false = MNewt.
Proof. by split_and!. Qed.

Lemma printed :
  runPrincipalsCmd (λ _ u, if bool_decide (u = "bob"%string) then Some ["a"; "b"]%string else None) ["--username"; "eve"; "--username"; "bob"]%string =
  (["a"; "b"]%string, 0).
Proof. reflexivity. Qed.

(** A check of seven hours makes the next one follow at once. *)
Lemma updates_spaced_witness :
  updateTimes 0 [(7 * 3600 * Second, true); (0, true)] (30 * 3600 * Second) =
    [firstUpdate; firstUpdate + updateInterval; firstUpdate + 13 * 3600 * Second] ∧
  ∀ (k : nat) t, updateTimes 0 [(7 * 3600 * Second, true); (0, true)] (30 * 3600 * Second) !! k = Some t → firstUpdate + Z.of_nat k * updateInterval <= t.
Proof.
  split; [reflexivity|]. apply (updates_spaced 0 [(7 * 3600 * Second, true); (0, true)] (30 * 3600 * Second)); [lia|].
  repeat constructor; vm_compute; discriminate.
Defined.

End MainExamples.
